(* ===== verification/_CoqProject ===== *)
-Q . S2P
Prelude.v
Primitives.v
EncString.v
Kdf.v
Keys.v
Recovery.v
Totp.v
PasswordGen.v
Store.v
JsonUtil.v
Queries.v
Users.v
Orgs.v
AuthRequests.v
TwoFactor.v
TotpReplay.v
OneTimeCodes.v
Login.v
LoginSafety.v
Sessions.v
SessionSafety.v
Sends.v
SendAccess.v
Collections.v
Signups.v
Folders.v
Ciphers.v
Vault.v
VaultAccess.v
VaultSync.v
VaultSafety.v
VaultEffects.v
EmergencyAccess.v
EmergencyProtocol.v
Profiles.v
Members.v
OrgCollections.v
MemberProtocol.v
MemberSafety.v
OrgRequests.v
InviteSafety.v
OrgSafety.v
Accounts.v
KeyRotation.v
DeviceApproval.v
AccountRequests.v
AccountFrames.v
ApprovalSafety.v
AccountSafety.v
AccountDeletion.v
Directory.v
Admin.v
ServerSafety.v
HttpClient.v
Notifications.v
Hub.v
SecurityKeys.v
DuoFactor.v
ExternalFactors.v
SingleSignOn.v
SsoSafety.v
