(* ===== verification/Prelude.v ===== *)
(** * NadSafe: a verification library

    NadSafe is a password manager: a client-side cryptographic core
    ([crates/crypto-core]), a server derived from Vaultwarden ([server]) and
    clients around them.  This library models the core and the parts of the
    server that decide who gets in and who gets what, in Rocq definitions that
    follow the source function by function, and proves what they promise.

    ** The program and its parts

    A client derives a master key from the user's password (kdf.rs), stretches
    it, and unwraps the user key with it (keys.rs).  Vault items and
    organization keys travel as authenticated ciphertexts with a textual form
    (enc_string.rs).  A recovery phrase can unwrap the user key too
    (recovery.rs); passwords (password_gen.rs) and one-time codes (totp.rs) are
    generated locally.  The server never sees these keys: it stores users,
    devices, second factors, encrypted items (ciphers) with folders and
    attachments, organizations with their members, groups, collections and
    policies, emergency-access grants and sends in a database, checks requests
    against them, sends mail, and runs periodic jobs.

    ** Files

    The crypto core, against type classes for the cryptographic crates:
    - [Prelude]: results with errors and panics and their [let?] notation,
      bytes, characters, machine integers, list operations of Rust's standard
      library, tactics and hints.
    - [Primitives]: one class per crate, its operations and documented laws;
      [ToyPrimitives] instantiates all of them.
    - [EncString]: enc_string.rs, error.rs.  [Kdf]: kdf.rs.  [Keys]: keys.rs.
      [Recovery]: recovery.rs.  [Totp]: totp.rs.  [PasswordGen]: password_gen.rs.

    The server, against a record of tables and a state-and-error monad:
    - [Store]: rows and tables of db/schema.rs as records and finite maps,
      configuration and request surroundings ([Config], [Env]), the mutable
      [World], the monad [M] with [let*] and [do*], rules [wp_*] that run a
      computation symbolically through every branch, the frame predicates
      [keeps], [safe] and [reads] with their tactics, and [ToyEnv], a concrete
      surrounding for examples.
    - [JsonUtil]: indexing of JSON values and the functions of util.rs that
      rewrite keys.  [Queries]: joins and filters over tables as list
      comprehensions, with lemmas and a rewrite database, and loops that collect.
    - [Users]: crypto.rs, db/models/user.rs, device.rs.
    - [Orgs]: db/models/organization.rs, org_policy.rs, event.rs, and logging
      of api/core/events.rs.
    - [Collections]: db/models/collection.rs, group.rs.  [Folders]:
      db/models/folder.rs, favorite.rs, archive.rs, attachment.rs,
      api/core/folders.rs and the attachment download of api/web.rs.
      [Ciphers]: db/models/cipher.rs and [CipherSyncData].  [Vault]: the
      handlers of api/core/ciphers.rs, one [VaultRequest] per body and [serve].
      Theorems in [VaultAccess] (who reaches a cipher), [VaultSync] (the two
      ways of computing it), [VaultSafety] (what a request may change) and
      [VaultEffects] (what operations do).
    - [AuthRequests]: db/models/auth_request.rs.
    - [TwoFactor]: db/models/two_factor.rs, two_factor_incomplete.rs and
      api/core/two_factor/ (mod.rs, authenticator.rs, email.rs,
      protected_actions.rs), with [PasswordOrOtpData] of api/mod.rs and
      [NumberOrString] of util.rs; theorems in [TotpReplay] and [OneTimeCodes].
    - [Login]: the password grant of api/identity.rs with the second factor,
      the token claims of auth.rs, [kdf_upgrade] of api/core/accounts.rs,
      [master_password_policy] of api/mod.rs and [register_push_device] of
      api/push.rs; theorems in [LoginSafety].
    - [Sessions]: the request guards and [refresh_tokens] of auth.rs, the other
      grants of api/identity.rs, tokens of sso.rs and organization API keys;
      theorems in [SessionSafety].
    - [SecurityKeys]: api/core/two_factor/yubikey.rs and webauthn.rs, and
      [DuoFactor]: duo.rs, duo_oidc.rs and db/models/two_factor_duo_context.rs,
      against records of what their libraries and services do.  Theorems in
      [ExternalFactors], which also puts them in the place of the services of
      [Login].
    - [SingleSignOn]: db/models/sso_auth.rs, sso_client.rs and the rest of sso.rs,
      the endpoints of api/identity.rs that a browser visits on the way, the grant
      [authorization_code] and the dispatch [login], against a record of what the
      OpenID Connect library and the provider do; the links of db/models/user.rs
      are in [Users].  Theorems in [SsoSafety].
    - [EmergencyAccess]: db/models/emergency_access.rs and
      api/core/emergency_access.rs; theorems in [EmergencyProtocol].
    - [Sends]: db/models/send.rs, api/core/sends.rs and the functions of
      util.rs they call; theorems in [SendAccess].
    - [Profiles]: the JSON documents of organizations, members, collections and
      users, [Organization::delete] and [User::delete].  [Members] and
      [OrgCollections]: api/core/organizations.rs, with the guard of auth.rs for
      one collection and [accept_org_invite] of api/core/mod.rs.
      [MemberProtocol]: what may happen to memberships, as a transition system
      on their table, with its properties by induction on steps.
      [MemberSafety]: the handlers follow it.  [OrgRequests]: the handlers
      that write behind their guards, one [OrgRequest] each, and [serve_org].
      Theorems in [OrgSafety], with [InviteSafety] on what a failing invitation
      does to other organizations.
    - [Signups]: who may sign up and create organizations, of config.rs.
      [Accounts], [KeyRotation], [DeviceApproval]: api/core/accounts.rs, with
      registration of api/identity.rs, the views of db/models/device.rs and
      auth_request.rs and [unregister_push_device] of api/push.rs.
      [AccountRequests]: the handlers that write behind their guards, one
      [AccountRequest] each, and [serve_account].  [AccountFrames]: what they
      leave alone.  Theorems in [KeyRotation], [ApprovalSafety] (with the
      transition system of approvals), [AccountSafety] and [AccountDeletion].
    - [Directory]: the synchronization with a directory of api/core/public.rs.
      [Admin]: the endpoints of api/admin.rs that change accounts, memberships
      and organizations, with login and guard.  Theorems, also about requests of
      members, connectors and the administrator mixed, in [ServerSafety].
    - [HttpClient]: http_client.rs and [is_global_hardcoded] of util.rs, with
      its theorems.  It has a state of its own, the compiled pattern and the
      addresses contacted.
    - [Notifications]: the messages of api/notifications.rs and api/push.rs, with
      the theorems on frames and dates.  [Hub]: the connections of
      api/notifications.rs as a step relation in which calls, deliveries and
      connections interleave, with its invariants.

    A definition has the name of the function or type it models, methods
    prefixed with their type ([User_set_password] is [User::set_password]); the
    fields of a row are prefixed with a letter or two ([u_email], [s_atype]).

    ** What the theorems show

    - Round trips: what the core encrypts, prints, wraps or shares comes back,
      through text, keys, organization members and recovery phrases
      ([EncString_wire_roundtrip], [MasterKey_user_key_roundtrip],
      [UserKey_vault_roundtrip], [OrgKey_member_roundtrip],
      [recovery_roundtrip]); nothing is decrypted before its MAC is checked
      ([EncString_decrypt_spec]).
    - Exact behaviour of parsers, generators and codes, errors and panics
      included ([EncString_parse_spec], [base32_decode_spec],
      [generate_totp_spec], [phrase_to_entropy_spec],
      [entropy_to_phrase_format], [generate_password_spec]).
    - Second factors: a code of an authenticator app works once, within its
      window ([totp_no_replay], [validate_totp_code_spec]); mailed codes refine
      small state machines, from which limits on guessing and reuse follow for
      every series of attempts ([validate_email_code_refines],
      [email_code_guesses_bounded] and their counterparts for protected
      actions); saving a factor means the same in each database
      ([TwoFactor_save_spec]).
    - Emergency access: every handler and job, whatever its outcome, takes only
      steps of an abstract protocol ([emergency_access_refines]); its invariant,
      the conditions of an approval and of access, and the progress of the
      timeout job follow.
    - Sends: every handler takes only steps its requester is entitled to
      ([sends_refine]); the access limit holds against everyone but the owner
      ([send_openings_bounded]); opening and quota exactly ([post_access_spec],
      [post_send_file_v2_quota]).
    - Logging in: a password login needs an enabled account, its first factor, a
      verified address where that is demanded, and a second factor the account
      has enabled, whatever the external services are ([login_password_sound]) and
      with those modelled here ([external_login_sound]): a context of Duo and a
      challenge of WebAuthn are used once ([duo_login_once],
      [webauthn_login_once]), codes of YubiKeys and signed values of Duo are
      accepted exactly when they are right ([yubikey_login_exact],
      [duo_iframe_exact], [duo_iframe_complete]); a login with client credentials
      needs the API key of a user or an organization ([api_key_login_sound]).
    - Single sign-on: a login needs a fresh attempt and an identity the provider
      vouches for, now or at an earlier login of the attempt, enters only the account that is linked to it, or unlinked with
      its confirmed address, or new, and asks for the second factor
      ([sso_login_sound]); through any run of the server only the browser that
      began a login can bring its code ([sso_flow_bound]), which works once
      for each return and attempt ([sso_code_once]); identities and accounts stay linked one to one
      ([sso_links_one_to_one]), and a session of the provider is refreshed only
      while the provider stands by it ([sso_session_follows_provider]).
    - Sessions: the guards of the organization endpoints let through exactly the
      members in the right state and role ([org_guards_exact]); a password
      change ends the sessions of the account
      ([password_change_ends_sessions]).
    - The vault: the queries for a user's access to a cipher compute exactly the
      routes the tables give ([Cipher_access_exact]); a synchronization computes
      the same without groups and is never stricter with them
      ([sync_access_permissive]); the list of ciphers shows only accessible ones
      ([visible_accessible]).  Every request, whatever its outcome, changes only
      what its user may write ([vault_requests_guarded]).  Deleting a cipher,
      moving it and uploading an attachment have exact effects
      ([Cipher_delete_spec], [Cipher_move_to_folder_spec],
      [save_attachment_quota]).
    - Organizations: every request to their endpoints does to the memberships
      what the rules of [member_step] allow its caller, whatever its outcome
      ([member_requests_refine]).  So through any sequence of requests the table
      of memberships stays in order ([requests_keep_order]) and an organization
      keeps a confirmed owner until it is deleted ([last_owner_kept]); only
      owners change owners or make administrators ([owners_protected]); other
      organizations are left alone, unless an invitation fails and its account
      is deleted ([organizations_apart]).  Revoking and
      restoring a membership; the order of roles.
    - Accounts: a request to the account endpoints changes no other account
      ([accounts_apart]); an account is made or completed only on grounds, with
      the data of the request ([registration_sound]), and its address changes
      only with the code sent to the new one ([email_change_sound]); the key
      derivation stays in bounds ([set_kdf_data_exact]).  A key rotation comes with
      the password and covers everything that is under the account key, or is
      refused ([rotation_refused]), and if it succeeds everything is under the new one
      ([rotation_complete]).  A deletion removes exactly what belongs to the
      account, in every table ([deletion_complete]).
    - Approvals by device: all account endpoints follow a protocol of asking,
      answering once and expiring ([approvals_refine]), so that a login by
      approval needs one, by a session of the same account
      ([device_login_approved], through any sequence of requests).
    - The whole server: requests of members, directory connectors and the
      administrator in any order leave every organization an owner
      ([server_keeps_owners]); a connector needs the key of its organization and
      can add only plain members, revoke, restore, and remove those no longer
      listed ([directory_import_contained]); a disabled
      account is locked out of every way in ([disabled_locked_out]).
    - The HTTP client: the test for global addresses is that of the IANA
      registries, three blocks apart ([is_global_registry]), no request leaves the allowed part of the network
      ([requests_stay_global]), redirects end ([redirects_end]), and keeping the
      compiled pattern changes no answer ([regex_cache_transparent]).
    - Notifications: frames and dates are read back ([serialize_framed],
      [date_read_back]); in every interleaving a connection gets only what is
      meant for its user, in order ([notifications_private]), and no message
      for an open connection is lost ([notifications_delivered]).
    - Some theorems state behaviour that is not what the code means to do:
      [timeout_job_panics], [activate_authenticator_stored_secret],
      [obscure_email_panics], [find_main_user_org_ignores_revocation],
      [unconfirmed_member_may_write], [share_leaves_foreign_link],
      [Cipher_save_archives], [import_bad_relation_panics],
      [failed_invite_deletes_account], [edit_member_foreign_group],
      [rotation_stops_halfway], [deletion_fails_late],
      [email_change_loses_account], [registration_loses_invitation],
      [enforced_2fa_skipped], [anonymous_takeover_lost],
      [last_key_blocks_login], [yubikey_without_keys], [sso_refusal_unlogged],
      [exchange_code_again], [returned_code_not_exchanged], the failing case of [Cipher_delete_spec] and the exception in [post_send_file_v2_quota].

    ** Conventions and limits of the model

    - A request runs alone, from one database state to the next, and reads the
      clock once; other requests run before or after it, in series.  Only the
      connections of [Hub] interleave.  Handlers
      run outside transactions: an error does not undo earlier writes, and the
      model keeps them.
    - Tables are finite maps by primary key; unique constraints are part of the
      operations that write.  A query without an order returns rows in an
      arbitrary but fixed order.  Failures of the database itself are not
      modelled.  Of foreign keys the model has the cascade from ciphers to archive
      marks, where a save replaces a row ([save_replaces_row]), the one from
      accounts to their links of single sign-on, and the
      references from second factors and requests for approval to the account
      ([enforces_references], [unreferenced]); the unique index on addresses is
      not part of it, and no theorem relies on it.
    - Random identifiers, indices and bytes are streams indexed by a counter of
      the world; [Env_ok] states their contracts, [fresh_ids] that drawn
      identifiers are unused.
    - Third-party functions (hashes, encodings, JSON text, mail delivery, dates
      as text, web tokens, storage) are fields of [Env], class operations or
      section variables; what a theorem relies on is among its hypotheses, and
      each theorem with hypotheses has a lemma named after it with [_witness]
      that applies it to a concrete input.
    - Integers keep their width where it matters: [u8], [u32], [u64], [i32] and
      [i64] operations wrap, saturate, check or panic as the source does;
      arithmetic that only overflows in debug builds wraps as in the release
      profile on the server, and the core is proved for both ([Target]).
      Dates are nanoseconds since the epoch, with chrono's range checked where
      the source may leave it.
    - Text is a list of Unicode scalar values in the core and in
      [obscure_email], and a UTF-8 byte string elsewhere on the server.
    - Recursion that is not structural has fuel: [fill_remainder] has as many
      rounds as the requested length, [chunks] as many as elements, [dec_digits]
      ten, the digits of a [u32], [len_loop] ten, the groups of seven bits of
      64, and [HttpClient.send] any number from five, the most exchanges a
      request may have; the theorems about them are
      equalities or existence statements, so the fuel is shown to suffice.
    - Logging and metrics are left out.  Notifications have no effect on the
      modelled state: the handlers' calls to the senders of [Notifications] are
      left out, the database writes in their arguments are kept.

    ** Not modelled

    [sync], which needs the domain lists; the listing of events; the pages,
    settings and diagnostics of the administrator; icons and static files;
    configuration parsing, mail templates, storage back ends, database
    migrations, the desktop and browser clients.  The groups after the events are
    mostly input and output or calls to services. *)

From stdpp Require Import base strings numbers list.

(** ** Results, errors and panics

    A fallible Rust function returns [Ok] or [Err]; [Panic] is what an
    [expect], [unwrap], slice index or arithmetic check does when it fires. *)

Inductive res (E A : Type) : Type :=
  | Ok (a : A)
  | Err (e : E)
  | Panic.
Arguments Ok {E A} a.
Arguments Err {E A} e.
Arguments Panic {E A}.

#[export] Instance res_eq_dec {E A} `{EqDecision E, EqDecision A} : EqDecision (res E A).
Proof. solve_decision. Defined.

Definition rbind {E A B : Type} (m : res E A) (k : A → res E B) : res E B :=
  match m with
  | Ok a => k a
  | Err e => Err e
  | Panic => Panic
  end.

(** [.map_err(f)?] and [.ok_or(e)?] *)
Definition map_err {E F A : Type} (f : E → F) (m : res E A) : res F A :=
  match m with
  | Ok a => Ok a
  | Err e => Err (f e)
  | Panic => Panic
  end.

Definition ok_or {E A : Type} (e : E) (o : option A) : res E A :=
  match o with
  | Some a => Ok a
  | None => Err e
  end.

(** [.expect(..)] and [.unwrap()] on an option *)
Definition expect {E A : Type} (o : option A) : res E A :=
  match o with
  | Some a => Ok a
  | None => Panic
  end.

Declare Scope nad_scope.
Delimit Scope nad_scope with nad.

(** [let? x := m in k] is Rust's [let x = m?; k]. *)
Notation "'let?' x := m 'in' k" := (rbind m (λ x, k))
  (at level 10, x pattern, m at level 100, k at level 200) : nad_scope.
(** [guard b else e in k] is [if !b { return Err(e) } k]. *)
Notation "'guard' b 'else' e 'in' k" := (if b then k else Err e)
  (at level 10, b at level 100, e at level 100, k at level 200) : nad_scope.
#[global] Open Scope nad_scope.

(** A loop whose body may fail, over the elements of a list. *)
Fixpoint rmap {E A B : Type} (f : A → res E B) (l : list A) : res E (list B) :=
  match l with
  | [] => Ok []
  | x :: l => let? y := f x in let? ys := rmap f l in Ok (y :: ys)
  end.

Lemma rbind_Ok_inv {E A B} (m : res E A) (k : A → res E B) b :
  rbind m k = Ok b → ∃ a, m = Ok a ∧ k a = Ok b.
Proof. destruct m; naive_solver. Qed.

Lemma rbind_assoc {E A B C} (m : res E A) (k : A → res E B) (h : B → res E C) :
  rbind (rbind m k) h = rbind m (λ a, rbind (k a) h).
Proof. by destruct m. Qed.

#[export] Instance from_option_dec {A} (P : A → Prop) Q (o : option A) :
  (∀ x, Decision (P x)) → Decision Q → Decision (from_option P Q o).
Proof. destruct o; apply _. Defined.

(** ** Machine integers *)

Definition u8_max : Z := 255.
Definition is_u8 (x : Z) : Prop := (0 ≤ x < 256)%Z.
(** [x as u8] *)
Definition as_u8 (x : Z) : Z := (x mod 256)%Z.
Definition u32_wrap (x : Z) : Z := (x mod 2 ^ 32)%Z.
Definition u64_wrap (x : Z) : Z := (x mod 2 ^ 64)%Z.

#[export] Instance is_u8_dec x : Decision (is_u8 x).
Proof. unfold is_u8. apply _. Defined.

(** The build target: whether arithmetic overflow panics (a Cargo profile
    setting; the release profile wraps), and the width of [usize]. *)
Record Target := mkTarget { overflow_checks : bool; usize_bits : Z }.
Definition usize_add {E} (t : Target) (a b : Z) : res E Z :=
  if (a + b <? 2 ^ usize_bits t)%Z then Ok (a + b)%Z
  else if overflow_checks t then Panic
  else Ok ((a + b) mod 2 ^ usize_bits t)%Z.

(** A byte string: a [Vec<u8>], [&[u8]] or [[u8; N]]. *)
Abbreviation bytes := (list Z).
Definition bytes_ok (l : bytes) : Prop := Forall is_u8 l.

(** ** Characters and strings

    A [char] is its Unicode scalar value, a [str] the list of its characters;
    [utf8_len] gives the number of bytes [str::len] counts for a character. *)

Abbreviation str := (list Z).

Definition chars (s : string) : str :=
  (λ a : Ascii.ascii, Z.of_N (Ascii.N_of_ascii a)) <$> String.list_ascii_of_string s.

(** A byte string as text. *)
Definition string_of_chars (s : str) : string :=
  String.string_of_list_ascii ((λ c, Ascii.ascii_of_N (Z.to_N c)) <$> s).

Definition is_ascii (c : Z) : bool := (0 <=? c)%Z && (c <? 128)%Z.

Definition utf8_char_len (c : Z) : nat :=
  if (c <? 128)%Z then 1
  else if (c <? 2048)%Z then 2
  else if (c <? 65536)%Z then 3
  else 4.

(** [str::len] *)
Definition utf8_len (s : str) : nat := sum_list (utf8_char_len <$> s).

(** [str::as_bytes]: the UTF-8 encoding. *)
Definition utf8_encode_char (c : Z) : bytes :=
  (if c <? 128 then [c]
   else if c <? 2048 then [192 + c / 64; 128 + c mod 64]
   else if c <? 65536 then [224 + c / 4096; 128 + (c / 64) mod 64; 128 + c mod 64]
   else [240 + c / 262144; 128 + (c / 4096) mod 64; 128 + (c / 64) mod 64; 128 + c mod 64])%Z.
Definition as_bytes (s : str) : bytes := s ≫= utf8_encode_char.
(** The characters of a valid UTF-8 text. *)
Fixpoint utf8_decode (l : bytes) : str :=
  match l with
  | [] => []
  | a :: l1 =>
     if (a <? 128)%Z then a :: utf8_decode l1
     else match l1 with
     | [] => []
     | b :: l2 =>
        if (a <? 224)%Z then ((a - 192) * 64 + (b - 128))%Z :: utf8_decode l2
        else match l2 with
        | [] => []
        | c :: l3 =>
           if (a <? 240)%Z then ((a - 224) * 4096 + (b - 128) * 64 + (c - 128))%Z :: utf8_decode l3
           else match l3 with
           | [] => []
           | d :: l4 => ((a - 240) * 262144 + (b - 128) * 4096 + (c - 128) * 64 + (d - 128))%Z :: utf8_decode l4
           end
        end
     end
  end.

(** [char::is_whitespace]: the Unicode White_Space property. *)
Definition is_whitespace (c : Z) : bool :=
  ((9 <=? c) && (c <=? 13) || (c =? 32) || (c =? 133) || (c =? 160) || (c =? 5760)
   || (8192 <=? c) && (c <=? 8202) || (c =? 8232) || (c =? 8233) || (c =? 8239)
   || (c =? 8287) || (c =? 12288))%Z.

(** [u8::to_ascii_uppercase] and [to_ascii_lowercase] on a character. *)
Definition ascii_upper (c : Z) : Z := if ((97 <=? c) && (c <=? 122))%Z then (c - 32)%Z else c.
Definition ascii_lower (c : Z) : Z := if ((65 <=? c) && (c <=? 90))%Z then (c + 32)%Z else c.

(** [char::is_ascii_hexdigit] *)
Definition is_ascii_hexdigit (c : Z) : bool :=
  ((48 <=? c) && (c <=? 57) || (65 <=? c) && (c <=? 70) || (97 <=? c) && (c <=? 102))%Z.

(** ** List operations of the Rust standard library *)

Section list_ops.
Context {A : Type}.
Implicit Types (l : list A) (p : A → bool).

Fixpoint position p l : option nat :=
  match l with
  | [] => None
  | x :: l => if p x then Some 0 else S <$> position p l
  end.

(** [str::split_once]: split at the first character satisfying [p]. *)
Fixpoint split_once p l : option (list A * list A) :=
  match l with
  | [] => None
  | x :: l =>
     if p x then Some ([], l)
     else (λ '(a, b), (x :: a, b)) <$> split_once p l
  end.

(** [str::splitn]: at most [n] pieces, the last one unsplit. *)
Fixpoint splitn (n : nat) p l : list (list A) :=
  match n with
  | 0 => []
  | 1 => [l]
  | S n =>
     match split_once p l with
     | None => [l]
     | Some (a, b) => a :: splitn n p b
     end
  end.

(** [str::trim_end_matches] with a single-character pattern. *)
Fixpoint trim_end_matches p l : list A :=
  match l with
  | [] => []
  | x :: l =>
     match trim_end_matches p l with
     | [] => if p x then [] else [x]
     | l' => x :: l'
     end
  end.

(** [slice::chunks] *)
Fixpoint chunks_fuel (fuel k : nat) l : list (list A) :=
  match fuel, l with
  | _, [] => []
  | 0, _ => []
  | S fuel, _ => take k l :: chunks_fuel fuel k (drop k l)
  end.
Definition chunks (k : nat) l : list (list A) := chunks_fuel (length l) k l.

Lemma split_once_app p (a b : list A) x :
  Forall (λ y, p y = false) a → p x = true → split_once p (a ++ x :: b) = Some (a, b).
Proof. induction 1 as [|y a Hy _ IH]; intros Hx; simpl; [by rewrite Hx|]. by rewrite Hy, IH. Qed.

Lemma split_once_Some p l (a b : list A) :
  split_once p l = Some (a, b) ↔
  ∃ x, l = a ++ x :: b ∧ p x = true ∧ Forall (λ y, p y = false) a.
Proof.
  split; [|intros (x & -> & Hx & Ha); by apply split_once_app].
  revert a. induction l as [|y l IH]; intros a; simpl; [done|].
  destruct (p y) eqn:Hy; [intros [= <- <-]; eauto|].
  destruct (split_once p l) as [[a' b']|]; [|done].
  intros [= <- <-]. destruct (IH a' eq_refl) as (x & -> & Hx & Ha).
  exists x. split_and!; [done..|]. by constructor.
Qed.

Lemma split_once_None p l : split_once p l = None ↔ Forall (λ y, p y = false) l.
Proof.
  induction l as [|x l IH]; simpl; [by split; [constructor|]|]. rewrite Forall_cons, <- IH.
  destruct (p x); [naive_solver|]. destruct (split_once p l) as [[]|]; naive_solver.
Qed.

Lemma splitn_SS n p l :
  splitn (S (S n)) p l =
    match split_once p l with
    | None => [l]
    | Some (a, b) => a :: splitn (S n) p b
    end.
Proof. done. Qed.

Lemma splitn_1 p l : splitn 1 p l = [l].
Proof. done. Qed.

Lemma position_lt p l i : position p l = Some i → i < length l.
Proof.
  revert i. induction l as [|x l IH]; intros i; simpl; [done|].
  destruct (p x); [intros [= <-]; lia|].
  destruct (position p l) as [j|]; simpl; [|done].
  intros [= <-]. specialize (IH j eq_refl). lia.
Qed.

Lemma position_None p l : position p l = None ↔ Forall (λ x, p x = false) l.
Proof.
  induction l as [|x l IH]; simpl; [naive_solver|].
  rewrite Forall_cons. destruct (p x); [naive_solver|].
  destruct (position p l); naive_solver.
Qed.

Lemma trim_end_matches_id p l :
  Forall (λ x, p x = false) l → trim_end_matches p l = l.
Proof. induction 1 as [|x l Hx _ IH]; simpl; [done|]. rewrite IH. destruct l; [by rewrite Hx|done]. Qed.

Lemma trim_end_matches_app p l (t : list A) :
  Forall (λ x, p x = true) t → trim_end_matches p (l ++ t) = trim_end_matches p l.
Proof.
  intros Ht. induction l as [|x l IH]; simpl; [|by rewrite IH].
  induction Ht as [|y t Hy _ IHt]; simpl; [done|]. by rewrite IHt, Hy.
Qed.
End list_ops.
#[global] Arguments split_once : simpl never.
#[global] Arguments splitn : simpl never.

(** ** Automation *)

Create HintDb nad.

(** Invert a successful chain of [let?] and [guard] steps. *)
Ltac res_inv_step :=
  match goal with
  | H : Ok _ = Ok _ |- _ => injection H as H
  | H : Err _ = Ok _ |- _ => discriminate H
  | H : Panic = Ok _ |- _ => discriminate H
  | H : rbind _ _ = Ok _ |- _ =>
     let x := fresh "x" in let Hx := fresh "Hx" in
     apply rbind_Ok_inv in H as (x & Hx & H)
  | H : (if ?b then _ else _) = Ok _ |- _ => destruct b eqn:?
  | H : match ?m with _ => _ end = Ok _ |- _ => destruct m eqn:?
  | H : map_err _ ?m = Ok _ |- _ => destruct m eqn:?; simpl in H
  | H : ok_or _ ?m = Ok _ |- _ => destruct m eqn:?; simpl in H
  | H : expect ?m = Ok _ |- _ => destruct m eqn:?; simpl in H
  end.
Ltac res_inv := repeat (res_inv_step; simplify_eq/=).

(** Close a goal by evaluation. *)
Ltac run := vm_compute; reflexivity.
