(* ===== verification/Primitives.v ===== *)
(** * Interfaces of the cryptographic crates the crypto core calls

    The crates [rand], [aes]/[cbc], [hmac]/[sha1]/[sha2], [hkdf], [pbkdf2],
    [argon2], [rsa] and [base64] are not part of the repository.  Each is a
    type class: its operations, and the documented behaviour the crypto core
    relies on as laws.  [ToyPrimitives] instantiates every class with concrete
    functions, so the theorems proved against the classes can be run. *)

From stdpp Require Import base strings numbers list.
From S2P Require Import Prelude.

(** [rand::thread_rng()]: a thread-local generator, threaded as a state. *)
Class Rng := {
  rng : Type;
  fill_bytes : nat → rng → bytes * rng;
  (** [gen_range(0..n)] *)
  gen_range : nat → rng → nat * rng;
  (** [SliceRandom::shuffle] *)
  shuffle : ∀ {A : Type}, list A → rng → list A * rng;
  fill_bytes_length n g : length (fill_bytes n g).1 = n;
  fill_bytes_ok n g : bytes_ok (fill_bytes n g).1;
  gen_range_lt n g : 0 < n → (gen_range n g).1 < n;
  shuffle_perm {A : Type} (l : list A) g : (shuffle l g).1 ≡ₚ l;
}.

(** AES-256-CBC with PKCS#7 padding ([cbc::Encryptor<Aes256>] and
    [cbc::Decryptor<Aes256>]); decryption fails on bad padding. *)
Class AesCbc := {
  aes_encrypt : bytes → bytes → bytes → bytes;
  aes_decrypt : bytes → bytes → bytes → option bytes;
  aes_decrypt_encrypt key iv pt :
    length key = 32 → length iv = 16 →
    aes_decrypt key iv (aes_encrypt key iv pt) = Some pt;
  aes_encrypt_ok key iv pt : bytes_ok pt → bytes_ok (aes_encrypt key iv pt);
}.

(** [KeyIvInit::new_from_slices]: fails exactly when a length is wrong. *)
Definition aes_new_from_slices (key iv : bytes) : bool :=
  bool_decide (length key = 32) && bool_decide (length iv = 16).

(** A streaming MAC ([hmac::Mac]): [update] may be called with any chunking
    of the message. *)
Class StreamMac (out_len : nat) := {
  mac_state : Type;
  mac_new : bytes → option mac_state;
  mac_update : mac_state → bytes → mac_state;
  mac_finalize : mac_state → bytes;
  hmac : bytes → bytes → bytes;
  mac_spec key :
    ∃ s, mac_new key = Some s ∧
      ∀ msgs, mac_finalize (foldl mac_update s msgs) = hmac key (concat msgs);
  hmac_length key msg : length (hmac key msg) = out_len;
  hmac_ok key msg : bytes_ok (hmac key msg);
}.
Abbreviation HmacSha256 := (StreamMac 32).
Abbreviation HmacSha1 := (StreamMac 20).

(** [Hkdf::<Sha256>]: [from_prk] needs a PRK of at least 32 bytes, [expand]
    at most 255 * 32 bytes of output; errors carry their rendered message. *)
Class Hkdf := {
  hkdf_from_prk : bytes → string + bytes;
  hkdf_expand : bytes → bytes → nat → string + bytes;
  hkdf_from_prk_ok prk : 32 ≤ length prk → hkdf_from_prk prk = inr prk;
  hkdf_expand_ok prk info n :
    n ≤ 255 * 32 → ∃ okm, hkdf_expand prk info n = inr okm ∧ length okm = n ∧ bytes_ok okm;
}.

(** Password hashing: [pbkdf2_hmac::<Sha256>] and [argon2::Argon2] (Argon2id,
    version 0x13), whose parameter and input checks may fail. *)
Class PasswordHash := {
  pbkdf2_sha256 : bytes → bytes → Z → nat → bytes;
  argon2_params : Type;
  argon2_params_new : Z → Z → Z → option nat → string + argon2_params;
  argon2id_hash : argon2_params → bytes → bytes → nat → string + bytes;
  pbkdf2_length pw salt it n : length (pbkdf2_sha256 pw salt it n) = n;
  argon2id_length p pw salt n h : argon2id_hash p pw salt n = inr h → length h = n;
}.

(** RSA with OAEP-SHA256; keys are DER byte strings, [rsa_pair] relates a
    private key to its public key.  OAEP-SHA256 under a 2048-bit modulus
    takes messages of at most 190 bytes. *)
Class Rsa `{Rng} := {
  rsa_encrypt : bytes → bytes → rng → (string + bytes) * rng;
  rsa_decrypt : bytes → bytes → string + bytes;
  rsa_generate : rng → (string + (bytes * bytes)) * rng;
  rsa_pair : bytes → bytes → Prop;
  rsa_generate_pair g priv pub g' :
    rsa_generate g = (inr (priv, pub), g') → rsa_pair priv pub;
  rsa_decrypt_encrypt priv pub msg g :
    rsa_pair priv pub → length msg ≤ 190 →
    ∃ ct g', rsa_encrypt pub msg g = (inr ct, g') ∧ rsa_decrypt priv ct = inr msg;
}.

(** The standard base64 alphabet, with padding ([STANDARD] engine). *)
Definition is_b64_char (c : Z) : bool :=
  ((65 <=? c) && (c <=? 90) || (97 <=? c) && (c <=? 122) || (48 <=? c) && (c <=? 57)
   || (c =? 43) || (c =? 47) || (c =? 61))%Z.

Class Base64 := {
  b64_encode : bytes → str;
  b64_decode : str → string + bytes;
  b64_decode_encode b : bytes_ok b → b64_decode (b64_encode b) = inr b;
  b64_encode_alphabet b : bytes_ok b → Forall (λ c, is_b64_char c = true) (b64_encode b);
}.

(** Unicode case mapping ([str::to_lowercase], [str::to_uppercase]); on ASCII
    input both act byte by byte. *)
Class Unicode := {
  to_lowercase : str → str;
  to_uppercase : str → str;
  to_lowercase_ascii s : forallb is_ascii s = true → to_lowercase s = ascii_lower <$> s;
  to_uppercase_ascii s : forallb is_ascii s = true → to_uppercase s = ascii_upper <$> s;
}.

Lemma mac_new_some {n} `{StreamMac n} key : is_Some (mac_new key).
Proof. destruct (mac_spec key) as (s & -> & _). eauto. Qed.

Lemma mac_two_chunks {n} `{StreamMac n} key s a b :
  mac_new key = Some s →
  mac_finalize (mac_update (mac_update s a) b) = hmac key (a ++ b).
Proof.
  intros Hs. destruct (mac_spec key) as (s' & Hs' & Hm). simplify_eq.
  specialize (Hm [a; b]). simpl in Hm. by rewrite app_nil_r in Hm.
Qed.

Lemma mac_one_chunk {n} `{StreamMac n} key s a :
  mac_new key = Some s → mac_finalize (mac_update s a) = hmac key a.
Proof.
  intros Hs. destruct (mac_spec key) as (s' & Hs' & Hm). simplify_eq.
  specialize (Hm [a]). simpl in Hm. by rewrite app_nil_r in Hm.
Qed.

(** ** Concrete instances *)

Module ToyPrimitives.
(** A counter-driven generator. *)
Definition toy_fill (n : nat) (g : Z) : bytes * Z :=
  ((λ i : nat, ((g + 7 * Z.of_nat i) mod 256)%Z) <$> seq 0 n, (g + 1)%Z).

#[export, refine] Instance ToyRng : Rng := {|
  rng := Z;
  fill_bytes := toy_fill;
  gen_range n g := (Z.to_nat (g mod Z.of_nat n), (g + 1)%Z);
  shuffle A l g := (reverse l, (g + 1)%Z);
|}.
Proof.
  - intros n g. simpl. by rewrite length_fmap, length_seq.
  - intros n g. apply Forall_fmap, Forall_true. intros i. unfold is_u8. simpl.
    apply Z.mod_pos_bound. lia.
  - intros n g Hn. simpl. pose proof (Z.mod_pos_bound g (Z.of_nat n)). lia.
  - intros A l g. simpl. by rewrite reverse_Permutation.
Defined.

(** "Encryption" that appends a checkable trailer. *)
#[export, refine] Instance ToyAes : AesCbc := {|
  aes_encrypt key iv pt := 7%Z :: pt;
  aes_decrypt key iv ct := match ct with 7%Z :: pt => Some pt | _ => None end;
|}.
Proof.
  - done.
  - intros key iv pt Hpt. by constructor.
Defined.

Definition toy_sum (key msg : bytes) : Z := ((foldr Z.add 0 (key ++ msg)) mod 256)%Z.

Lemma toy_mac_spec (n : nat) (key : bytes) :
  ∃ s : bytes * bytes, Some (key, @nil Z) = Some s ∧
    ∀ msgs, (λ s : bytes * bytes, replicate n (toy_sum s.1 s.2))
              (foldl (λ (s : bytes * bytes) m, (s.1, s.2 ++ m)) s msgs)
            = replicate n (toy_sum key (concat msgs)).
Proof.
  eexists. split; [done|]. intros msgs. f_equal.
  assert (∀ acc, foldl (λ (s : bytes * bytes) m, (s.1, s.2 ++ m)) (key, acc) msgs
                 = (key, acc ++ concat msgs)) as Hf.
  { induction msgs as [|m msgs IH]; intros acc; simpl; [by rewrite app_nil_r|].
    by rewrite IH, <- app_assoc. }
  by rewrite Hf.
Qed.

#[export, refine] Instance ToyMac (n : nat) : StreamMac n := {|
  mac_state := bytes * bytes;
  mac_new key := Some (key, []);
  mac_update s m := (s.1, s.2 ++ m);
  mac_finalize s := replicate n (toy_sum s.1 s.2);
  hmac key msg := replicate n (toy_sum key msg);
|}.
Proof.
  - intros key. apply toy_mac_spec.
  - intros key msg. apply length_replicate.
  - intros key msg. apply Forall_replicate. apply Z.mod_pos_bound. lia.
Defined.

#[export, refine] Instance ToyHkdf : Hkdf := {|
  hkdf_from_prk prk := if decide (32 ≤ length prk) then inr prk else inl "prk too short"%string;
  hkdf_expand prk info n :=
    if decide (n ≤ 255 * 32) then inr (replicate n (toy_sum prk info)) else inl "too long"%string;
|}.
Proof.
  - intros prk Hl. by rewrite decide_True by done.
  - intros prk info n Hn. rewrite decide_True by done. eexists. split; [done|].
    split; [apply length_replicate|]. apply Forall_replicate. apply Z.mod_pos_bound. lia.
Defined.

#[export, refine] Instance ToyPasswordHash : PasswordHash := {|
  pbkdf2_sha256 pw salt it n := replicate n (toy_sum pw (it :: salt));
  argon2_params := Z;
  argon2_params_new m t p n :=
    if bool_decide (8 * p ≤ m)%Z then inr (m + t + p)%Z else inl "memory too little"%string;
  argon2id_hash p pw salt n :=
    if bool_decide (8 ≤ length salt) then inr (replicate n (toy_sum pw (p :: salt)))
    else inl "salt is too short"%string;
|}.
Proof.
  - intros. apply length_replicate.
  - intros p pw salt n h. case_bool_decide; intros [= <-]. apply length_replicate.
Defined.

(** Key pairs are equal private and public strings. *)
#[export, refine] Instance ToyRsa : Rsa := {|
  rsa_encrypt pub msg g :=
    if bool_decide (length msg ≤ 190) then (inr (pub ++ msg), (g + 1)%Z : rng)
    else (inl "message too long"%string, g);
  rsa_decrypt priv ct :=
    if bool_decide (take (length priv) ct = priv) then inr (drop (length priv) ct)
    else inl "decryption error"%string;
  rsa_generate g := let '(k, g') := fill_bytes 8 g in (inr (k, k), g');
  rsa_pair priv pub := priv = pub;
|}.
Proof.
  - intros g priv pub g'. by intros [= <- <- _].
  - intros priv pub msg g -> Hl. rewrite bool_decide_true by done. do 2 eexists.
    split; [done|]. rewrite take_app_length, bool_decide_true, drop_app_length by done. done.
Defined.

(** Two letters per byte: ['A' + high nibble] then ['A' + low nibble]. *)
Definition toy_b64_enc (b : bytes) : str := b ≫= λ x, [(65 + x / 16)%Z; (65 + x mod 16)%Z].
Fixpoint toy_b64_dec (s : str) : string + bytes :=
  match s with
  | [] => inr []
  | h :: l :: s =>
     if ((65 <=? h) && (h <=? 80) && (65 <=? l) && (l <=? 80))%Z then
       match toy_b64_dec s with
       | inr b => inr (16 * (h - 65) + (l - 65) :: b)%Z
       | inl e => inl e
       end
     else inl "invalid byte"%string
  | _ => inl "invalid length"%string
  end.

Lemma toy_nibbles x : is_u8 x → (0 ≤ x / 16 < 16 ∧ 0 ≤ x mod 16 < 16 ∧ 16 * (x / 16) + x mod 16 = x)%Z.
Proof. unfold is_u8. intros. Z.to_euclidean_division_equations. lia. Qed.

#[export, refine] Instance ToyBase64 : Base64 := {|
  b64_encode := toy_b64_enc;
  b64_decode := toy_b64_dec;
|}.
Proof.
  - induction 1 as [|x b Hx _ IH]; [done|].
    pose proof (toy_nibbles x Hx) as (? & ? & Hq). unfold toy_b64_enc in *. cbn -[Z.div Z.modulo].
    rewrite (proj2 (Z.leb_le 65 _)), (proj2 (Z.leb_le _ 80)) by lia.
    rewrite (proj2 (Z.leb_le 65 _)), (proj2 (Z.leb_le _ 80)) by lia. simpl.
    change (b ≫= _) with (toy_b64_enc b) in IH |- *. unfold toy_b64_enc in *.
    rewrite IH. do 2 f_equal. lia.
  - induction 1 as [|x b Hx _ IH]; [constructor|].
    pose proof (toy_nibbles x Hx) as (? & ? & _).
    unfold toy_b64_enc in *; simpl. repeat constructor; [| |done]; unfold is_b64_char;
      rewrite !orb_true_iff, !andb_true_iff, !Z.leb_le; lia.
Defined.

#[export, refine] Instance ToyUnicode : Unicode := {|
  to_lowercase s := ascii_lower <$> s;
  to_uppercase s := ascii_upper <$> s;
|}.
Proof. all: done. Defined.
End ToyPrimitives.
