(* ===== verification/EncString.v ===== *)
(** * EncString: the encrypted payload format

    [crates/crypto-core/src/enc_string.rs] and [error.rs]: encrypt-then-MAC
    with AES-256-CBC and HMAC-SHA256, the textual form
    [{type}.{iv}|{ct}|{mac}] and its parser, and the 64-byte symmetric key. *)

From stdpp Require Import base strings numbers pretty list.
From S2P Require Import Prelude Primitives.

(** ** Errors ([CryptoError]) *)

Inductive CryptoError :=
  | Kdf_error (msg : string)
  | Encryption
  | Decryption
  | MacMismatch
  | InvalidEncString (msg : string)
  | InvalidKeyLength (expected got : nat)
  | Rsa_error (msg : string)
  | InvalidRecoveryPhrase
  | Base64_error (msg : string)
  | Serde_error (msg : string).

#[export] Instance CryptoError_eq_dec : EqDecision CryptoError.
Proof. solve_decision. Defined.

Abbreviation cres := (res CryptoError).

(** A third-party result whose error is rendered with [e.to_string()]. *)
Definition lift_err {A} (f : string → CryptoError) (r : string + A) : cres A :=
  match r with
  | inl e => Err (f e)
  | inr a => Ok a
  end.

(** ** Data *)

Definition ENC_TYPE_AES256_CBC_HMAC : Z := 2.

Record EncString := mkEncString {
  enc_type : Z;
  iv : bytes;
  ct : bytes;
  mac : bytes;
}.

(** A 64-byte symmetric key: 32 bytes for encryption, 32 for the MAC. *)
Record SymmetricKey := mkSymmetricKey {
  enc_key : bytes;
  mac_key : bytes;
}.

(** The lengths and ranges Rust's types [[u8; N]] and [u8] carry. *)
Definition EncString_wf (e : EncString) : Prop :=
  is_u8 (enc_type e) ∧ (length (iv e) = 16 ∧ bytes_ok (iv e)) ∧
  bytes_ok (ct e) ∧ (length (mac e) = 32 ∧ bytes_ok (mac e)).

Definition SymmetricKey_wf (k : SymmetricKey) : Prop :=
  length (enc_key k) = 32 ∧ length (mac_key k) = 32.

(** ** Parsing a type byte: [str::parse::<u8>] *)

Definition digit_val (c : Z) : option Z :=
  if ((48 <=? c) && (c <=? 57))%Z then Some (c - 48)%Z else None.

(** Digits accumulate with a checked multiply-add. *)
Fixpoint parse_u8_digits (acc : Z) (s : str) : option Z :=
  match s with
  | [] => Some acc
  | c :: s =>
     match digit_val c with
     | None => None
     | Some d =>
        let acc' := (10 * acc + d)%Z in
        if (acc' <=? u8_max)%Z then parse_u8_digits acc' s else None
     end
  end.

(** A single leading ['+'] is accepted, an empty digit string is not. *)
Definition parse_u8 (s : str) : option Z :=
  match s with
  | [] => None
  | c :: s' =>
     if (c =? 43)%Z then match s' with [] => None | _ => parse_u8_digits 0 s' end
     else parse_u8_digits 0 s
  end.

(** [{}] on a [u8]: decimal without leading zeros. *)
Definition show_u8 (x : Z) : str :=
  if (x <? 10)%Z then [(48 + x)%Z]
  else if (x <? 100)%Z then [(48 + x / 10)%Z; (48 + x mod 10)%Z]
  else [(48 + x / 100)%Z; (48 + (x / 10) mod 10)%Z; (48 + x mod 10)%Z].

(** ** Constant-time comparison *)

(** [for (x, y) in a.iter().zip(b.iter()) { diff |= x ^ y }] *)
Definition constant_time_eq (a b : bytes) : bool :=
  (foldl (λ diff '(x, y), Z.lor diff (Z.lxor x y)) 0 (zip a b) =? 0)%Z.

(** ** Symmetric keys *)

Definition SymmetricKey_from_bytes (b : bytes) : cres SymmetricKey :=
  guard bool_decide (length b = 64) else InvalidKeyLength 64 (length b) in
  Ok (mkSymmetricKey (take 32 b) (drop 32 b)).

Section enc_string.
Context `{Rng, AesCbc, HmacSha256, Base64}.

Definition SymmetricKey_generate (g : rng) : SymmetricKey * rng :=
  let '(b, g) := fill_bytes 64 g in
  (mkSymmetricKey (take 32 b) (drop 32 b), g).

(** ** MAC over [iv || ct] *)
Definition compute_mac (key i c : bytes) : cres bytes :=
  let? h := expect (mac_new key) in
  let h := mac_update h i in
  let h := mac_update h c in
  Ok (mac_finalize h).

Definition EncString_encrypt (plaintext : bytes) (sym_key : SymmetricKey) (g : rng)
    : cres EncString * rng :=
  let '(i, g) := fill_bytes 16 g in
  (guard aes_new_from_slices (enc_key sym_key) i else Encryption in
   let c := aes_encrypt (enc_key sym_key) i plaintext in
   let? m := compute_mac (mac_key sym_key) i c in
   Ok (mkEncString ENC_TYPE_AES256_CBC_HMAC i c m), g).

Definition EncString_decrypt (e : EncString) (sym_key : SymmetricKey) : cres bytes :=
  let? expected := compute_mac (mac_key sym_key) (iv e) (ct e) in
  guard constant_time_eq expected (mac e) else MacMismatch in
  guard aes_new_from_slices (enc_key sym_key) (iv e) else Decryption in
  ok_or Decryption (aes_decrypt (enc_key sym_key) (iv e) (ct e)).

(** ** Textual form *)

Definition is_dot (c : Z) : bool := (c =? 46)%Z.
Definition is_bar (c : Z) : bool := (c =? 124)%Z.

Definition EncString_parse (s : str) : cres EncString :=
  let? (type_str, rest) := ok_or (InvalidEncString "missing type prefix") (split_once is_dot s) in
  let? ty := ok_or (InvalidEncString "invalid type byte") (parse_u8 type_str) in
  guard (ty =? ENC_TYPE_AES256_CBC_HMAC)%Z
    else InvalidEncString (String.append "unsupported enc type " (pretty ty)) in
  match splitn 3 is_bar rest with
  | [p0; p1; p2] =>
     let? iv_bytes := lift_err Base64_error (b64_decode p0) in
     let? c := lift_err Base64_error (b64_decode p1) in
     let? mac_bytes := lift_err Base64_error (b64_decode p2) in
     guard bool_decide (length iv_bytes = 16) else InvalidEncString "IV must be 16 bytes" in
     guard bool_decide (length mac_bytes = 32) else InvalidEncString "MAC must be 32 bytes" in
     Ok (mkEncString ty iv_bytes c mac_bytes)
  | _ => Err (InvalidEncString "expected 3 parts")
  end.

(** [impl Display for EncString] *)
Definition EncString_display (e : EncString) : str :=
  show_u8 (enc_type e) ++ [46%Z] ++ b64_encode (iv e) ++ [124%Z]
    ++ b64_encode (ct e) ++ [124%Z] ++ b64_encode (mac e).

(** ** Lemmas *)

Lemma compute_mac_hmac key i c : compute_mac key i c = Ok (hmac key (i ++ c)).
Proof.
  unfold compute_mac. destruct (mac_new_some key) as [s Hs]. rewrite Hs. simpl.
  by rewrite (mac_two_chunks key).
Qed.

Lemma foldl_lor_zero (l : list (Z * Z)) (d : Z) :
  foldl (λ diff '(x, y), Z.lor diff (Z.lxor x y)) d l = 0%Z ↔
  d = 0%Z ∧ Forall (λ p, p.1 = p.2) l.
Proof.
  revert d. induction l as [|[x y] l IH]; intros d; simpl.
  - split; [by intros ->|by intros [-> _]].
  - rewrite IH, Forall_cons, Z.lor_eq_0_iff, Z.lxor_eq_0_iff. simpl. tauto.
Qed.

Lemma zip_same_iff (a b : bytes) :
  length a = length b → (Forall (λ p, p.1 = p.2) (zip a b) ↔ a = b).
Proof.
  revert b. induction a as [|x a IH]; intros [|y b]; simpl; try done.
  intros [= Hl]. rewrite Forall_cons. simpl. rewrite (IH b Hl).
  split; [by intros [-> ->]|by intros [= -> ->]].
Qed.

Lemma constant_time_eq_spec (a b : bytes) :
  length a = length b → constant_time_eq a b = bool_decide (a = b).
Proof.
  intros Hl. unfold constant_time_eq. apply Bool.eq_iff_eq_true.
  rewrite Z.eqb_eq, bool_decide_eq_true, foldl_lor_zero, zip_same_iff by done. tauto.
Qed.

Lemma aes_new_from_slices_true key i :
  length key = 32 → length i = 16 → aes_new_from_slices key i = true.
Proof. intros. unfold aes_new_from_slices. by rewrite !bool_decide_true. Qed.

Lemma EncString_encrypt_ok pt k g :
  SymmetricKey_wf k →
  let i := (fill_bytes 16 g).1 in
  let c := aes_encrypt (enc_key k) i pt in
  EncString_encrypt pt k g =
    (Ok (mkEncString 2 i c (hmac (mac_key k) (i ++ c))), (fill_bytes 16 g).2).
Proof.
  intros [He Hm]. unfold EncString_encrypt.
  pose proof (fill_bytes_length 16 g) as Hi. destruct (fill_bytes 16 g) as [i g'].
  simpl in *. rewrite aes_new_from_slices_true by done. by rewrite compute_mac_hmac.
Qed.

Lemma SymmetricKey_from_bytes_ok b :
  length b = 64 → SymmetricKey_from_bytes b = Ok (mkSymmetricKey (take 32 b) (drop 32 b)).
Proof. intros Hb. unfold SymmetricKey_from_bytes. by rewrite bool_decide_true. Qed.

Lemma SymmetricKey_from_bytes_wf b k :
  SymmetricKey_from_bytes b = Ok k → SymmetricKey_wf k.
Proof.
  unfold SymmetricKey_from_bytes. intros Hk. res_inv.
  apply bool_decide_eq_true in Heqb0. unfold SymmetricKey_wf. simpl.
  rewrite length_take, length_drop. lia.
Qed.

Lemma b64_no_sep (p : Z → bool) b :
  (∀ c, is_b64_char c = true → p c = false) → bytes_ok b →
  Forall (λ c, p c = false) (b64_encode b).
Proof. intros Hp Hb. eapply Forall_impl; [by apply b64_encode_alphabet|]. eauto. Qed.

Lemma is_bar_b64 c : is_b64_char c = true → is_bar c = false.
Proof.
  unfold is_b64_char, is_bar. rewrite !orb_true_iff, !andb_true_iff, Z.eqb_neq. lia.
Qed.

Lemma parse_u8_show_u8 x : is_u8 x → parse_u8 (show_u8 x) = Some x.
Proof.
  intros Hx. assert (x ∈ seqZ 0 256) as Hin by (apply elem_of_seqZ; unfold is_u8 in Hx; lia).
  assert (Forall (λ x, parse_u8 (show_u8 x) = Some x) (seqZ 0 256)) as Hall
    by (apply (bool_decide_unpack _); by vm_compute).
  by eapply Forall_forall in Hall.
Qed.

Lemma show_u8_digits x : is_u8 x → Forall (λ c, is_dot c = false) (show_u8 x).
Proof.
  intros Hx. unfold show_u8, is_dot, is_u8 in *.
  repeat case_match; repeat constructor; apply Z.eqb_neq;
    Z.to_euclidean_division_equations; lia.
Qed.

Lemma splitn_three (a b c : bytes) :
  bytes_ok a → bytes_ok b → bytes_ok c →
  splitn 3 is_bar (b64_encode a ++ 124%Z :: b64_encode b ++ 124%Z :: b64_encode c)
    = [b64_encode a; b64_encode b; b64_encode c].
Proof.
  intros Ha Hb Hc. pose proof is_bar_b64.
  rewrite splitn_SS, split_once_app by (eauto using b64_no_sep).
  rewrite splitn_SS, split_once_app by (eauto using b64_no_sep). done.
Qed.

Lemma EncString_parse_display e :
  EncString_wf e → enc_type e = 2%Z → EncString_parse (EncString_display e) = Ok e.
Proof.
  intros (Ht & (Hi & Hio) & Hc & (Hm & Hmo)) Hty. unfold EncString_parse, EncString_display.
  simpl. rewrite split_once_app by (auto using show_u8_digits). simpl.
  rewrite parse_u8_show_u8, Hty by done. rewrite splitn_three by done. simpl.
  rewrite !b64_decode_encode by done. simpl. rewrite !bool_decide_true by done.
  destruct e; simpl in *. by subst.
Qed.

Lemma splitn_three_inv (l p0 p1 p2 : str) :
  splitn 3 is_bar l = [p0; p1; p2] →
  l = p0 ++ [124%Z] ++ p1 ++ [124%Z] ++ p2 ∧
  Forall (λ c, is_bar c = false) p0 ∧ Forall (λ c, is_bar c = false) p1.
Proof.
  rewrite splitn_SS. destruct (split_once is_bar l) as [[a b]|] eqn:E0; [|done].
  rewrite splitn_SS. destruct (split_once is_bar b) as [[c d]|] eqn:E1; [|done].
  simpl. intros [= -> -> ->].
  apply split_once_Some in E0 as (x & -> & Hx & ?), E1 as (y & -> & Hy & ?).
  apply Z.eqb_eq in Hx, Hy. by subst.
Qed.

Lemma EncString_parse_inv s e :
  EncString_parse s = Ok e →
  ∃ t p0 p1 p2,
    s = t ++ [46%Z] ++ p0 ++ [124%Z] ++ p1 ++ [124%Z] ++ p2 ∧
    Forall (λ c, is_dot c = false) t ∧
    Forall (λ c, is_bar c = false) p0 ∧ Forall (λ c, is_bar c = false) p1 ∧
    parse_u8 t = Some (enc_type e) ∧ enc_type e = ENC_TYPE_AES256_CBC_HMAC ∧
    b64_decode p0 = inr (iv e) ∧ b64_decode p1 = inr (ct e) ∧ b64_decode p2 = inr (mac e) ∧
    length (iv e) = 16 ∧ length (mac e) = 32.
Proof.
  unfold EncString_parse, lift_err. intros Hp. res_inv.
  repeat match goal with H : bool_decide _ = true |- _ => apply bool_decide_eq_true in H end.
  match goal with H : split_once _ _ = _ |- _ =>
    apply split_once_Some in H as (d & -> & Hd & Ht) end.
  match goal with H : splitn _ _ _ = _ |- _ =>
    apply splitn_three_inv in H as (-> & ? & ?) end.
  match goal with H : (_ =? _)%Z = true |- _ => apply Z.eqb_eq in H end.
  apply Z.eqb_eq in Hd as ->. naive_solver.
Qed.

Lemma EncString_decrypt_eq e k :
  EncString_wf e → SymmetricKey_wf k →
  EncString_decrypt e k =
    if bool_decide (mac e = hmac (mac_key k) (iv e ++ ct e))
    then ok_or Decryption (aes_decrypt (enc_key k) (iv e) (ct e))
    else Err MacMismatch.
Proof.
  intros (_ & (Hi & _) & _ & (Hm & _)) [He Hk]. unfold EncString_decrypt.
  rewrite compute_mac_hmac. simpl.
  rewrite constant_time_eq_spec by (by rewrite hmac_length).
  rewrite aes_new_from_slices_true by done.
  by rewrite (bool_decide_ext (hmac _ _ = _) (mac e = hmac (mac_key k) (iv e ++ ct e)))
    by naive_solver.
Qed.

Lemma EncString_decrypt_own pt k i :
  SymmetricKey_wf k → length i = 16 →
  let c := aes_encrypt (enc_key k) i pt in
  EncString_decrypt (mkEncString 2 i c (hmac (mac_key k) (i ++ c))) k = Ok pt.
Proof.
  intros [He Hk] Hi c. unfold EncString_decrypt. simpl. rewrite compute_mac_hmac. simpl.
  rewrite constant_time_eq_spec, bool_decide_true by done.
  rewrite aes_new_from_slices_true by done. subst c. by rewrite aes_decrypt_encrypt.
Qed.

(** ** Properties *)

(** C1: decrypting what [encrypt] produced gives the plaintext back, also
    after the value has travelled as text: for every plaintext, well-formed
    key and generator state, [encrypt] succeeds, its result is well-formed,
    and both the value and [parse (to_string value)] decrypt to the plaintext. *)
Theorem EncString_wire_roundtrip pt k g :
  SymmetricKey_wf k → bytes_ok pt →
  ∃ e, (EncString_encrypt pt k g).1 = Ok e ∧ EncString_wf e ∧
    EncString_decrypt e k = Ok pt ∧
    EncString_parse (EncString_display e) = Ok e.
Proof.
  intros Hk Hpt. rewrite EncString_encrypt_ok by done. eexists. split; [done|].
  assert (EncString_wf (mkEncString 2 (fill_bytes 16 g).1
    (aes_encrypt (enc_key k) (fill_bytes 16 g).1 pt)
    (hmac (mac_key k) ((fill_bytes 16 g).1
      ++ aes_encrypt (enc_key k) (fill_bytes 16 g).1 pt)))) as Hwf.
  { split_and!; simpl; try done;
      auto using fill_bytes_length, fill_bytes_ok, hmac_length, hmac_ok, aes_encrypt_ok. }
  split; [done|]. split; [|by apply EncString_parse_display].
  apply EncString_decrypt_own; [done|]. apply fill_bytes_length.
Qed.

(** C33: [parse] accepts exactly the texts of the documented shape, and reads
    off them exactly the value: a type prefix without a dot that [u8::parse]
    reads as 2, then three base64 fields separated by bars, of which the
    first decodes to 16 bytes and the last to 32. *)
Theorem EncString_parse_spec s e :
  EncString_parse s = Ok e ↔
  ∃ t p0 p1 p2,
    s = t ++ [46%Z] ++ p0 ++ [124%Z] ++ p1 ++ [124%Z] ++ p2 ∧
    Forall (λ c, is_dot c = false) t ∧
    Forall (λ c, is_bar c = false) p0 ∧ Forall (λ c, is_bar c = false) p1 ∧
    parse_u8 t = Some (enc_type e) ∧ enc_type e = ENC_TYPE_AES256_CBC_HMAC ∧
    b64_decode p0 = inr (iv e) ∧ b64_decode p1 = inr (ct e) ∧ b64_decode p2 = inr (mac e) ∧
    length (iv e) = 16 ∧ length (mac e) = 32.
Proof.
  split.
  - intros Hp. apply EncString_parse_inv in Hp. done.
  - intros (t & p0 & p1 & p2 & -> & Ht & B0 & B1 & Hty & He & D0 & D1 & D2 & L0 & L2).
    unfold EncString_parse. simpl. rewrite split_once_app by done. simpl.
    rewrite Hty, He. simpl.
    rewrite splitn_SS, split_once_app by done.
    rewrite splitn_SS, split_once_app, splitn_1 by done.
    rewrite D0, D1, D2. simpl. rewrite !bool_decide_true by done.
    destruct e; simpl in *. by subst.
Qed.

(** C2: decryption is authenticated: it never panics, reports [MacMismatch]
    exactly when the stored MAC differs from HMAC-SHA256 of [iv || ct] under
    the MAC key, and only otherwise looks at the ciphertext. *)
Theorem EncString_decrypt_spec e k :
  EncString_wf e → SymmetricKey_wf k →
  EncString_decrypt e k =
    if bool_decide (mac e = hmac (mac_key k) (iv e ++ ct e))
    then ok_or Decryption (aes_decrypt (enc_key k) (iv e) (ct e))
    else Err MacMismatch.
Proof. intros He Hk. by rewrite EncString_decrypt_eq. Qed.
End enc_string.

#[export] Hint Resolve SymmetricKey_from_bytes_wf b64_no_sep is_bar_b64 : nad.

(** ** Witnesses *)

Import ToyPrimitives.

Definition wk : SymmetricKey := mkSymmetricKey (replicate 32 66%Z) (replicate 32 19%Z).
Definition we : EncString :=
  mkEncString 2 (replicate 16 0%Z) [7%Z; 104%Z] (replicate 32 1%Z).

Lemma EncString_wire_roundtrip_witness :
  ∃ e, (EncString_encrypt [104%Z; 105%Z] wk (5%Z : @rng ToyRng)).1 = Ok e ∧ EncString_wf e ∧
    EncString_decrypt e wk = Ok [104%Z; 105%Z] ∧
    EncString_parse (EncString_display e) = Ok e.
Proof.
  apply EncString_wire_roundtrip; [by split|]. by repeat constructor.
Defined.

Lemma EncString_decrypt_spec_witness : EncString_decrypt we wk = Err MacMismatch.
Proof.
  rewrite EncString_decrypt_spec; [by vm_compute| |by split].
  split_and!; try done; apply (bool_decide_unpack _); by vm_compute.
Defined.
