(* ===== verification/Kdf.v ===== *)
(** * KDF layer: master password to master key

    [crates/crypto-core/src/kdf.rs]: the algorithm selector and its defaults,
    the derivation of the 32-byte master key from password and email, and of
    the hash the server authenticates with. *)

From stdpp Require Import base strings numbers list.
From S2P Require Import Prelude Primitives EncString.

Definition ARGON2_DEFAULT_M_COST : Z := 65536.
Definition ARGON2_DEFAULT_T_COST : Z := 3.
Definition ARGON2_DEFAULT_P_COST : Z := 4.
Definition PBKDF2_DEFAULT_ITERATIONS : Z := 600000.

Record Argon2idParams := mkArgon2idParams { m_cost : Z; t_cost : Z; p_cost : Z }.
Record Pbkdf2Params := mkPbkdf2Params { iterations : Z }.

Inductive Kdf :=
  | Argon2id (p : Argon2idParams)
  | Pbkdf2 (p : Pbkdf2Params).

Definition Argon2idParams_default : Argon2idParams :=
  mkArgon2idParams ARGON2_DEFAULT_M_COST ARGON2_DEFAULT_T_COST ARGON2_DEFAULT_P_COST.
Definition Kdf_default : Kdf := Argon2id Argon2idParams_default.

(** Policy floors. *)
Record KdfParams := mkKdfParams {
  min_argon2_m_cost : Z;
  min_argon2_t_cost : Z;
  min_pbkdf2_iterations : Z;
}.
Definition KdfParams_default : KdfParams := mkKdfParams 65536 3 600000.

Section kdf.
Context `{PasswordHash, Unicode}.

Definition derive_master_key (password : bytes) (email : str) (kdf : Kdf) : cres bytes :=
  let salt := as_bytes (to_lowercase email) in
  match kdf with
  | Argon2id p =>
     let? params := lift_err Kdf_error (argon2_params_new (m_cost p) (t_cost p) (p_cost p) (Some 32)) in
     lift_err Kdf_error (argon2id_hash params password salt 32)
  | Pbkdf2 p => Ok (pbkdf2_sha256 password salt (iterations p) 32)
  end.

Definition derive_auth_hash (master_key password : bytes) : bytes :=
  pbkdf2_sha256 master_key password 1 32.

Lemma derive_master_key_length pw email kdf k :
  derive_master_key pw email kdf = Ok k → length k = 32.
Proof.
  unfold derive_master_key, lift_err. intros Hk. res_inv; eauto using argon2id_length, pbkdf2_length.
Qed.

(** The email acts as a salt irrespective of ASCII letter case: two ASCII
    emails that differ only in case derive the same master key (or the same
    error), and every derived key has 32 bytes. *)
Theorem derive_master_key_case_insensitive pw e1 e2 kdf :
  forallb is_ascii e1 = true → forallb is_ascii e2 = true →
  ascii_lower <$> e1 = ascii_lower <$> e2 →
  derive_master_key pw e1 kdf = derive_master_key pw e2 kdf ∧
  ∀ k, derive_master_key pw e1 kdf = Ok k → length k = 32.
Proof.
  intros H1 H2 He. split; [|intros k; apply derive_master_key_length].
  unfold derive_master_key. by rewrite !to_lowercase_ascii, He by done.
Qed.
End kdf.

Import ToyPrimitives.

Lemma derive_master_key_case_insensitive_witness :
  derive_master_key [112%Z] (chars "Test@Example.COM") Kdf_default
  = derive_master_key [112%Z] (chars "test@example.com") Kdf_default.
Proof. by apply derive_master_key_case_insensitive. Defined.
