(* ===== verification/Keys.v ===== *)
(** * Key hierarchy

    [crates/crypto-core/src/keys.rs]: stretching the master key, the user key
    wrapped under it, organization keys shared through RSA-OAEP. *)

From stdpp Require Import base strings numbers list.
From S2P Require Import Prelude Primitives EncString.

(** [MasterKey([u8; 32])], [UserKey([u8; 64])], [OrgKey([u8; 64])] *)
Record MasterKey := mkMasterKey { master_key_bytes : bytes }.
Record UserKey := mkUserKey { user_key_bytes : bytes }.
Record OrgKey := mkOrgKey { org_key_bytes : bytes }.

Definition MasterKey_wf (m : MasterKey) : Prop := length (master_key_bytes m) = 32.
Definition UserKey_wf (u : UserKey) : Prop :=
  length (user_key_bytes u) = 64 ∧ bytes_ok (user_key_bytes u).
Definition OrgKey_wf (o : OrgKey) : Prop :=
  length (org_key_bytes o) = 64 ∧ bytes_ok (org_key_bytes o).

Definition UserKey_from_bytes (b : bytes) : cres UserKey :=
  guard bool_decide (length b = 64) else InvalidKeyLength 64 (length b) in
  Ok (mkUserKey b).
Definition UserKey_raw_bytes (u : UserKey) : bytes := user_key_bytes u.
Definition UserKey_to_symmetric_key (u : UserKey) : cres SymmetricKey :=
  SymmetricKey_from_bytes (user_key_bytes u).

Definition OrgKey_from_bytes (b : bytes) : cres OrgKey :=
  guard bool_decide (length b = 64) else InvalidKeyLength 64 (length b) in
  Ok (mkOrgKey b).
Definition OrgKey_raw_bytes (o : OrgKey) : bytes := org_key_bytes o.
Definition OrgKey_to_symmetric_key (o : OrgKey) : cres SymmetricKey :=
  SymmetricKey_from_bytes (org_key_bytes o).

Section keys.
Context `{Rng, AesCbc, HmacSha256, Base64, Hkdf, !Rsa}.

(** Two expand calls with info "enc" and "mac"; the master key is the PRK. *)
Definition stretch_master_key (master_key : bytes) : cres bytes :=
  let? hk := lift_err Kdf_error (hkdf_from_prk master_key) in
  let? ek := lift_err Kdf_error (hkdf_expand hk (chars "enc") 32) in
  let? mk := lift_err Kdf_error (hkdf_expand hk (chars "mac") 32) in
  Ok (ek ++ mk).

Definition master_key_to_sym (stretched : bytes) : cres SymmetricKey :=
  SymmetricKey_from_bytes stretched.

Definition UserKey_generate (g : rng) : UserKey * rng :=
  let '(b, g) := fill_bytes 64 g in (mkUserKey b, g).

Definition MasterKey_generate_user_key (m : MasterKey) (g : rng) : cres (UserKey * EncString) * rng :=
  match
    let? stretched := stretch_master_key (master_key_bytes m) in
    SymmetricKey_from_bytes stretched
  with
  | Ok sym =>
     let '(user_key, g) := UserKey_generate g in
     let '(r, g) := EncString_encrypt (UserKey_raw_bytes user_key) sym g in
     (let? user_key_enc := r in Ok (user_key, user_key_enc), g)
  | Err e => (Err e, g)
  | Panic => (Panic, g)
  end.

Definition MasterKey_decrypt_user_key (m : MasterKey) (enc : EncString) : cres UserKey :=
  let? stretched := stretch_master_key (master_key_bytes m) in
  let? sym := SymmetricKey_from_bytes stretched in
  let? raw := EncString_decrypt enc sym in
  UserKey_from_bytes raw.

Definition UserKey_encrypt (u : UserKey) (plaintext : bytes) (g : rng) : cres EncString * rng :=
  match UserKey_to_symmetric_key u with
  | Ok sym => EncString_encrypt plaintext sym g
  | Err e => (Err e, g)
  | Panic => (Panic, g)
  end.
Definition UserKey_decrypt (u : UserKey) (enc : EncString) : cres bytes :=
  let? sym := UserKey_to_symmetric_key u in
  EncString_decrypt enc sym.

Definition OrgKey_generate (g : rng) : OrgKey * rng :=
  let '(b, g) := fill_bytes 64 g in (mkOrgKey b, g).

Definition OrgKey_encrypt_to_member (o : OrgKey) (public_key_der : bytes) (g : rng) : cres bytes * rng :=
  let '(r, g) := rsa_encrypt public_key_der (org_key_bytes o) g in
  (lift_err Rsa_error r, g).
Definition OrgKey_decrypt_from_member (enc_org_key private_key_der : bytes) : cres OrgKey :=
  let? raw := lift_err Rsa_error (rsa_decrypt private_key_der enc_org_key) in
  OrgKey_from_bytes raw.

Definition OrgKey_encrypt (o : OrgKey) (plaintext : bytes) (g : rng) : cres EncString * rng :=
  match OrgKey_to_symmetric_key o with
  | Ok sym => EncString_encrypt plaintext sym g
  | Err e => (Err e, g)
  | Panic => (Panic, g)
  end.
Definition OrgKey_decrypt (o : OrgKey) (enc : EncString) : cres bytes :=
  let? sym := OrgKey_to_symmetric_key o in
  EncString_decrypt enc sym.

(** (private key, public key), both DER *)
Definition generate_rsa_key_pair (g : rng) : cres (bytes * bytes) * rng :=
  let '(r, g) := rsa_generate g in
  (lift_err Rsa_error r, g).

(** ** Lemmas *)

Lemma stretch_master_key_ok mk :
  length mk = 32 →
  ∃ ek mk', length ek = 32 ∧ length mk' = 32 ∧
    stretch_master_key mk = Ok (ek ++ mk') ∧
    SymmetricKey_from_bytes (ek ++ mk') = Ok (mkSymmetricKey ek mk').
Proof.
  intros Hl. unfold stretch_master_key. rewrite hkdf_from_prk_ok by lia. simpl.
  destruct (hkdf_expand_ok mk (chars "enc") 32) as (ek & He & Hel & _); [lia|].
  destruct (hkdf_expand_ok mk (chars "mac") 32) as (mk' & Hm & Hml & _); [lia|].
  exists ek, mk'. rewrite He, Hm. split_and!; [done..|].
  rewrite SymmetricKey_from_bytes_ok by (rewrite length_app; lia).
  by rewrite take_app_length', drop_app_length'.
Qed.

Lemma UserKey_generate_wf g : UserKey_wf (UserKey_generate g).1.
Proof.
  unfold UserKey_generate, UserKey_wf.
  pose proof (fill_bytes_length 64 g). pose proof (fill_bytes_ok 64 g).
  by destruct (fill_bytes 64 g).
Qed.

Lemma UserKey_from_raw u : UserKey_wf u → UserKey_from_bytes (UserKey_raw_bytes u) = Ok u.
Proof. intros [Hl _]. unfold UserKey_from_bytes, UserKey_raw_bytes. rewrite bool_decide_true by done. by destruct u. Qed.

Lemma UserKey_sym u : UserKey_wf u → ∃ sym, UserKey_to_symmetric_key u = Ok sym ∧ SymmetricKey_wf sym.
Proof.
  intros [Hl _]. unfold UserKey_to_symmetric_key. rewrite SymmetricKey_from_bytes_ok by done.
  eexists. split; [done|]. split; simpl; rewrite ?length_take, ?length_drop; lia.
Qed.

(** Encrypting under any well-formed symmetric key and decrypting again. *)
Lemma encrypt_decrypt_sym pt sym g :
  SymmetricKey_wf sym →
  ∃ e g', EncString_encrypt pt sym g = (Ok e, g') ∧ EncString_decrypt e sym = Ok pt.
Proof.
  intros Hs. rewrite EncString_encrypt_ok by done. do 2 eexists. split; [done|].
  apply EncString_decrypt_own; [done|]. apply fill_bytes_length.
Qed.

(** ** Properties *)

(** C38: a master key recovers the user key it wrapped: generation succeeds for
    every 32-byte master key, the user key is a 64-byte key, and decrypting the
    wrapping with the same master key returns it. *)
Theorem MasterKey_user_key_roundtrip m g :
  MasterKey_wf m →
  ∃ u enc, (MasterKey_generate_user_key m g).1 = Ok (u, enc) ∧ UserKey_wf u ∧
    MasterKey_decrypt_user_key m enc = Ok u.
Proof.
  intros Hm. destruct (stretch_master_key_ok _ Hm) as (ek & mk & He & Hk & Hst & Hsym).
  unfold MasterKey_generate_user_key, MasterKey_decrypt_user_key. rewrite Hst. simpl. rewrite Hsym.
  pose proof (UserKey_generate_wf g) as Hu. destruct (UserKey_generate g) as [u g'] eqn:Eg. simpl in Hu.
  destruct (encrypt_decrypt_sym (UserKey_raw_bytes u) (mkSymmetricKey ek mk) g') as (e & g'' & -> & Hd);
    [by split|].
  exists u, e. simpl. split_and!; try apply Hu; [done|]. rewrite Hd. simpl. by apply UserKey_from_raw.
Qed.

(** Vault items: whatever a user key encrypts it decrypts, and a key whose
    MAC half assigns another tag to the message is refused with [MacMismatch],
    never with garbage plaintext. *)
Theorem UserKey_vault_roundtrip u u' pt g :
  UserKey_wf u → UserKey_wf u' → bytes_ok pt →
  ∃ e, (UserKey_encrypt u pt g).1 = Ok e ∧ UserKey_decrypt u e = Ok pt ∧
    (hmac (drop 32 (user_key_bytes u')) (iv e ++ ct e)
       ≠ hmac (drop 32 (user_key_bytes u)) (iv e ++ ct e) →
     UserKey_decrypt u' e = Err MacMismatch).
Proof.
  intros [Hu Hou] [Hu' Hou'] Hpt. unfold UserKey_encrypt, UserKey_decrypt, UserKey_to_symmetric_key.
  rewrite !SymmetricKey_from_bytes_ok by done. simpl.
  assert (∀ b, length b = 64 → SymmetricKey_wf (mkSymmetricKey (take 32 b) (drop 32 b))) as Hwf.
  { intros b Hb. split; simpl; rewrite ?length_take, ?length_drop; lia. }
  rewrite EncString_encrypt_ok by eauto. simpl. eexists. split; [done|].
  pose proof (fill_bytes_length 16 g) as Hi. split; [by apply EncString_decrypt_own; auto|].
  intros Hne. simpl in Hne. rewrite EncString_decrypt_eq by (simpl; auto; split_and!; simpl;
    try done; auto using fill_bytes_ok, hmac_ok, hmac_length, aes_encrypt_ok). simpl.
  by rewrite bool_decide_false by congruence.
Qed.

(** Sharing an organization key: encrypting it to a member's public key
    and decrypting with the matching private key returns it; with RSA key
    generation this is the whole enrolment of a member. *)
Theorem OrgKey_member_roundtrip o g g1 priv pub g2 :
  OrgKey_wf o → generate_rsa_key_pair g = (Ok (priv, pub), g1) →
  ∃ enc g3, OrgKey_encrypt_to_member o pub g2 = (Ok enc, g3) ∧
    OrgKey_decrypt_from_member enc priv = Ok o.
Proof.
  intros [Ho _]. unfold generate_rsa_key_pair. destruct (rsa_generate g) as [[e|[p q]] g'] eqn:Eg; [done|].
  simpl. intros [= -> -> ->]. apply rsa_generate_pair in Eg.
  destruct (rsa_decrypt_encrypt priv pub (org_key_bytes o) g2 Eg) as (c & g3 & Hc & Hd); [lia|].
  unfold OrgKey_encrypt_to_member, OrgKey_decrypt_from_member, OrgKey_from_bytes.
  exists c, g3. rewrite Hc, Hd. simpl. rewrite bool_decide_true by done. by destruct o.
Qed.
End keys.

Import ToyPrimitives.

Lemma MasterKey_user_key_roundtrip_witness :
  ∃ u enc, (MasterKey_generate_user_key (mkMasterKey (replicate 32 9%Z)) (1%Z : @rng ToyRng)).1 = Ok (u, enc) ∧
    UserKey_wf u ∧ MasterKey_decrypt_user_key (mkMasterKey (replicate 32 9%Z)) enc = Ok u.
Proof. by apply MasterKey_user_key_roundtrip. Defined.

Definition wuser (x : Z) : UserKey := mkUserKey (replicate 64 x).

Lemma UserKey_vault_roundtrip_witness :
  ∃ e, (UserKey_encrypt (wuser 1) [1%Z; 2%Z] (3%Z : @rng ToyRng)).1 = Ok e ∧
    UserKey_decrypt (wuser 1) e = Ok [1%Z; 2%Z] ∧
    (hmac (out_len := 32) (drop 32 (user_key_bytes (wuser 2))) (iv e ++ ct e)
       ≠ hmac (out_len := 32) (drop 32 (user_key_bytes (wuser 1))) (iv e ++ ct e) →
     UserKey_decrypt (wuser 2) e = Err MacMismatch).
Proof.
  apply UserKey_vault_roundtrip; repeat (split || constructor); done.
Defined.

Lemma OrgKey_member_roundtrip_witness :
  ∃ enc g3,
    OrgKey_encrypt_to_member (mkOrgKey (replicate 64 5%Z)) (fill_bytes 8 (2%Z : @rng ToyRng)).1 (4%Z : @rng ToyRng) = (Ok enc, g3) ∧
    OrgKey_decrypt_from_member enc (fill_bytes 8 (2%Z : @rng ToyRng)).1 = Ok (mkOrgKey (replicate 64 5%Z)).
Proof.
  eapply (OrgKey_member_roundtrip _ (2%Z : @rng ToyRng)); [|by vm_compute].
  repeat (split || constructor); done.
Defined.
