(* ===== verification/Recovery.v ===== *)
(** * Recovery phrase

    [crates/crypto-core/src/recovery.rs]: 32 bytes of entropy shown as eight
    groups of eight hex digits, the recovery key derived from them, and the
    user key wrapped under it. *)

From stdpp Require Import base strings numbers list.
From S2P Require Import Prelude Primitives EncString Keys.

(** ** Hexadecimal *)

(** [char::to_digit(16)] *)
Definition hex_digit (c : Z) : option Z :=
  if ((48 <=? c) && (c <=? 57))%Z then Some (c - 48)%Z
  else if ((65 <=? c) && (c <=? 70))%Z then Some (c - 55)%Z
  else if ((97 <=? c) && (c <=? 102))%Z then Some (c - 87)%Z
  else None.

(** [format!("{b:02x}")] *)
Definition show_hex_digit (d : Z) : Z := if (d <? 10)%Z then (48 + d)%Z else (87 + d)%Z.
Definition show_02x (b : Z) : str := [show_hex_digit (b / 16)%Z; show_hex_digit (b mod 16)%Z].

(** [u8::from_str_radix(s, 16)]: an optional ['+'], then at least one digit,
    accumulated with overflow checks. *)
Fixpoint parse_hex_digits (acc : Z) (s : str) : option Z :=
  match s with
  | [] => Some acc
  | c :: s =>
     match hex_digit c with
     | None => None
     | Some d =>
        if (16 * acc + d <=? u8_max)%Z then parse_hex_digits (16 * acc + d)%Z s else None
     end
  end.
Definition u8_from_str_radix16 (s : str) : option Z :=
  match s with
  | [] => None
  | c :: s' =>
     if (c =? 43)%Z then match s' with [] => None | _ => parse_hex_digits 0 s' end
     else parse_hex_digits 0 s
  end.

(** [&s[a..b]] on an ASCII string, where byte offsets are character offsets. *)
Definition ascii_slice {E} (a b : nat) (s : str) : res E str :=
  if bool_decide (a ≤ b ∧ b ≤ length s) then Ok (take (b - a) (drop a s)) else Panic.

Definition RECOVERY_INFO : bytes := chars "nadsafe-recovery-v1".

(** ** Phrases *)

Definition hex_of (b : bytes) : str := b ≫= show_02x.

(** [slices.join(" ")] *)
Fixpoint join_space (l : list str) : str :=
  match l with
  | [] => []
  | [x] => x
  | x :: l => x ++ 32%Z :: join_space l
  end.

Definition entropy_to_phrase (entropy : bytes) : str :=
  join_space (chunks 8 (hex_of entropy)).

Definition strip_whitespace (s : str) : str := filter (λ c, is_whitespace c = false) s.

Definition phrase_to_entropy (phrase : str) : cres bytes :=
  let hex := strip_whitespace phrase in
  if negb (bool_decide (utf8_len hex = 64)) || negb (forallb is_ascii_hexdigit hex)
  then Err InvalidRecoveryPhrase
  else
    rmap (λ i, let? s := ascii_slice (i * 2) (i * 2 + 2) hex in
               ok_or InvalidRecoveryPhrase (u8_from_str_radix16 s)) (seq 0 32).

Section recovery.
Context `{Rng, AesCbc, HmacSha256, Base64, Hkdf}.

Definition generate_recovery_entropy (g : rng) : bytes * rng := fill_bytes 32 g.

Definition recovery_key_from_entropy (entropy : bytes) : cres bytes :=
  let? hk := lift_err Kdf_error (hkdf_from_prk entropy) in
  lift_err Kdf_error (hkdf_expand hk RECOVERY_INFO 64).

Definition wrap_user_key_with_recovery (user_key : UserKey) (entropy : bytes) (g : rng)
    : cres EncString * rng :=
  match
    let? recovery_key_bytes := recovery_key_from_entropy entropy in
    SymmetricKey_from_bytes recovery_key_bytes
  with
  | Ok sym => EncString_encrypt (UserKey_raw_bytes user_key) sym g
  | Err e => (Err e, g)
  | Panic => (Panic, g)
  end.

Definition unwrap_user_key_with_recovery (enc_user_key : EncString) (phrase : str) : cres UserKey :=
  let? entropy := phrase_to_entropy phrase in
  let? recovery_key_bytes := recovery_key_from_entropy entropy in
  let? sym := SymmetricKey_from_bytes recovery_key_bytes in
  let? raw := EncString_decrypt enc_user_key sym in
  UserKey_from_bytes raw.
End recovery.

(** ** Lemmas *)

(** The value of a string of hex digits, two at a time. *)
Fixpoint hex_pairs (s : str) : bytes :=
  match s with
  | h :: l :: s =>
     (16 * default 0 (hex_digit h) + default 0 (hex_digit l))%Z :: hex_pairs s
  | _ => []
  end.

Lemma hexdigit_val c :
  is_ascii_hexdigit c = true → ∃ d, hex_digit c = Some d ∧ (0 ≤ d < 16)%Z ∧ c ≠ 43%Z.
Proof.
  unfold is_ascii_hexdigit, hex_digit. rewrite !orb_true_iff, !andb_true_iff, !Z.leb_le. intros Hc.
  repeat case_match; rewrite ?andb_true_iff, ?andb_false_iff, ?Z.leb_le, ?Z.leb_gt in *;
    try (eexists; split_and!; [done|lia..]); lia.
Qed.

Lemma from_str_radix16_pair h l :
  is_ascii_hexdigit h = true → is_ascii_hexdigit l = true →
  u8_from_str_radix16 [h; l] = Some (16 * default 0 (hex_digit h) + default 0 (hex_digit l))%Z.
Proof.
  intros (dh & Hh & ? & ?)%hexdigit_val (dl & Hl & ? & ?)%hexdigit_val.
  unfold u8_from_str_radix16, parse_hex_digits. rewrite (proj2 (Z.eqb_neq h 43)) by done.
  rewrite Hh, Hl. simpl default. unfold u8_max.
  rewrite (proj2 (Z.leb_le _ 255)) by lia. rewrite (proj2 (Z.leb_le _ 255)) by lia.
  f_equal; lia.
Qed.

Lemma hexdigit_utf8_len (s : str) :
  forallb is_ascii_hexdigit s = true → utf8_len s = length s.
Proof.
  induction s as [|c s IH]; [done|]. cbn [forallb length]. rewrite andb_true_iff. intros [Hc Hs].
  change (utf8_char_len c + utf8_len s = S (length s)). rewrite IH by done.
  unfold utf8_char_len. rewrite (proj2 (Z.ltb_lt c 128)); [done|].
  unfold is_ascii_hexdigit in Hc. rewrite !orb_true_iff, !andb_true_iff, !Z.leb_le in Hc. lia.
Qed.

Lemma ascii_slice_drop {E} k (s : str) h l r :
  drop (k * 2) s = h :: l :: r → ascii_slice (E := E) (k * 2) (k * 2 + 2) s = Ok [h; l].
Proof.
  intros Hd. unfold ascii_slice. pose proof (f_equal length Hd) as Hlen.
  rewrite length_drop in Hlen. simpl in Hlen. rewrite bool_decide_true by lia.
  rewrite Hd. by replace (k * 2 + 2 - k * 2) with 2 by lia.
Qed.

Lemma rmap_hex_pairs n k (s : str) :
  forallb is_ascii_hexdigit s = true → length (drop (k * 2) s) = n * 2 →
  rmap (λ i, let? t := ascii_slice (i * 2) (i * 2 + 2) s in
             ok_or InvalidRecoveryPhrase (u8_from_str_radix16 t)) (seq k n)
  = Ok (hex_pairs (drop (k * 2) s)).
Proof.
  intros Hs. revert k. induction n as [|n IH]; intros k Hl.
  { by destruct (drop (k * 2) s). }
  destruct (drop (k * 2) s) as [|h [|l r]] eqn:Hd; [done..|].
  assert (Forall (λ c, is_ascii_hexdigit c = true) (drop (k * 2) s)) as Hall.
  { apply Forall_drop, Forall_forall. intros c Hc. apply forallb_forall with (x := c) in Hs; [done|].
    by apply list_elem_of_In. }
  rewrite Hd, !Forall_cons in Hall. destruct Hall as (Hh & Hll & _).
  cbn [seq rmap]. rewrite (ascii_slice_drop _ _ h l r) by done. cbn [rbind].
  rewrite from_str_radix16_pair by done. simpl.
  assert (drop (S k * 2) s = r) as Hr.
  { replace (S k * 2) with (k * 2 + 2) by lia. by rewrite <- drop_drop, Hd. }
  pose proof (IH (S k)) as IH'. rewrite Hr in IH'. rewrite IH'; [done|]. simpl in Hl. lia.
Qed.

Lemma phrase_to_entropy_eq (p : str) :
  phrase_to_entropy p =
    if bool_decide (length (strip_whitespace p) = 64) && forallb is_ascii_hexdigit (strip_whitespace p)
    then Ok (hex_pairs (strip_whitespace p)) else Err InvalidRecoveryPhrase.
Proof.
  unfold phrase_to_entropy. set (h := strip_whitespace p).
  destruct (forallb is_ascii_hexdigit h) eqn:Hh; [|by rewrite orb_true_r, andb_false_r].
  rewrite hexdigit_utf8_len by done. rewrite orb_false_r, andb_true_r.
  case_bool_decide; [|done]. simpl. by apply (rmap_hex_pairs 32 0 h).
Qed.

(** *** Printing *)

Lemma show_hex_digit_spec d :
  (0 ≤ d < 16)%Z →
  hex_digit (show_hex_digit d) = Some d ∧ is_ascii_hexdigit (show_hex_digit d) = true ∧
  is_whitespace (show_hex_digit d) = false ∧ ascii_lower (show_hex_digit d) = show_hex_digit d.
Proof.
  intros Hd. assert (d ∈ seqZ 0 16) as Hin by (apply elem_of_seqZ; lia).
  assert (Forall (λ d, hex_digit (show_hex_digit d) = Some d ∧
    is_ascii_hexdigit (show_hex_digit d) = true ∧
    is_whitespace (show_hex_digit d) = false ∧
    ascii_lower (show_hex_digit d) = show_hex_digit d) (seqZ 0 16)) as Hall
    by (apply (bool_decide_unpack _); by vm_compute).
  by eapply Forall_forall in Hall.
Qed.

Lemma byte_nibbles b : is_u8 b → (0 ≤ b / 16 < 16 ∧ 0 ≤ b mod 16 < 16 ∧ 16 * (b / 16) + b mod 16 = b)%Z.
Proof. unfold is_u8. intros. Z.to_euclidean_division_equations. lia. Qed.

Lemma hex_of_cons x b :
  hex_of (x :: b) = show_hex_digit (x / 16)%Z :: show_hex_digit (x mod 16)%Z :: hex_of b.
Proof. done. Qed.

Lemma hex_of_spec b :
  bytes_ok b →
  hex_pairs (hex_of b) = b ∧ forallb is_ascii_hexdigit (hex_of b) = true ∧
  Forall (λ c, is_whitespace c = false) (hex_of b) ∧
  length (hex_of b) = 2 * length b ∧ ascii_lower <$> hex_of b = hex_of b.
Proof.
  induction 1 as [|x b Hx _ (IH1 & IH2 & IH3 & IH4 & IH5)]; [done|].
  rewrite hex_of_cons. destruct (byte_nibbles x Hx) as (Hh & Hl & Hq).
  destruct (show_hex_digit_spec _ Hh) as (Vh & Ah & Wh & Lh).
  destruct (show_hex_digit_spec _ Hl) as (Vl & Al & Wl & Ll).
  cbn [hex_pairs forallb length fmap list_fmap]. rewrite Vh, Vl, Ah, Al, IH1, IH2, Lh, Ll. simpl.
  split_and!; [by rewrite Hq|done|by repeat constructor|lia|].
  do 2 f_equal. exact IH5.
Qed.

Lemma hex_pairs_spec (s : str) n :
  forallb is_ascii_hexdigit s = true → length s = 2 * n →
  length (hex_pairs s) = n ∧ bytes_ok (hex_pairs s) ∧ hex_of (hex_pairs s) = ascii_lower <$> s.
Proof.
  revert s. induction n as [|n IH]; intros s Hs Hl.
  { destruct s; [|done]. split_and!; [done|constructor|done]. }
  destruct s as [|h [|l s]]; simpl in Hl; [lia..|].
  simpl in Hs. rewrite !andb_true_iff in Hs. destruct Hs as (Hh & Hll & Hs).
  destruct (IH s Hs) as (IH1 & IH2 & IH3); [lia|].
  assert (∀ c, is_ascii_hexdigit c = true →
    ∃ d, hex_digit c = Some d ∧ (0 ≤ d < 16)%Z ∧ show_hex_digit d = ascii_lower c) as Hlow.
  { intros c Hc. unfold is_ascii_hexdigit in Hc. unfold hex_digit, show_hex_digit, ascii_lower.
    rewrite !orb_true_iff, !andb_true_iff, !Z.leb_le in Hc.
    destruct Hc as [[?|?]|?]; repeat case_match;
      rewrite ?andb_true_iff, ?andb_false_iff, ?Z.leb_le, ?Z.leb_gt, ?Z.ltb_lt, ?Z.ltb_ge in *;
      try (eexists; split_and!; [done|lia..|]);
      repeat case_match; rewrite ?Z.ltb_lt, ?Z.ltb_ge in *; lia. }
  destruct (Hlow h Hh) as (dh & Vh & Rh & Eh), (Hlow l Hll) as (dl & Vl & Rl & El).
  cbn [hex_pairs]. rewrite hex_of_cons, Vh, Vl. simpl default.
  replace ((16 * dh + dl) / 16)%Z with dh by (Z.to_euclidean_division_equations; lia).
  replace ((16 * dh + dl) mod 16)%Z with dl by (Z.to_euclidean_division_equations; lia).
  rewrite Eh, El, IH3. split_and!; [simpl; lia|constructor; [unfold is_u8; lia|done]|done].
Qed.

Lemma strip_whitespace_id (s : str) :
  Forall (λ c, is_whitespace c = false) s → strip_whitespace s = s.
Proof.
  unfold strip_whitespace. induction 1 as [|c s Hc _ IH]; [done|].
  rewrite filter_cons_True by done. by rewrite IH.
Qed.

Lemma strip_join_space (l : list str) :
  Forall (Forall (λ c, is_whitespace c = false)) l →
  strip_whitespace (join_space l) = concat l.
Proof.
  unfold strip_whitespace. induction 1 as [|x l Hx Hl IH]; [done|].
  destruct l as [|y l].
  - simpl. rewrite app_nil_r. by apply strip_whitespace_id.
  - change (join_space (x :: y :: l)) with (x ++ 32%Z :: join_space (y :: l)).
    rewrite filter_app, filter_cons_False by done. rewrite IH. simpl.
    f_equal. by apply strip_whitespace_id.
Qed.

(** Chunks of eight of a list whose length is a multiple of eight. *)
Lemma chunks_fuel_spec {A} (l : list A) n fuel :
  length l = 8 * n → n ≤ fuel →
  concat (chunks_fuel fuel 8 l) = l ∧ length (chunks_fuel fuel 8 l) = n ∧
  Forall (λ c, length c = 8) (chunks_fuel fuel 8 l).
Proof.
  revert l fuel. induction n as [|n IH]; intros l fuel Hl Hf.
  { destruct l; [|done]. by destruct fuel. }
  destruct fuel as [|fuel]; [lia|]. destruct l as [|x l']; [done|].
  remember (x :: l') as l eqn:El. assert (chunks_fuel (S fuel) 8 l = take 8 l :: chunks_fuel fuel 8 (drop 8 l)) as ->
    by by subst.
  destruct (IH (drop 8 l) fuel) as (IH1 & IH2 & IH3); [rewrite length_drop; lia|lia|].
  cbn [concat length]. rewrite IH1, IH2. split_and!; [apply take_drop|done|].
  constructor; [rewrite length_take; lia|done].
Qed.

Lemma chunks_hex_of b :
  length b = 32 → bytes_ok b →
  concat (chunks 8 (hex_of b)) = hex_of b ∧ length (chunks 8 (hex_of b)) = 8 ∧
  Forall (λ c, length c = 8) (chunks 8 (hex_of b)).
Proof.
  intros Hb Ho. destruct (hex_of_spec b Ho) as (_ & _ & _ & Hl & _).
  apply chunks_fuel_spec; lia.
Qed.

Lemma strip_entropy_to_phrase b :
  length b = 32 → bytes_ok b → strip_whitespace (entropy_to_phrase b) = hex_of b.
Proof.
  intros Hb Ho. destruct (chunks_hex_of b Hb Ho) as (Hc & _ & _). unfold entropy_to_phrase.
  rewrite strip_join_space; [done|].
  destruct (hex_of_spec b Ho) as (_ & _ & Hw & _). rewrite <- Hc in Hw.
  clear -Hw. induction (chunks 8 (hex_of b)) as [|c l IH]; [done|].
  apply Forall_app in Hw as [??]. constructor; auto.
Qed.

Lemma phrase_of_entropy b :
  length b = 32 → bytes_ok b → phrase_to_entropy (entropy_to_phrase b) = Ok b.
Proof.
  intros Hb Ho. rewrite phrase_to_entropy_eq, strip_entropy_to_phrase by done.
  destruct (hex_of_spec b Ho) as (Hp & Ha & _ & Hl & _).
  by rewrite Ha, Hl, Hb, Hp.
Qed.

Lemma hexdigit_lower (s : str) :
  forallb is_ascii_hexdigit (ascii_lower <$> s) = forallb is_ascii_hexdigit s.
Proof.
  induction s as [|c s IH]; [done|]. simpl. f_equal; [|exact IH].
  unfold is_ascii_hexdigit, ascii_lower. destruct ((65 <=? c) && (c <=? 90))%Z eqn:E; [|done].
  rewrite andb_true_iff, !Z.leb_le in E. apply eq_bool_prop_intro.
  rewrite !Is_true_true, !orb_true_iff, !andb_true_iff, !Z.leb_le. lia.
Qed.

Lemma phrase_to_entropy_iff (p : str) e :
  phrase_to_entropy p = Ok e ↔
  length e = 32 ∧ bytes_ok e ∧ ascii_lower <$> strip_whitespace p = hex_of e.
Proof.
  rewrite phrase_to_entropy_eq.
  destruct (forallb is_ascii_hexdigit (strip_whitespace p)) eqn:Hh.
  - rewrite andb_true_r. case_bool_decide as Hl.
    + destruct (hex_pairs_spec _ 32 Hh Hl) as (L & O & P). split; [by intros [= <-]|].
      intros (Le & Oe & He). f_equal. rewrite <- P in He.
      destruct (hex_of_spec _ O) as (R & _), (hex_of_spec _ Oe) as (Re & _). congruence.
    + split; [done|]. intros (Le & Oe & He). destruct (hex_of_spec e Oe) as (_ & _ & _ & L & _).
      apply (f_equal length) in He. rewrite length_fmap, L, Le in He. done.
  - rewrite andb_false_r. split; [done|]. intros (Le & Oe & He).
    destruct (hex_of_spec e Oe) as (_ & Ha & _). rewrite <- He, hexdigit_lower in Ha. congruence.
Qed.

(** ** Properties *)

(** A phrase is accepted exactly when, with whitespace removed and letters
    lowered, it is the hex text of 32 bytes, and then it denotes those bytes;
    every other phrase is rejected with [InvalidRecoveryPhrase].  In
    particular the slice indexing never panics. *)
Theorem phrase_to_entropy_spec (p : str) :
  (∀ e, phrase_to_entropy p = Ok e ↔
     length e = 32 ∧ bytes_ok e ∧ ascii_lower <$> strip_whitespace p = hex_of e) ∧
  (∀ r, phrase_to_entropy p = r → (∀ e, r ≠ Ok e) → r = Err InvalidRecoveryPhrase).
Proof.
  split; [intros e; apply phrase_to_entropy_iff|].
  intros r <-. rewrite phrase_to_entropy_eq. case_match; naive_solver.
Qed.

(** The phrase shown to the user consists of eight groups of eight hex
    digits separated by single spaces, and typing it back yields the entropy. *)
Theorem entropy_to_phrase_format e :
  length e = 32 → bytes_ok e →
  (∃ groups, entropy_to_phrase e = join_space groups ∧ length groups = 8 ∧
     Forall (λ g, length g = 8 ∧ forallb is_ascii_hexdigit g = true) groups) ∧
  phrase_to_entropy (entropy_to_phrase e) = Ok e.
Proof.
  intros Hl Ho. split; [|by apply phrase_of_entropy].
  destruct (chunks_hex_of e Hl Ho) as (Hc & Hn & Hf). eexists. split_and!; [done..|].
  destruct (hex_of_spec e Ho) as (_ & Ha & _). rewrite <- Hc in Ha. clear Hc Hn.
  induction Hf as [|c l Hlc Hf IH]; [done|]. simpl in Ha. rewrite forallb_app, andb_true_iff in Ha.
  constructor; [naive_solver|]. apply IH. naive_solver.
Qed.

Section recovery_properties.
Context `{Rng, AesCbc, HmacSha256, Base64, Hkdf}.

Lemma recovery_key_ok e :
  length e = 32 →
  ∃ k sym, recovery_key_from_entropy e = Ok k ∧ SymmetricKey_from_bytes k = Ok sym ∧ SymmetricKey_wf sym.
Proof.
  intros Hl. unfold recovery_key_from_entropy. rewrite hkdf_from_prk_ok by lia. simpl.
  destruct (hkdf_expand_ok e RECOVERY_INFO 64) as (k & Hk & Hkl & _); [lia|].
  exists k, (mkSymmetricKey (take 32 k) (drop 32 k)). rewrite Hk. simpl.
  pose proof (SymmetricKey_from_bytes_ok k Hkl). split_and!; [done..|]. eauto with nad.
Qed.

(** Account recovery: the user key wrapped under fresh entropy is returned
    by unwrapping with any phrase the user may type for that entropy, whatever
    its spacing and letter case, in particular with the phrase that was shown. *)
Theorem recovery_roundtrip u g g' p :
  UserKey_wf u →
  let e := (generate_recovery_entropy g).1 in
  ascii_lower <$> strip_whitespace p = hex_of e →
  ∃ enc, (wrap_user_key_with_recovery u e g').1 = Ok enc ∧
    unwrap_user_key_with_recovery enc p = Ok u ∧
    unwrap_user_key_with_recovery enc (entropy_to_phrase e) = Ok u.
Proof.
  intros Hu e Hp. pose proof (fill_bytes_length 32 g : length e = 32) as Hl.
  pose proof (fill_bytes_ok 32 g : bytes_ok e) as Ho.
  destruct (recovery_key_ok e Hl) as (k & sym & Hk & Hs & Hw).
  unfold wrap_user_key_with_recovery, unwrap_user_key_with_recovery. rewrite Hk. simpl. rewrite Hs.
  destruct (encrypt_decrypt_sym (UserKey_raw_bytes u) sym g' Hw) as (enc & g'' & -> & Hd).
  exists enc. rewrite phrase_of_entropy by done.
  assert (phrase_to_entropy p = Ok e) as -> by (by apply phrase_to_entropy_iff).
  simpl. rewrite Hk. simpl. rewrite Hs. simpl. rewrite Hd. simpl. by rewrite UserKey_from_raw.
Qed.
End recovery_properties.

Import ToyPrimitives.

Lemma entropy_to_phrase_format_witness :
  phrase_to_entropy (entropy_to_phrase (replicate 32 171%Z)) = Ok (replicate 32 171%Z).
Proof.
  apply (entropy_to_phrase_format (replicate 32 171%Z)); [done|]. by apply Forall_replicate.
Defined.

Lemma phrase_to_entropy_spec_witness :
  phrase_to_entropy (chars "too short") = Err InvalidRecoveryPhrase.
Proof. apply (phrase_to_entropy_spec (chars "too short")); [done|]. by vm_compute. Defined.

Lemma recovery_roundtrip_witness :
  ∃ enc, (wrap_user_key_with_recovery (wuser 1)
            (generate_recovery_entropy (0%Z : @rng ToyRng)).1 (3%Z : @rng ToyRng)).1 = Ok enc ∧
    unwrap_user_key_with_recovery enc
      (ascii_upper <$> entropy_to_phrase (generate_recovery_entropy (0%Z : @rng ToyRng)).1) = Ok (wuser 1) ∧
    unwrap_user_key_with_recovery enc
      (entropy_to_phrase (generate_recovery_entropy (0%Z : @rng ToyRng)).1) = Ok (wuser 1).
Proof.
  apply (recovery_roundtrip (wuser 1)); [|by vm_compute].
  repeat (split || constructor); done.
Defined.
