(* ===== verification/Totp.v ===== *)
(** * TOTP generator

    [crates/crypto-core/src/totp.rs]: base32 secrets (RFC 4648), HOTP dynamic
    truncation (RFC 4226) and the time-based code (RFC 6238). *)

From stdpp Require Import base strings numbers list.
From S2P Require Import Prelude Primitives.

Definition DEFAULT_PERIOD : Z := 30.
Definition DEFAULT_DIGITS : Z := 6.

Inductive TotpError := InvalidBase32.

Abbreviation tres := (res TotpError).

(** ** Base32 *)

Definition b32_alphabet : bytes := chars "ABCDEFGHIJKLMNOPQRSTUVWXYZ234567".

(** The decoding loop: [bits] and [bit_count] are [u32] accumulators. *)
Fixpoint base32_loop (bits bit_count : Z) (output : bytes) (input : str) : tres bytes :=
  match input with
  | [] => Ok output
  | ch :: input =>
     guard is_ascii ch else InvalidBase32 in
     let? pos := ok_or InvalidBase32 (position (λ b, (b =? as_u8 ch)%Z) b32_alphabet) in
     let val := Z.of_nat pos in
     let bits := Z.lor (u32_wrap (Z.shiftl bits 5)) val in
     let bit_count := (bit_count + 5)%Z in
     if (8 <=? bit_count)%Z then
       let bit_count := (bit_count - 8)%Z in
       let output := output ++ [as_u8 (Z.shiftr bits bit_count)] in
       let bits := Z.land bits (Z.shiftl 1 bit_count - 1) in
       base32_loop bits bit_count output input
     else base32_loop bits bit_count output input
  end.

Section totp.
Context `{Unicode, HmacSha1}.

Definition base32_normalise (input : str) : str :=
  to_uppercase (trim_end_matches (λ c, (c =? 61)%Z) (filter (λ c, is_whitespace c = false) input)).

Definition base32_decode (input : str) : tres bytes :=
  base32_loop 0 0 [] (base32_normalise input).

(** ** HOTP *)

(** [u64::to_be_bytes] *)
Definition to_be_bytes (x : Z) : bytes :=
  (λ i : nat, as_u8 (Z.shiftr x (8 * (7 - Z.of_nat i)))) <$> seq 0 8.

(** [u32::from_be_bytes] *)
Definition from_be_bytes (b0 b1 b2 b3 : Z) : Z :=
  Z.lor (Z.lor (Z.shiftl b0 24) (Z.shiftl b1 16)) (Z.lor (Z.shiftl b2 8) b3).

(** [10u32.pow(digits)] overflows from ten digits on. *)
Definition pow10_u32 (t : Target) (digits : Z) : tres Z :=
  if (10 ^ digits <? 2 ^ 32)%Z then Ok (10 ^ digits)%Z
  else if overflow_checks t then Panic else Ok (u32_wrap (10 ^ digits)).

Definition hotp (t : Target) (secret : bytes) (counter digits : Z) : tres Z :=
  let? m := expect (mac_new secret) in
  let m := mac_update m (to_be_bytes counter) in
  let result := mac_finalize m in
  let? last := expect (result !! 19) in
  let offset := Z.to_nat (Z.land last 15) in
  let? r0 := expect (result !! offset) in
  let? r1 := expect (result !! (offset + 1)) in
  let? r2 := expect (result !! (offset + 2)) in
  let? r3 := expect (result !! (offset + 3)) in
  let code := from_be_bytes (Z.land r0 127) r1 r2 r3 in
  let? p := pow10_u32 t digits in
  if (p =? 0)%Z then Panic else Ok (code mod p)%Z.

(** ** Codes *)

(** [{}] on a [u32]; ten digits are enough for any [u32]. *)
Fixpoint dec_digits (fuel : nat) (n : Z) (acc : str) : str :=
  match fuel with
  | 0 => acc
  | S fuel =>
     let acc := (48 + n mod 10)%Z :: acc in
     if (n <? 10)%Z then acc else dec_digits fuel (n / 10)%Z acc
  end.
Definition show_u32 (n : Z) : str := dec_digits 10 n [].

(** [{:0>width$}] *)
Definition pad_left (c : Z) (width : nat) (s : str) : str := replicate (width - length s) c ++ s.

Definition generate_totp (t : Target) (secret_b32 : str) (timestamp_secs : Z) : tres str :=
  let? secret := base32_decode secret_b32 in
  let counter := (timestamp_secs / DEFAULT_PERIOD)%Z in
  let? code := hotp t secret counter DEFAULT_DIGITS in
  Ok (pad_left 48 (Z.to_nat DEFAULT_DIGITS) (show_u32 code)).
End totp.

(** ** Reference definitions *)

(** Big-endian value of a digit string in a given base. *)
Definition be_value (base : Z) (l : list Z) : Z := foldl (λ acc d, acc * base + d)%Z 0%Z l.

(** The 5-bit values of a string over the base32 alphabet. *)
Definition b32_values (s : str) : option (list Z) :=
  mapM (λ c, if is_ascii c then Z.of_nat <$> position (λ b, (b =? c)%Z) b32_alphabet else None) s.

(** RFC 4226, section 5.3: dynamic truncation to 31 bits. *)
Definition dynamic_truncation (h : bytes) : Z :=
  let offset := Z.to_nat (default 0 (h !! 19%nat) mod 16)%Z in
  (be_value 256 (take 4 (drop offset h)) mod 2 ^ 31)%Z.

(** ** Lemmas *)

Lemma be_value_snoc base l d : be_value base (l ++ [d]) = (be_value base l * base + d)%Z.
Proof. unfold be_value. by rewrite foldl_app. Qed.

Lemma be_value_cons base d l :
  be_value base (d :: l) = (d * base ^ Z.of_nat (length l) + be_value base l)%Z.
Proof.
  induction l as [|x l IH] using rev_ind; [unfold be_value; simpl; lia|].
  change (d :: l ++ [x]) with ((d :: l) ++ [x]). rewrite !be_value_snoc, IH, length_app. simpl.
  rewrite Nat2Z.inj_add, Z.pow_add_r by lia. change (Z.of_nat 1) with 1%Z. rewrite Z.pow_1_r. ring.
Qed.

Lemma lor_shift_add a k v :
  (0 ≤ k)%Z → (0 ≤ v < 2 ^ k)%Z → Z.lor (Z.shiftl a k) v = (a * 2 ^ k + v)%Z.
Proof.
  intros Hk Hv. pose proof (Z.add_lor_land (Z.shiftl a k) v) as Hs.
  assert (Z.land (Z.shiftl a k) v = 0%Z) as Hl.
  { rewrite <- (Z.mod_small v (2 ^ k)), <- Z.land_ones, (Z.land_comm v), Z.land_assoc by lia.
    rewrite Z.land_ones, Z.shiftl_mul_pow2, Z.mod_mul by lia. apply Z.land_0_l. }
  rewrite Z.shiftl_mul_pow2 in * by done. lia.
Qed.

Lemma b32_step_invariant bits bc v V :
  (0 ≤ bc < 8)%Z → (0 ≤ bits < 2 ^ bc)%Z → (0 ≤ v < 32)%Z →
  let bits1 := Z.lor (u32_wrap (Z.shiftl bits 5)) v in
  bits1 = (bits * 32 + v)%Z ∧ (0 ≤ bits1 < 2 ^ (bc + 5))%Z ∧
  ((8 ≤ bc + 5)%Z →
   let bc1 := (bc + 5 - 8)%Z in
   let byte := as_u8 (Z.shiftr bits1 bc1) in
   let bits2 := Z.land bits1 (Z.shiftl 1 bc1 - 1) in
   (0 ≤ bc1 < 8)%Z ∧ (0 ≤ bits2 < 2 ^ bc1)%Z ∧ is_u8 byte ∧
   ((V * 256 + byte) * 2 ^ bc1 + bits2 = (V * 2 ^ bc + bits) * 32 + v)%Z).
Proof.
  intros Hbc Hb Hv bits1.
  assert (2 ^ bc < 2 ^ 8)%Z as Hp by (apply Z.pow_lt_mono_r; lia). change (2 ^ 8)%Z with 256%Z in Hp.
  assert (bits1 = (bits * 32 + v)%Z) as E1.
  { subst bits1. unfold u32_wrap. rewrite Z.mod_small by (rewrite Z.shiftl_mul_pow2; lia).
    rewrite lor_shift_add by lia. lia. }
  assert (2 ^ (bc + 5) = 2 ^ bc * 32)%Z as E5 by (by rewrite Z.pow_add_r by lia).
  split_and!; [done|lia..|]. intros H8. intros bc1 byte bits2.
  assert (bc1 = bc + 5 - 8)%Z as Hbc1 by done.
  assert (2 ^ bc * 32 = 2 ^ bc1 * 256)%Z as E8.
  { rewrite <- E5. replace (bc + 5)%Z with (bc1 + 8)%Z by lia. by rewrite Z.pow_add_r by lia. }
  assert (0 < 2 ^ bc1)%Z by (apply Z.pow_pos_nonneg; lia).
  assert (bits2 = bits1 mod 2 ^ bc1)%Z as E2.
  { subst bits2. rewrite Z.shiftl_1_l, <- Z.land_ones, Z.ones_equiv by lia. f_equal. }
  assert (byte = bits1 / 2 ^ bc1)%Z as Eb.
  { subst byte. unfold as_u8. rewrite Z.shiftr_div_pow2 by lia. apply Z.mod_small. split.
    - apply Z.div_pos; lia.
    - apply Z.div_lt_upper_bound; lia. }
  pose proof (Z.div_mod bits1 (2 ^ bc1)) as Hdm. pose proof (Z.mod_pos_bound bits1 (2 ^ bc1)).
  assert (0 ≤ bits1 / 2 ^ bc1 < 256)%Z.
  { split; [apply Z.div_pos; lia|apply Z.div_lt_upper_bound; lia]. }
  rewrite E2, Eb. split_and!; [lia..| |]; [unfold is_u8; lia|].
  rewrite Z.mul_add_distr_r, <- Z.mul_assoc, (Z.mul_comm 256), <- E8. nia.
Qed.

Lemma b32_position_eq c :
  is_ascii c = true →
  position (λ b, (b =? as_u8 c)%Z) b32_alphabet = position (λ b, (b =? c)%Z) b32_alphabet.
Proof.
  intros Hc. apply andb_prop in Hc as [H0 H1]. apply Z.leb_le in H0. apply Z.ltb_lt in H1.
  unfold as_u8. by rewrite Z.mod_small by lia.
Qed.

Lemma b32_values_cons c s vs :
  b32_values (c :: s) = Some vs ↔
  ∃ p vs', is_ascii c = true ∧ position (λ b, (b =? c)%Z) b32_alphabet = Some p ∧
    b32_values s = Some vs' ∧ vs = Z.of_nat p :: vs'.
Proof.
  unfold b32_values. cbn [mapM]. destruct (is_ascii c); [|split; [done|by intros (? & ? & ? & _)]].
  destruct (position (λ b, (b =? c)%Z) b32_alphabet) as [p|]; [|split; [done|by intros (? & ? & _ & ? & _)]].
  cbn [fmap option_fmap option_map mbind option_bind].
  destruct (mapM _ s) as [vs'|]; [|split; [done|by intros (? & ? & _ & _ & ? & _)]].
  split; [intros [= <-]; by exists p, vs'|]. by intros (? & ? & _ & [= ->] & [= ->] & ->).
Qed.

(** The loop keeps [output] and the pending bits equal to the value read. *)
Lemma base32_loop_ok (s : str) vs bits bc out :
  b32_values s = Some vs → (0 ≤ bc < 8)%Z → (0 ≤ bits < 2 ^ bc)%Z → bytes_ok out →
  ∃ out' bits' bc',
    base32_loop bits bc out s = Ok out' ∧ bytes_ok out' ∧ (0 ≤ bc' < 8)%Z ∧ (0 ≤ bits' < 2 ^ bc')%Z ∧
    (8 * Z.of_nat (length out') + bc' = 8 * Z.of_nat (length out) + bc + 5 * Z.of_nat (length s))%Z ∧
    (be_value 256 out' * 2 ^ bc' + bits'
     = (be_value 256 out * 2 ^ bc + bits) * 32 ^ Z.of_nat (length s) + be_value 32 vs)%Z.
Proof.
  revert vs bits bc out. induction s as [|c s IH]; intros vs bits bc out Hvs Hbc Hb Ho.
  { injection Hvs as <-. exists out, bits, bc. unfold be_value. simpl. split_and!; try done; lia. }
  apply b32_values_cons in Hvs as (p & vs' & Ha & Hp & Hs & ->).
  assert (0 ≤ Z.of_nat p < 32)%Z as Hv by (apply position_lt in Hp; vm_compute in Hp; lia).
  assert (length vs' = length s) as Hls by (apply length_mapM in Hs; lia).
  destruct (b32_step_invariant bits bc (Z.of_nat p) (be_value 256 out) Hbc Hb Hv) as (E1 & R1 & H8).
  cbn [base32_loop]. rewrite Ha, b32_position_eq, Hp by done. cbn [ok_or rbind].
  rewrite be_value_cons, Hls. cbn [length]. rewrite Nat2Z.inj_succ, Z.pow_succ_r by lia.
  destruct (8 <=? bc + 5)%Z eqn:E8.
  - apply Z.leb_le in E8. destruct (H8 E8) as (B1 & B2 & B3 & BV).
    edestruct IH as (out' & bits' & bc' & -> & O' & R' & R'' & L' & V'); [done|exact B1|exact B2| |].
    { apply Forall_app; split; [done|]. constructor; [exact B3|done]. }
    exists out', bits', bc'. rewrite be_value_snoc in V'. rewrite length_app in L'. simpl in L'.
    do 4 (split; [done|]). split; [lia|]. rewrite V', BV. ring.
  - apply Z.leb_gt in E8.
    edestruct IH as (out' & bits' & bc' & -> & O' & R' & R'' & L' & V'); [done| |exact R1|done|]; [lia|].
    exists out', bits', bc'. do 4 (split; [done|]). split; [lia|].
    rewrite V', E1, Z.pow_add_r by lia. change (2 ^ 5)%Z with 32%Z. ring.
Qed.

Lemma base32_loop_err (s : str) bits bc out :
  b32_values s = None → base32_loop bits bc out s = Err InvalidBase32.
Proof.
  revert bits bc out. induction s as [|c s IH]; intros bits bc out; [done|].
  unfold b32_values. cbn [mapM base32_loop]. destruct (is_ascii c) eqn:Ha; [|done].
  rewrite b32_position_eq by done. destruct (position (λ b, (b =? c)%Z) b32_alphabet) as [p|]; cbn; [|done].
  intros Hs. assert (b32_values s = None) by (unfold b32_values; by destruct (mapM _ s)).
  case_match; eauto.
Qed.

Lemma dec_digits_spec k fuel n acc :
  (0 ≤ n < 10 ^ Z.of_nat (S k))%Z → S k ≤ fuel →
  ∃ ds, dec_digits fuel n acc = ds ++ acc ∧ 1 ≤ length ds ≤ S k ∧
    Forall (λ c, 48 ≤ c ≤ 57)%Z ds ∧ be_value 10 ((λ c, c - 48)%Z <$> ds) = n.
Proof.
  revert fuel n acc. induction k as [|k IH]; intros fuel n acc Hn Hf;
    (destruct fuel as [|fuel]; [lia|]); cbn [dec_digits];
    pose proof (Z.mod_pos_bound n 10 ltac:(lia)) as Hm.
  - change (10 ^ Z.of_nat 1)%Z with 10%Z in Hn. rewrite (proj2 (Z.ltb_lt n 10)) by lia.
    exists [(48 + n mod 10)%Z]. rewrite Z.mod_small by lia. unfold be_value. simpl.
    split_and!; [done|lia..|apply Forall_singleton; lia|lia].
  - destruct (n <? 10)%Z eqn:E.
    + apply Z.ltb_lt in E. exists [(48 + n mod 10)%Z]. rewrite Z.mod_small by lia.
      unfold be_value. simpl. split_and!; [done|lia..|apply Forall_singleton; lia|lia].
    + apply Z.ltb_ge in E.
      destruct (IH fuel (n / 10)%Z ((48 + n mod 10)%Z :: acc)) as (ds & -> & L & F & V); [|lia|].
      { split; [apply Z.div_pos; lia|]. apply Z.div_lt_upper_bound; [lia|].
        rewrite (Nat2Z.inj_succ (S k)), Z.pow_succ_r in Hn by lia. lia. }
      exists (ds ++ [(48 + n mod 10)%Z]). rewrite <- app_assoc. split; [done|].
      rewrite length_app, fmap_app. simpl. rewrite be_value_snoc, V. split_and!; [lia..| |].
      * apply Forall_app. split; [done|]. apply Forall_singleton; lia.
      * pose proof (Z.div_mod n 10). lia.
Qed.

Lemma be_value_zeros base n l : be_value base (replicate n 0%Z ++ l) = be_value base l.
Proof.
  unfold be_value. rewrite foldl_app. f_equal. induction n as [|n IH]; simpl; [done|].
  by rewrite Z.add_0_r.
Qed.

Lemma totp_code_text code :
  (0 ≤ code < 10 ^ 6)%Z →
  let s := pad_left 48 (Z.to_nat DEFAULT_DIGITS) (show_u32 code) in
  length s = 6 ∧ Forall (λ c, 48 ≤ c ≤ 57)%Z s ∧ be_value 10 ((λ c, c - 48)%Z <$> s) = code.
Proof.
  intros Hc. unfold pad_left, show_u32. change (Z.to_nat DEFAULT_DIGITS) with 6.
  destruct (dec_digits_spec 5 10 code []) as (ds & -> & L & F & V); [done|lia|].
  rewrite app_nil_r, length_app, length_replicate, fmap_app, fmap_replicate.
  change (48 - 48)%Z with 0%Z. rewrite be_value_zeros, V. split_and!; [lia| |done].
  apply Forall_app. split; [apply Forall_replicate; lia|done].
Qed.

Lemma lookup_four (l : bytes) k :
  k + 3 < length l →
  ∃ a b c d, take 4 (drop k l) = [a; b; c; d] ∧
    l !! k = Some a ∧ l !! (k + 1) = Some b ∧ l !! (k + 2) = Some c ∧ l !! (k + 3) = Some d.
Proof.
  intros Hk. assert (4 ≤ length (drop k l)) as Hd by (rewrite length_drop; lia).
  assert (∀ i, l !! (k + i) = drop k l !! i) as Hl by (intros; by rewrite lookup_drop).
  rewrite !Hl. specialize (Hl 0). rewrite Nat.add_0_r in Hl. rewrite Hl.
  destruct (drop k l) as [|a [|b [|c [|d r]]]]; simpl in Hd; try lia.
  by exists a, b, c, d.
Qed.

Lemma from_be_bytes_masked a b c d :
  is_u8 a → is_u8 b → is_u8 c → is_u8 d →
  from_be_bytes (Z.land a 127) b c d = (be_value 256 [a; b; c; d] mod 2 ^ 31)%Z.
Proof.
  unfold is_u8. intros Ha Hb Hc Hd. unfold from_be_bytes.
  change 127%Z with (Z.ones 7). rewrite Z.land_ones by lia. change (2 ^ 7)%Z with 128%Z.
  pose proof (Z.mod_pos_bound a 128). rewrite (lor_shift_add c 8 d) by lia.
  rewrite <- Z.lor_assoc, (lor_shift_add b 16) by lia.
  rewrite lor_shift_add by lia. unfold be_value. simpl.
  Z.to_euclidean_division_equations. lia.
Qed.

Section totp_properties.
Context `{Unicode, HmacSha1}.

Lemma hotp_spec t secret counter :
  hotp t secret counter DEFAULT_DIGITS =
    Ok (dynamic_truncation (hmac secret (to_be_bytes counter)) mod 10 ^ 6)%Z.
Proof.
  unfold hotp. destruct (mac_new_some secret) as [m Hm]. rewrite Hm. cbn [expect rbind].
  rewrite (mac_one_chunk secret) by done. set (h := hmac secret _).
  pose proof (hmac_length secret (to_be_bytes counter) : length h = 20) as Hl.
  pose proof (hmac_ok secret (to_be_bytes counter) : bytes_ok h) as Ho.
  destruct (lookup_lt_is_Some_2 h 19) as [x Hx]; [lia|]. rewrite Hx. cbn [expect rbind].
  unfold dynamic_truncation. rewrite Hx. simpl default.
  change 15%Z with (Z.ones 4). rewrite Z.land_ones by lia. change (2 ^ 4)%Z with 16%Z.
  pose proof (Z.mod_pos_bound x 16 ltac:(lia)) as Hoff.
  destruct (lookup_four h (Z.to_nat (x mod 16))) as (a & b & c & d & Ht & Ha & Hb & Hc & Hd); [lia|].
  rewrite Ha, Hb, Hc, Hd, Ht. cbn [expect rbind].
  rewrite from_be_bytes_masked by (eapply Forall_lookup_1; eauto).
  done.
Qed.

Lemma base32_decode_no_panic (input : str) : base32_decode input ≠ Panic.
Proof.
  unfold base32_decode. destruct (b32_values (base32_normalise input)) as [vs|] eqn:Hv.
  - destruct (base32_loop_ok _ vs 0 0 [] Hv) as (out & bits & bc & -> & _); [lia|done|constructor|done].
  - by rewrite base32_loop_err.
Qed.

(** Base32 decoding against RFC 4648: with whitespace and padding removed
    and letters raised, the input is rejected exactly when a character is
    outside the alphabet; otherwise the bytes returned are the leading whole
    bytes of the concatenated 5-bit groups, as big-endian numbers.  The [u32]
    accumulator therefore never loses a bit. *)
Theorem base32_decode_spec (input : str) :
  match b32_values (base32_normalise input) with
  | None => base32_decode input = Err InvalidBase32
  | Some vs =>
     ∃ out, base32_decode input = Ok out ∧ bytes_ok out ∧
       length out = 5 * length vs / 8 ∧
       be_value 256 out = (be_value 32 vs / 2 ^ (5 * Z.of_nat (length vs) mod 8))%Z
  end.
Proof.
  unfold base32_decode. destruct (b32_values (base32_normalise input)) as [vs|] eqn:Hv;
    [|by apply base32_loop_err].
  destruct (base32_loop_ok _ vs 0 0 [] Hv) as (out & bits & bc & Hr & Ho & Hbc & Hb & Hl & Hval);
    [lia|done|constructor|].
  assert (length vs = length (base32_normalise input)) as Hn by (apply length_mapM in Hv; lia).
  rewrite <- Hn in *. exists out. do 2 (split; [done|]). simpl in Hl.
  assert (Z.of_nat (length out) = 5 * Z.of_nat (length vs) / 8 ∧
          bc = 5 * Z.of_nat (length vs) mod 8)%Z as [El Eb]
    by (Z.to_euclidean_division_equations; lia).
  split.
  - apply Nat2Z.inj. rewrite El, Nat2Z.inj_div, Nat2Z.inj_mul. done.
  - rewrite <- Eb. replace (be_value 32 vs) with (be_value 256 out * 2 ^ bc + bits)%Z
      by (rewrite Hval; unfold be_value at 1; simpl; lia).
    rewrite Z.div_add_l, Z.div_small by lia. lia.
Qed.

(** A TOTP code: for every secret and time the generator never panics; it
    fails only on a secret that is not base32, and otherwise the code is six
    decimal digits denoting RFC 4226's truncation of HMAC-SHA1 of the 30-second
    time step, modulo a million. *)
Theorem generate_totp_spec t secret ts :
  match base32_decode secret with
  | Ok key =>
     ∃ code, generate_totp t secret ts = Ok code ∧ length code = 6 ∧
       Forall (λ c, 48 ≤ c ≤ 57)%Z code ∧
       be_value 10 ((λ c, c - 48)%Z <$> code)
         = (dynamic_truncation (hmac key (to_be_bytes (ts / 30))) mod 10 ^ 6)%Z
  | _ => generate_totp t secret ts = Err InvalidBase32
  end.
Proof.
  unfold generate_totp. destruct (base32_decode secret) as [key|[]|] eqn:Hd; simpl rbind; [|done|].
  - rewrite hotp_spec. cbn [rbind]. eexists. split; [done|].
    apply totp_code_text. apply Z.mod_pos_bound. lia.
  - exfalso.
    by eapply base32_decode_no_panic.
Qed.
End totp_properties.
