(* ===== verification/PasswordGen.v ===== *)
(** * Password generator

    [crates/crypto-core/src/password_gen.rs]: the configuration, the two error
    cases, and the generation of a password that honours the class minimums. *)

From stdpp Require Import base strings numbers pretty sets list.
From S2P Require Import Prelude Primitives.

Definition UPPERCASE : bytes := chars "ABCDEFGHIJKLMNOPQRSTUVWXYZ".
Definition LOWERCASE : bytes := chars "abcdefghijklmnopqrstuvwxyz".
Definition DIGITS : bytes := chars "0123456789".
Definition SYMBOLS : bytes := chars "!@#$%^&*()_+-=[]{}|;:,.<>?".
Definition AMBIGUOUS : bytes := chars "Il1O0".

(** Counts are [usize] values. *)
Record PasswordConfig := mkPasswordConfig {
  pw_length : Z;
  uppercase : bool;
  lowercase : bool;
  numbers : bool;
  symbols : bool;
  avoid_ambiguous : bool;
  min_uppercase : Z;
  min_lowercase : Z;
  min_numbers : Z;
  min_special : Z;
}.

Definition PasswordConfig_default : PasswordConfig :=
  mkPasswordConfig 20 true true true true false 1 1 1 1.

Inductive GenError :=
  | NoCharset
  | TooShort (n : Z).

(** [#[error(..)]] *)
Definition GenError_to_string (e : GenError) : string :=
  match e with
  | NoCharset => "no character classes enabled"
  | TooShort n => String.append "length " (String.append (pretty n) " too short for minimum requirements")
  end.

Definition filter_ambiguous (pool : bytes) (avoid : bool) : bytes :=
  if negb avoid then pool else filter (λ b, b ∉ AMBIGUOUS) pool.

Section password_gen.
Context `{Rng}.

(** Computations that draw random numbers. *)
Definition G (A : Type) : Type := rng → res GenError A * rng.
Definition gret {A} (a : A) : G A := λ g, (Ok a, g).
Definition glift {A} (r : res GenError A) : G A := λ g, (r, g).
Definition gbind {A B} (m : G A) (k : A → G B) : G B := λ g,
  match m g with
  | (Ok a, g) => k a g
  | (Err e, g) => (Err e, g)
  | (Panic, g) => (Panic, g)
  end.
#[local] Notation "'let!' x := m 'in' k" := (gbind m (λ x, k))
  (at level 10, x pattern, m at level 100, k at level 200).

Definition random_usize (max : nat) : G nat := λ g, let '(i, g) := gen_range max g in (Ok i, g).

(** [buf.push(pool[idx])] with a random index *)
Definition push_random (pool buf : bytes) : G bytes :=
  let! idx := random_usize (length pool) in
  let! c := glift (expect (pool !! idx)) in
  gret (buf ++ [c]).

(** The closure [push_required], after filtering its pool. *)
Fixpoint push_required (pool : bytes) (count : nat) (buf : bytes) : G bytes :=
  match count with
  | 0 => gret buf
  | S count =>
     let! buf := (match pool with [] => gret buf | _ => push_random pool buf end) in
     push_required pool count buf
  end.

(** [while password.len() < cfg.length]; every round adds a character, so
    [cfg.length] rounds of fuel are enough. *)
Fixpoint fill_remainder (fuel : nat) (charset : bytes) (len : Z) (password : bytes) : G bytes :=
  match fuel with
  | 0 => gret password
  | S fuel =>
     if (Z.of_nat (length password) <? len)%Z then
       let! password := push_random charset password in
       fill_remainder fuel charset len password
     else gret password
  end.

(** [String::from_utf8(..).expect(..)] on bytes of the class alphabets, all of
    them ASCII, where it is the identity. *)
Definition from_ascii (b : bytes) : res GenError str :=
  if forallb is_ascii b then Ok b else Panic.

Definition password_charset (cfg : PasswordConfig) : bytes :=
  (if uppercase cfg then filter_ambiguous UPPERCASE (avoid_ambiguous cfg) else []) ++
  (if lowercase cfg then filter_ambiguous LOWERCASE (avoid_ambiguous cfg) else []) ++
  (if numbers cfg then filter_ambiguous DIGITS (avoid_ambiguous cfg) else []) ++
  (if symbols cfg then SYMBOLS else []).

Definition password_min_total (t : Target) (cfg : PasswordConfig) : res GenError Z :=
  let? a := usize_add t (min_uppercase cfg) (min_lowercase cfg) in
  let? b := usize_add t a (min_numbers cfg) in
  usize_add t b (min_special cfg).

Definition required_class (cfg : PasswordConfig) (enabled : bool) (pool : bytes) (count : Z) (buf : bytes)
    : G bytes :=
  if enabled then push_required (filter_ambiguous pool (avoid_ambiguous cfg)) (Z.to_nat count) buf
  else gret buf.

Definition generate_password (t : Target) (cfg : PasswordConfig) : G str :=
  let charset := password_charset cfg in
  if bool_decide (charset = []) then glift (Err NoCharset)
  else
    let! min_total := glift (password_min_total t cfg) in
    if (pw_length cfg <? min_total)%Z then glift (Err (TooShort (pw_length cfg)))
    else
      let! required := required_class cfg (uppercase cfg) UPPERCASE (min_uppercase cfg) [] in
      let! required := required_class cfg (lowercase cfg) LOWERCASE (min_lowercase cfg) required in
      let! required := required_class cfg (numbers cfg) DIGITS (min_numbers cfg) required in
      let! required := required_class cfg (symbols cfg) SYMBOLS (min_special cfg) required in
      let! password := fill_remainder (Z.to_nat (pw_length cfg)) charset (pw_length cfg) required in
      let! password := (λ g, let '(p, g) := shuffle password g in (Ok p, g)) in
      glift (from_ascii password).

(** The WebAssembly entry point. *)
Definition generate_password_wasm (t : Target) (length : Z)
    (uppercase lowercase numbers symbols avoid_ambiguous : bool) (g : rng) : res string str * rng :=
  let '(r, g) := generate_password t
    (mkPasswordConfig length uppercase lowercase numbers symbols avoid_ambiguous
       (if uppercase then 1 else 0) (if lowercase then 1 else 0)
       (if numbers then 1 else 0) (if symbols then 1 else 0))%Z g in
  (map_err GenError_to_string r, g).

(** ** Lemmas *)

Definition count_in (class l : bytes) : nat := length (filter (λ c, c ∈ class) l).

(** The class minimums, as lists of (enabled, alphabet, minimum). *)
Definition config_classes (cfg : PasswordConfig) : list (bool * bytes * Z) :=
  [(uppercase cfg, UPPERCASE, min_uppercase cfg); (lowercase cfg, LOWERCASE, min_lowercase cfg);
   (numbers cfg, DIGITS, min_numbers cfg); (symbols cfg, SYMBOLS, min_special cfg)].

Definition PasswordConfig_wf (t : Target) (cfg : PasswordConfig) : Prop :=
  Forall (λ c, 0 ≤ c.2)%Z (config_classes cfg) ∧ (0 ≤ pw_length cfg)%Z ∧
  (min_uppercase cfg + min_lowercase cfg + min_numbers cfg + min_special cfg < 2 ^ usize_bits t)%Z.

Lemma push_random_ok pool buf g :
  pool ≠ [] → ∃ c g', push_random pool buf g = (Ok (buf ++ [c]), g') ∧ c ∈ pool.
Proof.
  intros Hp. unfold push_random, random_usize, gbind, glift, gret.
  assert (0 < length pool) as Hl by (destruct pool; [done|simpl; lia]).
  pose proof (gen_range_lt (length pool) g Hl) as Hi. destruct (gen_range (length pool) g) as [i g'].
  simpl in Hi. destruct (lookup_lt_is_Some_2 pool i Hi) as [c Hc]. rewrite Hc. simpl.
  exists c, g'. split; [done|]. by eapply list_elem_of_lookup_2.
Qed.

Lemma push_required_ok pool n buf g :
  pool ≠ [] →
  ∃ l g', push_required pool n buf g = (Ok (buf ++ l), g') ∧ length l = n ∧ Forall (λ c, c ∈ pool) l.
Proof.
  intros Hp. revert buf g. induction n as [|n IH]; intros buf g.
  { exists [], g. unfold push_required, gret. by rewrite app_nil_r. }
  cbn [push_required]. destruct (push_random_ok pool buf g Hp) as (c & g' & Hc & Hin).
  destruct (IH (buf ++ [c]) g') as (l & g'' & Hl & Hn & Hf).
  exists (c :: l), g''. unfold gbind. destruct pool as [|x pool]; [done|]. rewrite Hc, Hl.
  rewrite <- app_assoc. split_and!; [done|simpl; lia|by constructor].
Qed.

Lemma fill_remainder_ok fuel charset len pw g :
  charset ≠ [] → (Z.of_nat (length pw) ≤ len)%Z → (len - Z.of_nat (length pw) ≤ Z.of_nat fuel)%Z →
  ∃ l g', fill_remainder fuel charset len pw g = (Ok (pw ++ l), g') ∧
    Z.of_nat (length (pw ++ l)) = len ∧ Forall (λ c, c ∈ charset) l.
Proof.
  intros Hc. revert pw g. induction fuel as [|fuel IH]; intros pw g Hle Hf.
  { exists [], g. unfold fill_remainder, gret. rewrite app_nil_r. split_and!; [done|lia|done]. }
  cbn [fill_remainder]. destruct (_ <? _)%Z eqn:E.
  - apply Z.ltb_lt in E. destruct (push_random_ok charset pw g Hc) as (c & g' & Hp & Hin).
    destruct (IH (pw ++ [c]) g') as (l & g'' & Hl & Hn & Hall); [rewrite length_app; simpl; lia..|].
    exists (c :: l), g''. unfold gbind. rewrite Hp, Hl, <- app_assoc in *.
    split_and!; [done..|by constructor].
  - apply Z.ltb_ge in E. exists [], g. unfold gret. rewrite app_nil_r. split_and!; [done|lia|done].
Qed.

Lemma filter_ambiguous_sub pool avoid c : c ∈ filter_ambiguous pool avoid → c ∈ pool.
Proof. unfold filter_ambiguous. case_match; [done|]. rewrite list_elem_of_filter. naive_solver. Qed.

Lemma filter_ambiguous_ne avoid pool :
  pool ∈ [UPPERCASE; LOWERCASE; DIGITS; SYMBOLS] → filter_ambiguous pool avoid ≠ [].
Proof.
  rewrite !elem_of_cons, elem_of_nil. intros [->|[->|[->|[->|[]]]]]; by destruct avoid.
Qed.

Lemma class_alphabets_ascii :
  forallb is_ascii (UPPERCASE ++ LOWERCASE ++ DIGITS ++ SYMBOLS) = true.
Proof. by vm_compute. Qed.

(** One required class: it adds its minimum of its own characters, or nothing. *)
Lemma required_class_ok cfg enabled pool count buf g :
  pool ∈ [UPPERCASE; LOWERCASE; DIGITS; SYMBOLS] → (0 ≤ count)%Z →
  ∃ l g', required_class cfg enabled pool count buf g = (Ok (buf ++ l), g') ∧
    (Z.of_nat (length l) ≤ count)%Z ∧
    (enabled = true → (Z.of_nat (length l) = count)%Z) ∧
    Forall (λ c, enabled = true ∧ c ∈ filter_ambiguous pool (avoid_ambiguous cfg)) l.
Proof.
  intros Hp Hc. unfold required_class. destruct enabled.
  - destruct (push_required_ok _ (Z.to_nat count) buf g (filter_ambiguous_ne (avoid_ambiguous cfg) pool Hp))
      as (l & g' & Hl & Hn & Hf).
    exists l, g'. split_and!; [done|lia|lia|]. eapply Forall_impl; [done|]. naive_solver.
  - exists [], g. unfold gret. rewrite app_nil_r. split_and!; try done; simpl; lia.
Qed.

Lemma count_in_ge class l pre post :
  Forall (λ c, c ∈ class) l → length l ≤ count_in class (pre ++ l ++ post).
Proof.
  intros Hl. unfold count_in. rewrite !filter_app, !length_app.
  assert (filter (λ c, c ∈ class) l = l) as ->.
  { induction Hl as [|c l Hc _ IH]; [done|]. rewrite filter_cons_True by done. by rewrite IH. }
  lia.
Qed.

Lemma count_in_perm class l l' : l ≡ₚ l' → count_in class l = count_in class l'.
Proof. intros Hp. unfold count_in. by rewrite Hp. Qed.

Lemma password_min_total_ok t cfg :
  PasswordConfig_wf t cfg →
  password_min_total t cfg =
    Ok (min_uppercase cfg + min_lowercase cfg + min_numbers cfg + min_special cfg)%Z.
Proof.
  intros (Hm & _ & Hs). unfold config_classes in Hm. rewrite !Forall_cons in Hm. simpl in Hm.
  unfold password_min_total, usize_add.
  rewrite (proj2 (Z.ltb_lt _ _)) by lia. cbn [rbind].
  rewrite (proj2 (Z.ltb_lt _ _)) by lia. cbn [rbind].
  by rewrite (proj2 (Z.ltb_lt _ _)) by lia.
Qed.

(** Characters that the configuration allows. *)
Definition allowed (cfg : PasswordConfig) (c : Z) : Prop :=
  ∃ pool m, (true, pool, m) ∈ config_classes cfg ∧ c ∈ filter_ambiguous pool (avoid_ambiguous cfg).

Lemma charset_nil cfg :
  password_charset cfg = [] ↔
  uppercase cfg = false ∧ lowercase cfg = false ∧ numbers cfg = false ∧ symbols cfg = false.
Proof.
  unfold password_charset. destruct cfg as [? [] [] [] [] [] ? ? ? ?]; simpl; split;
    try done; naive_solver.
Qed.

Lemma filter_ambiguous_SYMBOLS avoid : filter_ambiguous SYMBOLS avoid = SYMBOLS.
Proof. by destruct avoid. Qed.

Lemma charset_allowed cfg c : c ∈ password_charset cfg → allowed cfg c.
Proof.
  unfold password_charset, allowed, config_classes. rewrite !elem_of_app.
  intros [Hc|[Hc|[Hc|Hc]]]; (case_match; [|by apply elem_of_nil in Hc]).
  - exists UPPERCASE, (min_uppercase cfg). split; [|done]. rewrite !elem_of_cons. naive_solver.
  - exists LOWERCASE, (min_lowercase cfg). split; [|done]. rewrite !elem_of_cons. naive_solver.
  - exists DIGITS, (min_numbers cfg). split; [|done]. rewrite !elem_of_cons. naive_solver.
  - exists SYMBOLS, (min_special cfg). rewrite filter_ambiguous_SYMBOLS. split; [|done].
    rewrite !elem_of_cons. naive_solver.
Qed.

Lemma allowed_ascii cfg (l : bytes) : Forall (allowed cfg) l → forallb is_ascii l = true.
Proof.
  intros Hl. apply forallb_forall. intros c Hc. apply list_elem_of_In in Hc.
  eapply Forall_forall in Hl as (pool & m & Hp & Hin); [|done].
  apply filter_ambiguous_sub in Hin.
  pose proof class_alphabets_ascii as Ha. rewrite forallb_forall in Ha. apply Ha, list_elem_of_In.
  unfold config_classes in Hp. rewrite !elem_of_cons, elem_of_nil in Hp. rewrite !elem_of_app.
  naive_solver.
Qed.

(** The four required classes in sequence. *)
Lemma required_classes_ok cfg g :
  Forall (λ c, 0 ≤ c.2)%Z (config_classes cfg) →
  ∃ req g',
    (let! r := required_class cfg (uppercase cfg) UPPERCASE (min_uppercase cfg) [] in
     let! r := required_class cfg (lowercase cfg) LOWERCASE (min_lowercase cfg) r in
     let! r := required_class cfg (numbers cfg) DIGITS (min_numbers cfg) r in
     required_class cfg (symbols cfg) SYMBOLS (min_special cfg) r) g = (Ok req, g') ∧
    (Z.of_nat (length req) ≤
      min_uppercase cfg + min_lowercase cfg + min_numbers cfg + min_special cfg)%Z ∧
    Forall (allowed cfg) req ∧
    Forall (λ '(e, pool, m), e = true →
      ∃ pre l post, req = pre ++ l ++ post ∧ Z.of_nat (length l) = m ∧ Forall (λ c, c ∈ pool) l)
      (config_classes cfg).
Proof.
  unfold config_classes. rewrite !Forall_cons. simpl. intros (H1 & H2 & H3 & H4 & _).
  assert (∀ p : bytes, p ∈ [UPPERCASE; LOWERCASE; DIGITS; SYMBOLS] →
    ∀ l b, Forall (λ c, b = true ∧ c ∈ filter_ambiguous p (avoid_ambiguous cfg)) l →
    Forall (λ c, c ∈ p) l) as Hsub.
  { intros p _ l b Hl. eapply Forall_impl; [done|]. intros c [_ Hc]. by eapply filter_ambiguous_sub. }
  destruct (required_class_ok cfg (uppercase cfg) UPPERCASE (min_uppercase cfg) [] g) as (l1 & g1 & E1 & L1 & C1 & F1);
    [set_solver|done|].
  destruct (required_class_ok cfg (lowercase cfg) LOWERCASE (min_lowercase cfg) l1 g1) as (l2 & g2 & E2 & L2 & C2 & F2);
    [set_solver|exact H2|].
  destruct (required_class_ok cfg (numbers cfg) DIGITS (min_numbers cfg) (l1 ++ l2) g2) as (l3 & g3 & E3 & L3 & C3 & F3);
    [set_solver|exact H3|].
  destruct (required_class_ok cfg (symbols cfg) SYMBOLS (min_special cfg) ((l1 ++ l2) ++ l3) g3)
    as (l4 & g4 & E4 & L4 & C4 & F4); [set_solver|exact H4|].
  simpl in E1. exists (((l1 ++ l2) ++ l3) ++ l4), g4. unfold gbind. rewrite E1, E2, E3, E4.
  split; [done|]. rewrite !length_app. split; [lia|]. split.
  - unfold allowed, config_classes. rewrite !Forall_app. split_and!; (eapply Forall_impl; [done|]);
      intros c [-> Hc]; do 2 eexists; (split; [|exact Hc]); rewrite !elem_of_cons; tauto.
  - repeat constructor; intros Hen.
    + exists [], l1, (l2 ++ l3 ++ l4). simpl. rewrite <- !app_assoc. split_and!; [done|auto|].
      eapply (Hsub UPPERCASE); [set_solver|done].
    + exists l1, l2, (l3 ++ l4). rewrite <- !app_assoc. split_and!; [done|auto|].
      eapply (Hsub LOWERCASE); [set_solver|done].
    + exists (l1 ++ l2), l3, l4. rewrite <- !app_assoc. split_and!; [done|auto|].
      eapply (Hsub DIGITS); [set_solver|done].
    + exists (l1 ++ l2 ++ l3), l4, []. rewrite <- !app_assoc, app_nil_r. split_and!; [done|auto|].
      eapply (Hsub SYMBOLS); [set_solver|done].
Qed.

(** C39: what [generate_password] does on every configuration whose minimums
    do not overflow [usize], for any random source: [NoCharset] exactly when no
    class is enabled; otherwise [TooShort] exactly when the length is below the
    sum of all four minimums; otherwise a password of exactly the requested
    length, made of characters of enabled classes only (without the ambiguous
    ones when these are to be avoided), with at least its minimum from every
    enabled class.  It never panics. *)
Theorem generate_password_spec t cfg g :
  PasswordConfig_wf t cfg →
  let r := (generate_password t cfg g).1 in
  if negb (uppercase cfg || lowercase cfg || numbers cfg || symbols cfg) then r = Err NoCharset
  else if (pw_length cfg <? min_uppercase cfg + min_lowercase cfg + min_numbers cfg + min_special cfg)%Z
  then r = Err (TooShort (pw_length cfg))
  else ∃ pw, r = Ok pw ∧ Z.of_nat (length pw) = pw_length cfg ∧ Forall (allowed cfg) pw ∧
    Forall (λ '(e, pool, m), e = true → (m ≤ Z.of_nat (count_in pool pw))%Z) (config_classes cfg).
Proof.
  intros Hwf. cbv zeta. unfold generate_password.
  destruct (negb _) eqn:Hn.
  { apply negb_true_iff in Hn. rewrite !orb_false_iff in Hn.
    rewrite bool_decide_true; [done|]. apply charset_nil. tauto. }
  assert (password_charset cfg ≠ []) as Hne.
  { rewrite charset_nil. intros (E1 & E2 & E3 & E4). by rewrite E1, E2, E3, E4 in Hn. }
  rewrite bool_decide_false by done. unfold gbind, glift.
  rewrite password_min_total_ok by done. cbv beta iota. destruct Hwf as (Hm & Hl & Hs).
  destruct (_ <? _)%Z eqn:Hlt; [done|]. apply Z.ltb_ge in Hlt.
  destruct (required_classes_ok cfg g Hm) as (req & g' & Hreq & Hrl & Hra & Hrc).
  unfold gbind in Hreq.
  destruct (required_class cfg (uppercase cfg) UPPERCASE (min_uppercase cfg) [] g) as [[r1| |] g1]; [|done..]; cbv beta iota in *.
  destruct (required_class cfg (lowercase cfg) LOWERCASE (min_lowercase cfg) r1 g1) as [[r2| |] g2]; [|done..]; cbv beta iota in *.
  destruct (required_class cfg (numbers cfg) DIGITS (min_numbers cfg) r2 g2) as [[r3| |] g3]; [|done..]; cbv beta iota in *.
  rewrite Hreq.
  destruct (fill_remainder_ok (Z.to_nat (pw_length cfg)) (password_charset cfg) (pw_length cfg) req g')
    as (l & g'' & -> & Hlen & Hall); [done|lia..|].
  pose proof (shuffle_perm (req ++ l) g'') as Hperm.
  destruct (shuffle (req ++ l) g'') as [pw g3']. simpl in Hperm.
  assert (Forall (allowed cfg) pw) as Hpw.
  { rewrite Hperm. apply Forall_app. split; [done|]. eapply Forall_impl; [done|]. apply charset_allowed. }
  unfold from_ascii. rewrite (allowed_ascii cfg) by done. simpl.
  exists pw. split; [done|]. split; [by rewrite Hperm|]. split; [done|].
  eapply Forall_impl; [exact Hrc|]. intros [[e pool] m] Hc He.
  destruct (Hc He) as (pre & l' & post & -> & Hl' & Hin). rewrite (count_in_perm _ _ _ Hperm).
  rewrite <- !app_assoc. pose proof (count_in_ge pool l' pre (post ++ l) Hin). lia.
Qed.
End password_gen.

Import ToyPrimitives.

Definition wtarget : Target := mkTarget false 64.

Lemma generate_password_spec_witness :
  ∃ pw, (generate_password wtarget PasswordConfig_default (11%Z : @rng ToyRng)).1 = Ok pw ∧
    Z.of_nat (length pw) = 20%Z ∧ Forall (allowed PasswordConfig_default) pw ∧
    Forall (λ '(e, pool, m), e = true → (m ≤ Z.of_nat (count_in pool pw))%Z)
      (config_classes PasswordConfig_default).
Proof.
  apply (generate_password_spec wtarget PasswordConfig_default).
  split; [repeat constructor; simpl; lia|]. split; [done|]. by vm_compute.
Defined.
