(* ===== verification/Store.v ===== *)
(** * The server's store and the monad its handlers run in

    The tables of [server/src/db/schema.rs] that the modelled handlers touch,
    as finite maps from primary keys to the row structs of
    [server/src/db/models/]; the request context (configuration, clock,
    random streams, third-party functions); errors ([server/src/error.rs]); and
    a state-and-error monad.  An error does not undo earlier writes: the code
    runs outside transactions. *)

From Stdlib Require Import Ascii.
From stdpp Require Import base strings numbers pretty gmap list.
From S2P Require Import Prelude.

(** ** Record update: [r <| f := v |>] *)

(** [Eta R] rebuilds a record from its fields; the setter of a field abstracts
    that field in it. *)
Class Eta (R : Type) := eta : R → R.
Class Setter {R T : Type} (proj : R → T) := setf : T → R → R.
Arguments setf {R T} proj {_} v r.

Ltac derive_setter :=
  match goal with
  | |- @Setter ?R ?T ?proj =>
     let e := constr:(@eta R _) in
     let e := eval hnf in e in
     let v := fresh "v" in let r := fresh "r" in
     unfold Setter; intros v r;
     let t := eval cbv beta in (e r) in
     match eval pattern (proj r) in t with
     | ?F _ => let b := eval cbv beta in (F v) in exact b
     end
  end.
#[export] Hint Extern 1 (Setter _) => derive_setter : typeclass_instances.

Notation "r <| f := v |>" := (setf f v r)
  (at level 1, left associativity, format "r  <|  f  :=  v  |>") : nad_scope.

(** ** JSON values ([serde_json::Value]) *)

Inductive Json :=
  | JNull
  | JBool (b : bool)
  | JNum (z : Z)
  | JStr (s : string)
  | JArr (l : list Json)
  | JObj (fields : list (string * Json)).

(** JSON values are countable, through trees. *)
Fixpoint json_enc (j : Json) : gen_tree (bool + Z + string) :=
  match j with
  | JNull => GenNode 0 []
  | JBool b => GenLeaf (inl (inl b))
  | JNum z => GenLeaf (inl (inr z))
  | JStr s => GenLeaf (inr s)
  | JArr l => GenNode 1 (json_enc <$> l)
  | JObj fields => GenNode 2 ((λ '(k, v), GenNode 3 [GenLeaf (inr k); json_enc v]) <$> fields)
  end.
Fixpoint json_dec (t : gen_tree (bool + Z + string)) : Json :=
  match t with
  | GenLeaf (inl (inl b)) => JBool b
  | GenLeaf (inl (inr z)) => JNum z
  | GenLeaf (inr s) => JStr s
  | GenNode 1 l => JArr (json_dec <$> l)
  | GenNode 2 l => JObj ((λ t, match t with GenNode _ [GenLeaf (inr k); v] => (k, json_dec v) | _ => (EmptyString, JNull) end) <$> l)
  | GenNode _ _ => JNull
  end.
Lemma json_dec_enc : ∀ j, json_dec (json_enc j) = j.
Proof.
  fix go 1. intros [|b|z|s|l|fields]; simpl; try done; f_equal.
  - induction l as [|j l IH]; simpl; [done|]. f_equal; [apply go|exact IH].
  - induction fields as [|[k v] fields IH]; simpl; [done|]. f_equal; [f_equal; apply go|exact IH].
Qed.
#[export] Instance Json_eq_dec : EqDecision Json.
Proof.
  intros x y. destruct (decide (json_enc x = json_enc y)) as [E|E]; [left|right; congruence].
  by rewrite <- (json_dec_enc x), E, json_dec_enc.
Defined.
#[export] Instance Json_countable : Countable Json := inj_countable' json_enc json_dec json_dec_enc.

Definition json_opt {A} (f : A → Json) (o : option A) : Json := from_option f JNull o.

Fixpoint json_field (k : string) (fields : list (string * Json)) : option Json :=
  match fields with
  | [] => None
  | (k', v) :: fields => if bool_decide (k = k') then Some v else json_field k fields
  end.
Definition json_get (k : string) (j : Json) : option Json :=
  match j with JObj fields => json_field k fields | _ => None end.

(** [Map::insert] and [Map::remove]; a map has each key once, and the order of
    its entries does not matter. *)
Fixpoint json_insert (k : string) (v : Json) (fields : list (string * Json)) : list (string * Json) :=
  match fields with
  | [] => [(k, v)]
  | (k', v') :: fields => if bool_decide (k = k') then (k, v) :: fields else (k', v') :: json_insert k v fields
  end.
Definition json_remove (k : string) (fields : list (string * Json)) : list (string * Json) :=
  filter (λ '(k', _), k' ≠ k) fields.

(** Deserializing a struct with one field, known by any of [names], from an
    object (the field exactly once; other entries are ignored) or from an array
    of one element. *)
Definition one_field (names : list string) (j : Json) : option Json :=
  match j with
  | JObj fields =>
     match filter (λ '(k, _), k ∈ names) fields with
     | [(_, v)] => Some v
     | _ => None
     end
  | JArr [v] => Some v
  | _ => None
  end.

(** The body of a listing. *)
Definition json_list (l : list Json) : Json :=
  JObj [("data", JArr l); ("object", JStr "list"); ("continuationToken", JNull)].

(** ** Errors *)

(** [Error { message, kind, code, event }]; the HTTP code defaults to 400, and of
    the kinds only the JSON body of [err_json!] is kept. *)
Record Error := mkError { e_message : string; e_code : Z; e_event : option Z; e_json : option Json }.
Definition new_msg (msg : string) : Error := mkError msg 400 None None.
Definition with_event (ev : Z) (e : Error) : Error := mkError (e_message e) (e_code e) (Some ev) (e_json e).

#[export] Instance Error_eq_dec : EqDecision Error.
Proof. solve_decision. Defined.

(** ** Time

    A [NaiveDateTime] in UTC is a number of nanoseconds since the epoch. *)
Definition NANOS : Z := 1000000000.
Definition seconds (n : Z) : Z := (n * NANOS)%Z.
Definition minutes (n : Z) : Z := (seconds (60 * n))%Z.
Definition days (n : Z) : Z := (seconds (86400 * n))%Z.
(** [DateTime::timestamp] *)
Definition timestamp (t : Z) : Z := (t / NANOS)%Z.
(** [TimeDelta::num_seconds] truncates toward zero. *)
Definition num_seconds (d : Z) : Z := (Z.quot d NANOS)%Z.

(** chrono's range of dates, and the constructors that check it. *)
Definition MAX_TIMESTAMP : Z := 8210266876799.
Definition MIN_TIMESTAMP : Z := -8334601228800.
Definition in_range (secs : Z) : bool := ((MIN_TIMESTAMP <=? secs) && (secs <=? MAX_TIMESTAMP))%Z.
(** [DateTime::from_timestamp(secs, 0)] *)
Definition datetime_from_timestamp (secs : Z) : option Z :=
  if in_range secs then Some (seconds secs) else None.
(** [TimeDelta::try_seconds] and [try_days]: none beyond [i64::MAX] milliseconds. *)
Definition try_seconds (n : Z) : option Z :=
  if (Z.abs n <=? (2 ^ 63 - 1) / 1000)%Z then Some (seconds n) else None.
Definition try_days (n : Z) : option Z := try_seconds (86400 * n)%Z.
(** [NaiveDateTime + TimeDelta], which panics on [None] *)
Definition checked_add_signed (t d : Z) : option Z :=
  if in_range (timestamp (t + d)) then Some (t + d)%Z else None.

(** ** Rows *)

Record User := mkUser {
  u_uuid : string;
  u_enabled : bool;
  u_created_at : Z;
  u_updated_at : Z;
  u_verified_at : option Z;
  u_last_verifying_at : option Z;
  u_login_verify_count : Z;
  u_email : string;
  u_email_new : option string;
  u_email_new_token : option string;
  u_name : string;
  u_password_hash : bytes;
  u_salt : bytes;
  u_password_iterations : Z;
  u_password_hint : option string;
  u_akey : string;
  u_private_key : option string;
  u_public_key : option string;
  u_totp_secret : option string;
  u_totp_recover : option string;
  u_security_stamp : string;
  u_stamp_exception : option string;
  u_equivalent_domains : string;
  u_excluded_globals : string;
  u_client_kdf_type : Z;
  u_client_kdf_iter : Z;
  u_client_kdf_memory : option Z;
  u_client_kdf_parallelism : option Z;
  u_api_key : option string;
  u_avatar_color : option string;
  u_external_id : option string;
}.
#[export] Instance eta_User : Eta User := λ r,
  mkUser (u_uuid r) (u_enabled r) (u_created_at r) (u_updated_at r) (u_verified_at r)
    (u_last_verifying_at r) (u_login_verify_count r) (u_email r) (u_email_new r)
    (u_email_new_token r) (u_name r) (u_password_hash r) (u_salt r) (u_password_iterations r)
    (u_password_hint r) (u_akey r) (u_private_key r) (u_public_key r) (u_totp_secret r)
    (u_totp_recover r) (u_security_stamp r) (u_stamp_exception r) (u_equivalent_domains r) (u_excluded_globals r)
    (u_client_kdf_type r) (u_client_kdf_iter r) (u_client_kdf_memory r)
    (u_client_kdf_parallelism r) (u_api_key r) (u_avatar_color r) (u_external_id r).

Record TwoFactor := mkTwoFactor {
  tf_uuid : string;
  tf_user_uuid : string;
  tf_atype : Z;
  tf_enabled : bool;
  tf_data : string;
  tf_last_used : Z;
}.
#[export] Instance eta_TwoFactor : Eta TwoFactor := λ r,
  mkTwoFactor (tf_uuid r) (tf_user_uuid r) (tf_atype r) (tf_enabled r) (tf_data r) (tf_last_used r).

Record Device := mkDevice {
  d_uuid : string;
  d_created_at : Z;
  d_updated_at : Z;
  d_user_uuid : string;
  d_name : string;
  d_atype : Z;
  d_push_uuid : option string;
  d_push_token : option string;
  d_refresh_token : string;
  d_twofactor_remember : option string;
}.
#[export] Instance eta_Device : Eta Device := λ r,
  mkDevice (d_uuid r) (d_created_at r) (d_updated_at r) (d_user_uuid r) (d_name r) (d_atype r)
    (d_push_uuid r) (d_push_token r) (d_refresh_token r) (d_twofactor_remember r).

Record EmergencyAccess := mkEmergencyAccess {
  ea_uuid : string;
  ea_grantor_uuid : string;
  ea_grantee_uuid : option string;
  ea_email : option string;
  ea_key_encrypted : option string;
  ea_atype : Z;
  ea_status : Z;
  ea_wait_time_days : Z;
  ea_recovery_initiated_at : option Z;
  ea_last_notification_at : option Z;
  ea_updated_at : Z;
  ea_created_at : Z;
}.
#[export] Instance eta_EmergencyAccess : Eta EmergencyAccess := λ r,
  mkEmergencyAccess (ea_uuid r) (ea_grantor_uuid r) (ea_grantee_uuid r) (ea_email r)
    (ea_key_encrypted r) (ea_atype r) (ea_status r) (ea_wait_time_days r)
    (ea_recovery_initiated_at r) (ea_last_notification_at r) (ea_updated_at r) (ea_created_at r).

Record Organization := mkOrganization {
  o_uuid : string;
  o_name : string;
  o_billing_email : string;
  o_private_key : option string;
  o_public_key : option string;
}.
#[export] Instance eta_Organization : Eta Organization := λ r,
  mkOrganization (o_uuid r) (o_name r) (o_billing_email r) (o_private_key r) (o_public_key r).

Record OrganizationApiKey := mkOrganizationApiKey {
  oak_uuid : string;
  oak_org_uuid : string;
  oak_atype : Z;
  oak_api_key : string;
  oak_revision_date : Z;
}.
#[export] Instance eta_OrganizationApiKey : Eta OrganizationApiKey := λ r,
  mkOrganizationApiKey (oak_uuid r) (oak_org_uuid r) (oak_atype r) (oak_api_key r) (oak_revision_date r).

Record Membership := mkMembership {
  m_uuid : string;
  m_user_uuid : string;
  m_org_uuid : string;
  m_invited_by_email : option string;
  m_access_all : bool;
  m_akey : string;
  m_status : Z;
  m_atype : Z;
  m_reset_password_key : option string;
  m_external_id : option string;
}.
#[export] Instance eta_Membership : Eta Membership := λ r,
  mkMembership (m_uuid r) (m_user_uuid r) (m_org_uuid r) (m_invited_by_email r) (m_access_all r)
    (m_akey r) (m_status r) (m_atype r) (m_reset_password_key r) (m_external_id r).

Record OrgPolicy := mkOrgPolicy {
  p_uuid : string;
  p_org_uuid : string;
  p_atype : Z;
  p_enabled : bool;
  p_data : string;
}.
#[export] Instance eta_OrgPolicy : Eta OrgPolicy := λ r,
  mkOrgPolicy (p_uuid r) (p_org_uuid r) (p_atype r) (p_enabled r) (p_data r).

Record Collection := mkCollection {
  c_uuid : string;
  c_org_uuid : string;
  c_name : string;
  c_external_id : option string;
}.
#[export] Instance eta_Collection : Eta Collection := λ r,
  mkCollection (c_uuid r) (c_org_uuid r) (c_name r) (c_external_id r).
#[export] Instance Collection_eq_dec : EqDecision Collection.
Proof. solve_decision. Defined.

Record CollectionUser := mkCollectionUser {
  cu_user_uuid : string;
  cu_collection_uuid : string;
  cu_read_only : bool;
  cu_hide_passwords : bool;
  cu_manage : bool;
}.

Record Group := mkGroup {
  g_uuid : string;
  g_organizations_uuid : string;
  g_name : string;
  g_access_all : bool;
  g_external_id : option string;
  g_creation_date : Z;
  g_revision_date : Z;
}.
#[export] Instance eta_Group : Eta Group := λ r,
  mkGroup (g_uuid r) (g_organizations_uuid r) (g_name r) (g_access_all r) (g_external_id r) (g_creation_date r)
    (g_revision_date r).

Record CollectionGroup := mkCollectionGroup {
  cg_collections_uuid : string;
  cg_groups_uuid : string;
  cg_read_only : bool;
  cg_hide_passwords : bool;
  cg_manage : bool;
}.
#[export] Instance eta_CollectionGroup : Eta CollectionGroup := λ r,
  mkCollectionGroup (cg_collections_uuid r) (cg_groups_uuid r) (cg_read_only r) (cg_hide_passwords r) (cg_manage r).

Record Cipher := mkCipher {
  ci_uuid : string;
  ci_created_at : Z;
  ci_updated_at : Z;
  ci_user_uuid : option string;
  ci_organization_uuid : option string;
  ci_key : option string;
  ci_atype : Z;
  ci_name : string;
  ci_notes : option string;
  ci_fields : option string;
  ci_data : string;
  ci_password_history : option string;
  ci_deleted_at : option Z;
  ci_reprompt : option Z;
}.
#[export] Instance eta_Cipher : Eta Cipher := λ r,
  mkCipher (ci_uuid r) (ci_created_at r) (ci_updated_at r) (ci_user_uuid r) (ci_organization_uuid r) (ci_key r)
    (ci_atype r) (ci_name r) (ci_notes r) (ci_fields r) (ci_data r) (ci_password_history r) (ci_deleted_at r)
    (ci_reprompt r).
#[export] Instance Cipher_eq_dec : EqDecision Cipher.
Proof. solve_decision. Defined.

Record Folder := mkFolder {
  f_uuid : string;
  f_created_at : Z;
  f_updated_at : Z;
  f_user_uuid : string;
  f_name : string;
}.
#[export] Instance eta_Folder : Eta Folder := λ r,
  mkFolder (f_uuid r) (f_created_at r) (f_updated_at r) (f_user_uuid r) (f_name r).

Record Attachment := mkAttachment {
  at_id : string;
  at_cipher_uuid : string;
  at_file_name : string;
  at_file_size : Z;
  at_akey : option string;
}.
#[export] Instance eta_Attachment : Eta Attachment := λ r,
  mkAttachment (at_id r) (at_cipher_uuid r) (at_file_name r) (at_file_size r) (at_akey r).

Record Event := mkEvent {
  ev_uuid : string;
  ev_event_type : Z;
  ev_user_uuid : option string;
  ev_org_uuid : option string;
  ev_cipher_uuid : option string;
  ev_collection_uuid : option string;
  ev_group_uuid : option string;
  ev_org_user_uuid : option string;
  ev_act_user_uuid : option string;
  ev_device_type : option Z;
  ev_ip_address : option string;
  ev_event_date : Z;
  ev_policy_uuid : option string;
  ev_provider_uuid : option string;
  ev_provider_user_uuid : option string;
  ev_provider_org_uuid : option string;
}.
#[export] Instance eta_Event : Eta Event := λ r,
  mkEvent (ev_uuid r) (ev_event_type r) (ev_user_uuid r) (ev_org_uuid r) (ev_cipher_uuid r)
    (ev_collection_uuid r) (ev_group_uuid r) (ev_org_user_uuid r) (ev_act_user_uuid r)
    (ev_device_type r) (ev_ip_address r) (ev_event_date r) (ev_policy_uuid r)
    (ev_provider_uuid r) (ev_provider_user_uuid r) (ev_provider_org_uuid r).

Record TwoFactorIncomplete := mkTwoFactorIncomplete {
  ti_user_uuid : string;
  ti_device_uuid : string;
  ti_device_name : string;
  ti_device_type : Z;
  ti_login_time : Z;
  ti_ip_address : string;
}.

Record Send := mkSend {
  s_uuid : string;
  s_user_uuid : option string;
  s_organization_uuid : option string;
  s_name : string;
  s_notes : option string;
  s_atype : Z;
  s_data : string;
  s_akey : string;
  s_password_hash : option bytes;
  s_password_salt : option bytes;
  s_password_iter : option Z;
  s_max_access_count : option Z;
  s_access_count : Z;
  s_creation_date : Z;
  s_revision_date : Z;
  s_expiration_date : option Z;
  s_deletion_date : Z;
  s_disabled : bool;
  s_hide_email : option bool;
}.
#[export] Instance eta_Send : Eta Send := λ r,
  mkSend (s_uuid r) (s_user_uuid r) (s_organization_uuid r) (s_name r) (s_notes r) (s_atype r)
    (s_data r) (s_akey r) (s_password_hash r) (s_password_salt r) (s_password_iter r)
    (s_max_access_count r) (s_access_count r) (s_creation_date r) (s_revision_date r)
    (s_expiration_date r) (s_deletion_date r) (s_disabled r) (s_hide_email r).

Record AuthRequest := mkAuthRequest {
  ar_uuid : string;
  ar_user_uuid : string;
  ar_organization_uuid : option string;
  ar_request_device_identifier : string;
  ar_device_type : Z;
  ar_request_ip : string;
  ar_response_device_id : option string;
  ar_access_code : string;
  ar_public_key : string;
  ar_enc_key : option string;
  ar_master_password_hash : option string;
  ar_approved : option bool;
  ar_creation_date : Z;
  ar_response_date : option Z;
  ar_authentication_date : option Z;
}.

Record TwoFactorDuoContext := mkTwoFactorDuoContext { dc_state : string; dc_user_email : string; dc_nonce : string; dc_exp : Z }.

(** [OIDCCodeResponseError] and [OIDCAuthenticatedUser] are stored as JSON text
    that reads back to the same value. *)
Record OIDCCodeResponseError := mkOIDCCodeResponseError { ce_error : string; ce_error_description : option string }.
Record OIDCAuthenticatedUser := mkOIDCAuthenticatedUser {
  oa_refresh_token : option string;
  oa_access_token : string;
  oa_expires_in : option Z;
  oa_identifier : string;
  oa_email : string;
  oa_email_verified : option bool;
  oa_user_name : option string;
}.
Record SsoAuth := mkSsoAuth {
  sa_state : string;
  sa_client_challenge : string;
  sa_nonce : string;
  sa_redirect_uri : string;
  sa_code_response : option string;
  sa_code_response_error : option OIDCCodeResponseError;
  sa_auth_response : option OIDCAuthenticatedUser;
  sa_created_at : Z;
  sa_updated_at : Z;
  sa_binding_hash : option string;
}.
#[export] Instance eta_SsoAuth : Eta SsoAuth := λ r,
  mkSsoAuth (sa_state r) (sa_client_challenge r) (sa_nonce r) (sa_redirect_uri r) (sa_code_response r)
    (sa_code_response_error r) (sa_auth_response r) (sa_created_at r) (sa_updated_at r) (sa_binding_hash r).
Record SsoUser := mkSsoUser { su_user_uuid : string; su_identifier : string }.

(** ** The database *)

Record Db := mkDb {
  users : gmap string User;
  invitations : gset string;
  devices : gmap (string * string) Device;      (* uuid, user_uuid *)
  twofactor : gmap string TwoFactor;
  twofactor_incomplete : gmap (string * string) TwoFactorIncomplete;  (* user_uuid, device_uuid *)
  emergency_access : gmap string EmergencyAccess;
  organizations : gmap string Organization;
  users_organizations : gmap string Membership;
  org_policies : gmap string OrgPolicy;
  collections : gmap string Collection;
  users_collections : gmap (string * string) CollectionUser;  (* user_uuid, collection_uuid *)
  groups_users : gset (string * string);        (* groups_uuid, users_organizations_uuid *)
  events : gmap string Event;
  sends : gmap string Send;
  auth_requests : gmap string AuthRequest;
  organization_api_key : gmap (string * string) OrganizationApiKey;  (* uuid, org_uuid *)
  ciphers : gmap string Cipher;
  ciphers_collections : gset (string * string); (* cipher_uuid, collection_uuid *)
  groups : gmap string Group;
  collections_groups : gmap (string * string) CollectionGroup;  (* collections_uuid, groups_uuid *)
  folders : gmap string Folder;
  folders_ciphers : gset (string * string);     (* cipher_uuid, folder_uuid *)
  favorites : gset (string * string);           (* user_uuid, cipher_uuid *)
  archives : gmap (string * string) Z;          (* user_uuid, cipher_uuid *)
  attachments : gmap string Attachment;
  twofactor_duo_ctx : gmap string TwoFactorDuoContext;
  sso_auth : gmap string SsoAuth;               (* state *)
  sso_users : gmap string SsoUser;              (* user_uuid *)
}.
#[export] Instance eta_Db : Eta Db := λ r,
  mkDb (users r) (invitations r) (devices r) (twofactor r) (twofactor_incomplete r) (emergency_access r) (organizations r)
    (users_organizations r) (org_policies r) (collections r) (users_collections r)
    (groups_users r) (events r) (sends r) (auth_requests r) (organization_api_key r) (ciphers r)
    (ciphers_collections r) (groups r) (collections_groups r) (folders r) (folders_ciphers r) (favorites r)
    (archives r) (attachments r) (twofactor_duo_ctx r) (sso_auth r) (sso_users r).

(** [table.filter(p).load()]: the rows satisfying [p], in no particular order. *)
Definition load {K V} `{Countable K} (p : V → bool) (t : gmap K V) : list V :=
  filter (λ r, p r = true) (map_to_list t).*2.
(** [table.filter(p).first().ok()] *)
Definition first {K V} `{Countable K} (p : V → bool) (t : gmap K V) : option V := head (load p t).
(** [delete(table.filter(p))] *)
Definition delete_where {K V} `{Countable K} (p : V → bool) (t : gmap K V) : gmap K V :=
  filter (λ kv, p kv.2 = false) t.

Lemma elem_of_load {K V} `{Countable K} (p : V → bool) (t : gmap K V) r :
  r ∈ load p t ↔ p r = true ∧ ∃ k, t !! k = Some r.
Proof.
  unfold load. rewrite list_elem_of_filter, list_elem_of_fmap. split.
  - intros [Hp ([k v] & -> & Hin)]. apply elem_of_map_to_list in Hin. eauto.
  - intros [Hp [k Hk]]. split; [done|]. exists (k, r). by rewrite elem_of_map_to_list.
Qed.

Lemma first_Some {K V} `{Countable K} (p : V → bool) (t : gmap K V) r :
  first p t = Some r → p r = true ∧ ∃ k, t !! k = Some r.
Proof.
  unfold first. intros Hh. apply elem_of_load. destruct (load p t); [done|]. simpl in Hh. simplify_eq.
  by left.
Qed.

Lemma first_None {K V} `{Countable K} (p : V → bool) (t : gmap K V) :
  first p t = None ↔ ∀ k r, t !! k = Some r → p r = false.
Proof.
  unfold first. split.
  - intros Hh k r Hk. destruct (p r) eqn:Hp; [|done].
    assert (r ∈ load p t) as Hin by (apply elem_of_load; eauto).
    destruct (load p t); [by apply elem_of_nil in Hin|done].
  - intros Hall. destruct (load p t) as [|r l] eqn:E; [done|].
    assert (r ∈ load p t) as Hin by (rewrite E; by left).
    apply elem_of_load in Hin as [Hp [k Hk]]. by rewrite (Hall k r Hk) in Hp.
Qed.

(** The row is determined when at most one row satisfies the predicate. *)
Lemma first_unique {K V} `{Countable K} (p : V → bool) (t : gmap K V) k r :
  t !! k = Some r → p r = true →
  (∀ k' r', t !! k' = Some r' → p r' = true → r' = r) → first p t = Some r.
Proof.
  intros Hk Hp Hu. destruct (first p t) as [r'|] eqn:E.
  - apply first_Some in E as [Hp' [k' Hk']]. f_equal. eauto.
  - rewrite first_None in E. by rewrite (E k r Hk) in Hp.
Qed.

(** The keys of a query's rows are distinct when each row sits under its key. *)
Lemma load_ext {K V} `{Countable K} (p q : V → bool) (t : gmap K V) :
  (∀ k r, t !! k = Some r → p r = q r) → load p t = load q t.
Proof.
  intros Hpq. unfold load. assert (Forall (λ r, p r = q r) (map_to_list t).*2) as Hall.
  { apply Forall_fmap, Forall_forall. intros [k r] Hr%elem_of_map_to_list. by eapply Hpq. }
  induction Hall as [|r l Hr _ IH]; [done|]. rewrite !filter_cons, Hr, IH. done.
Qed.
Lemma load_insert_new {K V} `{Countable K} (p : V → bool) (t : gmap K V) k r :
  t !! k = None → load p (<[k := r]> t) ≡ₚ if p r then r :: load p t else load p t.
Proof.
  intros Hk. unfold load. rewrite map_to_list_insert by done. rewrite fmap_cons, filter_cons. simpl.
  by destruct (p r).
Qed.
Lemma load_keys_NoDup {K V} `{Countable K} (key : V → K) (p : V → bool) (t : gmap K V) :
  (∀ k r, t !! k = Some r → key r = k) → NoDup (key <$> load p t).
Proof.
  intros Hk. unfold load.
  assert (key <$> (map_to_list t).*2 = (map_to_list t).*1) as E.
  { rewrite <- list_fmap_compose. apply list_fmap_ext. intros i [k r] Hi. simpl.
    apply Hk. apply elem_of_map_to_list. by eapply list_elem_of_lookup_2. }
  eapply sublist_NoDup; [apply (NoDup_fst_map_to_list t)|]. rewrite <- E.
  apply fmap_sublist, sublist_filter.
Qed.

Lemma lookup_delete_where {K V} `{Countable K} (p : V → bool) (t : gmap K V) k :
  delete_where p t !! k = (r ← t !! k; if p r then None else Some r).
Proof.
  unfold delete_where. rewrite map_lookup_filter.
  destruct (t !! k) as [r|]; simpl; [|done]. destruct (p r) eqn:E.
  - by rewrite option_guard_False.
  - by rewrite option_guard_True.
Qed.

(** ** Mail *)

Inductive Mail :=
  | MailToken (addr token : string)
  | MailProtectedAction (addr token : string)
  | MailEmergencyInvite (addr user_uuid emer_id grantor_name grantor_email : string)
  | MailEmergencyAccepted (addr grantee_email : string)
  | MailEmergencyConfirmed (addr grantor_name : string)
  | MailRecoveryInitiated (addr grantee_name atype : string) (wait_days : Z)
  | MailRecoveryApproved (addr grantor_name : string)
  | MailRecoveryRejected (addr grantor_name : string)
  | MailRecoveryTimedOut (addr grantee_name atype : string)
  | MailRecoveryReminder (addr grantee_name atype days_left : string)
  | Mail2faRemovedFromOrg (addr org_name : string)
  | MailVerifyEmail (addr user_uuid : string)
  | MailNewDevice (addr ip : string) (login_time : Z) (device_uuid : string)
  | MailIncomplete2fa (addr ip : string) (login_time : Z) (device_name device_type : string)
  | MailOrgInvite (addr user_uuid org_id member_id org_name : string) (invited_by_email : option string)
  | MailInviteAccepted (addr new_user_email org_name : string)
  | MailInviteConfirmed (addr org_name : string)
  | MailSingleOrgRemoved (addr org_name : string)
  | MailAdminResetPassword (addr user_name org_name : string)
  | MailWelcome (addr : string)
  | MailWelcomeMustVerify (addr user_uuid : string)
  | MailRegisterVerify (addr token : string)
  | MailChangeEmail (addr token : string)
  | MailChangeEmailInvited (addr acting_address : string)
  | MailChangeEmailExisting (addr acting_address : string)
  | MailDeleteAccount (addr user_uuid : string)
  | MailPasswordHint (addr : string) (hint : option string)
  | MailTest (addr : string)
  | MailSsoChangeEmail (addr : string).

(** ** The request context *)

Record Config := mkConfig {
  mail_enabled : bool;
  emergency_access_allowed : bool;
  invitations_allowed : bool;
  signups_domains_whitelist : string;
  signups_allowed : bool;
  enable_email_2fa : bool;
  email_token_size : Z;
  email_attempts_limit : Z;
  email_expiration_time : Z;
  authenticator_disable_time_drift : bool;
  org_events_enabled : bool;
  email_2fa_auto_fallback : bool;
  incomplete_2fa_time_limit : Z;
  enable_duo : bool;
  duo_host : option string;
  duo_ikey : option string;
  duo_skey : option string;
  enable_yubico : bool;
  yubico_client_id : option string;
  yubico_secret_key : option string;
  is_webauthn_2fa_supported : bool;
  disable_2fa_remember : bool;
  password_iterations : Z;
  sends_allowed : bool;
  user_send_limit : option Z;
  signups_verify : bool;
  signups_verify_resend_time : Z;
  signups_verify_resend_limit : Z;
  require_device_email : bool;
  duo_use_iframe : bool;
  push_enabled : bool;
  sso_enabled : bool;
  sso_only : bool;
  sso_master_password_policy : option Json;
  sso_auth_only_not_session : bool;
  sso_authority : string;
  org_groups_enabled : bool;
  max_note_size : Z;
  trash_auto_delete_days : option Z;
  user_attachment_limit : option Z;
  org_attachment_limit : option Z;
  org_creation_users : string;
  enforce_single_org_with_reset_pw_policy : bool;
  invitation_org_name : string;
  domain : string;
  domain_origin : string;
  password_hints_allowed : bool;
  show_password_hint : bool;
  email_change_allowed : bool;
  email_2fa_enforce_on_verified_invite : bool;
  admin_token : option string;
  disable_admin_token : bool;
  yubico_server : option string;
  sso_signups_match_email : bool;
  sso_allow_unknown_email_verification : bool;
  sso_client_id : string;
  sso_client_secret : string;
  sso_scopes : string;
  sso_authorize_extra_params : string;
  sso_pkce : bool;
  sso_audience_trusted : option string;
  sso_callback_path : string;
  sso_client_cache_expiration : Z;
  domain_path : string;
}.
#[export] Instance eta_Config : Eta Config := λ r,
  mkConfig (mail_enabled r) (emergency_access_allowed r) (invitations_allowed r)
    (signups_domains_whitelist r) (signups_allowed r)
    (enable_email_2fa r) (email_token_size r) (email_attempts_limit r) (email_expiration_time r)
    (authenticator_disable_time_drift r) (org_events_enabled r) (email_2fa_auto_fallback r)
    (incomplete_2fa_time_limit r) (enable_duo r) (duo_host r) (duo_ikey r) (duo_skey r) (enable_yubico r)
    (yubico_client_id r) (yubico_secret_key r) (is_webauthn_2fa_supported r) (disable_2fa_remember r)
    (password_iterations r) (sends_allowed r) (user_send_limit r) (signups_verify r) (signups_verify_resend_time r)
    (signups_verify_resend_limit r) (require_device_email r) (duo_use_iframe r) (push_enabled r) (sso_enabled r)
    (sso_only r) (sso_master_password_policy r) (sso_auth_only_not_session r) (sso_authority r)
    (org_groups_enabled r) (max_note_size r) (trash_auto_delete_days r) (user_attachment_limit r)
    (org_attachment_limit r) (org_creation_users r) (enforce_single_org_with_reset_pw_policy r)
    (invitation_org_name r) (domain r) (domain_origin r) (password_hints_allowed r) (show_password_hint r)
    (email_change_allowed r) (email_2fa_enforce_on_verified_invite r) (admin_token r) (disable_admin_token r) (yubico_server r)
    (sso_signups_match_email r) (sso_allow_unknown_email_verification r) (sso_client_id r) (sso_client_secret r)
    (sso_scopes r) (sso_authorize_extra_params r) (sso_pkce r) (sso_audience_trusted r) (sso_callback_path r)
    (sso_client_cache_expiration r) (domain_path r).

(** What a request sees of its surroundings.  The clock is read once per
    request.  [uuid_at], [random_index] and [random_bytes_at] are the streams
    of random identifiers, indices below a bound, and bytes; the rest are
    functions of third-party crates. *)
Record Env := mkEnv {
  cfg : Config;
  now : Z;
  uuid_at : nat → string;
  random_index : nat → nat → nat;
  random_bytes_at : nat → nat → bytes;
  encode_base32 : bytes → string;
  encode_base64url : bytes → string;
  decode_base32 : string → option bytes;
  str_to_lowercase : string → string;
  str_to_uppercase : string → string;
  str_is_numeric : string → bool;
  is_valid_email : string → bool;
  (** ring's PBKDF2-HMAC-SHA256: secret, salt, iterations *)
  pbkdf2_derive : bytes → bytes → Z → bytes;
  pbkdf2_verify : bytes → bytes → bytes → Z → bool;
  (** chrono's [%F %T UTC] *)
  format_utc : Z → string;
  (** RFC 6238 code of a secret at a time, six digits, period 30 *)
  totp_custom : bytes → Z → string;
  mail_delivers : Mail → bool;
  (** [serde_json::from_str::<Value>] *)
  parse_json : string → option Json;
  (** the rate limiter's verdict for a client address *)
  login_allowed : string → bool;
  (** data_encoding: unpadded base64url and lower-case hexadecimal *)
  decode_base64url : string → option bytes;
  encode_hexlower : bytes → string;
  (** the uuid crate: the bytes of a text, the text of sixteen bytes *)
  uuid_parse_str : string → option bytes;
  uuid_to_string : bytes → string;
  (** [serde_json::to_string] of a [Value] *)
  json_text : Json → string;
  (** chrono's RFC 3339 text of a date *)
  format_date : Z → string;
  (** [get_display_size], which formats floating-point numbers *)
  get_display_size : Z → string;
  (** object storage: an operator can be had, and reads and writes succeed *)
  storage_configured : bool;
  storage_available : bool;
  (** chrono's [NaiveDateTime::parse_from_str(_, "%+")] *)
  parse_iso8601 : string → option Z;
  (** chrono's [DateTime::parse_from_rfc3339], printed again with microseconds *)
  reformat_rfc3339 : string → option string;
  (** whether the database's statement for saving a cipher that exists deletes
      the old row before inserting the new one ([REPLACE INTO] does, unless a
      foreign key makes it fail; an upsert never does) *)
  save_replaces_row : Db → string → bool;
  (** whether the database enforces references that a table declares in line
      with a column (SQLite and PostgreSQL do, MySQL ignores them) *)
  enforces_references : bool;
}.
#[export] Instance eta_Env : Eta Env := λ r,
  mkEnv (cfg r) (now r) (uuid_at r) (random_index r) (random_bytes_at r) (encode_base32 r) (encode_base64url r)
    (decode_base32 r) (str_to_lowercase r) (str_to_uppercase r) (str_is_numeric r) (is_valid_email r)
    (pbkdf2_derive r) (pbkdf2_verify r) (format_utc r) (totp_custom r) (mail_delivers r) (parse_json r)
    (login_allowed r) (decode_base64url r) (encode_hexlower r) (uuid_parse_str r) (uuid_to_string r) (json_text r)
    (format_date r) (get_display_size r) (storage_configured r) (storage_available r)
    (parse_iso8601 r) (reformat_rfc3339 r) (save_replaces_row r) (enforces_references r).

(** The documented contracts of the random sources. *)
Record Env_ok (e : Env) : Prop := {
  uuid_at_inj : ∀ i j, uuid_at e i = uuid_at e j → i = j;
  random_index_lt : ∀ i n, 0 < n → random_index e i n < n;
  random_bytes_length : ∀ i n, length (random_bytes_at e i n) = n;
  pbkdf2_length : ∀ s salt n, length (pbkdf2_derive e s salt n) = 32;
  pbkdf2_verify_spec : ∀ s salt h n, length h = 32 →
    pbkdf2_verify e s salt h n = bool_decide (h = pbkdf2_derive e s salt n);
}.

(** The mutable world: the database, the position in the random streams, the
    mails handed over so far, and the stored files: of sends, by the identifiers
    of the send and of the file; and attachments, by those of the cipher and of
    the attachment. *)
Record World := mkWorld {
  db : Db;
  tick : nat;
  outbox : list Mail;
  send_files : gmap (string * string) bytes;
  attachment_files : gmap (string * string) bytes;
}.
#[export] Instance eta_World : Eta World := λ r, 
  mkWorld (db r) (tick r) (outbox r) (send_files r) (attachment_files r).

(** ** The monad *)

Definition M (A : Type) : Type := Env → World → res Error A * World.

Definition mret {A} (a : A) : M A := λ _ w, (Ok a, w).
Definition mfail {A} (e : Error) : M A := λ _ w, (Err e, w).
Definition mpanic {A} : M A := λ _ w, (Panic, w).
Definition mbind {A B} (m : M A) (k : A → M B) : M B := λ e w,
  match m e w with
  | (Ok a, w) => k a e w
  | (Err x, w) => (Err x, w)
  | (Panic, w) => (Panic, w)
  end.
(** [.ok()] on a result that is then dropped: errors are ignored. *)
Definition mignore (m : M unit) : M unit := λ e w,
  match m e w with
  | (Ok _, w) | (Err _, w) => (Ok tt, w)
  | (Panic, w) => (Panic, w)
  end.

Notation "'let*' x := m 'in' k" := (mbind m (λ x, k))
  (at level 10, x pattern, m at level 100, k at level 200) : nad_scope.
Notation "'do*' m 'in' k" := (mbind m (λ _ : unit, k))
  (at level 10, m at level 100, k at level 200) : nad_scope.

(** [err!(msg)] and [if cond { err!(msg) }] *)
Definition err {A} (msg : string) : M A := mfail (new_msg msg).
Definition err_code {A} (msg : string) (code : Z) : M A := mfail (mkError msg code None None).
Definition err_json {A} (body : Json) (msg : string) : M A := mfail (mkError msg 400 None (Some body)).
Definition err_event {A} (msg : string) (ev : Z) : M A := mfail (with_event ev (new_msg msg)).
Definition ensure (b : bool) (msg : string) : M unit := if b then mret tt else err msg.
(** [let Some(x) = o else { err!(msg) }] *)
Definition some_or_err {A} (o : option A) (msg : string) : M A :=
  match o with Some a => mret a | None => err msg end.
Definition mexpect {A} (o : option A) : M A :=
  match o with Some a => mret a | None => mpanic end.

Definition ask {A} (f : Env → A) : M A := λ e w, (Ok (f e), w).
Definition conf {A} (f : Config → A) : M A := ask (λ e, f (cfg e)).
Definition query {A} (f : Db → A) : M A := λ _ w, (Ok (f (db w)), w).
Definition exec (f : Db → Db) : M unit := λ _ w, (Ok tt, w <| db := f (db w) |>).

(** [crate::util::get_uuid] and the other random sources advance the stream. *)
Definition next {A} (f : Env → nat → A) : M A := λ e w, (Ok (f e (tick w)), w <| tick := S (tick w) |>).
Definition get_uuid : M string := next uuid_at.

(** [mail::send_*]: an undeliverable mail is an error for the caller. *)
Definition send_mail (m : Mail) : M unit := λ e w,
  if mail_delivers e m then (Ok tt, w <| outbox := outbox w ++ [m] |>)
  else (Err (new_msg "Error sending mail"), w).

(** [t + TimeDelta::try_days(n).unwrap()], which panics out of range *)
Definition plus_days (t n : Z) : M Z :=
  let* d := mexpect (try_days n) in mexpect (checked_add_signed t d).

(** [for x in l { f(x)?; }] *)
Fixpoint for_each {A} (l : list A) (f : A → M unit) : M unit :=
  match l with
  | [] => mret tt
  | x :: l => do* f x in for_each l f
  end.

(** The response body does not matter. *)
Definition mdrop {A} (m : M A) : M unit := let* _ := m in mret tt.

(** ** Reasoning about runs

    [wp m e w Φ]: running [m] from [w] ends in a result and a world related by
    [Φ].  The rules below run a computation symbolically, one primitive at a
    time; every branch, errors and panics included, is covered. *)

Definition wp {A} (m : M A) (e : Env) (w : World) (Φ : res Error A → World → Prop) : Prop :=
  Φ (m e w).1 (m e w).2.
(** The postcondition of the first half of a sequence. *)
Definition bind_post {A B} (k : A → M B) (e : Env) (Φ : res Error B → World → Prop)
    (r : res Error A) (w : World) : Prop :=
  match r with
  | Ok a => wp (k a) e w Φ
  | Err x => Φ (Err x) w
  | Panic => Φ Panic w
  end.

Lemma wp_run {A} (m : M A) e w Φ : wp m e w Φ → ∀ r w', m e w = (r, w') → Φ r w'.
Proof. unfold wp. intros H r w' E. by rewrite E in H. Qed.
Lemma wp_intro {A} (m : M A) e w (Φ : res Error A → World → Prop) :
  (∀ r w', m e w = (r, w') → Φ r w') → wp m e w Φ.
Proof. unfold wp. intros H. destruct (m e w). by apply H. Qed.
Lemma wp_exists {A} (m : M A) e w (Φ : res Error A → World → Prop) :
  wp m e w Φ → ∃ r w', m e w = (r, w') ∧ Φ r w'.
Proof. unfold wp. destruct (m e w). eauto. Qed.
Lemma wp_eq {A} (m : M A) e w r w' (Φ : res Error A → World → Prop) : m e w = (r, w') → Φ r w' → wp m e w Φ.
Proof. unfold wp. by intros ->. Qed.
Lemma wp_mono {A} (m : M A) e w (Φ Ψ : res Error A → World → Prop) :
  wp m e w Φ → (∀ r w', Φ r w' → Ψ r w') → wp m e w Ψ.
Proof. unfold wp. auto. Qed.

Lemma wp_bind {A B} (m : M A) (k : A → M B) e w Φ :
  wp m e w (bind_post k e Φ) → wp (mbind m k) e w Φ.
Proof. unfold wp, bind_post, mbind. by destruct (m e w) as [[] ?]. Qed.
Lemma wp_mignore m e w (Φ : res Error unit → World → Prop) :
  wp m e w (λ r w', match r with Panic => Φ Panic w' | _ => Φ (Ok tt) w' end) → wp (mignore m) e w Φ.
Proof. unfold wp, mignore. by destruct (m e w) as [[] ?]. Qed.
Lemma wp_mret {A} (a : A) e w (Φ : res Error A → World → Prop) : Φ (Ok a) w → wp (mret a) e w Φ.
Proof. done. Qed.
Lemma wp_err {A} msg e w (Φ : res Error A → World → Prop) : Φ (Err (new_msg msg)) w → wp (err msg) e w Φ.
Proof. done. Qed.
Lemma wp_err_event {A} msg ev e w (Φ : res Error A → World → Prop) :
  Φ (Err (with_event ev (new_msg msg))) w → wp (err_event msg ev) e w Φ.
Proof. done. Qed.
Lemma wp_err_code {A} msg code e w (Φ : res Error A → World → Prop) :
  Φ (Err (mkError msg code None None)) w → wp (err_code msg code) e w Φ.
Proof. done. Qed.
Lemma wp_err_json {A} body msg e w (Φ : res Error A → World → Prop) :
  Φ (Err (mkError msg 400 None (Some body))) w → wp (err_json body msg) e w Φ.
Proof. done. Qed.
Lemma wp_mpanic {A} e w (Φ : res Error A → World → Prop) : Φ Panic w → wp mpanic e w Φ.
Proof. done. Qed.
Lemma wp_ensure b msg e w (Φ : res Error unit → World → Prop) :
  (b = true → Φ (Ok tt) w) → (b = false → Φ (Err (new_msg msg)) w) → wp (ensure b msg) e w Φ.
Proof. unfold ensure. destruct b; intros H1 H2; [by apply H1|by apply H2]. Qed.
Lemma wp_some_or_err {A} (o : option A) msg e w (Φ : res Error A → World → Prop) :
  (∀ a, o = Some a → Φ (Ok a) w) → (o = None → Φ (Err (new_msg msg)) w) → wp (some_or_err o msg) e w Φ.
Proof. destruct o; intros H1 H2; [by apply H1|by apply H2]. Qed.
Lemma wp_mexpect {A} (o : option A) e w (Φ : res Error A → World → Prop) :
  (∀ a, o = Some a → Φ (Ok a) w) → (o = None → Φ Panic w) → wp (mexpect o) e w Φ.
Proof. destruct o; intros H1 H2; [by apply H1|by apply H2]. Qed.
Lemma wp_ask {A} (f : Env → A) e w (Φ : res Error A → World → Prop) : Φ (Ok (f e)) w → wp (ask f) e w Φ.
Proof. done. Qed.
Lemma wp_conf {A} (f : Config → A) e w (Φ : res Error A → World → Prop) :
  Φ (Ok (f (cfg e))) w → wp (conf f) e w Φ.
Proof. done. Qed.
Lemma wp_query {A} (f : Db → A) e w (Φ : res Error A → World → Prop) :
  Φ (Ok (f (db w))) w → wp (query f) e w Φ.
Proof. done. Qed.
Lemma wp_exec (f : Db → Db) e w (Φ : res Error unit → World → Prop) :
  Φ (Ok tt) (w <| db := f (db w) |>) → wp (exec f) e w Φ.
Proof. done. Qed.
Lemma wp_next {A} (f : Env → nat → A) e w (Φ : res Error A → World → Prop) :
  Φ (Ok (f e (tick w))) (w <| tick := S (tick w) |>) → wp (next f) e w Φ.
Proof. done. Qed.
Lemma wp_send_mail m e w (Φ : res Error unit → World → Prop) :
  Φ (Ok tt) (w <| outbox := outbox w ++ [m] |>) → Φ (Err (new_msg "Error sending mail")) w →
  wp (send_mail m) e w Φ.
Proof. unfold wp, send_mail. by destruct (mail_delivers e m). Qed.

(** A loop: [I] holds of the world before each round. *)
Lemma wp_for_each {A} (l : list A) (f : A → M unit) e w (I : World → Prop) (Φ : res Error unit → World → Prop) :
  I w →
  (∀ x w, x ∈ l → I w →
     wp (f x) e w (λ r w', match r with Ok _ => I w' | Err y => Φ (Err y) w' | Panic => Φ Panic w' end)) →
  (∀ w, I w → Φ (Ok tt) w) → wp (for_each l f) e w Φ.
Proof.
  intros HI Hf Hk. revert w HI. induction l as [|x l IH]; intros w HI; simpl; [by apply Hk|].
  apply wp_bind. eapply wp_mono; [apply Hf; [by left|done]|]. intros [] w'; simpl; try done.
  intros HI'. apply IH; [|done]. intros y w'' Hy. apply Hf. by right.
Qed.

Ltac wp_step :=
  lazymatch goal with
  | |- wp (mbind _ _) _ _ _ => apply wp_bind
  | |- bind_post _ _ _ (Ok _) _ => unfold bind_post at 1; cbv beta iota
  | |- bind_post _ _ _ (Err _) _ => unfold bind_post at 1; cbv beta iota
  | |- bind_post _ _ _ Panic _ => unfold bind_post at 1; cbv beta iota
  | |- wp (mignore _) _ _ _ => apply wp_mignore
  | |- wp (mret _) _ _ _ => apply wp_mret; cbv beta
  | |- wp (err _) _ _ _ => apply wp_err; cbv beta
  | |- wp (err_event _ _) _ _ _ => apply wp_err_event; cbv beta
  | |- wp (err_code _ _) _ _ _ => apply wp_err_code; cbv beta
  | |- wp (err_json _ _) _ _ _ => apply wp_err_json; cbv beta
  | |- wp mpanic _ _ _ => apply wp_mpanic; cbv beta
  | |- wp (ensure _ _) _ _ _ => apply wp_ensure; let H := fresh "Hc" in intros H; cbv beta
  | |- wp (some_or_err _ _) _ _ _ =>
     apply wp_some_or_err; [let a := fresh "a" in let H := fresh "Ho" in intros a H
                           |let H := fresh "Ho" in intros H]; cbv beta
  | |- wp (mexpect _) _ _ _ =>
     apply wp_mexpect; [let a := fresh "a" in let H := fresh "Ho" in intros a H
                       |let H := fresh "Ho" in intros H]; cbv beta
  | |- wp (ask _) _ _ _ => apply wp_ask; cbv beta
  | |- wp (conf _) _ _ _ => apply wp_conf; cbv beta
  | |- wp (query _) _ _ _ => apply wp_query; cbv beta
  | |- wp (exec _) _ _ _ => apply wp_exec; cbv beta
  | |- wp (next _) _ _ _ => apply wp_next; cbv beta
  | |- wp get_uuid _ _ _ => apply wp_next; cbv beta
  | |- wp (send_mail _) _ _ _ => apply wp_send_mail; cbv beta
  | |- wp (if ?b then _ else _) _ _ _ => let H := fresh "Hb" in destruct b eqn:H
  | |- wp (match ?o with Some _ => _ | None => _ end) _ _ _ =>
     let a := fresh "a" in let H := fresh "Hm" in destruct o as [a|] eqn:H
  end.
Ltac wp_go := repeat wp_step.

(** [keeps π m]: [m] leaves the part [π] of the database alone, whatever its
    result. *)
Definition keeps {A X} (π : Db → X) (m : M A) : Prop :=
  ∀ e w, wp m e w (λ _ w', π (db w') = π (db w)).
(** [safe m]: [m] neither fails nor panics. *)
Definition safe {A} (m : M A) : Prop := ∀ e w, wp m e w (λ r _, ∃ a, r = Ok a).

Lemma keeps_bind {A B X} (π : Db → X) (m : M A) (k : A → M B) :
  keeps π m → (∀ a, keeps π (k a)) → keeps π (mbind m k).
Proof.
  intros Hm Hk e w. apply wp_bind. eapply wp_mono; [apply Hm|]. intros [a|x|] w' Hw; simpl; try done.
  eapply wp_mono; [apply Hk|]. simpl. congruence.
Qed.
Lemma keeps_for_each {A X} (π : Db → X) (l : list A) f :
  (∀ x, keeps π (f x)) → keeps π (for_each l f).
Proof. intros Hf. induction l; simpl; [done|]. by apply keeps_bind. Qed.
Lemma keeps_mignore {X} (π : Db → X) m : keeps π m → keeps π (mignore m).
Proof. intros Hm e w. apply wp_mignore. eapply wp_mono; [apply Hm|]. by intros []. Qed.
Lemma keeps_exec {X} (π : Db → X) f : (∀ d, π (f d) = π d) → keeps π (exec f).
Proof. intros Hf e w. apply wp_exec. apply Hf. Qed.
Lemma keeps_send_mail {X} (π : Db → X) m : keeps π (send_mail m).
Proof. intros e w. by apply wp_send_mail. Qed.
Lemma keeps_ensure {X} (π : Db → X) b msg : keeps π (ensure b msg).
Proof. intros e w. by apply wp_ensure. Qed.
Lemma keeps_some_or_err {A X} (π : Db → X) (o : option A) msg : keeps π (some_or_err o msg).
Proof. intros e w. by apply wp_some_or_err. Qed.
Lemma keeps_mexpect {A X} (π : Db → X) (o : option A) : keeps π (mexpect o).
Proof. intros e w. by apply wp_mexpect. Qed.

Lemma safe_bind {A B} (m : M A) (k : A → M B) : safe m → (∀ a, safe (k a)) → safe (mbind m k).
Proof.
  intros Hm Hk e w. apply wp_bind. eapply wp_mono; [apply Hm|]. intros r w' [a ->]. apply Hk.
Qed.
Lemma safe_for_each {A} (l : list A) f : (∀ x, safe (f x)) → safe (for_each l f).
Proof. intros Hf. induction l; simpl; [intros e w; by exists tt|]. by apply safe_bind. Qed.
Lemma safe_mignore m : safe m → safe (mignore m).
Proof. intros Hm e w. apply wp_mignore. eapply wp_mono; [apply Hm|]. intros r w' [a ->]. eauto. Qed.

Lemma wp_keeps {A X} (π : Db → X) (m : M A) e w (Φ : res Error A → World → Prop) :
  keeps π m → (∀ r w', π (db w') = π (db w) → Φ r w') → wp m e w Φ.
Proof. intros Hk HΦ. eapply wp_mono; [apply Hk|]. auto. Qed.
Lemma wp_keeps_safe {A X} (π : Db → X) (m : M A) e w (Φ : res Error A → World → Prop) :
  keeps π m → safe m → (∀ a w', π (db w') = π (db w) → Φ (Ok a) w') → wp m e w Φ.
Proof.
  intros Hk Hs HΦ. specialize (Hk e w). specialize (Hs e w). unfold wp in *.
  destruct Hs as [a Ha]. rewrite Ha. by apply HΦ.
Qed.

(** Decide [keeps] and [safe] goals by the structure of the computation. *)
Ltac solve_keeps :=
  repeat first
    [ progress intros
    | lazymatch goal with
      | |- keeps _ (mbind _ _) => apply keeps_bind
      | |- keeps _ (for_each _ _) => apply keeps_for_each
      | |- keeps _ (mignore _) => apply keeps_mignore
      | |- keeps _ (exec _) => apply keeps_exec; done
      | |- keeps _ (send_mail _) => apply keeps_send_mail
      | |- keeps _ (ensure _ _) => apply keeps_ensure
      | |- keeps _ (some_or_err _ _) => apply keeps_some_or_err
      | |- keeps _ (mexpect _) => apply keeps_mexpect
      | |- keeps _ (if ?b then _ else _) => destruct b
      | |- keeps _ (match ?o with Some _ => _ | None => _ end) => destruct o
      | |- keeps _ (match ?p with (_, _) => _ end) => destruct p
      | |- safe (mbind _ _) => apply safe_bind
      | |- safe (for_each _ _) => apply safe_for_each
      | |- safe (mignore _) => apply safe_mignore
      | |- safe (if ?b then _ else _) => destruct b
      | |- safe (match ?o with Some _ => _ | None => _ end) => destruct o
      end
    | solve [eauto 2 with frame]
    | solve [intros ??; reflexivity]
    | solve [intros ??; eexists; reflexivity] ].
Create HintDb frame.

(** A computation that only reads. *)
Definition reads {A} (m : M A) : Prop := ∀ e w, ∃ r, m e w = (r, w).
Lemma reads_bind {A B} (m : M A) (k : A → M B) : reads m → (∀ a, reads (k a)) → reads (mbind m k).
Proof. intros Hm Hk e w. unfold mbind. destruct (Hm e w) as [[a|x|] ->]; eauto. apply Hk. Qed.
Lemma wp_reads {A} (m : M A) e w (Φ : res Error A → World → Prop) : reads m → (∀ r, Φ r w) → wp m e w Φ.
Proof. intros Hm HΦ. destruct (Hm e w) as [r Hr]. eapply wp_eq; [done|]. apply HΦ. Qed.
Lemma keeps_of_reads {A X} (π : Db → X) (m : M A) : reads m → keeps π m.
Proof. intros Hm e w. by apply wp_reads. Qed.
Lemma reads_ensure b msg : reads (ensure b msg).
Proof. intros e w. destruct b; by eexists. Qed.
Lemma reads_some_or_err {A} (o : option A) msg : reads (some_or_err o msg).
Proof. intros e w. destruct o; by eexists. Qed.
Lemma reads_mexpect {A} (o : option A) : reads (mexpect o).
Proof. intros e w. destruct o; by eexists. Qed.
Ltac solve_reads :=
  repeat first
    [ progress intros
    | lazymatch goal with
      | |- reads (mbind _ _) => apply reads_bind
      | |- reads (if ?b then _ else _) => destruct b
      | |- reads (match ?o with Some _ => _ | None => _ end) => destruct o
      end
    | solve [eauto 2 with frame]
    | solve [intros ??; eexists; reflexivity]
    | solve [apply reads_ensure | apply reads_some_or_err | apply reads_mexpect] ].
(** Run a step that only reads; its failures leave everything as it is. *)
Ltac wp_read := wp_step; apply wp_reads; [auto with frame|]; intros [?|?|]; [|done..]; wp_step.

(** [within R m]: the worlds before and after [m] are related by [R], whatever
    its result.  [R] is a preorder that new identifiers and mails respect. *)
Class WorldRel (R : relation World) := {
  world_rel_pre :: PreOrder R;
  world_rel_tick w : R w (w <| tick := S (tick w) |>);
  world_rel_mail w l : R w (w <| outbox := l |>);
}.
Definition within (R : relation World) {A} (m : M A) : Prop := ∀ e w, wp m e w (λ _ w', R w w').

Section within.
Context {R : relation World} `{!WorldRel R}.

Lemma within_bind {A B} (m : M A) (k : A → M B) : within R m → (∀ a, within R (k a)) → within R (mbind m k).
Proof.
  intros Hm Hk e w. apply wp_bind. eapply wp_mono; [apply Hm|]. intros [a|x|] w1 Hw; simpl; try done.
  eapply wp_mono; [apply Hk|]. intros r w2 Hw2. by etrans.
Qed.
Lemma within_reads {A} (m : M A) : reads m → within R m.
Proof. intros Hm e w. by apply wp_reads. Qed.
Lemma within_mret {A} (a : A) : within R (mret a).
Proof. intros e w. by apply wp_mret. Qed.
Lemma within_for_each {A} (l : list A) f : (∀ x, within R (f x)) → within R (for_each l f).
Proof. intros Hf. induction l; simpl; [apply within_mret|]. by apply within_bind. Qed.
Lemma within_mignore m : within R m → within R (mignore m).
Proof. intros Hm e w. apply wp_mignore. eapply wp_mono; [apply Hm|]. by intros []. Qed.
Lemma within_next {A} (f : Env → nat → A) : within R (next f).
Proof. intros e w. apply wp_next, world_rel_tick. Qed.
Lemma within_send_mail m : within R (send_mail m).
Proof. intros e w. apply wp_send_mail; [apply world_rel_mail|done]. Qed.
Lemma within_exec f : (∀ w, R w (w <| db := f (db w) |>)) → within R (exec f).
Proof. intros Hf e w. by apply wp_exec. Qed.
Lemma wp_within {A} (m : M A) e w (Φ : res Error A → World → Prop) :
  within R m → (∀ r w', R w w' → Φ r w') → wp m e w Φ.
Proof. intros Hm HΦ. eapply wp_mono; [apply Hm|]. auto. Qed.
Lemma wp_within_safe {A} (m : M A) e w (Φ : res Error A → World → Prop) :
  within R m → safe m → (∀ a w', R w w' → Φ (Ok a) w') → wp m e w Φ.
Proof.
  intros Hm Hs HΦ. specialize (Hm e w). specialize (Hs e w). unfold wp in *.
  destruct Hs as [a Ha]. rewrite Ha. by apply HΦ.
Qed.
End within.

(** Decide [within] goals by the structure of the computation; lemmas come from
    the hint database [within]. *)
Create HintDb within.
Ltac solve_within :=
  repeat first
    [ progress intros
    | lazymatch goal with
      | |- within _ (mbind _ _) => apply within_bind
      | |- within _ (for_each _ _) => apply within_for_each
      | |- within _ (mignore _) => apply within_mignore
      | |- within _ (next _) => apply within_next
      | |- within _ get_uuid => apply within_next
      | |- within _ (send_mail _) => apply within_send_mail
      | |- within _ (mret _) => apply within_mret
      | |- within _ (if ?b then _ else _) => destruct b
      | |- within _ (match ?o with Some _ => _ | None => _ end) => destruct o
      | |- within _ (match ?p with (_, _) => _ end) => destruct p
      end
    | solve [eauto 2 with within]
    | solve [apply within_reads; solve_reads] ].

(** ** Runs that succeed

    A run of a sequence that ends well is a chain of runs that do; [ok_inv]
    takes such a run apart, one primitive at a time. *)

Lemma mbind_Ok {A B} (m : M A) (k : A → M B) e w b w2 :
  mbind m k e w = (Ok b, w2) → ∃ a w1, m e w = (Ok a, w1) ∧ k a e w1 = (Ok b, w2).
Proof. unfold mbind. destruct (m e w) as [[a|x|] w1]; naive_solver. Qed.
Lemma mret_Ok {A} (a b : A) e w w' : mret a e w = (Ok b, w') → b = a ∧ w' = w.
Proof. by intros [= <- <-]. Qed.
Lemma mdrop_Ok {A} (m : M A) e w u w' : mdrop m e w = (Ok u, w') → ∃ a, m e w = (Ok a, w').
Proof. intros (a & w1 & Hm & [_ ->]%mret_Ok)%mbind_Ok. eauto. Qed.
Lemma err_Ok {A} msg e w (a : A) w' : err msg e w = (Ok a, w') → False.
Proof. done. Qed.
Lemma ensure_Ok b msg e w u w' : ensure b msg e w = (Ok u, w') → b = true ∧ w' = w.
Proof. destruct b; [by intros [= <- <-]|done]. Qed.
Lemma some_or_err_Ok {A} (o : option A) msg e w a w' : some_or_err o msg e w = (Ok a, w') → o = Some a ∧ w' = w.
Proof. destruct o; [by intros [= <- <-]|done]. Qed.
Lemma mexpect_Ok {A} (o : option A) e w a w' : mexpect o e w = (Ok a, w') → o = Some a ∧ w' = w.
Proof. destruct o; [by intros [= <- <-]|done]. Qed.
Lemma ask_Ok {A} (f : Env → A) e w a w' : ask f e w = (Ok a, w') → a = f e ∧ w' = w.
Proof. by intros [= <- <-]. Qed.
Lemma conf_Ok {A} (f : Config → A) e w a w' : conf f e w = (Ok a, w') → a = f (cfg e) ∧ w' = w.
Proof. by intros [= <- <-]. Qed.
Lemma query_Ok {A} (f : Db → A) e w a w' : query f e w = (Ok a, w') → a = f (db w) ∧ w' = w.
Proof. by intros [= <- <-]. Qed.
Lemma exec_Ok f e w u w' : exec f e w = (Ok u, w') → w' = w <| db := f (db w) |>.
Proof. by intros [= <- <-]. Qed.
Lemma next_Ok {A} (f : Env → nat → A) e w a w' : next f e w = (Ok a, w') → a = f e (tick w) ∧ w' = w <| tick := S (tick w) |>.
Proof. by intros [= <- <-]. Qed.
Lemma reads_Ok {A} (m : M A) e w x w' : reads m → m e w = (Ok x, w') → w' = w.
Proof. intros Hm Hrun. destruct (Hm e w) as [r Hr]. congruence. Qed.

Ltac ok_prim H :=
  lazymatch type of H with
  | mret _ _ _ = _ => apply mret_Ok in H as [-> ->]
  | ensure _ _ _ _ = _ => apply ensure_Ok in H as [H ->]
  | some_or_err _ _ _ _ = _ => apply some_or_err_Ok in H as [H ->]
  | mexpect _ _ _ = _ => apply mexpect_Ok in H as [H ->]
  | ask _ _ _ = _ => apply ask_Ok in H as [-> ->]
  | conf _ _ _ = _ => apply conf_Ok in H as [-> ->]
  | query _ _ _ = _ => apply query_Ok in H as [-> ->]
  | exec _ _ _ = _ => apply exec_Ok in H as ->
  | next _ _ _ = _ => apply next_Ok in H as [-> ->]
  | get_uuid _ _ = _ => apply next_Ok in H as [-> ->]
  | err _ _ _ = _ => destruct (err_Ok _ _ _ _ _ H)
  end.
Ltac ok_step H :=
  lazymatch type of H with
  | mbind _ _ _ _ = (Ok _, _) =>
     let a := fresh "a" in let w := fresh "w" in let Hrun := fresh "Hrun" in
     apply mbind_Ok in H as (a & w & Hrun & H); cbv beta in H; try ok_prim Hrun
  | mdrop _ _ _ = (Ok _, _) => let a := fresh "a" in apply mdrop_Ok in H as [a H]
  | _ => ok_prim H
  end.
Ltac ok_inv H := repeat ok_step H.

(** ** JSON text of a struct ([serde_json::to_string], [from_str])

    [norm] is what a value becomes through the text: the identity, except for
    fields stored with less precision. *)
Class Serde (A : Type) (norm : A → A) := {
  to_json_string : A → string;
  from_json_str : string → option A;
  serde_roundtrip : ∀ a, from_json_str (to_json_string a) = Some (norm a);
}.
Arguments to_json_string {A norm _} a.
Arguments from_json_str {A norm _} s.

(** ** A concrete surrounding, for examples and witnesses *)

Module ToyEnv.

Fixpoint pos_to_str (p : positive) : string :=
  match p with
  | xH => EmptyString
  | xO p => String "0"%char (pos_to_str p)
  | xI p => String "1"%char (pos_to_str p)
  end.
Fixpoint str_to_pos (s : string) : positive :=
  match s with
  | EmptyString => xH
  | String "0"%char s => xO (str_to_pos s)
  | String _ s => xI (str_to_pos s)
  end.

Lemma str_to_pos_to_str p : str_to_pos (pos_to_str p) = p.
Proof. induction p; simpl; congruence. Qed.


(** Any countable struct has a text. *)
Definition toy_serde {A} `{Countable A} (norm : A → A) : Serde A norm.
Proof.
  refine {| to_json_string a := pos_to_str (encode (norm a));
            from_json_str s := decode (str_to_pos s) |}.
  intros a. rewrite str_to_pos_to_str. apply decode_encode.
Defined.

Definition toy_config : Config := {|
  mail_enabled := true;
  emergency_access_allowed := true;
  invitations_allowed := true;
  signups_domains_whitelist := "";
  signups_allowed := true;
  enable_email_2fa := true;
  email_token_size := 6;
  email_attempts_limit := 3;
  email_expiration_time := 600;
  authenticator_disable_time_drift := false;
  org_events_enabled := true;
  email_2fa_auto_fallback := false;
  incomplete_2fa_time_limit := 3;
  enable_duo := false;
  duo_host := None;
  duo_ikey := None;
  duo_skey := None;
  enable_yubico := false;
  yubico_client_id := None;
  yubico_secret_key := None;
  is_webauthn_2fa_supported := false;
  disable_2fa_remember := false;
  password_iterations := 1000;
  sends_allowed := true;
  user_send_limit := None;
  signups_verify := false;
  signups_verify_resend_time := 3600;
  signups_verify_resend_limit := 6;
  require_device_email := false;
  duo_use_iframe := false;
  push_enabled := false;
  sso_enabled := false;
  sso_only := false;
  sso_master_password_policy := None;
  sso_auth_only_not_session := false;
  sso_authority := "authority";
  org_groups_enabled := true;
  max_note_size := 10000;
  trash_auto_delete_days := Some 30%Z;
  user_attachment_limit := None;
  org_attachment_limit := None;
  org_creation_users := "all";
  enforce_single_org_with_reset_pw_policy := false;
  invitation_org_name := "Vaultwarden";
  domain := "https://vault.example";
  domain_origin := "https://vault.example";
  password_hints_allowed := true;
  show_password_hint := false;
  email_change_allowed := true;
  email_2fa_enforce_on_verified_invite := false;
  admin_token := Some "secret";
  disable_admin_token := false; yubico_server := None;
  sso_signups_match_email := true; sso_allow_unknown_email_verification := false; sso_client_id := "vault";
  sso_client_secret := "secret"; sso_scopes := "email profile"; sso_authorize_extra_params := ""; sso_pkce := true;
  sso_audience_trusted := None; sso_callback_path := "https://vault/identity/connect/oidc-signin";
  sso_client_cache_expiration := 0; domain_path := "";
|}.

Definition toy_env (t : Z) : Env := {|
  cfg := toy_config;
  now := t;
  uuid_at := λ i, "id" +:+ pretty i;
  random_index := λ i n, i mod n;
  random_bytes_at := λ i n, replicate n (Z.of_nat i mod 256)%Z;
  encode_base32 := λ b, pos_to_str (encode b);
  encode_base64url := λ b, pos_to_str (encode b);
  decode_base32 := λ s, Some (chars s);
  str_to_lowercase := λ s, s;
  str_to_uppercase := λ s, s;
  str_is_numeric := λ _, true;
  is_valid_email := λ _, true;
  pbkdf2_derive := λ s salt _, take 32 (s ++ salt ++ replicate 32 0%Z);
  pbkdf2_verify := λ s salt h _, bool_decide (h = take 32 (s ++ salt ++ replicate 32 0%Z));
  format_utc := λ t, pretty t;
  totp_custom := λ _ t, pretty (t / 30)%Z;
  mail_delivers := λ _, true;
  parse_json := λ s, decode (str_to_pos s);
  login_allowed := λ _, true;
  decode_base64url := λ s, decode (str_to_pos s);
  encode_hexlower := λ b, pos_to_str (encode b);
  uuid_parse_str := λ s, Some (take 16 (chars s ++ replicate 16 0%Z));
  uuid_to_string := λ b, string_of_chars (filter (λ c, c ≠ 0%Z) b);
  json_text := λ j, pos_to_str (encode j);
  format_date := λ t, pretty t;
  get_display_size := λ n, pretty n;
  storage_configured := true;
  storage_available := true;
  parse_iso8601 := λ s, decode (str_to_pos s);
  reformat_rfc3339 := λ s, Some s;
  save_replaces_row := λ _ _, false;
  enforces_references := true;
|}.

Lemma toy_env_ok t : Env_ok (toy_env t).
Proof.
  split; cbn -[pretty replicate].
  - intros i j Hij. apply (inj (String.append "id")) in Hij. by apply (inj pretty) in Hij.
  - intros i n Hn. apply Nat.mod_upper_bound. lia.
  - intros i n. apply length_replicate.
  - intros s salt n. change (length (take 32 (s ++ salt ++ replicate 32 0%Z)) = 32).
    rewrite length_take, !length_app, length_replicate. lia.
  - done.
Qed.

Definition empty_db : Db := {|
  users := ∅; invitations := ∅; devices := ∅; twofactor := ∅; twofactor_incomplete := ∅;
  emergency_access := ∅; organizations := ∅; users_organizations := ∅; org_policies := ∅;
  collections := ∅; users_collections := ∅; groups_users := ∅; events := ∅; sends := ∅;
  auth_requests := ∅; organization_api_key := ∅; ciphers := ∅; ciphers_collections := ∅; groups := ∅;
  collections_groups := ∅; folders := ∅; folders_ciphers := ∅; favorites := ∅; archives := ∅; attachments := ∅;
  twofactor_duo_ctx := ∅; sso_auth := ∅; sso_users := ∅;
|}.

End ToyEnv.
