(* ===== verification/JsonUtil.v ===== *)
(** * JSON documents as the handlers edit them

    Keys in lower camel case ([LowerCase] and the functions around it in
    [server/src/util.rs]), [serde_json]'s indexing of values, and uploaded
    files. *)

From Stdlib Require Import Ascii.
From stdpp Require Import base strings numbers pretty gmap list.
From S2P Require Import Prelude Store.

(** ** util.rs: keys in lower camel case *)

(** The bytes of the first character of a UTF-8 text. *)
Definition first_char_len (s : string) : nat :=
  match s with
  | EmptyString => 0
  | String c _ => let n := nat_of_ascii c in
     if Nat.ltb n 128 then 1 else if Nat.ltb n 224 then 2 else if Nat.ltb n 240 then 3 else 4
  end.
Definition lcase_first (e : Env) (s : string) : string :=
  let n := first_char_len s in
  str_to_lowercase e (String.substring 0 n s) +:+ String.substring n (String.length s - n) s.
Definition process_json_key (e : Env) (key : string) : string :=
  if bool_decide (str_to_lowercase e key = "ssn") then "ssn" else lcase_first e key.
Fixpoint convert_json_key_lcase_first (e : Env) (j : Json) : Json :=
  match j with
  | JArr l => JArr (convert_json_key_lcase_first e <$> l)
  | JObj fields =>
     JObj (foldl (λ m '(k, v), json_insert (process_json_key e k) v m) []
             ((λ '(k, v), (k, convert_json_key_lcase_first e v)) <$> fields))
  | j => j
  end.
(** [serde_json::from_str::<LowerCase<Value>>(data).map(|d| d.data).unwrap_or_default()]:
    only an object is accepted. *)
Definition lowercase_data (e : Env) (data : string) : Json :=
  match parse_json e data with
  | Some (JObj fields) => convert_json_key_lcase_first e (JObj fields)
  | _ => JNull
  end.
(** [serde_json::from_str::<Vec<LowerCase<Value>>>]: an array of objects. *)
Definition is_object (j : Json) : bool := match j with JObj _ => true | _ => false end.
Definition lowercase_list (e : Env) (data : string) : option (list Json) :=
  match parse_json e data with
  | Some (JArr l) => if forallb is_object l then Some (convert_json_key_lcase_first e <$> l) else None
  | _ => None
  end.

(** ** serde_json: indexing by a key *)

(** [&v[k]]: null where there is no entry. *)
Definition json_index (k : string) (j : Json) : Json := default JNull (json_get k j).
(** [v[k] = x]: a null becomes an object; other values cannot be indexed, and
    the program panics. *)
Definition json_index_set (k : string) (x j : Json) : option Json :=
  match j with
  | JNull => Some (JObj [(k, x)])
  | JObj fields => Some (JObj (json_insert k x fields))
  | _ => None
  end.
(** [&mut v[k]]: an entry that was missing is now null. *)
Definition json_index_mut (k : string) (j : Json) : option Json :=
  match j with
  | JObj fields => Some (if bool_decide (is_Some (json_field k fields)) then j else JObj (json_insert k JNull fields))
  | _ => json_index_set k JNull j
  end.
Definition json_is_number (j : Json) : bool := match j with JNum _ => true | _ => false end.
Definition json_is_string (j : Json) : bool := match j with JStr _ => true | _ => false end.
Definition json_as_str (j : Json) : option string := match j with JStr s => Some s | _ => None end.

(** ** Uploads *)

(** A file received with a request. *)
Record TempFile := mkTempFile { raw_name : option string; content : bytes }.
Definition temp_len (f : TempFile) : Z := Z.of_nat (length (content f)).
