(* ===== verification/Queries.v ===== *)
(** * Joins and loops that collect

    The queries of [server/src/db/models/] that join tables, as comprehensions
    over lists of rows.  A left join pairs a row with each match, or with no row
    at all; a column of an absent row is NULL, and a comparison with NULL does
    not hold.  Also the loops that push a result per element. *)

From stdpp Require Import base strings numbers gmap list.
From S2P Require Import Prelude Store.

(** All rows of a table, in an arbitrary order. *)
Definition rows {K V} `{Countable K} (t : gmap K V) : list V := (map_to_list t).*2.

(** [.filter(p)] on joined rows *)
Definition where_ {A} (p : A → bool) (l : list A) : list A := filter (λ a, p a = true) l.
(** [.inner_join(r.on(on))] and [.left_join(r.on(on))], for one row on the left *)
Definition inner_join {A} (r : list A) (on : A → bool) : list A := where_ on r.
Definition left_join {A} (r : list A) (on : A → bool) : list (option A) :=
  match where_ on r with
  | [] => [None]
  | l => Some <$> l
  end.
(** [.filter(p)] inside a comprehension *)
Definition guard_rows {A} (p : bool) (l : list A) : list A := if p then l else [].

(** [a.eq(b)] on nullable columns *)
Definition null_eq {A} `{EqDecision A} (a b : option A) : bool :=
  match a, b with
  | Some a, Some b => bool_decide (a = b)
  | _, _ => false
  end.
(** A boolean column that may be NULL, used as [col.eq(true)] or [col.eq(false)]. *)
Definition is_true (o : option bool) : bool := null_eq o (Some true).
Definition is_false (o : option bool) : bool := null_eq o (Some false).
Definition is_not_null {A} (o : option A) : bool := match o with Some _ => true | None => false end.

(** ** What is in a join *)

Lemma elem_of_rows {K V} `{Countable K} (t : gmap K V) r : r ∈ rows t ↔ ∃ k, t !! k = Some r.
Proof.
  unfold rows. rewrite list_elem_of_fmap. split.
  - intros ([k v] & -> & Hin%elem_of_map_to_list). eauto.
  - intros [k Hk]. exists (k, r). by rewrite elem_of_map_to_list.
Qed.
Lemma elem_of_where {A} (p : A → bool) l (a : A) : a ∈ where_ p l ↔ a ∈ l ∧ p a = true.
Proof. unfold where_. rewrite list_elem_of_filter. tauto. Qed.
Lemma elem_of_inner_join {A} (r : list A) on a : a ∈ inner_join r on ↔ a ∈ r ∧ on a = true.
Proof. apply elem_of_where. Qed.
Lemma elem_of_left_join {A} (r : list A) on o :
  o ∈ left_join r on ↔
  match o with
  | Some a => a ∈ r ∧ on a = true
  | None => ∀ a, a ∈ r → on a = false
  end.
Proof.
  unfold left_join. destruct (where_ on r) as [|b l] eqn:E.
  - rewrite list_elem_of_singleton. destruct o as [a|].
    + split; [done|]. rewrite <- elem_of_where, E. intros []%not_elem_of_nil.
    + split; [|done]. intros _ a Ha. destruct (on a) eqn:Ho; [|done].
      assert (a ∈ where_ on r) as H by by apply elem_of_where. rewrite E in H. by apply not_elem_of_nil in H.
  - rewrite list_elem_of_fmap. destruct o as [a|].
    + rewrite <- elem_of_where, E. naive_solver.
    + split; [naive_solver|]. intros Hall.
      assert (b ∈ where_ on r) as [Hb Ho]%elem_of_where by (rewrite E; by left). by rewrite Hall in Ho.
Qed.
Lemma elem_of_guard_rows {A} p (l : list A) a : a ∈ guard_rows p l ↔ p = true ∧ a ∈ l.
Proof. destruct p; simpl; [naive_solver|]. rewrite elem_of_nil. naive_solver. Qed.
Lemma null_eq_true {A} `{EqDecision A} (a b : option A) : null_eq a b = true ↔ a = b ∧ is_Some a.
Proof.
  destruct a as [a|], b as [b|]; simpl; rewrite ?bool_decide_eq_true; unfold is_Some; naive_solver.
Qed.
Lemma null_eq_Some {A} `{EqDecision A} (a : option A) b : null_eq a (Some b) = true ↔ a = Some b.
Proof. rewrite null_eq_true. unfold is_Some. naive_solver. Qed.
Lemma null_eq_Some_l {A} `{EqDecision A} a (b : option A) : null_eq (Some a) b = true ↔ b = Some a.
Proof. rewrite null_eq_true. unfold is_Some. naive_solver. Qed.

(** There is always a row of a left join to go on with, and one that matches
    when a match exists. *)
Lemma left_join_nonempty {A} (r : list A) on : ∃ o, o ∈ left_join r on.
Proof.
  unfold left_join. destruct (where_ on r) as [|b l]; simpl; eexists; by left.
Qed.
Lemma left_join_match {A} (r : list A) on a : a ∈ r → on a = true → Some a ∈ left_join r on.
Proof. intros. by apply elem_of_left_join. Qed.

(** [existsb] over a comprehension *)
Lemma existsb_elem {A} (p : A → bool) l : existsb p l = true ↔ ∃ a, a ∈ l ∧ p a = true.
Proof.
  rewrite existsb_exists. split; intros (a & Ha & Hp); exists a; (split; [|done]); by apply list_elem_of_In.
Qed.

Create Rewrite HintDb sql.
#[export] Hint Rewrite @elem_of_rows @elem_of_where @elem_of_inner_join @elem_of_left_join @elem_of_guard_rows
  @null_eq_Some @null_eq_Some_l @elem_of_elements @list_elem_of_bind @list_elem_of_singleton
  @andb_true_iff @orb_true_iff @bool_decide_eq_true @list_elem_of_fmap : sql.

(** ** Loops that collect *)

(** [for x in l { v.push(f(x)?) }] *)
Fixpoint collect {A B} (l : list A) (f : A → M B) : M (list B) :=
  match l with
  | [] => mret []
  | x :: l => let* y := f x in let* ys := collect l f in mret (y :: ys)
  end.

Lemma keeps_collect {A B X} (π : Db → X) (l : list A) (f : A → M B) :
  (∀ x, keeps π (f x)) → keeps π (collect l f).
Proof. intros Hf. induction l; simpl; solve_keeps. Qed.
Lemma reads_collect {A B} (l : list A) (f : A → M B) : (∀ x, reads (f x)) → reads (collect l f).
Proof. intros Hf. induction l; simpl; solve_reads. Qed.
Lemma safe_collect {A B} (l : list A) (f : A → M B) : (∀ x, safe (f x)) → safe (collect l f).
Proof. intros Hf. induction l; simpl; solve_keeps. Qed.
#[export] Hint Resolve keeps_collect reads_collect safe_collect : frame.

Lemma collect_query {A B} (l : list A) (f : A → M B) e w (g : A → B) :
  (∀ x, x ∈ l → f x e w = (Ok (g x), w)) → collect l f e w = (Ok (g <$> l), w).
Proof.
  intros Hf. induction l as [|x l IH]; [done|]. simpl. unfold mbind.
  rewrite Hf by by left. rewrite IH; [done|]. intros y Hy. apply Hf. by right.
Qed.
