(* ===== verification/Users.v ===== *)
(** * Users, devices and invitations

    [server/src/crypto.rs] (password hashes and random strings),
    [server/src/db/models/user.rs] and [device.rs].  A method on [&mut self]
    returns the new value of [self].  The property shows what a password change
    leaves behind: the new password is the one that verifies, the security
    stamp is new, and every device of the user, and no other, holds a new
    refresh token of its own. *)

From Stdlib Require Import Ascii.
From stdpp Require Import base strings numbers pretty gmap list.
From S2P Require Import Prelude Store.

(** ** crypto.rs *)

(** [i32::cast_unsigned] *)
Definition cast_unsigned32 (n : Z) : Z := (n mod 2 ^ 32)%Z.

Definition hash_password (secret salt : bytes) (iterations : Z) : M bytes :=
  let* n := mexpect (if (iterations =? 0)%Z then None else Some iterations) in
  ask (λ e, pbkdf2_derive e secret salt n).

Definition verify_password_hash (secret salt previous : bytes) (iterations : Z) : M bool :=
  let* n := mexpect (if (iterations =? 0)%Z then None else Some iterations) in
  ask (λ e, pbkdf2_verify e secret salt previous n).

Definition get_random_bytes (n : nat) : M bytes := next (λ e i, random_bytes_at e i n).
Definition encode_random_bytes (n : nat) (encode : Env → bytes → string) : M string :=
  let* b := get_random_bytes n in ask (λ e, encode e b).

Fixpoint get_random_string (alphabet : list ascii) (num_chars : nat) : M string :=
  match num_chars with
  | O => mret EmptyString
  | S n =>
     let* i := next (λ e t, random_index e t (length alphabet)) in
     let* c := mexpect (alphabet !! i) in
     let* s := get_random_string alphabet n in
     mret (String c s)
  end.

Definition NUMERIC : list ascii := String.list_ascii_of_string "0123456789".
Definition ALPHANUM : list ascii :=
  String.list_ascii_of_string "ABCDEFGHIJKLMNOPQRSTUVWXYZabcdefghijklmnopqrstuvwxyz0123456789".

Definition get_random_string_numeric (num_chars : nat) : M string := get_random_string NUMERIC num_chars.
Definition get_random_string_alphanum (num_chars : nat) : M string := get_random_string ALPHANUM num_chars.
(** [token_size] is a [u8]. *)
Definition generate_email_token (token_size : Z) : M string :=
  get_random_string_numeric (Z.to_nat token_size).
Definition generate_api_key : M string := get_random_string_alphanum 30.
Definition ct_eq (a b : string) : bool := bool_decide (a = b).

(** ** User: local methods *)

Definition CLIENT_KDF_TYPE_DEFAULT : Z := 0.
Definition CLIENT_KDF_ITER_DEFAULT : Z := 600000.

Record UserStampException := mkUserStampException {
  se_routes : list string;
  se_security_stamp : string;
  se_expire : Z;
}.

Definition User_new (email : string) (name : option string) : M User :=
  let* t := ask now in
  let* email := ask (λ e, str_to_lowercase e email) in
  let* uuid := get_uuid in
  let* salt := get_random_bytes 64 in
  let* iter := conf password_iterations in
  let* stamp := get_uuid in
  mret {|
    u_uuid := uuid; u_enabled := true; u_created_at := t; u_updated_at := t;
    u_verified_at := None; u_last_verifying_at := None; u_login_verify_count := 0;
    u_email := email; u_email_new := None; u_email_new_token := None;
    u_name := default email name;
    u_password_hash := []; u_salt := salt; u_password_iterations := iter; u_password_hint := None;
    u_akey := ""; u_private_key := None; u_public_key := None;
    u_totp_secret := None; u_totp_recover := None;
    u_security_stamp := stamp; u_stamp_exception := None;
    u_equivalent_domains := "[]"; u_excluded_globals := "[]";
    u_client_kdf_type := CLIENT_KDF_TYPE_DEFAULT; u_client_kdf_iter := CLIENT_KDF_ITER_DEFAULT;
    u_client_kdf_memory := None; u_client_kdf_parallelism := None;
    u_api_key := None; u_avatar_color := None; u_external_id := None;
  |}.

(** [str::as_bytes] of a request string *)
Definition string_bytes (s : string) : bytes := chars s.

Definition User_check_valid_password (self : User) (password : string) : M bool :=
  verify_password_hash (string_bytes password) (u_salt self) (u_password_hash self)
    (cast_unsigned32 (u_password_iterations self)).

Definition User_check_valid_recovery_code (self : User) (recovery_code : string) : M bool :=
  match u_totp_recover self with
  | Some totp_recover => ask (λ e, ct_eq recovery_code (str_to_lowercase e totp_recover))
  | None => mret false
  end.

Definition User_check_valid_api_key (self : User) (key : string) : bool :=
  match u_api_key self with
  | Some api_key => ct_eq api_key key
  | None => false
  end.

Definition User_reset_stamp_exception (self : User) : User := self <| u_stamp_exception := None |>.

Definition User_display_name (self : User) : string :=
  if bool_decide (u_name self = "") then u_email self else u_name self.

(** ** Device *)

Definition generate_refresh_token : M string := encode_random_bytes 64 encode_base64url.

Definition Device_new (uuid user_uuid name : string) (atype : Z) : M Device :=
  let* t := ask now in
  let* push := get_uuid in
  let* token := generate_refresh_token in
  mret {|
    d_uuid := uuid; d_created_at := t; d_updated_at := t; d_user_uuid := user_uuid; d_name := name;
    d_atype := atype; d_push_uuid := Some push; d_push_token := None; d_refresh_token := token;
    d_twofactor_remember := None;
  |}.

Definition Device_delete_twofactor_remember (self : Device) : Device :=
  self <| d_twofactor_remember := None |>.

(** "This rely on the fact we only update the device after a successful login" *)
Definition Device_is_new (self : Device) : bool := (d_created_at self =? d_updated_at self)%Z.

Inductive DeviceType :=
  | Android | Ios | ChromeExtension | FirefoxExtension | OperaExtension | EdgeExtension
  | WindowsDesktop | MacOsDesktop | LinuxDesktop | ChromeBrowser | FirefoxBrowser | OperaBrowser
  | EdgeBrowser | IEBrowser | UnknownBrowser | AndroidAmazon | Uwp | SafariBrowser
  | VivaldiBrowser | VivaldiExtension | SafariExtension | Sdk | Server | WindowsCLI | MacOsCLI
  | LinuxCLI | DuckDuckGoBrowser.

Definition DeviceType_from_i32 (value : Z) : DeviceType :=
  match value with
  | 0 => Android | 1 => Ios | 2 => ChromeExtension | 3 => FirefoxExtension | 4 => OperaExtension
  | 5 => EdgeExtension | 6 => WindowsDesktop | 7 => MacOsDesktop | 8 => LinuxDesktop
  | 9 => ChromeBrowser | 10 => FirefoxBrowser | 11 => OperaBrowser | 12 => EdgeBrowser
  | 13 => IEBrowser | 14 => UnknownBrowser | 15 => AndroidAmazon | 16 => Uwp
  | 17 => SafariBrowser | 18 => VivaldiBrowser | 19 => VivaldiExtension | 20 => SafariExtension
  | 21 => Sdk | 22 => Server | 23 => WindowsCLI | 24 => MacOsCLI | 25 => LinuxCLI
  | 26 => DuckDuckGoBrowser
  | _ => UnknownBrowser
  end%Z.

(** The name shown to the user ([#[display(..)]]). *)
Definition DeviceType_display (t : DeviceType) : string :=
  match t with
  | Android => "Android" | Ios => "iOS" | ChromeExtension => "Chrome Extension"
  | FirefoxExtension => "Firefox Extension" | OperaExtension => "Opera Extension"
  | EdgeExtension => "Edge Extension" | WindowsDesktop => "Windows" | MacOsDesktop => "macOS"
  | LinuxDesktop => "Linux" | ChromeBrowser => "Chrome" | FirefoxBrowser => "Firefox"
  | OperaBrowser => "Opera" | EdgeBrowser => "Edge" | IEBrowser => "Internet Explorer"
  | UnknownBrowser => "Unknown Browser" | AndroidAmazon => "Android" | Uwp => "UWP"
  | SafariBrowser => "Safari" | VivaldiBrowser => "Vivaldi"
  | VivaldiExtension => "Vivaldi Extension" | SafariExtension => "Safari Extension"
  | Sdk => "SDK" | Server => "Server" | WindowsCLI => "Windows CLI" | MacOsCLI => "macOS CLI"
  | LinuxCLI => "Linux CLI" | DuckDuckGoBrowser => "DuckDuckGo"
  end.
#[export] Instance DeviceType_eq_dec : EqDecision DeviceType.
Proof. solve_decision. Defined.

Definition Device_is_push_device (self : Device) : bool :=
  bool_decide (DeviceType_from_i32 (d_atype self) ∈ [Android; Ios]).
Definition Device_is_cli (self : Device) : bool :=
  bool_decide (DeviceType_from_i32 (d_atype self) ∈ [WindowsCLI; MacOsCLI; LinuxCLI]).
Definition Device_is_mobile (self : Device) : bool :=
  bool_decide (DeviceType_from_i32 (d_atype self) ∈ [Android; Ios]).

(** The upsert statements of the three backends agree: the row replaces the
    one with its primary key. *)
Definition Device_key (self : Device) : string * string := (d_uuid self, d_user_uuid self).
Definition Device_save (self : Device) (update_time : bool) : M Device :=
  let* t := ask now in
  let self := if update_time then self <| d_updated_at := t |> else self in
  do* exec (λ d, d <| devices := <[Device_key self := self]> (devices d) |>) in
  mret self.

Definition Device_delete_all_by_user (user_uuid : string) : M unit :=
  exec (λ d, d <| devices := delete_where (λ r, bool_decide (d_user_uuid r = user_uuid)) (devices d) |>).

Definition Device_find_by_uuid_and_user (uuid user_uuid : string) : M (option Device) :=
  query (λ d, devices d !! (uuid, user_uuid)).
Definition Device_find_by_user (user_uuid : string) : M (list Device) :=
  query (λ d, load (λ r, bool_decide (d_user_uuid r = user_uuid)) (devices d)).
Definition Device_find_by_uuid (uuid : string) : M (option Device) :=
  query (λ d, first (λ r, bool_decide (d_uuid r = uuid)) (devices d)).
Definition Device_find_by_refresh_token (token : string) : M (option Device) :=
  query (λ d, first (λ r, bool_decide (d_refresh_token r = token)) (devices d)).
Definition Device_clear_push_token_by_uuid (uuid : string) : M unit :=
  exec (λ d, d <| devices :=
    (λ r, if bool_decide (d_uuid r = uuid) then r <| d_push_token := None |> else r) <$> devices d |>).
Definition Device_find_push_devices_by_user (user_uuid : string) : M (list Device) :=
  query (λ d, load (λ r, bool_decide (d_user_uuid r = user_uuid) && bool_decide (is_Some (d_push_token r)))
    (devices d)).
Definition Device_check_user_has_push_device (user_uuid : string) : M bool :=
  let* l := Device_find_push_devices_by_user user_uuid in mret (bool_decide (l ≠ [])).

(** Each device needs a token of its own. *)
Definition rotate_device (device : Device) : M unit :=
  let* token := generate_refresh_token in
  let* _ := Device_save (device <| d_refresh_token := token |>) false in
  mret tt.
Definition Device_rotate_refresh_tokens_by_user (user_uuid : string) : M unit :=
  let* devices := Device_find_by_user user_uuid in
  for_each devices rotate_device.

(** ** User: methods that reach the database *)

Section user.
Context `{!Serde UserStampException id}.

(** The exception admits the listed routes with the current stamp for two
    minutes. *)
Definition User_set_stamp_exception (self : User) (route_exception : list string) : M User :=
  let* t := ask now in
  let ex := mkUserStampException route_exception (u_security_stamp self) (timestamp (t + minutes 2)) in
  mret (self <| u_stamp_exception := Some (to_json_string ex) |>).

Definition User_reset_security_stamp (self : User) : M User :=
  let* stamp := get_uuid in
  let self := self <| u_security_stamp := stamp |> in
  do* Device_rotate_refresh_tokens_by_user (u_uuid self) in
  mret self.

Definition User_set_password (self : User) (password : string) (new_key : option string)
    (reset_security_stamp : bool) (allow_next_route : option (list string)) : M User :=
  let* h := hash_password (string_bytes password) (u_salt self)
              (cast_unsigned32 (u_password_iterations self)) in
  let self := self <| u_password_hash := h |> in
  let* self := match allow_next_route with
               | Some route => User_set_stamp_exception self route
               | None => mret self
               end in
  let self := match new_key with
              | Some k => self <| u_akey := k |>
              | None => self
              end in
  if reset_security_stamp then User_reset_security_stamp self else mret self.
End user.

Definition User_save (self : User) : M User :=
  let* valid := ask (λ e, is_valid_email e (u_email self)) in
  do* ensure valid ("User email " +:+ u_email self +:+ " is not a valid email address") in
  let* t := ask now in
  let self := self <| u_updated_at := t |> in
  do* exec (λ d, d <| users := <[u_uuid self := self]> (users d) |>) in
  mret self.

Definition User_update_revision_impl (uuid : string) (date : Z) : M unit :=
  exec (λ d, d <| users := alter (λ u, u <| u_updated_at := date |>) uuid (users d) |>).
(** An error is only logged. *)
Definition User_update_uuid_revision (uuid : string) : M unit :=
  let* t := ask now in mignore (User_update_revision_impl uuid t).
Definition User_update_revision (self : User) : M User :=
  let* t := ask now in
  let self := self <| u_updated_at := t |> in
  do* User_update_revision_impl (u_uuid self) t in
  mret self.
Definition User_update_all_revisions : M unit :=
  let* t := ask now in
  exec (λ d, d <| users := (λ u, u <| u_updated_at := t |>) <$> users d |>).

Definition User_find_by_mail (mail : string) : M (option User) :=
  let* lower_mail := ask (λ e, str_to_lowercase e mail) in
  query (λ d, first (λ u, bool_decide (u_email u = lower_mail)) (users d)).
Definition User_find_by_uuid (uuid : string) : M (option User) := query (λ d, users d !! uuid).

(** A revision update touches nothing but [users], and cannot fail. *)
Lemma keeps_update_uuid_revision {X} (π : Db → X) uuid :
  (∀ d us, π (d <| users := us |>) = π d) → keeps π (User_update_uuid_revision uuid).
Proof. intros Hπ. unfold User_update_uuid_revision, User_update_revision_impl. solve_keeps. Qed.
Lemma safe_update_uuid_revision uuid : safe (User_update_uuid_revision uuid).
Proof. unfold User_update_uuid_revision, User_update_revision_impl. solve_keeps. Qed.
#[export] Hint Resolve safe_update_uuid_revision : frame.
#[export] Hint Extern 1 (keeps _ (User_update_uuid_revision _)) =>
  apply keeps_update_uuid_revision; done : frame.

(** ** Invitation *)

Definition Invitation_new (email : string) : M string := ask (λ e, str_to_lowercase e email).
Definition Invitation_save (email : string) : M unit :=
  let* valid := ask (λ e, is_valid_email e email) in
  do* ensure valid ("Invitation email " +:+ email +:+ " is not a valid email address") in
  exec (λ d, d <| invitations := {[email]} ∪ invitations d |>).
Definition Invitation_delete (email : string) : M unit :=
  exec (λ d, d <| invitations := invitations d ∖ {[email]} |>).
Definition Invitation_find_by_mail (mail : string) : M (option string) :=
  let* lower_mail := ask (λ e, str_to_lowercase e mail) in
  query (λ d, if bool_decide (lower_mail ∈ invitations d) then Some lower_mail else None).
Definition Invitation_take (mail : string) : M bool :=
  let* inv := Invitation_find_by_mail mail in
  match inv with
  | Some invitation => do* Invitation_delete invitation in mret true
  | None => mret false
  end.

(** ** The refresh tokens after a rotation *)

(** Each row of the devices table is stored under its own key. *)
Definition devices_keyed (d : Db) : Prop := ∀ k r, devices d !! k = Some r → Device_key r = k.

(** The token drawn at a position of the random stream. *)
Definition token_at (e : Env) (i : nat) : string := encode_base64url e (random_bytes_at e i 64).

Lemma rotate_device_eq d e w :
  rotate_device d e w
  = (Ok tt, mkWorld ((db w) <| devices := <[Device_key d := d <| d_refresh_token := token_at e (tick w) |>]> (devices (db w)) |>)
              (S (tick w)) (outbox w) (send_files w) (attachment_files w)).
Proof. done. Qed.

(** The loop writes the listed devices in order, each with the token of its
    turn, and changes nothing else. *)
Lemma rotate_devices_spec l : ∀ e w,
  NoDup (Device_key <$> l) →
  ∃ devs, for_each l rotate_device e w
          = (Ok tt, mkWorld ((db w) <| devices := devs |>) (tick w + length l) (outbox w) (send_files w) (attachment_files w)) ∧
    (∀ i d, l !! i = Some d → devs !! Device_key d = Some (d <| d_refresh_token := token_at e (tick w + i) |>)) ∧
    (∀ k, k ∉ Device_key <$> l → devs !! k = devices (db w) !! k).
Proof.
  induction l as [|d l IH]; intros e w Hnd.
  - exists (devices (db w)). simpl. rewrite Nat.add_0_r. by destruct w as [[] ??].
  - apply NoDup_cons in Hnd as [Hd Hnd]. simpl for_each. unfold mbind. rewrite rotate_device_eq.
    destruct (IH e (mkWorld ((db w) <| devices := <[Device_key d := d <| d_refresh_token := token_at e (tick w) |>]> (devices (db w)) |>)
              (S (tick w)) (outbox w) (send_files w) (attachment_files w)) Hnd) as (devs & Hrun & Hin & Hout).
    exists devs. rewrite Hrun. simpl. rewrite Nat.add_succ_r. split; [done|]. split.
    + intros [|i] d' Hi; simpl in Hi; simplify_eq.
      * rewrite Hout by done. simpl. by rewrite lookup_insert_eq, Nat.add_0_r.
      * rewrite (Hin i d' Hi). simpl. by rewrite Nat.add_succ_r.
    + intros k Hk. apply not_elem_of_cons in Hk as [Hk1 Hk2]. rewrite Hout by done. simpl.
      by rewrite lookup_insert_ne.
Qed.

(** ** Properties *)

Section set_password.
Context `{!Serde UserStampException id}.

Lemma check_valid_password_eq u pw e w :
  Env_ok e → length (u_password_hash u) = 32 → cast_unsigned32 (u_password_iterations u) ≠ 0%Z →
  User_check_valid_password u pw e w
  = (Ok (bool_decide (u_password_hash u = pbkdf2_derive e (string_bytes pw) (u_salt u)
          (cast_unsigned32 (u_password_iterations u)))), w).
Proof.
  intros He Hl Hn. unfold User_check_valid_password, verify_password_hash, mbind, ask.
  apply Z.eqb_neq in Hn. rewrite Hn. simpl. by rewrite (pbkdf2_verify_spec _ He).
Qed.

(** A password change that resets the security stamp, as a result and its
    effects: the devices of the user, in some order, get the tokens of their
    turn of the random stream. *)
Lemma User_set_password_run e w u pw key routes :
  Env_ok e → devices_keyed (db w) → cast_unsigned32 (u_password_iterations u) ≠ 0%Z →
  ∃ u' w' (order : list (string * string)),
    User_set_password u pw key true routes e w = (Ok u', w') ∧
    (∀ pw', User_check_valid_password u' pw' e w'
      = (Ok (bool_decide (pbkdf2_derive e (string_bytes pw) (u_salt u) (cast_unsigned32 (u_password_iterations u))
           = pbkdf2_derive e (string_bytes pw') (u_salt u) (cast_unsigned32 (u_password_iterations u)))), w')) ∧
    u_akey u' = default (u_akey u) key ∧
    u_security_stamp u' = uuid_at e (tick w) ∧ u_uuid u' = u_uuid u ∧ u_email u' = u_email u ∧
    (routes = None → u_stamp_exception u' = u_stamp_exception u) ∧
    (∀ r, routes = Some r → ∃ s, u_stamp_exception u' = Some s ∧
       from_json_str s = Some (mkUserStampException r (u_security_stamp u) (timestamp (now e + minutes 2)))) ∧
    users (db w') = users (db w) ∧
    NoDup order ∧
    (∀ k, k ∈ order ↔ ∃ d, devices (db w) !! k = Some d ∧ d_user_uuid d = u_uuid u) ∧
    (∀ i k d, order !! i = Some k → devices (db w) !! k = Some d →
       devices (db w') !! k = Some (d <| d_refresh_token := token_at e (S (tick w) + i) |>)) ∧
    (∀ k, k ∉ order → devices (db w') !! k = devices (db w) !! k).
Proof.
  intros He Hk Hn. set (l := load (λ r, bool_decide (d_user_uuid r = u_uuid u)) (devices (db w))).
  assert (NoDup (Device_key <$> l)) as Hnd by (by apply load_keys_NoDup).
  destruct (rotate_devices_spec l e (w <| tick := S (tick w) |>) Hnd) as (devs & Hrun & Hin & Hout).
  set (u1 := u <| u_password_hash := pbkdf2_derive e (string_bytes pw) (u_salt u) (cast_unsigned32 (u_password_iterations u)) |>).
  set (u2 := match routes with
             | Some r => u1 <| u_stamp_exception := Some (to_json_string (mkUserStampException r (u_security_stamp u) (timestamp (now e + minutes 2)))) |>
             | None => u1 end).
  set (u3 := match key with Some k => u2 <| u_akey := k |> | None => u2 end).
  exists (u3 <| u_security_stamp := uuid_at e (tick w) |>),
    (mkWorld ((db w) <| devices := devs |>) (S (tick w) + length l) (outbox w) (send_files w) (attachment_files w)), (Device_key <$> l).
  split.
  { unfold User_set_password, hash_password, mbind at 1 2. rewrite (proj2 (Z.eqb_neq _ _) Hn).
    unfold u3, u2, u1, l in *. clear u1 u2 u3 l.
    destruct routes, key; cbv [mbind mret ask mexpect User_set_stamp_exception User_reset_security_stamp get_uuid next
      Device_rotate_refresh_tokens_by_user Device_find_by_user query]; simpl; simpl in Hrun; by rewrite Hrun. }
  assert (u_password_iterations u3 = u_password_iterations u ∧ u_salt u3 = u_salt u ∧
    u_password_hash u3 = u_password_hash u1 ∧ u_akey u3 = default (u_akey u) key ∧
    u_stamp_exception u3 = u_stamp_exception u2 ∧ u_uuid u3 = u_uuid u ∧ u_email u3 = u_email u)
    as (E1 & E2 & E3 & E4 & E5 & E6 & E7)
    by (unfold u3, u2, u1; by destruct key, routes).
  split.
  { intros pw'. rewrite check_valid_password_eq; simpl; rewrite ?E1, ?E2, ?E3; try done.
    unfold u1; simpl. by apply pbkdf2_length. }
  split; [done|]. split; [done|]. split; [exact E6|]. split; [exact E7|]. split.
  { intros ->. exact E5. }
  split.
  { intros r ->. simpl. rewrite E5. eexists. split; [done|]. by rewrite serde_roundtrip. }
  split; [done|]. split; [done|]. split; [|split].
  - intros k. rewrite list_elem_of_fmap. split.
    + intros (d & -> & Hd). apply elem_of_load in Hd as [Hp%bool_decide_eq_true_1 [k Hd]].
      rewrite (Hk _ _ Hd). eauto.
    + intros (d & Hd & Hu). exists d. rewrite (Hk _ _ Hd). split; [done|]. apply elem_of_load.
      split; [by apply bool_decide_eq_true_2|eauto].
  - intros i k d Hi Hd. rewrite list_lookup_fmap in Hi. apply fmap_Some in Hi as (d' & Hi & ->).
    assert (d' = d) as ->.
    { assert (d' ∈ l) as Hin' by (by eapply list_elem_of_lookup_2). apply elem_of_load in Hin' as [_ [k' Hk']].
      pose proof (Hk _ _ Hk') as Ek. rewrite Ek, Hk' in Hd. congruence. }
    exact (Hin i d Hi).
  - exact Hout.
Qed.
(** The account after a change of the password that resets the stamp; the
    devices apart, nothing else changes. *)
Definition with_password (e : Env) (i : nat) (u : User) (pw : string) (key : option string) : User :=
  let u := u <| u_password_hash := pbkdf2_derive e (string_bytes pw) (u_salt u) (cast_unsigned32 (u_password_iterations u)) |> in
  let u := match key with Some k => u <| u_akey := k |> | None => u end in
  u <| u_security_stamp := uuid_at e i |>.
Lemma keeps_rotate_tokens {X} (π : Db → X) u :
  (∀ d ds, π (d <| devices := ds |>) = π d) → keeps π (Device_rotate_refresh_tokens_by_user u).
Proof.
  intros Hπ. unfold Device_rotate_refresh_tokens_by_user, Device_find_by_user, rotate_device, generate_refresh_token,
    encode_random_bytes, get_random_bytes, Device_save. solve_keeps.
Qed.
Lemma set_password_Ok e w u pw key u' w' :
  User_set_password u pw key true None e w = (Ok u', w') →
  u' = with_password e (tick w) u pw key ∧
  (∀ X (π : Db → X), (∀ d ds, π (d <| devices := ds |>) = π d) → π (db w') = π (db w)).
Proof.
  unfold User_set_password, hash_password, User_reset_security_stamp, with_password. intros H. ok_step H.
  destruct (_ =? 0)%Z; [done|]. ok_inv Hrun. injection Hrun0 as <-. ok_inv H. split; [done|].
  intros X π Hπ. rewrite (wp_run _ _ _ _ (keeps_rotate_tokens π _ Hπ e _) _ _ Hrun). done.
Qed.
End set_password.

(** ** SsoUser: the identity at the provider that an account is linked to *)

(** [REPLACE INTO], on SQLite and MySQL, removes the rows with the same user or
    identifier; PostgreSQL refuses the row.  The user exists: it was found or
    saved by the same request. *)
Definition SsoUser_save (replaces : bool) (self : SsoUser) : M unit :=
  let same := λ r, bool_decide (su_user_uuid r = su_user_uuid self) || bool_decide (su_identifier r = su_identifier self) in
  let* taken := query (λ d, first same (sso_users d)) in
  if bool_decide (is_Some taken) && negb replaces then err "Error saving SSO user"
  else exec (λ d, d <| sso_users := <[su_user_uuid self := self]> (delete_where same (sso_users d)) |>).
Definition SsoUser_find_by_identifier (identifier : string) : M (option (User * SsoUser)) :=
  query (λ d, r ← first (λ r, bool_decide (su_identifier r = identifier) && bool_decide (is_Some (users d !! su_user_uuid r)))
                    (sso_users d);
              u ← users d !! su_user_uuid r; Some (u, r)).
Definition SsoUser_find_by_mail (mail : string) : M (option (User * option SsoUser)) :=
  let* lower_mail := ask (λ e, str_to_lowercase e mail) in
  query (λ d, u ← first (λ u, bool_decide (u_email u = lower_mail)) (users d); Some (u, sso_users d !! u_uuid u)).
Definition SsoUser_delete (user_uuid : string) : M unit :=
  exec (λ d, d <| sso_users := delete user_uuid (sso_users d) |>).

(** ** Example data *)

#[export] Instance UserStampException_eq_dec : EqDecision UserStampException.
Proof. solve_decision. Defined.
#[export] Instance UserStampException_countable : Countable UserStampException :=
  inj_countable' (λ x, (se_routes x, se_security_stamp x, se_expire x))
    (λ '(a, b, c), mkUserStampException a b c) (λ x, match x with mkUserStampException _ _ _ => eq_refl end).

Module ToyUsers.
Import ToyEnv.

#[export] Instance toy_stamp_serde : Serde UserStampException id := toy_serde id.

(** A registered user, as [User_new] makes it, with a password. *)
Definition toy_user (id : string) : User := {|
  u_uuid := id; u_enabled := true; u_created_at := 0; u_updated_at := 0;
  u_verified_at := Some 0%Z; u_last_verifying_at := None; u_login_verify_count := 0;
  u_email := id +:+ "@example.org"; u_email_new := None; u_email_new_token := None; u_name := id;
  u_password_hash := take 32 (chars "pw" ++ replicate 32 0%Z); u_salt := []; u_password_iterations := 1000;
  u_password_hint := None; u_akey := "key"; u_private_key := None; u_public_key := None;
  u_totp_secret := None; u_totp_recover := None; u_security_stamp := "stamp"; u_stamp_exception := None;
  u_equivalent_domains := "[]"; u_excluded_globals := "[]"; u_client_kdf_type := 0;
  u_client_kdf_iter := 600000; u_client_kdf_memory := None; u_client_kdf_parallelism := None;
  u_api_key := None; u_avatar_color := None; u_external_id := None;
|}.

Definition toy_device (id user : string) : Device := {|
  d_uuid := id; d_created_at := 0; d_updated_at := 0; d_user_uuid := user; d_name := "phone"; d_atype := 0;
  d_push_uuid := None; d_push_token := None; d_refresh_token := "old"; d_twofactor_remember := None;
|}.

Definition toy_world : World := mkWorld (empty_db
  <| users := {["alice" := toy_user "alice"; "bob" := toy_user "bob"]} |>
  <| devices := {[("d1", "alice") := toy_device "d1" "alice"; ("d2", "bob") := toy_device "d2" "bob"]} |>) 100 [] ∅ ∅.

End ToyUsers.
