(* ===== verification/Orgs.v ===== *)
(** * Organization memberships, policies and the event log

    [server/src/db/models/organization.rs], [org_policy.rs], the parts of
    [collection.rs] and [group.rs] that deleting a membership needs, and the
    event log of [event.rs] and [server/src/api/core/events.rs].  A revoked
    membership keeps its state shifted by 128, so that it can be restored. *)

From stdpp Require Import base strings numbers pretty gmap list.
From S2P Require Import Prelude Store Users.

(** ** MembershipStatus and MembershipType *)

Inductive MembershipStatus := MS_Revoked | MS_Invited | MS_Accepted | MS_Confirmed.
#[export] Instance MembershipStatus_eq_dec : EqDecision MembershipStatus.
Proof. solve_decision. Defined.
Definition MembershipStatus_to_i32 (s : MembershipStatus) : Z :=
  match s with MS_Revoked => -1 | MS_Invited => 0 | MS_Accepted => 1 | MS_Confirmed => 2 end.
Definition MembershipStatus_from_i32 (status : Z) : option MembershipStatus :=
  match status with
  | 0 => Some MS_Invited
  | 1 => Some MS_Accepted
  | 2 => Some MS_Confirmed
  | _ => None
  end%Z.

Inductive MembershipType := MT_Owner | MT_Admin | MT_User | MT_Manager.
#[export] Instance MembershipType_eq_dec : EqDecision MembershipType.
Proof. solve_decision. Defined.
Definition MembershipType_to_i32 (t : MembershipType) : Z :=
  match t with MT_Owner => 0 | MT_Admin => 1 | MT_User => 2 | MT_Manager => 3 end.
Definition MembershipType_from_i32 (n : Z) : option MembershipType :=
  match n with
  | 0 => Some MT_Owner
  | 1 => Some MT_Admin
  | 2 => Some MT_User
  | 3 => Some MT_Manager
  | _ => None
  end%Z.
Definition MembershipType_from_str (s : string) : option MembershipType :=
  if bool_decide (s ∈ ["0"; "Owner"]) then Some MT_Owner
  else if bool_decide (s ∈ ["1"; "Admin"]) then Some MT_Admin
  else if bool_decide (s ∈ ["2"; "User"]) then Some MT_User
  else if bool_decide (s ∈ ["3"; "Manager"]) then Some MT_Manager
  else if bool_decide (s ∈ ["4"; "Custom"]) then Some MT_Manager
  else None.

(** [ACCESS_LEVEL]: the order of the roles is not the order of their numbers. *)
Definition ACCESS_LEVEL (t : MembershipType) : Z :=
  match t with MT_Owner => 3 | MT_Admin => 2 | MT_User => 0 | MT_Manager => 1 end.
Definition MembershipType_cmp (a b : MembershipType) : comparison :=
  (ACCESS_LEVEL a ?= ACCESS_LEVEL b)%Z.

(** [impl PartialOrd<MembershipType> for i32]: an unknown number compares as
    less. *)
Definition i32_partial_cmp (n : Z) (t : MembershipType) : option comparison :=
  match MembershipType_from_i32 n with
  | Some self_type => Some (MembershipType_cmp self_type t)
  | None => None
  end.
Definition i32_lt (n : Z) (t : MembershipType) : bool :=
  match i32_partial_cmp n t with Some Lt | None => true | _ => false end.
Definition i32_le (n : Z) (t : MembershipType) : bool :=
  match i32_partial_cmp n t with Some Lt | Some Eq | None => true | _ => false end.
(** [>=] is the default of the trait. *)
Definition i32_ge (n : Z) (t : MembershipType) : bool :=
  match i32_partial_cmp n t with Some Gt | Some Eq => true | _ => false end.
(** [impl PartialOrd<i32> for MembershipType] *)
Definition MembershipType_partial_cmp_i32 (t : MembershipType) (n : Z) : option comparison :=
  match MembershipType_from_i32 n with
  | Some other => Some (MembershipType_cmp t other)
  | None => None
  end.
Definition MembershipType_gt_i32 (t : MembershipType) (n : Z) : bool :=
  match MembershipType_partial_cmp_i32 t n with Some Gt => true | _ => false end.
Definition MembershipType_ge_i32 (t : MembershipType) (n : Z) : bool :=
  match MembershipType_partial_cmp_i32 t n with Some Gt | Some Eq => true | _ => false end.

(** ** Membership: local methods *)

Definition ACTIVATE_REVOKE_DIFF : Z := 128.

Definition Membership_new (user_uuid org_uuid : string) (invited_by_email : option string) : M Membership :=
  let* uuid := get_uuid in
  mret {|
    m_uuid := uuid; m_user_uuid := user_uuid; m_org_uuid := org_uuid;
    m_invited_by_email := invited_by_email; m_access_all := false; m_akey := "";
    m_status := MembershipStatus_to_i32 MS_Accepted; m_atype := MembershipType_to_i32 MT_User;
    m_reset_password_key := None; m_external_id := None;
  |}.

(** [restore] and [revoke] return whether they changed the status. *)
Definition Membership_restore (self : Membership) : Membership * bool :=
  if (m_status self <? MembershipStatus_to_i32 MS_Invited)%Z
  then (self <| m_status := (m_status self + ACTIVATE_REVOKE_DIFF)%Z |>, true)
  else (self, false).
Definition Membership_revoke (self : Membership) : Membership * bool :=
  if (MembershipStatus_to_i32 MS_Revoked <? m_status self)%Z
  then (self <| m_status := (m_status self - ACTIVATE_REVOKE_DIFF)%Z |>, true)
  else (self, false).
Definition Membership_get_unrevoked_status (self : Membership) : Z :=
  if (m_status self <=? MembershipStatus_to_i32 MS_Revoked)%Z
  then (m_status self + ACTIVATE_REVOKE_DIFF)%Z else m_status self.

Definition Membership_set_external_id (self : Membership) (external_id : option string) : Membership * bool :=
  if bool_decide (m_external_id self = external_id) then (self, false)
  else (self <| m_external_id := match external_id with
                                 | Some x => if bool_decide (x = "") then None else Some x
                                 | None => None
                                 end |>, true).
Definition Membership_type_manager_as_custom (self : Membership) : Z :=
  match m_atype self with 3 => 4 | n => n end%Z.
Definition Membership_has_status (self : Membership) (s : MembershipStatus) : bool :=
  (m_status self =? MembershipStatus_to_i32 s)%Z.
Definition Membership_has_type (self : Membership) (t : MembershipType) : bool :=
  (m_atype self =? MembershipType_to_i32 t)%Z.
Definition Membership_has_full_access (self : Membership) : bool :=
  (m_access_all self || i32_ge (m_atype self) MT_Admin) && Membership_has_status self MS_Confirmed.
(** The status shown to clients: -1 for every revoked state. *)
Definition Membership_shown_status (self : Membership) : Z :=
  if (m_status self <? MembershipStatus_to_i32 MS_Revoked)%Z
  then MembershipStatus_to_i32 MS_Revoked else m_status self.

(** ** Membership: database methods *)

Definition is_user (uuid : string) (m : Membership) : bool := bool_decide (m_user_uuid m = uuid).
Definition is_org (uuid : string) (m : Membership) : bool := bool_decide (m_org_uuid m = uuid).
Definition is_status (s : MembershipStatus) (m : Membership) : bool := Membership_has_status m s.
Definition members (p : Membership → bool) : M (list Membership) := query (λ d, load p (users_organizations d)).
Definition member (p : Membership → bool) : M (option Membership) := query (λ d, first p (users_organizations d)).

Definition Membership_save (self : Membership) : M unit :=
  do* User_update_uuid_revision (m_user_uuid self) in
  exec (λ d, d <| users_organizations := <[m_uuid self := self]> (users_organizations d) |>).

Definition Membership_find_by_uuid (uuid : string) : M (option Membership) :=
  query (λ d, users_organizations d !! uuid).
Definition Membership_find_by_uuid_and_org (uuid org_uuid : string) : M (option Membership) :=
  query (λ d, m ← users_organizations d !! uuid; if is_org org_uuid m then Some m else None).
Definition Membership_find_confirmed_by_user (user_uuid : string) : M (list Membership) :=
  members (λ m, is_user user_uuid m && is_status MS_Confirmed m).
Definition Membership_find_invited_by_user (user_uuid : string) : M (list Membership) :=
  members (λ m, is_user user_uuid m && is_status MS_Invited m).
Definition Membership_accept_user_invitations (user_uuid : string) : M unit :=
  exec (λ d, d <| users_organizations :=
    (λ m, if is_user user_uuid m && is_status MS_Invited m
          then m <| m_status := MembershipStatus_to_i32 MS_Accepted |> else m) <$> users_organizations d |>).
Definition Membership_find_any_state_by_user (user_uuid : string) : M (list Membership) :=
  members (is_user user_uuid).
Definition Membership_count_accepted_and_confirmed_by_user (user_uuid excluded_org : string) : M nat :=
  let* l := members (λ m, is_user user_uuid m && negb (is_org excluded_org m) &&
                          (is_status MS_Accepted m || is_status MS_Confirmed m)) in
  mret (length l).
Definition Membership_find_by_org (org_uuid : string) : M (list Membership) := members (is_org org_uuid).
Definition Membership_find_confirmed_by_org (org_uuid : string) : M (list Membership) :=
  members (λ m, is_org org_uuid m && is_status MS_Confirmed m).
Definition Membership_find_confirmed_and_manage_all_by_org (org_uuid : string) : M (list Membership) :=
  members (λ m, is_org org_uuid m && is_status MS_Confirmed m &&
    (Membership_has_type m MT_Owner || Membership_has_type m MT_Admin ||
     Membership_has_type m MT_Manager && m_access_all m)).
Definition Membership_count_by_org (org_uuid : string) : M nat :=
  let* l := members (is_org org_uuid) in mret (length l).
Definition Membership_find_by_org_and_type (org_uuid : string) (t : MembershipType) : M (list Membership) :=
  members (λ m, is_org org_uuid m && Membership_has_type m t).
Definition Membership_count_confirmed_by_org_and_type (org_uuid : string) (t : MembershipType) : M nat :=
  let* l := members (λ m, is_org org_uuid m && Membership_has_type m t && is_status MS_Confirmed m) in
  mret (length l).
Definition Membership_find_by_user_and_org (user_uuid org_uuid : string) : M (option Membership) :=
  member (λ m, is_user user_uuid m && is_org org_uuid m).
Definition Membership_find_confirmed_by_user_and_org (user_uuid org_uuid : string) : M (option Membership) :=
  member (λ m, is_user user_uuid m && is_org org_uuid m && is_status MS_Confirmed m).
Definition Membership_find_by_user (user_uuid : string) : M (list Membership) := members (is_user user_uuid).
Definition Membership_get_orgs_by_user (user_uuid : string) : M (list string) :=
  let* l := members (is_user user_uuid) in mret (m_org_uuid <$> l).
Definition Membership_find_by_external_id_and_org (ext_id org_uuid : string) : M (option Membership) :=
  member (λ m, bool_decide (m_external_id m = Some ext_id) && is_org org_uuid m).

(** [find_by_email_and_org] *)
Definition Membership_find_by_email_and_org (email org_uuid : string) : M (option Membership) :=
  let* u := User_find_by_mail email in
  match u with
  | Some user => Membership_find_by_user_and_org (u_uuid user) org_uuid
  | None => mret None
  end.

Definition CollectionUser_find_by_organization_and_user_uuid (org_uuid user_uuid : string)
    : M (list CollectionUser) :=
  query (λ d, load (λ cu, bool_decide (cu_user_uuid cu = user_uuid) &&
    match collections d !! cu_collection_uuid cu with
    | Some c => bool_decide (c_org_uuid c = org_uuid)
    | None => false
    end) (users_collections d)).
Definition CollectionUser_delete_all_by_user_and_org (user_uuid org_uuid : string) : M unit :=
  let* collectionusers := CollectionUser_find_by_organization_and_user_uuid org_uuid user_uuid in
  for_each collectionusers (λ user,
    exec (λ d, d <| users_collections := delete (user_uuid, cu_collection_uuid user) (users_collections d) |>)).
Definition GroupUser_delete_all_by_member (member_uuid : string) : M unit :=
  let* m := Membership_find_by_uuid member_uuid in
  do* match m with
      | Some member => User_update_uuid_revision (m_user_uuid member)
      | None => mret tt
      end in
  exec (λ d, d <| groups_users := filter (λ gu, gu.2 ≠ member_uuid) (groups_users d) |>).

Definition Membership_delete (self : Membership) : M unit :=
  do* User_update_uuid_revision (m_user_uuid self) in
  do* CollectionUser_delete_all_by_user_and_org (m_user_uuid self) (m_org_uuid self) in
  do* GroupUser_delete_all_by_member (m_uuid self) in
  exec (λ d, d <| users_organizations := delete (m_uuid self) (users_organizations d) |>).
Definition Membership_delete_all_by_organization (org_uuid : string) : M unit :=
  let* l := Membership_find_by_org org_uuid in for_each l Membership_delete.
Definition Membership_delete_all_by_user (user_uuid : string) : M unit :=
  let* l := Membership_find_any_state_by_user user_uuid in for_each l Membership_delete.

Definition Organization_find_by_uuid (uuid : string) : M (option Organization) :=
  query (λ d, organizations d !! uuid).

(** ** OrgPolicy *)

Inductive OrgPolicyType :=
  | TwoFactorAuthentication | MasterPassword | PasswordGenerator | SingleOrg | PersonalOwnership
  | DisableSend | SendOptions | ResetPassword | RemoveUnlockWithPin | RestrictedItemTypes | UriMatchDefaults.
Definition OrgPolicyType_to_i32 (t : OrgPolicyType) : Z :=
  match t with
  | TwoFactorAuthentication => 0 | MasterPassword => 1 | PasswordGenerator => 2 | SingleOrg => 3
  | PersonalOwnership => 5 | DisableSend => 6 | SendOptions => 7 | ResetPassword => 8
  | RemoveUnlockWithPin => 14 | RestrictedItemTypes => 15 | UriMatchDefaults => 16
  end.

Definition OrgPolicy_new (org_uuid : string) (atype : OrgPolicyType) (enabled : bool) (data : string) : M OrgPolicy :=
  let* uuid := get_uuid in mret (mkOrgPolicy uuid org_uuid (OrgPolicyType_to_i32 atype) enabled data).
Definition OrgPolicy_has_type (self : OrgPolicy) (t : OrgPolicyType) : bool :=
  (p_atype self =? OrgPolicyType_to_i32 t)%Z.

Definition OrgPolicy_to_json (self : OrgPolicy) : M Json :=
  let* data_json := ask (λ e, default JNull (parse_json e (p_data self))) in
  mret (JObj ([("id", JStr (p_uuid self)); ("organizationId", JStr (p_org_uuid self));
               ("type", JNum (p_atype self)); ("data", data_json); ("enabled", JBool (p_enabled self));
               ("object", JStr "policy")]
              ++ if (p_atype self =? 8)%Z then [("canToggleState", JBool true)] else [])).

(** [org_policies] has a unique constraint on organization and type: writing a
    row removes the other rows with the same pair. *)
Definition OrgPolicy_same_slot (a b : OrgPolicy) : bool :=
  bool_decide (p_org_uuid a = p_org_uuid b) && (p_atype a =? p_atype b)%Z.
Definition OrgPolicy_save (self : OrgPolicy) : M unit :=
  exec (λ d, d <| org_policies :=
    <[p_uuid self := self]> (delete_where (OrgPolicy_same_slot self) (org_policies d)) |>).
Definition OrgPolicy_delete (self : OrgPolicy) : M unit :=
  exec (λ d, d <| org_policies := delete (p_uuid self) (org_policies d) |>).
Definition OrgPolicy_find_by_org (org_uuid : string) : M (list OrgPolicy) :=
  query (λ d, load (λ p, bool_decide (p_org_uuid p = org_uuid)) (org_policies d)).
Definition OrgPolicy_find_by_org_and_type (org_uuid : string) (t : OrgPolicyType) : M (option OrgPolicy) :=
  query (λ d, first (λ p, bool_decide (p_org_uuid p = org_uuid) && OrgPolicy_has_type p t) (org_policies d)).
Definition OrgPolicy_delete_all_by_organization (org_uuid : string) : M unit :=
  exec (λ d, d <| org_policies := delete_where (λ p, bool_decide (p_org_uuid p = org_uuid)) (org_policies d) |>).

(** [org_policies INNER JOIN users_organizations ON org_uuid AND user_uuid]: one
    row per pair. *)
Definition policies_of_user (user_uuid : string) (on : OrgPolicy → Membership → bool) (d : Db) : list OrgPolicy :=
  load (λ _, true) (org_policies d) ≫= λ p,
    (λ _, p) <$> load (λ m, is_org (p_org_uuid p) m && is_user user_uuid m && on p m) (users_organizations d).
Definition OrgPolicy_find_confirmed_by_user (user_uuid : string) : M (list OrgPolicy) :=
  query (policies_of_user user_uuid (λ _ m, is_status MS_Confirmed m)).
Definition OrgPolicy_find_accepted_and_confirmed_by_user_and_active_policy (user_uuid : string)
    (t : OrgPolicyType) : M (list OrgPolicy) :=
  query (policies_of_user user_uuid (λ p m,
    (is_status MS_Accepted m || is_status MS_Confirmed m) && OrgPolicy_has_type p t && p_enabled p)).
Definition OrgPolicy_find_confirmed_by_user_and_active_policy (user_uuid : string)
    (t : OrgPolicyType) : M (list OrgPolicy) :=
  query (policies_of_user user_uuid (λ p m,
    is_status MS_Confirmed m && OrgPolicy_has_type p t && p_enabled p)).

(** [users_organizations INNER JOIN org_policies] *)
Definition Membership_find_by_user_and_policy (user_uuid : string) (t : OrgPolicyType) : M (list Membership) :=
  query (λ d, load (λ m, is_user user_uuid m && is_status MS_Confirmed m) (users_organizations d) ≫= λ m,
    (λ _, m) <$> load (λ p, bool_decide (p_org_uuid p = m_org_uuid m) && OrgPolicy_has_type p t && p_enabled p)
                   (org_policies d)).

(** [for policy in policies { .. if .. { return true } } false] *)
Fixpoint any_policy_applies (user_uuid : string) (exclude_org_uuid : option string) (l : list OrgPolicy) : M bool :=
  match l with
  | [] => mret false
  | policy :: l =>
     if bool_decide (exclude_org_uuid = Some (p_org_uuid policy))
     then any_policy_applies user_uuid exclude_org_uuid l
     else
       let* m := Membership_find_confirmed_by_user_and_org user_uuid (p_org_uuid policy) in
       match m with
       | Some user => if i32_lt (m_atype user) MT_Admin then mret true
                      else any_policy_applies user_uuid exclude_org_uuid l
       | None => any_policy_applies user_uuid exclude_org_uuid l
       end
  end.
Definition OrgPolicy_is_applicable_to_user (user_uuid : string) (t : OrgPolicyType)
    (exclude_org_uuid : option string) : M bool :=
  let* l := OrgPolicy_find_accepted_and_confirmed_by_user_and_active_policy user_uuid t in
  any_policy_applies user_uuid exclude_org_uuid l.
(** [serde_json::from_str::<SendOptionsPolicyData>] *)
Definition disable_hide_email (e : Env) (data : string) : option bool :=
  j ← parse_json e data;
  v ← one_field ["disableHideEmail"; "DisableHideEmail"] j;
  match v with JBool b => Some b | _ => None end.
Fixpoint any_hide_email_disabled (user_uuid : string) (l : list OrgPolicy) : M bool :=
  match l with
  | [] => mret false
  | policy :: l =>
     let* m := Membership_find_confirmed_by_user_and_org user_uuid (p_org_uuid policy) in
     let* opts := ask (λ e, disable_hide_email e (p_data policy)) in
     if bool_decide (opts = Some true) && from_option (λ user, i32_lt (m_atype user) MT_Admin) false m
     then mret true else any_hide_email_disabled user_uuid l
  end.
Definition OrgPolicy_is_hide_email_disabled (user_uuid : string) : M bool :=
  let* l := OrgPolicy_find_confirmed_by_user_and_active_policy user_uuid SendOptions in
  any_hide_email_disabled user_uuid l.
Definition OrgPolicy_is_enabled_for_member (member_uuid : string) (t : OrgPolicyType) : M bool :=
  let* m := Membership_find_by_uuid member_uuid in
  match m with
  | Some member =>
     let* p := OrgPolicy_find_by_org_and_type (m_org_uuid member) t in
     mret (from_option p_enabled false p)
  | None => mret false
  end.

(** [.order(atype.asc()).first()]: a row with the least key. *)
Fixpoint first_by {V} (key : V → Z) (l : list V) : option V :=
  match l with
  | [] => None
  | x :: l => match first_by key l with
              | Some y => if (key x <=? key y)%Z then Some x else Some y
              | None => Some x
              end
  end.
Definition Membership_find_main_user_org (user_uuid : string) : M (option Membership) :=
  let* l := members (λ m, is_user user_uuid m && negb (is_status MS_Revoked m)) in
  mret (first_by m_atype l).

(** ** Events *)

(** The [EventType]s used by the modelled handlers. *)
Definition UserUpdated2fa : Z := 1002.
Definition UserDisabled2fa : Z := 1003.
Definition UserFailedLogIn2fa : Z := 1006.
Definition CipherCreated : Z := 1100.
Definition CipherUpdated : Z := 1101.
Definition CipherDeleted : Z := 1102.
Definition CipherAttachmentCreated : Z := 1103.
Definition CipherAttachmentDeleted : Z := 1104.
Definition CipherShared : Z := 1105.
Definition CipherUpdatedCollections : Z := 1106.
Definition CipherSoftDeleted : Z := 1115.
Definition CipherRestored : Z := 1116.
Definition OrganizationUserRevoked : Z := 1511.
Definition OrganizationPurgedVault : Z := 1601.

Definition Event_new (event_type : Z) (event_date : option Z) : M Event :=
  let* date := match event_date with Some d => mret d | None => ask now end in
  let* uuid := get_uuid in
  mret {|
    ev_uuid := uuid; ev_event_type := event_type; ev_user_uuid := None; ev_org_uuid := None;
    ev_cipher_uuid := None; ev_collection_uuid := None; ev_group_uuid := None; ev_org_user_uuid := None;
    ev_act_user_uuid := None; ev_device_type := None; ev_ip_address := None; ev_event_date := date;
    ev_policy_uuid := None; ev_provider_uuid := None; ev_provider_user_uuid := None;
    ev_provider_org_uuid := None;
  |}.

Definition Event_save (self : Event) : M unit :=
  exec (λ d, d <| events := <[ev_uuid self := self]> (events d) |>).
(** Duplicates are ignored. *)
Definition Event_insert_or_ignore (ev : Event) (t : gmap string Event) : gmap string Event :=
  match t !! ev_uuid ev with Some _ => t | None => <[ev_uuid ev := ev]> t end.
Definition Event_save_user_event (l : list Event) : M unit :=
  for_each l (λ ev, exec (λ d, d <| events := Event_insert_or_ignore ev (events d) |>)).

(** The events of [log_user_event_impl]'s loop, one per membership. *)
Fixpoint member_events (event_type : Z) (user_id : string) (device_type : Z) (event_date : option Z)
    (ip : string) (l : list Membership) : M (list Event) :=
  match l with
  | [] => mret []
  | membership :: l =>
     let* event := Event_new event_type event_date in
     let event := event <| ev_user_uuid := Some user_id |>
                        <| ev_org_uuid := Some (m_org_uuid membership) |>
                        <| ev_org_user_uuid := Some (m_uuid membership) |>
                        <| ev_act_user_uuid := Some user_id |>
                        <| ev_device_type := Some device_type |>
                        <| ev_ip_address := Some ip |> in
     let* l := member_events event_type user_id device_type event_date ip l in
     mret (event :: l)
  end.
Definition log_user_event_impl (event_type : Z) (user_id : string) (device_type : Z)
    (event_date : option Z) (ip : string) : M unit :=
  let* memberships := Membership_find_confirmed_by_user user_id in
  let* event := Event_new event_type event_date in
  let event := event <| ev_user_uuid := Some user_id |>
                     <| ev_act_user_uuid := Some user_id |>
                     <| ev_device_type := Some device_type |>
                     <| ev_ip_address := Some ip |> in
  let* l := member_events event_type user_id device_type event_date ip memberships in
  mignore (Event_save_user_event (event :: l)).
Definition log_user_event (event_type : Z) (user_id : string) (device_type : Z) (ip : string) : M unit :=
  let* enabled := conf org_events_enabled in
  if enabled then log_user_event_impl event_type user_id device_type None ip else mret tt.

Definition log_event_impl (event_type : Z) (source_uuid org_id act_user_id : string) (device_type : Z)
    (event_date : option Z) (ip : string) : M unit :=
  let* event := Event_new event_type event_date in
  let event :=
    if ((1100 <=? event_type) && (event_type <=? 1199))%Z then event <| ev_cipher_uuid := Some source_uuid |>
    else if ((1300 <=? event_type) && (event_type <=? 1399))%Z then event <| ev_collection_uuid := Some source_uuid |>
    else if ((1400 <=? event_type) && (event_type <=? 1499))%Z then event <| ev_group_uuid := Some source_uuid |>
    else if ((1500 <=? event_type) && (event_type <=? 1599))%Z then event <| ev_org_user_uuid := Some source_uuid |>
    else if ((1700 <=? event_type) && (event_type <=? 1799))%Z then event <| ev_policy_uuid := Some source_uuid |>
    else event in
  let event := event <| ev_org_uuid := Some org_id |>
                     <| ev_act_user_uuid := Some act_user_id |>
                     <| ev_device_type := Some device_type |>
                     <| ev_ip_address := Some ip |> in
  mignore (Event_save event).
Definition log_event (event_type : Z) (source_uuid org_id act_user_id : string) (device_type : Z)
    (ip : string) : M unit :=
  let* enabled := conf org_events_enabled in
  if enabled then log_event_impl event_type source_uuid org_id act_user_id device_type None ip else mret tt.

(** Logging touches nothing but the event table, and cannot fail. *)
Lemma keeps_log_user_event {X} (π : Db → X) t u dt ip :
  (∀ d x, π (d <| events := x |>) = π d) → keeps π (log_user_event t u dt ip).
Proof.
  intros Hπ. unfold log_user_event, log_user_event_impl, Event_new, Event_save_user_event. solve_keeps.
  match goal with |- keeps _ (member_events _ _ _ _ _ ?l) => induction l as [|m l IH] end; simpl;
    unfold Event_new; solve_keeps.
Qed.
Lemma safe_log_user_event t u dt ip : safe (log_user_event t u dt ip).
Proof.
  unfold log_user_event, log_user_event_impl, Event_new, Event_save_user_event. solve_keeps.
  match goal with |- safe (member_events _ _ _ _ _ ?l) => induction l as [|m l IH] end; simpl;
    unfold Event_new; solve_keeps.
Qed.
Lemma keeps_log_event {X} (π : Db → X) t s o a dt ip :
  (∀ d x, π (d <| events := x |>) = π d) → keeps π (log_event t s o a dt ip).
Proof. intros Hπ. unfold log_event, log_event_impl, Event_new, Event_save. solve_keeps. Qed.
Lemma safe_log_event t s o a dt ip : safe (log_event t s o a dt ip).
Proof. unfold log_event, log_event_impl, Event_new, Event_save. solve_keeps. Qed.
#[export] Hint Resolve safe_log_user_event safe_log_event : frame.
#[export] Hint Extern 1 (keeps _ (log_user_event _ _ _ _)) => apply keeps_log_user_event; done : frame.
#[export] Hint Extern 1 (keeps _ (log_event _ _ _ _ _ _)) => apply keeps_log_event; done : frame.

(** Asking for policies only reads. *)
Lemma reads_is_applicable u t o : reads (OrgPolicy_is_applicable_to_user u t o).
Proof.
  unfold OrgPolicy_is_applicable_to_user. apply reads_bind; [by intros ??; eexists|].
  intros l. induction l as [|p l IH]; simpl; unfold Membership_find_confirmed_by_user_and_org; solve_reads; apply IH.
Qed.
Lemma reads_is_hide_email_disabled u : reads (OrgPolicy_is_hide_email_disabled u).
Proof.
  unfold OrgPolicy_is_hide_email_disabled. apply reads_bind; [by intros ??; eexists|].
  intros l. induction l as [|p l IH]; simpl; unfold Membership_find_confirmed_by_user_and_org; solve_reads; apply IH.
Qed.
#[export] Hint Resolve reads_is_applicable reads_is_hide_email_disabled : frame.

(** ** Properties *)

(** The states a membership is in before it is revoked. *)
Definition Membership_active (m : Membership) : Prop :=
  ∃ s, s ≠ MS_Revoked ∧ m_status m = MembershipStatus_to_i32 s.

(** Revoking and restoring a membership.  Revoking an active membership
    changes it, shows it to clients as revoked, takes away full access, and
    remembers the earlier status; revoking again changes nothing, and restoring
    gives back the membership exactly as it was.  Restoring an active
    membership changes nothing. *)
Theorem Membership_revoke_restore m :
  Membership_active m →
  let r := (Membership_revoke m).1 in
  (Membership_revoke m).2 = true ∧
  Membership_shown_status r = MembershipStatus_to_i32 MS_Revoked ∧
  MembershipStatus_from_i32 (m_status r) = None ∧
  Membership_has_full_access r = false ∧
  Membership_get_unrevoked_status r = m_status m ∧
  Membership_revoke r = (r, false) ∧
  Membership_restore r = (m, true) ∧
  Membership_restore m = (m, false).
Proof.
  intros (s & Hs & Hm). destruct m; simpl in *. subst.
  destruct s; try done; cbv [Membership_has_full_access]; simpl; rewrite ?andb_false_r; done.
Qed.

(** The order on roles used by every permission check is the one of their
    access levels: a stored role number is at least a role exactly when it is
    not below it, unknown numbers are below every role, and among known roles
    Owner exceeds Admin, Admin exceeds Manager, Manager exceeds User. *)
Theorem MembershipType_order n t :
  i32_ge n t = negb (i32_lt n t) ∧
  MembershipType_ge_i32 t n = (i32_le n t && bool_decide (is_Some (MembershipType_from_i32 n))) ∧
  (MembershipType_from_i32 n = None → i32_lt n t = true) ∧
  (∀ s, MembershipType_from_i32 n = Some s →
     (i32_ge n t = true ↔ (ACCESS_LEVEL t ≤ ACCESS_LEVEL s)%Z) ∧ (i32_ge n t = true ∧ i32_le n t = true ↔ s = t)).
Proof.
  unfold i32_ge, i32_lt, i32_le, i32_partial_cmp, MembershipType_ge_i32, MembershipType_partial_cmp_i32.
  destruct (MembershipType_from_i32 n) as [s|].
  - split_and!; [by destruct s, t..|done|]. intros s' [= <-]. destruct s, t; simpl; naive_solver lia.
  - by split_and!.
Qed.

(** A stored status is an active one or one left by a revocation. *)
Definition Membership_stored (m : Membership) : Prop :=
  Membership_active m ∨ ∃ m0, Membership_active m0 ∧ m = (Membership_revoke m0).1.

Lemma stored_not_Revoked m : Membership_stored m → is_status MS_Revoked m = false.
Proof.
  unfold is_status, Membership_has_status, Membership_revoke.
  intros [(s & Hs & E)|(m0 & (s & Hs & E) & ->)]; destruct m || destruct m0; simpl in *; subst; by destruct s.
Qed.

(** The query for a user's main organization does not leave out revoked
    memberships.  On a table whose rows have only statuses the code stores, it
    returns the row of the highest role among all the user's memberships, as if
    its condition on the status were absent. *)
Theorem find_main_user_org_ignores_revocation user e w :
  (∀ k m, users_organizations (db w) !! k = Some m → Membership_stored m) →
  Membership_find_main_user_org user e w =
    (Ok (first_by m_atype (load (is_user user) (users_organizations (db w)))), w).
Proof.
  intros Hst. unfold Membership_find_main_user_org, members. cbv [mbind query mret]. do 3 f_equal.
  apply load_ext. intros k m Hm. rewrite (stored_not_Revoked m) by eauto. by rewrite andb_true_r.
Qed.

Lemma MembershipType_order_witness :
  i32_lt 7 MT_User = true ∧ (i32_ge 1 MT_Manager = true ↔ (1 ≤ 2)%Z).
Proof.
  split; [by apply (MembershipType_order 7 MT_User)|].
  destruct (MembershipType_order 1 MT_Manager) as (_ & _ & _ & H). by apply (H MT_Admin).
Defined.

Definition toy_member : Membership := mkMembership "m1" "alice" "org" None true "" 2 2 None None.

Lemma Membership_revoke_restore_witness :
  Membership_revoke toy_member = (toy_member <| m_status := (-126)%Z |>, true) ∧
  Membership_restore (Membership_revoke toy_member).1 = (toy_member, true).
Proof. split; [done|]. apply (Membership_revoke_restore toy_member). by exists MS_Confirmed. Defined.

Import ToyEnv.
Lemma find_main_user_org_ignores_revocation_witness :
  ∃ m, m = (Membership_revoke toy_member).1 ∧ Membership_shown_status m = (-1)%Z ∧
    (Membership_find_main_user_org "alice" (toy_env 0)
      (mkWorld (empty_db <| users_organizations := {["m1" := m]} |>) 0 [] ∅ ∅)).1 = Ok (Some m).
Proof.
  eexists. split; [done|]. split; [done|].
  rewrite find_main_user_org_ignores_revocation; [by vm_compute|].
  simpl. intros k m [_ <-]%lookup_singleton_Some. right. exists toy_member. split; [by exists MS_Confirmed|done].
Defined.
