(* ===== verification/AuthRequests.v ===== *)
(** * Requests to log in with another device

    [server/src/db/models/auth_request.rs].  The property is about the purge
    job: it removes the requests older than fifteen minutes and no others. *)

From stdpp Require Import base strings numbers pretty gmap list.
From S2P Require Import Prelude Store Users.

Definition AuthRequest_new (user_uuid request_device_identifier : string) (device_type : Z)
    (request_ip access_code public_key : string) : M AuthRequest :=
  let* t := ask now in
  let* uuid := get_uuid in
  mret {|
    ar_uuid := uuid; ar_user_uuid := user_uuid; ar_organization_uuid := None;
    ar_request_device_identifier := request_device_identifier; ar_device_type := device_type;
    ar_request_ip := request_ip; ar_response_device_id := None; ar_access_code := access_code;
    ar_public_key := public_key; ar_enc_key := None; ar_master_password_hash := None;
    ar_approved := None; ar_creation_date := t; ar_response_date := None; ar_authentication_date := None;
  |}.

Definition AuthRequest_save (self : AuthRequest) : M unit :=
  exec (λ d, d <| auth_requests := <[ar_uuid self := self]> (auth_requests d) |>).
Definition AuthRequest_find_by_uuid (uuid : string) : M (option AuthRequest) :=
  query (λ d, auth_requests d !! uuid).
Definition AuthRequest_find_by_uuid_and_user (uuid user_uuid : string) : M (option AuthRequest) :=
  query (λ d, r ← auth_requests d !! uuid;
              if bool_decide (ar_user_uuid r = user_uuid) then Some r else None).
Definition AuthRequest_find_by_user (user_uuid : string) : M (list AuthRequest) :=
  query (λ d, load (λ r, bool_decide (ar_user_uuid r = user_uuid)) (auth_requests d)).
Definition AuthRequest_find_created_before (dt : Z) : M (list AuthRequest) :=
  query (λ d, load (λ r, (ar_creation_date r <? dt)%Z) (auth_requests d)).
Definition AuthRequest_delete (self : AuthRequest) : M unit :=
  exec (λ d, d <| auth_requests := delete (ar_uuid self) (auth_requests d) |>).
Definition AuthRequest_check_access_code (self : AuthRequest) (access_code : string) : bool :=
  ct_eq (ar_access_code self) access_code.

Definition AuthRequest_purge_expired_auth_requests : M unit :=
  let* t := ask now in
  let expiry_time := (t - minutes 15)%Z in
  let* l := AuthRequest_find_created_before expiry_time in
  for_each l (λ auth_request, mignore (AuthRequest_delete auth_request)).

(** Each row sits under its identifier. *)
Definition auth_requests_keyed (d : Db) : Prop := ∀ k r, auth_requests d !! k = Some r → ar_uuid r = k.

Lemma delete_requests_spec l : ∀ e w,
  ∃ w', for_each l (λ r, mignore (AuthRequest_delete r)) e w = (Ok tt, w') ∧
    ∀ k, auth_requests (db w') !! k
         = if bool_decide (k ∈ ar_uuid <$> l) then None else auth_requests (db w) !! k.
Proof.
  induction l as [|r l IH]; intros e w; [by exists w|].
  destruct (IH e (w <| db := (db w) <| auth_requests := delete (ar_uuid r) (auth_requests (db w)) |> |>))
    as (w' & Hrun & Hw').
  exists w'. split; [exact Hrun|]. intros k. rewrite Hw'. simpl.
  case_bool_decide; case_bool_decide as Hin; rewrite elem_of_cons in Hin; try naive_solver.
  - destruct Hin as [->|]; [|done]. by rewrite lookup_delete_eq.
  - rewrite lookup_delete_ne; naive_solver.
Qed.

(** The purge job always completes, and afterwards the table holds exactly
    the requests that are at most fifteen minutes old. *)
Lemma purge_expired_auth_requests_spec e w :
  auth_requests_keyed (db w) →
  ∃ w', AuthRequest_purge_expired_auth_requests e w = (Ok tt, w') ∧
    ∀ k r, auth_requests (db w') !! k = Some r ↔
      auth_requests (db w) !! k = Some r ∧ (now e - ar_creation_date r ≤ minutes 15)%Z.
Proof.
  intros Hk. unfold AuthRequest_purge_expired_auth_requests.
  set (l := load (λ r, (ar_creation_date r <? now e - minutes 15)%Z) (auth_requests (db w))).
  destruct (delete_requests_spec l e w) as (w' & Hrun & Hw'). exists w'. split; [exact Hrun|].
  intros k r. rewrite Hw'.
  assert (∀ r, auth_requests (db w) !! k = Some r →
    k ∈ ar_uuid <$> l ↔ (ar_creation_date r < now e - minutes 15)%Z) as Hin.
  { intros r' Hr'. rewrite list_elem_of_fmap. split.
    - intros (r2 & -> & Hl). apply elem_of_load in Hl as [Hlt [k2 Hk2]]. pose proof (Hk _ _ Hk2). subst.
      simplify_eq. by apply Z.ltb_lt.
    - intros Hlt. exists r'. split; [by rewrite (Hk _ _ Hr')|]. apply elem_of_load.
      split; [by apply Z.ltb_lt|eauto]. }
  case_bool_decide as Hd.
  - split; [done|]. intros [Hr Hle]. apply (Hin r Hr) in Hd. lia.
  - split; [|naive_solver]. intros Hr. split; [done|]. rewrite (Hin r Hr) in Hd. lia.
Qed.
