(* ===== verification/TwoFactor.v ===== *)
(** * Two-factor authentication

    [server/src/db/models/two_factor.rs], [two_factor_incomplete.rs] and the
    handlers of [server/src/api/core/two_factor/]: [mod.rs], [authenticator.rs],
    [email.rs] and [protected_actions.rs], with [PasswordOrOtpData::validate] of
    [server/src/api/mod.rs].  This file holds the definitions; the theorems are
    in [TotpReplay] and [OneTimeCodes]. *)

From stdpp Require Import base strings numbers pretty gmap list.
From S2P Require Import Prelude Store Users Orgs AuthRequests.

(** ** util.rs: NumberOrString *)

Inductive NumberOrString := Number (n : Z) | NString (s : string).

Definition into_string (x : NumberOrString) : string :=
  match x with Number n => pretty n | NString s => s end.

(** [i32::from_str]: an optional sign and decimal digits, within range. *)
Fixpoint parse_digits (acc : Z) (s : str) : option Z :=
  match s with
  | [] => Some acc
  | c :: s => if ((48 <=? c) && (c <=? 57))%Z then parse_digits (acc * 10 + (c - 48))%Z s else None
  end.
Definition parse_signed (s : str) : option Z :=
  match s with
  | 45%Z :: [] | 43%Z :: [] | [] => None
  | 45%Z :: s => Z.opp <$> parse_digits 0 s
  | 43%Z :: s => parse_digits 0 s
  | s => parse_digits 0 s
  end.
Definition to_i32 (n : Z) : option Z :=
  if ((- 2 ^ 31 <=? n) && (n <? 2 ^ 31))%Z then Some n else None.
Definition into_i32 (x : NumberOrString) : M Z :=
  match x with
  | Number n => some_or_err (to_i32 n) "Number does not fit in i32"
  | NString s => some_or_err (parse_signed (chars s) ≫= to_i32) "Can't convert to number"
  end.

Definition to_i64 (n : Z) : option Z :=
  if ((- 2 ^ 63 <=? n) && (n <? 2 ^ 63))%Z then Some n else None.
(** [Number] holds an [i64]. *)
Definition parse_i64 (x : NumberOrString) : option Z :=
  match x with
  | Number n => Some n
  | NString s => parse_signed (chars s) ≫= to_i64
  end.
Definition into_i64 (x : NumberOrString) : M Z := some_or_err (parse_i64 x) "Can't convert to number".

(** ** two_factor.rs *)

Inductive TwoFactorType :=
  | Authenticator | Email | Duo | YubiKey | U2f | Remember | OrganizationDuo | Webauthn | RecoveryCode
  | U2fRegisterChallenge | U2fLoginChallenge | EmailVerificationChallenge | WebauthnRegisterChallenge
  | WebauthnLoginChallenge | ProtectedActions.
Definition TwoFactorType_to_i32 (t : TwoFactorType) : Z :=
  match t with
  | Authenticator => 0 | Email => 1 | Duo => 2 | YubiKey => 3 | U2f => 4 | Remember => 5
  | OrganizationDuo => 6 | Webauthn => 7 | RecoveryCode => 8
  | U2fRegisterChallenge => 1000 | U2fLoginChallenge => 1001 | EmailVerificationChallenge => 1002
  | WebauthnRegisterChallenge => 1003 | WebauthnLoginChallenge => 1004
  | ProtectedActions => 2000
  end.
Definition TwoFactorType_from_i32 (n : Z) : option TwoFactorType :=
  match n with
  | 0 => Some Authenticator | 1 => Some Email | 2 => Some Duo | 3 => Some YubiKey | 4 => Some U2f
  | 5 => Some Remember | 6 => Some OrganizationDuo | 7 => Some Webauthn | 8 => Some RecoveryCode
  | 1000 => Some U2fRegisterChallenge | 1001 => Some U2fLoginChallenge
  | 1002 => Some EmailVerificationChallenge | 1003 => Some WebauthnRegisterChallenge
  | 1004 => Some WebauthnLoginChallenge | 2000 => Some ProtectedActions
  | _ => None
  end%Z.

Definition TwoFactor_new (user_uuid : string) (atype : TwoFactorType) (data : string) : M TwoFactor :=
  let* uuid := get_uuid in
  mret (mkTwoFactor uuid user_uuid (TwoFactorType_to_i32 atype) true data 0).

Definition TwoFactor_to_json_provider (self : TwoFactor) : Json :=
  JObj [("enabled", JBool (tf_enabled self)); ("type", JNum (tf_atype self));
        ("object", JStr "twoFactorProvider")].

(** The table has a unique index on user and type. *)
Definition TwoFactor_same_slot (a b : TwoFactor) : bool :=
  bool_decide (tf_user_uuid a = tf_user_uuid b) && (tf_atype a =? tf_atype b)%Z.

(** sqlite and mysql: REPLACE removes every row that conflicts with the new one
    on the primary key or the unique index, and inserts it. *)
Definition replace_into_twofactor (self : TwoFactor) (t : gmap string TwoFactor) : gmap string TwoFactor :=
  <[tf_uuid self := self]>
    (delete_where (λ r, bool_decide (tf_uuid r = tf_uuid self) || TwoFactor_same_slot self r) t).
(** postgresql: a DELETE of the slot, then INSERT .. ON CONFLICT (uuid) UPDATE. *)
Definition upsert_twofactor (self : TwoFactor) (t : gmap string TwoFactor) : gmap string TwoFactor :=
  let t := delete_where (TwoFactor_same_slot self) t in
  match t !! tf_uuid self with
  | Some _ => alter (λ _, self) (tf_uuid self) t
  | None => <[tf_uuid self := self]> t
  end.

Definition TwoFactor_save (self : TwoFactor) : M unit :=
  exec (λ d, d <| twofactor := replace_into_twofactor self (twofactor d) |>).
Definition TwoFactor_delete (self : TwoFactor) : M unit :=
  exec (λ d, d <| twofactor := delete (tf_uuid self) (twofactor d) |>).
Definition TwoFactor_find_by_user (user_uuid : string) : M (list TwoFactor) :=
  query (λ d, load (λ r, bool_decide (tf_user_uuid r = user_uuid) && (tf_atype r <? 1000)%Z) (twofactor d)).
Definition find_twofactor (user_uuid : string) (atype : Z) (t : gmap string TwoFactor) : option TwoFactor :=
  first (λ r, bool_decide (tf_user_uuid r = user_uuid) && (tf_atype r =? atype)%Z) t.
Definition TwoFactor_find_by_user_and_type (user_uuid : string) (atype : Z) : M (option TwoFactor) :=
  query (λ d, find_twofactor user_uuid atype (twofactor d)).
Definition TwoFactor_delete_all_by_user (user_uuid : string) : M unit :=
  exec (λ d, d <| twofactor := delete_where (λ r, bool_decide (tf_user_uuid r = user_uuid)) (twofactor d) |>).

(** ** two_factor_incomplete.rs *)

Definition TwoFactorIncomplete_find_by_user_and_device (user_uuid device_uuid : string)
    : M (option TwoFactorIncomplete) :=
  query (λ d, twofactor_incomplete d !! (user_uuid, device_uuid)).
Definition TwoFactorIncomplete_mark_incomplete (user_uuid device_uuid device_name : string)
    (device_type : Z) (ip : string) : M unit :=
  let* limit := conf incomplete_2fa_time_limit in
  let* mail := conf mail_enabled in
  if (limit <=? 0)%Z || negb mail then mret tt
  else
    let* existing := TwoFactorIncomplete_find_by_user_and_device user_uuid device_uuid in
    match existing with
    | Some _ => mret tt
    | None =>
       let* t := ask now in
       exec (λ d, d <| twofactor_incomplete :=
         <[(user_uuid, device_uuid) := mkTwoFactorIncomplete user_uuid device_uuid device_name device_type t ip]>
           (twofactor_incomplete d) |>)
    end.
Definition TwoFactorIncomplete_delete_by_user_and_device (user_uuid device_uuid : string) : M unit :=
  exec (λ d, d <| twofactor_incomplete := delete (user_uuid, device_uuid) (twofactor_incomplete d) |>).
Definition TwoFactorIncomplete_mark_complete (user_uuid device_uuid : string) : M unit :=
  let* limit := conf incomplete_2fa_time_limit in
  let* mail := conf mail_enabled in
  if (limit <=? 0)%Z || negb mail then mret tt
  else TwoFactorIncomplete_delete_by_user_and_device user_uuid device_uuid.
Definition TwoFactorIncomplete_find_logins_before (dt : Z) : M (list TwoFactorIncomplete) :=
  query (λ d, load (λ r, (ti_login_time r <? dt)%Z) (twofactor_incomplete d)).
Definition TwoFactorIncomplete_delete (self : TwoFactorIncomplete) : M unit :=
  TwoFactorIncomplete_delete_by_user_and_device (ti_user_uuid self) (ti_device_uuid self).
Definition TwoFactorIncomplete_delete_all_by_user (user_uuid : string) : M unit :=
  exec (λ d, d <| twofactor_incomplete :=
    delete_where (λ r, bool_decide (ti_user_uuid r = user_uuid)) (twofactor_incomplete d) |>).

(** [User::find_by_device_for_email2fa]: the user of the latest login of a
    device that is waiting for its second factor. *)
Definition User_find_by_device_for_email2fa (device_uuid : string) : M (option User) :=
  let* l := query (λ d, load (λ r, bool_decide (ti_device_uuid r = device_uuid)) (twofactor_incomplete d)) in
  match first_by (λ r, - ti_login_time r)%Z l with
  | Some r => User_find_by_uuid (ti_user_uuid r)
  | None => mret None
  end.

(** ** The request ([auth::Headers], [auth::ClientHeaders]) *)

Record Headers := mkHeaders { h_user : User; h_device_type : Z; h_ip : string; h_host : string }.

(** ** protected_actions.rs *)

Record ProtectedActionData := mkProtectedActionData { pa_token : string; pa_token_sent : Z; pa_attempts : Z }.
#[export] Instance eta_ProtectedActionData : Eta ProtectedActionData := λ r,
  mkProtectedActionData (pa_token r) (pa_token_sent r) (pa_attempts r).
(** [ts_seconds] stores the time in whole seconds. *)
Definition pa_stored (d : ProtectedActionData) : ProtectedActionData :=
  d <| pa_token_sent := seconds (timestamp (pa_token_sent d)) |>.

(** [u64::saturating_add] *)
Definition saturating_add64 (a b : Z) : Z := Z.min (a + b) (2 ^ 64 - 1).

Definition MAIL_DISABLED : string :=
  "Email is disabled for this server. Either enable email or login using your master password instead of login via device.".

Section protected_actions.
Context `{!Serde ProtectedActionData pa_stored}.

Definition ProtectedActionData_new (token : string) : M ProtectedActionData :=
  let* t := ask now in mret (mkProtectedActionData token t 0).
Definition ProtectedActionData_from_json (s : string) : M ProtectedActionData :=
  some_or_err (from_json_str s) "Could not decode ProtectedActionData from string".
Definition ProtectedActionData_add_attempt (d : ProtectedActionData) : ProtectedActionData :=
  d <| pa_attempts := saturating_add64 (pa_attempts d) 1 |>.
Definition ProtectedActionData_time_since_sent (d : ProtectedActionData) : M Z :=
  let* t := ask now in mret (t - pa_token_sent d)%Z.

Definition request_otp (headers : Headers) : M unit :=
  let* mail := conf mail_enabled in
  do* ensure mail MAIL_DISABLED in
  let user := h_user headers in
  let* found := TwoFactor_find_by_user_and_type (u_uuid user) (TwoFactorType_to_i32 ProtectedActions) in
  do* match found with
      | Some pa =>
         let* pa_data := ProtectedActionData_from_json (tf_data pa) in
         let* since := ProtectedActionData_time_since_sent pa_data in
         let elapsed := num_seconds since in
         let delay := 30%Z in
         if (elapsed <? delay)%Z then
           err ("Please wait " +:+ pretty (delay - elapsed)%Z +:+ " seconds before requesting another code.")
         else TwoFactor_delete pa
      | None => mret tt
      end in
  let* size := conf email_token_size in
  let* generated_token := generate_email_token size in
  let* pa_data := ProtectedActionData_new generated_token in
  let* twofactor := TwoFactor_new (u_uuid user) ProtectedActions (to_json_string pa_data) in
  do* TwoFactor_save twofactor in
  send_mail (MailProtectedAction (u_email user) (pa_token pa_data)).

(** [u64::cast_signed] *)
Definition cast_signed64 (n : Z) : Z := if (n <? 2 ^ 63)%Z then n else (n - 2 ^ 64)%Z.

Definition validate_protected_action_otp (otp user_id : string) (delete_if_valid : bool) : M unit :=
  let* found := TwoFactor_find_by_user_and_type user_id (TwoFactorType_to_i32 ProtectedActions) in
  let* pa := some_or_err found
    "Protected action token not found, try sending the code again or restart the process" in
  let* pa_data := ProtectedActionData_from_json (tf_data pa) in
  let pa_data := ProtectedActionData_add_attempt pa_data in
  let pa := pa <| tf_data := to_json_string pa_data |> in
  let* limit := conf email_attempts_limit in
  do* ensure (negb (limit <=? pa_attempts pa_data)%Z) "Token has expired" in
  let* expiration := conf email_expiration_time in
  let max_time := cast_signed64 expiration in
  let* since := ProtectedActionData_time_since_sent pa_data in
  if (max_time <? num_seconds since)%Z then
    do* TwoFactor_delete pa in err "Token has expired"
  else if negb (ct_eq (pa_token pa_data) otp) then
    do* TwoFactor_save pa in err "Token is invalid"
  else if delete_if_valid then TwoFactor_delete pa
  else mret tt.

Definition verify_otp (otp : string) (headers : Headers) : M unit :=
  let* mail := conf mail_enabled in
  do* ensure mail MAIL_DISABLED in
  validate_protected_action_otp otp (u_uuid (h_user headers)) true.

(** ** api/mod.rs: PasswordOrOtpData *)

Record PasswordOrOtpData := mkPasswordOrOtpData { po_master_password_hash : option string; po_otp : option string }.

Definition PasswordOrOtpData_validate (self : PasswordOrOtpData) (user : User) (delete_if_valid : bool) : M unit :=
  match po_master_password_hash self, po_otp self with
  | Some pw_hash, None =>
     let* valid := User_check_valid_password user pw_hash in
     ensure valid "Invalid password"
  | None, Some otp => validate_protected_action_otp otp (u_uuid user) delete_if_valid
  | _, _ => err "No validation provided"
  end.
End protected_actions.

(** ** mod.rs *)

Record DuoProviderData := mkDuoProviderData { duo_data_host : string; duo_data_ik : string; duo_data_sk : string }.

Definition has_global_duo_credentials (c : Config) : bool :=
  enable_duo c && bool_decide (is_Some (duo_host c)) && bool_decide (is_Some (duo_ikey c))
  && bool_decide (is_Some (duo_skey c)).

Section two_factor.
Context `{!Serde ProtectedActionData pa_stored, !Serde DuoProviderData id}.

Definition is_twofactor_provider_usable (c : Config) (provider_type : TwoFactorType)
    (provider_data : option string) : bool :=
  match provider_type with
  | Authenticator | RecoveryCode => true
  | Email => enable_email_2fa c
  | Duo | OrganizationDuo =>
     match provider_data ≫= from_json_str with
     | Some duo => bool_decide (duo_data_host duo ≠ "") && bool_decide (duo_data_ik duo ≠ "")
                   && bool_decide (duo_data_sk duo ≠ "")
     | None => false
     end || has_global_duo_credentials c
  | YubiKey => enable_yubico c && bool_decide (is_Some (yubico_client_id c))
               && bool_decide (is_Some (yubico_secret_key c))
  | Webauthn => is_webauthn_2fa_supported c
  | Remember => negb (disable_2fa_remember c)
  | U2f | U2fRegisterChallenge | U2fLoginChallenge | EmailVerificationChallenge
  | WebauthnRegisterChallenge | WebauthnLoginChallenge | ProtectedActions => false
  end.

Definition get_twofactor (headers : Headers) : M Json :=
  let* twofactors := TwoFactor_find_by_user (u_uuid (h_user headers)) in
  let* c := ask cfg in
  let twofactors_json := omap (λ tf,
    provider_type ← TwoFactorType_from_i32 (tf_atype tf);
    if is_twofactor_provider_usable c provider_type (Some (tf_data tf))
    then Some (TwoFactor_to_json_provider tf) else None) twofactors in
  mret (JObj [("data", JArr twofactors_json); ("object", JStr "list"); ("continuationToken", JNull)]).

Definition get_recover (data : PasswordOrOtpData) (headers : Headers) : M Json :=
  let user := h_user headers in
  do* PasswordOrOtpData_validate data user true in
  mret (JObj [("code", json_opt JStr (u_totp_recover user)); ("object", JStr "twoFactorRecover")]).

(** A failing save is ignored. *)
Definition generate_recover_code (user : User) : M User :=
  match u_totp_recover user with
  | Some _ => mret user
  | None =>
     let* totp_recover := encode_random_bytes 20 encode_base32 in
     let user := user <| u_totp_recover := Some totp_recover |> in
     do* mignore (let* _ := User_save user in mret tt) in
     mret user
  end.

Definition enforce_2fa_policy_member (user : User) (act_user_id : string) (device_type : Z) (ip : string)
    (member : Membership) : M unit :=
  if i32_lt (m_atype member) MT_Admin then
    let* mail := conf mail_enabled in
    do* (if mail then
           let* o := Organization_find_by_uuid (m_org_uuid member) in
           let* org := mexpect o in
           send_mail (Mail2faRemovedFromOrg (u_email user) (o_name org))
         else mret tt) in
    let member := (Membership_revoke member).1 in
    do* Membership_save member in
    log_event OrganizationUserRevoked (m_uuid member) (m_org_uuid member) act_user_id device_type ip
  else mret tt.
Definition enforce_2fa_policy (user : User) (act_user_id : string) (device_type : Z) (ip : string) : M unit :=
  let* l := Membership_find_by_user_and_policy (u_uuid user) TwoFactorAuthentication in
  for_each l (enforce_2fa_policy_member user act_user_id device_type ip).

Definition enforce_2fa_policy_for_org (org_id act_user_id : string) (device_type : Z) (ip : string) : M unit :=
  let* o := Organization_find_by_uuid org_id in
  let* org := mexpect o in
  let* l := Membership_find_confirmed_by_org org_id in
  for_each l (λ member,
    if i32_lt (m_atype member) MT_Admin then
      let* tfs := TwoFactor_find_by_user (m_user_uuid member) in
      if bool_decide (tfs = []) then
        let* mail := conf mail_enabled in
        do* (if mail then
               let* u := User_find_by_uuid (m_user_uuid member) in
               let* user := mexpect u in
               send_mail (Mail2faRemovedFromOrg (u_email user) (o_name org))
             else mret tt) in
        let member := (Membership_revoke member).1 in
        do* Membership_save member in
        log_event OrganizationUserRevoked (m_uuid member) org_id act_user_id device_type ip
      else mret tt
    else mret tt).

Record DisableTwoFactorData := mkDisableTwoFactorData {
  dt_master_password_hash : option string; dt_otp : option string; dt_type : NumberOrString }.

(** The tail shared by the handlers that remove a factor. *)
Definition enforce_if_last_factor (headers : Headers) : M unit :=
  let user := h_user headers in
  let* remaining := TwoFactor_find_by_user (u_uuid user) in
  if bool_decide (remaining = []) then enforce_2fa_policy user (u_uuid user) (h_device_type headers) (h_ip headers)
  else mret tt.

Definition disable_twofactor (data : DisableTwoFactorData) (headers : Headers) : M Json :=
  let user := h_user headers in
  do* PasswordOrOtpData_validate (mkPasswordOrOtpData (dt_master_password_hash data) (dt_otp data)) user true in
  let* type_ := into_i32 (dt_type data) in
  let* found := TwoFactor_find_by_user_and_type (u_uuid user) type_ in
  do* match found with
      | Some twofactor =>
         do* TwoFactor_delete twofactor in
         log_user_event UserDisabled2fa (u_uuid user) (h_device_type headers) (h_ip headers)
      | None => mret tt
      end in
  do* enforce_if_last_factor headers in
  mret (JObj [("enabled", JBool false); ("type", JNum type_); ("object", JStr "twoFactorProvider")]).
Definition disable_twofactor_put := disable_twofactor.

(** The job that tells users about logins that never presented a second factor. *)
Definition send_incomplete_2fa_notifications : M unit :=
  let* limit := conf incomplete_2fa_time_limit in
  let* mail := conf mail_enabled in
  if (limit <=? 0)%Z || negb mail then mret tt
  else
    let* t := ask now in
    let time_before := (t - minutes limit)%Z in
    let* incomplete_logins := TwoFactorIncomplete_find_logins_before time_before in
    for_each incomplete_logins (λ login,
      let* u := User_find_by_uuid (ti_user_uuid login) in
      let* user := mexpect u in
      mignore (
        do* send_mail (MailIncomplete2fa (u_email user) (ti_ip_address login) (ti_login_time login)
                        (ti_device_name login) (DeviceType_display (DeviceType_from_i32 (ti_device_type login)))) in
        TwoFactorIncomplete_delete login)).

(** ** authenticator.rs *)

Definition generate_authenticator (data : PasswordOrOtpData) (headers : Headers) : M Json :=
  let user := h_user headers in
  do* PasswordOrOtpData_validate data user false in
  let* twofactor := TwoFactor_find_by_user_and_type (u_uuid user) (TwoFactorType_to_i32 Authenticator) in
  let* (enabled, key) := match twofactor with
    | Some tf => mret (true, tf_data tf)
    | None => let* k := encode_random_bytes 20 encode_base32 in mret (false, k)
    end in
  mret (JObj [("enabled", JBool enabled); ("key", JStr key); ("object", JStr "twoFactorAuthenticator")]).

(** The time step tried at offset [step], and the time its code is computed
    for, as a [u64]. *)
Definition totp_time_step (current_timestamp step : Z) : Z := (Z.quot current_timestamp 30 + step)%Z.
Definition totp_time (current_timestamp step : Z) : Z := u64_wrap (current_timestamp + step * 30).

Definition totp_invalid {A} (ip : string) : M A :=
  let* msg := ask (λ e, "Invalid TOTP code! Server time: " +:+ format_utc e (now e) +:+ " IP: " +:+ ip) in
  err_event msg UserFailedLogIn2fa.

(** [for step in -steps..=steps]; the loop returns from its body. *)
Fixpoint totp_loop (decoded_secret : bytes) (totp_code ip : string) (twofactor : TwoFactor)
    (current_timestamp : Z) (window : list Z) : M unit :=
  match window with
  | [] => totp_invalid ip
  | step :: window =>
     let time_step := totp_time_step current_timestamp step in
     let* generated := ask (λ e, totp_custom e decoded_secret (totp_time current_timestamp step)) in
     if bool_decide (generated = totp_code) && (tf_last_used twofactor <? time_step)%Z then
       TwoFactor_save (twofactor <| tf_last_used := time_step |>)
     else if bool_decide (generated = totp_code) && (time_step <=? tf_last_used twofactor)%Z then
       totp_invalid ip
     else totp_loop decoded_secret totp_code ip twofactor current_timestamp window
  end.

Definition totp_window (c : Config) : list Z :=
  if authenticator_disable_time_drift c then [0%Z] else [(-1)%Z; 0%Z; 1%Z].

Definition validate_totp_code (user_id totp_code secret ip : string) : M unit :=
  let* decoded := ask (λ e, decode_base32 e secret) in
  let* decoded_secret := some_or_err decoded "Invalid TOTP secret" in
  let* found := TwoFactor_find_by_user_and_type user_id (TwoFactorType_to_i32 Authenticator) in
  let* twofactor := match found with
                    | Some tf => mret tf
                    | None => TwoFactor_new user_id Authenticator secret
                    end in
  let* window := conf totp_window in
  let* current_time := ask now in
  totp_loop decoded_secret totp_code ip twofactor (timestamp current_time) window.

Definition validate_totp_code_str (user_id totp_code secret ip : string) : M unit :=
  let* numeric := ask (λ e, str_is_numeric e totp_code) in
  do* ensure numeric "TOTP code is not a number" in
  validate_totp_code user_id totp_code secret ip.

Record EnableAuthenticatorData := mkEnableAuthenticatorData {
  en_key : string; en_token : NumberOrString; en_master_password_hash : option string; en_otp : option string }.

Definition activate_authenticator (data : EnableAuthenticatorData) (headers : Headers) : M Json :=
  let key := en_key data in
  let token := into_string (en_token data) in
  let user := h_user headers in
  do* PasswordOrOtpData_validate (mkPasswordOrOtpData (en_master_password_hash data) (en_otp data)) user true in
  let* decoded := ask (λ e, decode_base32 e key) in
  let* decoded_key := some_or_err decoded "Invalid totp secret" in
  do* ensure (bool_decide (length decoded_key = 20)) "Invalid key length" in
  let* upper := ask (λ e, str_to_uppercase e key) in
  do* validate_totp_code (u_uuid user) token upper (h_ip headers) in
  let* _ := generate_recover_code user in
  do* log_user_event UserUpdated2fa (u_uuid user) (h_device_type headers) (h_ip headers) in
  mret (JObj [("enabled", JBool true); ("key", JStr key); ("object", JStr "twoFactorAuthenticator")]).
Definition activate_authenticator_put := activate_authenticator.

Record DisableAuthenticatorData := mkDisableAuthenticatorData {
  da_key : string; da_master_password_hash : string; da_type : NumberOrString }.

Definition disable_authenticator (data : DisableAuthenticatorData) (headers : Headers) : M Json :=
  let user := h_user headers in
  let* type_ := into_i32 (da_type data) in
  let* valid := User_check_valid_password user (da_master_password_hash data) in
  do* ensure valid "Invalid password" in
  let* found := TwoFactor_find_by_user_and_type (u_uuid user) type_ in
  do* match found with
      | Some twofactor =>
         if bool_decide (tf_data twofactor = da_key data) then
           do* TwoFactor_delete twofactor in
           log_user_event UserDisabled2fa (u_uuid user) (h_device_type headers) (h_ip headers)
         else err ("TOTP key for user " +:+ u_email user +:+ " does not match recorded value, cannot deactivate")
      | None => mret tt
      end in
  do* enforce_if_last_factor headers in
  mret (JObj [("enabled", JBool false); ("keys", JNum type_); ("object", JStr "twoFactorProvider")]).
End two_factor.

(** ** email.rs *)

Record EmailTokenData := mkEmailTokenData {
  et_email : string; et_last_token : option string; et_token_sent : Z; et_attempts : Z }.
#[export] Instance eta_EmailTokenData : Eta EmailTokenData := λ r,
  mkEmailTokenData (et_email r) (et_last_token r) (et_token_sent r) (et_attempts r).

Definition EmailTokenData_new (email token : string) : M EmailTokenData :=
  let* t := ask now in mret (mkEmailTokenData email (Some token) (timestamp t) 0).
Definition EmailTokenData_set_token (d : EmailTokenData) (token : string) : M EmailTokenData :=
  let* t := ask now in
  mret (d <| et_last_token := Some token |> <| et_token_sent := timestamp t |>).
Definition EmailTokenData_reset_token (d : EmailTokenData) : EmailTokenData :=
  d <| et_last_token := None |> <| et_attempts := 0%Z |>.
Definition EmailTokenData_add_attempt (d : EmailTokenData) : EmailTokenData :=
  d <| et_attempts := saturating_add64 (et_attempts d) 1 |>.

Section email.
Context `{!Serde ProtectedActionData pa_stored, !Serde EmailTokenData id}.

Definition EmailTokenData_from_json (s : string) : M EmailTokenData :=
  some_or_err (from_json_str s) "Could not decode EmailTokenData from string".

Definition send_token (user_id : string) : M unit :=
  let* found := TwoFactor_find_by_user_and_type user_id (TwoFactorType_to_i32 Email) in
  let* twofactor := some_or_err found "Two factor not found" in
  let* size := conf email_token_size in
  let* generated_token := generate_email_token size in
  let* twofactor_data := EmailTokenData_from_json (tf_data twofactor) in
  let* twofactor_data := EmailTokenData_set_token twofactor_data generated_token in
  do* TwoFactor_save (twofactor <| tf_data := to_json_string twofactor_data |>) in
  let* token := some_or_err (et_last_token twofactor_data) "Token is empty" in
  send_mail (MailToken (et_email twofactor_data) token).

Definition check_limit_login (ip : string) : M unit :=
  let* ok := ask (λ e, login_allowed e ip) in
  if ok then mret tt else mfail (mkError "Too many login requests" 429 None None).

Record SendEmailLoginData := mkSendEmailLoginData {
  sl_device_identifier : option string; sl_email : option string; sl_master_password_hash : option string;
  sl_auth_request_id : option string; sl_auth_request_access_code : option string }.

(** [Some(x) if !x.is_empty() => Some(x), _ => None] *)
Definition non_empty (o : option string) : option string :=
  match o with Some x => if bool_decide (x = "") then None else Some x | None => None end.

Definition send_email_login (data : SendEmailLoginData) (client_device_type : Z) (client_ip : string) : M unit :=
  let* enabled := conf enable_email_2fa in
  do* ensure enabled "Email 2FA is disabled" in
  do* check_limit_login client_ip in
  let email := non_empty (sl_email data) in
  let master_password_hash := non_empty (sl_master_password_hash data) in
  let auth_request_id := non_empty (sl_auth_request_id data) in
  let* user := match email with
    | Some email =>
       let* found := User_find_by_mail email in
       let* user := some_or_err found "Username or password is incorrect. Try again." in
       do* match master_password_hash with
           | Some master_password_hash =>
              let* valid := User_check_valid_password user master_password_hash in
              ensure valid "Username or password is incorrect. Try again."
           | None =>
              match auth_request_id with
              | Some auth_request_id =>
                 let* found := AuthRequest_find_by_uuid auth_request_id in
                 let* auth_request := some_or_err found "AuthRequest doesn't exist" in
                 let* code := some_or_err (sl_auth_request_access_code data) "no auth request access code" in
                 ensure (negb (negb (ar_device_type auth_request =? client_device_type)%Z
                               || bool_decide (ar_request_ip auth_request ≠ client_ip)
                               || negb (AuthRequest_check_access_code auth_request code)))
                   "AuthRequest doesn't exist"
              | None => err "No password hash has been submitted."
              end
           end in
       mret user
    | None =>
       let* device_identifier := some_or_err (sl_device_identifier data) "No device identifier has been submitted." in
       let* found := User_find_by_device_for_email2fa device_identifier in
       some_or_err found "Username or password is incorrect. Try again."
    end in
  send_token (u_uuid user).

Definition get_email (data : PasswordOrOtpData) (headers : Headers) : M Json :=
  let user := h_user headers in
  do* PasswordOrOtpData_validate data user false in
  let* found := TwoFactor_find_by_user_and_type (u_uuid user) (TwoFactorType_to_i32 Email) in
  let* (enabled, mfa_email) := match found with
    | Some x => let* d := EmailTokenData_from_json (tf_data x) in mret (true, JStr (et_email d))
    | None => mret (false, JNull)
    end in
  mret (JObj [("email", mfa_email); ("enabled", JBool enabled); ("object", JStr "twoFactorEmail")]).

Record SendEmailData := mkSendEmailData {
  sd_email : string; sd_master_password_hash : option string; sd_otp : option string }.

Definition send_email (data : SendEmailData) (headers : Headers) : M unit :=
  let user := h_user headers in
  do* PasswordOrOtpData_validate (mkPasswordOrOtpData (sd_master_password_hash data) (sd_otp data)) user false in
  let* enabled := conf enable_email_2fa in
  do* ensure enabled "Email 2FA is disabled" in
  let* found := TwoFactor_find_by_user_and_type (u_uuid user) (TwoFactorType_to_i32 Email) in
  do* match found with Some tf => TwoFactor_delete tf | None => mret tt end in
  let* size := conf email_token_size in
  let* generated_token := generate_email_token size in
  let* twofactor_data := EmailTokenData_new (sd_email data) generated_token in
  let* twofactor := TwoFactor_new (u_uuid user) EmailVerificationChallenge (to_json_string twofactor_data) in
  do* TwoFactor_save twofactor in
  let* token := some_or_err (et_last_token twofactor_data) "Token is empty" in
  send_mail (MailToken (et_email twofactor_data) token).

Record EmailData := mkEmailData {
  ed_email : string; ed_token : string; ed_master_password_hash : option string; ed_otp : option string }.

Definition email (data : EmailData) (headers : Headers) : M Json :=
  let user := h_user headers in
  do* PasswordOrOtpData_validate (mkPasswordOrOtpData (ed_master_password_hash data) (ed_otp data)) user true in
  let* found := TwoFactor_find_by_user_and_type (u_uuid user) (TwoFactorType_to_i32 EmailVerificationChallenge) in
  let* twofactor := some_or_err found "Two factor not found" in
  let* email_data := EmailTokenData_from_json (tf_data twofactor) in
  let* issued_token := some_or_err (et_last_token email_data) "No token available" in
  do* ensure (ct_eq issued_token (ed_token data)) "Token is invalid" in
  let email_data := EmailTokenData_reset_token email_data in
  do* TwoFactor_save (twofactor <| tf_atype := TwoFactorType_to_i32 Email |>
                                <| tf_data := to_json_string email_data |>) in
  let* _ := generate_recover_code user in
  do* log_user_event UserUpdated2fa (u_uuid user) (h_device_type headers) (h_ip headers) in
  mret (JObj [("email", JStr (et_email email_data)); ("enabled", JStr "true"); ("object", JStr "twoFactorEmail")]).

Definition validate_email_code_str (user_id token data ip : string) : M unit :=
  let* email_data := EmailTokenData_from_json data in
  let* found := TwoFactor_find_by_user_and_type user_id (TwoFactorType_to_i32 Email) in
  let* twofactor := some_or_err found "Two factor not found" in
  match et_last_token email_data with
  | None => err_event ("No token available! IP: " +:+ ip) UserFailedLogIn2fa
  | Some issued_token =>
     if negb (ct_eq issued_token token) then
       let email_data := EmailTokenData_add_attempt email_data in
       let* limit := conf email_attempts_limit in
       let email_data := if (limit <=? et_attempts email_data)%Z
                         then EmailTokenData_reset_token email_data else email_data in
       do* TwoFactor_save (twofactor <| tf_data := to_json_string email_data |>) in
       err_event ("Token is invalid! IP: " +:+ ip) UserFailedLogIn2fa
     else
       let email_data := EmailTokenData_reset_token email_data in
       do* TwoFactor_save (twofactor <| tf_data := to_json_string email_data |>) in
       let* dt := mexpect (datetime_from_timestamp (et_token_sent email_data)) in
       let* expiration := conf email_expiration_time in
       let max_time := cast_signed64 expiration in
       let* delta := mexpect (try_seconds max_time) in
       let* expires := mexpect (checked_add_signed dt delta) in
       let* t := ask now in
       if (expires <? t)%Z then err_event "Token has expired" UserFailedLogIn2fa else mret tt
  end.

Definition activate_email_2fa (user : User) : M unit :=
  do* ensure (bool_decide (is_Some (u_verified_at user)))
    "Auto-enabling of email 2FA failed because the users email address has not been verified!" in
  let* twofactor_data := EmailTokenData_new (u_email user) "" in
  let* twofactor := TwoFactor_new (u_uuid user) Email (to_json_string twofactor_data) in
  TwoFactor_save twofactor.
Definition find_and_activate_email_2fa (user_id : string) : M unit :=
  let* found := User_find_by_uuid user_id in
  match found with
  | Some user => activate_email_2fa user
  | None => err "User not found!"
  end.

(** ** org_policy.rs: check_user_allowed *)

Definition OrgPolicy_check_user_allowed (m : Membership) (action : string) : M unit :=
  if i32_lt (m_atype m) MT_Admin && (MembershipStatus_to_i32 MS_Invited <? m_status m)%Z then
    let* p := OrgPolicy_find_by_org_and_type (m_org_uuid m) TwoFactorAuthentication in
    do* match p with
        | Some p =>
           if p_enabled p then
             let* tfs := TwoFactor_find_by_user (m_user_uuid m) in
             if bool_decide (tfs = []) then
               let* fallback := conf email_2fa_auto_fallback in
               if fallback then find_and_activate_email_2fa (m_user_uuid m)
               else err ("Cannot " +:+ action +:+ " because 2FA is required (membership " +:+ m_uuid m +:+ ")")
             else mret tt
           else mret tt
        | None => mret tt
        end in
    let* applicable := OrgPolicy_is_applicable_to_user (m_user_uuid m) SingleOrg (Some (m_org_uuid m)) in
    do* ensure (negb applicable) ("Cannot " +:+ action +:+
      " because another organization policy forbids it (membership " +:+ m_uuid m +:+ ")") in
    let* p := OrgPolicy_find_by_org_and_type (m_org_uuid m) SingleOrg in
    match p with
    | Some p =>
       if p_enabled p then
         let* n := Membership_count_accepted_and_confirmed_by_user (m_user_uuid m) (m_org_uuid m) in
         ensure (negb (0 <? n)) ("Cannot " +:+ action +:+
           " because the organization policy forbids being part of other organization (membership "
           +:+ m_uuid m +:+ ")")
       else mret tt
    | None => mret tt
    end
  else mret tt.
End email.

(** ** obscure_email *)

(** [rsplitn(2, '@')]: the parts before and after the last at sign. *)
Definition rsplit_at (s : str) : option (str * str) :=
  match split_once (Z.eqb 64) (rev s) with
  | Some (domain, name) => Some (rev name, rev domain)
  | None => None
  end.
(** [String::truncate(2)] panics unless byte 2 is a character boundary. *)
Definition truncate2 (s : str) : option str :=
  match s with
  | a :: b :: _ => if (a <? 128)%Z && (b <? 128)%Z then Some [a; b]
                   else if Nat.eqb (utf8_char_len a) 2 then Some [a] else None
  | [a] => if Nat.leb (utf8_char_len a) 2 then Some [a] else None
  | [] => Some []
  end.
Definition stars (n : nat) : str := replicate n 42%Z.
(** With an empty name the subtraction [name_size - 2] panics, or wraps to a
    capacity that panics. *)
Definition obscure_email (email : str) : res unit str :=
  let? (name, domain) := expect (rsplit_at email) in
  let name_size := length name in
  let? new_name :=
    if (1 <=? name_size) && (name_size <=? 3) then Ok (stars name_size)
    else if Nat.ltb name_size 2 then Panic
    else let? name := expect (truncate2 name) in Ok (name ++ stars (name_size - 2)) in
  Ok (new_name ++ 64%Z :: domain).
