(* ===== verification/TotpReplay.v ===== *)
(** * Two-factor rows and the authenticator app

    Theorems about [TwoFactor]: saving a row under the three database backends,
    the uniqueness of a user's factors, and the time-based codes of an
    authenticator app, which are accepted only within one step of the server's
    clock and never twice. *)

From Stdlib Require Import Sorted.
From stdpp Require Import base strings numbers pretty gmap list.
From S2P Require Import Prelude Store Users Orgs AuthRequests TwoFactor.

(** ** The table *)

(** Rows sit under their identifier, and a user has at most one row per type. *)
Record twofactor_wf (t : gmap string TwoFactor) : Prop := {
  tf_keyed : ∀ k r, t !! k = Some r → tf_uuid r = k;
  tf_unique : ∀ k1 k2 r1 r2, t !! k1 = Some r1 → t !! k2 = Some r2 →
    tf_user_uuid r1 = tf_user_uuid r2 → tf_atype r1 = tf_atype r2 → r1 = r2;
}.

Lemma same_slot_true a b :
  TwoFactor_same_slot a b = true ↔ tf_user_uuid a = tf_user_uuid b ∧ tf_atype a = tf_atype b.
Proof. unfold TwoFactor_same_slot. by rewrite andb_true_iff, bool_decide_eq_true, Z.eqb_eq. Qed.

Lemma find_twofactor_Some t u a r :
  find_twofactor u a t = Some r → tf_user_uuid r = u ∧ tf_atype r = a ∧ ∃ k, t !! k = Some r.
Proof.
  intros Hf. apply first_Some in Hf as [Hp Hk].
  rewrite andb_true_iff, bool_decide_eq_true, Z.eqb_eq in Hp. naive_solver.
Qed.
Lemma find_twofactor_None t u a :
  find_twofactor u a t = None ↔ ∀ k r, t !! k = Some r → ¬ (tf_user_uuid r = u ∧ tf_atype r = a).
Proof.
  unfold find_twofactor. rewrite first_None. split; intros H k r Hk; specialize (H k r Hk).
  - intros [<- <-]. by rewrite bool_decide_true, Z.eqb_refl in H.
  - apply not_true_iff_false. by rewrite andb_true_iff, bool_decide_eq_true, Z.eqb_eq.
Qed.
Lemma find_twofactor_iff t u a r :
  twofactor_wf t →
  find_twofactor u a t = Some r ↔ (∃ k, t !! k = Some r) ∧ tf_user_uuid r = u ∧ tf_atype r = a.
Proof.
  intros Hwf. split; [intros Hf; apply find_twofactor_Some in Hf; naive_solver|].
  intros ([k Hk] & Hu & Ha). destruct (find_twofactor u a t) as [r'|] eqn:E.
  - apply find_twofactor_Some in E as (Hu' & Ha' & k' & Hk'). f_equal.
    eapply (tf_unique _ Hwf); [exact Hk'|exact Hk|congruence..].
  - rewrite find_twofactor_None in E. naive_solver.
Qed.

(** What is left of the table after a save. *)
Lemma lookup_replace_into r t k x :
  replace_into_twofactor r t !! k = Some x ↔
  k = tf_uuid r ∧ x = r ∨
  k ≠ tf_uuid r ∧ t !! k = Some x ∧ tf_uuid x ≠ tf_uuid r ∧
    ¬ (tf_user_uuid x = tf_user_uuid r ∧ tf_atype x = tf_atype r).
Proof.
  unfold replace_into_twofactor. rewrite lookup_insert_Some, lookup_delete_where, bind_Some.
  split; [intros [[<- <-]|(Hne & y & Hy & Hif)]|intros [[-> ->]|(Hne & Hx & Hu & Hs)]].
  - by left.
  - right. destruct (_ || _) eqn:E; [done|]. simplify_eq. apply orb_false_iff in E as [E1 E2].
    apply bool_decide_eq_false in E1. apply not_true_iff_false in E2. rewrite same_slot_true in E2.
    naive_solver.
  - by left.
  - right. split; [congruence|]. exists x. split; [done|].
    rewrite bool_decide_false by done. simpl. destruct (TwoFactor_same_slot r x) eqn:E; [|done].
    apply same_slot_true in E. naive_solver.
Qed.

Lemma replace_into_wf r t : twofactor_wf t → twofactor_wf (replace_into_twofactor r t).
Proof.
  intros Hwf. split.
  - intros k x. rewrite lookup_replace_into. intros [[-> ->]|(_ & Hx & _)]; [done|]. by apply (tf_keyed _ Hwf).
  - intros k1 k2 r1 r2 H1 H2 Hu Ha. apply lookup_replace_into in H1, H2.
    destruct H1 as [[-> ->]|(? & ? & ? & Hs1)], H2 as [[-> ->]|(? & ? & ? & Hs2)]; [done|exfalso; eauto..|].
    eapply (tf_unique _ Hwf); eauto.
Qed.
Lemma delete_wf k t : twofactor_wf t → twofactor_wf (delete k t).
Proof.
  intros Hwf. split.
  - intros k' x [_ Hx]%lookup_delete_Some. by apply (tf_keyed _ Hwf).
  - intros k1 k2 r1 r2 [_ H1]%lookup_delete_Some [_ H2]%lookup_delete_Some. by apply (tf_unique _ Hwf k1 k2).
Qed.
Lemma upsert_eq_replace_into r t : twofactor_wf t → upsert_twofactor r t = replace_into_twofactor r t.
Proof.
  intros Hwf. assert (upsert_twofactor r t = <[tf_uuid r := r]> (delete_where (TwoFactor_same_slot r) t)) as ->.
  { unfold upsert_twofactor. destruct (_ !! _) as [y|] eqn:E; [|done].
    apply map_eq. intros k. destruct (decide (k = tf_uuid r)) as [->|Hne].
    - by rewrite lookup_alter_eq, lookup_insert_eq, E.
    - by rewrite lookup_alter_ne, lookup_insert_ne by done. }
  apply map_eq. intros k. apply option_eq. intros x. rewrite lookup_replace_into, lookup_insert_Some.
  rewrite lookup_delete_where, bind_Some. split.
  - intros [[<- <-]|(Hne & y & Hy & Hif)]; [by left|]. right. destruct (TwoFactor_same_slot r y) eqn:E; [done|].
    simplify_eq. apply not_true_iff_false in E. rewrite same_slot_true in E.
    rewrite (tf_keyed _ Hwf _ _ Hy). naive_solver.
  - intros [[-> ->]|(Hne & Hx & Hu & Hs)]; [by left|]. right. split; [congruence|]. exists x. split; [done|].
    destruct (TwoFactor_same_slot r x) eqn:E; [|done]. apply same_slot_true in E. naive_solver.
Qed.
Lemma find_replace_into_eq r t : find_twofactor (tf_user_uuid r) (tf_atype r) (replace_into_twofactor r t) = Some r.
Proof.
  apply (first_unique _ _ (tf_uuid r)).
  - apply lookup_replace_into. by left.
  - by rewrite bool_decide_true, Z.eqb_refl.
  - intros k x Hx Hp. rewrite andb_true_iff, bool_decide_eq_true, Z.eqb_eq in Hp.
    apply lookup_replace_into in Hx as [[_ ->]|(_ & _ & _ & Hs)]; naive_solver.
Qed.
(** Another slot keeps its row, provided the saved row was not stored there. *)
Lemma find_replace_into_ne r t u a :
  twofactor_wf t → ¬ (u = tf_user_uuid r ∧ a = tf_atype r) →
  (∀ x, t !! tf_uuid r = Some x → ¬ (tf_user_uuid x = u ∧ tf_atype x = a)) →
  find_twofactor u a (replace_into_twofactor r t) = find_twofactor u a t.
Proof.
  intros Hwf Hne Hx. apply option_eq. intros y.
  rewrite !find_twofactor_iff by (done || by apply replace_into_wf). split.
  - intros ([k Hk] & Hu & Ha). apply lookup_replace_into in Hk. naive_solver.
  - intros ([k Hk] & Hu & Ha). split; [|done]. exists k. apply lookup_replace_into. right.
    assert (k ≠ tf_uuid r) by (intros ->; naive_solver). rewrite (tf_keyed _ Hwf _ _ Hk). naive_solver.
Qed.

(** ** Properties of the table *)

(** Saving a two-factor row.  On a well-formed table sqlite's and mysql's
    REPLACE and postgresql's delete-and-upsert give the same table; it is
    well-formed again, so a user never has two rows of one type; the saved row
    is the one found for its user and type; and the row of any other user or
    type is still found, unless it was the stored version of the saved row. *)
Theorem TwoFactor_save_spec e w r :
  twofactor_wf (twofactor (db w)) →
  ∃ w', TwoFactor_save r e w = (Ok tt, w') ∧
    twofactor (db w') = upsert_twofactor r (twofactor (db w)) ∧
    twofactor_wf (twofactor (db w')) ∧
    find_twofactor (tf_user_uuid r) (tf_atype r) (twofactor (db w')) = Some r ∧
    (∀ u a, (u, a) ≠ (tf_user_uuid r, tf_atype r) →
       (∀ x, twofactor (db w) !! tf_uuid r = Some x → (tf_user_uuid x, tf_atype x) ≠ (u, a)) →
       find_twofactor u a (twofactor (db w')) = find_twofactor u a (twofactor (db w))).
Proof.
  intros Hwf. eexists. split; [reflexivity|]. simpl. rewrite upsert_eq_replace_into by done.
  split; [done|]. split; [by apply replace_into_wf|]. split; [by apply find_replace_into_eq|].
  intros u a Hne Hx. apply find_replace_into_ne; [done|naive_solver|]. intros x Hk [<- <-]. by eapply Hx.
Qed.

(** ** Codes of an authenticator app *)

Definition totp_error (e : Env) (ip : string) : Error :=
  with_event UserFailedLogIn2fa
    (new_msg ("Invalid TOTP code! Server time: " +:+ format_utc e (now e) +:+ " IP: " +:+ ip)).

(** The first offset of the window whose code is the given one. *)
Definition totp_hit (e : Env) (secret : bytes) (code : string) (ts : Z) (window : list Z) : option Z :=
  head (filter (λ s, totp_custom e secret (totp_time ts s) = code) window).

Lemma totp_loop_spec sec code ip tf ts window e w :
  totp_loop sec code ip tf ts window e w =
  match totp_hit e sec code ts window with
  | Some s => if (tf_last_used tf <? totp_time_step ts s)%Z
              then TwoFactor_save (tf <| tf_last_used := totp_time_step ts s |>) e w
              else (Err (totp_error e ip), w)
  | None => (Err (totp_error e ip), w)
  end.
Proof.
  unfold totp_hit. induction window as [|s window IH]; [done|].
  simpl totp_loop. unfold mbind at 1, ask at 1. cbv beta iota.
  rewrite filter_cons. case_decide as Hs.
  - rewrite (bool_decide_true _ Hs). simpl. rewrite Z.leb_antisym. by destruct (_ <? _)%Z.
  - rewrite (bool_decide_false _ Hs). simpl. exact IH.
Qed.

(** The row a check starts from: the user's authenticator, or a new one holding
    the secret. *)
Definition totp_row (e : Env) (w : World) (user secret : string) : TwoFactor :=
  default (mkTwoFactor (uuid_at e (tick w)) user (TwoFactorType_to_i32 Authenticator) true secret 0)
    (find_twofactor user (TwoFactorType_to_i32 Authenticator) (twofactor (db w))).

Lemma totp_row_slot e w user secret :
  tf_user_uuid (totp_row e w user secret) = user ∧ tf_atype (totp_row e w user secret) = 0%Z.
Proof.
  unfold totp_row. destruct (find_twofactor _ _ _) as [r|] eqn:E; [|done].
  apply find_twofactor_Some in E. naive_solver.
Qed.

(** The run of a check, with the loop resolved. *)
Lemma validate_totp_code_run user code secret ip e w :
  ∃ w1, twofactor (db w1) = twofactor (db w) ∧
  validate_totp_code user code secret ip e w =
  match decode_base32 e secret with
  | None => (Err (new_msg "Invalid TOTP secret"), w)
  | Some sec =>
     match totp_hit e sec code (timestamp (now e)) (totp_window (cfg e)) with
     | Some s => if (tf_last_used (totp_row e w user secret) <? totp_time_step (timestamp (now e)) s)%Z
                 then TwoFactor_save ((totp_row e w user secret)
                        <| tf_last_used := totp_time_step (timestamp (now e)) s |>) e w1
                 else (Err (totp_error e ip), w1)
     | None => (Err (totp_error e ip), w1)
     end
  end.
Proof.
  unfold validate_totp_code, totp_row. unfold mbind at 1, ask at 1. cbv beta iota.
  destruct (decode_base32 e secret) as [sec|]; [|by exists w].
  unfold mbind, some_or_err, mret, TwoFactor_find_by_user_and_type, query. cbv beta iota.
  destruct (find_twofactor _ _ _) as [tf|].
  - exists w. split; [done|]. cbv [conf ask]. by rewrite totp_loop_spec.
  - exists (w <| tick := S (tick w) |>). split; [done|]. cbv [TwoFactor_new get_uuid next mbind mret conf ask].
    by rewrite totp_loop_spec.
Qed.

(** A step accepted by the check: within one of the current one (or equal to it
    when drift is disabled), and its code is the given one. *)
Definition totp_step_ok (e : Env) (secret : bytes) (code : string) (step : Z) : Prop :=
  ∃ s, (if authenticator_disable_time_drift (cfg e) then s = 0%Z else (-1 ≤ s ≤ 1)%Z) ∧
    step = (timestamp (now e) `quot` 30 + s)%Z ∧
    totp_custom e secret (u64_wrap (timestamp (now e) + s * 30)) = code.

Lemma elem_of_totp_window c s :
  s ∈ totp_window c ↔ if authenticator_disable_time_drift c then s = 0%Z else (-1 ≤ s ≤ 1)%Z.
Proof.
  unfold totp_window. destruct (authenticator_disable_time_drift c); rewrite !elem_of_cons, elem_of_nil; lia.
Qed.

Lemma totp_hit_Some e sec code ts window s :
  totp_hit e sec code ts window = Some s → s ∈ window ∧ totp_custom e sec (totp_time ts s) = code.
Proof.
  unfold totp_hit. intros Hh.
  assert (s ∈ filter (λ s, totp_custom e sec (totp_time ts s) = code) window) as Hin.
  { destruct (filter _ window); [done|]. simpl in Hh. simplify_eq. by left. }
  apply list_elem_of_filter in Hin. naive_solver.
Qed.

(** The outcome of a check. *)
Lemma validate_totp_code_outcome user code secret ip e w :
  twofactor_wf (twofactor (db w)) →
  let row := totp_row e w user secret in
  ∃ r w', validate_totp_code user code secret ip e w = (r, w') ∧
  match r with
  | Ok _ => ∃ sec step, decode_base32 e secret = Some sec ∧ totp_step_ok e sec code step ∧
      (tf_last_used row < step)%Z ∧ twofactor_wf (twofactor (db w')) ∧
      find_twofactor user 0 (twofactor (db w')) = Some (row <| tf_last_used := step |>)
  | Err _ => twofactor (db w') = twofactor (db w) ∧
      ∀ sec, decode_base32 e secret = Some sec →
        (∀ step, ¬ totp_step_ok e sec code step) ∨
        ∃ step, totp_step_ok e sec code step ∧ (step ≤ tf_last_used row)%Z
  | Panic => False
  end.
Proof.
  intros Hwf row. destruct (validate_totp_code_run user code secret ip e w) as (w1 & Hw1 & ->). fold row.
  destruct (decode_base32 e secret) as [sec|] eqn:Hd; [|by eexists _, _].
  destruct (totp_hit _ _ _ _ _) as [s|] eqn:Hh.
  - pose proof (totp_hit_Some _ _ _ _ _ _ Hh) as [Hs Hc]. destruct (_ <? _)%Z eqn:Hlt.
    + apply Z.ltb_lt in Hlt. eexists _, _. split; [reflexivity|]. exists sec, (totp_time_step (timestamp (now e)) s).
      simpl. rewrite Hw1. split_and!; [done|exists s; by rewrite <- elem_of_totp_window|done|by apply replace_into_wf|].
      destruct (totp_row_slot e w user secret) as [Hu Ha].
      pose proof (find_replace_into_eq (row <| tf_last_used := totp_time_step (timestamp (now e)) s |>)
        (twofactor (db w))) as Hf.
      change (find_twofactor (tf_user_uuid (totp_row e w user secret)) (tf_atype (totp_row e w user secret))
        (replace_into_twofactor (row <| tf_last_used := totp_time_step (timestamp (now e)) s |>) (twofactor (db w)))
        = Some (row <| tf_last_used := totp_time_step (timestamp (now e)) s |>)) in Hf.
      by rewrite Hu, Ha in Hf.
    + apply Z.ltb_ge in Hlt. eexists _, _. split; [reflexivity|]. split; [done|].
      intros sec' [= <-]. right. eexists. split; [exists s; by rewrite <- elem_of_totp_window|]. done.
  - eexists _, _. split; [reflexivity|]. split; [done|]. intros sec' [= <-]. left. intros step (s & Hs & _ & Hc).
    unfold totp_hit in Hh. destruct (filter _ _) as [|x l] eqn:E; [|done].
    assert (s ∈ filter (λ s, totp_custom e sec (totp_time (timestamp (now e)) s) = code) (totp_window (cfg e))) as Hin
      by (apply list_elem_of_filter; by rewrite elem_of_totp_window). rewrite E in Hin. by apply elem_of_nil in Hin.
Qed.

(** Checking a code of an authenticator app.  When it succeeds, the code
    is the one of a time step within one of the server's clock (exactly the
    current step when drift is disabled) and later than the last step used;
    that step is recorded as used in the user's row, whose secret does not
    change; the table stays well-formed.  When it fails, the code is no code of
    the window, or the earliest step it belongs to has been used, or the secret
    is not base32, and the table is unchanged.  It never panics. *)
Theorem validate_totp_code_spec user code secret ip e w :
  twofactor_wf (twofactor (db w)) →
  let row := totp_row e w user secret in
  ∃ r w', validate_totp_code user code secret ip e w = (r, w') ∧
  match r with
  | Ok _ => ∃ sec step, decode_base32 e secret = Some sec ∧ totp_step_ok e sec code step ∧
      (tf_last_used row < step)%Z ∧ twofactor_wf (twofactor (db w')) ∧
      find_twofactor user 0 (twofactor (db w')) = Some (row <| tf_last_used := step |>)
  | Err _ => twofactor (db w') = twofactor (db w) ∧
      ∀ sec, decode_base32 e secret = Some sec →
        (∀ step, ¬ totp_step_ok e sec code step) ∨
        ∃ step, totp_step_ok e sec code step ∧ (step ≤ tf_last_used row)%Z
  | Panic => False
  end.
Proof. apply validate_totp_code_outcome. Qed.

(** A user's attempts, each with its surroundings, code and address, one after
    the other; the result lists the steps recorded by the accepted ones. *)
Definition last_used_of (user : string) (w : World) : Z :=
  from_option tf_last_used 0%Z (find_twofactor user 0 (twofactor (db w))).
Fixpoint totp_session (user secret : string) (attempts : list (Env * string * string)) (w : World) : list Z * World :=
  match attempts with
  | [] => ([], w)
  | (e, code, ip) :: attempts =>
     match validate_totp_code user code secret ip e w with
     | (Ok _, w) => let '(steps, w') := totp_session user secret attempts w in (last_used_of user w :: steps, w')
     | (_, w) => totp_session user secret attempts w
     end
  end.

Lemma last_used_row e w user secret : tf_last_used (totp_row e w user secret) = last_used_of user w.
Proof. unfold totp_row, last_used_of. by destruct (find_twofactor _ _ _). Qed.

(** C35: no code of an authenticator app is accepted twice.  Over any series of
    attempts, at whatever times and from whatever addresses, the steps accepted
    strictly increase, and all exceed the last step used before; as a code is
    accepted for the one step recorded, entering it again is refused until its
    step would have to repeat. *)
Theorem totp_no_replay user secret attempts w :
  twofactor_wf (twofactor (db w)) →
  StronglySorted Z.lt (last_used_of user w :: (totp_session user secret attempts w).1).
Proof.
  revert w. induction attempts as [|[[e code] ip] attempts IH]; intros w Hwf; simpl; [by repeat constructor|].
  destruct (validate_totp_code_outcome user code secret ip e w Hwf) as (r & w' & -> & Hr).
  rewrite last_used_row in Hr. destruct r as [[]|x|]; [| |done].
  - destruct Hr as (sec & step & _ & _ & Hlt & Hwf' & Hf). specialize (IH w' Hwf').
    destruct (totp_session user secret attempts w') as [steps w2]. simpl in IH |- *.
    assert (last_used_of user w' = step) as Hl by (unfold last_used_of; by rewrite Hf).
    pose proof (StronglySorted_inv IH) as [Hs Hall]. constructor; [done|]. constructor; [lia|].
    eapply Forall_impl; [exact Hall|]. simpl. intros; lia.
  - destruct Hr as [Hsame _]. assert (last_used_of user w = last_used_of user w') as ->
      by (unfold last_used_of; by rewrite Hsame). apply IH. by rewrite Hsame.
Qed.

(** ** Activating an authenticator app *)

(** Deleting the row of one slot keeps what is found for another. *)
Lemma find_delete_ne r t u a k :
  twofactor_wf t → t !! k = Some r → ¬ (tf_user_uuid r = u ∧ tf_atype r = a) →
  find_twofactor u a (delete (tf_uuid r) t) = find_twofactor u a t.
Proof.
  intros Hwf Hr Hne. apply option_eq. intros y. rewrite !find_twofactor_iff by (done || by apply delete_wf).
  rewrite (tf_keyed _ Hwf _ _ Hr). split; intros ([k' Hk'] & Hu & Ha); (split; [|done]); exists k'.
  - by apply lookup_delete_Some in Hk' as [_ ?].
  - apply lookup_delete_Some. split; [|done]. intros ->. naive_solver.
Qed.

Section activation.
Context `{!Serde ProtectedActionData pa_stored}.

(** Proving one's identity by password or by mailed code leaves the user's
    authenticator alone. *)
Lemma wp_validate_authenticator d user del e w :
  twofactor_wf (twofactor (db w)) →
  wp (PasswordOrOtpData_validate d user del) e w (λ _ w', twofactor_wf (twofactor (db w')) ∧
    find_twofactor (u_uuid user) 0 (twofactor (db w')) = find_twofactor (u_uuid user) 0 (twofactor (db w))).
Proof.
  intros Hwf. unfold PasswordOrOtpData_validate. destruct (po_master_password_hash d), (po_otp d); try done.
  { unfold User_check_valid_password, verify_password_hash. by wp_go. }
  unfold validate_protected_action_otp, TwoFactor_find_by_user_and_type, ProtectedActionData_from_json,
    ProtectedActionData_time_since_sent, TwoFactor_save, TwoFactor_delete.
  wp_go; try done; apply find_twofactor_Some in Ho as (Hu & Ha & k & Hk); cbn [db twofactor setf];
    (split; [first [by apply replace_into_wf|by apply delete_wf]|]).
  - apply (find_delete_ne _ _ _ _ k Hwf Hk). rewrite Ha. by intros [_ ?].
  - apply find_replace_into_ne; [done|cbn [tf_atype setf]; rewrite Ha; by intros [_ ?]|].
    intros x Hx [_ Hx2]. rewrite <- (tf_keyed _ Hwf _ _ Hk) in Hk.
    change (twofactor (db w) !! tf_uuid a = Some x) in Hx. rewrite Hk in Hx. simplify_eq. by rewrite Ha in Hx2.
  - apply (find_delete_ne _ _ _ _ k Hwf Hk). rewrite Ha. by intros [_ ?].
Qed.

(** Activating an authenticator app.  When it succeeds, the answer reports
    the key of the request as enabled; but the secret stored for the user is
    that key, in upper case, only if there was no authenticator before:
    otherwise the secret stored earlier is kept, and the reported key is not
    the one logins are checked against. *)
Theorem activate_authenticator_stored_secret data headers e w j w' :
  twofactor_wf (twofactor (db w)) → activate_authenticator data headers e w = (Ok j, w') →
  json_get "key" j = Some (JStr (en_key data)) ∧
  tf_data <$> find_twofactor (u_uuid (h_user headers)) 0 (twofactor (db w')) =
    Some (from_option tf_data (str_to_uppercase e (en_key data))
      (find_twofactor (u_uuid (h_user headers)) 0 (twofactor (db w)))).
Proof.
  intros Hwf Hrun. enough (wp (activate_authenticator data headers) e w (λ r w', r = Ok j →
    json_get "key" j = Some (JStr (en_key data)) ∧
    tf_data <$> find_twofactor (u_uuid (h_user headers)) 0 (twofactor (db w')) =
      Some (from_option tf_data (str_to_uppercase e (en_key data))
        (find_twofactor (u_uuid (h_user headers)) 0 (twofactor (db w)))))) as Hwp
    by (by apply (wp_run _ _ _ _ Hwp _ _ Hrun)).
  unfold activate_authenticator. cbv zeta. apply wp_bind.
  eapply wp_mono; [by apply wp_validate_authenticator|]. intros [[]|x|] w1; [|done..].
  intros [Hwf1 <-]. simpl. wp_step. wp_step. wp_step. wp_step. wp_step; [|done]. wp_step. wp_step. wp_step; [|done].
  do 4 wp_step. wp_step. apply wp_intro. intros r w2 Hv.
  destruct (validate_totp_code_outcome (u_uuid (h_user headers)) (into_string (en_token data))
    (str_to_uppercase e (en_key data)) (h_ip headers) e w1 Hwf1) as (r' & w2' & Hv' & Hr). rewrite Hv in Hv'. simplify_eq.
  destruct r' as [[]|x|]; [|done..]. destruct Hr as (sec & step & _ & _ & _ & _ & Hf). simpl.
  wp_step. apply (wp_keeps twofactor); [unfold generate_recover_code, User_save; solve_keeps|].
  intros [user|x|] w3 Hw3; [|done..]. simpl. wp_step.
  apply (wp_keeps twofactor); [auto with frame|]. intros [[]|x|] w4 Hw4; [|done..]. simpl. wp_step.
  intros [= <-]. split; [done|]. rewrite Hw4, Hw3, Hf. unfold totp_row. by destruct (find_twofactor _ _ (twofactor (db w1))).
Qed.
End activation.

(** ** Examples *)

#[export] Instance ProtectedActionData_eq_dec : EqDecision ProtectedActionData.
Proof. solve_decision. Defined.
#[export] Instance ProtectedActionData_countable : Countable ProtectedActionData :=
  inj_countable' (λ x, (pa_token x, pa_token_sent x, pa_attempts x))
    (λ '(a, b, c), mkProtectedActionData a b c) (λ x, match x with mkProtectedActionData _ _ _ => eq_refl end).

Module ToyTwoFactor.
Import ToyEnv ToyUsers.
#[export] Instance toy_pa_serde : Serde ProtectedActionData pa_stored := toy_serde pa_stored.

Definition toy_row (id user : string) (atype : Z) (data : string) : TwoFactor :=
  mkTwoFactor id user atype true data 0.
Definition toy_tf_world (r : TwoFactor) : World :=
  mkWorld ((db toy_world) <| twofactor := {[tf_uuid r := r]} |>) 100 [] ∅ ∅.

Lemma toy_tf_wf r : twofactor_wf (twofactor (db (toy_tf_world r))).
Proof.
  split; simpl.
  - intros k x [<- <-]%lookup_singleton_Some. done.
  - intros k1 k2 r1 r2 [_ <-]%lookup_singleton_Some [_ <-]%lookup_singleton_Some. done.
Qed.
Definition toy_headers : Headers := mkHeaders (toy_user "alice") 9 "127.0.0.1" "host".
End ToyTwoFactor.
Import ToyEnv ToyUsers ToyTwoFactor.

Lemma TwoFactor_save_spec_witness :
  ∃ w', TwoFactor_save (toy_row "t2" "alice" 1 "x") (toy_env 0) (toy_tf_world (toy_row "t1" "alice" 0 "y")) = (Ok tt, w') ∧
    find_twofactor "alice" 1 (twofactor (db w')) = Some (toy_row "t2" "alice" 1 "x").
Proof.
  destruct (TwoFactor_save_spec (toy_env 0) (toy_tf_world (toy_row "t1" "alice" 0 "y")) (toy_row "t2" "alice" 1 "x"))
    as (w' & Hrun & _ & _ & Hf & _); [apply toy_tf_wf|]. by exists w'.
Defined.

Lemma validate_totp_code_spec_witness :
  ∃ w', validate_totp_code "alice" "10" "secret" "ip" (toy_env (seconds 305)) (toy_tf_world (toy_row "t1" "alice" 0 "secret"))
        = (Ok tt, w') ∧
    find_twofactor "alice" 0 (twofactor (db w')) = Some ((toy_row "t1" "alice" 0 "secret") <| tf_last_used := 10%Z |>).
Proof.
  destruct (validate_totp_code_spec "alice" "10" "secret" "ip" (toy_env (seconds 305))
    (toy_tf_world (toy_row "t1" "alice" 0 "secret")) (toy_tf_wf _)) as (r & w' & Hrun & Hr).
  assert (r = Ok tt) as ->.
  { transitivity (validate_totp_code "alice" "10" "secret" "ip" (toy_env (seconds 305))
      (toy_tf_world (toy_row "t1" "alice" 0 "secret"))).1; [by rewrite Hrun|]. by vm_compute. }
  exists w'. split; [exact Hrun|].
  transitivity (find_twofactor "alice" 0 (twofactor (db (validate_totp_code "alice" "10" "secret" "ip" (toy_env (seconds 305))
      (toy_tf_world (toy_row "t1" "alice" 0 "secret"))).2))); [by rewrite Hrun|]. by vm_compute.
Defined.

(** The code of step 10 is accepted once. *)
Definition toy_attempts : list (Env * string * string) :=
  [(toy_env (seconds 305), "10", "a"); (toy_env (seconds 306), "10", "b"); (toy_env (seconds 310), "11", "a")].
Lemma totp_no_replay_witness :
  StronglySorted Z.lt (last_used_of "alice" (toy_tf_world (toy_row "t1" "alice" 0 "secret"))
    :: (totp_session "alice" "secret" toy_attempts (toy_tf_world (toy_row "t1" "alice" 0 "secret"))).1) ∧
  (totp_session "alice" "secret" toy_attempts (toy_tf_world (toy_row "t1" "alice" 0 "secret"))).1 = [10; 11]%Z.
Proof. split; [|by vm_compute]. apply totp_no_replay, toy_tf_wf. Defined.

(** A new key is reported while the old secret stays stored. *)
Lemma activate_authenticator_stored_secret_witness :
  ∃ j w', activate_authenticator
      (mkEnableAuthenticatorData "NEWNEWNEWNEWNEWNEWNE" (NString "10") (Some "pw") None) toy_headers
      (toy_env (seconds 305)) (toy_tf_world (toy_row "t1" "alice" 0 "OLD")) = (Ok j, w') ∧
    json_get "key" j = Some (JStr "NEWNEWNEWNEWNEWNEWNE") ∧
    tf_data <$> find_twofactor "alice" 0 (twofactor (db w')) = Some "OLD".
Proof.
  do 2 eexists. split; [vm_compute; reflexivity|].
  eapply (activate_authenticator_stored_secret
    (mkEnableAuthenticatorData "NEWNEWNEWNEWNEWNEWNE" (NString "10") (Some "pw") None) toy_headers
    (toy_env (seconds 305)) (toy_tf_world (toy_row "t1" "alice" 0 "OLD"))); [apply toy_tf_wf|].
  vm_compute. reflexivity.
Defined.
