(* ===== verification/OneTimeCodes.v ===== *)
(** * One-time codes sent by mail

    The codes of email two-factor login and of protected actions.  Each check
    is shown to refine a small step function on the decoded record; from the
    step function follow the limits on guessing and on reuse for every series
    of attempts. *)

From stdpp Require Import base strings numbers pretty gmap list.
From S2P Require Import Prelude Store Users Orgs AuthRequests TwoFactor TotpReplay.

(** Replacing the data of a found row. *)
Lemma find_replace_data t u a r s :
  twofactor_wf t → find_twofactor u a t = Some r →
  twofactor_wf (replace_into_twofactor (r <| tf_data := s |>) t) ∧
  find_twofactor u a (replace_into_twofactor (r <| tf_data := s |>) t) = Some (r <| tf_data := s |>).
Proof.
  intros Hwf Hf. apply find_twofactor_Some in Hf as (<- & <- & _).
  split; [by apply replace_into_wf|]. pose proof (find_replace_into_eq (r <| tf_data := s |>) t) as E. exact E.
Qed.
Lemma find_delete_row t u a r :
  twofactor_wf t → find_twofactor u a t = Some r →
  twofactor_wf (delete (tf_uuid r) t) ∧ find_twofactor u a (delete (tf_uuid r) t) = None.
Proof.
  intros Hwf Hf. split; [by apply delete_wf|]. apply find_twofactor_None.
  intros k x [Hne Hx]%lookup_delete_Some [Hu Ha].
  apply find_twofactor_Some in Hf as (Hu' & Ha' & k' & Hk').
  assert (x = r) as -> by (eapply (tf_unique _ Hwf); [exact Hx|exact Hk'|congruence..]).
  by rewrite (tf_keyed _ Hwf _ _ Hx) in Hne.
Qed.

(** ** Email codes *)

Inductive code_outcome := Accepted | NoToken | Invalid | Expired | Overflow.

(** When a code sent at a time expires, if the dates are in range. *)
Definition email_expires (sent expiration : Z) : option Z :=
  dt ← datetime_from_timestamp sent;
  delta ← try_seconds (cast_signed64 expiration);
  checked_add_signed dt delta.

(** One entry of a code, on the decoded record. *)
Definition email_step (limit expiration t : Z) (token : string) (d : EmailTokenData) : EmailTokenData * code_outcome :=
  match et_last_token d with
  | None => (d, NoToken)
  | Some issued =>
     if ct_eq issued token then
       (EmailTokenData_reset_token d,
        match email_expires (et_token_sent d) expiration with
        | Some x => if (x <? t)%Z then Expired else Accepted
        | None => Overflow
        end)
     else
       let d := EmailTokenData_add_attempt d in
       (if (limit <=? et_attempts d)%Z then EmailTokenData_reset_token d else d, Invalid)
  end.

Definition email_result (ip : string) (o : code_outcome) : res Error unit :=
  match o with
  | Accepted => Ok tt
  | NoToken => Err (with_event UserFailedLogIn2fa (new_msg ("No token available! IP: " +:+ ip)))
  | Invalid => Err (with_event UserFailedLogIn2fa (new_msg ("Token is invalid! IP: " +:+ ip)))
  | Expired => Err (with_event UserFailedLogIn2fa (new_msg "Token has expired"))
  | Overflow => Panic
  end.

Section email_codes.
Context `{!Serde EmailTokenData id}.

(** The decoded record of a user's email factor. *)
Definition email_record (user : string) (w : World) : option EmailTokenData :=
  r ← find_twofactor user (TwoFactorType_to_i32 Email) (twofactor (db w)); from_json_str (tf_data r).

Lemma email_refinement user token ip e w r d :
  twofactor_wf (twofactor (db w)) →
  find_twofactor user (TwoFactorType_to_i32 Email) (twofactor (db w)) = Some r → from_json_str (tf_data r) = Some d →
  let '(d', o) := email_step (email_attempts_limit (cfg e)) (email_expiration_time (cfg e)) (now e) token d in
  ∃ w', validate_email_code_str user token (tf_data r) ip e w = (email_result ip o, w') ∧
    twofactor_wf (twofactor (db w')) ∧ email_record user w' = Some d'.
Proof.
  intros Hwf Hf Hd. unfold validate_email_code_str, EmailTokenData_from_json, email_step.
  unfold mbind at 1. rewrite Hd. unfold some_or_err at 1, mret at 1. cbv beta iota.
  unfold mbind at 1, TwoFactor_find_by_user_and_type, query at 1. rewrite Hf.
  unfold mbind at 1, some_or_err at 1, mret at 1. cbv beta iota.
  assert (∀ d', email_record user (w <| db := (db w) <| twofactor := replace_into_twofactor (r <| tf_data := to_json_string d' |>) (twofactor (db w)) |> |>) = Some d') as Hrec.
  { intros d'. unfold email_record. simpl. rewrite (proj2 (find_replace_data _ _ _ _ _ Hwf Hf)). simpl. exact (serde_roundtrip (norm := id) d'). }
  destruct (et_last_token d) as [issued|] eqn:Ht.
  - destruct (ct_eq issued token); cbv [negb].
    + unfold mbind at 1, TwoFactor_save, exec. cbv beta iota. unfold mexpect at 1.
      eexists (w <| db := _ |>). split; [|split; [|apply Hrec]].
      * unfold email_expires. simpl. destruct (datetime_from_timestamp _) as [dt|]; [|done].
        cbv [mbind mret conf ask mexpect]. simpl. destruct (try_seconds _) as [dl|]; [|done]. simpl.
        destruct (checked_add_signed dt dl) as [x|]; [|done]. by destruct (x <? now e)%Z.
      * simpl. by apply (find_replace_data _ _ _ _ _ Hwf Hf).
    + cbv [mbind conf ask TwoFactor_save exec]. eexists (w <| db := _ |>). split; [reflexivity|].
      split; [simpl; by apply (find_replace_data _ _ _ _ _ Hwf Hf)|]. apply Hrec.
  - exists w. split; [done|]. split; [done|]. unfold email_record. by rewrite Hf.
Qed.

(** The check of an email code implements [email_step]: entered with the
    stored text of the user's email factor, as the login does, it returns the
    step's outcome as its result (with the login-failure event on every
    refusal), the stored record afterwards is the step's record, and the table
    stays well-formed. *)
Theorem validate_email_code_refines user token ip e w r d :
  twofactor_wf (twofactor (db w)) →
  find_twofactor user (TwoFactorType_to_i32 Email) (twofactor (db w)) = Some r → from_json_str (tf_data r) = Some d →
  let '(d', o) := email_step (email_attempts_limit (cfg e)) (email_expiration_time (cfg e)) (now e) token d in
  ∃ w', validate_email_code_str user token (tf_data r) ip e w = (email_result ip o, w') ∧
    twofactor_wf (twofactor (db w')) ∧ email_record user w' = Some d'.
Proof. apply email_refinement. Qed.

(** A series of entries, each checked against the row as it is then; the result
    tells which were accepted. *)
Fixpoint email_session (user : string) (attempts : list (Env * string * string)) (w : World) : list bool :=
  match attempts with
  | [] => []
  | (e, token, ip) :: attempts =>
     match find_twofactor user (TwoFactorType_to_i32 Email) (twofactor (db w)) with
     | Some r =>
        let '(res, w') := validate_email_code_str user token (tf_data r) ip e w in
        bool_decide (res = Ok tt) :: email_session user attempts w'
     | None => false :: email_session user attempts w
     end
  end.

(** Without a code, nothing is accepted. *)
Lemma email_session_no_token user attempts : ∀ w d,
  twofactor_wf (twofactor (db w)) → email_record user w = Some d → et_last_token d = None →
  ∀ i, email_session user attempts w !! i ≠ Some true.
Proof.
  induction attempts as [|[[e token] ip] attempts IH]; intros w d Hwf Hd Hn i; [done|].
  unfold email_record in Hd. apply bind_Some in Hd as (r & Hr & Hd). cbn [email_session]. rewrite Hr.
  pose proof (email_refinement user token ip e w r d Hwf Hr Hd) as Href. unfold email_step in Href.
  rewrite Hn in Href. destruct Href as (w' & -> & Hwf' & Hd'). destruct i as [|i]; simpl; [done|]. by eapply IH.
Qed.

(** C36: guessing an email code.  Whatever is entered while no new code is
    sent, at most one entry is accepted, and only among the first [n] entries,
    where [n] is what remains of the configured limit (at least one entry is
    always examined): after that many wrong entries, or one right one, the code
    is gone. *)
Theorem email_code_guesses_bounded user attempts w d limit :
  twofactor_wf (twofactor (db w)) → email_record user w = Some d → (limit < 2 ^ 64)%Z →
  Forall (λ '(e, _, _), email_attempts_limit (cfg e) = limit) attempts →
  ∀ i, email_session user attempts w !! i = Some true →
    (Z.of_nat i < Z.max 1 (limit - et_attempts d))%Z ∧
    ∀ j, email_session user attempts w !! j = Some true → j = i.
Proof.
  intros Hwf Hd Hl Hall. revert w d Hwf Hd.
  induction Hall as [|[[e token] ip] attempts He Hall IH]; intros w d Hwf Hd i Hi; [done|].
  unfold email_record in Hd. apply bind_Some in Hd as (r & Hr & Hd).
  cbn [email_session] in Hi |- *. rewrite Hr in Hi |- *.
  pose proof (email_refinement user token ip e w r d Hwf Hr Hd) as Href. unfold email_step in Href.
  destruct (et_last_token d) as [issued|] eqn:Ht.
  - destruct (ct_eq issued token).
    + destruct Href as (w' & Hrun & Hwf' & Hd'). rewrite Hrun in Hi |- *.
      assert (∀ j, email_session user attempts w' !! j ≠ Some true) as Hno
        by (by eapply email_session_no_token).
      destruct i as [|i]; simpl in Hi; [|by eapply Hno in Hi].
      split; [lia|]. intros [|j] Hj; [done|]. by apply Hno in Hj.
    + destruct Href as (w' & Hrun & Hwf' & Hd'). rewrite Hrun in Hi |- *.
      destruct i as [|i]; simpl in Hi; [done|]. rewrite He in Hd'.
      destruct (limit <=? _)%Z eqn:El.
      * exfalso. by eapply email_session_no_token in Hi.
      * destruct (IH w' _ Hwf' Hd' i Hi) as [Hlt Huniq]. apply Z.leb_gt in El. simpl in El, Hlt.
        unfold saturating_add64 in El, Hlt. split; [lia|].
        intros [|j] Hj; [done|]. f_equal. by apply Huniq.
  - exfalso. destruct Href as (w' & Hrun & Hwf' & Hd'). rewrite Hrun in Hi.
    destruct i; simpl in Hi; [done|]. by eapply email_session_no_token in Hi.
Qed.
End email_codes.

(** ** Codes of protected actions *)

Inductive pa_outcome := PaAccepted | PaLocked | PaExpired | PaInvalid.

Definition pa_step (limit expiration t : Z) (otp : string) (d : ProtectedActionData) : pa_outcome :=
  if (limit <=? pa_attempts (ProtectedActionData_add_attempt d))%Z then PaLocked
  else if (cast_signed64 expiration <? num_seconds (t - pa_token_sent d))%Z then PaExpired
  else if ct_eq (pa_token d) otp then PaAccepted else PaInvalid.
(** The record left behind; a used or expired one is removed. *)
Definition pa_next (o : pa_outcome) (delete_if_valid : bool) (d : ProtectedActionData) : option ProtectedActionData :=
  match o with
  | PaLocked => Some d
  | PaExpired => None
  | PaInvalid => Some (pa_stored (ProtectedActionData_add_attempt d))
  | PaAccepted => if delete_if_valid then None else Some d
  end.
Definition pa_result (o : pa_outcome) : res Error unit :=
  match o with
  | PaAccepted => Ok tt
  | PaLocked | PaExpired => Err (new_msg "Token has expired")
  | PaInvalid => Err (new_msg "Token is invalid")
  end.

Section protected_action_codes.
Context `{!Serde ProtectedActionData pa_stored}.

Definition pa_record (user : string) (w : World) : option ProtectedActionData :=
  r ← find_twofactor user (TwoFactorType_to_i32 ProtectedActions) (twofactor (db w)); from_json_str (tf_data r).

Lemma pa_refinement user otp del e w d :
  twofactor_wf (twofactor (db w)) → pa_record user w = Some d →
  let o := pa_step (email_attempts_limit (cfg e)) (email_expiration_time (cfg e)) (now e) otp d in
  ∃ w', validate_protected_action_otp otp user del e w = (pa_result o, w') ∧
    twofactor_wf (twofactor (db w')) ∧ pa_record user w' = pa_next o del d.
Proof.
  intros Hwf Hrec. pose proof Hrec as Hrec0. unfold pa_record in Hrec. apply bind_Some in Hrec as (r & Hf & Hd).
  set (s := to_json_string (ProtectedActionData_add_attempt d)).
  assert (pa_record user (w <| db := (db w) <| twofactor := replace_into_twofactor (r <| tf_data := s |>) (twofactor (db w)) |> |>)
    = Some (pa_stored (ProtectedActionData_add_attempt d))) as Hsave.
  { unfold pa_record. cbn [db twofactor setf]. rewrite (proj2 (find_replace_data _ _ _ _ _ Hwf Hf)).
    exact (serde_roundtrip (norm := pa_stored) (ProtectedActionData_add_attempt d)). }
  assert (pa_record user (w <| db := (db w) <| twofactor := delete (tf_uuid r) (twofactor (db w)) |> |>) = None) as Hdel.
  { unfold pa_record. cbn [db twofactor setf]. by rewrite (proj2 (find_delete_row _ _ _ _ Hwf Hf)). }
  unfold validate_protected_action_otp, TwoFactor_find_by_user_and_type, ProtectedActionData_from_json, pa_step.
  cbv [mbind query some_or_err]. rewrite Hf. cbv [mret]. rewrite Hd. cbv [conf ask ensure].
  destruct (_ <=? _)%Z; cbv [negb mret err mfail].
  - by exists w.
  - cbv [ProtectedActionData_time_since_sent mbind ask mret].
    change (pa_token_sent (ProtectedActionData_add_attempt d)) with (pa_token_sent d).
    change (pa_token (ProtectedActionData_add_attempt d)) with (pa_token d).
    destruct (_ <? _)%Z; [|destruct (ct_eq _ _)]; cbv [TwoFactor_delete TwoFactor_save exec].
    + eexists. split; [reflexivity|]. split; [apply (find_delete_row _ _ _ _ Hwf Hf)|exact Hdel].
    + destruct del; [|by exists w]. eexists. split; [reflexivity|].
      split; [apply (find_delete_row _ _ _ _ Hwf Hf)|exact Hdel].
    + eexists. split; [reflexivity|]. split; [apply (find_replace_data _ _ _ _ _ Hwf Hf)|exact Hsave].
Qed.

(** The check of a protected-action code.  With a stored record it
    implements [pa_step]: locked once the attempts, this one included, reach
    the limit (the record then stays, to keep counting); otherwise expired codes
    are removed, a wrong code counts an attempt, and a right one is accepted and
    removed when the caller asks for that.  Without a record every code is
    refused.  It never panics. *)
Theorem validate_protected_action_refines user otp del e w :
  twofactor_wf (twofactor (db w)) →
  match pa_record user w with
  | Some d =>
     let o := pa_step (email_attempts_limit (cfg e)) (email_expiration_time (cfg e)) (now e) otp d in
     ∃ w', validate_protected_action_otp otp user del e w = (pa_result o, w') ∧
       twofactor_wf (twofactor (db w')) ∧ pa_record user w' = pa_next o del d
  | None => ∃ x, validate_protected_action_otp otp user del e w = (Err x, w)
  end.
Proof.
  intros Hwf. destruct (pa_record user w) as [d|] eqn:Hr; [by apply pa_refinement|].
  unfold pa_record in Hr. unfold validate_protected_action_otp, TwoFactor_find_by_user_and_type, ProtectedActionData_from_json.
  cbv [mbind query some_or_err]. destruct (find_twofactor _ _ _) as [r|]; [|by eexists].
  simpl in Hr. cbv [mret]. rewrite Hr. by eexists.
Qed.

(** A series of checks for one user; each says whether a valid code is to be
    removed. *)
Fixpoint pa_session (user : string) (attempts : list (Env * string * bool)) (w : World) : list (res Error unit) :=
  match attempts with
  | [] => []
  | (e, otp, del) :: attempts =>
     let '(r, w') := validate_protected_action_otp otp user del e w in r :: pa_session user attempts w'
  end.
Definition wrong_guesses (l : list (res Error unit)) : nat :=
  length (filter (λ r, r = Err (new_msg "Token is invalid")) l).

Lemma pa_session_no_record user attempts : ∀ w,
  pa_record user w = None →
  Forall (λ r, ∃ x, r = Err x ∧ x ≠ new_msg "Token is invalid") (pa_session user attempts w).
Proof.
  induction attempts as [|[[e otp] del] attempts IH]; intros w Hn; [constructor|].
  assert (∃ x, validate_protected_action_otp otp user del e w = (Err x, w) ∧ x ≠ new_msg "Token is invalid")
    as (x & Hrun & Hx).
  { unfold pa_record in Hn. unfold validate_protected_action_otp, TwoFactor_find_by_user_and_type,
      ProtectedActionData_from_json. cbv [mbind query some_or_err].
    destruct (find_twofactor _ _ _) as [r|]; [|by eexists].
    simpl in Hn. cbv [mret]. rewrite Hn. by eexists. }
  cbn [pa_session]. rewrite Hrun. constructor; [by eexists|]. by apply IH.
Qed.

(** Guessing a protected-action code.  Over any series of checks of one
    code, the wrong guesses examined never exceed what was left of the limit
    less one; a code is accepted only while the recorded attempts and the wrong
    guesses before it stay below that bound; and once it is accepted and
    removed, nothing is accepted after it. *)
Theorem protected_action_guesses_bounded user attempts w d limit :
  twofactor_wf (twofactor (db w)) → pa_record user w = Some d → (limit < 2 ^ 64)%Z →
  Forall (λ '(e, _, _), email_attempts_limit (cfg e) = limit) attempts →
  let l := pa_session user attempts w in
  (Z.of_nat (wrong_guesses l) ≤ Z.max 0 (limit - 1 - pa_attempts d))%Z ∧
  ∀ i, l !! i = Some (Ok tt) →
    (pa_attempts d + Z.of_nat (wrong_guesses (take i l)) + 1 < limit)%Z ∧
    (∀ e otp j, attempts !! i = Some (e, otp, true) → i < j → l !! j ≠ Some (Ok tt)).
Proof.
  intros Hwf Hd Hl Hall. cbv zeta. revert w d Hwf Hd.
  induction Hall as [|[[e otp] del] attempts He Hall IH]; intros w d Hwf Hd.
  { split; [exact (Z.le_max_l 0 _)|done]. }
  destruct (pa_refinement user otp del e w d Hwf Hd) as (w' & Hrun & Hwf' & Hd'). rewrite He in *.
  assert (∀ l, Forall (λ r, ∃ x, r = Err x ∧ x ≠ new_msg "Token is invalid") l →
    wrong_guesses l = 0 ∧ ∀ i, l !! i ≠ Some (Ok tt)) as Hnone.
  { intros l Hfa. split.
    - unfold wrong_guesses. apply length_zero_iff_nil. induction Hfa as [|r l (x & -> & Hx) _ IHl]; [done|].
      rewrite filter_cons_False; [done|naive_solver].
    - intros i Hi. apply (Forall_lookup_1 _ _ _ _ Hfa) in Hi. naive_solver. }
  cbn [pa_session]. rewrite Hrun. unfold pa_step in *.
  destruct (_ <=? _)%Z eqn:E1; [|destruct (_ <? _)%Z eqn:E2; [|destruct (ct_eq _ _) eqn:E3]]; cbn [pa_next pa_result] in *.
  - apply Z.leb_le in E1. destruct (IH w' d Hwf' Hd') as [Hc Hok].
    unfold wrong_guesses in *. rewrite filter_cons_False by done. split; [done|].
    intros [|i] Hi; [done|]. cbn [lookup list_lookup take] in *. rewrite filter_cons_False by done.
    destruct (Hok i Hi) as [? Hlater]. split; [done|]. intros e' o' [|j] Ha Hj; [lia|]. eapply Hlater; [done|lia].
  - destruct (Hnone _ (pa_session_no_record user attempts w' Hd')) as [Hw Hno].
    unfold wrong_guesses in *. rewrite filter_cons_False by done. split; [lia|].
    intros [|i] Hi; [done|]. by apply Hno in Hi.
  - apply Z.leb_gt in E1. simpl in E1. unfold saturating_add64 in E1. destruct del.
    + destruct (Hnone _ (pa_session_no_record user attempts w' Hd')) as [Hw Hno].
      unfold wrong_guesses in *. rewrite filter_cons_False by done. split; [lia|].
      intros [|i] Hi; [|by apply Hno in Hi]. split; [simpl; lia|]. intros e' o' [|j] _ Hj; [lia|]. apply Hno.
    + destruct (IH w' d Hwf' Hd') as [Hc Hok]. unfold wrong_guesses in *. rewrite filter_cons_False by done.
      split; [done|]. intros [|i] Hi; [split; [simpl; lia|]; naive_solver|].
      cbn [lookup list_lookup take] in *. rewrite filter_cons_False by done.
      destruct (Hok i Hi) as [? Hlater]. split; [done|]. intros e' o' [|j] Ha Hj; [lia|]. eapply Hlater; [done|lia].
  - apply Z.leb_gt in E1. simpl in E1. unfold saturating_add64 in E1.
    destruct (IH w' _ Hwf' Hd') as [Hc Hok]. simpl in Hc, Hok. unfold saturating_add64 in Hc, Hok.
    unfold wrong_guesses in *. rewrite filter_cons_True by done. cbn [length]. split; [lia|].
    intros [|i] Hi; [done|]. cbn [lookup list_lookup take] in *. rewrite filter_cons_True by done. cbn [length].
    destruct (Hok i Hi) as [? Hlater]. split; [lia|]. intros e' o' [|j] Ha Hj; [lia|]. eapply Hlater; [done|lia].
Qed.
End protected_action_codes.

(** ** The address shown on the login page *)

Lemma rsplit_at_Some s name domain :
  rsplit_at s = Some (name, domain) ↔ s = name ++ 64%Z :: domain ∧ Forall (λ c, (64 =? c)%Z = false) domain.
Proof.
  unfold rsplit_at. split.
  - destruct (split_once _ _) as [[d n]|] eqn:E; [|done]. intros [= <- <-].
    apply split_once_Some in E as (x & Hr & Hx & Hd). apply Z.eqb_eq in Hx as <-.
    apply (f_equal (@rev Z)) in Hr. rewrite rev_involutive, rev_app_distr in Hr. simpl in Hr.
    rewrite <- app_assoc in Hr. split; [done|]. by apply Forall_rev.
  - intros [-> Hf]. rewrite rev_app_distr. simpl. rewrite <- app_assoc. simpl.
    rewrite split_once_app; [by rewrite !rev_involutive|by apply Forall_rev|done].
Qed.

(** An obscured address reveals at most the first two characters of the
    part before the last at sign, and none of it when that part has at most
    three characters; the rest of it becomes asterisks, two fewer than its
    characters, and the domain is kept. *)
Theorem obscure_email_reveals email o :
  obscure_email email = Ok o →
  ∃ name domain p, email = name ++ 64%Z :: domain ∧ Forall (λ c, (64 =? c)%Z = false) domain ∧
    o = p ++ stars (if length name <=? 3 then length name else length name - 2) ++ 64%Z :: domain ∧
    p `prefix_of` name ∧ length p ≤ 2 ∧ (length name ≤ 3 → p = []) ∧ name ≠ [].
Proof.
  unfold obscure_email. intros Ho. apply rbind_Ok_inv in Ho as ([name domain] & Hs & Ho).
  destruct (rsplit_at email) as [[n d]|] eqn:E; [|done]. simpl in Hs. simplify_eq.
  apply rsplit_at_Some in E as [-> Hf]. apply rbind_Ok_inv in Ho as (new & Hn & Ho). simplify_eq.
  destruct (1 <=? length name) eqn:E1, (length name <=? 3) eqn:E3; cbn [andb] in Hn; simplify_eq.
  - exists name, domain, []. rewrite E3. apply Nat.leb_le in E1.
    split_and!; [done|done|done|apply prefix_nil|simpl; lia|done|intros ->; simpl in E1; lia].
  - apply Nat.leb_gt in E3. destruct (Nat.ltb _ _) eqn:E2; [done|].
    apply rbind_Ok_inv in Hn as (p & Hp & Hn). simplify_eq. exists name, domain, p.
    rewrite (proj2 (Nat.leb_gt _ _)), <- app_assoc by done. split_and!; [done|done|done| | |lia|intros ->; simpl in E3; lia].
    + destruct name as [|a [|b l]]; simpl in *; [lia..|]. destruct ((a <? 128)%Z && (b <? 128)%Z); simplify_eq/=.
      * by exists l.
      * destruct (Nat.eqb _ _); simplify_eq/=. by exists (b :: l).
    + destruct name as [|a [|b l]]; simpl in *; [lia..|]. destruct ((a <? 128)%Z && (b <? 128)%Z); simplify_eq/=; [done|].
      destruct (Nat.eqb _ _); simplify_eq/=. lia.
  - apply Nat.leb_gt in E1. destruct name; [done|simpl in E1; lia].
  - apply Nat.leb_gt in E1, E3. lia.
Qed.

(** A name whose third byte lies inside a character. *)
Definition splits_character (name : str) : Prop :=
  ∃ a b l, name = a :: b :: l ∧ utf8_char_len a ≠ 2 ∧ ¬ ((a < 128)%Z ∧ (b < 128)%Z).

Lemma truncate2_None name : 2 ≤ length name → truncate2 name = None ↔ splits_character name.
Proof.
  unfold splits_character. destruct name as [|a [|b l]]; simpl; [lia..|]. intros _.
  destruct (a <? 128)%Z eqn:Ea, (b <? 128)%Z eqn:Eb; simpl;
    repeat (rewrite Z.ltb_lt in * || rewrite Z.ltb_ge in *).
  1: split; [done|]; intros (? & ? & ? & ? & ? & ?); simplify_eq; tauto.
  all: destruct (Nat.eqb_spec (utf8_char_len a) 2); split; try done;
    [intros (? & ? & ? & ? & ? & ?); by simplify_eq|intros _; exists a, b, l; split_and!; [done..|lia]].
Qed.

Lemma rsplit_at_None s : rsplit_at s = None ↔ Forall (λ c, (64 =? c)%Z = false) s.
Proof.
  trans (split_once (Z.eqb 64) (rev s) = None); [unfold rsplit_at; by destruct (split_once _ _) as [[]|]|].
  rewrite split_once_None. split; intros Hf%Forall_rev; [by rewrite rev_involutive in Hf|done].
Qed.

(** The part of [obscure_email] that treats the name. *)
Lemma obscure_name_panics name domain :
  (let? new_name :=
     if (1 <=? length name) && (length name <=? 3) then Ok (stars (length name))
     else if Nat.ltb (length name) 2 then Panic
     else let? name' := expect (truncate2 name) in Ok (name' ++ stars (length name - 2)) in
   Ok (new_name ++ 64%Z :: domain)) = @Panic unit _ ↔ name = [] ∨ 3 < length name ∧ splits_character name.
Proof.
  destruct (Nat.leb_spec 1 (length name)), (Nat.leb_spec (length name) 3); simpl; try lia.
  - split; [done|]. intros [->|?]; simpl in *; lia.
  - destruct (Nat.ltb_spec (length name) 2); [lia|]. rewrite <- truncate2_None by lia.
    destruct (truncate2 name); simpl; [|naive_solver]. split; [done|]. intros [->|[_ ?]]; [simpl in *; lia|done].
  - destruct name; [|simpl in *; lia]. simpl. naive_solver.
Qed.

(** The addresses on which obscuring panics are exactly those without an
    at sign, those with nothing before the last one, and those whose part
    before it has more than three characters with one lying across its second
    byte. *)
Theorem obscure_email_panics email :
  obscure_email email = Panic ↔
    Forall (λ c, (64 =? c)%Z = false) email ∨
    ∃ name domain, email = name ++ 64%Z :: domain ∧ Forall (λ c, (64 =? c)%Z = false) domain ∧
      (name = [] ∨ 3 < length name ∧ splits_character name).
Proof.
  unfold obscure_email. destruct (rsplit_at email) as [[name domain]|] eqn:E; cbn [expect rbind].
  - rewrite obscure_name_panics. split.
    + intros H. right. exists name, domain. by apply rsplit_at_Some in E as [-> ?].
    + intros [Hn%rsplit_at_None|(n & d & Heq & Hd & H)]; [by rewrite E in Hn|].
      assert (rsplit_at email = Some (n, d)) as E2 by (by apply rsplit_at_Some). rewrite E in E2. by simplify_eq.
  - split; [intros _; left; by apply rsplit_at_None|done].
Qed.

(** ** Examples *)

#[export] Instance EmailTokenData_eq_dec : EqDecision EmailTokenData.
Proof. solve_decision. Defined.
#[export] Instance EmailTokenData_countable : Countable EmailTokenData :=
  inj_countable' (λ x, (et_email x, et_last_token x, et_token_sent x, et_attempts x))
    (λ '(a, b, c, d), mkEmailTokenData a b c d) (λ x, match x with mkEmailTokenData _ _ _ _ => eq_refl end).

Module ToyCodes.
Import ToyEnv ToyTwoFactor.
#[export] Instance toy_email_serde : Serde EmailTokenData id := toy_serde id.
Definition toy_email_data : EmailTokenData := mkEmailTokenData "alice@example.org" (Some "123456") 0 1.
Definition toy_email_world : World := toy_tf_world (toy_row "t1" "alice" 1 (to_json_string toy_email_data)).
Definition toy_pa_data : ProtectedActionData := mkProtectedActionData "123456" 0 0.
Definition toy_pa_world : World := toy_tf_world (toy_row "t1" "alice" 2000 (to_json_string toy_pa_data)).
End ToyCodes.
Import ToyEnv ToyUsers ToyTwoFactor ToyCodes.

Lemma obscure_email_reveals_witness :
  ∃ name domain p, chars "bytes@example.ext" = name ++ 64%Z :: domain ∧
    chars "by***@example.ext" = p ++ stars (if length name <=? 3 then length name else length name - 2) ++ 64%Z :: domain ∧
    length p ≤ 2.
Proof.
  destruct (obscure_email_reveals (chars "bytes@example.ext") (chars "by***@example.ext"))
    as (name & domain & p & H1 & _ & H2 & _ & H3 & _); [by vm_compute|]. by exists name, domain, p.
Defined.

Lemma validate_email_code_refines_witness :
  ∃ w', validate_email_code_str "alice" "000000" (to_json_string toy_email_data) "ip" (toy_env 0) toy_email_world
        = (email_result "ip" Invalid, w') ∧
    email_record "alice" w' = Some (mkEmailTokenData "alice@example.org" (Some "123456") 0 2).
Proof.
  destruct (validate_email_code_refines "alice" "000000" "ip" (toy_env 0) toy_email_world
    (toy_row "t1" "alice" 1 (to_json_string toy_email_data)) toy_email_data (toy_tf_wf _)) as (w' & Hrun & _ & Hrec);
    [by vm_compute..|]. exists w'. split; [exact Hrun|exact Hrec].
Defined.

(** One attempt is on record and the limit is three: two more entries. *)
Lemma email_code_guesses_bounded_witness :
  email_session "alice" [(toy_env 0, "000000", "a"); (toy_env 0, "123456", "a"); (toy_env 0, "123456", "a")] toy_email_world
    = [false; true; false] ∧
  (Z.of_nat 1 < Z.max 1 (3 - 1))%Z.
Proof.
  split; [by vm_compute|].
  apply (email_code_guesses_bounded "alice"
    [(toy_env 0, "000000", "a"); (toy_env 0, "123456", "a"); (toy_env 0, "123456", "a")]
    toy_email_world toy_email_data 3 (toy_tf_wf _)); [by vm_compute|done|by repeat constructor|by vm_compute].
Defined.

Lemma validate_protected_action_refines_witness :
  ∃ w', validate_protected_action_otp "123456" "alice" true (toy_env 0) toy_pa_world = (Ok tt, w') ∧
    pa_record "alice" w' = None.
Proof.
  pose proof (validate_protected_action_refines "alice" "123456" true (toy_env 0) toy_pa_world (toy_tf_wf _)) as Href.
  assert (pa_record "alice" toy_pa_world = Some toy_pa_data) as E by (by vm_compute). rewrite E in Href.
  destruct Href as (w' & Hrun & _ & Hrec). exists w'. split; [exact Hrun|exact Hrec].
Defined.

Lemma protected_action_guesses_bounded_witness :
  pa_session "alice" [(toy_env 0, "0", false); (toy_env 0, "1", false); (toy_env 0, "123456", false)] toy_pa_world
    = [Err (new_msg "Token is invalid"); Err (new_msg "Token is invalid"); Err (new_msg "Token has expired")] ∧
  (Z.of_nat (wrong_guesses (pa_session "alice"
     [(toy_env 0, "0", false); (toy_env 0, "1", false); (toy_env 0, "123456", false)] toy_pa_world))
   ≤ Z.max 0 (3 - 1 - 0))%Z.
Proof.
  split; [by vm_compute|].
  apply (protected_action_guesses_bounded "alice" _ toy_pa_world toy_pa_data 3 (toy_tf_wf _));
    [by vm_compute|done|by repeat constructor].
Defined.
