(* ===== verification/Login.v ===== *)
(** * Login with a password

    The password branch of [server/src/api/identity.rs]: the first factor (a
    password, or the access code of an approved login request), the check that
    an address is verified, the device, the second factor, and the answer; with
    [kdf_upgrade] of [api/core/accounts.rs], [master_password_policy] of
    [api/mod.rs], [register_push_device] of [api/push.rs] and the token claims of
    [auth.rs].  Encoding and decoding of web tokens, and the external second
    factors (WebAuthn, YubiKey, Duo), are parameters. *)

From stdpp Require Import base strings numbers pretty gmap list.
From S2P Require Import Prelude Store Users Orgs AuthRequests TwoFactor TotpReplay OneTimeCodes.

(** ** auth.rs: claims *)

Inductive AuthMethod := OrgApiKey | Password | Sso | UserApiKey.
Definition AuthMethod_scope (m : AuthMethod) : string :=
  match m with OrgApiKey => "api.organization" | UserApiKey => "api" | Password | Sso => "api offline_access" end.
(** [scope().split_whitespace()] *)
Definition AuthMethod_scope_vec (m : AuthMethod) : list string :=
  match m with OrgApiKey => ["api.organization"] | UserApiKey => ["api"] | Password | Sso => ["api"; "offline_access"] end.
Definition AuthMethod_check_scope (m : AuthMethod) (scope : option string) : M string :=
  match scope with
  | None => err "Missing scope"
  | Some scope => if bool_decide (scope = AuthMethod_scope m) then mret (AuthMethod_scope m)
                  else err ("Scope (" +:+ scope +:+ ") not supported")
  end.

Record LoginJwtClaims := mkLoginJwtClaims {
  lj_nbf : Z; lj_exp : Z; lj_iss : string; lj_sub : string; lj_premium : bool; lj_name : string; lj_email : string;
  lj_email_verified : bool; lj_sstamp : string; lj_device : string; lj_devicetype : string; lj_client_id : string;
  lj_scope : list string; lj_amr : list string }.
Inductive TokenWrapper := Access (token : string) | Refresh (token : string).
Record RefreshJwtClaims := mkRefreshJwtClaims {
  rj_nbf : Z; rj_exp : Z; rj_iss : string; rj_sub : AuthMethod; rj_device_token : string; rj_token : option TokenWrapper }.
Record TwoFactorRememberClaims := mkRememberClaims {
  rm_nbf : Z; rm_exp : Z; rm_iss : string; rm_sub : string; rm_user_uuid : string }.
Record OrgApiKeyLoginJwtClaims := mkOrgApiKeyLoginJwtClaims {
  ok_nbf : Z; ok_exp : Z; ok_iss : string; ok_sub : string; ok_client_id : string; ok_client_sub : string;
  ok_scope : list string }.
(** sso.rs: the dates of a token of the identity provider *)
Record BasicTokenClaims := mkBasicTokenClaims { bt_iat : option Z; bt_nbf : option Z; bt_exp : Z }.
Record AuthTokens := mkAuthTokens { refresh_claims : RefreshJwtClaims; access_claims : LoginJwtClaims }.

(** [now + TimeDelta], which panics out of range *)
Definition now_plus (seconds : Z) : M Z :=
  let* t := ask now in
  let* d := mexpect (try_seconds seconds) in
  mexpect (checked_add_signed t d).

(** ** What the login calls outside the modelled code *)

(** External second factors, and the token library. *)
Record Services := mkServices {
  validate_webauthn_login : string → string → M unit;
  generate_webauthn_login : string → M Json;
  validate_yubikey_login : string → string → M unit;
  yubikey_nfc : string → option bool;
  duo_validate_iframe : string → string → M unit;
  duo_validate_oidc : string → string → string → string → M unit;
  duo_signature : string → M (string * string);
  duo_auth_url : string → string → string → M string;
  login_issuer : string;
  remember_issuer : string;
  org_api_key_issuer : string;
  encode_access : LoginJwtClaims → option string;
  encode_refresh : RefreshJwtClaims → option string;
  encode_remember : TwoFactorRememberClaims → option string;
  (** at a time: the signature, the issuer and the dates are checked *)
  decode_2fa_remember : Z → string → option TwoFactorRememberClaims;
  decode_login : Z → string → option LoginJwtClaims;
  decode_refresh : Z → string → option RefreshJwtClaims;
  encode_org_api : OrgApiKeyLoginJwtClaims → option string;
  (** [insecure_decode], for the expiry and issuer, and for the dates *)
  decode_validation : string → option (Z * string);
  decode_basic : string → option BasicTokenClaims;
  (** the identity provider: a new refresh token, if any, an access token, and
      how long that is valid; and whether an access token still is *)
  sso_exchange_refresh_token : string → M (option string * string * option Z);
  sso_check_validity : string → M unit;
  (** [VersionReq(">=2025.5.0").matches] *)
  version_at_least_2025_5 : string → bool;
  (** the push relay accepts a registration *)
  push_relay_accepts : Device → bool;
}.

(** Less the grant type, which selects the branch of [login], and the push token,
    which is not used. *)
Record ConnectData := mkConnectData {
  cd_refresh_token : option string;
  cd_client_id : option string;
  cd_client_secret : option string;
  cd_password : option string;
  cd_scope : option string;
  cd_username : option string;
  cd_device_identifier : option string;
  cd_device_name : option string;
  cd_device_type : option string;
  cd_two_factor_provider : option Z;
  cd_two_factor_token : option string;
  cd_two_factor_remember : option Z;
  cd_auth_request : option string;
  cd_code : option string;
  cd_code_verifier : option string;
}.

Definition UserLoggedIn : Z := 1000.
Definition UserFailedLogIn : Z := 1005.
Definition UserRecovered2fa : Z := 1004.

Section login.
Context `{!Serde UserStampException id, !Serde DuoProviderData id, !Serde EmailTokenData id}.
Context (svc : Services).

(** A warning about a short lifetime is left out; its date is computed. *)
Definition LoginJwtClaims_new (device : Device) (user : User) (nbf exp : Z) (scope : list string)
    (client_id : option string) : M LoginJwtClaims :=
  let* _ := now_plus 300 in
  let* mail := conf mail_enabled in
  mret {| lj_nbf := nbf; lj_exp := exp; lj_iss := login_issuer svc; lj_sub := u_uuid user;
          lj_premium := true; lj_name := u_name user; lj_email := u_email user;
          lj_email_verified := negb mail || bool_decide (is_Some (u_verified_at user));
          lj_sstamp := u_security_stamp user; lj_device := d_uuid device;
          lj_devicetype := DeviceType_display (DeviceType_from_i32 (d_atype device));
          lj_client_id := default "undefined" client_id; lj_scope := scope; lj_amr := ["Application"] |}.
Definition LoginJwtClaims_default (device : Device) (user : User) (m : AuthMethod) (client_id : option string)
    : M LoginJwtClaims :=
  let* t := ask now in
  let* exp := now_plus 7200 in
  LoginJwtClaims_new device user (timestamp t) (timestamp exp) (AuthMethod_scope_vec m) client_id.
Definition AuthTokens_new (device : Device) (user : User) (sub : AuthMethod) (client_id : option string) : M AuthTokens :=
  let* t := ask now in
  let* access := LoginJwtClaims_default device user sub client_id in
  let validity := if Device_is_mobile device then (86400 * 90)%Z else (86400 * 30)%Z in
  let* exp := now_plus validity in
  mret (mkAuthTokens (mkRefreshJwtClaims (timestamp t) (timestamp exp) (login_issuer svc) sub (d_refresh_token device) None) access).

Definition generate_2fa_remember_claims (device_uuid user_uuid : string) : M TwoFactorRememberClaims :=
  let* t := ask now in
  let* exp := now_plus (86400 * 30) in
  mret (mkRememberClaims (timestamp t) (timestamp exp) (remember_issuer svc) device_uuid user_uuid).
Definition Device_refresh_twofactor_remember (self : Device) : M (Device * string) :=
  let* claim := generate_2fa_remember_claims (d_uuid self) (d_user_uuid self) in
  let* token := some_or_err (encode_remember svc claim) "JWT encoding failed" in
  mret (self <| d_twofactor_remember := Some token |>, token).

(** ** accounts.rs: kdf_upgrade *)

Definition kdf_upgrade (user : User) (pwd_hash : string) : M User :=
  let* iterations := conf password_iterations in
  if (u_password_iterations user <? iterations)%Z then
    let* user := User_set_password (user <| u_password_iterations := iterations |>) pwd_hash None false None in
    do* mignore (let* _ := User_save user in mret tt) in
    mret user
  else mret user.

(** ** identity.rs *)

Definition check_is_some {A} (value : option A) (msg : string) : M unit := ensure (bool_decide (is_Some value)) msg.

Definition get_device (data : ConnectData) (user : User) : M Device :=
  let device_type := default 14%Z (s ← cd_device_type data; n ← parse_signed (chars s); to_i32 n) in
  let* device_id := mexpect (cd_device_identifier data) in
  let* device_name := mexpect (cd_device_name data) in
  let* found := Device_find_by_uuid_and_user device_id (u_uuid user) in
  match found with
  | Some device => mret device
  | None =>
     let* device := Device_new device_id (u_uuid user) device_name device_type in
     Device_save device false
  end.

(** The obscured address as text. *)
Definition obscured (email : string) : M string :=
  match obscure_email (utf8_decode (string_bytes email)) with
  | Ok s => mret (string_of_chars (as_bytes s))
  | _ => mpanic
  end.

(** The entry of one provider in the answer that asks for a second factor. *)
Definition provider_prompt (providers : list Z) (user_id : string) (data : ConnectData) (client_version : option string)
    (provider : Z) : M Json :=
  match TwoFactorType_from_i32 provider with
  | Some Webauthn =>
     let* supported := conf is_webauthn_2fa_supported in
     if supported then generate_webauthn_login svc user_id else mret JNull
  | Some Duo =>
     let* found := User_find_by_uuid user_id in
     let* u := some_or_err found "User does not exist" in
     let* iframe := conf duo_use_iframe in
     if iframe then
       let* (signature, host) := duo_signature svc (u_email u) in
       mret (JObj [("Host", JStr host); ("Signature", JStr signature)])
     else
       let* client_id := mexpect (cd_client_id data) in
       let* device := mexpect (cd_device_identifier data) in
       let* url := duo_auth_url svc (u_email u) client_id device in
       mret (JObj [("AuthUrl", JStr url)])
  | Some YubiKey =>
     let* found := TwoFactor_find_by_user_and_type user_id (TwoFactorType_to_i32 YubiKey) in
     let* twofactor := some_or_err found "No YubiKey devices registered" in
     let* nfc := some_or_err (yubikey_nfc svc (tf_data twofactor)) "Serde" in
     mret (JObj [("Nfc", JBool nfc)])
  | Some Email =>
     let* found := TwoFactor_find_by_user_and_type user_id (TwoFactorType_to_i32 Email) in
     let* twofactor := some_or_err found "No twofactor email registered" in
     let disabled_send := from_option (version_at_least_2025_5 svc) false client_version in
     do* (if bool_decide (length providers = 1) && negb disabled_send then send_token user_id else mret tt) in
     let* email_data := EmailTokenData_from_json (tf_data twofactor) in
     let* shown := obscured (et_email email_data) in
     mret (JObj [("Email", JStr shown)])
  | _ => mret JNull
  end.
Fixpoint provider_prompts (providers : list Z) (user_id : string) (data : ConnectData) (client_version : option string)
    (l : list Z) (acc : list (string * Json)) : M (list (string * Json)) :=
  match l with
  | [] => mret acc
  | p :: l =>
     let* j := provider_prompt providers user_id data client_version p in
     provider_prompts providers user_id data client_version l (json_insert (pretty p) j acc)
  end.
Definition json_err_twofactor (providers : list Z) (user_id : string) (data : ConnectData)
    (client_version : option string) : M Json :=
  let* prompts := provider_prompts providers user_id data client_version providers [] in
  mret (JObj [("error", JStr "invalid_grant"); ("error_description", JStr "Two factor required.");
              ("TwoFactorProviders", JArr ((λ p, JStr (pretty p)) <$> providers));
              ("TwoFactorProviders2", JObj prompts);
              ("MasterPasswordPolicy", JObj [("Object", JStr "masterPasswordPolicy")])]).

(** Failing with that answer. *)
Definition ask_second_factor {A} (providers : list Z) (user_id : string) (data : ConnectData)
    (client_version : option string) (msg : string) : M A :=
  let* body := json_err_twofactor providers user_id data client_version in err_json body msg.

(** The providers offered: enabled and usable ones of a known type. *)
Definition offered (c : Config) (l : list TwoFactor) : list Z :=
  tf_atype <$> filter (λ tf, tf_enabled tf &&
    from_option (λ t, is_twofactor_provider_usable c t (Some (tf_data tf))) false (TwoFactorType_from_i32 (tf_atype tf))
    = true) l.

Definition is_special (provider : Z) : bool :=
  (provider =? TwoFactorType_to_i32 Remember)%Z || (provider =? TwoFactorType_to_i32 RecoveryCode)%Z.

Definition selected_data (tf : option TwoFactor) : M string :=
  some_or_err (tf_data <$> tf) "Two factor doesn't exist".

(** Whether a remembered device may skip the second factor. *)
Definition remember_valid (c : Config) (now : Z) (user : User) (device : Device) (code : string) : bool :=
  match d_twofactor_remember device with
  | Some token =>
     negb (disable_2fa_remember c) && ct_eq token code &&
     match decode_2fa_remember svc now code with
     | Some t => bool_decide (rm_sub t = d_uuid device) && bool_decide (rm_user_uuid t = u_uuid user)
     | None => false
     end
  | None => false
  end.

(** The [match] on the selected provider; returns the user, changed when a
    recovery code was used. *)
Definition check_second_factor (user : User) (data : ConnectData) (device : Device) (ip : string)
    (client_version : option string) (twofactor_ids : list Z) (selected_id : Z) (code : string)
    (selected_twofactor : option TwoFactor) : M User :=
  match TwoFactorType_from_i32 selected_id with
  | Some Authenticator =>
     let* d := selected_data selected_twofactor in
     do* validate_totp_code_str (u_uuid user) code d ip in mret user
  | Some Webauthn => do* validate_webauthn_login svc (u_uuid user) code in mret user
  | Some YubiKey =>
     let* d := selected_data selected_twofactor in
     do* validate_yubikey_login svc code d in mret user
  | Some Duo =>
     let* iframe := conf duo_use_iframe in
     do* (if iframe then duo_validate_iframe svc (u_email user) code
          else
            let* client_id := mexpect (cd_client_id data) in
            let* device := mexpect (cd_device_identifier data) in
            duo_validate_oidc svc (u_email user) code client_id device) in
     mret user
  | Some Email =>
     let* d := selected_data selected_twofactor in
     do* validate_email_code_str (u_uuid user) code d ip in mret user
  | Some Remember =>
     let* valid := ask (λ e, remember_valid (cfg e) (now e) user device code) in
     if valid then mret user
     else
       do* (if bool_decide (is_Some (d_twofactor_remember device)) then
              let* _ := Device_save (Device_delete_twofactor_remember device) true in mret tt
            else mret tt) in
       ask_second_factor twofactor_ids (u_uuid user) data client_version "2FA Remember token not provided or expired"
  | Some RecoveryCode =>
     let* valid := User_check_valid_recovery_code user code in
     do* ensure valid "Recovery code is incorrect. Try again." in
     do* TwoFactor_delete_all_by_user (u_uuid user) in
     do* enforce_2fa_policy user (u_uuid user) (d_atype device) ip in
     do* log_user_event UserRecovered2fa (u_uuid user) (d_atype device) ip in
     User_save (user <| u_totp_recover := None |>)
  | _ => err_event "Invalid two factor provider" UserFailedLogIn2fa
  end.

(** Returns the token to remember the device by, and the user and device as
    changed. *)
Definition twofactor_auth (user : User) (data : ConnectData) (device : Device) (ip : string)
    (client_version : option string) : M (User * Device * option string) :=
  let* twofactors := TwoFactor_find_by_user (u_uuid user) in
  if bool_decide (twofactors = []) then
    do* enforce_2fa_policy user (u_uuid user) (d_atype device) ip in
    mret (user, device, None)
  else
    do* TwoFactorIncomplete_mark_incomplete (u_uuid user) (d_uuid device) (d_name device) (d_atype device) ip in
    let* twofactor_ids := conf (λ c, offered c twofactors) in
    let* first_id := some_or_err (head twofactor_ids)
      "No enabled and usable two factor providers are available for this account" in
    let selected_id := default first_id (cd_two_factor_provider data) in
    do* (if negb (is_special selected_id) && negb (bool_decide (selected_id ∈ twofactor_ids))
         then ask_second_factor twofactor_ids (u_uuid user) data client_version "Invalid two factor provider"
         else mret tt) in
    let* code := match cd_two_factor_token data with
                 | Some code => mret code
                 | None => ask_second_factor twofactor_ids (u_uuid user) data client_version "2FA token not provided"
                 end in
    let selected := head (filter (λ tf, (tf_atype tf =? selected_id)%Z && tf_enabled tf = true) twofactors) in
    let* user := check_second_factor user data device ip client_version twofactor_ids selected_id code selected in
    do* TwoFactorIncomplete_mark_complete (u_uuid user) (d_uuid device) in
    let remember := default 0%Z (cd_two_factor_remember data) in
    let* disabled := conf disable_2fa_remember in
    if negb disabled && (remember =? 1)%Z then
      let* (device, token) := Device_refresh_twofactor_remember device in
      mret (user, device, Some token)
    else mret (user, device, None).

(** *** api/mod.rs: master_password_policy *)

Record MasterPasswordPolicy := mkMasterPasswordPolicy {
  mp_min_complexity : option Z; mp_min_length : option Z; mp_require_lower : bool; mp_require_upper : bool;
  mp_require_numbers : bool; mp_require_special : bool; mp_enforce_on_login : bool }.
(** An optional number may be absent or null; a flag must be there. *)
Definition json_opt_number (max : Z) (j : option Json) : option (option Z) :=
  match j with
  | None | Some JNull => Some None
  | Some (JNum n) => if ((0 <=? n) && (n <=? max))%Z then Some (Some n) else None
  | _ => None
  end.
Definition json_bool (j : option Json) : option bool := match j with Some (JBool b) => Some b | _ => None end.
Definition parse_MasterPasswordPolicy (e : Env) (data : string) : option MasterPasswordPolicy :=
  j ← parse_json e data;
  get ← match j with
        | JObj fields => Some (λ k (_ : nat), json_field k fields)
        | JArr l => if bool_decide (length l = 7) then Some (λ _ i, l !! i) else None
        | _ => None
        end;
  c ← json_opt_number 255 (get "minComplexity" 0);
  n ← json_opt_number (2 ^ 32 - 1) (get "minLength" 1);
  lo ← json_bool (get "requireLower" 2);
  up ← json_bool (get "requireUpper" 3);
  nu ← json_bool (get "requireNumbers" 4);
  sp ← json_bool (get "requireSpecial" 5);
  en ← json_bool (get "enforceOnLogin" 6);
  Some (mkMasterPasswordPolicy c n lo up nu sp en).
(** [Option::max]: nothing is less than anything. *)
Definition opt_max (a b : option Z) : option Z :=
  match a, b with Some a, Some b => Some (Z.max a b) | None, b => b | a, None => a end.
Definition merge_policies (acc p : MasterPasswordPolicy) : MasterPasswordPolicy :=
  mkMasterPasswordPolicy (opt_max (mp_min_complexity acc) (mp_min_complexity p))
    (opt_max (mp_min_length acc) (mp_min_length p)) (mp_require_lower acc || mp_require_lower p)
    (mp_require_upper acc || mp_require_upper p) (mp_require_numbers acc || mp_require_numbers p)
    (mp_require_special acc || mp_require_special p) (mp_enforce_on_login acc || mp_enforce_on_login p).
Definition policy_fields (p : MasterPasswordPolicy) : list (string * Json) :=
  [("minComplexity", json_opt JNum (mp_min_complexity p)); ("minLength", json_opt JNum (mp_min_length p));
   ("requireLower", JBool (mp_require_lower p)); ("requireUpper", JBool (mp_require_upper p));
   ("requireNumbers", JBool (mp_require_numbers p)); ("requireSpecial", JBool (mp_require_special p));
   ("enforceOnLogin", JBool (mp_enforce_on_login p))].
(** [value["Object"] = ..] panics on anything but an object or null. *)
Definition master_password_policy (user : User) : M Json :=
  let* policies := OrgPolicy_find_accepted_and_confirmed_by_user_and_active_policy (u_uuid user) MasterPassword in
  let* parsed := ask (λ e, omap (λ p, parse_MasterPasswordPolicy e (p_data p)) policies) in
  let* c := ask cfg in
  let mpp_json := match parsed with
                  | p :: l => JObj (policy_fields (foldl merge_policies p l))
                  | [] => if sso_enabled c then default (JObj []) (sso_master_password_policy c) else JObj []
                  end in
  match mpp_json with
  | JObj fields => mret (JObj (json_insert "Object" (JStr "masterPasswordPolicy") fields))
  | JNull => mret (JObj [("Object", JStr "masterPasswordPolicy")])
  | _ => mpanic
  end.

(** *** push.rs: register_push_device *)

Definition register_push_device (device : Device) : M Device :=
  let* enabled := conf push_enabled in
  if negb enabled || negb (Device_is_push_device device) then mret device
  else match d_push_token device with
       | None => mret device
       | Some _ =>
          let* device := match d_push_uuid device with
                         | None => let* u := get_uuid in mret (device <| d_push_uuid := Some u |>)
                         | Some _ => mret device
                         end in
          do* ensure (push_relay_accepts svc device) "An error occurred while proceeding registration of a device" in
          Device_save device true
       end.

(** The mail about a new device. *)
Definition notify_new_device (user : User) (device : Device) (ip : string) : M unit :=
  let* mail := conf mail_enabled in
  let* t := ask now in
  if mail && Device_is_new device then λ e w,
    match send_mail (MailNewDevice (u_email user) ip t (d_uuid device)) e w with
    | (Err x, w) => if require_device_email (cfg e)
                    then err_event "Could not send login notification email. Please contact your administrator."
                           UserFailedLogIn e w
                    else (Ok tt, w)
    | r => r
    end
  else mret tt.
(** Parts of the answers. *)
Definition has_master_password (user : User) : bool := bool_decide (u_password_hash user ≠ []).
Definition master_password_unlock (user : User) : Json :=
  if has_master_password user then
    JObj [("Kdf", JObj [("KdfType", JNum (u_client_kdf_type user)); ("Iterations", JNum (u_client_kdf_iter user));
                        ("Memory", json_opt JNum (u_client_kdf_memory user));
                        ("Parallelism", json_opt JNum (u_client_kdf_parallelism user))]);
          ("MasterKeyEncryptedUserKey", JStr (u_akey user)); ("MasterKeyWrappedUserKey", JStr (u_akey user));
          ("Salt", JStr (u_email user))]
  else JNull.
Definition account_keys (user : User) : Json :=
  if bool_decide (is_Some (u_private_key user)) then
    JObj [("publicKeyEncryptionKeyPair", JObj [("wrappedPrivateKey", json_opt JStr (u_private_key user));
                                               ("publicKey", json_opt JStr (u_public_key user));
                                               ("Object", JStr "publicKeyEncryptionKeyPair")]);
          ("Object", JStr "privateKeys")]
  else JNull.
Definition decryption_options (user : User) : Json :=
  JObj [("HasMasterPassword", JBool (has_master_password user)); ("MasterPasswordUnlock", master_password_unlock user);
        ("Object", JStr "userDecryptionOptions")].

Definition authenticated_response (user : User) (device : Device) (auth_tokens : AuthTokens)
    (twofactor_token : option string) (ip : string) : M Json :=
  do* notify_new_device user device ip in
  let* device := if negb (Device_is_new device) then register_push_device device else mret device in
  let* _ := Device_save device true in
  let* policy := master_password_policy user in
  let* access_token := some_or_err (encode_access svc (access_claims auth_tokens)) "JWT encoding failed" in
  let* refresh_token := some_or_err (encode_refresh svc (refresh_claims auth_tokens)) "JWT encoding failed" in
  let* t := ask now in
  mret (JObj ([
    ("access_token", JStr access_token);
    ("expires_in", JNum (lj_exp (access_claims auth_tokens) - timestamp t));
    ("token_type", JStr "Bearer");
    ("refresh_token", JStr refresh_token);
    ("PrivateKey", json_opt JStr (u_private_key user));
    ("Kdf", JNum (u_client_kdf_type user));
    ("KdfIterations", JNum (u_client_kdf_iter user));
    ("KdfMemory", json_opt JNum (u_client_kdf_memory user));
    ("KdfParallelism", json_opt JNum (u_client_kdf_parallelism user));
    ("ResetMasterPassword", JBool false);
    ("ForcePasswordReset", JBool false);
    ("MasterPasswordPolicy", policy);
    ("scope", JStr (AuthMethod_scope (rj_sub (refresh_claims auth_tokens))));
    ("AccountKeys", account_keys user);
    ("UserDecryptionOptions", decryption_options user)]
    ++ (if bool_decide (u_akey user ≠ "") then [("Key", JStr (u_akey user))] else [])
    ++ match twofactor_token with Some token => [("TwoFactorToken", JStr token)] | None => [] end)).

(** [str::trim] *)
Definition string_trim (s : string) : string :=
  let cs := utf8_decode (string_bytes s) in
  string_of_chars (as_bytes (trim_end_matches is_whitespace (rev (trim_end_matches is_whitespace (rev cs))))).

(** The first factor: a password, or the access code of a login request that
    was approved, is at most five minutes old and comes from the same address. *)
Definition check_first_factor (user : User) (data : ConnectData) (password ip : string) : M unit :=
  match cd_auth_request data with
  | Some auth_request_id =>
     let* found := AuthRequest_find_by_uuid_and_user auth_request_id (u_uuid user) in
     match found with
     | None => err_event "Auth request not found. Try again." UserFailedLogIn
     | Some auth_request =>
        let* t := ask now in
        let* expiration_time := mexpect (checked_add_signed (ar_creation_date auth_request) (minutes 5)) in
        if negb (bool_decide (ar_user_uuid auth_request = u_uuid user))
           || negb (default false (ar_approved auth_request))
           || (expiration_time <=? t)%Z
           || negb (bool_decide (ip = ar_request_ip auth_request))
           || negb (AuthRequest_check_access_code auth_request password)
        then err_event "Username or access code is incorrect. Try again" UserFailedLogIn
        else mret tt
     end
  | None =>
     let* valid := User_check_valid_password user password in
     if valid then mret tt else err_event "Username or password is incorrect. Try again" UserFailedLogIn
  end.

(** [u32::cast_signed] *)
Definition cast_signed32 (n : Z) : Z := if (n <? 2 ^ 31)%Z then n else (n - 2 ^ 32)%Z.
(** Failing until the address is verified, after sending another mail when
    one is due. *)
Definition check_verified (user : User) : M unit :=
  let* c := ask cfg in
  let* t := ask now in
  if bool_decide (u_verified_at user = None) && mail_enabled c && signups_verify c then
    let due := match u_last_verifying_at user with
               | None => true
               | Some last => (cast_signed64 (signups_verify_resend_time c) <? num_seconds (t - last))%Z
               end in
    let resend_limit := cast_signed32 (signups_verify_resend_limit c) in
    do* (if due && ((resend_limit =? 0)%Z || (u_login_verify_count user <? resend_limit)%Z) then
           let user := user <| u_last_verifying_at := Some t |>
                            <| u_login_verify_count := cast_signed32 (u32_wrap (u_login_verify_count user + 1)) |> in
           do* mignore (let* _ := User_save user in mret tt) in
           mignore (send_mail (MailVerifyEmail (u_email user) (u_uuid user)))
         else mret tt) in
    err_event "Please verify your email before trying again." UserFailedLogIn
  else mret tt.

(** The rest of [password_login], once the user is found. *)
Definition login_as (user : User) (data : ConnectData) (ip : string) (client_version : option string) : M Json :=
  do* (if u_enabled user then mret tt else err_event "This user has been disabled" UserFailedLogIn) in
  let* password := mexpect (cd_password data) in
  do* check_first_factor user data password ip in
  let* user := match cd_auth_request data with
               | None => kdf_upgrade user password
               | Some _ => mret user
               end in
  do* check_verified user in
  let* device := get_device data user in
  let* (user, device, twofactor_token) := twofactor_auth user data device ip client_version in
  let* auth_tokens := AuthTokens_new device user Password (cd_client_id data) in
  authenticated_response user device auth_tokens twofactor_token ip.

Definition find_login_user (data : ConnectData) (ip : string) : M User :=
  let* _ := AuthMethod_check_scope Password (cd_scope data) in
  do* check_limit_login ip in
  let* username := mexpect (cd_username data) in
  let* found := User_find_by_mail (string_trim username) in
  some_or_err found "Username or password is incorrect. Try again".

(** The log of the outcome, once the user is known. *)
Definition log_login (user_id : string) (device_type : Z) (ip : string) (m : M Json) : M Json := λ e w,
  match m e w with
  | (Ok j, w) => (do* log_user_event UserLoggedIn user_id device_type ip in mret j) e w
  | (Err x, w) =>
     match e_event x with
     | Some ev => (do* log_user_event ev user_id device_type ip in mfail x) e w
     | None => (Err x, w)
     end
  | (Panic, w) => (Panic, w)
  end.
(** The password branch of [login], with [password_login] and the log of its
    outcome. *)
Definition login_password (data : ConnectData) (device_type : Z) (ip : string) (client_version : option string) : M Json :=
  let* c := ask cfg in
  do* ensure (negb (sso_enabled c && sso_only c)) "SSO sign-in is required" in
  do* check_is_some (cd_client_id data) "client_id cannot be blank" in
  do* check_is_some (cd_password data) "password cannot be blank" in
  do* check_is_some (cd_scope data) "scope cannot be blank" in
  do* check_is_some (cd_username data) "username cannot be blank" in
  do* check_is_some (cd_device_identifier data) "device_identifier cannot be blank" in
  do* check_is_some (cd_device_name data) "device_name cannot be blank" in
  do* check_is_some (cd_device_type data) "device_type cannot be blank" in
  let* user := find_login_user data ip in
  log_login (u_uuid user) device_type ip (login_as user data ip client_version).
End login.
