(* ===== verification/LoginSafety.v ===== *)
(** * What a password login requires

    A login succeeds only for an enabled account with its first factor and, if
    the account has second factors, with one of them, whatever the client sends
    and whatever the external services answer to other questions. *)

From stdpp Require Import base strings numbers pretty gmap list.
From S2P Require Import Prelude Store Users Orgs AuthRequests TwoFactor TotpReplay OneTimeCodes Login.

(** Running a computation whose success is to imply [P]. *)
Definition implies_ok {A} (P : Prop) : res Error A → World → Prop := λ r _, (∃ a, r = Ok a) → P.
Lemma wp_implied {A} (m : M A) e w P : P → wp m e w (implies_ok P).
Proof. unfold wp, implies_ok. auto. Qed.
Lemma implies_ok_Err {A} P x w : @implies_ok A P (Err x) w.
Proof. intros [a Ha]. done. Qed.
Lemma implies_ok_Panic {A} P w : @implies_ok A P Panic w.
Proof. intros [a Ha]. done. Qed.
#[export] Hint Resolve implies_ok_Err implies_ok_Panic : frame.
(** Bind, forgetting the failures of the first part. *)
Lemma wp_ok_bind {A B} (m : M A) (k : A → M B) e w P :
  wp m e w (λ r w', ∀ a, r = Ok a → wp (k a) e w' (implies_ok P)) → wp (mbind m k) e w (implies_ok P).
Proof.
  intros Hm. apply wp_bind. eapply wp_mono; [exact Hm|]. intros [a|x|] w' H; simpl; auto with frame.
Qed.
(** A step that returns [Ok] only unchanged. *)
Lemma wp_ok_if {A} (m : M A) e w (Q : A → Prop) (Φ : res Error A → World → Prop) :
  (∀ a w', m e w = (Ok a, w') → w' = w ∧ Q a) → (∀ a, Q a → Φ (Ok a) w) → (∀ r w', (∀ a, r ≠ Ok a) → Φ r w') → wp m e w Φ.
Proof.
  intros Hm HΦ Hbad. apply wp_intro. intros [a|x|] w' Hr; [|by apply Hbad..]. destruct (Hm a w' Hr) as [-> HQ]. auto.
Qed.

(** ** The first factor *)

Definition first_factor (e : Env) (d : Db) (user : User) (data : ConnectData) (password ip : string) : Prop :=
  match cd_auth_request data with
  | Some id => ∃ r, auth_requests d !! id = Some r ∧ ar_user_uuid r = u_uuid user ∧ ar_approved r = Some true ∧
      (now e < ar_creation_date r + minutes 5)%Z ∧ ar_request_ip r = ip ∧ ar_access_code r = password
  | None => pbkdf2_verify e (string_bytes password) (u_salt user) (u_password_hash user)
              (cast_unsigned32 (u_password_iterations user)) = true
  end.
Lemma check_first_factor_Ok user data password ip e w a w' :
  check_first_factor user data password ip e w = (Ok a, w') → w' = w ∧ first_factor e (db w) user data password ip.
Proof.
  unfold check_first_factor, first_factor, AuthRequest_find_by_uuid_and_user. destruct (cd_auth_request data) as [id|].
  - cbv [mbind query ask]. destruct (auth_requests (db w) !! id) as [r|] eqn:Hr; simpl; [|done].
    case_bool_decide as Hu; [|done]. cbv [mexpect mret]. destruct (checked_add_signed _ _) as [t|] eqn:Ht; [|done].
    unfold checked_add_signed in Ht. destruct (in_range _); [|done]. simplify_eq.
    destruct (_ || _) eqn:E; [done|]. intros [= _ <-]. split; [done|].
    rewrite !orb_false_iff, !negb_false_iff, !bool_decide_eq_true, Z.leb_gt in E. destruct E as ((((_ & Ha) & Hx) & Hip) & Hc).
    exists r. destruct (ar_approved r) as [[]|]; [|done..]. unfold AuthRequest_check_access_code, ct_eq in Hc.
    apply bool_decide_eq_true in Hc. split_and!; done.
  - unfold User_check_valid_password, verify_password_hash. cbv [mbind mexpect mret ask].
    destruct (_ =? _)%Z; [done|]. destruct (pbkdf2_verify _ _ _ _ _) eqn:E; [|done]. intros [= _ <-]. done.
Qed.

Definition needs_verification (c : Config) (user : User) : Prop :=
  u_verified_at user = None ∧ mail_enabled c = true ∧ signups_verify c = true.
Lemma check_verified_Ok user e w a w' :
  check_verified user e w = (Ok a, w') → w' = w ∧ ¬ needs_verification (cfg e) user.
Proof.
  unfold check_verified. unfold mbind at 1, ask at 1. unfold mbind at 1, ask at 1. cbv beta iota.
  destruct (_ && _) eqn:E.
  - unfold mbind at 1. destruct (_ e w) as [[]]; done.
  - intros [= _ <-]. split; [done|]. intros (H1 & H2 & H3). by rewrite H1, H2, H3 in E.
Qed.

(** ** Between the factors *)

Section login_safety.
Context `{!Serde UserStampException id, !Serde DuoProviderData id, !Serde EmailTokenData id}.
Context (svc : Services).

(** The tables that second factors are checked against. *)
Definition factors (d : Db) : gmap string TwoFactor * gmap string TwoFactorDuoContext := (twofactor d, twofactor_duo_ctx d).

(** What an upgrade of the hash leaves alone. *)
Definition same_account (u u' : User) : Prop :=
  u_uuid u' = u_uuid u ∧ u_email u' = u_email u ∧ u_verified_at u' = u_verified_at u ∧
  u_totp_recover u' = u_totp_recover u.
Lemma wp_kdf_upgrade user pw e w (Φ : res Error User → World → Prop) :
  (∀ user' w', same_account user user' → factors (db w') = factors (db w) → devices (db w') = devices (db w) →
     Φ (Ok user') w') →
  (∀ x w', Φ (Err x) w') → (∀ w', Φ Panic w') → wp (kdf_upgrade user pw) e w Φ.
Proof.
  intros HΦ He HP. unfold kdf_upgrade, User_set_password, hash_password, User_save.
  wp_go; try apply HP; try apply He; by apply HΦ.
Qed.
Lemma wp_get_device data user e w (Φ : res Error Device → World → Prop) :
  (∀ device w', factors (db w') = factors (db w) →
     (∃ id, cd_device_identifier data = Some id ∧ devices (db w) !! (id, u_uuid user) = Some device) ∨
     d_twofactor_remember device = None → Φ (Ok device) w') →
  (∀ w', Φ Panic w') → wp (get_device data user) e w Φ.
Proof.
  intros HΦ HP. unfold get_device, Device_find_by_uuid_and_user, Device_new, generate_refresh_token, encode_random_bytes,
    get_random_bytes, Device_save. wp_go; try apply HP; apply HΦ; eauto.
Qed.

(** ** The second factor *)

(** The ways to satisfy the demand for a second factor with [code], given the
    tables of factors [f] and the device of the login. *)
Inductive accepted (e : Env) (f : gmap string TwoFactor * gmap string TwoFactorDuoContext) (user : User) (device : Device) (data : ConnectData) (code : string)
    : Prop :=
  | by_authenticator row sec step :
     find_twofactor (u_uuid user) (TwoFactorType_to_i32 Authenticator) f.1 = Some row → tf_enabled row = true →
     decode_base32 e (tf_data row) = Some sec → totp_step_ok e sec code step → (tf_last_used row < step)%Z →
     accepted e f user device data code
  | by_email row d :
     find_twofactor (u_uuid user) (TwoFactorType_to_i32 Email) f.1 = Some row → tf_enabled row = true →
     from_json_str (tf_data row) = Some d →
     (email_step (email_attempts_limit (cfg e)) (email_expiration_time (cfg e)) (now e) code d).2 = Accepted →
     accepted e f user device data code
  | by_remembered_device claims :
     disable_2fa_remember (cfg e) = false → d_twofactor_remember device = Some code →
     decode_2fa_remember svc (now e) code = Some claims → rm_sub claims = d_uuid device → rm_user_uuid claims = u_uuid user →
     accepted e f user device data code
  | by_recovery_code recover :
     u_totp_recover user = Some recover → code = str_to_lowercase e recover → accepted e f user device data code
  | by_webauthn row w1 w2 :
     find_twofactor (u_uuid user) (TwoFactorType_to_i32 Webauthn) f.1 = Some row → tf_enabled row = true →
     factors (db w1) = f → validate_webauthn_login svc (u_uuid user) code e w1 = (Ok tt, w2) → accepted e f user device data code
  | by_yubikey row w1 w2 :
     find_twofactor (u_uuid user) (TwoFactorType_to_i32 YubiKey) f.1 = Some row → tf_enabled row = true →
     factors (db w1) = f → validate_yubikey_login svc code (tf_data row) e w1 = (Ok tt, w2) → accepted e f user device data code
  | by_duo_iframe row w1 w2 :
     find_twofactor (u_uuid user) (TwoFactorType_to_i32 Duo) f.1 = Some row → tf_enabled row = true →
     factors (db w1) = f → duo_validate_iframe svc (u_email user) code e w1 = (Ok tt, w2) → accepted e f user device data code
  | by_duo_oidc row client device_id w1 w2 :
     find_twofactor (u_uuid user) (TwoFactorType_to_i32 Duo) f.1 = Some row → tf_enabled row = true →
     factors (db w1) = f → duo_validate_oidc svc (u_email user) code client device_id e w1 = (Ok tt, w2) → accepted e f user device data code.

Definition user_factors (user : string) (t : gmap string TwoFactor) : list TwoFactor :=
  load (λ r, bool_decide (tf_user_uuid r = user) && (tf_atype r <? 1000)%Z) t.

Lemma ask_second_factor_not_Ok {A} ids uid data cv msg e w (a : A) w' :
  ask_second_factor svc ids uid data cv msg e w ≠ (Ok a, w').
Proof. unfold ask_second_factor, mbind. by destruct (json_err_twofactor _ _ _ _ _ _ _) as [[]]. Qed.

(** A row selected among the user's is the one found by type. *)
Lemma selected_row t user id row :
  twofactor_wf t →
  head (filter (λ tf, (tf_atype tf =? id)%Z && tf_enabled tf = true) (user_factors user t)) = Some row →
  find_twofactor user id t = Some row ∧ tf_enabled row = true.
Proof.
  intros Hwf Hh.
  assert (row ∈ filter (λ tf, (tf_atype tf =? id)%Z && tf_enabled tf = true) (user_factors user t)) as Hin.
  { destruct (filter _ _); [done|]. simpl in Hh. simplify_eq. by left. }
  apply list_elem_of_filter in Hin as [[Ha He]%andb_true_iff Hin]. apply Z.eqb_eq in Ha.
  apply elem_of_load in Hin as [[Hu%bool_decide_eq_true _]%andb_true_iff Hk]. split; [|done].
  by apply find_twofactor_iff.
Qed.
(** An offered provider has such a row. *)
Lemma offered_selected c user t id :
  id ∈ offered c (user_factors user t) →
  is_Some (head (filter (λ tf, (tf_atype tf =? id)%Z && tf_enabled tf = true) (user_factors user t))).
Proof.
  unfold offered. intros (row & -> & [[He _]%andb_true_iff Hin]%list_elem_of_filter)%list_elem_of_fmap.
  assert (row ∈ filter (λ tf, (tf_atype tf =? tf_atype row)%Z && tf_enabled tf = true) (user_factors user t)) as Hf.
  { apply list_elem_of_filter. by rewrite Z.eqb_refl, He. }
  destruct (filter _ _); [by apply elem_of_nil in Hf|done].
Qed.

Lemma validate_totp_Ok user device data code ip row e w a w' :
  twofactor_wf (twofactor (db w)) →
  find_twofactor (u_uuid user) (TwoFactorType_to_i32 Authenticator) (twofactor (db w)) = Some row → tf_enabled row = true →
  validate_totp_code_str (u_uuid user) code (tf_data row) ip e w = (Ok a, w') →
  accepted e (factors (db w)) user device data code.
Proof.
  intros Hwf Hf Hen. unfold validate_totp_code_str. cbv [mbind ask ensure]. destruct (str_is_numeric e code); [|done].
  cbv [mret]. intros Hrun.
  destruct (validate_totp_code_outcome (u_uuid user) code (tf_data row) ip e w Hwf) as (r & w1 & Hrun' & Hr).
  rewrite Hrun in Hrun'. simplify_eq. destruct Hr as (sec & step & Hsec & Hok & Hlt & _).
  rewrite last_used_row in Hlt. unfold last_used_of in Hlt. unfold TwoFactorType_to_i32 in Hf. rewrite Hf in Hlt.
  by eapply by_authenticator.
Qed.
Lemma validate_email_Ok user device data code ip row e w a w' :
  twofactor_wf (twofactor (db w)) →
  find_twofactor (u_uuid user) (TwoFactorType_to_i32 Email) (twofactor (db w)) = Some row → tf_enabled row = true →
  validate_email_code_str (u_uuid user) code (tf_data row) ip e w = (Ok a, w') →
  accepted e (factors (db w)) user device data code.
Proof.
  intros Hwf Hf Hen Hrun. destruct (from_json_str (tf_data row)) as [d|] eqn:Hd.
  2: { unfold validate_email_code_str, EmailTokenData_from_json in Hrun. unfold mbind at 1 in Hrun. by rewrite Hd in Hrun. }
  pose proof (email_refinement (u_uuid user) code ip e w row d Hwf Hf Hd) as Href.
  destruct (email_step _ _ _ _ _) as [d' o] eqn:Hstep. destruct Href as (w1 & Hrun' & _). rewrite Hrun in Hrun'.
  simplify_eq. eapply by_email; [done..|]. rewrite Hstep. by destruct o.
Qed.

Lemma TwoFactorType_from_i32_Some n ty : TwoFactorType_from_i32 n = Some ty → n = TwoFactorType_to_i32 ty.
Proof. unfold TwoFactorType_from_i32. intros H. repeat case_match; by simplify_eq. Qed.

Lemma wp_check_second_factor user data device ip cv ids sel code e w :
  twofactor_wf (twofactor (db w)) →
  (is_special sel = false → sel ∈ offered (cfg e) (user_factors (u_uuid user) (twofactor (db w)))) →
  wp (check_second_factor svc user data device ip cv ids sel code
        (head (filter (λ tf, (tf_atype tf =? sel)%Z && tf_enabled tf = true)
                 (user_factors (u_uuid user) (twofactor (db w)))))) e w
    (implies_ok (accepted e (factors (db w)) user device data code)).
Proof.
  intros Hwf Hsel. set (t := twofactor (db w)) in *. unfold check_second_factor.
  destruct (TwoFactorType_from_i32 sel) as [ty|] eqn:Hty; [|apply implies_ok_Err].
  apply TwoFactorType_from_i32_Some in Hty as ->.
  assert (is_special (TwoFactorType_to_i32 ty) = false → ∃ row,
    head (filter (λ tf, (tf_atype tf =? TwoFactorType_to_i32 ty)%Z && tf_enabled tf = true) (user_factors (u_uuid user) t)) = Some row ∧
    find_twofactor (u_uuid user) (TwoFactorType_to_i32 ty) t = Some row ∧ tf_enabled row = true) as Hrow.
  { intros Hs. destruct (offered_selected _ _ _ _ (Hsel Hs)) as [row Hh]. exists row. split; [done|]. by apply selected_row. }
  destruct ty; try apply implies_ok_Err;
    first [destruct (Hrow eq_refl) as (row & Hh & Hf & Hen); rewrite ?Hh; clear Hrow Hsel|clear Hrow Hsel].
  - unfold selected_data. simpl. do 3 wp_step.
    apply wp_ok_bind, wp_intro. intros r w' Hrun a ->. apply wp_implied. by eapply validate_totp_Ok.
  - unfold selected_data. simpl. do 3 wp_step.
    apply wp_ok_bind, wp_intro. intros r w' Hrun a ->. apply wp_implied. by eapply validate_email_Ok.
  - wp_step. wp_step. wp_step. apply wp_ok_bind. destruct (duo_use_iframe (cfg e)).
    + apply wp_intro. intros r w' Hrun [] ->. apply wp_implied. eapply by_duo_iframe; [exact Hf|exact Hen|exact eq_refl|exact Hrun].
    + wp_step. wp_step; [|intros ??; done]. wp_step. wp_step. wp_step; [|done]. wp_step.
      apply wp_intro. intros r w' Hrun [] ->. apply wp_implied. eapply by_duo_oidc; [exact Hf|exact Hen|exact eq_refl|exact Hrun].
  - unfold selected_data. simpl. do 3 wp_step.
    apply wp_ok_bind, wp_intro. intros r w' Hrun [] ->. apply wp_implied. eapply by_yubikey; [exact Hf|exact Hen|exact eq_refl|exact Hrun].
  - wp_step. wp_step. wp_step. destruct (remember_valid _ _ _ _ _ _) eqn:Hr.
    + wp_step. intros _. unfold remember_valid in Hr. destruct (d_twofactor_remember device) as [tok|] eqn:Htok; [|done].
      rewrite !andb_true_iff, negb_true_iff in Hr. destruct Hr as ((Hd & Hc) & Hcl). apply bool_decide_eq_true in Hc as ->.
      destruct (decode_2fa_remember svc (now e) code) as [cl|] eqn:Hdec; [|done].
      rewrite andb_true_iff, !bool_decide_eq_true in Hcl. destruct Hcl as [Hs1 Hs2].
      by eapply (by_remembered_device _ _ _ _ _ _ cl).
    + apply wp_ok_bind, wp_intro. intros r w' _ a ->. apply wp_intro. intros [u|x|] w2 H2; auto with frame.
      by apply ask_second_factor_not_Ok in H2.
  - apply wp_ok_bind, wp_intro. intros r w' Hrun [] ->. apply wp_implied. eapply by_webauthn; [exact Hf|exact Hen|exact eq_refl|exact Hrun].
  - unfold User_check_valid_recovery_code. destruct (u_totp_recover user) as [rc|] eqn:Hrc.
    + wp_step. wp_step. wp_step. wp_step. wp_step; [|apply implies_ok_Err]. wp_step. apply wp_implied.
      apply bool_decide_eq_true in Hc. by eapply by_recovery_code.
    + wp_step. wp_step. wp_step. wp_step. wp_step; [done|apply implies_ok_Err].
Qed.

Lemma keeps_mark_incomplete u d n t ip : keeps factors (TwoFactorIncomplete_mark_incomplete u d n t ip).
Proof.
  unfold TwoFactorIncomplete_mark_incomplete, TwoFactorIncomplete_find_by_user_and_device. solve_keeps.
Qed.

Lemma wp_twofactor_auth user data device ip cv e w :
  twofactor_wf (twofactor (db w)) →
  wp (twofactor_auth svc user data device ip cv) e w (implies_ok
    (user_factors (u_uuid user) (twofactor (db w)) = [] ∨
     ∃ code, cd_two_factor_token data = Some code ∧ accepted e (factors (db w)) user device data code)).
Proof.
  intros Hwf. unfold twofactor_auth, TwoFactor_find_by_user. wp_step. wp_step. wp_step.
  case_bool_decide as Hempty; [apply wp_implied; by left|].
  wp_step. apply (wp_keeps factors); [apply keeps_mark_incomplete|]. intros [[]|x|] w1 Hf1;
    [|apply implies_ok_Err|apply implies_ok_Panic]. assert (twofactor (db w1) = twofactor (db w)) as Hw1 by exact (f_equal fst Hf1).
  wp_step. wp_step. wp_step. wp_step. wp_step. wp_step; [|apply implies_ok_Err]. wp_step. set (ids := offered _ _) in *.
  set (sel := default a (cd_two_factor_provider data)). apply wp_ok_bind, wp_intro. intros r w2 Hr [] ->.
  assert (w2 = w1 ∧ (is_special sel = false → sel ∈ ids)) as [-> Hsel].
  { destruct (negb (is_special sel) && _) eqn:E; [by apply ask_second_factor_not_Ok in Hr|]. injection Hr as <-.
    split; [done|]. intros Hs. rewrite Hs in E. simpl in E. by apply negb_false_iff, bool_decide_eq_true in E. }
  apply wp_ok_bind, wp_intro. intros r w2 Hcode code ->. destruct (cd_two_factor_token data) as [c|] eqn:Htok;
    [|by apply ask_second_factor_not_Ok in Hcode]. injection Hcode as <- <-.
  apply wp_bind. eapply wp_mono.
  - rewrite <- Hw1. apply wp_check_second_factor; rewrite Hw1; done.
  - rewrite Hf1. intros [u|x|] w3 Hacc; [|apply implies_ok_Err|apply implies_ok_Panic].
    wp_step. apply wp_implied. right. exists c. split; [done|]. apply Hacc. by eexists.
Qed.

(** The account a login names. *)
Definition login_account (e : Env) (d : Db) (data : ConnectData) : option User :=
  username ← cd_username data;
  first (λ u, bool_decide (u_email u = str_to_lowercase e (string_trim username))) (users d).

Lemma find_login_user_Ok data ip e w user w' :
  find_login_user data ip e w = (Ok user, w') → w' = w ∧ login_account e (db w) data = Some user.
Proof.
  intros Hrun. enough (wp (find_login_user data ip) e w (λ r w', ∀ user, r = Ok user →
    w' = w ∧ login_account e (db w) data = Some user)) as Hwp by (by apply (wp_run _ _ _ _ Hwp _ _ Hrun)).
  unfold find_login_user, AuthMethod_check_scope, check_limit_login, User_find_by_mail, login_account.
  wp_step. wp_go; try done; [|intros ? Hx; done..]. intros ? [= <-]. by rewrite Ho.
Qed.

(** What a successful login of [user] implies. *)
Definition login_conditions (e : Env) (d : Db) (user : User) (data : ConnectData) (ip : string) : Prop :=
  ∃ password, u_enabled user = true ∧
    cd_password data = Some password ∧ first_factor e d user data password ip ∧
    ¬ needs_verification (cfg e) user ∧
    (user_factors (u_uuid user) (twofactor d) = [] ∨
     ∃ code user' device, cd_two_factor_token data = Some code ∧ same_account user user' ∧
       ((∃ id, cd_device_identifier data = Some id ∧ devices d !! (id, u_uuid user) = Some device) ∨
        d_twofactor_remember device = None) ∧
       accepted e (factors d) user' device data code).

Lemma wp_login_as user data ip cv e w :
  twofactor_wf (twofactor (db w)) →
  wp (login_as svc user data ip cv) e w (implies_ok (login_conditions e (db w) user data ip)).
Proof.
  intros Hwf. unfold login_as. wp_step. destruct (u_enabled user) eqn:Hen; [|apply implies_ok_Err]. wp_step. wp_step.
  wp_step. wp_step; [|apply implies_ok_Panic]. wp_step.
  apply wp_ok_bind, wp_intro. intros r w1 Hff [] ->. apply check_first_factor_Ok in Hff as [-> Hff].
  assert (∀ user' w1, same_account user user' → factors (db w1) = factors (db w) → devices (db w1) = devices (db w) →
    wp (do* check_verified user' in
        let* device := get_device data user' in
        let* (user, device, twofactor_token) := twofactor_auth svc user' data device ip cv in
        let* auth_tokens := AuthTokens_new svc device user Password (cd_client_id data) in
        authenticated_response svc user device auth_tokens twofactor_token ip) e w1
      (implies_ok (login_conditions e (db w) user data ip))) as Hmain.
  { intros user' w1 Hsame Hfac Hdev. pose proof Hsame as (Hu & _ & Hv & _).
    apply wp_ok_bind, wp_intro. intros r w2 Hver [] ->. apply check_verified_Ok in Hver as [-> Hver].
    wp_step. apply wp_get_device; [|intros w2; apply implies_ok_Panic]. intros device w2 Hw2 Hd. wp_step.
    assert (factors (db w2) = factors (db w)) as Hf2 by congruence. pose proof (f_equal fst Hf2 : twofactor (db w2) = twofactor (db w)) as Ht2.
    apply wp_bind. eapply wp_mono; [apply wp_twofactor_auth; by rewrite Ht2|].
    intros [[[u d] tok]|x|] w3 Hacc; [|apply implies_ok_Err|apply implies_ok_Panic]. wp_step. apply wp_implied.
    exists a. split_and!; [done..| |].
    - unfold needs_verification in *. by rewrite Hv in Hver.
    - rewrite Ht2, Hf2, Hu in Hacc. destruct Hacc as [?|(code & Hc & Ha)]; [by eexists|by left|right].
      exists code, user', device. rewrite Hdev, Hu in Hd. done. }
  destruct (cd_auth_request data) as [id|].
  - do 3 wp_step. by apply Hmain.
  - wp_step. apply wp_kdf_upgrade; [|intros x w2; apply implies_ok_Err|intros w2; apply implies_ok_Panic].
    intros user' w2 Hs H1 H2. wp_step. by apply Hmain.
Qed.

Lemma wp_log_login user t ip (m : M Json) e w P :
  wp m e w (implies_ok P) → wp (log_login user t ip m) e w (implies_ok P).
Proof.
  unfold wp, log_login. intros Hm. destruct (m e w) as [[j|x|] w1].
  - intros _. apply Hm. by eexists.
  - destruct (e_event x); [|apply implies_ok_Err]. unfold mbind. destruct (log_user_event _ _ _ _ _ _) as [[[]|y|] w3];
      [apply implies_ok_Err..|apply implies_ok_Panic].
  - apply implies_ok_Panic.
Qed.

(** What a password login requires.  If it succeeds, the name given is the
    address of an enabled account; its password was right, or, for a login
    through a device request, that request is the account's, was approved, is
    less than five minutes old, comes from the same network address, and its
    access code was given; the address was verified, if that is demanded; and
    unless the account has no second factor, a token was given that one of its
    enabled factors accepts: an unused code of the authenticator app within the
    window, the mailed code, a recovery code, the remembered token of this
    device and user, or what the external service of an enabled factor
    accepts. *)
Theorem login_password_sound data device_type ip cv e w j w' :
  twofactor_wf (twofactor (db w)) →
  login_password svc data device_type ip cv e w = (Ok j, w') →
  ∃ user, login_account e (db w) data = Some user ∧ login_conditions e (db w) user data ip.
Proof.
  intros Hwf Hrun. enough (wp (login_password svc data device_type ip cv) e w
    (implies_ok (∃ user, login_account e (db w) data = Some user ∧ login_conditions e (db w) user data ip))) as Hwp
    by (apply (wp_run _ _ _ _ Hwp _ _ Hrun); by eexists).
  unfold login_password, check_is_some. wp_step. wp_step. wp_step.
  do 8 (wp_step; wp_step; [|apply implies_ok_Err]; wp_step).
  apply wp_ok_bind, wp_intro. intros r w1 Hfind user ->. apply find_login_user_Ok in Hfind as [-> Hacc].
  apply wp_log_login. eapply wp_mono; [by apply wp_login_as|]. intros r w2 H Hr. exists user. split; [done|]. by apply H.
Qed.
End login_safety.

(** ** Witness *)

Module ToyLogin.
Import ToyEnv ToyUsers ToyTwoFactor ToyCodes.

#[export] Instance DuoProviderData_eq_dec : EqDecision DuoProviderData.
Proof. solve_decision. Defined.
#[export] Instance DuoProviderData_countable : Countable DuoProviderData :=
  inj_countable' (λ x, (duo_data_host x, duo_data_ik x, duo_data_sk x))
    (λ '(a, b, c), mkDuoProviderData a b c) (λ x, match x with mkDuoProviderData _ _ _ => eq_refl end).
#[export] Instance toy_duo_serde : Serde DuoProviderData id := toy_serde id.

(** Services that accept nothing, and tokens that name their subject. *)
Definition toy_services : Services := {|
  validate_webauthn_login := λ _ _, err "no"; generate_webauthn_login := λ _, err "no";
  validate_yubikey_login := λ _ _, err "no"; yubikey_nfc := λ _, None;
  duo_validate_iframe := λ _ _, err "no"; duo_validate_oidc := λ _ _ _ _, err "no";
  duo_signature := λ _, err "no"; duo_auth_url := λ _ _ _, err "no";
  login_issuer := "login"; remember_issuer := "2fa"; org_api_key_issuer := "org";
  encode_access := λ c, Some (lj_sub c); encode_refresh := λ c, Some (rj_device_token c);
  encode_remember := λ c, Some (rm_sub c); decode_2fa_remember := λ _ _, None;
  decode_login := λ t s, Some (mkLoginJwtClaims 0 (timestamp t) "login" "alice" true "alice" "alice@example.org" true s "d1"
                                 "Web" "web" [] []);
  decode_refresh := λ _ _, None; encode_org_api := λ c, Some (ok_sub c); decode_validation := λ _, None;
  decode_basic := λ _, None; sso_exchange_refresh_token := λ _, err "no"; sso_check_validity := λ _, err "no";
  version_at_least_2025_5 := λ _, true; push_relay_accepts := λ _, true;
|}.
Definition toy_connect (code : string) : ConnectData :=
  mkConnectData None (Some "web") None (Some "pw") (Some "api offline_access") (Some " alice@example.org") (Some "d1") (Some "phone")
    (Some "9") (Some 0%Z) (Some code) None None None None.
End ToyLogin.
Import ToyEnv ToyUsers ToyTwoFactor ToyCodes ToyLogin.

(** An account with an authenticator app; the code of step 10. *)
Lemma login_password_sound_witness :
  ∃ j w', login_password toy_services (toy_connect "10") 9 "ip" None (toy_env (seconds 305))
            (toy_tf_world (toy_row "t1" "alice" 0 "secret")) = (Ok j, w') ∧
  ∃ user, login_account (toy_env (seconds 305)) (db (toy_tf_world (toy_row "t1" "alice" 0 "secret"))) (toy_connect "10")
            = Some user ∧
    login_conditions toy_services (toy_env (seconds 305)) (db (toy_tf_world (toy_row "t1" "alice" 0 "secret"))) user
      (toy_connect "10") "ip".
Proof.
  do 2 eexists. split; [vm_compute; reflexivity|].
  eapply (login_password_sound toy_services (toy_connect "10") 9 "ip" None); [apply toy_tf_wf|]. vm_compute. reflexivity.
Defined.
