(* ===== verification/Sessions.v ===== *)
(** * Sessions: tokens and request guards

    What a client does after a login, or instead of one.  Of [server/src/auth.rs]:
    the request guards that turn an access token into a user, a device and a
    role in an organization, and [refresh_tokens]; of [api/identity.rs]: the
    grants [refresh_token] and [client_credentials]; of [sso.rs]: the tokens of a
    session bound to an identity provider; of [db/models/organization.rs]:
    [OrganizationApiKey]. *)

From stdpp Require Import base strings numbers pretty gmap list.
From S2P Require Import Prelude Store Users Orgs AuthRequests TwoFactor OneTimeCodes Login.

(** ** Text *)

(** The text after the last occurrence of a pattern. *)
Fixpoint after_last (pat s : string) : option string :=
  match s with
  | EmptyString => None
  | String _ s' =>
     match after_last pat s' with
     | Some r => Some r
     | None => if String.prefix pat s then Some (String.substring (String.length pat) (String.length s) s) else None
     end
  end.
(** [s.rsplit(pat).next()], for a pattern that does not overlap itself *)
Definition rsplit_next (pat s : string) : string := default s (after_last pat s).
(** [str::strip_prefix] *)
Definition strip_prefix (pat s : string) : option string :=
  if String.prefix pat s then Some (String.substring (String.length pat) (String.length s) s) else None.

(** ** auth.rs: request guards *)

(** What the guards read of a request. *)
Record Request := mkRequest {
  rq_authorization : option string;     (* the Authorization header *)
  rq_route : option string;             (* the name of the route *)
  rq_param_1 : option string;           (* the second segment of the path *)
  rq_organizationId : option string;    (* a query value *)
  rq_ip : string;
}.
(** [err_handler!] *)
Definition err_handler {A} (msg : string) : M A := err_code msg 401.
Definition some_or_401 {A} (o : option A) (msg : string) : M A :=
  match o with Some a => mret a | None => err_handler msg end.

(** [auth::Headers], less the host name *)
Record Session := mkSession { sn_device : Device; sn_user : User; sn_ip : string }.

Section sessions.
Context `{!Serde UserStampException id}.
Context (svc : Services).

(** The check of a stamp that is not the current one. *)
Definition check_stamp_exception (rq : Request) (user : User) (claims : LoginJwtClaims) : M unit :=
  match s ← u_stamp_exception user; from_json_str s with
  | Some stamp_exception =>
     let* current_route := some_or_401 (rq_route rq) "Error getting current route for stamp exception" in
     let* t := ask now in
     if (se_expire stamp_exception <? timestamp t)%Z then
       do* mignore (let* _ := User_save (User_reset_stamp_exception user) in mret tt) in
       err_handler "Stamp exception is expired"
     else if negb (bool_decide (current_route ∈ se_routes stamp_exception)) then
       err_handler "Invalid security stamp: Current route and exception route do not match"
     else if negb (bool_decide (se_security_stamp stamp_exception = lj_sstamp claims)) then
       err_handler "Invalid security stamp for matched stamp exception"
     else mret tt
  | None => err_handler "Invalid security stamp"
  end.
Definition Headers_from_request (rq : Request) : M Session :=
  let* a := some_or_401 (rq_authorization rq) "No access token provided" in
  let access_token := rsplit_next "Bearer " a in
  let* t := ask now in
  let* claims := some_or_401 (decode_login svc t access_token) "Invalid claim" in
  let device_id := lj_device claims in
  let user_id := lj_sub claims in
  let* found := Device_find_by_uuid_and_user device_id user_id in
  let* device := some_or_401 found "Invalid device id" in
  let* found := User_find_by_uuid user_id in
  let* user := some_or_401 found "Device has no user associated" in
  do* (if bool_decide (u_security_stamp user = lj_sstamp claims) then mret tt else check_stamp_exception rq user claims) in
  mret (mkSession device user (rq_ip rq)).

(** [OrganizationId] as a path segment must be a UUID; as a query value it is
    any text. *)
Definition get_org_id (rq : Request) : M (option string) :=
  ask (λ e, match rq_param_1 rq with
            | Some p => if bool_decide (is_Some (uuid_parse_str e p)) then Some p else rq_organizationId rq
            | None => rq_organizationId rq
            end).

(** [OrgHeaders], less the host name *)
Record OrgSession := mkOrgSession {
  os_device : Device; os_user : User; os_membership_type : MembershipType; os_membership_status : MembershipStatus;
  os_membership : Membership; os_ip : string }.
Definition is_member (h : OrgSession) : bool :=
  negb (bool_decide (os_membership_status h = MS_Revoked)) &&
  match MembershipType_cmp (os_membership_type h) MT_User with Lt => false | _ => true end.
Definition is_confirmed (h : OrgSession) : bool := bool_decide (os_membership_status h = MS_Confirmed).
Definition is_confirmed_and_admin (h : OrgSession) : bool :=
  is_confirmed h && match MembershipType_cmp (os_membership_type h) MT_Admin with Lt => false | _ => true end.
Definition is_confirmed_and_manager (h : OrgSession) : bool :=
  is_confirmed h && match MembershipType_cmp (os_membership_type h) MT_Manager with Lt => false | _ => true end.
Definition is_confirmed_and_owner (h : OrgSession) : bool :=
  is_confirmed h && bool_decide (os_membership_type h = MT_Owner).

Definition OrgHeaders_from_request (rq : Request) : M OrgSession :=
  let* headers := Headers_from_request rq in
  let* url_org_id := get_org_id rq in
  match url_org_id with
  | Some org_id =>
     let* valid := ask (λ e, bool_decide (is_Some (uuid_parse_str e org_id))) in
     if valid then
       let user := sn_user headers in
       let* found := Membership_find_by_user_and_org (u_uuid user) org_id in
       let* membership := some_or_401 found "The current user isn't member of the organization" in
       let* ty := some_or_401 (MembershipType_from_i32 (m_atype membership)) "Unknown user type in the database" in
       let* st := some_or_401 (MembershipStatus_from_i32 (m_status membership))
                    "User status is either revoked or invalid." in
       mret (mkOrgSession (sn_device headers) user ty st membership (sn_ip headers))
     else err_handler "Error getting the organization id"
  | None => err_handler "Error getting the organization id"
  end.
(** [AdminHeaders], [ManagerHeadersLoose], [OwnerHeaders] and [OrgMemberHeaders]
    keep parts of [OrgHeaders]. *)
Definition AdminHeaders_from_request (rq : Request) : M OrgSession :=
  let* headers := OrgHeaders_from_request rq in
  if is_confirmed_and_admin headers then mret headers
  else err_handler "You need to be Admin or Owner to call this endpoint".
Definition ManagerHeadersLoose_from_request (rq : Request) : M OrgSession :=
  let* headers := OrgHeaders_from_request rq in
  if is_confirmed_and_manager headers then mret headers
  else err_handler "You need to be a Manager, Admin or Owner to call this endpoint".
Definition OwnerHeaders_from_request (rq : Request) : M OrgSession :=
  let* headers := OrgHeaders_from_request rq in
  if is_confirmed_and_owner headers then mret headers
  else err_handler "You need to be Owner to call this endpoint".
Definition OrgMemberHeaders_from_request (rq : Request) : M OrgSession :=
  let* headers := OrgHeaders_from_request rq in
  if is_member headers then mret headers
  else err_handler "You need to be a Member of the Organization to call this endpoint".

(** ** sso.rs: tokens of a session with an identity provider *)

Definition BasicTokenClaims_nbf (self : BasicTokenClaims) : M Z :=
  let* t := ask now in
  mret (match bt_nbf self, bt_iat self with Some n, _ => n | None, Some n => n | None, None => timestamp t end).
(** An error is [None]: the callers do not look at it.  The second decoding is
    unwrapped. *)
Definition decode_token_claims (token : string) : M (option BasicTokenClaims) :=
  match decode_validation svc token with
  | Some (exp, iss) =>
     let* t := ask now in
     let* authority := conf sso_authority in
     if (exp <? u64_wrap (timestamp t - 60))%Z then mret None
     else if negb (bool_decide (iss = authority)) then mret None
     else let* btc := mexpect (decode_basic svc token) in mret (Some btc)
  | None => mret None
  end.
Definition create_auth_tokens_impl (device : Device) (refresh_token : option string) (access : LoginJwtClaims)
    (access_token : string) : M AuthTokens :=
  let* (nbf, exp, token) :=
    match refresh_token with
    | Some rt =>
       let* decoded := decode_token_claims rt in
       match decoded with
       | None =>
          let* t := ask now in
          let* exp := now_plus (86400 * 30) in
          mret (timestamp t, timestamp exp, Refresh rt)
       | Some refresh_payload =>
          let* nbf := BasicTokenClaims_nbf refresh_payload in
          mret (nbf, bt_exp refresh_payload, Refresh rt)
       end
    | None => mret (lj_nbf access, lj_exp access, Access access_token)
    end in
  mret (mkAuthTokens (mkRefreshJwtClaims nbf exp (login_issuer svc) Sso (d_refresh_token device) (Some token)) access).
Definition create_auth_tokens (device : Device) (user : User) (client_id : option string) (refresh_token : option string)
    (access_token : string) (expires_in : option Z) : M AuthTokens :=
  let* only := conf sso_auth_only_not_session in
  if only then AuthTokens_new svc device user Sso client_id
  else
    let* t := ask now in
    let* decoded := decode_token_claims access_token in
    let* (ap_nbf, ap_exp) :=
      match decoded, expires_in with
      | Some ap, _ => let* nbf := BasicTokenClaims_nbf ap in mret (nbf, bt_exp ap)
      | None, Some exp => let* x := mexpect (checked_add_signed t exp) in mret (timestamp t, timestamp x)
      | None, None => err "Non jwt access_token and empty expires_in"
      end in
    let* access := LoginJwtClaims_new svc device user ap_nbf ap_exp (AuthMethod_scope_vec Sso) client_id in
    create_auth_tokens_impl device refresh_token access access_token.
Definition exchange_refresh_token (device : Device) (user : User) (client_id : option string) (claims : RefreshJwtClaims)
    : M AuthTokens :=
  match rj_token claims with
  | Some (Refresh refresh_token) =>
     let* (new_refresh_token, access_token, expires_in) := sso_exchange_refresh_token svc refresh_token in
     create_auth_tokens device user client_id
       (match new_refresh_token with Some t => Some t | None => Some refresh_token end) access_token expires_in
  | Some (Access access_token) =>
     let* t := ask now in
     let* exp_limit := now_plus 300 in
     do* ensure (negb (rj_exp claims <? timestamp exp_limit)%Z)
           "Access token is close to expiration but we have no refresh token" in
     do* sso_check_validity svc access_token in
     let* access := LoginJwtClaims_new svc device user (timestamp t) (rj_exp claims) (AuthMethod_scope_vec Sso) client_id in
     create_auth_tokens_impl device None access access_token
  | None => err "No token present while in SSO"
  end.

(** ** auth.rs, identity.rs: refreshing *)

(** A token that does not decode is taken for one of the old style. *)
Definition refresh_claims_of (t : Z) (refresh_token : string) : RefreshJwtClaims :=
  default (mkRefreshJwtClaims 0 0 "" Password refresh_token None) (decode_refresh svc t refresh_token).
Definition refresh_tokens (refresh_token : string) (client_id : option string) : M (Device * AuthTokens) :=
  let* t := ask now in
  let refresh_claims := refresh_claims_of t refresh_token in
  let* found := Device_find_by_refresh_token (rj_device_token refresh_claims) in
  let* device := some_or_err found "Invalid refresh token" in
  let* device := Device_save device true in
  let* found := User_find_by_uuid (d_user_uuid device) in
  let* user := some_or_err found "Impossible to find user" in
  let* c := ask cfg in
  let* auth_tokens :=
    match rj_sub refresh_claims with
    | Sso => if sso_enabled c then
               if sso_auth_only_not_session c then AuthTokens_new svc device user (rj_sub refresh_claims) client_id
               else exchange_refresh_token device user client_id refresh_claims
             else err "SSO is now disabled, Login again using email and master password"
    | Password => if sso_enabled c && sso_only c then err "SSO is now required, Login again"
                  else AuthTokens_new svc device user (rj_sub refresh_claims) client_id
    | _ => err "Invalid auth method, cannot refresh token"
    end in
  mret (device, auth_tokens).

Definition invalid_grant : Json := JObj [("error", JStr "invalid_grant")].
Definition refresh_login (data : ConnectData) : M Json :=
  match cd_refresh_token data with
  | None => err_json invalid_grant "Missing refresh_token"
  | Some refresh_token => λ e w,
     match refresh_tokens refresh_token (cd_client_id data) e w with
     | (Err x, w) => err_json invalid_grant ("Unable to refresh login credentials: " +:+ e_message x) e w
     | (Panic, w) => (Panic, w)
     | (Ok (device, auth_tokens), w) =>
        (let* _ := Device_save device true in
         let* refresh := some_or_err (encode_refresh svc (refresh_claims auth_tokens)) "JWT encoding failed" in
         let* access := some_or_err (encode_access svc (access_claims auth_tokens)) "JWT encoding failed" in
         let* t := ask now in
         mret (JObj [("refresh_token", JStr refresh); ("access_token", JStr access);
                     ("expires_in", JNum (lj_exp (access_claims auth_tokens) - timestamp t));
                     ("token_type", JStr "Bearer");
                     ("scope", JStr (AuthMethod_scope (rj_sub (refresh_claims auth_tokens))))])) e w
     end
  end.
(** The branch of [login] for this grant. *)
Definition login_refresh_token (data : ConnectData) : M Json :=
  do* check_is_some (cd_refresh_token data) "refresh_token cannot be blank" in
  refresh_login data.

(** ** API keys *)

Definition user_key_prefix : string := "user.".
Definition organization_key_prefix : string := "organization.".

(** The user named by the client identifier. *)
Definition find_api_key_user (data : ConnectData) : M User :=
  let* client_id := mexpect (cd_client_id data) in
  let* client_user_id := some_or_err (strip_prefix user_key_prefix client_id) "Malformed client_id" in
  let* found := User_find_by_uuid client_user_id in
  some_or_err found "Invalid client_id".
(** The rest of [user_api_key_login]. *)
Definition user_api_key_login (user : User) (data : ConnectData) (ip : string) : M Json :=
  do* (if u_enabled user then mret tt else err_event "This user has been disabled (API key login)" UserFailedLogIn) in
  let* client_secret := mexpect (cd_client_secret data) in
  do* (if User_check_valid_api_key user client_secret then mret tt
       else err_event "Incorrect client_secret" UserFailedLogIn) in
  let* device := get_device data user in
  do* notify_new_device user device ip in
  let* access_claims := LoginJwtClaims_default svc device user UserApiKey (cd_client_id data) in
  let* _ := Device_save device true in
  let* token := some_or_err (encode_access svc access_claims) "JWT encoding failed" in
  let* t := ask now in
  mret (JObj [
    ("access_token", JStr token);
    ("expires_in", JNum (lj_exp access_claims - timestamp t));
    ("token_type", JStr "Bearer");
    ("Key", JStr (u_akey user));
    ("PrivateKey", json_opt JStr (u_private_key user));
    ("Kdf", JNum (u_client_kdf_type user));
    ("KdfIterations", JNum (u_client_kdf_iter user));
    ("KdfMemory", json_opt JNum (u_client_kdf_memory user));
    ("KdfParallelism", json_opt JNum (u_client_kdf_parallelism user));
    ("ResetMasterPassword", JBool false);
    ("ForcePasswordReset", JBool false);
    ("scope", JStr (AuthMethod_scope UserApiKey));
    ("AccountKeys", account_keys user);
    ("UserDecryptionOptions", decryption_options user)]).

(** *** organization.rs: OrganizationApiKey *)

Definition OrganizationApiKey_new (org_uuid api_key : string) : M OrganizationApiKey :=
  let* uuid := get_uuid in
  let* t := ask now in
  mret (mkOrganizationApiKey uuid org_uuid 0 api_key t).
Definition OrganizationApiKey_check_valid_api_key (self : OrganizationApiKey) (api_key : string) : bool :=
  ct_eq (oak_api_key self) api_key.
Definition OrganizationApiKey_save (self : OrganizationApiKey) : M unit :=
  exec (λ d, d <| organization_api_key := <[(oak_uuid self, oak_org_uuid self) := self]> (organization_api_key d) |>).
Definition OrganizationApiKey_find_by_org_uuid (org_uuid : string) : M (option OrganizationApiKey) :=
  query (λ d, first (λ k, bool_decide (oak_org_uuid k = org_uuid)) (organization_api_key d)).
Definition OrganizationApiKey_delete_all_by_organization (org_uuid : string) : M unit :=
  exec (λ d, d <| organization_api_key :=
    delete_where (λ k, bool_decide (oak_org_uuid k = org_uuid)) (organization_api_key d) |>).

Definition generate_organization_api_key_login_claims (org_api_key_uuid org_id : string) : M OrgApiKeyLoginJwtClaims :=
  let* t := ask now in
  let* exp := now_plus 3600 in
  mret (mkOrgApiKeyLoginJwtClaims (timestamp t) (timestamp exp) (org_api_key_issuer svc) org_api_key_uuid
          (organization_key_prefix +:+ org_id) org_id ["api.organization"]).
Definition organization_api_key_login (data : ConnectData) : M Json :=
  let* client_id := mexpect (cd_client_id data) in
  let* org_id := some_or_err (strip_prefix organization_key_prefix client_id) "Malformed client_id" in
  let* found := OrganizationApiKey_find_by_org_uuid org_id in
  let* org_api_key := some_or_err found "Invalid client_id" in
  let* client_secret := mexpect (cd_client_secret data) in
  do* ensure (OrganizationApiKey_check_valid_api_key org_api_key client_secret) "Incorrect client_secret" in
  let* claim := generate_organization_api_key_login_claims (oak_uuid org_api_key) (oak_org_uuid org_api_key) in
  let* access_token := some_or_err (encode_org_api svc claim) "JWT encoding failed" in
  mret (JObj [("access_token", JStr access_token); ("expires_in", JNum 3600); ("token_type", JStr "Bearer");
              ("scope", JStr (AuthMethod_scope OrgApiKey))]).

(** [api_key_login], with the log of a user's login. *)
Definition api_key_login (data : ConnectData) (device_type : Z) (ip : string) : M Json :=
  do* check_limit_login ip in
  match cd_scope data with
  | Some scope =>
     if bool_decide (scope = AuthMethod_scope UserApiKey) then
       let* user := find_api_key_user data in
       log_login (u_uuid user) device_type ip (user_api_key_login user data ip)
     else if bool_decide (scope = AuthMethod_scope OrgApiKey) then organization_api_key_login data
     else err "Scope not supported"
  | None => err "Scope not supported"
  end.
(** The branch of [login] for the grant [client_credentials]. *)
Definition login_client_credentials (data : ConnectData) (device_type : Z) (ip : string) : M Json :=
  do* check_is_some (cd_client_id data) "client_id cannot be blank" in
  do* check_is_some (cd_client_secret data) "client_secret cannot be blank" in
  do* check_is_some (cd_scope data) "scope cannot be blank" in
  do* check_is_some (cd_device_identifier data) "device_identifier cannot be blank" in
  do* check_is_some (cd_device_name data) "device_name cannot be blank" in
  do* check_is_some (cd_device_type data) "device_type cannot be blank" in
  api_key_login data device_type ip.
End sessions.
