(* ===== verification/SessionSafety.v ===== *)
(** * What a session requires

    Exactly which requests the guards let through, what a password change does
    to the sessions of the account, and what a login with an API key requires. *)

From stdpp Require Import base strings numbers pretty gmap list.
From S2P Require Import Prelude Store Users Orgs AuthRequests TwoFactor TotpReplay OneTimeCodes Login LoginSafety Sessions.

Section session_safety.
Context `{!Serde UserStampException id}.
Context (svc : Services).

(** ** Access tokens *)

(** The exception stored with a user admits a request made with [stamp]. *)
Definition exception_admits (e : Env) (rq : Request) (text : option string) (stamp : string) : Prop :=
  ∃ s ex route, text = Some s ∧ from_json_str s = Some ex ∧ rq_route rq = Some route ∧ route ∈ se_routes ex ∧
    se_security_stamp ex = stamp ∧ (timestamp (now e) ≤ se_expire ex)%Z.

(** The claims of the token a request carries. *)
Definition request_claims (e : Env) (rq : Request) : option LoginJwtClaims :=
  a ← rq_authorization rq; decode_login svc (now e) (rsplit_next "Bearer " a).

Definition session_of (e : Env) (d : Db) (rq : Request) (s : Session) : Prop :=
  ∃ claims, request_claims e rq = Some claims ∧
    devices d !! (lj_device claims, lj_sub claims) = Some (sn_device s) ∧
    users d !! lj_sub claims = Some (sn_user s) ∧ sn_ip s = rq_ip rq ∧
    (u_security_stamp (sn_user s) = lj_sstamp claims ∨
     exception_admits e rq (u_stamp_exception (sn_user s)) (lj_sstamp claims)).

Lemma check_stamp_exception_Ok rq user claims e w w' :
  check_stamp_exception rq user claims e w = (Ok tt, w') ↔
  w' = w ∧ exception_admits e rq (u_stamp_exception user) (lj_sstamp claims).
Proof.
  unfold check_stamp_exception, exception_admits, some_or_401, err_handler, err_code, mfail.
  destruct (u_stamp_exception user) as [s|]; simpl; [|naive_solver].
  destruct (from_json_str s) as [ex|] eqn:Hs; simpl; [|naive_solver].
  destruct (rq_route rq) as [route|]; [|cbv [mbind]; naive_solver]. cbv [mbind mret ask].
  destruct (se_expire ex <? timestamp (now e))%Z eqn:Hx.
  { apply Z.ltb_lt in Hx. split; [destruct (mignore _ _ _) as [[]]; done|]. intros (_ & ? & ? & ? & ? & ? & ? & ?).
    naive_solver lia. }
  apply Z.ltb_ge in Hx. repeat case_bool_decide; simpl; naive_solver.
Qed.

Lemma Headers_from_request_Ok rq e w s w' :
  Headers_from_request svc rq e w = (Ok s, w') ↔ w' = w ∧ session_of e (db w) rq s.
Proof.
  unfold Headers_from_request, session_of, request_claims, some_or_401, err_handler, err_code, mfail,
    Device_find_by_uuid_and_user, User_find_by_uuid.
  destruct (rq_authorization rq) as [a|]; [|cbv [mbind]; simpl; naive_solver]. cbv [mbind mret ask query]. simpl.
  destruct (decode_login _ _ _) as [claims|]; [|naive_solver].
  destruct (devices _ !! _) as [device|] eqn:Hd; [|naive_solver].
  destruct (users _ !! _) as [user|] eqn:Hu; [|naive_solver].
  case_bool_decide as Hst.
  { split; [intros [= <- <-]; naive_solver|]. intros (-> & ? & [= <-] & ? & ? & ? & _). destruct s; simpl in *; naive_solver. }
  destruct (check_stamp_exception rq user claims e w) as [[[]|x|] w1] eqn:Hc.
  1: { apply check_stamp_exception_Ok in Hc as [-> Hx]. split; [intros [= <- <-]; naive_solver|].
    intros (-> & ? & [= <-] & ? & ? & ? & _). destruct s; simpl in *; naive_solver. }
  all: split; [done|]; intros (-> & ? & [= <-] & ? & ? & ? & [?|Hx]); [naive_solver|];
    assert (user = sn_user s) as -> by naive_solver;
    by rewrite (proj2 (check_stamp_exception_Ok _ _ _ _ _ _) (conj eq_refl Hx)) in Hc.
Qed.

(** ** Roles in an organization *)

Inductive Guard := MemberGuard | ManagerGuard | AdminGuard | OwnerGuard.
Definition run_guard (g : Guard) : Request → M OrgSession :=
  match g with
  | MemberGuard => OrgMemberHeaders_from_request svc
  | ManagerGuard => ManagerHeadersLoose_from_request svc
  | AdminGuard => AdminHeaders_from_request svc
  | OwnerGuard => OwnerHeaders_from_request svc
  end.
(** The roles and states a guard admits. *)
Definition guard_roles (g : Guard) : list MembershipType :=
  match g with
  | MemberGuard => [MT_Owner; MT_Admin; MT_Manager; MT_User]
  | ManagerGuard => [MT_Owner; MT_Admin; MT_Manager]
  | AdminGuard => [MT_Owner; MT_Admin]
  | OwnerGuard => [MT_Owner]
  end.
Definition guard_states (g : Guard) : list MembershipStatus :=
  match g with MemberGuard => [MS_Invited; MS_Accepted; MS_Confirmed] | _ => [MS_Confirmed] end.
(** The organization a request names. *)
Definition request_org (e : Env) (rq : Request) : option string :=
  let valid := λ s, bool_decide (is_Some (uuid_parse_str e s)) in
  match rq_param_1 rq with
  | Some p => if valid p then Some p else s ← rq_organizationId rq; if valid s then Some s else None
  | None => s ← rq_organizationId rq; if valid s then Some s else None
  end.
Definition membership_of (d : Db) (user org : string) : option Membership :=
  first (λ m, is_user user m && is_org org m) (users_organizations d).

Definition org_session_of (e : Env) (d : Db) (rq : Request) (s : OrgSession) : Prop :=
  session_of e d rq (mkSession (os_device s) (os_user s) (os_ip s)) ∧
  ∃ org, request_org e rq = Some org ∧ membership_of d (u_uuid (os_user s)) org = Some (os_membership s) ∧
    m_atype (os_membership s) = MembershipType_to_i32 (os_membership_type s) ∧
    m_status (os_membership s) = MembershipStatus_to_i32 (os_membership_status s) ∧
    os_membership_status s ≠ MS_Revoked.

Lemma MembershipStatus_from_i32_Some n s :
  MembershipStatus_from_i32 n = Some s ↔ n = MembershipStatus_to_i32 s ∧ s ≠ MS_Revoked.
Proof.
  split; [|intros [-> Hs]; by destruct s].
  unfold MembershipStatus_from_i32. intros H. repeat case_match; simplify_eq; done.
Qed.
Lemma MembershipType_from_i32_Some n t : MembershipType_from_i32 n = Some t ↔ n = MembershipType_to_i32 t.
Proof.
  split; [|intros ->; by destruct t].
  unfold MembershipType_from_i32. intros H. repeat case_match; simplify_eq; done.
Qed.

Lemma get_org_id_valid rq e w :
  ∃ o, get_org_id rq e w = (Ok o, w) ∧
    request_org e rq = (org ← o; if bool_decide (is_Some (uuid_parse_str e org)) then Some org else None).
Proof.
  unfold get_org_id, request_org, ask. eexists. split; [done|].
  destruct (rq_param_1 rq) as [p|]; [|done]. case_bool_decide as Hp; [|done]. simpl. by rewrite bool_decide_true.
Qed.

Lemma OrgHeaders_from_request_Ok rq e w s w' :
  OrgHeaders_from_request svc rq e w = (Ok s, w') ↔ w' = w ∧ org_session_of e (db w) rq s.
Proof.
  unfold OrgHeaders_from_request, org_session_of, Membership_find_by_user_and_org, member, some_or_401, err_handler,
    err_code, mfail, membership_of. destruct (get_org_id_valid rq e w) as (o & Ho & Hreq). rewrite Hreq.
  unfold mbind at 1. destruct (Headers_from_request svc rq e w) as [[h|x|] w1] eqn:Hh.
  2,3: split; [done|]; intros (-> & Hs & _); apply (conj (eq_refl w)), Headers_from_request_Ok in Hs; congruence.
  pose proof Hh as [-> Hsess]%Headers_from_request_Ok. unfold mbind at 1. rewrite Ho.
  assert (∀ s, session_of e (db w) rq (mkSession (os_device s) (os_user s) (os_ip s)) →
    h = mkSession (os_device s) (os_user s) (os_ip s)) as Huniq.
  { intros s' Hs'%(conj (eq_refl w))%Headers_from_request_Ok. congruence. }
  destruct o as [org|]; simpl; [|naive_solver]. cbv [mbind mret ask query]. case_bool_decide; [|naive_solver].
  destruct (first _ _) as [m|] eqn:Hm; [|].
  2: { split; [done|]. intros (-> & Hs & ? & [= <-] & Hm' & _). rewrite (Huniq _ Hs) in Hm. simpl in Hm. congruence. }
  destruct (MembershipType_from_i32 (m_atype m)) as [t|] eqn:Ht;
    [destruct (MembershipStatus_from_i32 (m_status m)) as [st|] eqn:Hst|].
  - pose proof Ht as Ht'%MembershipType_from_i32_Some. pose proof Hst as [Hst' Hr]%MembershipStatus_from_i32_Some. split.
    + intros [= <- <-]. simpl. destruct h; simpl in *. naive_solver.
    + intros (-> & Hs & ? & [= <-] & Hm' & Hty & Hsta & Hrev). rewrite (Huniq _ Hs) in Hm |- *. simpl in *.
      rewrite Hm in Hm'. injection Hm' as ->. do 2 f_equal. destruct s; simpl in *. f_equal.
      * apply MembershipType_from_i32_Some in Hty. congruence.
      * apply (conj Hsta), MembershipStatus_from_i32_Some in Hrev. congruence.
  - split; [done|]. intros (-> & Hs & ? & [= <-] & Hm' & Hty & Hsta & Hrev). rewrite (Huniq _ Hs) in Hm. simpl in Hm.
    rewrite Hm in Hm'. injection Hm' as ->. apply (conj Hsta), MembershipStatus_from_i32_Some in Hrev. congruence.
  - split; [done|]. intros (-> & Hs & ? & [= <-] & Hm' & Hty & Hsta & Hrev). rewrite (Huniq _ Hs) in Hm. simpl in Hm.
    rewrite Hm in Hm'. injection Hm' as ->. apply MembershipType_from_i32_Some in Hty. congruence.
Qed.

(** A guard that asks for more. *)
Lemma guarded_Ok (p : OrgSession → bool) msg rq e w s w' :
  (let* headers := OrgHeaders_from_request svc rq in
   if p headers then mret headers else err_handler msg) e w = (Ok s, w') ↔
  w' = w ∧ org_session_of e (db w) rq s ∧ p s = true.
Proof.
  rewrite (assoc and), <- OrgHeaders_from_request_Ok.
  unfold mbind. destruct (OrgHeaders_from_request svc rq e w) as [[h|x|] w1]; [|by split; [|intros [? _]]..].
  destruct (p h) eqn:Hp; cbv [mret err_handler err_code mfail]; split; try done.
  - by intros [= <- <-].
  - by intros [[= <- <-] _].
  - intros [[= <- <-] ?]. congruence.
Qed.

(** Exactly whom the guards of the organization endpoints let through.  The
    request changes nothing and carries an access token that decodes, for a
    stored device and user; the token's stamp is the user's, or that of the
    stored exception, before its end and on a route it lists; the organization
    named by the path or the query is one the user has a membership in, which
    is not revoked; it is in a state and has a role of this guard: any for a
    member, confirmed and at least manager, administrator or owner for the
    others. *)
Theorem org_guards_exact g rq e w s w' :
  run_guard g rq e w = (Ok s, w') ↔
  w' = w ∧ org_session_of e (db w) rq s ∧
  os_membership_status s ∈ guard_states g ∧ os_membership_type s ∈ guard_roles g.
Proof.
  destruct g; simpl; unfold OrgMemberHeaders_from_request, ManagerHeadersLoose_from_request, AdminHeaders_from_request,
    OwnerHeaders_from_request; rewrite guarded_Ok; unfold is_member, is_confirmed_and_manager, is_confirmed_and_admin,
    is_confirmed_and_owner, is_confirmed; do 2 apply and_iff_compat_l;
    rewrite ?elem_of_cons, ?elem_of_nil; destruct (os_membership_status s), (os_membership_type s); simpl; intuition congruence.
Qed.

(** ** After a password change *)

Lemma refresh_tokens_unknown token client e w :
  (∀ k d, devices (db w) !! k = Some d → d_refresh_token d ≠ rj_device_token (refresh_claims_of svc (now e) token)) →
  refresh_tokens svc token client e w = (Err (new_msg "Invalid refresh token"), w).
Proof.
  intros Hno. unfold refresh_tokens, Device_find_by_refresh_token. cbv [mbind ask query]. simpl.
  destruct (first _ _) as [d|] eqn:Hd; [|done]. apply first_Some in Hd as [Ht%bool_decide_eq_true [k Hk]].
  by destruct (Hno _ _ Hk).
Qed.

(** What the handlers that set a password do with the row. *)
Definition change_password (u : User) (pw : string) (key : option string) (routes : option (list string)) : M User :=
  let* u := User_set_password u pw key true routes in User_save u.

Lemma change_password_run e w u pw key routes :
  Env_ok e → devices_keyed (db w) → cast_unsigned32 (u_password_iterations u) ≠ 0%Z → is_valid_email e (u_email u) = true →
  ∃ u' w', change_password u pw key routes e w = (Ok u', w') ∧
    users (db w') = <[u_uuid u := u']> (users (db w)) ∧
    u_akey u' = default (u_akey u) key ∧
    (∀ pw', User_check_valid_password u' pw' e w'
      = (Ok (bool_decide (pbkdf2_derive e (string_bytes pw) (u_salt u) (cast_unsigned32 (u_password_iterations u))
           = pbkdf2_derive e (string_bytes pw') (u_salt u) (cast_unsigned32 (u_password_iterations u)))), w')) ∧
    (∃ i, u_security_stamp u' = uuid_at e i) ∧
    (routes = None → u_stamp_exception u' = u_stamp_exception u) ∧
    (∀ r, routes = Some r → ∃ s, u_stamp_exception u' = Some s ∧
       from_json_str s = Some (mkUserStampException r (u_security_stamp u) (timestamp (now e + minutes 2)))) ∧
    (∀ k d', devices (db w') !! k = Some d' → ∃ d, devices (db w) !! k = Some d ∧ d_user_uuid d' = d_user_uuid d ∧
       if bool_decide (d_user_uuid d = u_uuid u) then ∃ i, d_refresh_token d' = token_at e i else d' = d).
Proof.
  intros He Hk Hn Hv.
  destruct (User_set_password_run e w u pw key routes He Hk Hn)
    as (u' & w' & order & Hrun & Hpw & Hkey & Hst & Hid & Hmail & Hx0 & Hx & Hus & _ & Hord & Hin & Hout).
  exists (u' <| u_updated_at := now e |>), (w' <| db := (db w') <| users := <[u_uuid u := u' <| u_updated_at := now e |>]> (users (db w)) |> |>).
  split_and!; [|done|done| |by eexists|done|done|].
  - unfold change_password, mbind at 1. rewrite Hrun. cbv [User_save mbind ask ensure exec mret]. rewrite Hmail, Hv. simpl.
    by rewrite Hid, Hus.
  - intros pw'. specialize (Hpw pw'). unfold User_check_valid_password, verify_password_hash in *. simpl in *.
    cbv [mbind mexpect mret ask] in *. destruct (_ =? _)%Z; [done|]. by injection Hpw as ->.
  - simpl. intros k d' Hd'. destruct (decide (k ∈ order)) as [Ho|Ho].
    + pose proof Ho as (d & Hd & Hu)%Hord. exists d. split; [done|]. apply list_elem_of_lookup in Ho as [i Hi].
      rewrite (Hin _ _ _ Hi Hd) in Hd'. injection Hd' as <-. split; [done|]. rewrite bool_decide_true by done. by eexists.
    + rewrite Hout in Hd' by done. exists d'. split_and!; [done..|]. case_bool_decide as Hu; [|done].
      destruct Ho. apply Hord. eauto.
Qed.

(** C4: a password change ends the sessions of the account.  It succeeds and
    saves the row; from then on a password verifies exactly when it hashes like
    the new one.  A request with an access token for the old security stamp is
    let through only on the routes listed with the change, within two minutes
    of it (with no routes listed, only if an exception stored earlier admits
    it); and a refresh token that a device of this account had, and no other
    account, is refused, whether it comes in a web token or by itself, unless
    the random source repeats it. *)
Theorem password_change_ends_sessions e w u pw key routes :
  Env_ok e → devices_keyed (db w) → cast_unsigned32 (u_password_iterations u) ≠ 0%Z → is_valid_email e (u_email u) = true →
  (∀ i, uuid_at e i ≠ u_security_stamp u) →
  ∃ u' w', change_password u pw key routes e w = (Ok u', w') ∧
    users (db w') = <[u_uuid u := u']> (users (db w)) ∧
    u_akey u' = default (u_akey u) key ∧
    (∀ pw', User_check_valid_password u' pw' e w'
      = (Ok (bool_decide (pbkdf2_derive e (string_bytes pw) (u_salt u) (cast_unsigned32 (u_password_iterations u))
           = pbkdf2_derive e (string_bytes pw') (u_salt u) (cast_unsigned32 (u_password_iterations u)))), w')) ∧
    (∀ e2 rq claims s w2, request_claims e2 rq = Some claims → lj_sub claims = u_uuid u →
       lj_sstamp claims = u_security_stamp u → Headers_from_request svc rq e2 w' = (Ok s, w2) →
       match routes with
       | Some r => ∃ route, rq_route rq = Some route ∧ route ∈ r ∧ (timestamp (now e2) ≤ timestamp (now e + minutes 2))%Z
       | None => exception_admits e2 rq (u_stamp_exception u) (u_security_stamp u)
       end) ∧
    (∀ e2 token client, let tok := rj_device_token (refresh_claims_of svc (now e2) token) in
       (∀ k d, devices (db w) !! k = Some d → d_refresh_token d = tok → d_user_uuid d = u_uuid u) →
       (∀ i, token_at e i ≠ tok) →
       refresh_tokens svc token client e2 w' = (Err (new_msg "Invalid refresh token"), w')).
Proof.
  intros He Hk Hn Hv Hfresh. destruct (change_password_run e w u pw key routes He Hk Hn Hv)
    as (u' & w' & Hrun & Hus & Hkey & Hpw & (i & Hst) & Hx0 & Hx & Hdev).
  exists u', w'. split_and!; [done..| |].
  - intros e2 rq claims s w2 Hc Hsub Hstamp [-> (c & Hc' & _ & Hu & _ & Hok)]%Headers_from_request_Ok.
    rewrite Hc in Hc'. injection Hc' as <-. rewrite Hus, Hsub, lookup_insert_eq in Hu. injection Hu as Hu.
    rewrite <- Hu, Hstamp in Hok. destruct Hok as [Hok|Hok]; [by destruct (Hfresh i); rewrite <- Hst|].
    destruct routes as [r|]; [|by rewrite <- Hx0]. destruct (Hx r eq_refl) as (text & Ht & Hparse).
    destruct Hok as (s' & ex & route & Hs' & Hex & Hr & Hin & _ & Hexp). rewrite Ht in Hs'. injection Hs' as <-.
    rewrite Hparse in Hex. injection Hex as <-. eauto.
  - intros e2 token client tok Hown Htok. apply refresh_tokens_unknown. intros k d' Hd' Heq.
    destruct (Hdev _ _ Hd') as (d & Hd & _ & Hcase). case_bool_decide as Hu.
    + destruct Hcase as [j Hj]. apply (Htok j). by rewrite <- Hj.
    + subst d'. by apply Hu, (Hown k).
Qed.

(** ** API keys *)

Lemma substring_0_all s : ∀ n, String.length s ≤ n → String.substring 0 n s = s.
Proof.
  induction s as [|c s IH]; intros [|n] Hn; simpl in *; try done; try lia. rewrite IH by lia. done.
Qed.
Lemma strip_prefix_Some pat s r : strip_prefix pat s = Some r → s = pat +:+ r.
Proof.
  unfold strip_prefix. enough (∀ n, String.length s ≤ n → String.prefix pat s = true →
    s = pat +:+ String.substring (String.length pat) n s) as H.
  { destruct (String.prefix pat s); [|done]. intros [= <-]. by apply H. }
  clear r. revert s. induction pat as [|c pat IH]; intros s n Hn Hp.
  - by rewrite substring_0_all.
  - destruct s as [|c' s]; [done|]. simpl in *. destruct (Ascii.ascii_dec c c') as [->|]; [|done].
    by rewrite (IH s n) at 1 by (done || lia).
Qed.

(** The owner of a key that [data] names and knows. *)
Definition api_key_owner (d : Db) (data : ConnectData) : Prop :=
  ∃ client secret, cd_client_id data = Some client ∧ cd_client_secret data = Some secret ∧
    ((cd_scope data = Some "api" ∧ ∃ id user, client = "user." +:+ id ∧ users d !! id = Some user ∧
        u_enabled user = true ∧ u_api_key user = Some secret) ∨
     (cd_scope data = Some "api.organization" ∧ ∃ org k row, client = "organization." +:+ org ∧
        organization_api_key d !! k = Some row ∧ oak_org_uuid row = org ∧ oak_api_key row = secret)).

Lemma wp_user_api_key user data device_type ip id client e w :
  cd_client_id data = Some client → client = "user." +:+ id → users (db w) !! id = Some user → cd_scope data = Some "api" →
  wp (log_login (u_uuid user) device_type ip (user_api_key_login svc user data ip)) e w
    (implies_ok (api_key_owner (db w) data)).
Proof.
  intros Hc Hid Hu Hs. apply wp_log_login. unfold user_api_key_login.
  wp_step. destruct (u_enabled user) eqn:Hen; [|apply implies_ok_Err]. wp_step. wp_step.
  wp_step. wp_step; [|apply implies_ok_Panic]. wp_step. wp_step.
  destruct (User_check_valid_api_key user a) eqn:Hkey; [|apply implies_ok_Err]. wp_step. apply wp_implied.
  unfold User_check_valid_api_key, ct_eq in Hkey. destruct (u_api_key user) as [k|] eqn:Hk; [|done].
  apply bool_decide_eq_true in Hkey as ->. exists client, a. split_and!; [done..|]. left. eauto 10.
Qed.
Lemma wp_organization_api_key data e w :
  cd_scope data = Some "api.organization" →
  wp (organization_api_key_login svc data) e w (implies_ok (api_key_owner (db w) data)).
Proof.
  intros Hs. unfold organization_api_key_login, OrganizationApiKey_find_by_org_uuid, OrganizationApiKey_check_valid_api_key.
  wp_step. wp_step; [|apply implies_ok_Panic]. wp_step.
  wp_step. wp_step; [|apply implies_ok_Err]. wp_step. wp_step. wp_step. wp_step.
  wp_step. wp_step; [|apply implies_ok_Err]. wp_step. wp_step. wp_step; [|apply implies_ok_Panic]. wp_step.
  wp_step. wp_step; [|apply implies_ok_Err]. wp_step. apply wp_implied.
  apply strip_prefix_Some in Ho0. apply first_Some in Ho1 as [Horg%bool_decide_eq_true [k Hk]].
  apply bool_decide_eq_true in Hc. eexists _, _. split_and!; [done..|]. right. split; [done|].
  eexists _, k, _. split_and!; [exact Ho0|exact Hk|done|done].
Qed.

Lemma wp_client_credentials data device_type ip e w :
  wp (login_client_credentials svc data device_type ip) e w (implies_ok (api_key_owner (db w) data)).
Proof.
  unfold login_client_credentials, check_is_some, api_key_login, check_limit_login.
  do 6 (wp_step; wp_step; [|apply implies_ok_Err]; wp_step).
  wp_step. wp_step. wp_step. wp_step. destruct (login_allowed e ip); [|apply implies_ok_Err]. wp_step. wp_step.
  destruct (cd_scope data) as [scope|] eqn:Hs; [|apply implies_ok_Err]. clear -Hs.
  case_bool_decide as Hscope; [subst scope|].
  - unfold find_api_key_user, User_find_by_uuid. wp_step. wp_step. wp_step; [|apply implies_ok_Panic]. wp_step.
    wp_step. wp_step; [|apply implies_ok_Err]. wp_step. wp_step. wp_step. wp_step. wp_step; [|apply implies_ok_Err]. wp_step.
    apply strip_prefix_Some in Ho0. by eapply (wp_user_api_key _ _ _ _ a0 a).
  - case_bool_decide; [subst scope|apply implies_ok_Err]. by apply wp_organization_api_key.
Qed.

(** What a login with an API key requires.  If it succeeds, the client
    identifier names an enabled user whose API key was given, for the scope of
    users, or an organization with a key that was given, for the scope of
    organizations.  (No second factor is asked for.) *)
Theorem api_key_login_sound data device_type ip e w j w' :
  login_client_credentials svc data device_type ip e w = (Ok j, w') → api_key_owner (db w) data.
Proof. intros Hrun. apply (wp_run _ _ _ _ (wp_client_credentials data device_type ip e w) _ _ Hrun). by eexists. Qed.
End session_safety.

(** ** Witnesses *)

Module ToySessions.
Import ToyEnv ToyUsers ToyLogin.
Definition toy_key_user : User := (toy_user "alice") <| u_api_key := Some "secret" |>.
Definition toy_session_world : World := mkWorld (empty_db
  <| users := {["alice" := toy_key_user]} |> <| devices := {[("d1", "alice") := toy_device "d1" "alice"]} |>) 100 [] ∅ ∅.
Definition toy_api_connect : ConnectData :=
  mkConnectData None (Some "user.alice") (Some "secret") None (Some "api") None (Some "d1") (Some "phone") (Some "9")
    None None None None None None.
Lemma toy_session_device k d :
  devices (db toy_session_world) !! k = Some d → k = ("d1", "alice") ∧ d = toy_device "d1" "alice".
Proof. simpl. intros [<- <-]%lookup_singleton_Some. done. Qed.
(** No drawn token is the one the device has. *)
Lemma toy_token_fresh t i : token_at (toy_env t) i ≠ "old".
Proof.
  intros H%(f_equal str_to_pos). change (str_to_pos (pos_to_str (encode (replicate 64 (Z.of_nat i mod 256)%Z))) = str_to_pos "old") in H.
  rewrite str_to_pos_to_str in H. apply (f_equal (decode (A := list Z))) in H. rewrite decode_encode in H.
  remember (Z.of_nat i mod 256)%Z as z. clear Heqz. vm_compute in H. done.
Qed.
End ToySessions.
Import ToyEnv ToyUsers ToyTwoFactor ToyCodes ToyLogin ToySessions.

Lemma password_change_ends_sessions_witness :
  ∃ u' w', change_password toy_key_user "new" (Some "k2") (Some ["rotate"]) (toy_env 0) toy_session_world = (Ok u', w') ∧
    u_akey u' = "k2" ∧
    refresh_tokens toy_services "old" None (toy_env 5) w' = (Err (new_msg "Invalid refresh token"), w').
Proof.
  destruct (password_change_ends_sessions toy_services (toy_env 0) toy_session_world toy_key_user "new" (Some "k2")
    (Some ["rotate"]) (toy_env_ok 0)) as (u' & w' & Hrun & _ & Hk & _ & _ & Href).
  - intros k d [-> ->]%toy_session_device. done.
  - done.
  - done.
  - intros i. done.
  - exists u', w'. split; [exact Hrun|]. split; [exact Hk|]. apply Href.
    + intros k d [-> ->]%toy_session_device _. done.
    + intros i. apply (toy_token_fresh 0).
Defined.

Lemma api_key_login_sound_witness :
  ∃ j w', login_client_credentials toy_services toy_api_connect 9 "ip" (toy_env 0) toy_session_world = (Ok j, w') ∧
    api_key_owner (db toy_session_world) toy_api_connect.
Proof.
  do 2 eexists. split; [vm_compute; reflexivity|].
  eapply (api_key_login_sound toy_services toy_api_connect 9 "ip" (toy_env 0)). vm_compute. reflexivity.
Defined.
