(* ===== verification/Sends.v ===== *)
(** * Sends

    Shared texts and files: the table's methods
    ([server/src/db/models/send.rs]) and the handlers
    ([server/src/api/core/sends.rs]).  Anyone who knows a send's access
    identifier may open it, within its limits; everything else is reserved to
    its owner.  Stored files are part of the world; the web tokens and the
    storage service's links are parameters. *)

From Stdlib Require Import Ascii.
From stdpp Require Import base strings numbers pretty gmap list.
From S2P Require Import Prelude Store JsonUtil Users Orgs AuthRequests TwoFactor.

(** ** db/models/send.rs *)

Inductive SendType := Text | File.
Definition SendType_to_i32 (t : SendType) : Z := match t with Text => 0 | File => 1 end.
Inductive SendAuthType := SAEmail | SAPassword | SANone.
Definition SendAuthType_to_i32 (t : SendAuthType) : Z :=
  match t with SAEmail => 0 | SAPassword => 1 | SANone => 2 end.
Definition is_type (self : Send) (t : SendType) : bool := (s_atype self =? SendType_to_i32 t)%Z.

Definition Send_new (atype : Z) (name data akey : string) (deletion_date : Z) : M Send :=
  let* t := ask now in
  let* uuid := get_uuid in
  mret {|
    s_uuid := uuid; s_user_uuid := None; s_organization_uuid := None; s_name := name; s_notes := None;
    s_atype := atype; s_data := data; s_akey := akey;
    s_password_hash := None; s_password_salt := None; s_password_iter := None;
    s_max_access_count := None; s_access_count := 0; s_creation_date := t; s_revision_date := t;
    s_expiration_date := None; s_deletion_date := deletion_date; s_disabled := false; s_hide_email := None |}.

Definition PASSWORD_ITER : Z := 100000.
Definition Send_set_password (self : Send) (password : option string) : M Send :=
  match password with
  | Some password =>
     let self := self <| s_password_iter := Some PASSWORD_ITER |> in
     let* salt := get_random_bytes 64 in
     let* hash := hash_password (string_bytes password) salt PASSWORD_ITER in
     mret (self <| s_password_salt := Some salt |> <| s_password_hash := Some hash |>)
  | None =>
     mret (self <| s_password_iter := None |> <| s_password_salt := None |> <| s_password_hash := None |>)
  end.

Definition Send_check_password (self : Send) (password : string) : M bool :=
  match s_password_hash self, s_password_salt self, s_password_iter self with
  | Some hash, Some salt, Some iter =>
     verify_password_hash (string_bytes password) salt hash (cast_unsigned32 iter)
  | _, _, _ => mret false
  end.

Definition Send_creator_identifier (self : Send) : M (option string) :=
  if default false (s_hide_email self) then mret None
  else match s_user_uuid self with
       | Some user_uuid =>
          let* user := User_find_by_uuid user_uuid in
          mret (u_email <$> user)
       | None => mret None
       end.

(** A numeric size becomes a string. *)
Definition size_as_string (j : Json) : Json :=
  match j with
  | JObj fields =>
     match json_field "size" fields with
     | Some (JNum n) => match to_i64 n with Some n => JObj (json_insert "size" (JStr (pretty n)) fields) | None => j end
     | _ => j
     end
  | _ => j
  end.

Definition json_when (b : bool) (j : Json) : Json := if b then j else JNull.

Definition Send_to_json (self : Send) : M Json :=
  let* data := ask (λ e, size_as_string (lowercase_data e (s_data self))) in
  ask (λ e, JObj [
    ("id", JStr (s_uuid self));
    ("accessId", JStr (encode_base64url e (default (replicate 16 0%Z) (uuid_parse_str e (s_uuid self)))));
    ("type", JNum (s_atype self));
    ("name", JStr (s_name self));
    ("notes", json_opt JStr (s_notes self));
    ("text", json_when (is_type self Text) data);
    ("file", json_when (is_type self File) data);
    ("key", JStr (s_akey self));
    ("maxAccessCount", json_opt JNum (s_max_access_count self));
    ("accessCount", JNum (s_access_count self));
    ("password", json_opt (λ h, JStr (encode_base64url e h)) (s_password_hash self));
    ("authType", JNum (SendAuthType_to_i32
                         (if bool_decide (is_Some (s_password_hash self)) then SAPassword else SANone)));
    ("disabled", JBool (s_disabled self));
    ("hideEmail", json_opt JBool (s_hide_email self));
    ("revisionDate", JStr (format_date e (s_revision_date self)));
    ("expirationDate", json_opt (λ t, JStr (format_date e t)) (s_expiration_date self));
    ("deletionDate", JStr (format_date e (s_deletion_date self)));
    ("object", JStr "send")]).

Definition Send_to_json_access (self : Send) : M Json :=
  let* data := ask (λ e, size_as_string (lowercase_data e (s_data self))) in
  let* creator := Send_creator_identifier self in
  ask (λ e, JObj [
    ("id", JStr (s_uuid self));
    ("type", JNum (s_atype self));
    ("name", JStr (s_name self));
    ("text", json_when (is_type self Text) data);
    ("file", json_when (is_type self File) data);
    ("expirationDate", json_opt (λ t, JStr (format_date e t)) (s_expiration_date self));
    ("creatorIdentifier", json_opt JStr creator);
    ("object", JStr "send-access")]).

Definition Send_update_users_revision (self : Send) : M (list string) :=
  match s_user_uuid self with
  | Some user_uuid => do* User_update_uuid_revision user_uuid in mret [user_uuid]
  | None => mret []
  end.

Definition Send_save (self : Send) : M Send :=
  let* _ := Send_update_users_revision self in
  let* t := ask now in
  let self := self <| s_revision_date := t |> in
  do* exec (λ d, d <| sends := <[s_uuid self := self]> (sends d) |>) in
  mret self.

(** *** Stored files *)

(** [CONFIG.opendal_operator_for_path_type(&PathType::Sends)?] *)
Definition sends_operator : M unit :=
  let* ok := ask storage_configured in
  ensure ok "OpenDAL".
(** [delete_with(uuid).recursive(true).await.ok()] *)
Definition delete_files (send_uuid : string) : M unit := λ e w,
  (Ok tt, if storage_available e
          then w <| send_files := filter (λ '((s, _), _), s ≠ send_uuid) (send_files w) |> else w).
(** [save_temp_file]: without [overwrite] an existing file is an error. *)
Definition save_temp_file (path : string * string) (content : bytes) (overwrite : bool) : M unit :=
  do* sends_operator in
  λ e w,
    if storage_available e && (overwrite || bool_decide (send_files w !! path = None))
    then (Ok tt, w <| send_files := <[path := content]> (send_files w) |>)
    else (Err (new_msg "OpenDAL"), w).

Definition Send_delete (self : Send) : M unit :=
  let* _ := Send_update_users_revision self in
  do* (if is_type self File then do* sends_operator in delete_files (s_uuid self) else mret tt) in
  exec (λ d, d <| sends := delete (s_uuid self) (sends d) |>).

Definition Send_find_by_past_deletion_date : M (list Send) :=
  let* t := ask now in
  query (λ d, load (λ s, (s_deletion_date s <? t)%Z) (sends d)).
Definition Send_purge : M unit :=
  let* l := Send_find_by_past_deletion_date in
  for_each l (λ send, mignore (Send_delete send)).

Definition owned_by (user_uuid : string) (s : Send) : bool := bool_decide (s_user_uuid s = Some user_uuid).
Definition Send_find_by_uuid (uuid : string) : M (option Send) := query (λ d, sends d !! uuid).
Definition Send_find_by_uuid_and_user (uuid user_uuid : string) : M (option Send) :=
  query (λ d, s ← sends d !! uuid; if owned_by user_uuid s then Some s else None).
Definition Send_find_by_user (user_uuid : string) : M (list Send) := query (λ d, load (owned_by user_uuid) (sends d)).
Definition Send_find_by_org (org_uuid : string) : M (list Send) :=
  query (λ d, load (λ s, bool_decide (s_organization_uuid s = Some org_uuid)) (sends d)).
(** [Uuid::from_slice] accepts sixteen bytes. *)
Definition Send_find_by_access_id (access_id : string) : M (option Send) :=
  let* uuid := ask (λ e, b ← decode_base64url e access_id;
                         if bool_decide (length b = 16) then Some (uuid_to_string e b) else None) in
  match uuid with
  | Some uuid => Send_find_by_uuid uuid
  | None => mret None
  end.
Definition Send_delete_all_by_user (user_uuid : string) : M unit :=
  let* l := Send_find_by_user user_uuid in
  for_each l Send_delete.

(** [serde_json::from_str::<FileData>]: a size under either of its names. *)
Definition json_number_or_string (j : Json) : option NumberOrString :=
  match j with
  | JNum n => Number <$> to_i64 n
  | JStr s => Some (NString s)
  | _ => None
  end.
Definition file_data_size (e : Env) (data : string) : option Z :=
  j ← parse_json e data;
  v ← one_field ["size"; "Size"] j;
  n ← json_number_or_string v;
  parse_i64 n.
Definition checked_add64 (a b : Z) : option Z := to_i64 (a + b)%Z.
Fixpoint total_size (e : Env) (total : Z) (l : list Send) : option Z :=
  match l with
  | [] => Some total
  | send :: l =>
     if is_type send File then
       match file_data_size e (s_data send) with
       | Some size => total ← checked_add64 total size; total_size e total l
       | None => total_size e total l
       end
     else total_size e total l
  end.
Definition Send_size_by_user (user_uuid : string) : M (option Z) :=
  let* sends := Send_find_by_user user_uuid in
  ask (λ e, total_size e 0 sends).

(** ** api/core/sends.rs *)

Definition SEND_INACCESSIBLE_MSG : string := "Send does not exist or is no longer available".
Definition SIZE_525_MB : Z := 550502400.

Definition purge_sends : M unit := Send_purge.

Record SendData := mkSendData {
  sd_type : Z;
  sd_key : string;
  sd_password : option string;
  sd_max_access_count : option NumberOrString;
  sd_expiration_date : option Z;
  sd_deletion_date : Z;
  sd_disabled : bool;
  sd_hide_email : option bool;
  sd_name : string;
  sd_notes : option string;
  sd_text : option Json;
  sd_file : option Json;
  sd_file_length : option NumberOrString;
  sd_id : option string;
}.
Definition data_is_type (data : SendData) (t : SendType) : bool := (sd_type data =? SendType_to_i32 t)%Z.

Definition enforce_disable_send_policy (headers : Headers) : M unit :=
  let* allowed := conf sends_allowed in
  let* applicable := if allowed then OrgPolicy_is_applicable_to_user (u_uuid (h_user headers)) DisableSend None
                     else mret true in
  ensure (negb applicable) "Due to an Enterprise Policy, you are only able to delete an existing Send.".

Definition enforce_disable_hide_email_policy (data : SendData) (headers : Headers) : M unit :=
  let* refused := if default false (sd_hide_email data)
                  then OrgPolicy_is_hide_email_disabled (u_uuid (h_user headers)) else mret false in
  ensure (negb refused) ("Due to an Enterprise Policy, you are not allowed to hide your email address " +:+
    "from recipients when creating or editing a Send.").

Definition remove_response (d : Json) : Json :=
  match d with JObj fields => JObj (json_remove "response" fields) | _ => d end.

Definition check_deletion_date (deletion_date : Z) : M unit :=
  let* t := ask now in
  let* latest := plus_days t 31 in
  ensure (negb (latest <? deletion_date)%Z) ("You cannot have a Send with a deletion date that far into the future. "
    +:+ "Adjust the Deletion Date to a value less than 31 days from now and try again.").

Definition opt_into_i32 (m : option NumberOrString) : M (option Z) :=
  match m with
  | Some m => let* n := into_i32 m in mret (Some n)
  | None => mret None
  end.

Definition create_send (data : SendData) (user_id : string) : M Send :=
  let* data_val := if data_is_type data Text then mret (sd_text data)
                   else if data_is_type data File then mret (sd_file data)
                   else err "Invalid Send type" in
  let* d := some_or_err data_val "Send data not provided" in
  let* data_str := ask (λ e, json_text e (remove_response d)) in
  do* check_deletion_date (sd_deletion_date data) in
  let* send := Send_new (sd_type data) (sd_name data) data_str (sd_key data) (sd_deletion_date data) in
  let* max := opt_into_i32 (sd_max_access_count data) in
  let send := send <| s_user_uuid := Some user_id |> <| s_notes := sd_notes data |>
    <| s_max_access_count := max |> <| s_expiration_date := sd_expiration_date data |>
    <| s_disabled := sd_disabled data |> <| s_hide_email := sd_hide_email data |> <| s_atype := sd_type data |> in
  Send_set_password send (sd_password data).

Definition get_sends (headers : Headers) : M Json :=
  let* sends := Send_find_by_user (u_uuid (h_user headers)) in
  let* l := (fix go (l : list Send) : M (list Json) :=
    match l with
    | [] => mret []
    | s :: l => let* j := Send_to_json s in let* js := go l in mret (j :: js)
    end) sends in
  mret (json_list l).

Definition get_send (send_id : string) (headers : Headers) : M Json :=
  let* found := Send_find_by_uuid_and_user send_id (u_uuid (h_user headers)) in
  let* send := some_or_err found "Send not found" in
  Send_to_json send.

(** The notification of clients itself is not modelled; its argument updates
    the owner's revision. *)
Definition notify_send (send : Send) : M unit :=
  let* _ := Send_update_users_revision send in mret tt.

Definition post_send (data : SendData) (headers : Headers) : M Json :=
  do* enforce_disable_send_policy headers in
  do* enforce_disable_hide_email_policy data headers in
  do* ensure (negb (data_is_type data File)) "File sends should use /api/sends/file" in
  let* send := create_send data (u_uuid (h_user headers)) in
  let* send := Send_save send in
  do* notify_send send in
  Send_to_json send.

(** The size left to the user, and the limit for a new file; the code repeats
    these lines in both upload handlers. *)
Definition size_left (limit_kb : Z) (headers : Headers) : M Z :=
  let* used := Send_size_by_user (u_uuid (h_user headers)) in
  let* already_used := some_or_err used "Existing sends overflow" in
  let* room := some_or_err (l ← to_i64 (limit_kb * 1024); to_i64 (l - already_used)%Z) "Send size overflow" in
  do* ensure (negb (room <=? 0)%Z) "Send storage limit reached! Delete some sends to free up space" in
  mret (Z.max 0 (Z.min room SIZE_525_MB)).
Definition size_limit (headers : Headers) : M Z :=
  let* limit := conf user_send_limit in
  match limit with
  | Some 0%Z => err "File uploads are disabled"
  | Some limit_kb => size_left limit_kb headers
  | None => mret SIZE_525_MB
  end.

(** Recording the file in the send's data. *)
Definition with_file (e : Env) (file_id : string) (size : Z) (d : Json) : Json :=
  match d with
  | JObj o =>
     JObj (json_insert "sizeName" (JStr (get_display_size e size))
            (json_insert "size" (JNum size) (json_insert "id" (JStr file_id) o)))
  | _ => d
  end.
Definition add_file_data (send : Send) (file_id : string) (size : Z) : M Send :=
  let* parsed := ask (λ e, parse_json e (s_data send)) in
  let* data_value := some_or_err parsed "Serde" in
  let* data := ask (λ e, json_text e (with_file e file_id size data_value)) in
  mret (send <| s_data := data |>).

Definition generate_send_file_id : M string := encode_random_bytes 32 encode_hexlower.

Definition post_send_file (model : SendData) (data : TempFile) (headers : Headers) : M Json :=
  do* enforce_disable_send_policy headers in
  let* size := some_or_err (to_i64 (temp_len data)) "Invalid send size" in
  do* ensure (negb (size <? 0)%Z) "Send size can't be negative" in
  do* enforce_disable_hide_email_policy model headers in
  let* limit := size_limit headers in
  do* ensure (negb (limit <? size)%Z) "Send storage limit exceeded with this file" in
  let* send := create_send model (u_uuid (h_user headers)) in
  do* ensure (is_type send File) "Send content is not a file" in
  let* file_id := generate_send_file_id in
  do* save_temp_file (s_uuid send, file_id) (content data) true in
  let* send := add_file_data send file_id size in
  let* send := Send_save send in
  do* notify_send send in
  Send_to_json send.

Definition post_send_file_v2 (data : SendData) (headers : Headers) : M Json :=
  do* enforce_disable_send_policy headers in
  do* ensure (data_is_type data File) "Send content is not a file" in
  do* enforce_disable_hide_email_policy data headers in
  let* m := some_or_err (sd_file_length data) "Invalid send length" in
  let* file_length := into_i64 m in
  do* ensure (negb (file_length <? 0)%Z) "Send size can't be negative" in
  let* limit := size_limit headers in
  do* ensure (negb (limit <? file_length)%Z) "Send storage limit exceeded with this file" in
  let* send := create_send data (u_uuid (h_user headers)) in
  let* file_id := generate_send_file_id in
  let* send := add_file_data send file_id file_length in
  let* send := Send_save send in
  let* j := Send_to_json send in
  mret (JObj [("fileUploadType", JNum 0); ("object", JStr "send-fileUpload");
              ("url", JStr ("/sends/" +:+ s_uuid send +:+ "/file/" +:+ file_id)); ("sendResponse", j)]).

(** [serde_json::from_str::<SendFileData>] *)
Record SendFileData := mkSendFileData { sf_id : string; sf_size : Z; sf_fileName : string }.
Definition send_file_fields (j : Json) : option (Json * Json * Json) :=
  match j with
  | JObj fields =>
     id ← json_field "id" fields; size ← json_field "size" fields; name ← json_field "fileName" fields;
     Some (id, size, name)
  | JArr [id; size; name] => Some (id, size, name)
  | _ => None
  end.
Definition parse_SendFileData (e : Env) (data : string) : option SendFileData :=
  j ← parse_json e data;
  fs ← send_file_fields j;
  match fs with
  | (JStr id, JNum size, JStr name) =>
     if ((0 <=? size) && (size <? 2 ^ 64))%Z then Some (mkSendFileData id size name) else None
  | _ => None
  end.

Definition ends_with (s suffix : string) : bool :=
  bool_decide (String.list_ascii_of_string suffix `suffix_of` String.list_ascii_of_string s).
Definition device_is_cli (device_type : Z) : bool :=
  bool_decide (DeviceType_from_i32 device_type ∈ [WindowsCLI; MacOsCLI; LinuxCLI]).

Definition post_send_file_v2_data (send_id file_id : string) (data : TempFile) (headers : Headers) : M unit :=
  do* enforce_disable_send_policy headers in
  let* found := Send_find_by_uuid_and_user send_id (u_uuid (h_user headers)) in
  let* send := some_or_err found "Send not found. Unable to save the file." in
  do* ensure (is_type send File) "Send is not a file type send." in
  let* parsed := ask (λ e, parse_SendFileData e (s_data send)) in
  let* send_data := some_or_err parsed "Unable to decode send data as json." in
  do* match raw_name data with
      | Some name =>
         ensure (bool_decide (name = sf_fileName send_data)
                 || device_is_cli (h_device_type headers) && ends_with (sf_fileName send_data) name)
           "Send file name does not match."
      | None => err "Send file name does not match or is not provided."
      end in
  do* ensure (bool_decide (file_id = sf_id send_data)) "Send file does not match send data." in
  do* ensure (temp_len data =? sf_size send_data)%Z "Send file size does not match." in
  do* save_temp_file (send_id, file_id) (content data) false in
  notify_send send.

Record SendAccessData := mkSendAccessData { sa_password : option string }.

(** [x += 1] on an [i32], wrapping as in a release build *)
Definition i32_succ (n : Z) : Z := if (n =? 2 ^ 31 - 1)%Z then (- 2 ^ 31)%Z else (n + 1)%Z.

Definition unavailable {A} : M A := err_code SEND_INACCESSIBLE_MSG 404.

(** The limits checked by both ways of opening a send, in the order of the
    code. *)
Definition check_available (send : Send) : M unit :=
  let* t := ask now in
  if from_option (λ m, (m <=? s_access_count send)%Z) false (s_max_access_count send) then unavailable
  else if from_option (λ x, (x <=? t)%Z) false (s_expiration_date send) then unavailable
  else if (s_deletion_date send <=? t)%Z then unavailable
  else if s_disabled send then unavailable
  else mret tt.
Definition check_access_password (send : Send) (data : SendAccessData) (invalid : string) : M unit :=
  if bool_decide (is_Some (s_password_hash send)) then
    match sa_password data with
    | Some p => let* valid := Send_check_password send p in ensure valid invalid
    | None => err_code "Password not provided" 401
    end
  else mret tt.

Definition post_access (access_id : string) (data : SendAccessData) : M Json :=
  let* found := Send_find_by_access_id access_id in
  let* send := match found with Some send => mret send | None => unavailable end in
  do* check_available send in
  do* check_access_password send data "Invalid password" in
  let send := if is_type send Text then send <| s_access_count := i32_succ (s_access_count send) |> else send in
  let* send := Send_save send in
  do* notify_send send in
  Send_to_json_access send.

Record BasicJwtClaims := mkBasicJwtClaims { jwt_nbf : Z; jwt_exp : Z; jwt_iss : string; jwt_sub : string }.

Section downloads.
(** The token library, the server's issuer name, and the storage service:
    whether it is the file system, and its signed links. *)
Context (send_issuer : string) (encode_jwt : BasicJwtClaims → option string)
  (decode_send : string → option BasicJwtClaims)
  (is_fs_operator : bool) (presign_read : string * string → option string).

Definition generate_send_claims (send_id file_id : string) : M BasicJwtClaims :=
  let* time_now := ask now in
  let* exp := mexpect (d ← try_seconds 120; checked_add_signed time_now d) in
  mret {| jwt_nbf := timestamp time_now; jwt_exp := timestamp exp; jwt_iss := send_issuer;
          jwt_sub := send_id +:+ "/" +:+ file_id |}.

Definition download_url (host send_id file_id : string) : M string :=
  do* sends_operator in
  if is_fs_operator then
    let* token_claims := generate_send_claims send_id file_id in
    let* token := some_or_err (encode_jwt token_claims) "JWT encoding failed" in
    mret (host +:+ "/api/sends/" +:+ send_id +:+ "/" +:+ file_id +:+ "?t=" +:+ token)
  else some_or_err (presign_read (send_id, file_id)) "OpenDAL".

Definition post_access_file (send_id file_id : string) (data : SendAccessData) (host : string) : M Json :=
  let* found := Send_find_by_uuid send_id in
  let* send := match found with Some send => mret send | None => unavailable end in
  do* check_available send in
  do* check_access_password send data "Invalid password." in
  let send := send <| s_access_count := i32_succ (s_access_count send) |> in
  let* send := Send_save send in
  do* notify_send send in
  let* url := download_url host send_id file_id in
  mret (JObj [("object", JStr "send-fileDownload"); ("id", JStr file_id); ("url", JStr url)]).

(** The file served, if any. *)
Definition download_send (send_id file_id t : string) : M (option bytes) := λ e w,
  (Ok (match decode_send t with
       | Some claims => if bool_decide (jwt_sub claims = send_id +:+ "/" +:+ file_id)
                        then send_files w !! (send_id, file_id) else None
       | None => None
       end), w).
End downloads.

Inductive UpdateType := SyncSendCreate | SyncSendUpdate | SyncSendDelete | UTNone.

(** The fields an update replaces; the file of a send and, unless a new one is
    given, its password stay. *)
Definition set_send_fields (send : Send) (data : SendData) : M Send :=
  let* send := if data_is_type data Text then
                 let* d := some_or_err (sd_text data) "Send data not provided" in
                 let* data_str := ask (λ e, json_text e (remove_response d)) in
                 mret (send <| s_data := data_str |>)
               else mret send in
  let* max := opt_into_i32 (sd_max_access_count data) in
  let send := send <| s_name := sd_name data |> <| s_akey := sd_key data |>
    <| s_deletion_date := sd_deletion_date data |> <| s_notes := sd_notes data |>
    <| s_max_access_count := max |> <| s_expiration_date := sd_expiration_date data |>
    <| s_hide_email := sd_hide_email data |> <| s_disabled := sd_disabled data |> in
  match sd_password data with
  | Some password => Send_set_password send (Some password)
  | None => mret send
  end.

Definition update_send_from_data (send : Send) (data : SendData) (headers : Headers) (ut : UpdateType) : M Send :=
  do* ensure (bool_decide (s_user_uuid send = Some (u_uuid (h_user headers)))) "Send is not owned by user" in
  do* ensure (s_atype send =? sd_type data)%Z "Sends can't change type" in
  do* check_deletion_date (sd_deletion_date data) in
  let* send := set_send_fields send data in
  let* send := Send_save send in
  do* match ut with UTNone => mret tt | _ => notify_send send end in
  mret send.

Definition put_send (send_id : string) (data : SendData) (headers : Headers) : M Json :=
  do* enforce_disable_send_policy headers in
  do* enforce_disable_hide_email_policy data headers in
  let* found := Send_find_by_uuid_and_user send_id (u_uuid (h_user headers)) in
  let* send := some_or_err found "Send not found" in
  let* send := update_send_from_data send data headers SyncSendUpdate in
  Send_to_json send.

Definition delete_send (send_id : string) (headers : Headers) : M unit :=
  let* found := Send_find_by_uuid_and_user send_id (u_uuid (h_user headers)) in
  let* send := some_or_err found "Send not found" in
  do* Send_delete send in
  notify_send send.

Definition put_remove_password (send_id : string) (headers : Headers) : M Json :=
  do* enforce_disable_send_policy headers in
  let* found := Send_find_by_uuid_and_user send_id (u_uuid (h_user headers)) in
  let* send := some_or_err found "Send not found" in
  let* send := Send_set_password send None in
  let* send := Send_save send in
  do* notify_send send in
  Send_to_json send.
