(* ===== verification/SendAccess.v ===== *)
(** * Properties of sends

    What opening a send requires and changes; that its owner's limit on openings
    holds against everybody else; that every handler changes the table only in
    the ways its requester is entitled to; and what the storage quota counts. *)

From stdpp Require Import base strings numbers pretty gmap list.
From S2P Require Import Prelude Store JsonUtil Users Orgs AuthRequests TwoFactor Sends.

(** ** Frame rules *)

Lemma wp_send_revision s e w (Φ : res Error (list string) → World → Prop) :
  (∀ l w', sends (db w') = sends (db w) → send_files w' = send_files w → tick w' = tick w → Φ (Ok l) w') →
  wp (Send_update_users_revision s) e w Φ.
Proof.
  intros HΦ. unfold Send_update_users_revision, User_update_uuid_revision, User_update_revision_impl.
  wp_go; by apply HΦ.
Qed.
Lemma wp_notify_send s e w (Φ : res Error unit → World → Prop) :
  (∀ w', sends (db w') = sends (db w) → send_files w' = send_files w → tick w' = tick w → Φ (Ok tt) w') →
  wp (notify_send s) e w Φ.
Proof. intros HΦ. unfold notify_send. wp_step. apply wp_send_revision. intros l w' ???. wp_go. by apply HΦ. Qed.
Lemma wp_Send_save s e w (Φ : res Error Send → World → Prop) :
  (∀ w', sends (db w') = <[s_uuid s := s <| s_revision_date := now e |>]> (sends (db w)) →
     send_files w' = send_files w → tick w' = tick w → Φ (Ok (s <| s_revision_date := now e |>)) w') →
  wp (Send_save s) e w Φ.
Proof.
  intros HΦ. unfold Send_save. wp_step. apply wp_send_revision. intros l w' H1 H2 H3. wp_go.
  apply HΦ; simpl; [by rewrite H1|done..].
Qed.

(** ** Opening a send *)

(** Within its owner's limits. *)
Record available (t : Z) (s : Send) : Prop := {
  av_count : ∀ m, s_max_access_count s = Some m → (s_access_count s < m)%Z;
  av_expiration : ∀ x, s_expiration_date s = Some x → (t < x)%Z;
  av_deletion : (t < s_deletion_date s)%Z;
  av_enabled : s_disabled s = false;
}.
#[export] Instance available_dec t s : Decision (available t s).
Proof.
  destruct (decide (from_option (λ m, (s_access_count s < m)%Z) True (s_max_access_count s) ∧
    from_option (λ x, (t < x)%Z) True (s_expiration_date s) ∧ (t < s_deletion_date s)%Z ∧ s_disabled s = false))
    as [(H1 & H2 & H3 & H4)|H].
  - left. split; [|..]; try done; intros x Hx; by rewrite Hx in *.
  - right. intros [H1 H2 H3 H4]. apply H. split_and!; [| |done..].
    + destruct (s_max_access_count s); simpl; auto.
    + destruct (s_expiration_date s); simpl; auto.
Defined.

(** The password stored for a send, all or nothing, and a given one matching it. *)
Definition password_wf (s : Send) : Prop :=
  match s_password_hash s, s_password_salt s, s_password_iter s with
  | Some _, Some _, Some iter => cast_unsigned32 iter ≠ 0%Z
  | None, None, None => True
  | _, _, _ => False
  end.
Definition password_ok (e : Env) (s : Send) (given : option string) : Prop :=
  match s_password_hash s, s_password_salt s, s_password_iter s with
  | Some hash, Some salt, Some iter =>
     ∃ p, given = Some p ∧ pbkdf2_verify e (string_bytes p) salt hash (cast_unsigned32 iter) = true
  | _, _, _ => True
  end.
#[export] Instance password_ok_dec e s given : Decision (password_ok e s given).
Proof.
  unfold password_ok. destruct (s_password_hash s) as [h|], (s_password_salt s) as [sl|], (s_password_iter s) as [it|];
    try apply _.
  destruct given as [p|]; [|right; by intros (? & ? & _)].
  destruct (pbkdf2_verify e (string_bytes p) sl h (cast_unsigned32 it)) eqn:E; [left; eauto|right].
  intros (p' & [= <-] & ?). congruence.
Defined.

Definition unavailable_error : Error := mkError SEND_INACCESSIBLE_MSG 404 None None.

Lemma check_available_run s e w :
  check_available s e w = (if decide (available (now e) s) then Ok tt else Err unavailable_error, w).
Proof.
  unfold check_available, unavailable, err_code, mfail. cbv [mbind ask mret].
  destruct (from_option _ _ (s_max_access_count s)) eqn:E1.
  { rewrite decide_False; [done|]. intros [H _ _ _]. destruct (s_max_access_count s) as [m|]; [|done]. simpl in E1.
    specialize (H m eq_refl). apply Z.leb_le in E1. lia. }
  destruct (from_option _ _ (s_expiration_date s)) eqn:E2.
  { rewrite decide_False; [done|]. intros [_ H _ _]. destruct (s_expiration_date s) as [x|]; [|done]. simpl in E2.
    specialize (H x eq_refl). apply Z.leb_le in E2. lia. }
  destruct (_ <=? _)%Z eqn:E3.
  { rewrite decide_False; [done|]. intros [_ _ H _]. apply Z.leb_le in E3. lia. }
  destruct (s_disabled s) eqn:E4.
  { rewrite decide_False; [done|]. intros [_ _ _ H]. congruence. }
  rewrite decide_True; [done|]. apply Z.leb_gt in E3. split; [| |lia|done]; intros m Hm; rewrite Hm in *; simpl in *.
  - apply Z.leb_gt in E1. lia.
  - apply Z.leb_gt in E2. lia.
Qed.

Definition password_error (given : option string) (invalid : string) : Error :=
  match given with Some _ => new_msg invalid | None => mkError "Password not provided" 401 None None end.
Lemma check_access_password_run s data msg e w :
  password_wf s →
  check_access_password s data msg e w =
    (if decide (password_ok e s (sa_password data)) then Ok tt else Err (password_error (sa_password data) msg), w).
Proof.
  unfold password_wf, check_access_password, Send_check_password, verify_password_hash. intros Hwf.
  destruct (decide (password_ok _ _ _)) as [Hok|Hok]; unfold password_ok in Hok;
    destruct (s_password_hash s) as [h|], (s_password_salt s) as [sl|], (s_password_iter s) as [it|]; try done;
    rewrite bool_decide_true by done.
  - destruct Hok as (p & -> & Hv). apply Z.eqb_neq in Hwf. cbv [mbind mexpect mret ask ensure]. by rewrite Hwf, Hv.
  - destruct (sa_password data) as [p|]; [|done]. apply Z.eqb_neq in Hwf.
    cbv [mbind mexpect mret ask ensure]. rewrite Hwf.
    destruct (pbkdf2_verify _ _ _ _ _) eqn:Hv; [destruct Hok; eauto|done].
Qed.

(** The send an access identifier stands for. *)
Definition send_of_access_id (e : Env) (access_id : string) (t : gmap string Send) : option Send :=
  b ← decode_base64url e access_id; if bool_decide (length b = 16) then t !! uuid_to_string e b else None.
Lemma find_by_access_id_run access_id e w :
  Send_find_by_access_id access_id e w = (Ok (send_of_access_id e access_id (sends (db w))), w).
Proof.
  unfold Send_find_by_access_id, send_of_access_id. cbv [mbind ask].
  destruct (decode_base64url e access_id) as [b|]; simpl; [|done]. by case_bool_decide.
Qed.

(** A send as opening it leaves it; only the text of a send counts here, files
    are counted when they are downloaded. *)
Definition opened (t : Z) (counted : bool) (s : Send) : Send :=
  (if counted then s <| s_access_count := i32_succ (s_access_count s) |> else s) <| s_revision_date := t |>.
Lemma opened_uuid t b s : s_uuid (opened t b s) = s_uuid s.
Proof. by destruct b. Qed.

Lemma to_json_access_run s e w : ∃ j,
  Send_to_json_access s e w = (Ok j, w) ∧ json_get "id" j = Some (JStr (s_uuid s)) ∧
  (s_hide_email s = Some true → json_get "creatorIdentifier" j = Some JNull).
Proof.
  unfold Send_to_json_access, Send_creator_identifier. cbv [mbind ask].
  destruct (default false (s_hide_email s)) eqn:Hh.
  - eexists. split; [reflexivity|]. done.
  - destruct (s_user_uuid s); (eexists; split; [reflexivity|]; split; [done|]; intros H; by rewrite H in Hh).
Qed.

(** Opening a send by its access identifier.  It succeeds exactly when the
    send exists, is below its access limit, before its expiration and deletion
    dates, not disabled, and the password (if it has one) is right.  Then the
    access count of a text send goes up by one, nothing else in the table
    changes but the revision date, and the answer hides the creator if asked
    to.  Otherwise nothing changes; an exhausted, expired, deleted or disabled
    send gives the same answer as one that does not exist. *)
Theorem post_access_spec access_id data e w :
  (∀ s, send_of_access_id e access_id (sends (db w)) = Some s → password_wf s) →
  ∃ r w', post_access access_id data e w = (r, w') ∧
  match send_of_access_id e access_id (sends (db w)) with
  | Some s =>
     if decide (available (now e) s) then
       if decide (password_ok e s (sa_password data)) then
         sends (db w') = <[s_uuid s := opened (now e) (is_type s Text) s]> (sends (db w)) ∧
         ∃ j, r = Ok j ∧ json_get "id" j = Some (JStr (s_uuid s)) ∧
           (s_hide_email s = Some true → json_get "creatorIdentifier" j = Some JNull)
       else r = Err (password_error (sa_password data) "Invalid password") ∧ w' = w
     else r = Err unavailable_error ∧ w' = w
  | None => r = Err unavailable_error ∧ w' = w
  end.
Proof.
  intros Hwf. apply wp_exists. unfold post_access. wp_step. eapply wp_eq; [apply find_by_access_id_run|].
  destruct (send_of_access_id _ _ _) as [s|]; [|done]. specialize (Hwf s eq_refl). wp_go.
  eapply wp_eq; [apply check_available_run|]. destruct (decide (available _ _)); [|done]. wp_go.
  eapply wp_eq; [by apply check_access_password_run|]. destruct (decide (password_ok _ _ _)); [|done]. wp_go.
  apply wp_Send_save. intros w1 Hw1 _ _. wp_go. apply wp_notify_send. intros w2 Hw2 _ _. wp_go.
  destruct (to_json_access_run (opened (now e) (is_type s Text) s) e w2) as (j & Hj & Hid & Hhide).
  eapply wp_eq; [exact Hj|]. split.
  - rewrite Hw2, Hw1. unfold opened. by destruct (is_type s Text).
  - exists j. rewrite opened_uuid in Hid. split_and!; [done..|]. intros Hh. apply Hhide. unfold opened.
    by destruct (is_type s Text).
Qed.

(** ** What each requester may do to the table

    The abstract steps: anyone who names an available send and knows its password
    may open it, which counts for a text and for the download of a file; a user may create
    sends, change his own without touching their identity or access count, and
    delete them; the purge job deletes those past their deletion date.  New
    identifiers are drawn from position [n] of the random stream on. *)

Abbreviation table := (gmap string Send).

Definition same_identity (s s' : Send) : Prop :=
  s_uuid s' = s_uuid s ∧ s_user_uuid s' = s_user_uuid s ∧ s_organization_uuid s' = s_organization_uuid s ∧
  s_atype s' = s_atype s ∧ s_access_count s' = s_access_count s ∧ s_creation_date s' = s_creation_date s.

(** Whose authority a request carries: a user's; a visitor's, who names a send by
    its access identifier or, to download its file, by its identifier, with the
    password if one is given; or the job's. *)
Inductive Authority :=
  | SendOwner (user : string)
  | SendVisitor (id : string) (download : bool) (password : option string)
  | SendPurge.
Definition named_send (e : Env) (id : string) (download : bool) : option string :=
  if download then Some id
  else b ← decode_base64url e id; if bool_decide (length b = 16) then Some (uuid_to_string e b) else None.

Inductive send_step (e : Env) (n : nat) : Authority → table → table → Prop :=
  | step_open id download password t k s :
     named_send e id download = Some k → t !! k = Some s → available (now e) s → password_ok e s password →
     send_step e n (SendVisitor id download password) t (<[k := opened (now e) (download || is_type s Text) s]> t)
  | step_create u t k s :
     t !! k = None → s_uuid s = k → (∃ i, n ≤ i ∧ k = uuid_at e i) → s_user_uuid s = Some u → s_access_count s = 0%Z →
     (s_deletion_date s ≤ now e + days 31)%Z →
     send_step e n (SendOwner u) t (<[k := s]> t)
  | step_edit u t k s s' :
     t !! k = Some s → s_user_uuid s = Some u → same_identity s s' →
     s_deletion_date s' = s_deletion_date s ∨ (s_deletion_date s' ≤ now e + days 31)%Z →
     send_step e n (SendOwner u) t (<[k := s']> t)
  | step_delete u t k s :
     t !! k = Some s → s_user_uuid s = Some u → send_step e n (SendOwner u) t (delete k t)
  | step_purge t k s :
     t !! k = Some s → (s_deletion_date s < now e)%Z → send_step e n SendPurge t (delete k t).

(** Rows sit under their identifier and have complete passwords. *)
Definition sends_wf (t : table) : Prop := ∀ k s, t !! k = Some s → s_uuid s = k ∧ password_wf s.

(** The identifiers a request draws are not in use. *)
Definition fresh_ids (e : Env) (w : World) : Prop := ∀ i, tick w ≤ i → sends (db w) !! uuid_at e i = None.

Lemma reads_enforce_disable_send h : reads (enforce_disable_send_policy h).
Proof. unfold enforce_disable_send_policy. solve_reads. Qed.
Lemma reads_enforce_hide_email d h : reads (enforce_disable_hide_email_policy d h).
Proof. unfold enforce_disable_hide_email_policy. solve_reads. Qed.
Lemma reads_check_deletion_date t : reads (check_deletion_date t).
Proof. unfold check_deletion_date, plus_days. solve_reads. Qed.
Lemma reads_opt_into_i32 m : reads (opt_into_i32 m).
Proof. unfold opt_into_i32. destruct m as [[]|]; unfold into_i32; solve_reads. Qed.
Lemma reads_into_i64 m : reads (into_i64 m).
Proof. unfold into_i64. solve_reads. Qed.
Lemma reads_size_limit h : reads (size_limit h).
Proof.
  unfold size_limit, size_left, Send_size_by_user, Send_find_by_user. apply reads_bind; [by intros ??; eexists|].
  intros [[]|]; solve_reads.
Qed.
Lemma reads_to_json s : reads (Send_to_json s).
Proof. unfold Send_to_json. solve_reads. Qed.
#[export] Hint Resolve reads_enforce_disable_send reads_enforce_hide_email reads_check_deletion_date
  reads_opt_into_i32 reads_into_i64 reads_size_limit reads_to_json : frame.

Lemma wp_check_deletion_date t e w (Φ : res Error unit → World → Prop) :
  ((t ≤ now e + days 31)%Z → Φ (Ok tt) w) → (∀ x, Φ (Err x) w) → Φ Panic w → wp (check_deletion_date t) e w Φ.
Proof.
  intros H1 H2 H3. unfold check_deletion_date, plus_days. wp_go; try done.
  apply H1. unfold checked_add_signed in Ho0. destruct (in_range _); [|done]. simplify_eq.
  vm_compute in Ho. injection Ho as <-. apply negb_true_iff, Z.ltb_ge in Hc. exact Hc.
Qed.

Lemma wp_Send_set_password s p e w (Φ : res Error Send → World → Prop) :
  (∀ s' w', same_identity s s' → s_deletion_date s' = s_deletion_date s → s_data s' = s_data s →
     password_wf s' → db w' = db w → send_files w' = send_files w → tick w ≤ tick w' → Φ (Ok s') w') →
  wp (Send_set_password s p) e w Φ.
Proof.
  intros HΦ. unfold Send_set_password, get_random_bytes, hash_password. destruct p as [p|].
  - wp_go; [|done]. simplify_eq. apply HΦ; simpl; try done; lia.
  - wp_go. by apply HΦ.
Qed.

(** What [create_send] makes: a send of the user, with a drawn identifier. *)
Record created (e : Env) (w : World) (data : SendData) (u : string) (s : Send) : Prop := {
  cr_uuid : ∃ i, tick w ≤ i ∧ s_uuid s = uuid_at e i;
  cr_user : s_user_uuid s = Some u;
  cr_count : s_access_count s = 0%Z;
  cr_type : s_atype s = sd_type data;
  cr_deletion : (s_deletion_date s ≤ now e + days 31)%Z;
  cr_password : password_wf s;
  cr_data : ∃ d, (if data_is_type data Text then sd_text data else sd_file data) = Some d ∧
    s_data s = json_text e (remove_response d);
}.
Lemma wp_create_send data u e w (Φ : res Error Send → World → Prop) :
  (∀ s w', created e w data u s → db w' = db w → send_files w' = send_files w → Φ (Ok s) w') →
  (∀ r w', db w' = db w → send_files w' = send_files w → (∀ s, r ≠ Ok s) → Φ r w') →
  wp (create_send data u) e w Φ.
Proof.
  intros HΦ Hbad. unfold create_send. wp_step.
  assert (∀ o, o = (if data_is_type data Text then sd_text data else sd_file data) →
    wp (let* d := some_or_err o "Send data not provided" in
        let* data_str := ask (λ e, json_text e (remove_response d)) in
        do* check_deletion_date (sd_deletion_date data) in
        let* send := Send_new (sd_type data) (sd_name data) data_str (sd_key data) (sd_deletion_date data) in
        let* max := opt_into_i32 (sd_max_access_count data) in
        Send_set_password (send <| s_user_uuid := Some u |> <| s_notes := sd_notes data |>
          <| s_max_access_count := max |> <| s_expiration_date := sd_expiration_date data |>
          <| s_disabled := sd_disabled data |> <| s_hide_email := sd_hide_email data |> <| s_atype := sd_type data |>)
          (sd_password data)) e w Φ) as Hmain.
  { intros o Heq. wp_go; [|by apply Hbad]. apply wp_check_deletion_date; [|intros x; by apply Hbad|by apply Hbad].
    intros Hdel. unfold Send_new. wp_go. apply wp_reads; [auto with frame|]. intros [max|x|]; [|by apply Hbad..].
    wp_go. apply wp_Send_set_password. intros s' w' (H1 & H2 & _ & H3 & H4 & _) H5 H6 H7 H8 H9 H10.
    apply HΦ; [|by rewrite H8|by rewrite H9]. simpl in *. split; try done; try congruence; try lia.
    - exists (tick w). done.
    - exists a. rewrite <- Heq. done. }
  destruct (data_is_type data Text) eqn:Et; [do 2 wp_step; by apply Hmain|].
  destruct (data_is_type data File); do 2 wp_step; [by apply Hmain|by apply Hbad].
Qed.

(** The requests. *)
Inductive send_op :=
  | OpenSend (access_id : string) (data : SendAccessData)
  | OpenFile (send_id file_id : string) (data : SendAccessData) (host : string)
  | Download (send_id file_id token : string)
  | PurgeJob
  | ListSends
  | GetSend (send_id : string)
  | CreateSend (data : SendData)
  | CreateFile (data : SendData) (file : TempFile)
  | CreateFileV2 (data : SendData)
  | UploadFile (send_id file_id : string) (file : TempFile)
  | EditSend (send_id : string) (data : SendData)
  | DeleteSend (send_id : string)
  | RemovePassword (send_id : string).

Definition requester (h : Headers) (op : send_op) : Authority :=
  match op with
  | OpenSend id data => SendVisitor id false (sa_password data)
  | OpenFile id _ data _ => SendVisitor id true (sa_password data)
  | Download id _ _ => SendVisitor id true None
  | PurgeJob => SendPurge
  | _ => SendOwner (u_uuid (h_user h))
  end.

Section refinement.
Context (send_issuer : string) (encode_jwt : BasicJwtClaims → option string)
  (decode_send : string → option BasicJwtClaims)
  (is_fs_operator : bool) (presign_read : string * string → option string).

Definition run_op (h : Headers) (op : send_op) : M unit :=
  match op with
  | OpenSend id data => mdrop (post_access id data)
  | OpenFile id file data host =>
     mdrop (post_access_file send_issuer encode_jwt is_fs_operator presign_read id file data host)
  | Download id file token => mdrop (download_send decode_send id file token)
  | PurgeJob => purge_sends
  | ListSends => mdrop (get_sends h)
  | GetSend id => mdrop (get_send id h)
  | CreateSend data => mdrop (post_send data h)
  | CreateFile data file => mdrop (post_send_file data file h)
  | CreateFileV2 data => mdrop (post_send_file_v2 data h)
  | UploadFile id file_id file => post_send_file_v2_data id file_id file h
  | EditSend id data => mdrop (put_send id data h)
  | DeleteSend id => delete_send id h
  | RemovePassword id => mdrop (put_remove_password id h)
  end.

(** [m] implements the abstract steps of [who]. *)
Definition implements {A} (who : Authority) (m : M A) : Prop := ∀ e w,
  sends_wf (sends (db w)) → fresh_ids e w →
  wp m e w (λ _ w', rtc (send_step e (tick w) who) (sends (db w)) (sends (db w')) ∧ sends_wf (sends (db w'))).

Lemma implements_drop {A} who (m : M A) : implements who m → implements who (mdrop m).
Proof. intros Hm e w Hwf Hfr. unfold mdrop. wp_step. eapply wp_mono; [by apply Hm|]. by intros [] w' ?. Qed.
Lemma implements_reads {A} who (m : M A) : reads m → implements who m.
Proof. intros Hm e w Hwf _. by apply wp_reads. Qed.

Lemma sends_wf_insert t k s : sends_wf t → s_uuid s = k → password_wf s → sends_wf (<[k := s]> t).
Proof. intros Ht <- Hs k' x [[<- <-]|[_ Hx]]%lookup_insert_Some; [done|]. by apply Ht. Qed.
Lemma sends_wf_delete t k : sends_wf t → sends_wf (delete k t).
Proof. intros Ht k' x [_ Hx]%lookup_delete_Some. by apply Ht. Qed.

(** The ends of the handlers, in the form their proofs need. *)
Lemma wp_save_step {A} n who e w t s (k : Send → M A) :
  (∀ s0 w1 (Φ : res Error A → World → Prop),
     (∀ r w2, sends (db w2) = sends (db w1) → Φ r w2) → wp (k s0) e w1 Φ) →
  sends (db w) = t → sends_wf t → password_wf s →
  send_step e n who t (<[s_uuid s := s <| s_revision_date := now e |>]> t) →
  wp (let* s0 := Send_save s in k s0) e w (λ _ w', rtc (send_step e n who) t (sends (db w')) ∧ sends_wf (sends (db w'))).
Proof.
  intros Hk <- Hwf Hp Hstep. wp_step. apply wp_Send_save. intros w1 Hw1 _ _. wp_step.
  apply Hk. intros _ w2 ->. rewrite Hw1. split; [by apply rtc_once|].
  by apply sends_wf_insert.
Qed.
Lemma tail_notify_json s e w (Φ : res Error Json → World → Prop) :
  (∀ r w2, sends (db w2) = sends (db w) → Φ r w2) → wp (do* notify_send s in Send_to_json s) e w Φ.
Proof.
  intros HΦ. wp_step. apply wp_notify_send. intros w1 H1 _ _. wp_step.
  apply wp_reads; [auto with frame|]. intros r. by apply HΦ.
Qed.

Lemma implements_OpenSend id data : implements (SendVisitor id false (sa_password data)) (post_access id data).
Proof.
  intros e w Hwf _. unfold post_access. wp_step. eapply wp_eq; [apply find_by_access_id_run|].
  destruct (send_of_access_id _ _ _) as [s|] eqn:Hs; wp_step; wp_go; [|done].
  unfold send_of_access_id in Hs. apply bind_Some in Hs as (b & Hb & Hs). case_bool_decide as Hlen; [|done].
  destruct (Hwf _ _ Hs) as [Hu Hp].
  eapply wp_eq; [apply check_available_run|]. destruct (decide (available _ _)) as [Hav|]; [|done]. wp_go.
  eapply wp_eq; [by apply check_access_password_run|]. destruct (decide (password_ok _ _ _)); [|done]. wp_step.
  apply wp_save_step; [|done|done|by destruct (is_type s Text)|].
  - intros s0 w1 Φ HΦ. wp_step. apply wp_notify_send. intros w2 H2 _ _. wp_step.
    destruct (to_json_access_run s0 e w2) as (j & Hj & _). eapply wp_eq; [exact Hj|]. by apply HΦ.
  - assert (s_uuid (if is_type s Text then s <| s_access_count := i32_succ (s_access_count s) |> else s)
      = uuid_to_string e b) as -> by (by destruct (is_type s Text)).
    apply (step_open _ _ id false); [|done..]. unfold named_send. rewrite Hb. simpl. by rewrite bool_decide_true.
Qed.

Lemma reads_download_url host id file :
  reads (download_url send_issuer encode_jwt is_fs_operator presign_read host id file).
Proof. unfold download_url, sends_operator, generate_send_claims. solve_reads. Qed.
Lemma implements_OpenFile id file data host :
  implements (SendVisitor id true (sa_password data))
    (post_access_file send_issuer encode_jwt is_fs_operator presign_read id file data host).
Proof.
  intros e w Hwf _. unfold post_access_file, Send_find_by_uuid. wp_step. wp_step. wp_step.
  destruct (sends (db w) !! id) as [s|] eqn:Hs; wp_step; wp_go; [|done]. destruct (Hwf _ _ Hs) as [Hu Hp].
  eapply wp_eq; [apply check_available_run|]. destruct (decide (available _ _)) as [Hav|]; [|done]. wp_go.
  eapply wp_eq; [by apply check_access_password_run|]. destruct (decide (password_ok _ _ _)); [|done]. wp_step.
  apply wp_save_step; [|done|done|done|].
  - intros s0 w1 Φ HΦ. wp_step. apply wp_notify_send. intros w2 H2 _ _. wp_step. wp_step.
    apply wp_reads; [apply reads_download_url|]. intros [u|x|]; wp_go; by apply HΦ.
  - change (s_uuid (s <| s_access_count := i32_succ (s_access_count s) |>)) with (s_uuid s). rewrite Hu.
    by apply (step_open _ _ id true).
Qed.

Lemma find_own id h e w (Φ : res Error (option Send) → World → Prop) :
  (∀ s, sends (db w) !! id = Some s → s_user_uuid s = Some (u_uuid (h_user h)) → Φ (Ok (Some s)) w) →
  Φ (Ok None) w → wp (Send_find_by_uuid_and_user id (u_uuid (h_user h))) e w Φ.
Proof.
  intros H1 H2. unfold Send_find_by_uuid_and_user. wp_step. destruct (sends (db w) !! id) as [s|] eqn:E; simpl; [|done].
  unfold owned_by. case_bool_decide; [|done]. by apply H1.
Qed.

(** Load one's own send, or fail. *)
Ltac wp_own s Hs Ho :=
  wp_step; apply find_own; [intros s Hs Ho|done]; wp_step; wp_step; cbn [some_or_err]; wp_step; wp_step.

(** Saving a new send. *)
Lemma step_created e w data h s s' :
  created e w data (u_uuid (h_user h)) s → fresh_ids e w → s_uuid s' = s_uuid s → s_user_uuid s' = s_user_uuid s →
  s_access_count s' = s_access_count s → s_deletion_date s' = s_deletion_date s →
  send_step e (tick w) (SendOwner (u_uuid (h_user h))) (sends (db w)) (<[s_uuid s := s']> (sends (db w))).
Proof.
  intros Hc Hfr H1 H2 H3 H4. destruct (cr_uuid _ _ _ _ _ Hc) as (i & Hi & Hu).
  apply step_create; [rewrite Hu; by apply Hfr|done|by exists i|..].
  - rewrite H2. apply (cr_user _ _ _ _ _ Hc).
  - rewrite H3. apply (cr_count _ _ _ _ _ Hc).
  - rewrite H4. apply (cr_deletion _ _ _ _ _ Hc).
Qed.
(** Build the new send of a handler. *)
Ltac wp_create s w' Hcr Hw' :=
  wp_step; apply wp_create_send;
    [intros s w' Hcr Hw' _; wp_step
    |let Hno := fresh in let a := fresh in
     intros [a|?|] w' Hw' _ Hno; [by destruct (Hno a)|simpl; by rewrite Hw'..]].

Lemma implements_CreateSend data h : implements (SendOwner (u_uuid (h_user h))) (post_send data h).
Proof.
  intros e w Hwf Hfr. unfold post_send. wp_read. wp_read. wp_step. wp_step; [|done]. wp_step. wp_create s w' Hcr Hw'.
  apply wp_save_step; [|by rewrite Hw'|done|apply (cr_password _ _ _ _ _ Hcr)|].
  - intros s0 w1 Φ. apply tail_notify_json.
  - by eapply step_created.
Qed.

(** Recording a file changes only the data. *)
Lemma wp_add_file_data s id size e w (Φ : res Error Send → World → Prop) :
  (∀ d, parse_json e (s_data s) = Some d → Φ (Ok (s <| s_data := json_text e (with_file e id size d) |>)) w) →
  (∀ x, Φ (Err x) w) → wp (add_file_data s id size) e w Φ.
Proof. intros H1 H2. unfold add_file_data. wp_go; [by apply H1|by apply H2]. Qed.

Lemma wp_save_temp_file path c ow e w (Φ : res Error unit → World → Prop) :
  (∀ r w', db w' = db w → Φ r w') → wp (save_temp_file path c ow) e w Φ.
Proof.
  intros HΦ. unfold save_temp_file, sends_operator. wp_go; [|by apply HΦ].
  apply wp_intro. intros r w' Heq. destruct (_ && _); simplify_eq; by apply HΦ.
Qed.

Lemma implements_CreateFile data file h : implements (SendOwner (u_uuid (h_user h))) (post_send_file data file h).
Proof.
  intros e w Hwf Hfr. unfold post_send_file, generate_send_file_id, encode_random_bytes, get_random_bytes.
  wp_read. wp_step. wp_step; [|done]. wp_step. wp_step. wp_step; [|done]. wp_step. wp_read. wp_read.
  wp_step. wp_step; [|done]. wp_step. wp_create s w' Hcr Hw'.
  wp_step. wp_step; [|simpl; by rewrite Hw']. wp_go.
  apply wp_save_temp_file. intros [[]|x|] w1 Hw1; simpl in Hw1 |- *; [|by rewrite Hw1, Hw'..].
  wp_step. apply wp_add_file_data; [|intros x; simpl; by rewrite Hw1, Hw']. intros d _. wp_step.
  apply wp_save_step; [|simpl; by rewrite Hw1, Hw'|done|apply (cr_password _ _ _ _ _ Hcr)|].
  - intros s0 w2 Φ. apply tail_notify_json.
  - by apply (step_created _ _ data _ s).
Qed.
Lemma implements_CreateFileV2 data h : implements (SendOwner (u_uuid (h_user h))) (post_send_file_v2 data h).
Proof.
  intros e w Hwf Hfr. unfold post_send_file_v2, generate_send_file_id, encode_random_bytes, get_random_bytes.
  wp_read. wp_step. wp_step; [|done]. wp_step. wp_read. wp_step. wp_step; [|done]. wp_step. wp_read.
  wp_step. wp_step; [|done]. wp_step. wp_read. wp_step. wp_step; [|done]. wp_step. wp_create s w' Hcr Hw'. wp_go.
  apply wp_add_file_data; [|intros x; simpl; by rewrite Hw']. intros d _. wp_step.
  apply wp_save_step; [|simpl; by rewrite Hw'|done|apply (cr_password _ _ _ _ _ Hcr)|].
  - intros s0 w1 Φ HΦ. wp_step. apply wp_reads; [auto with frame|]. intros [j|x|]; wp_go; by apply HΦ.
  - by apply (step_created _ _ data _ s).
Qed.

Lemma implements_UploadFile id file_id file h :
  implements (SendOwner (u_uuid (h_user h))) (post_send_file_v2_data id file_id file h).
Proof.
  intros e w Hwf Hfr. unfold post_send_file_v2_data. wp_read.
  wp_step. apply find_own; [|done]. intros s _ _. wp_step. wp_go; try done;
    apply wp_save_temp_file; intros [[]|x|] w1 Hw1; simpl; rewrite ?Hw1; try done;
    apply wp_notify_send; intros w2 Hw2 _ _; by rewrite Hw2, Hw1.
Qed.

Lemma wp_set_send_fields s data e w (Φ : res Error Send → World → Prop) :
  password_wf s →
  (∀ s' w', same_identity s s' → s_deletion_date s' = sd_deletion_date data → password_wf s' → db w' = db w →
     Φ (Ok s') w') →
  (∀ x, Φ (Err x) w) → Φ Panic w → wp (set_send_fields s data) e w Φ.
Proof.
  intros Hp HΦ He HP. unfold set_send_fields. wp_step. wp_go; try apply He.
  all: apply wp_reads; [auto with frame|]; intros [max|x|]; [|apply He|apply HP]; wp_step.
  all: destruct (sd_password data); [apply wp_Send_set_password|wp_go; by apply HΦ].
  all: intros s' w' Hid Hd _ Hp' Hdb _ _; by apply HΦ.
Qed.
Lemma implements_EditSend id data h : implements (SendOwner (u_uuid (h_user h))) (put_send id data h).
Proof.
  intros e w Hwf Hfr. unfold put_send, update_send_from_data. wp_read. wp_read.
  wp_own s Hs Ho. destruct (Hwf _ _ Hs) as [Hu Hp]. wp_step. wp_step. wp_step; [|done]. wp_step. wp_step. wp_step; [|done]. wp_step. wp_step.
  apply wp_check_deletion_date; [|done..]. intros Hdel. wp_step. wp_step.
  apply wp_set_send_fields; [done| |done..]. intros s' w' Hid Hd Hp' Hw'. wp_step. wp_step.
  apply wp_Send_save. intros w1 Hw1 _ _. wp_step. wp_step. apply wp_notify_send. intros w2 Hw2 _ _. wp_step. wp_step.
  wp_step. apply wp_reads; [auto with frame|]. intros _. rewrite Hw2, Hw1, Hw', (proj1 Hid), Hu. split.
  - apply rtc_once. eapply step_edit; [done|done|exact Hid|]. right. simpl. lia.
  - apply sends_wf_insert; [done| |done]. etrans; [apply (proj1 Hid)|done].
Qed.

Lemma wp_Send_delete s e w (Φ : res Error unit → World → Prop) :
  (∀ w', sends (db w') = delete (s_uuid s) (sends (db w)) → Φ (Ok tt) w') →
  (∀ x w', sends (db w') = sends (db w) → Φ (Err x) w') → wp (Send_delete s) e w Φ.
Proof.
  intros H1 H2. unfold Send_delete, sends_operator, delete_files. wp_step. apply wp_send_revision. intros l w1 Hw1 _ _.
  wp_step. wp_step. wp_step; [wp_step; wp_step; wp_step; wp_step; wp_step; [|by apply H2]|].
  - wp_step. apply wp_intro. intros r w2 Heq. simplify_eq. wp_step. wp_go. apply H1. simpl.
    destruct (storage_available e); simpl; by rewrite Hw1.
  - wp_go. apply H1. simpl. by rewrite Hw1.
Qed.
Lemma implements_DeleteSend id h : implements (SendOwner (u_uuid (h_user h))) (delete_send id h).
Proof.
  intros e w Hwf Hfr. unfold delete_send. wp_own s Hs Ho.
  wp_step. apply wp_Send_delete; [|intros x w' Hw'; simpl; by rewrite Hw']. intros w' Hw'. wp_step. apply wp_notify_send.
  intros w2 Hw2 _ _. rewrite Hw2, Hw', (proj1 (Hwf _ _ Hs)). split; [|by apply sends_wf_delete].
  apply rtc_once. by eapply step_delete.
Qed.
Lemma implements_RemovePassword id h : implements (SendOwner (u_uuid (h_user h))) (put_remove_password id h).
Proof.
  intros e w Hwf Hfr. unfold put_remove_password. wp_read. wp_own s Hs Ho.
  wp_step. apply wp_Send_set_password. intros s' w' Hid Hd _ Hp' Hw' _ _. wp_step.
  apply wp_save_step; [|by rewrite Hw'|done|done|].
  - intros s0 w1 Φ. apply tail_notify_json.
  - rewrite (proj1 Hid), (proj1 (Hwf _ _ Hs)). eapply step_edit; [done|done|exact Hid|by left].
Qed.

Lemma implements_PurgeJob : implements SendPurge purge_sends.
Proof.
  intros e w Hwf _. unfold purge_sends, Send_purge, Send_find_by_past_deletion_date. wp_step. wp_go.
  set (l := load _ _). assert (∀ s, s ∈ l → s_deletion_date s < now e)%Z as Hl.
  { intros s [Hp _]%elem_of_load. by apply Z.ltb_lt in Hp. }
  eapply (wp_for_each _ _ _ _ (λ w', rtc (send_step e (tick w) SendPurge) (sends (db w)) (sends (db w')) ∧ sends_wf (sends (db w')) ∧
    ∀ k s, sends (db w') !! k = Some s → sends (db w) !! k = Some s)); [done| |naive_solver].
  intros s w' Hs (Hsteps & Hwf' & Hsub). wp_step. apply wp_Send_delete; [|by intros x w1 ->].
  intros w1 ->. split_and!.
  - destruct (sends (db w') !! s_uuid s) as [s'|] eqn:E; [|by rewrite delete_id].
    eapply rtc_r; [exact Hsteps|]. eapply step_purge; [exact E|]. apply Hl. apply elem_of_load in Hs as [Hp [k Hk]].
    apply elem_of_load. rewrite <- (proj1 (Hwf _ _ Hk)) in Hk. apply Hsub in E. simplify_eq. eauto.
  - by apply sends_wf_delete.
  - intros k x [_ Hx]%lookup_delete_Some. by apply Hsub.
Qed.

Lemma reads_get_sends h : reads (get_sends h).
Proof.
  unfold get_sends. apply reads_bind; [by intros ??; eexists|]. intros l. apply reads_bind; [|by intros ???; eexists].
  induction l as [|s l IH]; solve_reads.
Qed.
Lemma reads_get_send id h : reads (get_send id h).
Proof. unfold get_send. solve_reads. Qed.
#[local] Hint Resolve implements_OpenSend implements_OpenFile implements_PurgeJob implements_CreateSend
  implements_CreateFile implements_CreateFileV2 implements_UploadFile implements_EditSend implements_DeleteSend
  implements_RemovePassword reads_get_sends reads_get_send : frame.

Lemma run_op_implements h op : implements (requester h op) (run_op h op).
Proof.
  destruct op; simpl; try apply implements_drop; auto with frame; apply implements_reads; auto with frame.
  by intros e w; eexists.
Qed.

(** C37: the handlers implement the abstract steps.  On a well-formed table,
    with unused identifiers being drawn, every request, whatever its outcome,
    changes the table only by steps its requester is entitled to: in
    particular only an owner can create, change or delete a send of his, no
    change alters its owner, type, access count or creation date, deletion
    dates are set at most 31 days ahead, an anonymous request only counts an
    opening of the send it names, if that is available and the password it gives
    is right, and the table stays well-formed. *)
Theorem sends_refine h op e w r w' :
  sends_wf (sends (db w)) → fresh_ids e w → run_op h op e w = (r, w') →
  rtc (send_step e (tick w) (requester h op)) (sends (db w)) (sends (db w')) ∧ sends_wf (sends (db w')).
Proof.
  intros Hwf Hfr Hrun. exact (wp_run _ _ _ _ (run_op_implements h op e w Hwf Hfr) _ _ Hrun).
Qed.

(** *** The limit on openings *)

(** Send [k] belongs to [owner] and may be opened [m] times, if it is still
    there; how many openings are left. *)
Definition tracked (k : string) (owner : option string) (m : Z) (t : table) : Prop :=
  ∀ s, t !! k = Some s → s_user_uuid s = owner ∧ s_max_access_count s = Some m.
Definition openings_left (k : string) (m : Z) (t : table) : nat :=
  from_option (λ s, Z.to_nat (m - s_access_count s)) 0 (t !! k).

Lemma opened_count t s m : available t s → s_max_access_count s = Some m → (m < 2 ^ 31)%Z →
  s_access_count (opened t true s) = (s_access_count s + 1)%Z.
Proof.
  intros Hav Hm Hlt. apply (av_count _ _ Hav) in Hm. unfold opened, i32_succ. simpl.
  destruct (Z.eqb_spec (s_access_count s) (2 ^ 31 - 1)); [lia|done].
Qed.
Lemma openings_opened k t e s m : 
  t !! k = Some s → available (now e) s → s_max_access_count s = Some m → (m < 2 ^ 31)%Z →
  S (openings_left k m (<[k := opened (now e) true s]> t)) = openings_left k m t.
Proof.
  intros Hs Hav Hm Hlt. unfold openings_left. rewrite lookup_insert_eq, Hs. cbn [from_option].
  rewrite (opened_count _ _ m) by done. apply (av_count _ _ Hav) in Hm. lia.
Qed.

Lemma step_openings k owner m e n who t t' :
  send_step e n who t t' → (∀ u, who = SendOwner u → owner ≠ Some u) → (∀ i, n ≤ i → uuid_at e i ≠ k) → (m < 2 ^ 31)%Z →
  tracked k owner m t → tracked k owner m t' ∧ openings_left k m t' ≤ openings_left k m t.
Proof.
  intros Hst Hwho Hk Hm Htr. unfold tracked, openings_left in *.
  destruct Hst as [id dl pw t k' s _ Hs Hav _|u t k' s Hn Hu (i & Hi & Hki) Ho _ _|u t k' s s' Hs Ho Hid _|u t k' s Hs Ho|t k' s Hs _];
    (destruct (decide (k' = k)) as [->|Hne]; [|rewrite ?lookup_insert_ne, ?lookup_delete_ne by done; by split]).
  - destruct (Htr s Hs) as [Ho Hmax]. rewrite lookup_insert_eq, Hs. cbn [from_option]. split.
    + intros x [= <-]. by destruct (dl || is_type s Text).
    + destruct (dl || is_type s Text); [|done]. rewrite (opened_count _ _ m) by done. lia.
  - by destruct (Hk i Hi).
  - destruct (Htr s Hs) as [Ho' _]. destruct (Hwho u eq_refl). congruence.
  - destruct (Htr s Hs) as [Ho' _]. destruct (Hwho u eq_refl). congruence.
  - rewrite lookup_delete_eq. simpl. split; [done|lia].
Qed.
Lemma steps_openings k owner m e n who t t' :
  rtc (send_step e n who) t t' → (∀ u, who = SendOwner u → owner ≠ Some u) → (∀ i, n ≤ i → uuid_at e i ≠ k) →
  (m < 2 ^ 31)%Z → tracked k owner m t → tracked k owner m t' ∧ openings_left k m t' ≤ openings_left k m t.
Proof.
  induction 1 as [|t1 t2 t3 Hst _ IH]; intros Hwho Hk Hm Htr; [done|].
  destruct (step_openings _ _ _ _ _ _ _ _ Hst Hwho Hk Hm Htr) as [Htr2 Hle]. destruct (IH Hwho Hk Hm Htr2). split; [done|lia].
Qed.

(** Whether a request opens send [k] in a way that counts: a text by its access
    identifier, or any send through the download of a file. *)
Definition opens (k : string) (e : Env) (w : World) (op : send_op) : bool :=
  match op with
  | OpenSend id _ =>
     from_option (λ s, bool_decide (s_uuid s = k) && is_type s Text) false (send_of_access_id e id (sends (db w)))
  | OpenFile id _ _ _ => bool_decide (id = k)
  | _ => false
  end.
Lemma opens_budget k owner m h op e w w' :
  sends_wf (sends (db w)) → opens k e w op = true → run_op h op e w = (Ok tt, w') →
  tracked k owner m (sends (db w)) → (m < 2 ^ 31)%Z →
  S (openings_left k m (sends (db w'))) = openings_left k m (sends (db w)).
Proof.
  intros Hwf Hop Hrun Htr Hm.
  enough (wp (run_op h op) e w (λ r w', r = Ok tt →
    S (openings_left k m (sends (db w'))) = openings_left k m (sends (db w)))) as Hwp
    by (by apply (wp_run _ _ _ _ Hwp _ _ Hrun)).
  destruct op as [id data|id file data host| | | | | | | | | | |]; try done; simpl in Hop |- *; unfold mdrop; wp_step.
  - unfold post_access. wp_step. eapply wp_eq; [apply find_by_access_id_run|].
    destruct (send_of_access_id _ _ _) as [s|] eqn:Hs; [|done]. simpl in Hop.
    apply andb_true_iff in Hop as [Hk%bool_decide_eq_true Ht].
    unfold send_of_access_id in Hs. apply bind_Some in Hs as (b & _ & Hs). case_bool_decide; [|done].
    destruct (Hwf _ _ Hs) as [Hu Hp]. wp_go.
    eapply wp_eq; [apply check_available_run|]. destruct (decide (available _ _)) as [Hav|]; [|done]. wp_go.
    eapply wp_eq; [by apply check_access_password_run|]. destruct (decide (password_ok _ _ _)); [|done]. wp_go.
    rewrite Ht. apply wp_Send_save. intros w1 Hw1 _ _. wp_go. apply wp_notify_send. intros w2 Hw2 _ _. wp_go.
    destruct (to_json_access_run (opened (now e) true s) e w2) as (j & Hj & _). eapply wp_eq; [exact Hj|]. wp_go. intros _.
    assert (sends (db w) !! k = Some s) as Hks by congruence.
    pose proof (openings_opened k _ e s m Hks Hav (proj2 (Htr _ Hks)) Hm) as E. rewrite Hw2, Hw1. rewrite <- Hk in E |- *. exact E.
  - apply bool_decide_eq_true in Hop as ->. unfold post_access_file, Send_find_by_uuid. wp_step. wp_step. wp_step.
    destruct (sends (db w) !! k) as [s|] eqn:Hs; [|done]. destruct (Hwf _ _ Hs) as [Hu Hp]. wp_go.
    eapply wp_eq; [apply check_available_run|]. destruct (decide (available _ _)) as [Hav|]; [|done]. wp_go.
    eapply wp_eq; [by apply check_access_password_run|]. destruct (decide (password_ok _ _ _)); [|done]. wp_go.
    apply wp_Send_save. intros w1 Hw1 _ _. wp_go. apply wp_notify_send. intros w2 Hw2 _ _. wp_go.
    apply wp_reads; [apply reads_download_url|]. intros [u|x|]; wp_go; [|done..]. wp_go. intros _.
    pose proof (openings_opened k _ e s m Hs Hav (proj2 (Htr _ Hs)) Hm) as E. rewrite Hw2, Hw1.
    change (s_uuid (s <| s_access_count := i32_succ (s_access_count s) |>)) with (s_uuid s). rewrite Hu. exact E.
Qed.

(** A series of requests, each with its surroundings, and the number of
    successful openings of [k] among them. *)
Abbreviation session := (list (Env * Headers * send_op)).
Fixpoint openings (k : string) (l : session) (w : World) : nat :=
  match l with
  | [] => 0
  | (e, h, op) :: l =>
     let '(r, w') := run_op h op e w in
     (if bool_decide (r = Ok tt) && opens k e w op then 1 else 0) + openings k l w'
  end.
(** Throughout the series drawn identifiers are unused, and differ from [k]. *)
Fixpoint fresh_session (k : string) (l : session) (w : World) : Prop :=
  match l with
  | [] => True
  | (e, h, op) :: l =>
     fresh_ids e w ∧ (∀ i, tick w ≤ i → uuid_at e i ≠ k) ∧ fresh_session k l (run_op h op e w).2
  end.

(** The access limit of a send holds.  As long as its owner does not act,
    in any series of requests, anonymous or by other users, at most as many
    openings of the send succeed as its limit leaves. *)
Theorem send_openings_bounded k s m l w :
  sends_wf (sends (db w)) → sends (db w) !! k = Some s → s_max_access_count s = Some m → (m < 2 ^ 31)%Z →
  Forall (λ '(_, h, op), ∀ u, requester h op = SendOwner u → s_user_uuid s ≠ Some u) l → fresh_session k l w →
  openings k l w ≤ Z.to_nat (m - s_access_count s).
Proof.
  intros Hwf Hs Hmax Hm Hl Hfr.
  assert (tracked k (s_user_uuid s) m (sends (db w))) as Htr by (intros s' Hs'; by simplify_eq).
  trans (openings_left k m (sends (db w))); [|unfold openings_left; by rewrite Hs].
  clear Hs. revert w Hwf Hfr Htr. induction Hl as [|[[e h] op] l Hop _ IH]; intros w Hwf Hfr Htr; simpl; [lia|].
  destruct Hfr as (Hfr & Hk & Hfr'). destruct (run_op h op e w) as [r w'] eqn:Hrun.
  destruct (wp_run _ _ _ _ (run_op_implements h op e w Hwf Hfr) _ _ Hrun) as [Hsteps Hwf'].
  destruct (steps_openings k (s_user_uuid s) m _ _ _ _ _ Hsteps Hop Hk Hm Htr) as [Htr' Hle].
  specialize (IH w' Hwf' Hfr' Htr'). case_bool_decide; subst; simpl; [|lia].
  destruct (opens k e w op) eqn:Ho; [|simpl; lia].
  rewrite <- (opens_budget k (s_user_uuid s) m h op e w w' Hwf Ho Hrun Htr Hm). lia.
Qed.
End refinement.

(** ** The storage quota *)

(** JSON values up to the order of the entries of objects. *)
Inductive json_equiv : Json → Json → Prop :=
  | json_equiv_refl j : json_equiv j j
  | json_equiv_arr l l' : Forall2 json_equiv l l' → json_equiv (JArr l) (JArr l')
  | json_equiv_obj o o1 o' :
     o ≡ₚ o1 → Forall2 (λ x y, x.1 = y.1 ∧ json_equiv x.2 y.2) o1 o' → json_equiv (JObj o) (JObj o').

(** [serde_json] reads back the values it writes; the keys of an object are
    distinct. *)
Definition json_text_ok (e : Env) : Prop :=
  ∀ o, NoDup o.*1 → ∃ j, parse_json e (json_text e (JObj o)) = Some j ∧ json_equiv (JObj o) j.

Lemma json_equiv_obj_inv o j : json_equiv (JObj o) j →
  ∃ o', j = JObj o' ∧ o.*1 ≡ₚ o'.*1 ∧ ∀ k n, (k, JNum n) ∈ o → (k, JNum n) ∈ o'.
Proof.
  intros He. inversion He as [| |? o1 o' Hp Hf]; subst; [by exists o|]. exists o'. split; [done|]. split.
  - rewrite Hp. clear -Hf. induction Hf as [|x y o1 o' [Hxy _] _ IH]; simpl; [done|]. by rewrite Hxy, IH.
  - intros k n Hin. rewrite Hp in Hin. clear -Hf Hin. induction Hf as [|[k1 v1] [k2 v2] o1 o' [Hxy Hv] _ IH]; [done|].
    simpl in *. subst. apply elem_of_cons in Hin as [[= -> <-]|Hin]; [|right; auto]. inversion Hv; subst. by left.
Qed.

Lemma elem_of_insert_keys k v o k' : k' ∈ (json_insert k v o).*1 ↔ k' = k ∨ k' ∈ o.*1.
Proof.
  induction o as [|[k1 v1] o IH]; simpl; [set_solver|]. case_bool_decide; subst; simpl; rewrite !elem_of_cons; [tauto|].
  rewrite IH. tauto.
Qed.
Lemma NoDup_insert_keys k v o : NoDup o.*1 → NoDup (json_insert k v o).*1.
Proof.
  induction o as [|[k1 v1] o IH]; simpl; [intros _; apply NoDup_singleton|]. intros [Hn Hnd]%NoDup_cons.
  case_bool_decide; simpl; apply NoDup_cons; [by subst|]. split; [|auto]. rewrite elem_of_insert_keys. naive_solver.
Qed.
Lemma elem_of_insert_same k v o : (k, v) ∈ json_insert k v o.
Proof. induction o as [|[k1 v1] o IH]; simpl; [by left|]. case_bool_decide; [by left|by right]. Qed.
Lemma elem_of_insert_other k v o k' v' : k' ≠ k → (k', v') ∈ o → (k', v') ∈ json_insert k v o.
Proof.
  intros Hne. induction o as [|[k1 v1] o IH]; simpl; [by intros ?%elem_of_nil|].
  rewrite elem_of_cons. case_bool_decide; rewrite elem_of_cons; naive_solver.
Qed.
Lemma json_remove_keys k o k' : k' ∈ (json_remove k o).*1 ↔ k' ≠ k ∧ k' ∈ o.*1.
Proof.
  unfold json_remove. rewrite !list_elem_of_fmap. split.
  - intros ([k1 v] & -> & [? ?]%list_elem_of_filter). split; [done|]. by exists (k1, v).
  - intros (? & [k1 v] & -> & ?). exists (k1, v). split; [done|]. by apply list_elem_of_filter.
Qed.
Lemma NoDup_remove_keys k o : NoDup o.*1 → NoDup (json_remove k o).*1.
Proof. intros Hnd. eapply sublist_NoDup; [exact Hnd|]. apply fmap_sublist, sublist_filter. Qed.

(** A field read from an object with distinct keys. *)
Lemma one_field_one a b o v :
  NoDup o.*1 → (a, v) ∈ o → b ∉ o.*1 → one_field [a; b] (JObj o) = Some v.
Proof.
  intros Hnd Ha Hb. unfold one_field.
  assert (filter (λ '(k, _), k ∈ [a; b]) o = [(a, v)]) as ->; [|done].
  induction o as [|[k1 v1] o IH]; [by apply elem_of_nil in Ha|]. simpl in Hnd, Hb. apply NoDup_cons in Hnd as [Hn Hnd].
  apply not_elem_of_cons in Hb as [Hb1 Hb]. apply elem_of_cons in Ha as [[= <- <-]|Ha].
  - rewrite filter_cons_True by set_solver. f_equal. clear -Hn Hb.
    induction o as [|[k2 v2] o IH]; [done|]. simpl in Hn, Hb. apply not_elem_of_cons in Hn as [? Hn], Hb as [? Hb].
    rewrite filter_cons_False; [by apply IH|]. set_solver.
  - rewrite filter_cons_False; [by apply IH|]. intros [->|[->|?%elem_of_nil]%elem_of_cons]%elem_of_cons; [|done..].
    destruct Hn. apply list_elem_of_fmap. by exists (a, v).
Qed.
Lemma one_field_both a b o v : a ≠ b → (a, v) ∈ o → b ∈ o.*1 → one_field [a; b] (JObj o) = None.
Proof.
  intros Hne Ha ([b' v'] & -> & Hb)%list_elem_of_fmap. simpl in *. unfold one_field.
  assert ((a, v) ∈ filter (λ '(k, _), k ∈ [a; b']) o) as H1 by (apply list_elem_of_filter; set_solver).
  assert ((b', v') ∈ filter (λ '(k, _), k ∈ [a; b']) o) as H2 by (apply list_elem_of_filter; set_solver).
  destruct (filter _ o) as [|x [|y l]]; [by apply elem_of_nil in H1| |by destruct x].
  apply list_elem_of_singleton in H1, H2. congruence.
Qed.

(** What the quota counts of a send, and of a user's sends. *)
Definition counted_size (e : Env) (s : Send) : Z :=
  if is_type s File then default 0%Z (file_data_size e (s_data s)) else 0%Z.
Definition sum_Z (l : list Z) : Z := foldr Z.add 0%Z l.
Definition used_size (e : Env) (user : string) (t : table) : Z :=
  sum_Z (counted_size e <$> load (owned_by user) t).

Lemma sum_Z_perm l l' : l ≡ₚ l' → sum_Z l = sum_Z l'.
Proof. induction 1; simpl in *; lia. Qed.
Lemma total_size_sum e l : ∀ total n, total_size e total l = Some n → n = (total + sum_Z (counted_size e <$> l))%Z.
Proof.
  induction l as [|s l IH]; intros total n; [intros [= <-]; simpl; lia|].
  rewrite fmap_cons. cbn [total_size sum_Z foldr]. fold (sum_Z (counted_size e <$> l)). unfold counted_size at 1.
  destruct (is_type s File); [|by intros ->%IH]. destruct (file_data_size e (s_data s)) as [z|]; simpl; [|by intros ->%IH].
  intros (t' & Ht & Hn)%bind_Some. unfold checked_add64, to_i64 in Ht. destruct (_ && _); simplify_eq.
  rewrite (IH _ _ Hn). lia.
Qed.
Lemma used_size_insert e user t s :
  t !! s_uuid s = None → s_user_uuid s = Some user →
  used_size e user (<[s_uuid s := s]> t) = (counted_size e s + used_size e user t)%Z.
Proof.
  intros Hn Ho. unfold used_size. rewrite (sum_Z_perm _ (counted_size e <$> (s :: load (owned_by user) t))); [done|].
  apply fmap_Permutation. rewrite load_insert_new by done. unfold owned_by at 1. by rewrite bool_decide_true.
Qed.

(** The limit a successful upload stays under. *)
Definition within_quota (limit room used : Z) : Prop :=
  (0 < limit * 1024 - used)%Z ∧ (room ≤ limit * 1024 - used)%Z ∧ (room ≤ SIZE_525_MB)%Z.
Lemma wp_size_limit h e w limit (Φ : res Error Z → World → Prop) :
  user_send_limit (cfg e) = Some limit →
  (∀ room, within_quota limit room (used_size e (u_uuid (h_user h)) (sends (db w))) → Φ (Ok room) w) →
  (∀ x, Φ (Err x) w) → wp (size_limit h) e w Φ.
Proof.
  intros Hl HΦ Hx. unfold size_limit. do 3 wp_step. rewrite Hl.
  assert (wp (size_left limit h) e w Φ) as Hleft; [|destruct limit; [apply Hx|done..]].
  unfold size_left, Send_size_by_user, Send_find_by_user. wp_go; try apply Hx. apply HΦ.
  apply total_size_sum in Ho. apply bind_Some in Ho0 as (l & Hl1 & Hl2). unfold to_i64 in Hl1, Hl2.
  destruct (_ && _) in Hl1; [|done]. destruct (_ && _) in Hl2; [|done]. simplify_eq.
  apply negb_true_iff, Z.leb_gt in Hc. unfold within_quota, used_size, SIZE_525_MB. lia.
Qed.

Lemma size_with_file e o id n :
  json_text_ok e → NoDup o.*1 → to_i64 n = Some n →
  file_data_size e (json_text e (with_file e id n (JObj o))) = if bool_decide ("Size" ∈ o.*1) then None else Some n.
Proof.
  intros Hok Hnd Hn. cbn [with_file]. set (o1 := json_insert "sizeName" _ _).
  assert (NoDup o1.*1) as Hnd1 by (by do 3 apply NoDup_insert_keys).
  assert (("size", JNum n) ∈ o1) as Hin by (apply elem_of_insert_other, elem_of_insert_same; done).
  assert ("Size" ∈ o1.*1 ↔ "Size" ∈ o.*1) as HS by (unfold o1; rewrite !elem_of_insert_keys; naive_solver).
  destruct (Hok o1 Hnd1) as (j & Hj & (o2 & -> & Hk & Hv)%json_equiv_obj_inv). apply Hv in Hin.
  unfold file_data_size. rewrite Hj. cbn [base.mbind option_bind]. rewrite Hk in HS. rewrite Hk in Hnd1.
  case_bool_decide as Hs.
  - rewrite (one_field_both "size" "Size" o2 (JNum n)); [done|done|done|by apply HS].
  - rewrite (one_field_one "size" "Size" o2 (JNum n)); [|done|done|by rewrite HS]. simpl. by rewrite Hn.
Qed.

(** A new file send, as stored, adds its size to what is counted. *)
Lemma used_new_file e w data u s s' id n d o :
  json_text_ok e → fresh_ids e w → created e w data u s → data_is_type data File = true →
  sd_file data = Some (JObj o) → NoDup o.*1 → to_i64 n = Some n → parse_json e (s_data s) = Some d →
  s' = (s <| s_data := json_text e (with_file e id n d) |>) <| s_revision_date := now e |> →
  used_size e u (<[s_uuid s := s']> (sends (db w))) =
    (used_size e u (sends (db w)) + if bool_decide ("Size" ∈ o.*1) then 0 else n)%Z.
Proof.
  intros Hok Hfr Hcr Ht Hfile Hnd Hn Hd Hs'. destruct (cr_uuid _ _ _ _ _ Hcr) as (i & Hi & Hu).
  assert (s_uuid s' = s_uuid s) as Hus by (by subst s'). rewrite <- Hus, used_size_insert;
    [|rewrite Hus, Hu; by apply Hfr|subst s'; apply (cr_user _ _ _ _ _ Hcr)].
  rewrite Z.add_comm. f_equal. unfold counted_size.
  assert (is_type s' File = true) as ->. { subst s'. unfold is_type. simpl. rewrite (cr_type _ _ _ _ _ Hcr). exact Ht. }
  destruct (cr_data _ _ _ _ _ Hcr) as (d0 & Hd0 & Hdata).
  assert (data_is_type data Text = false) as Htx by (unfold data_is_type in *; apply Z.eqb_eq in Ht; by rewrite Ht).
  rewrite Htx, Hfile in Hd0. injection Hd0 as <-. cbn [remove_response] in Hdata.
  destruct (Hok (json_remove "response" o)) as (j & Hj & (o1 & -> & Hk & _)%json_equiv_obj_inv); [by apply NoDup_remove_keys|].
  rewrite Hdata, Hj in Hd. injection Hd as <-. subst s'. cbn [s_data setf].
  rewrite size_with_file; [|done|rewrite <- Hk; by apply NoDup_remove_keys|done].
  rewrite (bool_decide_ext _ ("Size" ∈ o.*1)); [by case_bool_decide|]. rewrite <- Hk, json_remove_keys. naive_solver.
Qed.

(** The quota on files.  With a limit set, a successful announcement of a
    file of [n] bytes (whose length is what the upload must match) fits the
    limit together with what was counted before, and the count goes up by [n],
    unless the described file carries an entry named "Size": then the stored
    data has the size under two names, is not understood when sizes are added
    up, and counts for nothing. *)
Theorem post_send_file_v2_quota data h e w j w' limit o :
  json_text_ok e → fresh_ids e w → user_send_limit (cfg e) = Some limit →
  sd_file data = Some (JObj o) → NoDup o.*1 →
  post_send_file_v2 data h e w = (Ok j, w') →
  let used t := used_size e (u_uuid (h_user h)) t in
  ∃ m n, sd_file_length data = Some m ∧ parse_i64 m = Some n ∧ (0 ≤ n ≤ SIZE_525_MB)%Z ∧
    (used (sends (db w)) + n ≤ limit * 1024)%Z ∧
    used (sends (db w')) = (used (sends (db w)) + if bool_decide ("Size" ∈ o.*1) then 0 else n)%Z.
Proof.
  intros Hok Hfr Hl Hfile Hnd Hrun used.
  set (Φ := λ (r : res Error Json) (w' : World), r = Ok j →
    ∃ m n, sd_file_length data = Some m ∧ parse_i64 m = Some n ∧ (0 ≤ n ≤ SIZE_525_MB)%Z ∧
      (used (sends (db w)) + n ≤ limit * 1024)%Z ∧
      used (sends (db w')) = (used (sends (db w)) + if bool_decide ("Size" ∈ o.*1) then 0 else n)%Z).
  enough (wp (post_send_file_v2 data h) e w Φ) as Hwp by (by apply (wp_run _ _ _ _ Hwp _ _ Hrun)).
  unfold post_send_file_v2, into_i64, generate_send_file_id, encode_random_bytes, get_random_bytes.
  wp_read. wp_step. wp_step; [|done]. wp_step. wp_read. wp_step. wp_step; [|done]. wp_step. wp_step. wp_step; [|done].
  wp_step. wp_step. wp_step; [|done]. wp_step. wp_step.
  apply (wp_size_limit _ _ _ limit); [done| |done]. intros room Hroom. wp_step. wp_step. wp_step; [|done]. wp_step.
  wp_step. apply wp_create_send; [|intros [s| |] w1 _ _ Hno; [by destruct (Hno s)|done..]].
  intros s w1 Hcr Hw1 _. wp_step. wp_go. apply wp_add_file_data; [|done]. intros d Hd. wp_step. wp_step.
  apply wp_Send_save. intros w2 Hw2 _ _. wp_step. wp_step. apply wp_reads; [auto with frame|].
  intros [j'| |]; [|done..]. wp_go. intros _. exists a1, a2.
  apply negb_true_iff, Z.ltb_ge in Hc0, Hc1. destruct Hroom as (_ & Hr1 & Hr2). unfold used.
  split_and!; [done|done|lia|lia|lia|]. rewrite Hw2.
  change (sends (db (w1 <| tick := S (tick w1) |>))) with (sends (db w1)). rewrite Hw1.
  assert (to_i64 a2 = Some a2) as H64.
  { unfold to_i64, SIZE_525_MB in *. destruct (Z.leb_spec (- 2 ^ 63) a2), (Z.ltb_spec a2 (2 ^ 63)); [done|lia..]. }
  by eapply (used_new_file e w data _ s _ _ a2 d).
Qed.

(** ** Examples *)

Import ToyEnv ToyUsers.

(** A text of alice's that may be opened once, under an identifier of sixteen
    characters. *)
Definition toy_id : string := "0123456789abcdef".
Definition toy_send (count : Z) : Send := {|
  s_uuid := toy_id; s_user_uuid := Some "alice"; s_organization_uuid := None; s_name := "n"; s_notes := None;
  s_atype := 0; s_data := "d"; s_akey := "k"; s_password_hash := None; s_password_salt := None;
  s_password_iter := None; s_max_access_count := Some 1%Z; s_access_count := count; s_creation_date := 0;
  s_revision_date := 0; s_expiration_date := None; s_deletion_date := days 7; s_disabled := false;
  s_hide_email := Some true |}.
Definition send_world (count : Z) : World :=
  mkWorld ((db toy_world) <| sends := {[toy_id := toy_send count]} |>) 0 [] ∅ ∅.
Definition toy_access_id : string := encode_base64url (toy_env 0) (chars toy_id).
Definition no_password : SendAccessData := mkSendAccessData None.
Definition send_headers (id : string) : Headers := mkHeaders (toy_user id) 0 "ip" "host".
Definition toy_run : Headers → send_op → M unit :=
  run_op "issuer" (λ _, Some "token") (λ _, None) true (λ _, None).

Lemma send_world_wf c : sends_wf (sends (db (send_world c))).
Proof. intros k s Hs. simpl in Hs. apply lookup_singleton_Some in Hs as [<- <-]. done. Qed.
(** Drawn identifiers begin with other letters. *)
Lemma toy_uuid_ne t i : uuid_at (toy_env t) i ≠ toy_id.
Proof. by cbn -[pretty]. Qed.
Lemma singleton_fresh t w x : sends (db w) = {[toy_id := x]} → fresh_ids (toy_env t) w.
Proof. intros Hw i _. rewrite Hw. apply lookup_singleton_ne. by cbn -[pretty]. Qed.
Lemma send_world_fresh t c : fresh_ids (toy_env t) (send_world c).
Proof. by apply (singleton_fresh _ _ (toy_send c)). Qed.

Lemma post_access_spec_witness :
  ∃ j w', post_access toy_access_id no_password (toy_env 5) (send_world 0) = (Ok j, w') ∧
    sends (db w') !! toy_id = Some ((toy_send 1) <| s_revision_date := 5%Z |>) ∧
    json_get "creatorIdentifier" j = Some JNull.
Proof.
  destruct (post_access_spec toy_access_id no_password (toy_env 5) (send_world 0)) as (r & w' & Hrun & H).
  { intros s Hs. unfold send_of_access_id in Hs. apply bind_Some in Hs as (b & _ & Hs). case_bool_decide; [|done].
    by apply (send_world_wf 0) in Hs as [_ ?]. }
  assert (send_of_access_id (toy_env 5) toy_access_id (sends (db (send_world 0))) = Some (toy_send 0)) as E by (by vm_compute).
  rewrite E in H. rewrite decide_True in H by (by split; simpl; intros; simplify_eq).
  rewrite decide_True in H by done. destruct H as (Hs & j & -> & _ & Hhide). exists j, w'.
  split_and!; [done| |by apply Hhide]. rewrite Hs. by vm_compute.
Defined.

Lemma sends_refine_witness :
  rtc (send_step (toy_env 5) 0 (SendOwner "bob")) (sends (db (send_world 0)))
    (sends (db (toy_run (send_headers "bob") (DeleteSend toy_id) (toy_env 5) (send_world 0)).2)) ∧
  sends (db (toy_run (send_headers "bob") (DeleteSend toy_id) (toy_env 5) (send_world 0)).2) !! toy_id = Some (toy_send 0).
Proof.
  split; [|by vm_compute].
  apply (sends_refine "issuer" (λ _, Some "token") (λ _, None) true (λ _, None) (send_headers "bob") (DeleteSend toy_id)
    (toy_env 5) (send_world 0) (toy_run (send_headers "bob") (DeleteSend toy_id) (toy_env 5) (send_world 0)).1).
  - apply send_world_wf.
  - apply send_world_fresh.
  - by vm_compute.
Defined.

(** The second opening is refused. *)
Definition toy_session : list (Env * Headers * send_op) :=
  [(toy_env 5, send_headers "bob", OpenSend toy_access_id no_password);
   (toy_env 6, send_headers "bob", OpenSend toy_access_id no_password)].
Lemma send_openings_bounded_witness :
  openings "issuer" (λ _, Some "token") (λ _, None) true (λ _, None) toy_id toy_session (send_world 0) ≤ 1 ∧
  openings "issuer" (λ _, Some "token") (λ _, None) true (λ _, None) toy_id toy_session (send_world 0) = 1.
Proof.
  split; [|by vm_compute].
  apply (send_openings_bounded "issuer" (λ _, Some "token") (λ _, None) true (λ _, None) toy_id (toy_send 0) 1);
    [apply send_world_wf|by vm_compute|done|lia|by repeat constructor|].
  split; [apply send_world_fresh|]. split; [intros; apply toy_uuid_ne|].
  split; [|by split; [intros; apply toy_uuid_ne|]].
  apply (singleton_fresh _ _ ((toy_send 1) <| s_revision_date := 5%Z |>)). by vm_compute.
Defined.

(** A file of 1000 bytes that is not counted. *)
Definition quota_env : Env := (toy_env 5) <| cfg := toy_config <| user_send_limit := Some 1%Z |> |>.
Definition file_entries : list (string * Json) := [("fileName", JStr "f"); ("Size", JNum 0)].
Definition file_send : SendData :=
  mkSendData 1 "k" None None None (days 7) false None "n" None None (Some (JObj file_entries)) (Some (Number 1000)) None.
Lemma post_send_file_v2_quota_witness :
  ∃ j w', post_send_file_v2 file_send (send_headers "alice") quota_env (send_world 0) = (Ok j, w') ∧
    used_size quota_env "alice" (sends (db w')) = 0%Z.
Proof.
  destruct (post_send_file_v2 file_send (send_headers "alice") quota_env (send_world 0)) as [r w'] eqn:Hrun.
  assert (∃ j, r = Ok j) as [j ->].
  { assert ((post_send_file_v2 file_send (send_headers "alice") quota_env (send_world 0)).1 = r) as <- by (by rewrite Hrun).
    vm_compute. by eexists. }
  exists j, w'. split; [done|].
  destruct (post_send_file_v2_quota file_send (send_headers "alice") quota_env (send_world 0) j w' 1 file_entries)
    as (m & n & _ & _ & _ & _ & Hu).
  - intros o _. exists (JObj o). split; [|apply json_equiv_refl]. cbn [quota_env parse_json json_text setf toy_env].
    rewrite str_to_pos_to_str. apply decode_encode.
  - exact (send_world_fresh 5 0).
  - done.
  - done.
  - by apply (bool_decide_unpack _).
  - exact Hrun.
  - simpl in Hu. etrans; [exact Hu|]. by vm_compute.
Defined.
