(* ===== verification/Collections.v ===== *)
(** * Collections and groups

    [server/src/db/models/collection.rs] and [group.rs], and the queries of
    [organization.rs] for the members a cipher or a collection concerns.  A user
    reaches a collection as a member with full access, by a row of
    [users_collections], or through a group; the flags of the row say whether
    the access is read-only, hides passwords, or lets manage the collection. *)

From Stdlib Require Import Ascii.
From stdpp Require Import base strings numbers pretty gmap list.
From S2P Require Import Prelude Store Queries Users Orgs.

(** ** Membership: who is concerned by a cipher or a collection *)

#[export] Instance Membership_eq_dec : EqDecision Membership.
Proof. solve_decision. Defined.

Definition Membership_find_by_cipher_and_org (cipher_uuid org_uuid : string) : M (list Membership) :=
  query (λ d, remove_dups (
    m ← where_ (is_org org_uuid) (rows (users_organizations d));
    cu ← left_join (rows (users_collections d)) (λ cu, bool_decide (cu_user_uuid cu = m_user_uuid m));
    cc ← left_join (elements (ciphers_collections d))
           (λ cc, null_eq (Some cc.2) (cu_collection_uuid <$> cu) && bool_decide (cc.1 = cipher_uuid));
    guard_rows (m_access_all m || null_eq (fst <$> cc) (Some cipher_uuid)) [m])).

Definition Membership_find_by_cipher_and_org_with_group (cipher_uuid org_uuid : string) : M (list Membership) :=
  query (λ d, remove_dups (
    m ← where_ (is_org org_uuid) (rows (users_organizations d));
    gu ← inner_join (elements (groups_users d)) (λ gu, bool_decide (gu.2 = m_uuid m));
    cg ← left_join (rows (collections_groups d)) (λ cg, bool_decide (cg_groups_uuid cg = gu.1));
    g ← left_join (rows (groups d))
          (λ g, bool_decide (g_uuid g = gu.1) && bool_decide (g_organizations_uuid g = m_org_uuid m));
    cc ← left_join (elements (ciphers_collections d))
           (λ cc, null_eq (Some cc.2) (cg_collections_uuid <$> cg) && bool_decide (cc.1 = cipher_uuid));
    guard_rows (is_true (g_access_all <$> g) || null_eq (fst <$> cc) (Some cipher_uuid)) [m])).

Definition Membership_user_has_ge_admin_access_to_cipher (user_uuid cipher_uuid : string) : M bool :=
  query (λ d, bool_decide ((
    m ← rows (users_organizations d);
    c ← inner_join (rows (ciphers d))
          (λ c, bool_decide (ci_uuid c = cipher_uuid) && null_eq (ci_organization_uuid c) (Some (m_org_uuid m)));
    guard_rows (is_user user_uuid m && bool_decide (m_atype m ∈ [MembershipType_to_i32 MT_Owner; MembershipType_to_i32 MT_Admin]))
      [c]) ≠ [])).

Definition Membership_find_by_collection_and_org (collection_uuid org_uuid : string) : M (list Membership) :=
  query (λ d,
    m ← where_ (is_org org_uuid) (rows (users_organizations d));
    cu ← left_join (rows (users_collections d)) (λ cu, bool_decide (cu_user_uuid cu = m_user_uuid m));
    guard_rows (m_access_all m || null_eq (cu_collection_uuid <$> cu) (Some collection_uuid)) [m]).

(** ** Group *)

(** [str::trim_start] and [trim_end] on UTF-8 bytes, with Unicode's white space *)
Fixpoint trim_start (s : list Z) : list Z :=
  match s with
  | [] => []
  | c :: s1 =>
     if ((9 <=? c) && (c <=? 13) || (c =? 32))%Z then trim_start s1 else
     match s1 with
     | c1 :: s2 =>
        if ((c =? 194) && ((c1 =? 133) || (c1 =? 160)))%Z then trim_start s2 else
        match s2 with
        | c2 :: s3 =>
           if ((c =? 225) && (c1 =? 154) && (c2 =? 128) ||
               (c =? 226) && (c1 =? 128) &&
                 ((128 <=? c2) && (c2 <=? 138) || (c2 =? 168) || (c2 =? 169) || (c2 =? 175)) ||
               (c =? 226) && (c1 =? 129) && (c2 =? 159) ||
               (c =? 227) && (c1 =? 128) && (c2 =? 128))%Z
           then trim_start s3 else s
        | [] => s
        end
     | [] => s
     end
  end.
(** [s.trim().is_empty()] *)
Definition str_is_blank (s : list Z) : bool := bool_decide (trim_start s = []).
Fixpoint trim_end (s : list Z) : list Z :=
  if str_is_blank s then [] else
  match s with
  | [] => []
  | c :: s => c :: trim_end s
  end.
Definition str_trim (s : list Z) : list Z := trim_end (trim_start s).

Definition Group_set_external_id (self : Group) (external_id : option string) : Group :=
  self <| g_external_id := match external_id with
                           | Some x => if negb (str_is_blank (chars x)) then Some x else None
                           | None => None
                           end |>.
Definition Group_new (organizations_uuid name : string) (access_all : bool) (external_id : option string) : M Group :=
  let* t := ask now in
  let* uuid := get_uuid in
  mret (Group_set_external_id (mkGroup uuid organizations_uuid name access_all None t t) external_id).

Definition Group_to_json (self : Group) : Json :=
  JObj [("id", JStr (g_uuid self)); ("organizationId", JStr (g_organizations_uuid self)); ("name", JStr (g_name self));
        ("externalId", json_opt JStr (g_external_id self)); ("object", JStr "group")].

Definition CollectionGroup_find_by_group (group_uuid org_uuid : string) : M (list CollectionGroup) :=
  query (λ d,
    cg ← rows (collections_groups d);
    g ← inner_join (rows (groups d)) (λ g, bool_decide (g_uuid g = cg_groups_uuid cg));
    c ← inner_join (rows (collections d))
          (λ c, bool_decide (c_uuid c = cg_collections_uuid cg) && bool_decide (c_org_uuid c = g_organizations_uuid g));
    guard_rows (bool_decide (cg_groups_uuid cg = group_uuid) && bool_decide (c_org_uuid c = org_uuid)) [cg]).

Definition Group_to_json_details (self : Group) : M Json :=
  let* collections_groups := CollectionGroup_find_by_group (g_uuid self) (g_organizations_uuid self) in
  mret (JObj [
    ("id", JStr (g_uuid self)); ("organizationId", JStr (g_organizations_uuid self)); ("name", JStr (g_name self));
    ("accessAll", JBool (g_access_all self)); ("externalId", json_opt JStr (g_external_id self));
    ("collections", JArr ((λ entry, JObj [
        ("id", JStr (cg_collections_uuid entry)); ("readOnly", JBool (cg_read_only entry));
        ("hidePasswords", JBool (cg_hide_passwords entry)); ("manage", JBool (cg_manage entry))])
      <$> collections_groups));
    ("object", JStr "groupDetails")]).

Definition CollectionGroup_to_json_details_for_group (self : CollectionGroup) : Json :=
  JObj [("id", JStr (cg_groups_uuid self)); ("readOnly", JBool (cg_read_only self));
        ("hidePasswords", JBool (cg_hide_passwords self));
        ("manage", JBool (cg_manage self || negb (cg_read_only self) && negb (cg_hide_passwords self)))].

Definition Group_save (self : Group) : M Group :=
  let* t := ask now in
  let self := self <| g_revision_date := t |> in
  do* exec (λ d, d <| groups := <[g_uuid self := self]> (groups d) |>) in
  mret self.
Definition Group_find_by_organization (org_uuid : string) : M (list Group) :=
  query (λ d, load (λ g, bool_decide (g_organizations_uuid g = org_uuid)) (groups d)).
Definition Group_count_by_org (org_uuid : string) : M nat :=
  let* l := Group_find_by_organization org_uuid in mret (length l).
Definition Group_find_by_uuid_and_org (uuid org_uuid : string) : M (option Group) :=
  query (λ d, g ← groups d !! uuid; if bool_decide (g_organizations_uuid g = org_uuid) then Some g else None).
Definition Group_find_by_external_id_and_org (external_id org_uuid : string) : M (option Group) :=
  query (λ d, first (λ g, null_eq (g_external_id g) (Some external_id) && bool_decide (g_organizations_uuid g = org_uuid))
    (groups d)).

Definition full_group_orgs (user_uuid : string) (d : Db) : list string :=
  remove_dups (
    gu ← elements (groups_users d);
    m ← inner_join (rows (users_organizations d)) (λ m, bool_decide (m_uuid m = gu.2));
    g ← inner_join (rows (groups d))
          (λ g, bool_decide (g_uuid g = gu.1) && bool_decide (g_organizations_uuid g = m_org_uuid m));
    guard_rows (is_user user_uuid m && g_access_all g) [g_organizations_uuid g]).
Definition Group_get_orgs_by_user_with_full_access (user_uuid : string) : M (list string) :=
  query (full_group_orgs user_uuid).

(** The membership that is joined may be one of another organization. *)
Definition Group_is_in_full_access_group (user_uuid org_uuid : string) : M bool :=
  query (λ d, default false (head (
    g ← rows (groups d);
    gu ← inner_join (elements (groups_users d)) (λ gu, bool_decide (gu.1 = g_uuid g));
    m ← inner_join (rows (users_organizations d)) (λ m, bool_decide (m_uuid m = gu.2));
    guard_rows (is_user user_uuid m && bool_decide (g_organizations_uuid g = org_uuid) && g_access_all g)
      [g_access_all g]))).

Definition Group_update_revision_impl (uuid : string) (date : Z) : M unit :=
  exec (λ d, d <| groups := alter (λ g, g <| g_revision_date := date |>) uuid (groups d) |>).
Definition Group_update_revision (uuid : string) : M unit :=
  let* t := ask now in mignore (Group_update_revision_impl uuid t).

(** ** GroupUser *)

Definition GroupUser_find_by_group (group_uuid org_uuid : string) : M (list (string * string)) :=
  query (λ d,
    gu ← elements (groups_users d);
    g ← inner_join (rows (groups d)) (λ g, bool_decide (g_uuid g = gu.1));
    m ← inner_join (rows (users_organizations d))
          (λ m, bool_decide (m_uuid m = gu.2) && bool_decide (m_org_uuid m = g_organizations_uuid g));
    guard_rows (bool_decide (gu.1 = group_uuid) && bool_decide (g_organizations_uuid g = org_uuid)) [gu]).
Definition GroupUser_find_by_member (member_uuid : string) : M (list (string * string)) :=
  query (λ d, where_ (λ gu, bool_decide (gu.2 = member_uuid)) (elements (groups_users d))).

Definition GroupUser_has_access_to_collection_by_member (collection_uuid member_uuid : string) : M bool :=
  query (λ d, bool_decide ((
    gu ← elements (groups_users d);
    cg ← inner_join (rows (collections_groups d)) (λ cg, bool_decide (cg_groups_uuid cg = gu.1));
    g ← inner_join (rows (groups d)) (λ g, bool_decide (g_uuid g = gu.1));
    c ← inner_join (rows (collections d))
          (λ c, bool_decide (c_uuid c = cg_collections_uuid cg) && bool_decide (c_org_uuid c = g_organizations_uuid g));
    guard_rows (bool_decide (cg_collections_uuid cg = collection_uuid) && bool_decide (gu.2 = member_uuid)) [c]) ≠ [])).
Definition GroupUser_has_full_access_by_member (org_uuid member_uuid : string) : M bool :=
  query (λ d, bool_decide ((
    gu ← elements (groups_users d);
    g ← inner_join (rows (groups d)) (λ g, bool_decide (g_uuid g = gu.1));
    guard_rows (bool_decide (g_organizations_uuid g = org_uuid) && g_access_all g && bool_decide (gu.2 = member_uuid))
      [g]) ≠ [])).

Definition GroupUser_update_user_revision (self : string * string) : M unit :=
  let* m := Membership_find_by_uuid self.2 in
  match m with
  | Some member => User_update_uuid_revision (m_user_uuid member)
  | None => mret tt
  end.
Definition GroupUser_save (self : string * string) : M unit :=
  do* GroupUser_update_user_revision self in
  exec (λ d, d <| groups_users := {[self]} ∪ groups_users d |>).
Definition GroupUser_delete_by_group_and_member (group_uuid member_uuid : string) : M unit :=
  do* GroupUser_update_user_revision (group_uuid, member_uuid) in
  exec (λ d, d <| groups_users := groups_users d ∖ {[(group_uuid, member_uuid)]} |>).
Definition GroupUser_delete_all_by_group (group_uuid org_uuid : string) : M unit :=
  let* group_users := GroupUser_find_by_group group_uuid org_uuid in
  do* for_each group_users GroupUser_update_user_revision in
  exec (λ d, d <| groups_users := filter (λ gu, gu.1 ≠ group_uuid) (groups_users d) |>).

(** ** CollectionGroup *)

Definition CollectionGroup_update_group_revisions (group_uuid org_uuid : string) : M unit :=
  let* group_users := GroupUser_find_by_group group_uuid org_uuid in
  for_each group_users GroupUser_update_user_revision.
Definition CollectionGroup_key (self : CollectionGroup) : string * string :=
  (cg_collections_uuid self, cg_groups_uuid self).
Definition CollectionGroup_save (self : CollectionGroup) (org_uuid : string) : M unit :=
  do* CollectionGroup_update_group_revisions (cg_groups_uuid self) org_uuid in
  exec (λ d, d <| collections_groups := <[CollectionGroup_key self := self]> (collections_groups d) |>).
Definition group_rows_of_user (user_uuid : string) (d : Db) : list CollectionGroup :=
    cg ← rows (collections_groups d);
    gu ← inner_join (elements (groups_users d)) (λ gu, bool_decide (gu.1 = cg_groups_uuid cg));
    m ← inner_join (rows (users_organizations d)) (λ m, bool_decide (m_uuid m = gu.2));
    g ← inner_join (rows (groups d))
          (λ g, bool_decide (g_uuid g = cg_groups_uuid cg) && bool_decide (g_organizations_uuid g = m_org_uuid m));
    c ← inner_join (rows (collections d))
          (λ c, bool_decide (c_uuid c = cg_collections_uuid cg) && bool_decide (c_org_uuid c = g_organizations_uuid g));
    guard_rows (is_user user_uuid m) [cg].
Definition CollectionGroup_find_by_user (user_uuid : string) : M (list CollectionGroup) :=
  query (group_rows_of_user user_uuid).
Definition CollectionGroup_find_by_collection (collection_uuid : string) : M (list CollectionGroup) :=
  query (λ d,
    cg ← where_ (λ cg, bool_decide (cg_collections_uuid cg = collection_uuid)) (rows (collections_groups d));
    c ← inner_join (rows (collections d)) (λ c, bool_decide (c_uuid c = cg_collections_uuid cg));
    g ← inner_join (rows (groups d))
          (λ g, bool_decide (g_uuid g = cg_groups_uuid cg) && bool_decide (g_organizations_uuid g = c_org_uuid c));
    [cg]).
Definition CollectionGroup_delete (self : CollectionGroup) (org_uuid : string) : M unit :=
  do* CollectionGroup_update_group_revisions (cg_groups_uuid self) org_uuid in
  exec (λ d, d <| collections_groups := delete (CollectionGroup_key self) (collections_groups d) |>).
Definition CollectionGroup_delete_all_by_group (group_uuid org_uuid : string) : M unit :=
  do* CollectionGroup_update_group_revisions group_uuid org_uuid in
  exec (λ d, d <| collections_groups :=
    delete_where (λ cg, bool_decide (cg_groups_uuid cg = group_uuid)) (collections_groups d) |>).
Definition CollectionGroup_delete_all_by_collection (collection_uuid org_uuid : string) : M unit :=
  let* assigned := CollectionGroup_find_by_collection collection_uuid in
  do* for_each assigned (λ cg, CollectionGroup_update_group_revisions (cg_groups_uuid cg) org_uuid) in
  exec (λ d, d <| collections_groups :=
    delete_where (λ cg, bool_decide (cg_collections_uuid cg = collection_uuid)) (collections_groups d) |>).

Definition Group_delete (self : Group) (org_uuid : string) : M unit :=
  do* CollectionGroup_delete_all_by_group (g_uuid self) org_uuid in
  do* GroupUser_delete_all_by_group (g_uuid self) org_uuid in
  exec (λ d, d <| groups := delete (g_uuid self) (groups d) |>).
Definition Group_delete_all_by_organization (org_uuid : string) : M unit :=
  let* l := Group_find_by_organization org_uuid in for_each l (λ group, Group_delete group org_uuid).

(** ** CollectionUser *)

Definition CollectionUser_save (user_uuid collection_uuid : string) (read_only hide_passwords manage : bool) : M unit :=
  do* User_update_uuid_revision user_uuid in
  exec (λ d, d <| users_collections :=
    <[(user_uuid, collection_uuid) := mkCollectionUser user_uuid collection_uuid read_only hide_passwords manage]>
      (users_collections d) |>).
Definition CollectionUser_delete (self : CollectionUser) : M unit :=
  do* User_update_uuid_revision (cu_user_uuid self) in
  exec (λ d, d <| users_collections := delete (cu_user_uuid self, cu_collection_uuid self) (users_collections d) |>).
Definition CollectionUser_find_by_collection (collection_uuid : string) : M (list CollectionUser) :=
  query (λ d, load (λ cu, bool_decide (cu_collection_uuid cu = collection_uuid)) (users_collections d)).
Definition CollectionUser_find_by_collection_and_user (collection_uuid user_uuid : string) : M (option CollectionUser) :=
  query (λ d, users_collections d !! (user_uuid, collection_uuid)).
Definition CollectionUser_find_by_user (user_uuid : string) : M (list CollectionUser) :=
  query (λ d, load (λ cu, bool_decide (cu_user_uuid cu = user_uuid)) (users_collections d)).
Definition CollectionUser_delete_all_by_collection (collection_uuid : string) : M unit :=
  let* l := CollectionUser_find_by_collection collection_uuid in
  do* for_each l (λ collection, User_update_uuid_revision (cu_user_uuid collection)) in
  exec (λ d, d <| users_collections :=
    delete_where (λ cu, bool_decide (cu_collection_uuid cu = collection_uuid)) (users_collections d) |>).
Definition CollectionUser_has_access_to_collection_by_user (col_id user_uuid : string) : M bool :=
  let* found := CollectionUser_find_by_collection_and_user col_id user_uuid in mret (is_not_null found).

Record CollectionMembership := mkCollectionMembership {
  cm_membership_uuid : string;
  cm_collection_uuid : string;
  cm_read_only : bool;
  cm_hide_passwords : bool;
  cm_manage : bool;
}.
(** The selected columns, with the membership in place of the user. *)
Definition CollectionMembership_from (m : Membership) (cu : CollectionUser) : CollectionMembership :=
  mkCollectionMembership (m_uuid m) (cu_collection_uuid cu) (cu_read_only cu) (cu_hide_passwords cu) (cu_manage cu).
Definition CollectionMembership_to_json_details_for_member (self : CollectionMembership) (membership_type : Z) : Json :=
  JObj [("id", JStr (cm_membership_uuid self)); ("readOnly", JBool (cm_read_only self));
        ("hidePasswords", JBool (cm_hide_passwords self));
        ("manage", JBool (i32_ge membership_type MT_Admin || cm_manage self ||
           (membership_type =? MembershipType_to_i32 MT_Manager)%Z &&
           negb (cm_read_only self) && negb (cm_hide_passwords self)))].

Definition CollectionUser_find_by_organization_swap_user_uuid_with_member_uuid (org_uuid : string)
    : M (list CollectionMembership) :=
  query (λ d,
    cu ← rows (users_collections d);
    c ← inner_join (rows (collections d)) (λ c, bool_decide (c_uuid c = cu_collection_uuid cu));
    m ← inner_join (rows (users_organizations d)) (λ m, bool_decide (m_user_uuid m = cu_user_uuid cu));
    guard_rows (bool_decide (c_org_uuid c = org_uuid) && is_org org_uuid m) [CollectionMembership_from m cu]).
Definition CollectionUser_find_by_org_and_coll_swap_user_uuid_with_member_uuid (org_uuid collection_uuid : string)
    : M (list CollectionMembership) :=
  query (λ d,
    cu ← where_ (λ cu, bool_decide (cu_collection_uuid cu = collection_uuid)) (rows (users_collections d));
    m ← inner_join (rows (users_organizations d)) (λ m, bool_decide (m_user_uuid m = cu_user_uuid cu));
    guard_rows (is_org org_uuid m) [CollectionMembership_from m cu]).

(** ** Collection *)

Definition Collection_set_external_id (self : Collection) (external_id : option string) : Collection :=
  self <| c_external_id := match external_id with
                           | Some x => if bool_decide (x = "") then None else Some x
                           | None => None
                           end |>.
Definition Collection_new (org_uuid name : string) (external_id : option string) : M Collection :=
  let* uuid := get_uuid in
  mret (Collection_set_external_id (mkCollection uuid org_uuid name None) external_id).
Definition Collection_to_json_fields (self : Collection) : list (string * Json) :=
  [("externalId", json_opt JStr (c_external_id self)); ("id", JStr (c_uuid self));
   ("organizationId", JStr (c_org_uuid self)); ("name", JStr (c_name self)); ("object", JStr "collection")].
Definition Collection_to_json (self : Collection) : Json := JObj (Collection_to_json_fields self).

(** A row of the joins below: the collection with the user's row, the user's
    membership of its organization, and the groups of that membership.  Without
    groups the group tables are not joined. *)
Record CollectionRow := mkCollectionRow {
  r_c : Collection;
  r_cu : option CollectionUser;
  r_m : option Membership;
  r_gu : option (string * string);
  r_g : option Group;
  r_cg : option CollectionGroup;
}.
(** [groups_users] and [groups], joined to a membership *)
Definition join_groups (d : Db) (m : option Membership) : list (option (string * string) * option Group) :=
  gu ← left_join (elements (groups_users d)) (λ gu, null_eq (Some gu.2) (m_uuid <$> m));
  g ← left_join (rows (groups d))
        (λ g, null_eq (Some (g_uuid g)) (fst <$> gu) && null_eq (Some (g_organizations_uuid g)) (m_org_uuid <$> m));
  [(gu, g)].
Definition join_collection_groups (d : Db) (with_groups : bool) (c : Collection) (cu : option CollectionUser)
    (m : option Membership) : list CollectionRow :=
  if with_groups then
    '(gu, g) ← join_groups d m;
    cg ← left_join (rows (collections_groups d))
           (λ cg, null_eq (Some (cg_groups_uuid cg)) (fst <$> gu) && bool_decide (cg_collections_uuid cg = c_uuid c));
    [mkCollectionRow c cu m gu g cg]
  else [mkCollectionRow c cu m None None None].
Definition users_collection_of (d : Db) (c : Collection) (user_uuid : string) : list (option CollectionUser) :=
  left_join (rows (users_collections d))
    (λ cu, bool_decide (cu_collection_uuid cu = c_uuid c) && bool_decide (cu_user_uuid cu = user_uuid)).
Definition member_of_collection (c : Collection) (user_uuid : string) (m : Membership) : bool :=
  bool_decide (c_org_uuid c = m_org_uuid m) && is_user user_uuid m.
Definition collection_rows (d : Db) (with_groups : bool) (user_uuid : string) : list CollectionRow :=
  c ← rows (collections d);
  cu ← users_collection_of d c user_uuid;
  m ← left_join (rows (users_organizations d)) (member_of_collection c user_uuid);
  join_collection_groups d with_groups c cu m.

(** [users_organizations::atype.le(MembershipType::Admin as i32)] *)
Definition atype_le_admin (m : option Membership) : bool :=
  match m with Some m => (m_atype m <=? MembershipType_to_i32 MT_Admin)%Z | None => false end.
(** [groups_users::users_organizations_uuid.eq(users_organizations::uuid)] *)
Definition via_group (r : CollectionRow) : bool := null_eq (snd <$> r_gu r) (m_uuid <$> r_m r).

Definition Collection_find_by_user_uuid (user_uuid : string) : M (list Collection) :=
  let* g := conf org_groups_enabled in
  query (λ d, remove_dups (r_c <$> where_ (λ r,
    null_eq (m_status <$> r_m r) (Some (MembershipStatus_to_i32 MS_Confirmed)) &&
    (null_eq (cu_user_uuid <$> r_cu r) (Some user_uuid) || is_true (m_access_all <$> r_m r) ||
     is_true (g_access_all <$> r_g r) || via_group r && is_not_null (r_cg r))) (collection_rows d g user_uuid))).
Definition Collection_find_by_organization_and_user_uuid (org_uuid user_uuid : string) : M (list Collection) :=
  let* l := Collection_find_by_user_uuid user_uuid in
  mret (where_ (λ c, bool_decide (c_org_uuid c = org_uuid)) l).

Definition Collection_find_by_uuid (uuid : string) : M (option Collection) := query (λ d, collections d !! uuid).
Definition Collection_find_by_organization (org_uuid : string) : M (list Collection) :=
  query (λ d, load (λ c, bool_decide (c_org_uuid c = org_uuid)) (collections d)).
Definition Collection_count_by_org (org_uuid : string) : M nat :=
  let* l := Collection_find_by_organization org_uuid in mret (length l).
Definition Collection_find_by_uuid_and_org (uuid org_uuid : string) : M (option Collection) :=
  query (λ d, c ← collections d !! uuid; if bool_decide (c_org_uuid c = org_uuid) then Some c else None).

Definition Collection_find_by_uuid_and_user (uuid user_uuid : string) : M (option Collection) :=
  let* g := conf org_groups_enabled in
  query (λ d, head (r_c <$> where_ (λ r,
    bool_decide (c_uuid (r_c r) = uuid) &&
    (null_eq (cu_collection_uuid <$> r_cu r) (Some uuid) || is_true (m_access_all <$> r_m r) || atype_le_admin (r_m r) ||
     is_true (g_access_all <$> r_g r) || via_group r && is_not_null (r_cg r))) (collection_rows d g user_uuid))).

(** Here the membership is required, and the user's row is joined after it. *)
Definition writable_rows (d : Db) (with_groups : bool) (uuid user_uuid : string) : list CollectionRow :=
  c ← where_ (λ c, bool_decide (c_uuid c = uuid)) (rows (collections d));
  m ← inner_join (rows (users_organizations d)) (member_of_collection c user_uuid);
  cu ← users_collection_of d c user_uuid;
  join_collection_groups d with_groups c cu (Some m).
Definition Collection_is_writable_by_user (self : Collection) (user_uuid : string) : M bool :=
  let* g := conf org_groups_enabled in
  query (λ d, existsb (λ r,
    atype_le_admin (r_m r) || is_true (m_access_all <$> r_m r) ||
    null_eq (cu_collection_uuid <$> r_cu r) (Some (c_uuid self)) && is_false (cu_read_only <$> r_cu r) ||
    is_true (g_access_all <$> r_g r) || is_not_null (r_cg r) && is_false (cg_read_only <$> r_cg r))
    (writable_rows d g (c_uuid self) user_uuid)).

(** A row of the user with a flag, full access, or a group's row with it; the
    groups count even where they are disabled. *)
Definition some_row_with (user_flag : CollectionUser → bool) (group_flag : CollectionGroup → bool)
    (uuid user_uuid : string) (d : Db) : bool :=
  existsb (λ r,
    bool_decide (c_uuid (r_c r) = uuid) &&
    (null_eq (cu_collection_uuid <$> r_cu r) (Some uuid) && is_true (user_flag <$> r_cu r) ||
     is_true (m_access_all <$> r_m r) || atype_le_admin (r_m r) || is_true (g_access_all <$> r_g r) ||
     via_group r && (is_not_null (r_cg r) && is_true (group_flag <$> r_cg r)))) (collection_rows d true user_uuid).
Definition Collection_hide_passwords_for_user (self : Collection) (user_uuid : string) : M bool :=
  query (some_row_with cu_hide_passwords cg_hide_passwords (c_uuid self) user_uuid).
Definition Collection_is_coll_manageable_by_user (uuid user_uuid : string) : M bool :=
  query (some_row_with cu_manage cg_manage uuid user_uuid).
Definition Collection_is_manageable_by_user (self : Collection) (user_uuid : string) : M bool :=
  Collection_is_coll_manageable_by_user (c_uuid self) user_uuid.

Definition Collection_can_access_collection (member : Membership) (col_id : string) : M bool :=
  if negb (Membership_has_status member MS_Confirmed) then mret false
  else if Membership_has_full_access member then mret true
  else
    let* direct := CollectionUser_has_access_to_collection_by_user col_id (m_user_uuid member) in
    if direct then mret true
    else
      let* g := conf org_groups_enabled in
      if negb g then mret false
      else
        let* full := GroupUser_has_full_access_by_member (m_org_uuid member) (m_uuid member) in
        if full then mret true else GroupUser_has_access_to_collection_by_member col_id (m_uuid member).

Definition Collection_update_users_revision (self : Collection) : M unit :=
  let* l := Membership_find_by_collection_and_org (c_uuid self) (c_org_uuid self) in
  for_each l (λ member, User_update_uuid_revision (m_user_uuid member)).
Definition Collection_save (self : Collection) : M unit :=
  do* Collection_update_users_revision self in
  exec (λ d, d <| collections := <[c_uuid self := self]> (collections d) |>).

(** ** CollectionCipher *)

Definition CollectionCipher_update_users_revision (collection_uuid : string) : M unit :=
  let* found := Collection_find_by_uuid collection_uuid in
  match found with
  | Some collection => Collection_update_users_revision collection
  | None => mret tt
  end.
Definition CollectionCipher_save (cipher_uuid collection_uuid : string) : M unit :=
  do* CollectionCipher_update_users_revision collection_uuid in
  exec (λ d, d <| ciphers_collections := {[(cipher_uuid, collection_uuid)]} ∪ ciphers_collections d |>).
Definition CollectionCipher_delete (cipher_uuid collection_uuid : string) : M unit :=
  do* CollectionCipher_update_users_revision collection_uuid in
  exec (λ d, d <| ciphers_collections := ciphers_collections d ∖ {[(cipher_uuid, collection_uuid)]} |>).
Definition CollectionCipher_delete_all_by_cipher (cipher_uuid : string) : M unit :=
  exec (λ d, d <| ciphers_collections := filter (λ cc, cc.1 ≠ cipher_uuid) (ciphers_collections d) |>).
Definition CollectionCipher_delete_all_by_collection (collection_uuid : string) : M unit :=
  exec (λ d, d <| ciphers_collections := filter (λ cc, cc.2 ≠ collection_uuid) (ciphers_collections d) |>).

Definition Collection_delete (self : Collection) : M unit :=
  do* Collection_update_users_revision self in
  do* CollectionCipher_delete_all_by_collection (c_uuid self) in
  do* CollectionUser_delete_all_by_collection (c_uuid self) in
  do* CollectionGroup_delete_all_by_collection (c_uuid self) (c_org_uuid self) in
  exec (λ d, d <| collections := delete (c_uuid self) (collections d) |>).
Definition Collection_delete_all_by_organization (org_uuid : string) : M unit :=
  let* l := Collection_find_by_organization org_uuid in for_each l Collection_delete.
