(* ===== verification/Signups.v ===== *)
(** * Who may have an account

    The rules of [server/src/config.rs] about addresses: the domains that may
    sign up, and the users who may create organizations. *)

From Stdlib Require Import Ascii.
From stdpp Require Import base strings numbers pretty gmap list.
From S2P Require Import Prelude Store Collections.

(** [str::split(',')] *)
Fixpoint split_comma (s : string) : list string :=
  match s with
  | EmptyString => [""]
  | String c s => if bool_decide (c = ","%char) then "" :: split_comma s
                  else match split_comma s with
                       | x :: l => String c x :: l
                       | [] => [String c ""]
                       end
  end.
(** [s.rsplitn(2, c)], when the separator occurs: the text after its last
    occurrence, and the text before. *)
Fixpoint rsplit_once (c : ascii) (s : string) : option (string * string) :=
  match s with
  | EmptyString => None
  | String c' s' =>
     match rsplit_once c s' with
     | Some (after, before) => Some (after, String c' before)
     | None => if bool_decide (c' = c) then Some (s', "") else None
     end
  end.
(** An element of a comma-separated list, without the blanks around it *)
Definition listed (x : string) (l : string) : bool :=
  existsb (λ y, bool_decide (str_trim (chars y) = chars x)) (split_comma l).

Definition is_email_domain_allowed (email : string) : M bool :=
  match rsplit_once "@"%char email with
  | None => mret false
  | Some (domain, local) =>
     if bool_decide (domain = "") || bool_decide (local = "") then mret false
     else
       let* email_domain := ask (λ e, str_to_lowercase e domain) in
       let* whitelist := conf signups_domains_whitelist in
       mret (bool_decide (whitelist = "") || listed email_domain whitelist)
  end.
(** The list overrides the setting. *)
Definition is_signup_allowed (email : string) : M bool :=
  let* whitelist := conf signups_domains_whitelist in
  if bool_decide (whitelist = "") then conf signups_allowed else is_email_domain_allowed email.
Definition is_org_creation_allowed (email : string) : M bool :=
  let* users := conf org_creation_users in
  if bool_decide (users = "") || bool_decide (users = "all") then mret true
  else if bool_decide (users = "none") then mret false
  else
    let* email := ask (λ e, str_to_lowercase e email) in
    mret (listed email users).

Lemma reads_is_email_domain_allowed email : reads (is_email_domain_allowed email).
Proof. unfold is_email_domain_allowed. destruct (rsplit_once _ _) as [[]|]; solve_reads. Qed.
#[export] Hint Resolve reads_is_email_domain_allowed : frame.
Lemma keeps_is_email_domain_allowed {X} (π : Db → X) email : keeps π (is_email_domain_allowed email).
Proof. apply keeps_of_reads. auto with frame. Qed.
#[export] Hint Resolve keeps_is_email_domain_allowed : frame.
Lemma reads_is_signup_allowed email : reads (is_signup_allowed email).
Proof. unfold is_signup_allowed. solve_reads. Qed.
Lemma reads_is_org_creation_allowed email : reads (is_org_creation_allowed email).
Proof. unfold is_org_creation_allowed. solve_reads. Qed.
#[export] Hint Resolve reads_is_signup_allowed reads_is_org_creation_allowed : frame.
