(* ===== verification/Folders.v ===== *)
(** * Folders, favourites, archive marks and attachments

    What a user keeps beside the ciphers: [server/src/db/models/folder.rs],
    [favorite.rs], [archive.rs] and [attachment.rs], the handlers of
    [server/src/api/core/folders.rs], and the download of attachments of
    [server/src/api/web.rs].  Folders, favourites and archive marks belong to one
    user each, also for a cipher that others share. *)

From stdpp Require Import base strings numbers pretty gmap list.
From S2P Require Import Prelude Store Queries Users Orgs AuthRequests TwoFactor.

(** ** folder.rs *)

Definition Folder_new (user_uuid name : string) : M Folder :=
  let* t := ask now in
  let* uuid := get_uuid in
  mret (mkFolder uuid t t user_uuid name).
Definition Folder_to_json (self : Folder) : M Json :=
  ask (λ e, JObj [("id", JStr (f_uuid self)); ("revisionDate", JStr (format_date e (f_updated_at self)));
                  ("name", JStr (f_name self)); ("object", JStr "folder")]).

Definition FolderCipher_save (cipher_uuid folder_uuid : string) : M unit :=
  exec (λ d, d <| folders_ciphers := {[(cipher_uuid, folder_uuid)]} ∪ folders_ciphers d |>).
Definition FolderCipher_delete (self : string * string) : M unit :=
  exec (λ d, d <| folders_ciphers := folders_ciphers d ∖ {[self]} |>).
Definition FolderCipher_delete_all_by_cipher (cipher_uuid : string) : M unit :=
  exec (λ d, d <| folders_ciphers := filter (λ fc, fc.1 ≠ cipher_uuid) (folders_ciphers d) |>).
Definition FolderCipher_delete_all_by_folder (folder_uuid : string) : M unit :=
  exec (λ d, d <| folders_ciphers := filter (λ fc, fc.2 ≠ folder_uuid) (folders_ciphers d) |>).
Definition FolderCipher_find_by_folder_and_cipher (folder_uuid cipher_uuid : string) : M (option (string * string)) :=
  query (λ d, if bool_decide ((cipher_uuid, folder_uuid) ∈ folders_ciphers d)
              then Some (cipher_uuid, folder_uuid) else None).
Definition FolderCipher_find_by_folder (folder_uuid : string) : M (list (string * string)) :=
  query (λ d, where_ (λ fc, bool_decide (fc.2 = folder_uuid)) (elements (folders_ciphers d))).
(** The pairs of a cipher and a folder of the user. *)
Definition folder_pairs (user_uuid : string) (d : Db) : list (string * string) :=
  fc ← elements (folders_ciphers d);
  f ← inner_join (rows (folders d)) (λ f, bool_decide (f_uuid f = fc.2));
  guard_rows (bool_decide (f_user_uuid f = user_uuid)) [fc].
Definition FolderCipher_find_by_user (user_uuid : string) : M (list (string * string)) := query (folder_pairs user_uuid).

Definition Folder_save (self : Folder) : M Folder :=
  do* User_update_uuid_revision (f_user_uuid self) in
  let* t := ask now in
  let self := self <| f_updated_at := t |> in
  do* exec (λ d, d <| folders := <[f_uuid self := self]> (folders d) |>) in
  mret self.
Definition Folder_delete (self : Folder) : M unit :=
  do* User_update_uuid_revision (f_user_uuid self) in
  do* FolderCipher_delete_all_by_folder (f_uuid self) in
  exec (λ d, d <| folders := delete (f_uuid self) (folders d) |>).
Definition Folder_find_by_uuid_and_user (uuid user_uuid : string) : M (option Folder) :=
  query (λ d, f ← folders d !! uuid; if bool_decide (f_user_uuid f = user_uuid) then Some f else None).
Definition Folder_find_by_user (user_uuid : string) : M (list Folder) :=
  query (λ d, load (λ f, bool_decide (f_user_uuid f = user_uuid)) (folders d)).
Definition Folder_delete_all_by_user (user_uuid : string) : M unit :=
  let* l := Folder_find_by_user user_uuid in for_each l Folder_delete.

(** ** favorite.rs *)

Definition Favorite_is_favorite (cipher_uuid user_uuid : string) : M bool :=
  query (λ d, bool_decide ((user_uuid, cipher_uuid) ∈ favorites d)).
Definition Favorite_set_favorite (favorite : bool) (cipher_uuid user_uuid : string) : M unit :=
  let* old := Favorite_is_favorite cipher_uuid user_uuid in
  match old, favorite with
  | false, true =>
     do* User_update_uuid_revision user_uuid in
     exec (λ d, d <| favorites := {[(user_uuid, cipher_uuid)]} ∪ favorites d |>)
  | true, false =>
     do* User_update_uuid_revision user_uuid in
     exec (λ d, d <| favorites := favorites d ∖ {[(user_uuid, cipher_uuid)]} |>)
  | _, _ => mret tt
  end.
Definition Favorite_delete_all_by_cipher (cipher_uuid : string) : M unit :=
  exec (λ d, d <| favorites := filter (λ uc, uc.2 ≠ cipher_uuid) (favorites d) |>).
Definition Favorite_delete_all_by_user (user_uuid : string) : M unit :=
  exec (λ d, d <| favorites := filter (λ uc, uc.1 ≠ user_uuid) (favorites d) |>).
Definition Favorite_get_all_cipher_uuid_by_user (user_uuid : string) : M (list string) :=
  query (λ d, snd <$> where_ (λ uc, bool_decide (uc.1 = user_uuid)) (elements (favorites d))).

(** ** archive.rs *)

Definition Archive_get_archived_at (cipher_uuid user_uuid : string) : M (option Z) :=
  query (λ d, archives d !! (user_uuid, cipher_uuid)).
Definition Archive_save (user_uuid cipher_uuid : string) (archived_at : Z) : M unit :=
  do* User_update_uuid_revision user_uuid in
  exec (λ d, d <| archives := <[(user_uuid, cipher_uuid) := archived_at]> (archives d) |>).
Definition Archive_delete_by_cipher (user_uuid cipher_uuid : string) : M unit :=
  do* User_update_uuid_revision user_uuid in
  exec (λ d, d <| archives := delete (user_uuid, cipher_uuid) (archives d) |>).
Definition Archive_find_by_user (user_uuid : string) : M (list (string * Z)) :=
  query (λ d, '((u, c), t) ← map_to_list (archives d); guard_rows (bool_decide (u = user_uuid)) [(c, t)]).

(** ** attachment.rs *)

(** [auth::FileDownloadClaims] *)
Record FileDownloadClaims := mkFileDownloadClaims {
  fd_nbf : Z; fd_exp : Z; fd_iss : string; fd_sub : string; fd_file_id : string }.

(** The token library, the server's issuer name, and the storage service:
    whether it is the file system, and its signed links. *)
Class FileLinks := {
  file_download_issuer : string;
  encode_file_jwt : FileDownloadClaims → option string;
  decode_file_download : Z → string → option FileDownloadClaims;
  attachments_on_fs : bool;
  presign_attachment : string * string → option string;
}.

Definition attachments_operator : M unit :=
  let* ok := ask storage_configured in
  ensure ok "OpenDAL".

Section links.
Context `{FL : FileLinks}.

Definition generate_file_download_claims (cipher_id file_id : string) : M FileDownloadClaims :=
  let* time_now := ask now in
  let* exp := mexpect (d ← try_seconds 300; checked_add_signed time_now d) in
  mret {| fd_nbf := timestamp time_now; fd_exp := timestamp exp; fd_iss := file_download_issuer;
          fd_sub := cipher_id; fd_file_id := file_id |}.

Definition Attachment_get_file_path (self : Attachment) : string * string := (at_cipher_uuid self, at_id self).
Definition Attachment_get_url (self : Attachment) (host : string) : M string :=
  do* attachments_operator in
  if attachments_on_fs then
    let* claims := generate_file_download_claims (at_cipher_uuid self) (at_id self) in
    let* token := some_or_err (encode_file_jwt claims) "JWT encoding failed" in
    mret (host +:+ "/attachments/" +:+ at_cipher_uuid self +:+ "/" +:+ at_id self +:+ "?token=" +:+ token)
  else some_or_err (presign_attachment (Attachment_get_file_path self)) "OpenDAL".
Definition Attachment_to_json (self : Attachment) (host : string) : M Json :=
  let* url := Attachment_get_url self host in
  ask (λ e, JObj [("id", JStr (at_id self)); ("url", JStr url); ("fileName", JStr (at_file_name self));
    ("size", JStr (pretty (at_file_size self))); ("sizeName", JStr (get_display_size e (at_file_size self)));
    ("key", json_opt JStr (at_akey self)); ("object", JStr "attachment")]).

(** web.rs: the file served, if any *)
Definition download_attachment (cipher_id file_id token : string) : M (option bytes) := λ e w,
  (Ok (match decode_file_download (now e) token with
       | Some claims => if bool_decide (fd_sub claims = cipher_id) && bool_decide (fd_file_id claims = file_id)
                        then attachment_files w !! (cipher_id, file_id) else None
       | None => None
       end), w).
End links.

Definition Attachment_save (self : Attachment) : M unit :=
  exec (λ d, d <| attachments := <[at_id self := self]> (attachments d) |>).

(** A missing file is not an error. *)
Definition delete_attachment_file (path : string * string) : M unit :=
  do* attachments_operator in
  λ e w, if storage_available e then (Ok tt, w <| attachment_files := delete path (attachment_files w) |>)
         else (Err (new_msg "OpenDAL"), w).
Definition save_attachment_file (path : string * string) (content : bytes) (overwrite : bool) : M unit :=
  do* attachments_operator in
  λ e w,
    if storage_available e && (overwrite || bool_decide (attachment_files w !! path = None))
    then (Ok tt, w <| attachment_files := <[path := content]> (attachment_files w) |>)
    else (Err (new_msg "OpenDAL"), w).

Definition Attachment_delete (self : Attachment) : M unit :=
  do* exec (λ d, d <| attachments := delete (at_id self) (attachments d) |>) in
  delete_attachment_file (Attachment_get_file_path self).
Definition Attachment_find_by_cipher (cipher_uuid : string) : M (list Attachment) :=
  query (λ d, load (λ a, bool_decide (at_cipher_uuid a = cipher_uuid)) (attachments d)).
Definition Attachment_delete_all_by_cipher (cipher_uuid : string) : M unit :=
  let* l := Attachment_find_by_cipher cipher_uuid in for_each l Attachment_delete.
Definition Attachment_find_by_id (id : string) : M (option Attachment) :=
  let* id := ask (λ e, str_to_lowercase e id) in
  query (λ d, attachments d !! id).

(** The attachments of ciphers with a property. *)
Definition attachments_where (p : Cipher → bool) (d : Db) : list Attachment :=
  a ← rows (attachments d);
  c ← left_join (rows (ciphers d)) (λ c, bool_decide (ci_uuid c = at_cipher_uuid a));
  guard_rows (from_option p false c) [a].
(** [diesel::dsl::sum] as a decimal number, then [to_i64] *)
Definition sum_to_i64 (l : list Z) : Z :=
  match l with
  | [] => 0
  | l => default (2 ^ 63 - 1) (to_i64 (foldr Z.add 0 l))
  end%Z.
Definition owned_by_user (user_uuid : string) (c : Cipher) : bool := null_eq (ci_user_uuid c) (Some user_uuid).
Definition owned_by_org (org_uuid : string) (c : Cipher) : bool := null_eq (ci_organization_uuid c) (Some org_uuid).
Definition Attachment_size_by_user (user_uuid : string) : M Z :=
  query (λ d, sum_to_i64 (at_file_size <$> attachments_where (owned_by_user user_uuid) d)).
Definition Attachment_count_by_user (user_uuid : string) : M nat :=
  query (λ d, length (attachments_where (owned_by_user user_uuid) d)).
Definition Attachment_size_by_org (org_uuid : string) : M Z :=
  query (λ d, sum_to_i64 (at_file_size <$> attachments_where (owned_by_org org_uuid) d)).
Definition Attachment_count_by_org (org_uuid : string) : M nat :=
  query (λ d, length (attachments_where (owned_by_org org_uuid) d)).
Definition Attachment_find_all_by_user_and_orgs (user_uuid : string) (org_uuids : list string) : M (list Attachment) :=
  query (attachments_where (λ c, owned_by_user user_uuid c ||
    existsb (λ org_uuid, owned_by_org org_uuid c) org_uuids)).

(** ** api/core/folders.rs *)

Record FolderData := mkFolderData { fo_name : string; fo_id : option string }.

Definition get_folders (headers : Headers) : M Json :=
  let* folders := Folder_find_by_user (u_uuid (h_user headers)) in
  let* folders_json := collect folders Folder_to_json in
  mret (json_list folders_json).
Definition get_folder (folder_id : string) (headers : Headers) : M Json :=
  let* found := Folder_find_by_uuid_and_user folder_id (u_uuid (h_user headers)) in
  let* folder := some_or_err found "Invalid folder" in
  Folder_to_json folder.
Definition post_folders (data : FolderData) (headers : Headers) : M Json :=
  let* folder := Folder_new (u_uuid (h_user headers)) (fo_name data) in
  let* folder := Folder_save folder in
  Folder_to_json folder.
Definition put_folder (folder_id : string) (data : FolderData) (headers : Headers) : M Json :=
  let* found := Folder_find_by_uuid_and_user folder_id (u_uuid (h_user headers)) in
  let* folder := some_or_err found "Invalid folder" in
  let* folder := Folder_save (folder <| f_name := fo_name data |>) in
  Folder_to_json folder.
Definition delete_folder (folder_id : string) (headers : Headers) : M unit :=
  let* found := Folder_find_by_uuid_and_user folder_id (u_uuid (h_user headers)) in
  let* folder := some_or_err found "Invalid folder" in
  Folder_delete folder.

(** A token library and a storage service that answer always. *)
Module ToyLinks.
#[export] Instance toy_links : FileLinks := {|
  file_download_issuer := "issuer"; encode_file_jwt := λ _, Some "token"; decode_file_download := λ _ _, None;
  attachments_on_fs := true; presign_attachment := λ _, None |}.
End ToyLinks.
