(* ===== verification/Ciphers.v ===== *)
(** * Ciphers: the items of a vault

    [server/src/db/models/cipher.rs] and [CipherSyncData] of
    [server/src/api/core/ciphers.rs].  A cipher belongs to a user or to an
    organization; the members of an organization reach its ciphers through
    collections.  The central function is [Cipher_get_access_restrictions], in
    its two forms: one that queries the database for one cipher, and one that
    reads the tables gathered for a synchronization. *)

From Stdlib Require Import Ascii.
From stdpp Require Import base strings numbers pretty gmap list.
From S2P Require Import Prelude Store JsonUtil Queries Users Orgs AuthRequests TwoFactor Collections Folders.

(** ** CipherSyncData *)

Inductive CipherSyncType := CST_User | CST_Organization.

Record CipherSyncData := mkCipherSyncData {
  cs_cipher_attachments : gmap string (list Attachment);
  cs_cipher_folders : gmap string string;
  cs_cipher_favorites : gset string;
  cs_cipher_collections : gmap string (list string);
  cs_cipher_archives : gmap string Z;
  cs_members : gmap string Membership;
  cs_user_collections : gmap string CollectionUser;
  cs_user_collections_groups : gmap string CollectionGroup;
  cs_user_group_full_access_for_organizations : gset string;
}.

(** [iter.collect::<HashMap<_, _>>()]: of equal keys the last one stays. *)
Definition collect_map {V} (l : list (string * V)) : gmap string V := foldl (λ m kv, <[kv.1 := kv.2]> m) ∅ l.
(** [for (k, v) in l { map.entry(k).or_default().push(v) }] *)
Definition group_by_key {V} (l : list (string * V)) : gmap string (list V) :=
  foldl (λ m kv, <[kv.1 := default [] (m !! kv.1) ++ [kv.2]]> m) ∅ l.
(** The rows of the user's groups for one collection, combined: the most
    permissive settings. *)
Definition combine_group_rows (existing cg : CollectionGroup) : CollectionGroup :=
  existing <| cg_read_only := cg_read_only existing && cg_read_only cg |>
           <| cg_hide_passwords := cg_hide_passwords existing && cg_hide_passwords cg |>
           <| cg_manage := cg_manage existing || cg_manage cg |>.
Definition combine_groups (l : list CollectionGroup) : gmap string CollectionGroup :=
  foldl (λ m cg, <[cg_collections_uuid cg :=
                     match m !! cg_collections_uuid cg with
                     | Some existing => combine_group_rows existing cg
                     | None => cg
                     end]> m) ∅ l.

(** [Cipher::get_collections_with_cipher_by_user]: the groups count even where
    they are disabled. *)
Definition collection_pairs (user_uuid : string) (d : Db) : list (string * string) :=
  remove_dups (
    cc ← elements (ciphers_collections d);
    c ← inner_join (rows (collections d)) (λ c, bool_decide (c_uuid c = cc.2));
    m ← inner_join (rows (users_organizations d)) (member_of_collection c user_uuid);
    cu ← left_join (rows (users_collections d))
           (λ cu, bool_decide (cu_collection_uuid cu = cc.2) && bool_decide (cu_user_uuid cu = user_uuid));
    '(gu, g) ← join_groups d (Some m);
    cg ← left_join (rows (collections_groups d))
           (λ cg, bool_decide (cg_collections_uuid cg = cc.2) && null_eq (Some (cg_groups_uuid cg)) (g_uuid <$> g));
    guard_rows (null_eq (cu_user_uuid <$> cu) (Some user_uuid) || m_access_all m || atype_le_admin (Some m) ||
                is_true (g_access_all <$> g) || is_not_null cg) [cc]).
Definition Cipher_get_collections_with_cipher_by_user (user_uuid : string) : M (list (string * string)) :=
  query (collection_pairs user_uuid).

Definition CipherSyncData_new (user_id : string) (sync_type : CipherSyncType) : M CipherSyncData :=
  let* (cipher_folders, cipher_favorites, cipher_archives) :=
    match sync_type with
    | CST_User =>
       let* fs := FolderCipher_find_by_user user_id in
       let* favs := Favorite_get_all_cipher_uuid_by_user user_id in
       let* archs := Archive_find_by_user user_id in
       mret (collect_map fs, list_to_set favs, collect_map archs)
    | CST_Organization => mret (∅, ∅, ∅)
    end in
  let* orgs := Membership_get_orgs_by_user user_id in
  let* atts := Attachment_find_all_by_user_and_orgs user_id orgs in
  let cipher_attachments := group_by_key ((λ a, (at_cipher_uuid a, a)) <$> atts) in
  let* user_cipher_collections := Cipher_get_collections_with_cipher_by_user user_id in
  let* confirmed := Membership_find_confirmed_by_user user_id in
  let* ucs := CollectionUser_find_by_user user_id in
  let* enabled := conf org_groups_enabled in
  let* user_collections_groups :=
    if enabled then let* l := CollectionGroup_find_by_user user_id in mret (combine_groups l) else mret ∅ in
  let* full_groups :=
    if enabled then let* l := Group_get_orgs_by_user_with_full_access user_id in mret (list_to_set l) else mret ∅ in
  mret {|
    cs_cipher_attachments := cipher_attachments;
    cs_cipher_folders := cipher_folders;
    cs_cipher_favorites := cipher_favorites;
    cs_cipher_collections := group_by_key user_cipher_collections;
    cs_cipher_archives := cipher_archives;
    cs_members := collect_map ((λ m, (m_org_uuid m, m)) <$> confirmed);
    cs_user_collections := collect_map ((λ uc, (cu_collection_uuid uc, uc)) <$> ucs);
    cs_user_collections_groups := user_collections_groups;
    cs_user_group_full_access_for_organizations := full_groups;
  |}.

(** ** Local methods *)

Definition Cipher_new (atype : Z) (name : string) : M Cipher :=
  let* t := ask now in
  let* uuid := get_uuid in
  mret {| ci_uuid := uuid; ci_created_at := t; ci_updated_at := t; ci_user_uuid := None; ci_organization_uuid := None;
          ci_key := None; ci_atype := atype; ci_name := name; ci_notes := None; ci_fields := None; ci_data := "";
          ci_password_history := None; ci_deleted_at := None; ci_reprompt := None |}.

(** [self.user_uuid.as_ref() == Some(user_uuid)] *)
Definition Cipher_is_owned_by_user (self : Cipher) (user_uuid : string) : bool := owned_by_user user_uuid self.

(** ** Access *)

Definition Cipher_is_in_full_access_org (self : Cipher) (user_uuid : string) (sync : option CipherSyncData) : M bool :=
  match ci_organization_uuid self with
  | Some org_uuid =>
     match sync with
     | Some sync => mret (from_option Membership_has_full_access false (cs_members sync !! org_uuid))
     | None =>
        let* m := Membership_find_confirmed_by_user_and_org user_uuid org_uuid in
        mret (from_option Membership_has_full_access false m)
     end
  | None => mret false
  end.
Definition Cipher_is_in_full_access_group (self : Cipher) (user_uuid : string) (sync : option CipherSyncData) : M bool :=
  let* enabled := conf org_groups_enabled in
  if negb enabled then mret false
  else match ci_organization_uuid self with
       | Some org_uuid =>
          match sync with
          | Some sync => mret (bool_decide (org_uuid ∈ cs_user_group_full_access_for_organizations sync))
          | None => Group_is_in_full_access_group user_uuid org_uuid
          end
       | None => mret false
       end.

(** Read-only, passwords hidden, may manage. *)
Definition Flags : Type := bool * bool * bool.
Definition cu_flags (cu : CollectionUser) : Flags := (cu_read_only cu, cu_hide_passwords cu, cu_manage cu).
Definition cg_flags (cg : CollectionGroup) : Flags := (cg_read_only cg, cg_hide_passwords cg, cg_manage cg).

Definition Cipher_get_user_collections_access_flags (self : Cipher) (user_uuid : string) : M (list Flags) :=
  query (λ d,
    c ← where_ (λ c, bool_decide (ci_uuid c = ci_uuid self)) (rows (ciphers d));
    cc ← inner_join (elements (ciphers_collections d)) (λ cc, bool_decide (ci_uuid c = cc.1));
    cu ← inner_join (rows (users_collections d))
           (λ cu, bool_decide (cu_collection_uuid cu = cc.2) && bool_decide (cu_user_uuid cu = user_uuid));
    [cu_flags cu]).
Definition Cipher_get_group_collections_access_flags (self : Cipher) (user_uuid : string) : M (list Flags) :=
  let* enabled := conf org_groups_enabled in
  if negb enabled then mret []
  else query (λ d,
    c ← where_ (λ c, bool_decide (ci_uuid c = ci_uuid self)) (rows (ciphers d));
    cc ← inner_join (elements (ciphers_collections d)) (λ cc, bool_decide (ci_uuid c = cc.1));
    cg ← inner_join (rows (collections_groups d)) (λ cg, bool_decide (cg_collections_uuid cg = cc.2));
    gu ← inner_join (elements (groups_users d)) (λ gu, bool_decide (gu.1 = cg_groups_uuid cg));
    m ← inner_join (rows (users_organizations d)) (λ m, bool_decide (m_uuid m = gu.2));
    g ← inner_join (rows (groups d))
          (λ g, bool_decide (g_uuid g = cg_groups_uuid cg) && bool_decide (g_organizations_uuid g = m_org_uuid m));
    guard_rows (is_user user_uuid m) [cg_flags cg]).

(** The rows of the tables gathered for a synchronization. *)
Definition sync_rows (sync : CipherSyncData) (uuid : string) : list Flags :=
  omap (λ collection,
    match cs_user_collections sync !! collection with
    | Some cu => Some (cu_flags cu)
    | None => cg_flags <$> cs_user_collections_groups sync !! collection
    end) (default [] (cs_cipher_collections sync !! uuid)).
(** The loop over the rows. *)
Definition combine_flags (rows : list Flags) : Flags :=
  foldl (λ '(read_only, hide_passwords, manage) '(ro, hp, mn), (read_only && ro, hide_passwords && hp, manage || mn))
    (true, true, false) rows.

Definition Cipher_get_access_restrictions (self : Cipher) (user_uuid : string) (sync : option CipherSyncData)
    : M (option Flags) :=
  let* full :=
    if Cipher_is_owned_by_user self user_uuid then mret true
    else
      let* org := Cipher_is_in_full_access_org self user_uuid sync in
      if org then mret true else Cipher_is_in_full_access_group self user_uuid sync in
  if full then mret (Some (false, false, true))
  else
    let* rows :=
      match sync with
      | Some sync => mret (sync_rows sync (ci_uuid self))
      | None =>
         let* user_permissions := Cipher_get_user_collections_access_flags self user_uuid in
         match user_permissions with
         | [] => Cipher_get_group_collections_access_flags self user_uuid
         | _ => mret user_permissions
         end
      end in
    mret (match rows with [] => None | _ => Some (combine_flags rows) end).

Definition Cipher_is_write_accessible_to_user (self : Cipher) (user_uuid : string) : M bool :=
  let* r := Cipher_get_access_restrictions self user_uuid None in
  mret (match r with Some (read_only, _, manage) => negb read_only || manage | None => false end).
Definition Cipher_is_in_editable_collection_by_user (self : Cipher) (user_uuid : string) : M bool :=
  let* r := Cipher_get_access_restrictions self user_uuid None in
  mret (match r with
        | Some (read_only, hide_passwords, manage) => negb read_only && negb hide_passwords || manage
        | None => false
        end).
Definition Cipher_is_accessible_to_user (self : Cipher) (user_uuid : string) : M bool :=
  let* r := Cipher_get_access_restrictions self user_uuid None in mret (is_not_null r).

(** ** The user's own marks *)

Definition Cipher_is_favorite (self : Cipher) (user_uuid : string) : M bool :=
  Favorite_is_favorite (ci_uuid self) user_uuid.
Definition Cipher_set_favorite (self : Cipher) (favorite : option bool) (user_uuid : string) : M unit :=
  match favorite with
  | None => mret tt
  | Some status => Favorite_set_favorite status (ci_uuid self) user_uuid
  end.
Definition Cipher_get_archived_at (self : Cipher) (user_uuid : string) : M (option Z) :=
  Archive_get_archived_at (ci_uuid self) user_uuid.
Definition Cipher_set_archived_at (self : Cipher) (archived_at : Z) (user_uuid : string) : M unit :=
  Archive_save user_uuid (ci_uuid self) archived_at.
Definition Cipher_unarchive (self : Cipher) (user_uuid : string) : M unit :=
  Archive_delete_by_cipher user_uuid (ci_uuid self).
Definition folder_of (cipher_uuid user_uuid : string) (d : Db) : option string :=
  head (snd <$> where_ (λ fc, bool_decide (fc.1 = cipher_uuid)) (folder_pairs user_uuid d)).
Definition Cipher_get_folder_uuid (self : Cipher) (user_uuid : string) : M (option string) :=
  query (folder_of (ci_uuid self) user_uuid).

(** ** Queries *)

Definition Cipher_find_by_uuid (uuid : string) : M (option Cipher) := query (λ d, ciphers d !! uuid).
Definition Cipher_find_by_uuid_and_org (cipher_uuid org_uuid : string) : M (option Cipher) :=
  query (λ d, c ← ciphers d !! cipher_uuid; if owned_by_org org_uuid c then Some c else None).

(** The columns joined to a cipher; without groups the group tables are not
    joined. *)
Definition cipher_groups (d : Db) (with_groups : bool) (cc : option (string * string)) (m : option Membership)
    : list (option Group * option CollectionGroup) :=
  if with_groups then
    '(gu, g) ← join_groups d m;
    cg ← left_join (rows (collections_groups d))
           (λ cg, null_eq (Some (cg_collections_uuid cg)) (snd <$> cc) && null_eq (Some (cg_groups_uuid cg)) (g_uuid <$> g));
    [(g, cg)]
  else [(None, None)].

(** [find_by_user]; [or_filter] also covers the filters before it. *)
Definition ciphers_of_user (with_groups : bool) (user_uuid : string) (visible_only : bool) (cipher_uuids : list string)
    (d : Db) : list Cipher :=
  remove_dups (
    c ← rows (ciphers d);
    cc ← left_join (elements (ciphers_collections d)) (λ cc, bool_decide (ci_uuid c = cc.1));
    m ← left_join (rows (users_organizations d))
          (λ m, null_eq (ci_organization_uuid c) (Some (m_org_uuid m)) && is_user user_uuid m && is_status MS_Confirmed m);
    cu ← left_join (rows (users_collections d))
           (λ cu, null_eq (snd <$> cc) (Some (cu_collection_uuid cu)) && null_eq (m_user_uuid <$> m) (Some (cu_user_uuid cu)));
    '(g, cg) ← cipher_groups d with_groups cc m;
    guard_rows
      ((owned_by_user user_uuid c || is_true (m_access_all <$> m) ||
        null_eq (cu_user_uuid <$> cu) (Some user_uuid) || is_true (g_access_all <$> g) || is_not_null cg ||
        negb visible_only && atype_le_admin m) &&
       (bool_decide (cipher_uuids = []) || bool_decide (ci_uuid c ∈ cipher_uuids))) [c]).
Definition Cipher_find_by_user (user_uuid : string) (visible_only : bool) (cipher_uuids : list string) : M (list Cipher) :=
  let* g := conf org_groups_enabled in
  query (ciphers_of_user g user_uuid visible_only cipher_uuids).
Definition Cipher_find_by_user_visible (user_uuid : string) : M (list Cipher) := Cipher_find_by_user user_uuid true [].
Definition Cipher_find_by_user_and_ciphers (user_uuid : string) (cipher_uuids : list string) : M (list Cipher) :=
  Cipher_find_by_user user_uuid true cipher_uuids.
Definition Cipher_find_by_user_and_cipher (user_uuid cipher_uuid : string) : M (option Cipher) :=
  let* l := Cipher_find_by_user user_uuid true [cipher_uuid] in mret (last l).

Definition Cipher_find_owned_by_user (user_uuid : string) : M (list Cipher) :=
  query (λ d, load (λ c, owned_by_user user_uuid c && negb (is_not_null (ci_organization_uuid c))) (ciphers d)).
Definition Cipher_count_owned_by_user (user_uuid : string) : M nat :=
  query (λ d, length (load (owned_by_user user_uuid) (ciphers d))).
Definition Cipher_find_by_org (org_uuid : string) : M (list Cipher) :=
  query (λ d, load (owned_by_org org_uuid) (ciphers d)).
Definition Cipher_count_by_org (org_uuid : string) : M nat :=
  query (λ d, length (load (owned_by_org org_uuid) (ciphers d))).
Definition Cipher_find_by_folder (folder_uuid : string) : M (list Cipher) :=
  query (λ d,
    fc ← elements (folders_ciphers d);
    c ← inner_join (rows (ciphers d)) (λ c, bool_decide (ci_uuid c = fc.1));
    guard_rows (bool_decide (fc.2 = folder_uuid)) [c]).
Definition Cipher_find_deleted_before (dt : Z) : M (list Cipher) :=
  query (λ d, load (λ c, from_option (λ t, (t <? dt)%Z) false (ci_deleted_at c)) (ciphers d)).

(** [get_collections] and [get_admin_collections] *)
Definition collections_of_cipher (with_groups : bool) (self : Cipher) (user_uuid : string) (admin : bool) (d : Db)
    : list string :=
  cc ← where_ (λ cc, bool_decide (cc.1 = ci_uuid self)) (elements (ciphers_collections d));
  c ← inner_join (rows (collections d)) (λ c, bool_decide (c_uuid c = cc.2));
  m ← (if with_groups then left_join (rows (users_organizations d)) (member_of_collection c user_uuid)
       else Some <$> inner_join (rows (users_organizations d)) (member_of_collection c user_uuid));
  cu ← left_join (rows (users_collections d))
         (λ cu, bool_decide (cu_collection_uuid cu = cc.2) && bool_decide (cu_user_uuid cu = user_uuid));
  '(g, cg) ← cipher_groups d with_groups (Some cc) m;
  guard_rows
    (is_true (m_access_all <$> m) ||
     null_eq (cu_user_uuid <$> cu) (Some user_uuid) && is_false (cu_read_only <$> cu) ||
     is_true (g_access_all <$> g) || is_not_null cg && is_false (cg_read_only <$> cg) ||
     admin && atype_le_admin m) [cc.2].
Definition Cipher_get_collections (self : Cipher) (user_uuid : string) : M (list string) :=
  let* g := conf org_groups_enabled in query (collections_of_cipher g self user_uuid false).
Definition Cipher_get_admin_collections (self : Cipher) (user_uuid : string) : M (list string) :=
  let* g := conf org_groups_enabled in query (collections_of_cipher g self user_uuid true).

(** ** Writing *)

Definition update_revisions (uuids : list string) : M unit := for_each uuids User_update_uuid_revision.
Definition Cipher_update_users_revision (self : Cipher) : M (list string) :=
  match ci_user_uuid self with
  | Some user_uuid => do* User_update_uuid_revision user_uuid in mret [user_uuid]
  | None =>
     match ci_organization_uuid self with
     | Some org_uuid =>
        let* collection_users := Membership_find_by_cipher_and_org (ci_uuid self) org_uuid in
        let* enabled := conf org_groups_enabled in
        let* group_users := if enabled then Membership_find_by_cipher_and_org_with_group (ci_uuid self) org_uuid
                            else mret [] in
        let user_uuids := m_user_uuid <$> collection_users ++ group_users in
        do* update_revisions user_uuids in
        mret user_uuids
     | None => mret []
     end
  end.

(** [ON DELETE CASCADE]: without its cipher or its user an archive mark goes. *)
Definition cascade_archives (p : string * string → Prop) `{∀ k, Decision (p k)} (d : Db) : Db :=
  d <| archives := filter (λ '(k, _), ¬ p k) (archives d) |>.

Definition save_cipher_row (replaces : bool) (self : Cipher) (d : Db) : Db :=
  let d := if replaces && bool_decide (is_Some (ciphers d !! ci_uuid self))
           then cascade_archives (λ k, k.2 = ci_uuid self) d else d in
  d <| ciphers := <[ci_uuid self := self]> (ciphers d) |>.
Definition Cipher_save (self : Cipher) : M Cipher :=
  let* _ := Cipher_update_users_revision self in
  let* t := ask now in
  let self := self <| ci_updated_at := t |> in
  let* replaces := ask save_replaces_row in
  do* exec (λ d, save_cipher_row (replaces d (ci_uuid self)) self d) in
  mret self.

Definition Cipher_delete (self : Cipher) : M unit :=
  let* _ := Cipher_update_users_revision self in
  do* FolderCipher_delete_all_by_cipher (ci_uuid self) in
  do* CollectionCipher_delete_all_by_cipher (ci_uuid self) in
  do* Attachment_delete_all_by_cipher (ci_uuid self) in
  do* Favorite_delete_all_by_cipher (ci_uuid self) in
  exec (λ d, (cascade_archives (λ k, k.2 = ci_uuid self) d) <| ciphers := delete (ci_uuid self) (ciphers d) |>).
Definition Cipher_delete_all_by_organization (org_uuid : string) : M unit :=
  let* l := Cipher_find_by_org org_uuid in for_each l Cipher_delete.
Definition Cipher_delete_all_by_user (user_uuid : string) : M unit :=
  let* l := Cipher_find_owned_by_user user_uuid in for_each l Cipher_delete.

Definition Cipher_purge_trash : M unit :=
  let* auto_delete_days := conf trash_auto_delete_days in
  match auto_delete_days with
  | Some n =>
     let* t := ask now in
     let* delta := mexpect (try_days n) in
     let* dt := mexpect (checked_add_signed t (- delta)) in
     let* l := Cipher_find_deleted_before dt in
     for_each l (λ cipher, mignore (Cipher_delete cipher))
  | None => mret tt
  end.

Definition Cipher_move_to_folder (self : Cipher) (folder_uuid : option string) (user_uuid : string) : M unit :=
  do* User_update_uuid_revision user_uuid in
  let* old := Cipher_get_folder_uuid self user_uuid in
  match old, folder_uuid with
  | None, None => mret tt
  | None, Some new_folder => FolderCipher_save (ci_uuid self) new_folder
  | Some old_folder, None =>
     let* found := FolderCipher_find_by_folder_and_cipher old_folder (ci_uuid self) in
     match found with
     | Some fc => FolderCipher_delete fc
     | None => err "Couldn't move from previous folder"
     end
  | Some old_folder, Some new_folder =>
     if bool_decide (old_folder = new_folder) then mret tt
     else
       let* found := FolderCipher_find_by_folder_and_cipher old_folder (ci_uuid self) in
       do* match found with Some fc => FolderCipher_delete fc | None => mret tt end in
       FolderCipher_save (ci_uuid self) new_folder
  end.

(** ** The document sent to clients *)

(** [s.parse::<u8>()] *)
Definition parse_u8 (s : string) : option Z :=
  let digits := match chars s with 43%Z :: (_ :: _) as t => tail t | t => t end in
  match digits with
  | [] => None
  | _ => n ← parse_digits 0 digits; if (n <? 256)%Z then Some n else None
  end.
Definition EPOCH : string := "1970-01-01T00:00:00.000000Z".
Definition validate_and_format_date (e : Env) (dt : string) : string := default EPOCH (reformat_rfc3339 e dt).

(** The type of a custom field is a number; the fallback is the hidden type. *)
Definition fix_field_type (f : Json) : option Json :=
  match json_get "type" f with
  | Some (JNum _) => Some f
  | Some (JStr t) => json_index_set "type" (JNum (default 1%Z (parse_u8 t))) f
  | _ => json_index_set "type" (JNum 1) f
  end.
Definition fix_history_date (e : Env) (d : Json) : option Json :=
  let lud := match json_get "lastUsedDate" d with
             | Some (JStr l) => validate_and_format_date e l
             | _ => EPOCH
             end in
  json_index_set "lastUsedDate" (JStr lud) d.
Definition fields_json (e : Env) (self : Cipher) : option (list Json) :=
  mapM fix_field_type (default [] (ci_fields self ≫= lowercase_list e)).
Definition password_history_json (e : Env) (self : Cipher) : option (list Json) :=
  mapM (fix_history_date e)
    (filter (λ d, from_option json_is_string false (json_get "password" d) = true)
      (default [] (ci_password_history self ≫= lowercase_list e))).

(** The match rule of a URI is a number or null. *)
Definition fix_uri (uri : Json) : option Json :=
  match json_index "match" uri with
  | JStr s => json_index_set "match" (json_opt JNum (parse_u8 s)) uri
  | _ => Some uri
  end.
Definition login_uris (t : Json) : option Json :=
  t ← json_index_set "uri" JNull t;
  t ← json_index_mut "uris" t;
  match json_index "uris" t with
  | JArr ((_ :: _) as uris) =>
     uris ← mapM fix_uri uris;
     t ← json_index_set "uris" (JArr uris) t;
     json_index_set "uri" (json_index "uri" (default JNull (head uris))) t
  | _ => Some t
  end.
Definition login_data (e : Env) (t : Json) : option Json :=
  t ← login_uris t;
  match json_index "passwordRevisionDate" t with
  | JStr pw => json_index_set "passwordRevisionDate" (JStr (validate_and_format_date e pw)) t
  | _ => Some t
  end.
Definition note_data (t : Json) : Json :=
  match t with
  | JObj fields => match json_field "type" fields with Some (JNum _) => t | _ => JObj [("type", JNum 0)] end
  | _ => JObj [("type", JNum 0)]
  end.
Definition nonempty_str (j : Json) : bool :=
  match j with JStr s => negb (bool_decide (s = "")) | _ => false end.
Definition ssh_data (t : Json) : Json :=
  if nonempty_str (json_index "keyFingerprint" t) && nonempty_str (json_index "privateKey" t) &&
     nonempty_str (json_index "publicKey" t) then t else JNull.
Definition type_data_json (e : Env) (self : Cipher) : option Json :=
  let t := match lowercase_data e (ci_data self) with JObj fields => JObj fields | _ => JObj [] end in
  if (ci_atype self =? 1)%Z then login_data e t
  else if (ci_atype self =? 2)%Z then Some (note_data t)
  else if (ci_atype self =? 5)%Z then Some (ssh_data t)
  else Some t.

Definition type_key (atype : Z) : option string :=
  match atype with
  | 1 => Some "login"
  | 2 => Some "secureNote"
  | 3 => Some "card"
  | 4 => Some "identity"
  | 5 => Some "sshKey"
  | _ => None
  end%Z.
Definition is_reprompt (r : Z) : bool := ((r =? 0) || (r =? 1))%Z.
Definition opt_filter {A} (p : A → bool) (o : option A) : option A := a ← o; if p a then Some a else None.

(** [data_json]: the type's data with the keys every type has *)
Definition data_json (self : Cipher) (fields history : list Json) (type_data : Json) : option Json :=
  t ← json_index_set "fields" (JArr fields) type_data;
  t ← json_index_set "name" (JStr (ci_name self)) t;
  t ← json_index_set "notes" (json_opt JStr (ci_notes self)) t;
  json_index_set "passwordHistory" (JArr history) t.

Definition cipher_fields (e : Env) (self : Cipher) (attachments_json : Json) (fields history : list Json)
    (data : Json) (collection_ids : list string) : list (string * Json) :=
  [("object", JStr "cipherDetails"); ("id", JStr (ci_uuid self)); ("type", JNum (ci_atype self));
   ("creationDate", JStr (format_date e (ci_created_at self)));
   ("revisionDate", JStr (format_date e (ci_updated_at self)));
   ("deletedDate", json_opt (λ d, JStr (format_date e d)) (ci_deleted_at self));
   ("reprompt", JNum (default 0%Z (opt_filter is_reprompt (ci_reprompt self))));
   ("organizationId", json_opt JStr (ci_organization_uuid self)); ("key", json_opt JStr (ci_key self));
   ("attachments", attachments_json); ("organizationUseTotp", JBool true);
   ("collectionIds", JArr (JStr <$> collection_ids));
   ("name", JStr (ci_name self)); ("notes", json_opt JStr (ci_notes self)); ("fields", JArr fields);
   ("data", data); ("passwordHistory", JArr history);
   ("login", JNull); ("secureNote", JNull); ("card", JNull); ("identity", JNull); ("sshKey", JNull)].

(** The part for the user: [folderId] to [permissions]. *)
Definition user_fields (e : Env) (folder : option string) (favorite : bool) (archived : option Z)
    (read_only hide_passwords : bool) : list (string * Json) :=
  [("folderId", json_opt JStr folder); ("favorite", JBool favorite);
   ("archivedDate", json_opt (λ d, JStr (format_date e d)) archived);
   ("edit", JBool (negb read_only)); ("viewPassword", JBool (negb hide_passwords));
   ("permissions", JObj [("delete", JBool (negb read_only)); ("restore", JBool (negb read_only))])].

Section documents.
Context `{FL : FileLinks}.

Definition Cipher_to_json (self : Cipher) (host user_uuid : string) (sync : option CipherSyncData)
    (sync_type : CipherSyncType) : M Json :=
  let* atts := match sync with
               | Some sync => mret (default [] (cs_cipher_attachments sync !! ci_uuid self))
               | None => Attachment_find_by_cipher (ci_uuid self)
               end in
  let* attachments_json :=
    match atts with
    | [] => mret JNull
    | _ => let* l := collect atts (λ a, Attachment_to_json a host) in mret (JArr l)
    end in
  let* (read_only, hide_passwords) :=
    match sync_type with
    | CST_User =>
       let* r := Cipher_get_access_restrictions self user_uuid sync in
       mret (match r with Some (ro, hp, _) => (ro, hp) | None => (true, true) end)
    | CST_Organization => mret (false, false)
    end in
  let* e := ask (λ e, e) in
  let* fields := mexpect (fields_json e self) in
  let* history := mexpect (password_history_json e self) in
  let* type_data := mexpect (type_data_json e self) in
  let* data := mexpect (data_json self fields history type_data) in
  let* collection_ids := match sync with
                         | Some sync => mret (default [] (cs_cipher_collections sync !! ci_uuid self))
                         | None => Cipher_get_admin_collections self user_uuid
                         end in
  let common := cipher_fields e self attachments_json fields history data collection_ids in
  let* all :=
    match sync_type with
    | CST_User =>
       let* folder := match sync with
                      | Some sync => mret (cs_cipher_folders sync !! ci_uuid self)
                      | None => Cipher_get_folder_uuid self user_uuid
                      end in
       let* favorite := match sync with
                        | Some sync => mret (bool_decide (ci_uuid self ∈ cs_cipher_favorites sync))
                        | None => Cipher_is_favorite self user_uuid
                        end in
       let* archived := match sync with
                        | Some sync => mret (cs_cipher_archives sync !! ci_uuid self)
                        | None => Cipher_get_archived_at self user_uuid
                        end in
       mret (common ++ user_fields e folder favorite archived read_only hide_passwords)
    | CST_Organization => mret common
    end in
  let* key := some_or_err (type_key (ci_atype self))
                ("Cipher " +:+ ci_uuid self +:+ " has an invalid type " +:+ pretty (ci_atype self)) in
  mret (JObj (json_insert key type_data all)).
End documents.

(** ** Computing access and rendering only read *)

Lemma reads_access c v s : reads (Cipher_get_access_restrictions c v s).
Proof.
  unfold Cipher_get_access_restrictions, Cipher_is_in_full_access_org, Cipher_is_in_full_access_group,
    Cipher_get_group_collections_access_flags.
  solve_reads; repeat case_match; solve_reads.
Qed.
#[export] Hint Resolve reads_access : frame.
Lemma reads_CipherSyncData v t : reads (CipherSyncData_new v t).
Proof. unfold CipherSyncData_new. destruct t; solve_reads; case_match; solve_reads; case_match; solve_reads. Qed.
Section reading.
Context `{FL : FileLinks}.
Lemma reads_Attachment_to_json a host : reads (Attachment_to_json a host).
Proof. unfold Attachment_to_json, Attachment_get_url, attachments_operator, generate_file_download_claims. solve_reads. Qed.
#[local] Hint Resolve reads_Attachment_to_json : frame.
Lemma reads_Cipher_to_json c host v s t : reads (Cipher_to_json c host v s t).
Proof.
  unfold Cipher_to_json, Cipher_get_admin_collections. solve_reads; repeat case_match; solve_reads; auto with frame.
Qed.
End reading.
#[export] Hint Resolve reads_CipherSyncData reads_Attachment_to_json reads_Cipher_to_json : frame.
