(* ===== verification/Vault.v ===== *)
(** * The vault: handlers for ciphers

    [server/src/api/core/ciphers.rs]: creating, updating, importing, sharing,
    moving, archiving, deleting and restoring ciphers, their collections and
    their attachments.  Each handler first decides whether the user may do it,
    with [Cipher_get_access_restrictions] or a query of what is visible; the
    theorems are in [VaultAccess] and [VaultSafety]. *)

From Stdlib Require Import Ascii.
From stdpp Require Import base strings numbers pretty gmap list.
From S2P Require Import Prelude Store JsonUtil Queries Users Orgs AuthRequests TwoFactor Collections Folders Ciphers.

(** ** Requests *)

(** [api::UpdateType], as far as ciphers go *)
Inductive CipherUpdateType := SyncCipherUpdate | SyncCipherCreate | SyncLoginDelete | UpdateNone.
#[export] Instance CipherUpdateType_eq_dec : EqDecision CipherUpdateType.
Proof. solve_decision. Defined.

Record Attachments2Data := mkAttachments2Data { a2_file_name : string; a2_key : string }.
Record CipherData := mkCipherData {
  cp_id : option string;
  cp_folder_id : option string;
  cp_organization_id : option string;
  cp_key : option string;
  cp_type : Z;
  cp_name : string;
  cp_notes : option string;
  cp_fields : option Json;
  cp_login : option Json;
  cp_secure_note : option Json;
  cp_card : option Json;
  cp_identity : option Json;
  cp_ssh_key : option Json;
  cp_favorite : option bool;
  cp_reprompt : option Z;
  cp_password_history : option Json;
  cp_attachments2 : option (list (string * Attachments2Data));  (* a map, in some order *)
  cp_last_known_revision_date : option string;
  cp_archived_date : option string;
}.
#[export] Instance eta_CipherData : Eta CipherData := λ r,
  mkCipherData (cp_id r) (cp_folder_id r) (cp_organization_id r) (cp_key r) (cp_type r) (cp_name r) (cp_notes r)
    (cp_fields r) (cp_login r) (cp_secure_note r) (cp_card r) (cp_identity r) (cp_ssh_key r) (cp_favorite r)
    (cp_reprompt r) (cp_password_history r) (cp_attachments2 r) (cp_last_known_revision_date r) (cp_archived_date r).
Record PartialCipherData := mkPartialCipherData { pc_folder_id : option string; pc_favorite : bool }.
Record ShareCipherData := mkShareCipherData { sc_cipher : CipherData; sc_collection_ids : list string }.
Record ShareSelectedCipherData := mkShareSelectedCipherData {
  ss_ciphers : list CipherData; ss_collection_ids : list string }.
Record MoveCipherData := mkMoveCipherData { mc_folder_id : option string; mc_ids : list string }.
Record RelationsData := mkRelationsData { rd_key : nat; rd_value : nat }.
Record ImportData := mkImportData {
  im_ciphers : list CipherData; im_folders : list FolderData; im_folder_relationships : list RelationsData }.

(** ** cipher.rs: validation of an import *)

Definition null_in_history (h : option Json) : bool :=
  match h with
  | Some (JArr l) =>
     existsb (λ pwh, match pwh with
                     | JObj pwo => match json_field "password" pwo with Some p => negb (json_is_string p) | None => false end
                     | _ => false
                     end) l
  | _ => false
  end.
Definition note_too_long (max : Z) (notes : option string) : bool :=
  from_option (λ note, (max <? Z.of_nat (String.length note))%Z) false notes.
Definition note_size_msg (max : Z) : string :=
  "The field Notes exceeds the maximum encrypted value length of " +:+ pretty max +:+ " characters.".
(** Both errors of a cipher have the same key, and the second overwrites the first. *)
Definition validation_errors (max : Z) (index : nat) (cipher : CipherData) (errors : list (string * Json))
    : list (string * Json) :=
  let key := "Ciphers[" +:+ pretty index +:+ "].Notes" in
  let errors := if note_too_long max (cp_notes cipher)
                then json_insert key (JArr [JStr (note_size_msg max)]) errors else errors in
  if null_in_history (cp_password_history cipher)
  then json_insert key (JArr [JStr "The password history contains a `null` value. Only strings are allowed."]) errors
  else errors.
Fixpoint validate_from (max : Z) (index : nat) (l : list CipherData) (errors : list (string * Json))
    : list (string * Json) :=
  match l with
  | [] => errors
  | cipher :: l => validate_from max (S index) l (validation_errors max index cipher errors)
  end.
Definition Cipher_validate_cipher_data (cipher_data : list CipherData) : M unit :=
  let* max := conf max_note_size in
  match validate_from max 0 cipher_data [] with
  | [] => mret tt
  | errors => err_json (JObj [("message", JStr "The model state is invalid."); ("validationErrors", JObj errors);
                              ("object", JStr "error")]) "Import validation errors"
  end.

(** ** Updating a cipher *)

Definition purge_trashed_ciphers : M unit := Cipher_purge_trash.

Definition enforce_personal_ownership_policy (data : option CipherData) (headers : Headers) : M unit :=
  if bool_decide (data ≫= cp_organization_id = None) then
    let* applicable := OrgPolicy_is_applicable_to_user (u_uuid (h_user headers)) PersonalOwnership None in
    ensure (negb applicable)
      "Due to an Enterprise Policy, you are restricted from saving items to your personal vault."
  else mret tt.

(** [f.as_object_mut().unwrap().remove("response")]: panics on a value that is
    not an object. *)
Definition remove_response_key (j : Json) : option Json :=
  match j with JObj fields => Some (JObj (json_remove "response" fields)) | _ => None end.
Definition clean_cipher_data (j : Json) : option Json :=
  match j with
  | JArr l => JArr <$> mapM remove_response_key l
  | _ => Some j
  end.
Definition clean_type_data (data : Json) : option Json :=
  data ← remove_response_key data;
  match json_index "uris" data with
  | JArr l => uris ← clean_cipher_data (JArr l); json_index_set "uris" uris data
  | _ => Some data
  end.

(** A client whose copy is older than the cipher by more than a second may not
    update it; a date that cannot be parsed is ignored. *)
Definition check_stale (cipher : Cipher) (data : CipherData) (ut : CipherUpdateType) : M unit :=
  if bool_decide (ut = UpdateNone) then mret tt
  else match cp_last_known_revision_date data with
       | Some dt =>
          let* parsed := ask (λ e, parse_iso8601 e dt) in
          match parsed with
          | Some dt => ensure (negb (1 <? num_seconds (ci_updated_at cipher - dt))%Z)
              "The client copy of this cipher is out of date. Resync the client and try again."
          | None => mret tt
          end
       | None => mret tt
       end.

Definition check_note (notes : option string) : M unit :=
  let* max := conf max_note_size in
  ensure (negb (note_too_long max notes)) (note_size_msg max).

(** The owner after the update. *)
Definition assign_owner (cipher : Cipher) (data : CipherData) (headers : Headers) (shared : bool) : M Cipher :=
  match cp_organization_id data with
  | Some org_id =>
     let* found := Membership_find_confirmed_by_user_and_org (u_uuid (h_user headers)) org_id in
     let* member := some_or_err found "You don't have permission to add item to organization" in
     let* allowed := if shared || Membership_has_full_access member then mret true
                     else Cipher_is_write_accessible_to_user cipher (u_uuid (h_user headers)) in
     do* ensure allowed "You don't have permission to add cipher directly to organization" in
     mret (cipher <| ci_organization_uuid := Some org_id |> <| ci_user_uuid := None |>)
  | None => mret (cipher <| ci_user_uuid := Some (u_uuid (h_user headers)) |>)
  end.

Definition check_folder (folder_id : option string) (user_id : string) : M unit :=
  match folder_id with
  | Some folder_id =>
     let* found := Folder_find_by_uuid_and_user folder_id user_id in
     ensure (is_not_null found) "Invalid folder"
  | None => mret tt
  end.

(** New names and keys for attachments; an unknown one is skipped, and one of
    another cipher ends the loop. *)
Fixpoint update_attachments (cipher_uuid : string) (l : list (string * Attachments2Data)) : M unit :=
  match l with
  | [] => mret tt
  | (id, attachment) :: l =>
     let* found := Attachment_find_by_id id in
     match found with
     | None => update_attachments cipher_uuid l
     | Some saved_att =>
        if bool_decide (at_cipher_uuid saved_att = cipher_uuid) then
          do* Attachment_save (saved_att <| at_akey := Some (a2_key attachment) |>
                                         <| at_file_name := a2_file_name attachment |>) in
          update_attachments cipher_uuid l
        else mret tt
     end
  end.

Definition type_data_opt (data : CipherData) : M (option Json) :=
  match cp_type data with
  | 1 => mret (cp_login data)
  | 2 => mret (cp_secure_note data)
  | 3 => mret (cp_card data)
  | 4 => mret (cp_identity data)
  | 5 => mret (cp_ssh_key data)
  | _ => err "Invalid type"
  end%Z.
Definition opt_clean (f : option Json) : M (option Json) :=
  match f with
  | Some f => let* f := mexpect (clean_cipher_data f) in mret (Some f)
  | None => mret None
  end.

(** The contents after the update. *)
Definition assign_contents (cipher : Cipher) (data : CipherData) : M Cipher :=
  let* type_data := type_data_opt data in
  let* type_data := some_or_err type_data "Data missing" in
  let* type_data := mexpect (clean_type_data type_data) in
  let* fields := opt_clean (cp_fields data) in
  let* e := ask (λ e, e) in
  mret (cipher <| ci_key := cp_key data |> <| ci_name := cp_name data |> <| ci_notes := cp_notes data |>
               <| ci_fields := json_text e <$> fields |> <| ci_data := json_text e type_data |>
               <| ci_password_history := json_text e <$> cp_password_history data |>
               <| ci_reprompt := opt_filter is_reprompt (cp_reprompt data) |>).

Definition set_archived_date (cipher : Cipher) (archived_date : option string) (user_id : string) : M unit :=
  match archived_date with
  | Some dt_str =>
     let* parsed := ask (λ e, parse_iso8601 e dt_str) in
     match parsed with
     | Some dt => Cipher_set_archived_at cipher dt user_id
     | None => mret tt
     end
  | None => mret tt
  end.

(** [log_event] on behalf of the requester *)
Definition log_as (headers : Headers) (event_type : Z) (source_uuid org_id : string) : M unit :=
  log_event event_type source_uuid org_id (u_uuid (h_user headers)) (h_device_type headers) (h_ip headers).
Definition log_cipher (headers : Headers) (event_type : Z) (cipher : Cipher) : M unit :=
  match ci_organization_uuid cipher with
  | Some org_id => log_as headers event_type (ci_uuid cipher) org_id
  | None => mret tt
  end.
(** The notification of clients itself is not modelled; its argument updates
    the revisions. *)
Definition notify_cipher (cipher : Cipher) : M unit :=
  let* _ := Cipher_update_users_revision cipher in mret tt.

Definition update_event (ut : CipherUpdateType) (transfer_cipher : bool) : Z :=
  match ut, transfer_cipher with
  | SyncCipherCreate, true => CipherCreated
  | SyncCipherUpdate, true => CipherShared
  | _, _ => CipherUpdated
  end.

Definition update_cipher_from_data (cipher : Cipher) (data : CipherData) (headers : Headers)
    (shared_to_collections : option (list string)) (ut : CipherUpdateType) : M Cipher :=
  let user_id := u_uuid (h_user headers) in
  do* enforce_personal_ownership_policy (Some data) headers in
  do* check_stale cipher data ut in
  do* ensure (bool_decide (ci_organization_uuid cipher = None) ||
              bool_decide (ci_organization_uuid cipher = cp_organization_id data))
        "Organization mismatch. Please resync the client before updating the cipher" in
  do* check_note (cp_notes data) in
  let transfer_cipher := bool_decide (ci_organization_uuid cipher = None) && is_not_null (cp_organization_id data) in
  let* cipher := assign_owner cipher data headers (is_not_null shared_to_collections) in
  do* check_folder (cp_folder_id data) user_id in
  do* update_attachments (ci_uuid cipher) (default [] (cp_attachments2 data)) in
  let* cipher := assign_contents cipher data in
  let* cipher := Cipher_save cipher in
  do* Cipher_move_to_folder cipher (cp_folder_id data) user_id in
  do* Cipher_set_favorite cipher (cp_favorite data) user_id in
  do* set_archived_date cipher (cp_archived_date data) user_id in
  do* (if bool_decide (ut = UpdateNone) then mret tt
       else do* log_cipher headers (update_event ut transfer_cipher) cipher in notify_cipher cipher) in
  mret cipher.

Section vault.
Context `{!Serde ProtectedActionData pa_stored} `{FL : FileLinks}.

(** The answer of most handlers. *)
Definition cipher_response (cipher : Cipher) (headers : Headers) : M Json :=
  Cipher_to_json cipher (h_host headers) (u_uuid (h_user headers)) None CST_User.

Definition get_ciphers (headers : Headers) : M Json :=
  let user_id := u_uuid (h_user headers) in
  let* ciphers := Cipher_find_by_user_visible user_id in
  let* sync := CipherSyncData_new user_id CST_User in
  let* l := collect ciphers (λ c, Cipher_to_json c (h_host headers) user_id (Some sync) CST_User) in
  mret (json_list l).

Definition get_cipher (cipher_id : string) (headers : Headers) : M Json :=
  let* found := Cipher_find_by_uuid cipher_id in
  let* cipher := some_or_err found "Cipher doesn't exist" in
  let* ok := Cipher_is_accessible_to_user cipher (u_uuid (h_user headers)) in
  do* ensure ok "Cipher is not owned by user" in
  cipher_response cipher headers.

Definition post_ciphers (data : CipherData) (headers : Headers) : M Json :=
  let data := data <| cp_last_known_revision_date := None |> in
  let* cipher := Cipher_new (cp_type data) (cp_name data) in
  let* cipher := update_cipher_from_data cipher data headers None SyncCipherCreate in
  cipher_response cipher headers.

Definition put_cipher (cipher_id : string) (data : CipherData) (headers : Headers) : M Json :=
  let* found := Cipher_find_by_uuid cipher_id in
  let* cipher := some_or_err found "Cipher doesn't exist" in
  let* ok := Cipher_is_write_accessible_to_user cipher (u_uuid (h_user headers)) in
  do* ensure ok "Cipher is not write accessible" in
  let* cipher := update_cipher_from_data cipher data headers None SyncCipherUpdate in
  cipher_response cipher headers.

Definition put_cipher_partial (cipher_id : string) (data : PartialCipherData) (headers : Headers) : M Json :=
  let user_id := u_uuid (h_user headers) in
  let* found := Cipher_find_by_uuid cipher_id in
  let* cipher := some_or_err found "Cipher does not exist" in
  let* ok := Cipher_is_accessible_to_user cipher user_id in
  do* ensure ok "Cipher does not exist" in
  do* check_folder (pc_folder_id data) user_id in
  do* Cipher_move_to_folder cipher (pc_folder_id data) user_id in
  do* Cipher_set_favorite cipher (Some (pc_favorite data)) user_id in
  cipher_response cipher headers.

(** *** Import *)

Fixpoint import_folders (existing : list string) (user_id : string) (l : list FolderData) : M (list string) :=
  match l with
  | [] => mret []
  | folder :: l =>
     let* folder_id :=
       match opt_filter (λ id, bool_decide (id ∈ existing)) (fo_id folder) with
       | Some id => mret id
       | None =>
          let* new_folder := Folder_new user_id (fo_name folder) in
          let* new_folder := Folder_save new_folder in
          mret (f_uuid new_folder)
       end in
     let* rest := import_folders existing user_id l in
     mret (folder_id :: rest)
  end.
(** [relations_map]: of equal keys the last one stays. *)
Definition relations_map (l : list RelationsData) : gmap nat nat := foldl (λ m r, <[rd_key r := rd_value r]> m) ∅ l.
(** [folders[*i]] panics out of range. *)
Fixpoint import_ciphers (folders : list string) (relations : gmap nat nat) (headers : Headers) (index : nat)
    (l : list CipherData) : M unit :=
  match l with
  | [] => mret tt
  | cipher_data :: l =>
     let* folder_id := match relations !! index with
                       | Some i => let* f := mexpect (folders !! i) in mret (Some f)
                       | None => mret None
                       end in
     let cipher_data := cipher_data <| cp_folder_id := folder_id |> in
     let* cipher := Cipher_new (cp_type cipher_data) (cp_name cipher_data) in
     let* _ := update_cipher_from_data cipher cipher_data headers None UpdateNone in
     import_ciphers folders relations headers (S index) l
  end.
Definition post_ciphers_import (data : ImportData) (headers : Headers) : M unit :=
  let user_id := u_uuid (h_user headers) in
  do* enforce_personal_ownership_policy None headers in
  do* Cipher_validate_cipher_data (im_ciphers data) in
  let* existing := Folder_find_by_user user_id in
  let* folders := import_folders (f_uuid <$> existing) user_id (im_folders data) in
  do* import_ciphers folders (relations_map (im_folder_relationships data)) headers 0 (im_ciphers data) in
  let* _ := User_update_revision (h_user headers) in
  mret tt.

(** *** Collections of a cipher, and sharing *)

(** The loop over the symmetric difference, in some order. *)
Definition change_collection (cipher_uuid org_uuid user_id : string) (posted : gset string) (col_id : string) : M unit :=
  let* found := Collection_find_by_uuid_and_org col_id org_uuid in
  let* collection := some_or_err found "Invalid collection ID provided" in
  let* writable := Collection_is_writable_by_user collection user_id in
  do* ensure writable "No rights to modify the collection" in
  if bool_decide (c_uuid collection ∈ posted) then CollectionCipher_save cipher_uuid (c_uuid collection)
  else CollectionCipher_delete cipher_uuid (c_uuid collection).
(** [post_collections_update] and [post_collections_admin], up to the answer *)
Definition update_collections (get : Cipher → string → M (list string)) (cipher_id : string)
    (collection_ids : list string) (headers : Headers) : M Cipher :=
  let user_id := u_uuid (h_user headers) in
  let* found := Cipher_find_by_uuid cipher_id in
  let* cipher := some_or_err found "Cipher doesn't exist" in
  let* ok := Cipher_is_in_editable_collection_by_user cipher user_id in
  do* ensure ok "Collection cannot be changed" in
  let* org_uuid := some_or_err (ci_organization_uuid cipher) "Cipher is not owned by an organization" in
  let posted : gset string := list_to_set collection_ids in
  let* l := get cipher user_id in
  let current : gset string := list_to_set l in
  do* for_each (elements ((posted ∖ current) ∪ (current ∖ posted)))
        (change_collection (ci_uuid cipher) org_uuid user_id posted) in
  do* notify_cipher cipher in
  do* log_as headers CipherUpdatedCollections (ci_uuid cipher) org_uuid in
  mret cipher.
Definition post_collections_update (cipher_id : string) (collection_ids : list string) (headers : Headers) : M Json :=
  let* cipher := update_collections Cipher_get_collections cipher_id collection_ids headers in
  cipher_response cipher headers.
Definition post_collections2_update (cipher_id : string) (collection_ids : list string) (headers : Headers) : M Json :=
  let* cipher_details := post_collections_update cipher_id collection_ids headers in
  mret (JObj [("object", JStr "optionalCipherDetails"); ("unavailable", JBool false); ("cipher", cipher_details)]).
Definition post_collections_admin (cipher_id : string) (collection_ids : list string) (headers : Headers) : M unit :=
  let* _ := update_collections Cipher_get_admin_collections cipher_id collection_ids headers in mret tt.

Fixpoint share_to_collections (cipher_uuid organization_id user_id : string) (l : list string) : M (list string) :=
  match l with
  | [] => mret []
  | col_id :: l =>
     let* found := Collection_find_by_uuid_and_org col_id organization_id in
     let* collection := some_or_err found "Invalid collection ID provided" in
     let* writable := Collection_is_writable_by_user collection user_id in
     do* ensure writable "No rights to modify the collection" in
     do* CollectionCipher_save cipher_uuid (c_uuid collection) in
     let* rest := share_to_collections cipher_uuid organization_id user_id l in
     mret (c_uuid collection :: rest)
  end.
Definition share_cipher_by_uuid (cipher_id : string) (data : ShareCipherData) (headers : Headers)
    (override_ut : option CipherUpdateType) : M Json :=
  let user_id := u_uuid (h_user headers) in
  let* found := Cipher_find_by_uuid cipher_id in
  let* cipher := some_or_err found "Cipher doesn't exist" in
  let* ok := Cipher_is_write_accessible_to_user cipher user_id in
  do* ensure ok "Cipher is not write accessible" in
  let* shared_to_collections :=
    match cp_organization_id (sc_cipher data) with
    | Some organization_id => share_to_collections (ci_uuid cipher) organization_id user_id (sc_collection_ids data)
    | None => mret []
    end in
  let ut := match override_ut with
            | Some ut => ut
            | None => if is_not_null (cp_last_known_revision_date (sc_cipher data))
                      then SyncCipherUpdate else SyncCipherCreate
            end in
  let* cipher := update_cipher_from_data cipher (sc_cipher data) headers (Some shared_to_collections) ut in
  cipher_response cipher headers.

(** The last cipher comes first ([Vec::pop]). *)
Definition share_selected (data : ShareSelectedCipherData) (headers : Headers) (cipher : CipherData) : M unit :=
  let* id := some_or_err (cp_id cipher) "Request missing ids field" in
  let* _ := share_cipher_by_uuid id (mkShareCipherData (cipher <| cp_id := None |>) (ss_collection_ids data)) headers
              (Some UpdateNone) in
  mret tt.
Definition put_cipher_share_selected (data : ShareSelectedCipherData) (headers : Headers) : M unit :=
  do* ensure (bool_decide (ss_ciphers data ≠ [])) "You must select at least one cipher." in
  do* ensure (bool_decide (ss_collection_ids data ≠ [])) "You must select at least one collection." in
  do* ensure (forallb (λ c, is_not_null (cp_id c)) (ss_ciphers data)) "Request missing ids field" in
  for_each (rev (ss_ciphers data)) (share_selected data headers).

(** [let res = m; if res.is_err() { cleanup?; } res] *)
Definition on_error {A} (m : M A) (cleanup : M unit) : M A := λ e w,
  match m e w with
  | (Err x, w) =>
     match cleanup e w with
     | (Ok _, w) => (Err x, w)
     | (Err y, w) => (Err y, w)
     | (Panic, w) => (Panic, w)
     end
  | r => r
  end.
Definition post_ciphers_create (data : ShareCipherData) (headers : Headers) : M Json :=
  do* enforce_personal_ownership_policy (Some (sc_cipher data)) headers in
  let* cipher := Cipher_new (cp_type (sc_cipher data)) (cp_name (sc_cipher data)) in
  let* cipher := Cipher_save (cipher <| ci_user_uuid := Some (u_uuid (h_user headers)) |>) in
  let data := mkShareCipherData ((sc_cipher data) <| cp_last_known_revision_date := None |>) (sc_collection_ids data) in
  on_error (share_cipher_by_uuid (ci_uuid cipher) data headers None) (Cipher_delete cipher).

(** *** Attachments *)

Definition get_attachment (cipher_id attachment_id : string) (headers : Headers) : M Json :=
  let* found := Cipher_find_by_uuid cipher_id in
  let* cipher := some_or_err found "Cipher doesn't exist" in
  let* ok := Cipher_is_accessible_to_user cipher (u_uuid (h_user headers)) in
  do* ensure ok "Cipher is not accessible" in
  let* found := Attachment_find_by_id attachment_id in
  let* attachment := some_or_err found "Attachment doesn't exist" in
  do* ensure (bool_decide (cipher_id = at_cipher_uuid attachment)) "Attachment doesn't belong to cipher" in
  Attachment_to_json attachment (h_host headers).

Record AttachmentRequestData := mkAttachmentRequestData {
  ard_key : string; ard_file_name : string; ard_file_size : NumberOrString; ard_admin_request : option bool }.
Definition generate_attachment_id : M string := encode_random_bytes 10 encode_hexlower.

Definition post_attachment_v2 (cipher_id : string) (data : AttachmentRequestData) (headers : Headers) : M Json :=
  let* found := Cipher_find_by_uuid cipher_id in
  let* cipher := some_or_err found "Cipher doesn't exist" in
  let* ok := Cipher_is_write_accessible_to_user cipher (u_uuid (h_user headers)) in
  do* ensure ok "Cipher is not write accessible" in
  let* file_size := into_i64 (ard_file_size data) in
  do* ensure (negb (file_size <? 0)%Z) "Attachment size can't be negative" in
  let* attachment_id := generate_attachment_id in
  do* Attachment_save (mkAttachment attachment_id (ci_uuid cipher) (ard_file_name data) file_size (Some (ard_key data))) in
  let* j := cipher_response cipher headers in
  mret (JObj [("object", JStr "attachment-fileUpload"); ("attachmentId", JStr attachment_id);
    ("url", JStr ("/ciphers/" +:+ ci_uuid cipher +:+ "/attachment/" +:+ attachment_id)); ("fileUploadType", JNum 0);
    (if default false (ard_admin_request data) then "cipherMiniResponse" else "cipherResponse", j)]).

Record UploadData := mkUploadData { ud_key : option string; ud_data : TempFile }.

(** [limit_kb.checked_mul(1024).and_then(|l| l.checked_sub(used)).and_then(|l| l.checked_add(adjust))] *)
Definition attachment_room (limit_kb used adjust : Z) : option Z :=
  l ← to_i64 (limit_kb * 1024)%Z; l ← to_i64 (l - used)%Z; to_i64 (l + adjust)%Z.
(** The limit of a user or of an organization; the code repeats these lines. *)
Definition attachment_limit (limit : option Z) (size_used : M Z) (size_adjust : Z) : M (option Z) :=
  match limit with
  | Some 0%Z => err "Attachments are disabled"
  | Some limit_kb =>
     let* already_used := size_used in
     let* room := some_or_err (attachment_room limit_kb already_used size_adjust) "Attachment size overflow" in
     do* ensure (negb (room <=? 0)%Z) "Attachment storage limit reached! Delete some attachments to free up space" in
     mret (Some room)
  | None => mret None
  end.
Definition attachment_size_limit (cipher : Cipher) (size_adjust : Z) : M (option Z) :=
  match ci_user_uuid cipher, ci_organization_uuid cipher with
  | Some user_id, _ =>
     let* limit := conf user_attachment_limit in
     attachment_limit limit (Attachment_size_by_user user_id) size_adjust
  | None, Some org_id =>
     let* limit := conf org_attachment_limit in
     attachment_limit limit (Attachment_size_by_org org_id) size_adjust
  | None, None => err "Cipher is neither owned by a user nor an organization"
  end.

Definition LEEWAY : Z := 1024 * 1024.
(** v2: the record exists; the real size must be near the announced one. *)
Definition adjust_attachment (attachment : Attachment) (size : Z) : M unit :=
  let* max_size := some_or_err (to_i64 (at_file_size attachment + LEEWAY)%Z) "Invalid attachment size max" in
  let* min_size := some_or_err (to_i64 (at_file_size attachment - LEEWAY)%Z) "Invalid attachment size min" in
  if ((min_size <=? size) && (size <=? max_size))%Z then
    if (size =? at_file_size attachment)%Z then mret tt
    else Attachment_save (attachment <| at_file_size := size |>)
  else
    do* mignore (Attachment_delete attachment) in
    err ("Attachment size mismatch (expected within [" +:+ pretty min_size +:+ ", " +:+ pretty max_size +:+ "], got "
         +:+ pretty size +:+ ")").
(** Legacy: the record is created here. *)
Definition create_attachment (file_id cipher_id : string) (data : UploadData) (size : Z) : M unit :=
  let* name := some_or_err (raw_name (ud_data data)) "No filename provided" in
  let* key := some_or_err (ud_key data) "No attachment key provided" in
  Attachment_save (mkAttachment file_id cipher_id name size (Some key)).

Definition save_attachment (attachment : option Attachment) (cipher_id : string) (data : UploadData) (headers : Headers)
    : M Cipher :=
  let* size := some_or_err (to_i64 (temp_len (ud_data data))) "Attachment data size overflow" in
  do* ensure (negb (size <? 0)%Z) "Attachment size can't be negative" in
  let* found := Cipher_find_by_uuid cipher_id in
  let* cipher := some_or_err found "Cipher doesn't exist" in
  let* ok := Cipher_is_write_accessible_to_user cipher (u_uuid (h_user headers)) in
  do* ensure ok "Cipher is not write accessible" in
  let* size_limit := attachment_size_limit cipher (from_option at_file_size 0%Z attachment) in
  do* ensure (negb (from_option (λ limit, (limit <? size)%Z) false size_limit))
        "Attachment storage limit exceeded with this file" in
  let* file_id := match attachment with Some a => mret (at_id a) | None => generate_attachment_id end in
  do* match attachment with
      | Some attachment => adjust_attachment attachment size
      | None => create_attachment file_id cipher_id data size
      end in
  do* save_attachment_file (cipher_id, file_id) (content (ud_data data)) true in
  do* notify_cipher cipher in
  do* log_cipher headers CipherAttachmentCreated cipher in
  mret cipher.

Definition post_attachment_v2_data (cipher_id attachment_id : string) (data : UploadData) (headers : Headers) : M unit :=
  let* found := Attachment_find_by_id attachment_id in
  let* attachment := some_or_err found "Attachment doesn't exist" in
  do* ensure (bool_decide (cipher_id = at_cipher_uuid attachment)) "Attachment doesn't belong to cipher" in
  let* _ := save_attachment (Some attachment) cipher_id data headers in
  mret tt.
Definition post_attachment (cipher_id : string) (data : UploadData) (headers : Headers) : M Json :=
  let* cipher := save_attachment None cipher_id data headers in
  cipher_response cipher headers.

Definition delete_cipher_attachment_by_id (cipher_id attachment_id : string) (headers : Headers) : M Json :=
  let* found := Attachment_find_by_id attachment_id in
  let* attachment := some_or_err found "Attachment doesn't exist" in
  do* ensure (bool_decide (at_cipher_uuid attachment = cipher_id)) "Attachment from other cipher" in
  let* found := Cipher_find_by_uuid cipher_id in
  let* cipher := some_or_err found "Cipher doesn't exist" in
  let* ok := Cipher_is_write_accessible_to_user cipher (u_uuid (h_user headers)) in
  do* ensure ok "Cipher cannot be deleted by user" in
  do* Attachment_delete attachment in
  do* notify_cipher cipher in
  do* log_cipher headers CipherAttachmentDeleted cipher in
  let* cipher_json := cipher_response cipher headers in
  mret (JObj [("cipher", cipher_json)]).
Definition post_attachment_share (cipher_id attachment_id : string) (data : UploadData) (headers : Headers) : M Json :=
  let* _ := delete_cipher_attachment_by_id cipher_id attachment_id headers in
  post_attachment cipher_id data headers.

(** *** Deleting and restoring *)

Inductive CipherDeleteOptions := SoftSingle | SoftMulti | HardSingle | HardMulti.
Definition is_soft (o : CipherDeleteOptions) : bool :=
  match o with SoftSingle | SoftMulti => true | _ => false end.
Definition is_single (o : CipherDeleteOptions) : bool :=
  match o with SoftSingle | HardSingle => true | _ => false end.

Definition delete_cipher_by_uuid (cipher_id : string) (headers : Headers) (delete_options : CipherDeleteOptions) : M unit :=
  let* found := Cipher_find_by_uuid cipher_id in
  let* cipher := some_or_err found "Cipher doesn't exist" in
  let* ok := Cipher_is_write_accessible_to_user cipher (u_uuid (h_user headers)) in
  do* ensure ok "Cipher can't be deleted by user" in
  let* cipher :=
    if is_soft delete_options then
      let* t := ask now in
      Cipher_save (cipher <| ci_deleted_at := Some t |>)
    else do* Cipher_delete cipher in mret cipher in
  do* (if is_single delete_options then notify_cipher cipher else mret tt) in
  log_cipher headers (if is_soft delete_options then CipherSoftDeleted else CipherDeleted) cipher.
Definition delete_multiple_ciphers (ids : list string) (headers : Headers) (delete_options : CipherDeleteOptions) : M unit :=
  for_each ids (λ cipher_id, delete_cipher_by_uuid cipher_id headers delete_options).

Definition restore_cipher_by_uuid (cipher_id : string) (headers : Headers) (multi_restore : bool) : M Json :=
  let* found := Cipher_find_by_uuid cipher_id in
  let* cipher := some_or_err found "Cipher doesn't exist" in
  let* ok := Cipher_is_write_accessible_to_user cipher (u_uuid (h_user headers)) in
  do* ensure ok "Cipher can't be restored by user" in
  let* cipher := Cipher_save (cipher <| ci_deleted_at := None |>) in
  do* (if multi_restore then mret tt else notify_cipher cipher) in
  do* log_cipher headers CipherRestored cipher in
  cipher_response cipher headers.
Definition restore_multiple_ciphers (ids : list string) (headers : Headers) : M Json :=
  let* l := collect ids (λ cipher_id, restore_cipher_by_uuid cipher_id headers true) in
  mret (json_list l).

(** *** Folders and archive marks of the user *)

Definition move_cipher_selected (data : MoveCipherData) (headers : Headers) : M unit :=
  let user_id := u_uuid (h_user headers) in
  do* check_folder (mc_folder_id data) user_id in
  let cipher_count := length (mc_ids data) in
  let* accessible_ciphers := Cipher_find_by_user_and_ciphers user_id (mc_ids data) in
  do* for_each accessible_ciphers (λ cipher, Cipher_move_to_folder cipher (mc_folder_id data) user_id) in
  ensure (bool_decide (cipher_count = length accessible_ciphers))
    ("Not all ciphers are moved! " +:+ pretty (length accessible_ciphers) +:+ " of the selected " +:+
     pretty cipher_count +:+ " were moved.").

Definition archive_cipher (cipher_id : string) (headers : Headers) (multi_archive : bool) : M Json :=
  let user_id := u_uuid (h_user headers) in
  let* found := Cipher_find_by_uuid cipher_id in
  let* cipher := some_or_err found "Cipher doesn't exist" in
  let* ok := Cipher_is_accessible_to_user cipher user_id in
  do* ensure ok "Cipher is not accessible for the current user" in
  let* t := ask now in
  do* Cipher_set_archived_at cipher t user_id in
  do* (if multi_archive then mret tt else notify_cipher cipher) in
  cipher_response cipher headers.
Definition unarchive_cipher (cipher_id : string) (headers : Headers) (multi_unarchive : bool) : M Json :=
  let user_id := u_uuid (h_user headers) in
  let* found := Cipher_find_by_uuid cipher_id in
  let* cipher := some_or_err found "Cipher doesn't exist" in
  let* ok := Cipher_is_accessible_to_user cipher user_id in
  do* ensure ok "Cipher is not accessible for the current user" in
  do* Cipher_unarchive cipher user_id in
  do* (if multi_unarchive then mret tt else notify_cipher cipher) in
  cipher_response cipher headers.
Definition archive_multiple_ciphers (ids : list string) (headers : Headers) : M Json :=
  let* l := collect ids (λ cipher_id, archive_cipher cipher_id headers true) in mret (json_list l).
Definition unarchive_multiple_ciphers (ids : list string) (headers : Headers) : M Json :=
  let* l := collect ids (λ cipher_id, unarchive_cipher cipher_id headers true) in mret (json_list l).

(** *** Emptying a vault *)

(** [auth::OwnerHeaders]: the guard let an owner of the organization through. *)
Record OwnerHeaders := mkOwnerHeaders { ow_user : User; ow_device_type : Z; ow_ip : string; ow_org_id : string }.

Definition purge_org_vault (org_id : string) (data : PasswordOrOtpData) (headers : OwnerHeaders) : M unit :=
  do* ensure (bool_decide (org_id = ow_org_id headers)) "Organization not found" in
  let user := ow_user headers in
  do* PasswordOrOtpData_validate data user true in
  let* found := Membership_find_confirmed_by_user_and_org (u_uuid user) org_id in
  match found with
  | Some member =>
     if Membership_has_type member MT_Owner then
       do* Cipher_delete_all_by_organization org_id in
       log_event OrganizationPurgedVault org_id org_id (u_uuid user) (ow_device_type headers) (ow_ip headers)
     else err "You don't have permission to purge the organization vault"
  | None => err "You don't have permission to purge the organization vault"
  end.
Definition purge_personal_vault (data : PasswordOrOtpData) (headers : Headers) : M unit :=
  let user := h_user headers in
  do* PasswordOrOtpData_validate data user true in
  let* ciphers := Cipher_find_owned_by_user (u_uuid user) in
  do* for_each ciphers Cipher_delete in
  let* folders := Folder_find_by_user (u_uuid user) in
  do* for_each folders Folder_delete in
  let* _ := User_update_revision user in
  mret tt.

(** ** Routes with the same body *)

Definition get_cipher_admin := get_cipher.
Definition get_cipher_details := get_cipher.
Definition post_ciphers_admin := post_ciphers_create.
Definition put_cipher_admin := put_cipher.
Definition post_cipher := put_cipher.
Definition post_cipher_admin := post_cipher.
Definition post_cipher_partial := put_cipher_partial.
Definition put_collections2_update := post_collections2_update.
Definition put_collections_update := post_collections_update.
Definition put_collections_admin := post_collections_admin.
Definition post_cipher_share (cipher_id : string) (data : ShareCipherData) (headers : Headers) : M Json :=
  share_cipher_by_uuid cipher_id data headers None.
Definition put_cipher_share (cipher_id : string) (data : ShareCipherData) (headers : Headers) : M Json :=
  share_cipher_by_uuid cipher_id data headers None.
Definition post_attachment_admin := post_attachment.
Definition delete_attachment := delete_cipher_attachment_by_id.
Definition delete_attachment_post := delete_attachment.
Definition delete_attachment_post_admin := delete_attachment.
Definition delete_attachment_admin := delete_cipher_attachment_by_id.
Definition delete_cipher_post (cipher_id : string) (headers : Headers) : M unit :=
  delete_cipher_by_uuid cipher_id headers HardSingle.
Definition delete_cipher_post_admin (cipher_id : string) (headers : Headers) : M unit :=
  delete_cipher_by_uuid cipher_id headers HardSingle.
Definition delete_cipher_put (cipher_id : string) (headers : Headers) : M unit :=
  delete_cipher_by_uuid cipher_id headers SoftSingle.
Definition delete_cipher_put_admin (cipher_id : string) (headers : Headers) : M unit :=
  delete_cipher_by_uuid cipher_id headers SoftSingle.
Definition delete_cipher (cipher_id : string) (headers : Headers) : M unit :=
  delete_cipher_by_uuid cipher_id headers HardSingle.
Definition delete_cipher_admin (cipher_id : string) (headers : Headers) : M unit :=
  delete_cipher_by_uuid cipher_id headers HardSingle.
Definition delete_cipher_selected (ids : list string) (headers : Headers) : M unit :=
  delete_multiple_ciphers ids headers HardMulti.
Definition delete_cipher_selected_post (ids : list string) (headers : Headers) : M unit :=
  delete_multiple_ciphers ids headers HardMulti.
Definition delete_cipher_selected_put (ids : list string) (headers : Headers) : M unit :=
  delete_multiple_ciphers ids headers SoftMulti.
Definition delete_cipher_selected_admin (ids : list string) (headers : Headers) : M unit :=
  delete_multiple_ciphers ids headers HardMulti.
Definition delete_cipher_selected_post_admin (ids : list string) (headers : Headers) : M unit :=
  delete_multiple_ciphers ids headers HardMulti.
Definition delete_cipher_selected_put_admin (ids : list string) (headers : Headers) : M unit :=
  delete_multiple_ciphers ids headers SoftMulti.
Definition restore_cipher_put (cipher_id : string) (headers : Headers) : M Json :=
  restore_cipher_by_uuid cipher_id headers false.
Definition restore_cipher_put_admin (cipher_id : string) (headers : Headers) : M Json :=
  restore_cipher_by_uuid cipher_id headers false.
Definition restore_cipher_selected_admin := restore_multiple_ciphers.
Definition restore_cipher_selected := restore_multiple_ciphers.
Definition move_cipher_selected_put := move_cipher_selected.
Definition archive_cipher_put (cipher_id : string) (headers : Headers) : M Json :=
  archive_cipher cipher_id headers false.
Definition archive_cipher_selected := archive_multiple_ciphers.
Definition unarchive_cipher_put (cipher_id : string) (headers : Headers) : M Json :=
  unarchive_cipher cipher_id headers false.
Definition unarchive_cipher_selected := unarchive_multiple_ciphers.

(** ** Routes *)

(** The requests of [routes()] of ciphers.rs and folders.rs, routes with the same
    body taken together; [sync] is left out. *)
Inductive VaultRequest :=
  | GetCiphers
  | GetCipher (cipher_id : string)
  | PostCiphers (data : CipherData)
  | PutCipher (cipher_id : string) (data : CipherData)
  | PutCipherPartial (cipher_id : string) (data : PartialCipherData)
  | ImportCiphers (data : ImportData)
  | CreateCipher (data : ShareCipherData)
  | ShareCipher (cipher_id : string) (data : ShareCipherData)
  | ShareSelected (data : ShareSelectedCipherData)
  | UpdateCollections (cipher_id : string) (collection_ids : list string)
  | UpdateCollectionsAdmin (cipher_id : string) (collection_ids : list string)
  | GetAttachment (cipher_id attachment_id : string)
  | PostAttachmentV2 (cipher_id : string) (data : AttachmentRequestData)
  | PostAttachmentV2Data (cipher_id attachment_id : string) (data : UploadData)
  | PostAttachment (cipher_id : string) (data : UploadData)
  | PostAttachmentShare (cipher_id attachment_id : string) (data : UploadData)
  | DeleteAttachment (cipher_id attachment_id : string)
  | DeleteCipher (cipher_id : string) (delete_options : CipherDeleteOptions)
  | DeleteSelected (ids : list string) (delete_options : CipherDeleteOptions)
  | RestoreCipher (cipher_id : string)
  | RestoreSelected (ids : list string)
  | MoveSelected (data : MoveCipherData)
  | ArchiveCipher (cipher_id : string)
  | ArchiveSelected (ids : list string)
  | UnarchiveCipher (cipher_id : string)
  | UnarchiveSelected (ids : list string)
  | PurgeOrgVault (org_id : string) (data : PasswordOrOtpData)
  | PurgePersonalVault (data : PasswordOrOtpData)
  | GetFolders
  | GetFolder (folder_id : string)
  | PostFolder (data : FolderData)
  | PutFolder (folder_id : string) (data : FolderData)
  | DeleteFolder (folder_id : string).

Definition serve (r : VaultRequest) (headers : Headers) : M unit :=
  match r with
  | GetCiphers => mdrop (get_ciphers headers)
  | GetCipher id => mdrop (get_cipher id headers)
  | PostCiphers data => mdrop (post_ciphers data headers)
  | PutCipher id data => mdrop (put_cipher id data headers)
  | PutCipherPartial id data => mdrop (put_cipher_partial id data headers)
  | ImportCiphers data => post_ciphers_import data headers
  | CreateCipher data => mdrop (post_ciphers_create data headers)
  | ShareCipher id data => mdrop (share_cipher_by_uuid id data headers None)
  | ShareSelected data => put_cipher_share_selected data headers
  | UpdateCollections id ids => mdrop (post_collections2_update id ids headers)
  | UpdateCollectionsAdmin id ids => post_collections_admin id ids headers
  | GetAttachment id a => mdrop (get_attachment id a headers)
  | PostAttachmentV2 id data => mdrop (post_attachment_v2 id data headers)
  | PostAttachmentV2Data id a data => post_attachment_v2_data id a data headers
  | PostAttachment id data => mdrop (post_attachment id data headers)
  | PostAttachmentShare id a data => mdrop (post_attachment_share id a data headers)
  | DeleteAttachment id a => mdrop (delete_cipher_attachment_by_id id a headers)
  | DeleteCipher id o => delete_cipher_by_uuid id headers o
  | DeleteSelected ids o => delete_multiple_ciphers ids headers o
  | RestoreCipher id => mdrop (restore_cipher_by_uuid id headers false)
  | RestoreSelected ids => mdrop (restore_multiple_ciphers ids headers)
  | MoveSelected data => move_cipher_selected data headers
  | ArchiveCipher id => mdrop (archive_cipher id headers false)
  | ArchiveSelected ids => mdrop (archive_multiple_ciphers ids headers)
  | UnarchiveCipher id => mdrop (unarchive_cipher id headers false)
  | UnarchiveSelected ids => mdrop (unarchive_multiple_ciphers ids headers)
  | PurgeOrgVault org_id data =>
     purge_org_vault org_id data (mkOwnerHeaders (h_user headers) (h_device_type headers) (h_ip headers) org_id)
  | PurgePersonalVault data => purge_personal_vault data headers
  | GetFolders => mdrop (get_folders headers)
  | GetFolder id => mdrop (get_folder id headers)
  | PostFolder data => mdrop (post_folders data headers)
  | PutFolder id data => mdrop (put_folder id data headers)
  | DeleteFolder id => delete_folder id headers
  end.
End vault.
