(* ===== verification/VaultAccess.v ===== *)
(** * Who reaches a cipher, and how

    The queries behind [Cipher_get_access_restrictions] against a declarative
    reading of the tables: the routes from a user to a cipher.  Then what the
    two ways of computing the restrictions have in common, and what the list of
    visible ciphers has to do with them. *)

From stdpp Require Import base strings numbers pretty gmap list.
From S2P Require Import Prelude Store JsonUtil Queries Users Orgs AuthRequests TwoFactor Collections Folders Ciphers.

(** ** Tables *)

(** Each row sits under its primary key, and a user has one membership of an
    organization (a unique constraint). *)
Record tables_ok (d : Db) : Prop := {
  ok_ciphers : ∀ k c, ciphers d !! k = Some c → ci_uuid c = k;
  ok_collections : ∀ k c, collections d !! k = Some c → c_uuid c = k;
  ok_users_collections : ∀ k cu, users_collections d !! k = Some cu → (cu_user_uuid cu, cu_collection_uuid cu) = k;
  ok_members : ∀ k m, users_organizations d !! k = Some m → m_uuid m = k;
  ok_members_unique : ∀ k k' m m', users_organizations d !! k = Some m → users_organizations d !! k' = Some m' →
    m_user_uuid m = m_user_uuid m' → m_org_uuid m = m_org_uuid m' → m = m';
  ok_groups : ∀ k g, groups d !! k = Some g → g_uuid g = k;
  ok_collections_groups : ∀ k cg, collections_groups d !! k = Some cg → CollectionGroup_key cg = k;
  ok_folders : ∀ k f, folders d !! k = Some f → f_uuid f = k;
  ok_attachments : ∀ k a, attachments d !! k = Some a → at_id a = k;
}.

(** ** Routes from a user to a cipher *)

(** A row of the user for a collection the cipher is in. *)
Definition user_route (d : Db) (u cid : string) (fl : Flags) : Prop :=
  ∃ col cu, (cid, col) ∈ ciphers_collections d ∧ users_collections d !! (u, col) = Some cu ∧ fl = cu_flags cu.
(** A row of a group of the user for such a collection. *)
Definition group_route (d : Db) (u cid : string) (fl : Flags) : Prop :=
  ∃ col gid g mid m cg, (cid, col) ∈ ciphers_collections d ∧ groups d !! gid = Some g ∧ (gid, mid) ∈ groups_users d ∧
    users_organizations d !! mid = Some m ∧ m_user_uuid m = u ∧ g_organizations_uuid g = m_org_uuid m ∧
    collections_groups d !! (col, gid) = Some cg ∧ fl = cg_flags cg.
(** Full access: a confirmed member with access to everything, an owner or an
    admin; or a member of a group with access to everything. *)
Definition full_member (d : Db) (u org : string) : Prop :=
  ∃ k m, users_organizations d !! k = Some m ∧ m_user_uuid m = u ∧ m_org_uuid m = org ∧
    Membership_has_full_access m = true.
Definition full_group (d : Db) (u org : string) : Prop :=
  ∃ gid g mid m, groups d !! gid = Some g ∧ g_access_all g = true ∧ g_organizations_uuid g = org ∧
    (gid, mid) ∈ groups_users d ∧ users_organizations d !! mid = Some m ∧ m_user_uuid m = u.
Definition full_route (with_groups : bool) (d : Db) (u : string) (c : Cipher) : Prop :=
  ci_user_uuid c = Some u ∨
  ∃ org, ci_organization_uuid c = Some org ∧ (full_member d u org ∨ with_groups = true ∧ full_group d u org).
(** The rows that count: those of the user, or, if there are none, those of the
    user's groups. *)
Definition counted_route (with_groups : bool) (d : Db) (u cid : string) (fl : Flags) : Prop :=
  user_route d u cid fl ∨
  (¬ ∃ fl, user_route d u cid fl) ∧ with_groups = true ∧ group_route d u cid fl.

(** ** The queries *)

Section queries.
Context (d : Db) (Hok : tables_ok d).

Lemma member_row m : m ∈ rows (users_organizations d) ↔ users_organizations d !! m_uuid m = Some m.
Proof.
  rewrite elem_of_rows. split; [|eauto]. intros [k Hk]. by rewrite (ok_members d Hok k m Hk).
Qed.
Lemma cipher_row c : c ∈ rows (ciphers d) ↔ ciphers d !! ci_uuid c = Some c.
Proof. rewrite elem_of_rows. split; [|eauto]. intros [k Hk]. by rewrite (ok_ciphers d Hok k c Hk). Qed.
Lemma group_row g : g ∈ rows (groups d) ↔ groups d !! g_uuid g = Some g.
Proof. rewrite elem_of_rows. split; [|eauto]. intros [k Hk]. by rewrite (ok_groups d Hok k g Hk). Qed.
Lemma collection_row c : c ∈ rows (collections d) ↔ collections d !! c_uuid c = Some c.
Proof. rewrite elem_of_rows. split; [|eauto]. intros [k Hk]. by rewrite (ok_collections d Hok k c Hk). Qed.
Lemma user_collection_row cu :
  cu ∈ rows (users_collections d) ↔ users_collections d !! (cu_user_uuid cu, cu_collection_uuid cu) = Some cu.
Proof. rewrite elem_of_rows. split; [|eauto]. intros [k Hk]. by rewrite (ok_users_collections d Hok k cu Hk). Qed.
Lemma collection_group_row cg :
  cg ∈ rows (collections_groups d) ↔ collections_groups d !! (cg_collections_uuid cg, cg_groups_uuid cg) = Some cg.
Proof. rewrite elem_of_rows. split; [|eauto]. intros [k Hk]. by rewrite <- (ok_collections_groups d Hok k cg Hk) in Hk. Qed.
End queries.

(** Take a joined row apart: the next table's row [y], with what it satisfies. *)
Ltac sql_cond H :=
  match type of H with
  | _ ∈ where_ _ _ => apply elem_of_where in H as [H ?]; sql_cond H
  | _ ∈ inner_join _ _ => apply elem_of_inner_join in H as [H ?]; sql_cond H
  | _ ∈ guard_rows _ _ => apply elem_of_guard_rows in H as [? H]; sql_cond H
  | _ ∈ elements _ => apply elem_of_elements in H
  | _ ∈ [_] => apply list_elem_of_singleton in H
  | _ => idtac
  end.
Ltac sql_bools :=
  repeat progress (repeat match goal with
  | H : _ && _ = true |- _ => apply andb_true_iff in H as [? ?]
  | H : bool_decide _ = true |- _ => apply bool_decide_eq_true in H
  | H : null_eq _ (Some _) = true |- _ => apply null_eq_Some in H
  | H : null_eq (Some _) _ = true |- _ => apply null_eq_Some_l in H
  | H : is_user _ _ = true |- _ => unfold is_user in H
  | H : is_org _ _ = true |- _ => unfold is_org in H
  | H : member_of_collection _ _ _ = true |- _ => unfold member_of_collection in H
  end; simpl in *; simplify_eq).
(** Rewrite with an equation of identifiers. *)
Ltac sql_subst := first [congruence | match goal with H : _ = _ |- _ => rewrite <- H; done end].
Ltac sql_row H y Hy :=
  apply list_elem_of_bind in H as (y & H & Hy); cbv beta in H; sql_cond Hy; sql_cond H.
(** Give a joined row. *)
Ltac sql_intro x :=
  apply list_elem_of_bind; exists x; split; [cbv beta|];
  [|try (apply elem_of_inner_join; split); try (apply elem_of_where; split); try apply elem_of_elements].
(** Conditions of a joined row. *)
Ltac sql_true :=
  cbv beta; unfold is_user, is_org, member_of_collection; simpl;
  repeat (apply andb_true_intro; split); try apply bool_decide_eq_true_2; simpl; try congruence; try done.

Section access.
Context (e : Env) (w : World) (Hok : tables_ok (db w)).

Lemma stored_uuid k c : ciphers (db w) !! k = Some c → ci_uuid c = k.
Proof. apply (ok_ciphers _ Hok). Qed.

Lemma user_flags_run c u : ∃ l, Cipher_get_user_collections_access_flags c u e w = (Ok l, w) ∧
  ∀ c', ciphers (db w) !! ci_uuid c = Some c' → ∀ fl, fl ∈ l ↔ user_route (db w) u (ci_uuid c) fl.
Proof.
  eexists. split; [done|]. intros c' Hc' fl. split.
  - intros H. sql_row H c1 H1. sql_row H cc Hcc. sql_row H cu Hcu. destruct cc as [a b]. sql_bools.
    apply user_collection_row in Hcu; [|done]. exists (cu_collection_uuid cu), cu.
    split_and!; [|done..]. sql_subst.
  - intros (col & cu & H1 & H2 & ->). pose proof (ok_users_collections _ Hok _ _ H2) as [= Ha Hb].
    pose proof (stored_uuid _ _ Hc') as Hu.
    sql_intro c'; [|apply cipher_row; [done|congruence]|sql_true].
    sql_intro (ci_uuid c, col); [|done|sql_true].
    sql_intro cu; [by left|apply user_collection_row; [done|congruence]|sql_true].
Qed.

Lemma group_flags_run c u : ∃ l, Cipher_get_group_collections_access_flags c u e w = (Ok l, w) ∧
  ∀ c', ciphers (db w) !! ci_uuid c = Some c' → ∀ fl, fl ∈ l ↔ org_groups_enabled (cfg e) = true ∧ group_route (db w) u (ci_uuid c) fl.
Proof.
  unfold Cipher_get_group_collections_access_flags, conf, ask, mbind.
  destruct (org_groups_enabled (cfg e)); simpl; eexists; (split; [done|]); intros c' Hc' fl; [|split; [intros []%elem_of_nil|naive_solver]].
  pose proof (stored_uuid _ _ Hc') as Hu. split.
  - intros H. sql_row H c1 H1. sql_row H cc Hcc. sql_row H cg Hcg. sql_row H gu Hgu. sql_row H m Hm. sql_row H g Hg.
    destruct cc as [a b], gu as [gid mid]. sql_bools. split; [done|].
    apply collection_group_row in Hcg; [|done]. apply member_row in Hm; [|done]. apply group_row in Hg; [|done].
    exists (cg_collections_uuid cg), (cg_groups_uuid cg), g, (m_uuid m), m, cg.
    split_and!; try done; sql_subst.
  - intros (_ & col & gid & g & mid & m & cg & H1 & H2 & H3 & H4 & H5 & H6 & H7 & ->).
    pose proof (ok_collections_groups _ Hok _ _ H7) as [= Ha Hb]. pose proof (ok_groups _ Hok _ _ H2) as Hg.
    pose proof (ok_members _ Hok _ _ H4) as Hm.
    sql_intro c'; [|apply cipher_row; [done|congruence]|sql_true].
    sql_intro (ci_uuid c, col); [|done|sql_true].
    sql_intro cg; [|apply collection_group_row; [done|congruence]|sql_true].
    sql_intro (gid, mid); [|done|sql_true].
    sql_intro m; [|apply member_row; [done|congruence]|sql_true].
    sql_intro g; [|apply group_row; [done|congruence]|sql_true].
    apply elem_of_guard_rows. split; [sql_true|by left].
Qed.

Lemma full_org_run c u : ∃ b, Cipher_is_in_full_access_org c u None e w = (Ok b, w) ∧
  (b = true ↔ ∃ org, ci_organization_uuid c = Some org ∧ full_member (db w) u org).
Proof.
  unfold Cipher_is_in_full_access_org. destruct (ci_organization_uuid c) as [org|]; [|eexists; split; [done|naive_solver]].
  eexists. split; [done|].
  cbv beta. match goal with |- context [first ?p ?t] => destruct (first p t) as [m|] eqn:E end; simpl.
  - apply first_Some in E as [Hp [k Hk]]. unfold is_status in *. sql_bools. split.
    + intros Hf. eexists. split; [done|]. by exists k, m.
    + intros (org & [= <-] & k' & m' & Hk' & ? & ? & Hf). enough (m = m') by congruence.
      eapply (ok_members_unique _ Hok); eauto.
  - split; [done|]. intros (org' & [= <-] & k' & m' & Hk' & ? & ? & Hf).
    rewrite first_None in E. specialize (E k' m' Hk'). unfold Membership_has_full_access in Hf.
    apply andb_true_iff in Hf as [_ Hf]. unfold is_user, is_org, is_status in E.
    rewrite !bool_decide_true, Hf in E by done. done.
Qed.

Lemma full_group_run c u : ∃ b, Cipher_is_in_full_access_group c u None e w = (Ok b, w) ∧
  (b = true ↔ ∃ org, ci_organization_uuid c = Some org ∧ org_groups_enabled (cfg e) = true ∧ full_group (db w) u org).
Proof.
  unfold Cipher_is_in_full_access_group, conf, ask, mbind.
  destruct (org_groups_enabled (cfg e)); simpl; [|eexists; split; [done|naive_solver]].
  destruct (ci_organization_uuid c) as [org|]; [|eexists; split; [done|naive_solver]].
  eexists. split; [done|]. cbv beta. match goal with |- context [head ?x] => set (l := x) end.
  assert (∀ b, b ∈ l ↔ b = true ∧ full_group (db w) u org) as Hl.
  { intros b. split.
    - intros H. sql_row H g Hg. sql_row H gu Hgu. sql_row H m Hm. destruct gu as [gid mid]. sql_bools.
      apply group_row in Hg; [|done]. apply member_row in Hm; [|done]. split; [congruence|].
      exists (g_uuid g), g, (m_uuid m), m. done.
    - intros (-> & gid & g & mid & m & H1 & H2 & H3 & H4 & H5 & H6).
      pose proof (ok_groups _ Hok _ _ H1) as Hg. pose proof (ok_members _ Hok _ _ H5) as Hm.
      sql_intro g; [|apply group_row; [done|congruence]]. sql_intro (gid, mid); [|done|sql_true].
      sql_intro m; [|apply member_row; [done|congruence]|sql_true].
      apply elem_of_guard_rows. split; [sql_true|rewrite H2; by left]. }
  destruct l as [|b rest] eqn:E; simpl.
  - split; [done|]. intros (? & [= <-] & _ & Hf). destruct (not_elem_of_nil true). by apply Hl.
  - destruct (proj1 (Hl b)) as [-> Hf]; [by left|]. split; [eauto|done].
Qed.

Lemma full_route_run c u : ∃ b,
  (if Cipher_is_owned_by_user c u then mret true
   else let* org := Cipher_is_in_full_access_org c u None in
        if org then mret true else Cipher_is_in_full_access_group c u None) e w = (Ok b, w) ∧
  (b = true ↔ full_route (org_groups_enabled (cfg e)) (db w) u c).
Proof.
  unfold full_route, Cipher_is_owned_by_user, owned_by_user.
  destruct (null_eq (ci_user_uuid c) (Some u)) eqn:E.
  { apply null_eq_Some in E. eexists. split; [done|]. naive_solver. }
  assert (ci_user_uuid c ≠ Some u) as Hne by (rewrite <- null_eq_Some; congruence).
  destruct (full_org_run c u) as (b & Hb & Hspec). unfold mbind at 1. rewrite Hb. destruct b.
  { eexists. split; [done|]. naive_solver. }
  destruct (full_group_run c u) as (b & Hb' & Hspec'). exists b. split; [done|].
  assert (false ≠ true) by done. rewrite Hspec'. naive_solver.
Qed.
End access.

(** ** The restrictions, exactly *)

Lemma combine_flags_spec l ro hp mn :
  foldl (λ '(read_only, hide_passwords, manage) '(r, h, m), (read_only && r, hide_passwords && h, manage || m))
    (ro, hp, mn) l =
  (ro && forallb (λ fl, fl.1.1) l, hp && forallb (λ fl, fl.1.2) l, mn || existsb (λ fl, fl.2) l).
Proof.
  revert ro hp mn. induction l as [|[[r h] m] l IH]; intros ro hp mn; simpl.
  - by rewrite !andb_true_r, orb_false_r.
  - by rewrite IH, !andb_assoc, orb_assoc.
Qed.
Lemma combine_flags_eq l :
  combine_flags l = (forallb (λ fl, fl.1.1) l, forallb (λ fl, fl.1.2) l, existsb (λ fl, fl.2) l).
Proof. apply combine_flags_spec. Qed.
Lemma forallb_false_elem {A} (p : A → bool) l : forallb p l = false ↔ ∃ a, a ∈ l ∧ p a = false.
Proof.
  induction l as [|a l IH]; simpl.
  - split; [done|]. intros (a & []%elem_of_nil & _).
  - setoid_rewrite elem_of_cons. rewrite andb_false_iff, IH. naive_solver.
Qed.

(** The restrictions that a set of routes amounts to. *)
Definition flags_of (P : Flags → Prop) (r : option Flags) : Prop :=
  match r with
  | None => ¬ ∃ fl, P fl
  | Some (ro, hp, mn) =>
     (∃ fl, P fl) ∧ (ro = false ↔ ∃ fl, P fl ∧ fl.1.1 = false) ∧ (hp = false ↔ ∃ fl, P fl ∧ fl.1.2 = false) ∧
     (mn = true ↔ ∃ fl, P fl ∧ fl.2 = true)
  end.
Lemma flags_of_list (P : Flags → Prop) l :
  (∀ fl, fl ∈ l ↔ P fl) → flags_of P (match l with [] => None | _ => Some (combine_flags l) end).
Proof.
  intros HP. destruct l as [|fl rest]; [intros [fl Hfl]; apply HP in Hfl; by apply elem_of_nil in Hfl|].
  rewrite combine_flags_eq. unfold flags_of. split; [exists fl; apply HP; by left|].
  rewrite !forallb_false_elem, existsb_elem. by setoid_rewrite HP.
Qed.

(** What the next theorem states, for use in proofs. *)
Lemma access_exact c c' u e w :
  tables_ok (db w) → ciphers (db w) !! ci_uuid c = Some c' →
  ∃ r, Cipher_get_access_restrictions c u None e w = (Ok r, w) ∧
    (full_route (org_groups_enabled (cfg e)) (db w) u c → r = Some (false, false, true)) ∧
    (¬ full_route (org_groups_enabled (cfg e)) (db w) u c →
       flags_of (counted_route (org_groups_enabled (cfg e)) (db w) u (ci_uuid c)) r).
Proof.
  intros Hok Hc. unfold Cipher_get_access_restrictions.
  destruct (full_route_run e w Hok c u) as (b & Hb & Hfull). unfold mbind at 1. rewrite Hb. destruct b.
  { eexists. split; [done|]. split; [done|]. intros []. by apply Hfull. }
  assert (¬ full_route (org_groups_enabled (cfg e)) (db w) u c) as Hn by (rewrite <- Hfull; done).
  destruct (user_flags_run e w Hok c u) as (l & Hl & Hspec). specialize (Hspec c' Hc).
  unfold mbind. rewrite Hl. destruct l as [|fl l].
  - destruct (group_flags_run e w Hok c u) as (l' & Hl' & Hspec'). specialize (Hspec' c' Hc). rewrite Hl'.
    eexists. split; [done|]. split; [done|]. intros _. apply flags_of_list. intros fl. rewrite Hspec'.
    assert (∀ fl, ¬ user_route (db w) u (ci_uuid c) fl) by (intros fl'; rewrite <- Hspec; apply not_elem_of_nil).
    unfold counted_route. naive_solver.
  - eexists. split; [done|]. split; [done|]. intros _. apply (flags_of_list _ (fl :: l)). intros fl'. rewrite Hspec.
    unfold counted_route. split; [by left|]. intros [?|[[] _]]; [done|]. exists fl. apply Hspec. by left.
Qed.

(** C31: the access restrictions of a stored cipher are exactly those of the
    user's routes to it.  Owning it, being a confirmed member of its
    organization with full access, or being in a group with full access means no
    restrictions.  Otherwise the rows that count are the user's own for the
    collections the cipher is in or, only if there are none, those of the
    user's groups; without any there is no access, and else a cipher is
    writable when one of them is not read-only, its passwords are shown when one
    of them shows them, and it may be managed when one of them says so. *)
Theorem Cipher_access_exact c c' u e w :
  tables_ok (db w) → ciphers (db w) !! ci_uuid c = Some c' →
  ∃ r, Cipher_get_access_restrictions c u None e w = (Ok r, w) ∧
    (full_route (org_groups_enabled (cfg e)) (db w) u c → r = Some (false, false, true)) ∧
    (¬ full_route (org_groups_enabled (cfg e)) (db w) u c →
       flags_of (counted_route (org_groups_enabled (cfg e)) (db w) u (ci_uuid c)) r).
Proof. apply access_exact. Qed.

(** ** Visible ciphers *)

(** A row of the group tables is one of a group of the membership. *)
Lemma join_groups_elem d m gu g x :
  tables_ok d → (gu, g) ∈ join_groups d m → g = Some x →
  ∃ mm, m = Some mm ∧ groups d !! g_uuid x = Some x ∧ (g_uuid x, m_uuid mm) ∈ groups_users d ∧
    g_organizations_uuid x = m_org_uuid mm.
Proof.
  intros Hok H ->. unfold join_groups in H. sql_row H gu' Hgu. sql_row H g' Hg. simplify_eq.
  apply elem_of_left_join in Hg as [Hg Hon]. apply group_row in Hg; [|done].
  destruct gu' as [[gid mid]|]; sql_bools; try done. apply elem_of_left_join in Hgu as [Hgu Hon].
  destruct m as [m|]; sql_bools; try done. exists m. split_and!; try done. by apply elem_of_elements in Hgu.
Qed.
Lemma join_groups_match d m gid g :
  tables_ok d → groups d !! gid = Some g → (gid, m_uuid m) ∈ groups_users d → g_organizations_uuid g = m_org_uuid m →
  (Some (gid, m_uuid m), Some g) ∈ join_groups d (Some m).
Proof.
  intros Hok Hg Hgu Ho. pose proof (ok_groups _ Hok _ _ Hg) as Hgid. unfold join_groups.
  sql_intro (Some (gid, m_uuid m)); [|apply left_join_match; [by apply elem_of_elements|sql_true]].
  sql_intro (Some g); [by left|apply left_join_match; [apply group_row; [done|congruence]|sql_true]].
Qed.
Lemma cipher_groups_elem d wg cc m g cg :
  tables_ok d → (g, cg) ∈ cipher_groups d wg cc m → is_true (g_access_all <$> g) || is_not_null cg = true →
  wg = true ∧ ∃ mm x, m = Some mm ∧ groups d !! g_uuid x = Some x ∧ (g_uuid x, m_uuid mm) ∈ groups_users d ∧
    g_organizations_uuid x = m_org_uuid mm ∧
    (g_access_all x = true ∨
     ∃ a cgr, cc = Some a ∧ cg = Some cgr ∧ collections_groups d !! (a.2, g_uuid x) = Some cgr).
Proof.
  intros Hok H Hcond. unfold cipher_groups in H. destruct wg; [|sql_cond H; by simplify_eq]. split; [done|].
  apply list_elem_of_bind in H as ([gu g'] & H & Hgu). sql_row H cg' Hcg. injection H as -> ->.
  apply elem_of_left_join in Hcg. destruct g' as [x|].
  - destruct (join_groups_elem _ _ _ _ x Hok Hgu eq_refl) as (mm & -> & H1 & H2 & H3). exists mm, x. split_and!; try done.
    destruct (g_access_all x) eqn:Ha; [by left|right]. simpl in Hcond. destruct cg' as [cgr|]; [|by rewrite Ha in Hcond].
    destruct Hcg as [Hcg Hon]. apply collection_group_row in Hcg; [|done].
    destruct cc as [[a b]|]; sql_bools; try done. exists (a, cg_collections_uuid cgr), cgr. split_and!; [done|done|simpl; congruence].
  - destruct cg' as [cgr|]; [|done]. destruct Hcg as [_ ?]. by sql_bools.
Qed.

(** A listed cipher is owned, or the user is a confirmed member of its
    organization with a route that is not cut off. *)
Definition visible_route (with_groups : bool) (d : Db) (u : string) (c : Cipher) : Prop :=
  ci_user_uuid c = Some u ∨
  ∃ m, users_organizations d !! m_uuid m = Some m ∧ m_user_uuid m = u ∧ ci_organization_uuid c = Some (m_org_uuid m) ∧
    is_status MS_Confirmed m = true ∧
    (m_access_all m = true ∨ (∃ fl, user_route d u (ci_uuid c) fl) ∨
     with_groups = true ∧ ((∃ g, groups d !! g_uuid g = Some g ∧ g_access_all g = true ∧
        (g_uuid g, m_uuid m) ∈ groups_users d ∧ g_organizations_uuid g = m_org_uuid m) ∨
      ∃ fl, group_route d u (ci_uuid c) fl)).
Lemma visible_elem with_groups u ids d c :
  tables_ok d → c ∈ ciphers_of_user with_groups u true ids d →
  ciphers d !! ci_uuid c = Some c ∧ visible_route with_groups d u c.
Proof.
  intros Hok H. unfold ciphers_of_user in H. rewrite elem_of_remove_dups in H.
  sql_row H c0 Hc. sql_row H cc Hcc. sql_row H m Hm. sql_row H cu Hcu.
  apply list_elem_of_bind in H as ([g cg] & H & Hg). apply elem_of_guard_rows in H as [Hcond H]. sql_cond H. subst c0.
  apply andb_true_iff in Hcond as [Hcond _]. simpl in Hcond. rewrite orb_false_r in Hcond.
  apply cipher_row in Hc; [|done]. split; [done|]. apply elem_of_left_join in Hcc, Hm, Hcu.
  unfold owned_by_user in Hcond. destruct (null_eq (ci_user_uuid c) (Some u)) eqn:Ho; [left; by apply null_eq_Some|right].
  destruct (is_true (g_access_all <$> g) || is_not_null cg) eqn:Hgc.
  - destruct (cipher_groups_elem _ _ _ _ _ _ Hok Hg Hgc) as (-> & mm & x & -> & H1 & H2 & H3 & Hx).
    destruct Hm as [Hm Hon]. apply member_row in Hm; [|done]. sql_bools. exists mm. split_and!; try done.
    right. right. split; [done|]. destruct Hx as [Hx|(a & cgr & -> & -> & Hx)]; [left; by exists x|right].
    destruct Hcc as [Hcc Hon']. sql_bools. destruct a as [a b]. apply elem_of_elements in Hcc. simpl in *.
    exists (cg_flags cgr), b, (g_uuid x), x, (m_uuid mm), mm, cgr. split_and!; try done; sql_subst.
  - rewrite <- orb_assoc, Hgc, orb_false_r in Hcond. destruct m as [m|].
    2:{ exfalso. destruct cu as [cu|]; [|done]. destruct Hcu as [_ Hcu]. sql_bools. }
    destruct Hm as [Hm Hon]. apply member_row in Hm; [|done]. sql_bools. exists m. split_and!; try done.
    destruct (m_access_all m); [by left|right; left]. destruct cu as [cu|]; [|done].
    destruct Hcu as [Hcu Hon']. destruct cc as [[a b]|]; sql_bools; try done. apply user_collection_row in Hcu; [|done].
    destruct Hcc as [Hcc ?]. sql_bools. apply elem_of_elements in Hcc.
    exists (cu_flags cu), (cu_collection_uuid cu), cu. split_and!; [done|sql_subst|done].
Qed.

Lemma visible_full wg d u m g c :
  users_organizations d !! m_uuid m = Some m → m_user_uuid m = u → ci_organization_uuid c = Some (m_org_uuid m) →
  groups d !! g_uuid g = Some g → g_access_all g = true → (g_uuid g, m_uuid m) ∈ groups_users d →
  g_organizations_uuid g = m_org_uuid m → wg = true → full_route wg d u c.
Proof. intros. right. eexists. split; [done|]. right. split; [done|]. by exists (g_uuid g), g, (m_uuid m), m. Qed.
Lemma visible_has_route wg d u c :
  visible_route wg d u c → full_route wg d u c ∨ ∃ fl, user_route d u (ci_uuid c) fl ∨ wg = true ∧ group_route d u (ci_uuid c) fl.
Proof.
  intros [Ho|(m & Hm & Hu & Ho & Hs & Hr)]; [left; by left|].
  destruct Hr as [Ha|[[fl Hr]|(Hw & [(g & Hg & Ha & Hgu & Hgo)|[fl Hr]])]].
  - left. right. eexists. split; [done|]. left. exists (m_uuid m), m. split_and!; try done.
    unfold Membership_has_full_access. by rewrite Ha, (Hs : Membership_has_status m MS_Confirmed = true).
  - right. exists fl. by left.
  - left. by eapply visible_full.
  - right. exists fl. by right.
Qed.
Lemma find_by_user_run u v ids e w :
  Cipher_find_by_user u v ids e w = (Ok (ciphers_of_user (org_groups_enabled (cfg e)) u v ids (db w)), w).
Proof. done. Qed.

(** What is listed can be opened.  Every cipher that a user's vault lists is
    accessible to the user when asked for by itself, through groups too. *)
Theorem visible_accessible u ids e w l c :
  tables_ok (db w) → Cipher_find_by_user u true ids e w = (Ok l, w) → c ∈ l →
  ciphers (db w) !! ci_uuid c = Some c ∧ Cipher_is_accessible_to_user c u e w = (Ok true, w).
Proof.
  intros Hok Hrun Hc. rewrite find_by_user_run in Hrun. injection Hrun as <-.
  apply visible_elem in Hc as [Hs Hr]; [|done]. split; [done|].
  destruct (access_exact c c u e w Hok Hs) as (r & Hrun & Hfull & Hpart).
  unfold Cipher_is_accessible_to_user, mbind. rewrite Hrun. enough (is_not_null r = true) as -> by done.
  destruct (full_route_run e w Hok c u) as (b & _ & Hb). destruct b; [by rewrite Hfull by by apply Hb|].
  assert (¬ full_route (org_groups_enabled (cfg e)) (db w) u c) as Hn by (rewrite <- Hb; done).
  specialize (Hpart Hn). apply visible_has_route in Hr as [?|[fl Hr]]; [done|].
  destruct r as [r|]; [done|]. exfalso. apply Hpart. exists fl. destruct Hr as [Hr|[Hw Hr]]; [by left|].
  right. split; [|done]. intros [fl' Hfl]. apply Hpart. exists fl'. by left.
Qed.

(** The rows for a collection outlive the membership's state.  A user with a
    row that is not read-only for a collection of a cipher may write the
    cipher, although no membership of the user is confirmed, while the list of
    the user's ciphers leaves it out. *)
Theorem unconfirmed_member_may_write c u col cu e w :
  tables_ok (db w) → ciphers (db w) !! ci_uuid c = Some c → ci_user_uuid c ≠ Some u →
  (∀ k m, users_organizations (db w) !! k = Some m → m_user_uuid m = u → is_status MS_Confirmed m = false) →
  (ci_uuid c, col) ∈ ciphers_collections (db w) → users_collections (db w) !! (u, col) = Some cu →
  cu_read_only cu = false →
  Cipher_is_write_accessible_to_user c u e w = (Ok true, w) ∧
  ∀ ids l, Cipher_find_by_user u true ids e w = (Ok l, w) → c ∉ l.
Proof.
  intros Hok Hs Ho Hm Hcc Hcu Hro. split.
  - destruct (access_exact c c u e w Hok Hs) as (r & Hrun & Hfull & Hpart).
    unfold Cipher_is_write_accessible_to_user, mbind. rewrite Hrun.
    destruct (full_route_run e w Hok c u) as (b & _ & Hb). destruct b; [by rewrite Hfull by by apply Hb|].
    assert (user_route (db w) u (ci_uuid c) (cu_flags cu)) as Hr by by exists col, cu.
    assert (counted_route (org_groups_enabled (cfg e)) (db w) u (ci_uuid c) (cu_flags cu)) as Hr' by by left.
    specialize (Hpart ltac:(rewrite <- Hb; done)). destruct r as [[[ro hp] mn]|]; simpl in Hpart; [|destruct Hpart; eauto].
    destruct Hpart as (_ & [_ ->] & _); [done|]. eauto.
  - intros ids l Hl Hc. rewrite find_by_user_run in Hl. injection Hl as <-.
    apply visible_elem in Hc as [_ [?|(m & H1 & H2 & _ & H3 & _)]]; [done| |done]. by rewrite (Hm _ _ H1 H2) in H3.
Qed.

(** ** The conditions on tables can be checked *)

Definition tables_checked (d : Db) : Prop :=
  map_Forall (λ k c, ci_uuid c = k) (ciphers d) ∧ map_Forall (λ k c, c_uuid c = k) (collections d) ∧
  map_Forall (λ k cu, (cu_user_uuid cu, cu_collection_uuid cu) = k) (users_collections d) ∧
  map_Forall (λ k m, m_uuid m = k) (users_organizations d) ∧
  map_Forall (λ _ m, map_Forall (λ _ m', m_user_uuid m = m_user_uuid m' → m_org_uuid m = m_org_uuid m' → m = m')
    (users_organizations d)) (users_organizations d) ∧
  map_Forall (λ k g, g_uuid g = k) (groups d) ∧ map_Forall (λ k cg, CollectionGroup_key cg = k) (collections_groups d) ∧
  map_Forall (λ k f, f_uuid f = k) (folders d) ∧ map_Forall (λ k a, at_id a = k) (attachments d).
#[export] Instance tables_ok_dec d : Decision (tables_ok d).
Proof.
  destruct (decide (tables_checked d)) as [(H1 & H2 & H3 & H4 & H5 & H6 & H7 & H8 & H9)|H].
  - left. split; try done. intros k k' m m' Hm Hm'. exact (H5 k m Hm k' m' Hm').
  - right. intros [H1 H2 H3 H4 H5 H6 H7 H8 H9]. apply H. split_and!; try done.
    intros k m Hm k' m' Hm'. by apply (H5 k k').
Defined.

(** ** A vault *)

Module ToyVault.
Import ToyEnv ToyUsers.

Definition toy_cipher (id : string) (user org : option string) : Cipher :=
  mkCipher id 0 0 user org None 1 "name" None None "{}" None None None.
Definition toy_membership (id user : string) (status : Z) : Membership :=
  mkMembership id user "org" None false "" status 2 None None.
(** A cipher of an organization in two collections; alice has a read-only row
    for the first, and is in a group with a row for the second. *)
Definition toy_vault_db : Db := (db toy_world)
  <| ciphers := {["c1" := toy_cipher "c1" None (Some "org")]} |>
  <| collections := {["col1" := mkCollection "col1" "org" "one" None; "col2" := mkCollection "col2" "org" "two" None]} |>
  <| ciphers_collections := {[("c1", "col1"); ("c1", "col2")]} |>
  <| users_organizations := {["m1" := toy_membership "m1" "alice" 2; "m2" := toy_membership "m2" "bob" (-126)]} |>
  <| users_collections := {[("alice", "col1") := mkCollectionUser "alice" "col1" true false false;
                            ("bob", "col1") := mkCollectionUser "bob" "col1" false false false]} |>
  <| groups := {["g1" := mkGroup "g1" "org" "group" false None 0 0]} |>
  <| groups_users := {[("g1", "m1")]} |>
  <| collections_groups := {[("col2", "g1") := mkCollectionGroup "col2" "g1" false false false]} |>.
Definition toy_vault : World := toy_world <| db := toy_vault_db |>.
Lemma toy_vault_ok : tables_ok (db toy_vault).
Proof. apply (bool_decide_unpack (tables_ok (db toy_vault))). vm_compute. exact I. Qed.
Definition c1 : Cipher := toy_cipher "c1" None (Some "org").

Lemma Cipher_access_exact_witness :
  Cipher_get_access_restrictions c1 "alice" None (toy_env 0) toy_vault = (Ok (Some (true, false, false)), toy_vault) ∧
  flags_of (counted_route true (db toy_vault) "alice" "c1") (Some (true, false, false)).
Proof.
  destruct (Cipher_access_exact c1 c1 "alice" (toy_env 0) toy_vault) as (r & Hr & _ & Hp);
    [exact toy_vault_ok|reflexivity|].
  assert (r = Some (true, false, false)) as ->
    by (apply (f_equal fst) in Hr; vm_compute in Hr; by simplify_eq).
  split; [exact Hr|]. apply Hp. intros Hf. 
  destruct (full_route_run (toy_env 0) toy_vault toy_vault_ok c1 "alice") as (b & Hb & Hspec).
  apply Hspec in Hf as ->. apply (f_equal fst) in Hb. vm_compute in Hb. done.
Defined.
Lemma visible_accessible_witness :
  ∃ l, Cipher_find_by_user "alice" true [] (toy_env 0) toy_vault = (Ok l, toy_vault) ∧ c1 ∈ l ∧
    Cipher_is_accessible_to_user c1 "alice" (toy_env 0) toy_vault = (Ok true, toy_vault).
Proof.
  exists [c1]. assert (Cipher_find_by_user "alice" true [] (toy_env 0) toy_vault = (Ok [c1], toy_vault)) as Hl by by vm_compute.
  split; [exact Hl|]. split; [by left|].
  apply (visible_accessible "alice" [] (toy_env 0) toy_vault [c1] c1); [exact toy_vault_ok|exact Hl|by left].
Defined.
Lemma unconfirmed_member_may_write_witness :
  Cipher_is_write_accessible_to_user c1 "bob" (toy_env 0) toy_vault = (Ok true, toy_vault) ∧
  ∀ ids l, Cipher_find_by_user "bob" true ids (toy_env 0) toy_vault = (Ok l, toy_vault) → c1 ∉ l.
Proof.
  apply (unconfirmed_member_may_write c1 "bob" "col1" (mkCollectionUser "bob" "col1" false false false));
    try done; [exact toy_vault_ok|].
  assert (map_Forall (λ _ m, m_user_uuid m = "bob" → is_status MS_Confirmed m = false)
            (users_organizations (db toy_vault))) as H by (apply (bool_decide_unpack _); vm_compute; exact I). exact H.
Defined.
End ToyVault.
