(* ===== verification/VaultSync.v ===== *)
(** * Restrictions in a synchronization

    [Cipher_get_access_restrictions] has a second form, which reads tables
    gathered once for all ciphers ([CipherSyncData]).  This file relates it to
    the first one: without groups they agree; with groups the second is at least
    as permissive, and may be more so. *)

From stdpp Require Import base strings numbers pretty gmap list.
From S2P Require Import Prelude Store JsonUtil Queries Users Orgs AuthRequests TwoFactor Collections Folders Ciphers VaultAccess.

(** ** Maps built from lists *)

Lemma collect_map_snoc {V} (l : list (string * V)) kv : collect_map (l ++ [kv]) = <[kv.1 := kv.2]> (collect_map l).
Proof. unfold collect_map. by rewrite foldl_app. Qed.
Lemma collect_map_Some {V} (l : list (string * V)) k v : collect_map l !! k = Some v → (k, v) ∈ l.
Proof.
  induction l as [|[k' v'] l IH] using rev_ind; [done|]. rewrite collect_map_snoc, elem_of_app. simpl.
  destruct (decide (k' = k)) as [->|Hne].
  - rewrite lookup_insert_eq. intros [= ->]. right. by left.
  - rewrite lookup_insert_ne by done. intros H. left. by apply IH.
Qed.
Lemma collect_map_None {V} (l : list (string * V)) k v : collect_map l !! k = None → (k, v) ∉ l.
Proof.
  induction l as [|[k' v'] l IH] using rev_ind; [intros _; apply not_elem_of_nil|].
  rewrite collect_map_snoc, elem_of_app, list_elem_of_singleton. simpl.
  destruct (decide (k' = k)) as [->|Hne]; [by rewrite lookup_insert_eq|]. rewrite lookup_insert_ne by done.
  naive_solver.
Qed.
Lemma collect_map_unique {V} (l : list (string * V)) k v :
  (∀ v', (k, v') ∈ l → v' = v) → (k, v) ∈ l → collect_map l !! k = Some v.
Proof.
  intros Hu Hin. destruct (collect_map l !! k) as [v'|] eqn:E; [|by destruct (collect_map_None _ _ v E)].
  f_equal. by apply Hu, collect_map_Some.
Qed.
Lemma elem_of_group_by_key {V} (l : list (string * V)) k v : v ∈ default [] (group_by_key l !! k) ↔ (k, v) ∈ l.
Proof.
  unfold group_by_key. induction l as [|[k' v'] l IH] using rev_ind; [by rewrite !elem_of_nil|].
  rewrite foldl_app, elem_of_app, list_elem_of_singleton. simpl. destruct (decide (k' = k)) as [->|Hne].
  - rewrite lookup_insert_eq. simpl. rewrite elem_of_app, IH, list_elem_of_singleton. naive_solver.
  - rewrite lookup_insert_ne, IH by done. naive_solver.
Qed.

Lemma bool_of_iff (a b : bool) : (a = true ↔ b = true) → a = b.
Proof. destruct a, b; naive_solver. Qed.
Lemma bool_of_iff_false (a b : bool) : (a = false ↔ b = false) → a = b.
Proof. destruct a, b; naive_solver. Qed.

(** ** Adding a route *)

#[local] Arguments flags_of : simpl never.

Lemma flags_of_ext (P Q : Flags → Prop) r : (∀ fl, P fl ↔ Q fl) → flags_of P r → flags_of Q r.
Proof. intros HPQ. destruct r as [[[ro hp] mn]|]; unfold flags_of; by setoid_rewrite HPQ. Qed.
Lemma flags_of_first (P : Flags → Prop) f : flags_of P None → flags_of (λ fl, P fl ∨ fl = f) (Some f).
Proof.
  intros HP. assert (∀ fl, ¬ P fl) as Hn by (intros fl Hfl; apply HP; eauto). destruct f as [[r h] m]. unfold flags_of.
  assert (∀ Q : Flags → Prop, (∃ fl, (P fl ∨ fl = (r, h, m)) ∧ Q fl) ↔ Q (r, h, m)) as E.
  { intros Q. split; [|eauto]. intros (fl & [Hfl| ->] & HQ); [by destruct (Hn fl)|done]. }
  split; [eauto|]. by rewrite (E (λ fl, fl.1.1 = false)), (E (λ fl, fl.1.2 = false)), (E (λ fl, fl.2 = true)).
Qed.
Lemma flags_of_more (P : Flags → Prop) ro hp mn r h m :
  flags_of P (Some (ro, hp, mn)) → flags_of (λ fl, P fl ∨ fl = (r, h, m)) (Some (ro && r, hp && h, mn || m)).
Proof.
  intros (_ & H1 & H2 & H3). unfold flags_of.
  assert (∀ Q : Flags → Prop, (∃ fl, (P fl ∨ fl = (r, h, m)) ∧ Q fl) ↔ (∃ fl, P fl ∧ Q fl) ∨ Q (r, h, m)) as E.
  { intros Q. split; [|intros [(fl & ? & ?)|?]; eauto]. intros (fl & [Hfl| ->] & HQ); eauto. }
  split; [eauto|]. rewrite (E (λ fl, fl.1.1 = false)), (E (λ fl, fl.1.2 = false)), (E (λ fl, fl.2 = true)).
  by rewrite !andb_false_iff, orb_true_iff, H1, H2, H3.
Qed.

(** The combined row of a collection says what [flags_of] makes of its rows. *)
Definition rows_at (l : list CollectionGroup) (k : string) (fl : Flags) : Prop :=
  ∃ cg, cg ∈ l ∧ cg_collections_uuid cg = k ∧ fl = cg_flags cg.
Lemma rows_at_snoc l cg k fl :
  rows_at (l ++ [cg]) k fl ↔ rows_at l k fl ∨ cg_collections_uuid cg = k ∧ fl = cg_flags cg.
Proof. unfold rows_at. setoid_rewrite elem_of_app. setoid_rewrite list_elem_of_singleton. naive_solver. Qed.
Lemma combine_groups_spec l k : flags_of (rows_at l k) (cg_flags <$> combine_groups l !! k).
Proof.
  unfold combine_groups. induction l as [|cg l IH] using rev_ind.
  { simpl. rewrite lookup_empty. intros (fl & cg & Hcg & _). by apply elem_of_nil in Hcg. }
  rewrite foldl_app. simpl. set (m := foldl _ _ _) in *. destruct (decide (cg_collections_uuid cg = k)) as [Hk|Hne].
  - rewrite Hk, lookup_insert_eq. destruct (m !! k) as [x|]; simpl in *.
    + eapply flags_of_ext; [|by apply (flags_of_more (rows_at l k))]. intros fl. rewrite rows_at_snoc.
      unfold cg_flags. naive_solver.
    + eapply flags_of_ext; [|by apply (flags_of_first (rows_at l k))]. intros fl. rewrite rows_at_snoc. naive_solver.
  - rewrite lookup_insert_ne by done. eapply flags_of_ext; [|exact IH]. intros fl. rewrite rows_at_snoc. naive_solver.
Qed.

(** ** The gathered tables *)

(** Rows belong together: a user's row for a collection comes with the
    collection and a membership of its organization; a group's row for a
    collection is within one organization; so are the members of a group. *)
Record links_ok (d : Db) : Prop := {
  lo_users : ∀ u col cu, users_collections d !! (u, col) = Some cu →
    ∃ c mid m, collections d !! col = Some c ∧ users_organizations d !! mid = Some m ∧
      m_user_uuid m = u ∧ m_org_uuid m = c_org_uuid c;
  lo_groups : ∀ col gid cg g, collections_groups d !! (col, gid) = Some cg → groups d !! gid = Some g →
    ∃ c, collections d !! col = Some c ∧ c_org_uuid c = g_organizations_uuid g;
  lo_members : ∀ gid mid g m, (gid, mid) ∈ groups_users d → groups d !! gid = Some g →
    users_organizations d !! mid = Some m → g_organizations_uuid g = m_org_uuid m;
}.

(** A row of a group of the user for a collection. *)
Definition group_route_at (d : Db) (u col : string) (fl : Flags) : Prop :=
  ∃ gid g mid m cg, groups d !! gid = Some g ∧ (gid, mid) ∈ groups_users d ∧
    users_organizations d !! mid = Some m ∧ m_user_uuid m = u ∧ g_organizations_uuid g = m_org_uuid m ∧
    collections_groups d !! (col, gid) = Some cg ∧ fl = cg_flags cg.
Lemma group_route_iff d u cid fl :
  group_route d u cid fl ↔ ∃ col, (cid, col) ∈ ciphers_collections d ∧ group_route_at d u col fl.
Proof. unfold group_route, group_route_at. naive_solver. Qed.

Section gathered.
Context (d : Db) (Hok : tables_ok d) (Hlo : links_ok d).

Lemma pairs_stored u cc : cc ∈ collection_pairs u d → cc ∈ ciphers_collections d.
Proof.
  unfold collection_pairs. rewrite elem_of_remove_dups. intros H.
  sql_row H cc' Hcc. sql_row H c Hc. sql_row H m Hm. sql_row H cu Hcu.
  apply list_elem_of_bind in H as ([gu g] & H & Hg). sql_row H cg Hcg. by subst.
Qed.
(** A pair is listed when one of its joined rows passes the filter. *)
Lemma pairs_listed u cid col c m cu gu g cg :
  (cid, col) ∈ ciphers_collections d → collections d !! col = Some c → users_organizations d !! m_uuid m = Some m →
  m_user_uuid m = u → m_org_uuid m = c_org_uuid c →
  cu ∈ left_join (rows (users_collections d))
    (λ cu, bool_decide (cu_collection_uuid cu = col) && bool_decide (cu_user_uuid cu = u)) →
  (gu, g) ∈ join_groups d (Some m) →
  cg ∈ left_join (rows (collections_groups d))
    (λ cg, bool_decide (cg_collections_uuid cg = col) && null_eq (Some (cg_groups_uuid cg)) (g_uuid <$> g)) →
  null_eq (cu_user_uuid <$> cu) (Some u) || m_access_all m || atype_le_admin (Some m) ||
    is_true (g_access_all <$> g) || is_not_null cg = true →
  (cid, col) ∈ collection_pairs u d.
Proof.
  intros H1 H2 H3 H4 H5 H6 H7 H8 H9. pose proof (ok_collections _ Hok _ _ H2) as Hc.
  unfold collection_pairs. rewrite elem_of_remove_dups.
  sql_intro (cid, col); [|done]. sql_intro c; [|apply collection_row; [done|congruence]|sql_true].
  sql_intro m; [|by apply member_row|sql_true]. sql_intro cu; [|done].
  apply list_elem_of_bind. exists (gu, g). split; [|done]. sql_intro cg; [|done].
  apply elem_of_guard_rows. split; [done|by left].
Qed.
Lemma pairs_listed_user u cid col cu :
  (cid, col) ∈ ciphers_collections d → users_collections d !! (u, col) = Some cu → (cid, col) ∈ collection_pairs u d.
Proof.
  intros H1 H2. destruct (lo_users _ Hlo _ _ _ H2) as (c & mid & m & Hc & Hm & Hu & Ho).
  pose proof (ok_members _ Hok _ _ Hm) as <-. pose proof (ok_users_collections _ Hok _ _ H2) as [= Ha Hb].
  destruct (left_join_nonempty (elements (groups_users d)) (λ gu, null_eq (Some gu.2) (m_uuid <$> Some m))) as [gu Hgu].
  destruct (left_join_nonempty (rows (groups d)) (λ g, null_eq (Some (g_uuid g)) (fst <$> gu) &&
    null_eq (Some (g_organizations_uuid g)) (m_org_uuid <$> Some m))) as [g Hg].
  destruct (left_join_nonempty (rows (collections_groups d))
    (λ cg, bool_decide (cg_collections_uuid cg = col) && null_eq (Some (cg_groups_uuid cg)) (g_uuid <$> g))) as [cg Hcg].
  eapply (pairs_listed u cid col c m (Some cu) gu g cg); eauto.
  - apply left_join_match; [apply user_collection_row; [done|congruence]|sql_true].
  - sql_intro gu; [|done]. sql_intro g; [by left|done].
  - simpl. by rewrite bool_decide_true.
Qed.
Lemma pairs_listed_group u cid col fl :
  (cid, col) ∈ ciphers_collections d → group_route_at d u col fl → (cid, col) ∈ collection_pairs u d.
Proof.
  intros H1 (gid & g & mid & m & cg & Hg & Hgu & Hm & Hu & Ho & Hcg & ->).
  destruct (lo_groups _ Hlo _ _ _ _ Hcg Hg) as (c & Hc & Hco).
  pose proof (ok_members _ Hok _ _ Hm) as <-. pose proof (ok_collections_groups _ Hok _ _ Hcg) as [= Ha Hb].
  pose proof (ok_groups _ Hok _ _ Hg) as Hgid.
  destruct (left_join_nonempty (rows (users_collections d))
    (λ cu, bool_decide (cu_collection_uuid cu = col) && bool_decide (cu_user_uuid cu = u))) as [cu Hcu].
  eapply (pairs_listed u cid col c m cu _ (Some g) (Some cg)); eauto.
  - congruence.
  - by eapply join_groups_match.
  - apply left_join_match; [apply collection_group_row; [done|congruence]|sql_true].
  - simpl. by rewrite !orb_true_r.
Qed.

Lemma elem_of_group_rows u cg :
  cg ∈ group_rows_of_user u d ↔ group_route_at d u (cg_collections_uuid cg) (cg_flags cg) ∧
    collections_groups d !! CollectionGroup_key cg = Some cg ∧
    ∃ g mid m, groups d !! cg_groups_uuid cg = Some g ∧ (cg_groups_uuid cg, mid) ∈ groups_users d ∧
      users_organizations d !! mid = Some m ∧ m_user_uuid m = u ∧ g_organizations_uuid g = m_org_uuid m.
Proof.
  split.
  - intros H. unfold group_rows_of_user in H. sql_row H cg' Hcg. sql_row H gu Hgu. sql_row H m Hm. sql_row H g Hg.
    sql_row H c Hc. destruct gu as [gid mid]. sql_bools. apply collection_group_row in Hcg; [|done].
    apply member_row in Hm; [|done]. apply group_row in Hg; [|done].
    match goal with H : g_uuid g = _ |- _ => rewrite H in Hg end.
    split; [|split; [done|by exists g, (m_uuid m), m]]. by exists (cg_groups_uuid cg'), g, (m_uuid m), m, cg'.
  - intros (_ & Hcg & g & mid & m & Hg & Hgu & Hm & Hu & Ho). pose proof (ok_members _ Hok _ _ Hm) as Hmid.
    pose proof (ok_groups _ Hok _ _ Hg) as Hgid. destruct (lo_groups _ Hlo _ _ _ _ Hcg Hg) as (c & Hc & Hco).
    pose proof (ok_collections _ Hok _ _ Hc) as Hcid.
    unfold group_rows_of_user. sql_intro cg; [|by apply collection_group_row].
    sql_intro (cg_groups_uuid cg, mid); [|done|sql_true]. sql_intro m; [|apply member_row; [done|congruence]|sql_true].
    sql_intro g; [|apply group_row; [done|congruence]|sql_true]. sql_intro c; [|apply collection_row; [done|congruence]|sql_true].
    apply elem_of_guard_rows. split; [sql_true|by left].
Qed.
Lemma rows_at_group_route u col fl : rows_at (group_rows_of_user u d) col fl ↔ group_route_at d u col fl.
Proof.
  unfold rows_at. split.
  - intros (cg & Hcg & <- & ->). by apply elem_of_group_rows in Hcg as [? _].
  - intros H. pose proof H as (gid & g & mid & m & cg & Hg & Hgu & Hm & Hu & Ho & Hcg & ->).
    pose proof (ok_collections_groups _ Hok _ _ Hcg) as [= <- <-]. exists cg. split; [|done].
    apply elem_of_group_rows. split; [done|]. split; [done|]. by exists g, mid, m.
Qed.
Lemma elem_of_full_group_orgs u org : org ∈ full_group_orgs u d ↔ full_group d u org.
Proof.
  unfold full_group_orgs. rewrite elem_of_remove_dups. split.
  - intros H. sql_row H gu Hgu. sql_row H m Hm. sql_row H g Hg. destruct gu as [gid mid]. sql_bools.
    apply member_row in Hm; [|done]. apply group_row in Hg; [|done]. by exists (g_uuid g), g, (m_uuid m), m.
  - intros (gid & g & mid & m & Hg & Ha & <- & Hgu & Hm & Hu). pose proof (ok_members _ Hok _ _ Hm) as Hmid.
    pose proof (ok_groups _ Hok _ _ Hg) as Hgid. pose proof (lo_members _ Hlo _ _ _ _ Hgu Hg Hm) as Ho.
    sql_intro (gid, mid); [|done]. sql_intro m; [|apply member_row; [done|congruence]|sql_true].
    sql_intro g; [|apply group_row; [done|congruence]|sql_true]. apply elem_of_guard_rows. split; [sql_true|by left].
Qed.
End gathered.

(** ** The restrictions from the gathered tables *)

(** One route per collection: the user's row, or else the combined rows of the
    user's groups. *)
Definition sync_route (with_groups : bool) (d : Db) (u cid : string) (fl : Flags) : Prop :=
  ∃ col, (cid, col) ∈ ciphers_collections d ∧
    match users_collections d !! (u, col) with
    | Some cu => fl = cu_flags cu
    | None => with_groups = true ∧ flags_of (group_route_at d u col) (Some fl)
    end.

Section sync.
Context (e : Env) (w : World) (Hok : tables_ok (db w)) (Hlo : links_ok (db w)).

(** What the restrictions read of the gathered data. *)
Definition gathered (u : string) (sync : CipherSyncData) : Prop :=
  cs_cipher_collections sync = group_by_key (collection_pairs u (db w)) ∧
  cs_members sync = collect_map ((λ m, (m_org_uuid m, m)) <$>
    load (λ m, is_user u m && is_status MS_Confirmed m) (users_organizations (db w))) ∧
  cs_user_collections sync = collect_map ((λ uc, (cu_collection_uuid uc, uc)) <$>
    load (λ cu, bool_decide (cu_user_uuid cu = u)) (users_collections (db w))) ∧
  cs_user_collections_groups sync =
    (if org_groups_enabled (cfg e) then combine_groups (group_rows_of_user u (db w)) else ∅) ∧
  cs_user_group_full_access_for_organizations sync =
    (if org_groups_enabled (cfg e) then list_to_set (full_group_orgs u (db w)) else ∅).
Lemma CipherSyncData_new_run u t : ∃ sync, CipherSyncData_new u t e w = (Ok sync, w) ∧ gathered u sync.
Proof.
  unfold gathered, CipherSyncData_new.
  cbv [mbind conf ask query mret FolderCipher_find_by_user Favorite_get_all_cipher_uuid_by_user Archive_find_by_user
       Membership_get_orgs_by_user members Attachment_find_all_by_user_and_orgs Cipher_get_collections_with_cipher_by_user
       Membership_find_confirmed_by_user CollectionUser_find_by_user CollectionGroup_find_by_user
       Group_get_orgs_by_user_with_full_access].
  destruct t, (org_groups_enabled (cfg e)); (eexists; split; [reflexivity|done]).
Qed.

Lemma gathered_user_row u sync col :
  gathered u sync → cs_user_collections sync !! col = users_collections (db w) !! (u, col).
Proof.
  intros (_ & _ & -> & _). destruct (users_collections (db w) !! (u, col)) as [cu|] eqn:E.
  - pose proof (ok_users_collections _ Hok _ _ E) as [= Ha Hb]. apply collect_map_unique.
    + intros cu' H. apply list_elem_of_fmap in H as (cu'' & [= Hc <-] & Hl). apply elem_of_load in Hl as [Hp [k Hk]].
      pose proof (ok_users_collections _ Hok _ _ Hk) as <-. apply bool_decide_eq_true in Hp. congruence.
    + apply list_elem_of_fmap. exists cu. split; [congruence|]. apply elem_of_load. split; [by apply bool_decide_eq_true|eauto].
  - destruct (collect_map _ !! col) as [cu|] eqn:E'; [|done]. apply collect_map_Some in E'.
    apply list_elem_of_fmap in E' as (cu' & [= Hc <-] & Hl). apply elem_of_load in Hl as [Hp [k Hk]].
    pose proof (ok_users_collections _ Hok _ _ Hk) as <-. apply bool_decide_eq_true in Hp. congruence.
Qed.

Lemma gathered_rows u sync cid fl :
  gathered u sync → fl ∈ sync_rows sync cid ↔ sync_route (org_groups_enabled (cfg e)) (db w) u cid fl.
Proof.
  intros Hg. pose proof (gathered_user_row u sync) as Hu. destruct Hg as (Hc & Hm & Huc & Hgr & Hfg).
  unfold sync_rows, sync_route. rewrite list_elem_of_omap. setoid_rewrite Hu; [|done]. rewrite Hgr.
  rewrite Hc. setoid_rewrite elem_of_group_by_key.
  pose proof (combine_groups_spec (group_rows_of_user u (db w))) as Hcg. split.
  - intros (col & Hcol & Hfl). exists col. split; [by eapply pairs_stored|].
    destruct (users_collections (db w) !! (u, col)); [by simplify_eq|].
    destruct (org_groups_enabled (cfg e)); [|by rewrite lookup_empty in Hfl]. split; [done|].
    specialize (Hcg col). rewrite Hfl in Hcg. eapply flags_of_ext; [|exact Hcg]. intros. by apply rows_at_group_route.
  - intros (col & Hcol & Hfl). exists col. destruct (users_collections (db w) !! (u, col)) as [cu|] eqn:E.
    + split; [by eapply pairs_listed_user|by subst].
    + destruct Hfl as [-> Hfl]. pose proof Hfl as Hfl'. destruct fl as [[r h] mn]. destruct Hfl as ([fl Hfl] & _).
      split; [by eapply pairs_listed_group|]. specialize (Hcg col). apply (flags_of_ext _ (group_route_at (db w) u col)) in Hcg;
        [|intros; by apply rows_at_group_route].
      destruct (cg_flags <$> _) as [[[r' h'] mn']|]; [|by destruct Hcg; eauto].
      destruct Hcg as (_ & A1 & A2 & A3), Hfl' as (_ & B1 & B2 & B3).
      by rewrite (bool_of_iff_false r' r), (bool_of_iff_false h' h), (bool_of_iff mn' mn)
        by (by rewrite ?A1, ?B1, ?A2, ?B2, ?A3, ?B3).
Qed.

Lemma gathered_full u sync c :
  gathered u sync → ∃ b,
  (if Cipher_is_owned_by_user c u then mret true
   else let* org := Cipher_is_in_full_access_org c u (Some sync) in
        if org then mret true else Cipher_is_in_full_access_group c u (Some sync)) e w = (Ok b, w) ∧
  (b = true ↔ full_route (org_groups_enabled (cfg e)) (db w) u c).
Proof.
  intros (_ & Hm & _ & _ & Hfg). unfold full_route, Cipher_is_owned_by_user, owned_by_user.
  destruct (null_eq (ci_user_uuid c) (Some u)) eqn:E.
  { apply null_eq_Some in E. eexists. split; [done|]. naive_solver. }
  assert (ci_user_uuid c ≠ Some u) as Hne by (rewrite <- null_eq_Some; congruence).
  unfold Cipher_is_in_full_access_org, Cipher_is_in_full_access_group.
  destruct (ci_organization_uuid c) as [org|]; cbv [mbind mret conf ask].
  2:{ eexists. split; [by destruct (org_groups_enabled (cfg e))|]. naive_solver. }
  assert (from_option Membership_has_full_access false (cs_members sync !! org) = true ↔ full_member (db w) u org) as Hfm.
  { rewrite Hm. split.
    - destruct (collect_map _ !! org) as [m|] eqn:Em; [|done]. intros Hf. apply collect_map_Some in Em.
      apply list_elem_of_fmap in Em as (m' & [= -> <-] & Hl). apply elem_of_load in Hl as [Hp [k Hk]]. unfold is_user in Hp.
      sql_bools. by exists k, m.
    - intros (k & m & Hk & Hu & Ho & Hf). rewrite (collect_map_unique _ _ m); [done| |].
      + intros m' H. apply list_elem_of_fmap in H as (m'' & [= Ho' <-] & Hl). apply elem_of_load in Hl as [Hp [k' Hk']].
        unfold is_user in Hp. sql_bools. eapply (ok_members_unique _ Hok); [done|done|congruence..].
      + apply list_elem_of_fmap. exists m. split; [congruence|]. apply elem_of_load. split; [|eauto].
        unfold Membership_has_full_access in Hf. apply andb_true_iff in Hf as [_ Hf].
        unfold is_user, is_status. by rewrite bool_decide_true, Hf. }
  destruct (from_option _ _ _); [eexists; split; [done|]; naive_solver|].
  destruct (org_groups_enabled (cfg e)); simpl; (eexists; split; [done|]); [|naive_solver].
  rewrite Hfg, bool_decide_eq_true, elem_of_list_to_set, elem_of_full_group_orgs by done. naive_solver.
Qed.

Lemma sync_access_exact u sync c :
  gathered u sync →
  ∃ r, Cipher_get_access_restrictions c u (Some sync) e w = (Ok r, w) ∧
    (full_route (org_groups_enabled (cfg e)) (db w) u c → r = Some (false, false, true)) ∧
    (¬ full_route (org_groups_enabled (cfg e)) (db w) u c →
       flags_of (sync_route (org_groups_enabled (cfg e)) (db w) u (ci_uuid c)) r).
Proof.
  intros Hg. unfold Cipher_get_access_restrictions. destruct (gathered_full u sync c Hg) as (b & Hb & Hfull).
  unfold mbind at 1. rewrite Hb. destruct b; (eexists; split; [reflexivity|]).
  { split; [done|]. intros []. by apply Hfull. }
  split; [intros H%Hfull; done|]. intros _. apply flags_of_list. intros fl. by apply gathered_rows.
Qed.
End sync.

(** ** The two forms compared *)

(** Where one form has a route, the other has one that is no stricter. *)
(** The combined row of a collection exists; needed where a group's row does. *)
Lemma combined_exists d u col fl :
  tables_ok d → links_ok d → group_route_at d u col fl → ∃ fl', flags_of (group_route_at d u col) (Some fl').
Proof.
  intros Hok Hlo Hr. pose proof (combine_groups_spec (group_rows_of_user u d) col) as Hc.
  apply (flags_of_ext _ (group_route_at d u col)) in Hc; [|intros; by apply rows_at_group_route].
  destruct (cg_flags <$> _) as [fl'|]; [eauto|]. destruct Hc. eauto.
Qed.
Lemma counted_in_sync wg d u cid fl :
  tables_ok d → links_ok d → counted_route wg d u cid fl →
  ∃ fl', sync_route wg d u cid fl' ∧ (fl.1.1 = false → fl'.1.1 = false) ∧ (fl.1.2 = false → fl'.1.2 = false) ∧
    (fl.2 = true → fl'.2 = true).
Proof.
  intros Hok Hlo [(col & cu & Hcol & Hcu & ->)|(Hn & -> & Hr)].
  - exists (cu_flags cu). split; [|done]. exists col. by rewrite Hcu.
  - apply group_route_iff in Hr as (col & Hcol & Hr). destruct (combined_exists _ _ _ _ Hok Hlo Hr) as [fl' Hfl'].
    exists fl'. split.
    + exists col. split; [done|]. destruct (users_collections d !! (u, col)) as [cu|] eqn:E; [|done].
      destruct Hn. exists (cu_flags cu), col, cu. done.
    + destruct fl' as [[r h] m], Hfl' as (_ & H1 & H2 & H3). simpl. split_and!.
      * intros Hm. apply H1. eauto.
      * intros Hm. apply H2. eauto.
      * intros Hm. apply H3. eauto.
Qed.
Lemma sync_has_counted wg d u cid fl :
  sync_route wg d u cid fl → ¬ (∃ fl, counted_route wg d u cid fl) → False.
Proof.
  intros (col & Hcol & Hfl) Hn. destruct (users_collections d !! (u, col)) as [cu|] eqn:E.
  - apply Hn. exists (cu_flags cu). left. by exists col, cu.
  - destruct Hfl as [-> Hfl]. destruct fl as [[r h] m], Hfl as ([fl Hfl] & _). apply Hn. exists fl. right. split_and!; [|done|].
    + intros [fl' Hu]. apply Hn. exists fl'. by left.
    + apply group_route_iff. eauto.
Qed.
Lemma sync_route_no_groups d u cid fl : sync_route false d u cid fl ↔ counted_route false d u cid fl.
Proof.
  unfold sync_route, counted_route, user_route. split.
  - intros (col & Hcol & Hfl). destruct (users_collections d !! (u, col)) as [cu|] eqn:E; [|by destruct Hfl].
    left. by exists col, cu.
  - intros [(col & cu & Hcol & Hcu & ->)|(_ & ? & _)]; [|done]. exists col. by rewrite Hcu.
Qed.
Lemma flags_of_unique P r r' : flags_of P r → flags_of P r' → r = r'.
Proof.
  destruct r as [[[a b] c]|], r' as [[[a' b'] c']|]; unfold flags_of; [|naive_solver..|done].
  intros (_ & H1 & H2 & H3) (_ & H1' & H2' & H3').
  by rewrite (bool_of_iff_false a a'), (bool_of_iff_false b b'), (bool_of_iff c c')
    by (by rewrite ?H1, ?H1', ?H2, ?H2', ?H3, ?H3').
Qed.

(** [r'] grants all that [r] grants. *)
Definition at_least_as_permissive (r r' : option Flags) : Prop :=
  match r, r' with
  | None, None => True
  | Some (ro, hp, mn), Some (ro', hp', mn') =>
     (ro = false → ro' = false) ∧ (hp = false → hp' = false) ∧ (mn = true → mn' = true)
  | _, _ => False
  end.
Lemma permissive_flags wg d u cid r r' :
  tables_ok d → links_ok d → flags_of (counted_route wg d u cid) r → flags_of (sync_route wg d u cid) r' →
  at_least_as_permissive r r'.
Proof.
  intros Hok Hlo Hr Hr'. destruct r as [[[ro hp] mn]|], r' as [[[ro' hp'] mn']|]; simpl.
  - destruct Hr as (_ & H1 & H2 & H3), Hr' as (_ & H1' & H2' & H3'). split_and!.
    + rewrite H1, H1'. intros (fl & Hfl & Hm). destruct (counted_in_sync _ _ _ _ _ Hok Hlo Hfl) as (fl' & Hs & Hro & _). eauto.
    + rewrite H2, H2'. intros (fl & Hfl & Hm). destruct (counted_in_sync _ _ _ _ _ Hok Hlo Hfl) as (fl' & Hs & _ & Hhp & _). eauto.
    + rewrite H3, H3'. intros (fl & Hfl & Hm). destruct (counted_in_sync _ _ _ _ _ Hok Hlo Hfl) as (fl' & Hs & _ & _ & Hmn). eauto.
  - destruct Hr as ([fl Hfl] & _). apply Hr'. destruct (counted_in_sync _ _ _ _ _ Hok Hlo Hfl) as (fl' & Hs & _). eauto.
  - destruct Hr' as ([fl Hfl] & _). by eapply sync_has_counted.
  - done.
Qed.

(** The restrictions that a synchronization shows against those that a
    request is held to.  On tables whose rows belong together, both forms give
    access to the same ciphers, and the gathered form is at least as
    permissive; where groups are disabled they agree. *)
Theorem sync_access_permissive c c' u t e w :
  tables_ok (db w) → links_ok (db w) → ciphers (db w) !! ci_uuid c = Some c' →
  ∃ sync r r',
    CipherSyncData_new u t e w = (Ok sync, w) ∧
    Cipher_get_access_restrictions c u None e w = (Ok r, w) ∧
    Cipher_get_access_restrictions c u (Some sync) e w = (Ok r', w) ∧
    at_least_as_permissive r r' ∧ (org_groups_enabled (cfg e) = false → r' = r).
Proof.
  intros Hok Hlo Hc. destruct (CipherSyncData_new_run e w u t) as (sync & Hnew & Hg).
  destruct (access_exact c c' u e w Hok Hc) as (r & Hr & Hfull & Hpart).
  destruct (sync_access_exact e w Hok Hlo u sync c Hg) as (r' & Hr' & Hfull' & Hpart').
  exists sync, r, r'. do 3 (split; [done|]).
  destruct (full_route_run e w Hok c u) as ([|] & _ & Hb).
  { rewrite Hfull, Hfull' by by apply Hb. by split. }
  specialize (Hpart ltac:(rewrite <- Hb; done)). specialize (Hpart' ltac:(rewrite <- Hb; done)). split.
  - by eapply permissive_flags.
  - intros Hgr. rewrite Hgr in *. eapply flags_of_unique; [exact Hpart'|].
    eapply flags_of_ext; [|exact Hpart]. intros fl. symmetry. apply sync_route_no_groups.
Qed.

Module ToySync.
Import ToyEnv ToyUsers ToyVault.
Lemma toy_links_ok : links_ok (db toy_vault).
Proof.
  split.
  - assert (map_Forall (λ x cu, map_Exists (λ k c, k = x.2 ∧ map_Exists (λ _ m, m_user_uuid m = x.1 ∧
      m_org_uuid m = c_org_uuid c) (users_organizations (db toy_vault))) (collections (db toy_vault)))
      (users_collections (db toy_vault))) as H by (apply (bool_decide_unpack _); vm_compute; exact I).
    intros u col cu Hcu. apply (H (u, col)) in Hcu as (k & c & Hc & -> & mid & m & Hm & Hu & Ho). by exists c, mid, m.
  - assert (map_Forall (λ x cg, map_Forall (λ k g, k = x.2 → map_Exists (λ k c, k = x.1 ∧
      c_org_uuid c = g_organizations_uuid g) (collections (db toy_vault))) (groups (db toy_vault)))
      (collections_groups (db toy_vault))) as H by (apply (bool_decide_unpack _); vm_compute; exact I).
    intros col gid cg g Hcg Hg. apply (H (col, gid)) in Hcg. destruct (Hcg gid g Hg eq_refl) as (k & c & Hc & -> & Ho). by exists c.
  - assert (set_Forall (λ x, map_Forall (λ k g, k = x.1 → map_Forall (λ k m, k = x.2 →
      g_organizations_uuid g = m_org_uuid m) (users_organizations (db toy_vault))) (groups (db toy_vault)))
      (groups_users (db toy_vault))) as H by (apply (bool_decide_unpack _); vm_compute; exact I).
    intros gid mid g m Hgu Hg Hm. by apply (H (gid, mid) Hgu gid g Hg eq_refl mid m Hm).
Qed.

(** A request is refused what the synchronization shows as allowed: the cipher is
    read-only by alice's own row, and editable by the row of her group. *)
Lemma sync_access_permissive_witness : ∃ sync,
  Cipher_get_access_restrictions c1 "alice" None (toy_env 0) toy_vault = (Ok (Some (true, false, false)), toy_vault) ∧
  Cipher_get_access_restrictions c1 "alice" (Some sync) (toy_env 0) toy_vault =
    (Ok (Some (false, false, false)), toy_vault).
Proof.
  destruct (sync_access_permissive c1 c1 "alice" CST_User (toy_env 0) toy_vault)
    as (sync & r & r' & Hs & Hr & Hr' & _); [exact toy_vault_ok|exact toy_links_ok|reflexivity|].
  exists sync. apply (f_equal fst) in Hs. vm_compute in Hs. injection Hs as <-. split; by vm_compute.
Defined.
End ToySync.
