(* ===== verification/VaultSafety.v ===== *)
(** * What a request may change in a vault

    Every handler of [Vault] and of [Folders], whatever its outcome, changes
    ciphers, their attachments and their collections only after a check that the
    requester may write the cipher, and otherwise only what belongs to the
    requester.  [untouched] says what stays; it composes, so that most of the
    proofs follow the code, one [within_*] lemma per operation. *)

From stdpp Require Import base strings numbers pretty gmap list relations.
From S2P Require Import Prelude Store JsonUtil Queries Users Orgs AuthRequests TwoFactor TotpReplay Collections Folders.
From S2P Require Import Ciphers VaultAccess Vault.

(** ** Permissions *)

(** The user may write a stored cipher. *)
Definition may_write (e : Env) (d : Db) (u : string) (c : Cipher) : Prop :=
  full_route (org_groups_enabled (cfg e)) d u c ∨
  ∃ fl, counted_route (org_groups_enabled (cfg e)) d u (ci_uuid c) fl ∧ (fl.1.1 = false ∨ fl.2 = true).
Lemma may_write_run e w u c :
  tables_ok (db w) → ciphers (db w) !! ci_uuid c = Some c →
  ∃ b, Cipher_is_write_accessible_to_user c u e w = (Ok b, w) ∧ (b = true → may_write e (db w) u c).
Proof.
  intros Hok Hc. destruct (access_exact c c u e w Hok Hc) as (r & Hr & Hfull & Hpart).
  unfold Cipher_is_write_accessible_to_user, mbind. rewrite Hr. eexists. split; [done|]. intros Hb.
  destruct (full_route_run e w Hok c u) as ([|] & _ & Hf); [left; by apply Hf|right].
  specialize (Hpart ltac:(rewrite <- Hf; done)). destruct r as [[[ro hp] mn]|]; [|done].
  destruct Hpart as (_ & H1 & _ & H3). apply orb_true_iff in Hb as [Hb|Hb].
  - apply negb_true_iff in Hb. apply H1 in Hb as (fl & ? & ?). eauto.
  - apply H3 in Hb as (fl & ? & ?). eauto.
Qed.
Lemma editable_run e w u c :
  tables_ok (db w) → ciphers (db w) !! ci_uuid c = Some c →
  ∃ b, Cipher_is_in_editable_collection_by_user c u e w = (Ok b, w) ∧ (b = true → may_write e (db w) u c).
Proof.
  intros Hok Hc. destruct (access_exact c c u e w Hok Hc) as (r & Hr & Hfull & Hpart).
  unfold Cipher_is_in_editable_collection_by_user, mbind. rewrite Hr. eexists. split; [done|]. intros Hb.
  destruct (full_route_run e w Hok c u) as ([|] & _ & Hf); [left; by apply Hf|right].
  specialize (Hpart ltac:(rewrite <- Hf; done)). destruct r as [[[ro hp] mn]|]; [|done].
  destruct Hpart as (_ & H1 & _ & H3). apply orb_true_iff in Hb as [Hb|Hb].
  - apply andb_true_iff in Hb as [Hb _]. apply negb_true_iff in Hb. apply H1 in Hb as (fl & ? & ?). eauto.
  - apply H3 in Hb as (fl & ? & ?). eauto.
Qed.

(** The user may add ciphers to a collection: as a member of its organization,
    whatever the state of the membership, who is an owner or admin or has access
    to everything, or by a row that is not read-only. *)
Definition collection_writable (e : Env) (d : Db) (u col : string) : Prop :=
  ∃ c m, collections d !! col = Some c ∧ users_organizations d !! m_uuid m = Some m ∧ m_user_uuid m = u ∧
    m_org_uuid m = c_org_uuid c ∧
    (atype_le_admin (Some m) = true ∨ m_access_all m = true ∨
     (∃ cu, users_collections d !! (u, col) = Some cu ∧ cu_read_only cu = false) ∨
     org_groups_enabled (cfg e) = true ∧ ∃ gid, (gid, m_uuid m) ∈ groups_users d ∧
       ((∃ g, groups d !! gid = Some g ∧ g_access_all g = true ∧ g_organizations_uuid g = m_org_uuid m) ∨
        ∃ cg, collections_groups d !! (col, gid) = Some cg ∧ cg_read_only cg = false)).
Lemma collection_groups_row d wg c cu m r :
  tables_ok d → r ∈ join_collection_groups d wg c cu (Some m) →
  r_c r = c ∧ r_cu r = cu ∧ r_m r = Some m ∧
  (∀ g, r_g r = Some g → wg = true ∧ (g_uuid g, m_uuid m) ∈ groups_users d ∧ groups d !! g_uuid g = Some g ∧
     g_organizations_uuid g = m_org_uuid m) ∧
  (∀ cg, r_cg r = Some cg → wg = true ∧ (cg_groups_uuid cg, m_uuid m) ∈ groups_users d ∧
     collections_groups d !! (c_uuid c, cg_groups_uuid cg) = Some cg).
Proof.
  intros Hok H. unfold join_collection_groups in H. destruct wg; [|sql_cond H; by subst].
  apply list_elem_of_bind in H as ([gu g] & H & Hgu). sql_row H cg Hcg. subst r. simpl. split_and!; try done.
  - intros x ->. destruct (join_groups_elem _ _ _ _ x Hok Hgu eq_refl) as (mm & [= <-] & H1 & H2 & H3). done.
  - intros x ->. split; [done|]. apply elem_of_left_join in Hcg as [Hcg Hon]. apply collection_group_row in Hcg; [|done].
    unfold join_groups in Hgu. sql_row Hgu gu' Hgu'. sql_row Hgu g' Hg'. simplify_eq.
    destruct gu' as [[gid mid]|]; [|by sql_bools]. apply elem_of_left_join in Hgu' as [Hgu' Hon']. sql_bools.
    apply elem_of_elements in Hgu'. split; [done|]. sql_subst.
Qed.
Lemma collection_writable_run e w u c :
  tables_ok (db w) →
  ∃ b, Collection_is_writable_by_user c u e w = (Ok b, w) ∧ (b = true → collection_writable e (db w) u (c_uuid c)).
Proof.
  intros Hok. eexists. split; [done|]. cbv beta. intros Hb. apply existsb_elem in Hb as (r & H & Hcond).
  unfold writable_rows in H. sql_row H c' Hc. sql_row H m Hm. sql_row H cu Hcu. sql_bools.
  apply collection_row in Hc; [|done]. apply member_row in Hm; [|done].
  apply collection_groups_row in H as (_ & Hrcu & Hrm & Hg & Hcg); [|done]. rewrite Hrcu, Hrm in Hcond.
  apply elem_of_left_join in Hcu. exists c', m. match goal with E : c_uuid c' = _ |- _ => rewrite E in * end.
  split_and!; try done. repeat (apply orb_true_iff in Hcond as [Hcond|Hcond]).
  - by left.
  - right. left. apply null_eq_Some in Hcond. by simplify_eq/=.
  - right. right. left. destruct cu as [cu|]; [|done]. destruct Hcu as [Hcu Hon].
    apply user_collection_row in Hcu; [|done]. apply andb_true_iff in Hcond as [_ Hcond]. apply null_eq_Some in Hcond.
    sql_bools. exists cu. split; [|done]. congruence.
  - right. right. right. destruct (r_g r) as [g|]; [|done]. destruct (Hg g eq_refl) as (-> & Ha & Hb & Hc1).
    split; [done|]. exists (g_uuid g). split; [done|]. left. exists g. apply null_eq_Some in Hcond. by simplify_eq/=.
  - right. right. right. destruct (r_cg r) as [cg|]; [|done]. destruct (Hcg cg eq_refl) as (-> & Ha & Hb).
    split; [done|]. exists (cg_groups_uuid cg). split; [done|]. right. exists cg. split; [done|].
    by apply bool_decide_eq_true in Hcond.
Qed.

(** ** What stays *)

(** The tables that permissions are read from. *)
Definition context (d : Db) :=
  (collections d, users_collections d, users_organizations d, groups d, groups_users d, collections_groups d).

Lemma context_writable e d d' u col :
  context d' = context d → collection_writable e d' u col → collection_writable e d u col.
Proof. unfold context, collection_writable. by intros [= -> -> -> -> -> ->]. Qed.

Section guarded.
Context (e : Env) (u : string) (w0 : World).

(** An identifier the server has drawn since [w0]. *)
Definition drawn (k : string) : Prop :=
  ∃ i, tick w0 ≤ i ∧ (k = uuid_at e i ∨ k = encode_hexlower e (random_bytes_at e i 10)).
(** A cipher the user may write, or one created since. *)
Definition touchable (k : string) : Prop :=
  drawn k ∨ ∃ c, ciphers (db w0) !! k = Some c ∧ may_write e (db w0) u c.
(** No folder of another user, no attachment of a cipher out of reach. *)
Definition own_folder (w : World) (k : string) : Prop := ∀ f, folders (db w) !! k = Some f → f_user_uuid f = u.
Definition own_attachment (w : World) (a : string) : Prop :=
  ∀ r, attachments (db w) !! a = Some r → touchable (at_cipher_uuid r).

(** Since [w0], the tables of permissions are as they were; so are the ciphers
    that are not [touchable] with their links, attachments and files; new links
    are to collections the user may write; the folders of other users are as they
    were; and so is what other users hold on a cipher, its place in a folder of
    theirs, their mark as a favourite and their archive mark, except that it may
    be gone if the cipher is touchable: nothing is ever set for them. *)
Record untouched (w : World) : Prop := {
  un_tick : tick w0 ≤ tick w;
  un_context : context (db w) = context (db w0);
  un_ciphers : ∀ k, touchable k ∨ ciphers (db w) !! k = ciphers (db w0) !! k;
  un_links : ∀ k, touchable k ∨
    ∀ col, (k, col) ∈ ciphers_collections (db w) ↔ (k, col) ∈ ciphers_collections (db w0);
  un_new_links : ∀ k col, (k, col) ∈ ciphers_collections (db w) →
    (k, col) ∈ ciphers_collections (db w0) ∨ collection_writable e (db w0) u col;
  un_attachments : ∀ a, drawn a ∨ attachments (db w) !! a = attachments (db w0) !! a ∨
    own_attachment w0 a ∧ own_attachment w a;
  un_files : ∀ k a, touchable k ∨ attachment_files w !! (k, a) = attachment_files w0 !! (k, a);
  un_folders : ∀ k, drawn k ∨ folders (db w) !! k = folders (db w0) !! k ∨ own_folder w0 k ∧ own_folder w k;
  un_folder_pairs : ∀ k, drawn k ∨ own_folder w0 k ∨
    ∀ c, ((c, k) ∈ folders_ciphers (db w) ↔ (c, k) ∈ folders_ciphers (db w0)) ∨
      touchable c ∧ (c, k) ∉ folders_ciphers (db w);
  un_favorites : ∀ v c, v = u ∨ ((v, c) ∈ favorites (db w) ↔ (v, c) ∈ favorites (db w0)) ∨
    touchable c ∧ (v, c) ∉ favorites (db w);
  un_archives : ∀ v c, v = u ∨ archives (db w) !! (v, c) = archives (db w0) !! (v, c) ∨
    touchable c ∧ archives (db w) !! (v, c) = None;
}.
(** Also, the tables stay in order. *)
Definition stays (w : World) : Prop := tables_ok (db w) ∧ untouched w.
Definition guarded {A} (m : M A) : Prop := ∀ w, stays w → wp m e w (λ _ w', stays w').

Lemma stays_refl : tables_ok (db w0) → stays w0.
Proof. intros Hok. split; [done|]. split; auto; naive_solver. Qed.

(** ** Composition *)

Lemma guarded_bind {A B} (m : M A) (k : A → M B) : guarded m → (∀ a, guarded (k a)) → guarded (mbind m k).
Proof.
  intros Hm Hk w Hw. apply wp_bind. eapply wp_mono; [by apply Hm|]. intros [a|x|] w1 Hw1; simpl; try done.
  by apply Hk.
Qed.
Lemma guarded_for_each {A} (l : list A) f : (∀ x, x ∈ l → guarded (f x)) → guarded (for_each l f).
Proof.
  intros Hf. induction l as [|x l IH]; simpl; [by intros w Hw|].
  apply guarded_bind; [apply Hf; by left|]. intros _. apply IH. intros y Hy. apply Hf. by right.
Qed.
Lemma guarded_collect {A B} (l : list A) (f : A → M B) : (∀ x, guarded (f x)) → guarded (collect l f).
Proof.
  intros Hf. induction l as [|x l IH]; simpl; [by intros w Hw|].
  apply guarded_bind; [done|]. intros y. apply guarded_bind; [done|]. by intros ys w Hw.
Qed.
Lemma guarded_mignore m : guarded m → guarded (mignore m).
Proof. intros Hm w Hw. apply wp_mignore. eapply wp_mono; [by apply Hm|]. by intros []. Qed.
Lemma guarded_reads {A} (m : M A) : reads m → guarded m.
Proof. intros Hm w Hw. by apply wp_reads. Qed.
(** A query whose answer matters. *)
Lemma guarded_query {A B} (f : Db → A) (k : A → M B) :
  (∀ w, stays w → wp (k (f (db w))) e w (λ _ w', stays w')) → guarded (mbind (query f) k).
Proof. intros Hk w Hw. do 3 wp_step. by apply Hk. Qed.
Lemma guarded_next {A B} (f : Env → nat → A) (k : A → M B) :
  (∀ i, tick w0 ≤ i → guarded (k (f e i))) → guarded (mbind (next f) k).
Proof.
  intros Hk w [Hok Hw]. do 3 wp_step. apply Hk; [by apply un_tick|]. split; [done|].
  destruct Hw. split; simpl; auto; lia.
Qed.

(** The tables of the vault; what leaves them alone is guarded. *)
Definition vault_tables (d : Db) :=
  (context d, (ciphers d, attachments d, ciphers_collections d), (folders d, folders_ciphers d, favorites d, archives d)).
Lemma tables_ok_same d d' : vault_tables d' = vault_tables d → tables_ok d → tables_ok d'.
Proof.
  unfold vault_tables, context. intros [= E1 E2 E3 E4 E5 E6 E7 E8 E9 E10 E11 E12 E13] [].
  split; rewrite ?E1, ?E2, ?E3, ?E4, ?E5, ?E6, ?E7, ?E8, ?E10; auto.
Qed.
Lemma stays_same w w' :
  vault_tables (db w') = vault_tables (db w) → attachment_files w' = attachment_files w → tick w ≤ tick w' →
  stays w → stays w'.
Proof.
  intros E Ef Et [Hok H]. split; [by eapply tables_ok_same|]. unfold vault_tables in E.
  injection E as E1 E2 E3 E4 E5 E6 E7 E8 E9 E10 E11 E12 E13. destruct H.
  split; unfold own_folder, own_attachment, context in *;
    rewrite ?Ef, ?E1, ?E2, ?E3, ?E4, ?E5, ?E6, ?E7, ?E8, ?E9, ?E10, ?E11, ?E12, ?E13; auto; lia.
Qed.
Lemma guarded_exec f : (∀ d, vault_tables (f d) = vault_tables d) → guarded (exec f).
Proof. intros Hf w Hw. apply wp_exec. apply (stays_same w); [apply Hf|done..]. Qed.
Lemma guarded_send_mail m : guarded (send_mail m).
Proof. intros w Hw. apply wp_send_mail; [|done]. by apply (stays_same w). Qed.

(** ** Writes *)

(** One table changed: every other part of [untouched] is as before. *)
Ltac one_table Hw Hok Hs :=
  destruct Hw as [Hok Hs]; split; [try by destruct Hok|
    destruct Hs as [H1 H2 H3 H4 H5 H6 H7 H8 H9 H10 H11]; split; unfold own_folder, own_attachment in *; simpl; try done].

(** The marks on a touchable cipher go. *)
Lemma archives_filtered (m m0 : gmap (string * string) Z) v k c :
  touchable k → v = u ∨ m !! (v, c) = m0 !! (v, c) ∨ touchable c ∧ m !! (v, c) = None →
  let m' := filter (λ '(p, _), ¬ p.2 = k) m in
  v = u ∨ m' !! (v, c) = m0 !! (v, c) ∨ touchable c ∧ m' !! (v, c) = None.
Proof.
  intros Ht H m'. destruct (decide (c = k)) as [->|Hne].
  - right. right. split; [done|]. apply map_lookup_filter_None. right. intros t _ Hn. by apply Hn.
  - assert (m' !! (v, c) = m !! (v, c)) as ->; [|done]. apply option_eq. intros t. unfold m'. rewrite map_lookup_filter_Some. naive_solver.
Qed.
Lemma guarded_save_cipher r c :
  touchable (ci_uuid c) → guarded (exec (λ d, save_cipher_row (r d) c d)).
Proof.
  intros Ht w Hw. apply wp_exec. unfold save_cipher_row, cascade_archives. one_table Hw Hok Hs.
  - destruct Hok. case_match; (split; simpl; try done; intros k c' Hk; apply lookup_insert_Some in Hk as [[<- <-]|[_ Hk]]; auto).
  - by case_match.
  - intros k. destruct (decide (k = ci_uuid c)) as [->|Hne]; [by left|]. destruct (H3 k) as [|H]; [by left|right].
    rewrite <- H. case_match; simpl; by rewrite lookup_insert_ne.
  - by case_match.
  - by case_match.
  - by case_match.
  - by case_match.
  - by case_match.
  - by case_match.
  - intros v k. case_match; simpl; [|done]. by apply archives_filtered.
Qed.
Lemma guarded_remove_cipher k :
  touchable k →
  guarded (exec (λ d, (cascade_archives (λ p, p.2 = k) d) <| ciphers := delete k (ciphers d) |>)).
Proof.
  intros Ht w Hw. apply wp_exec. one_table Hw Hok Hs.
  - destruct Hok. split; simpl; try done. intros k' c' Hk. apply lookup_delete_Some in Hk as [_ Hk]. auto.
  - intros k'. destruct (decide (k' = k)) as [->|Hne]; [by left|]. by rewrite lookup_delete_ne.
  - intros v k'. by apply archives_filtered.
Qed.
Lemma guarded_add_link k col :
  touchable k → collection_writable e (db w0) u col →
  guarded (exec (λ d, d <| ciphers_collections := {[(k, col)]} ∪ ciphers_collections d |>)).
Proof.
  intros Ht Hc w Hw. apply wp_exec. one_table Hw Hok Hs.
  - intros k'. destruct (decide (k' = k)) as [->|Hne]; [by left|]. destruct (H4 k') as [|H]; [by left|right].
    intros col'. rewrite <- H. set_solver.
  - intros k' col' [?|?]%elem_of_union; [right|auto]. set_solver.
Qed.
Lemma guarded_drop_links k s' :
  touchable k → (∀ s k' col, k' ≠ k → (k', col) ∈ s' s ↔ (k', col) ∈ s) → (∀ s, s' s ⊆ s) →
  guarded (exec (λ d, d <| ciphers_collections := s' (ciphers_collections d) |>)).
Proof.
  intros Ht Hne Hsub w Hw. apply wp_exec. one_table Hw Hok Hs; [|set_solver].
  intros k'. destruct (decide (k' = k)) as [->|?]; [by left|]. destruct (H4 k') as [|H]; [by left|right].
  intros col. rewrite <- H. by apply Hne.
Qed.

(** Attachments *)
Definition attachment_ok (a : string) : Prop := drawn a ∨ own_attachment w0 a.
Lemma attachment_back w a r :
  stays w → attachments (db w) !! a = Some r → touchable (at_cipher_uuid r) → attachment_ok a.
Proof.
  intros [_ Hw] Ha Hr. destruct (un_attachments w Hw a) as [H|[H|[H _]]]; [by left| |by right].
  right. intros r' Hr'. congruence.
Qed.
Lemma guarded_save_attachment a : touchable (at_cipher_uuid a) → attachment_ok (at_id a) → guarded (Attachment_save a).
Proof.
  intros Ht Ha w Hw. apply wp_exec. one_table Hw Hok Hs.
  - destruct Hok. split; simpl; try done. intros k r Hk. apply lookup_insert_Some in Hk as [[<- <-]|[_ Hk]]; auto.
  - intros k. destruct (decide (k = at_id a)) as [->|Hne].
    + destruct Ha as [|Ha]; [auto|]. right. right. split; [done|]. intros r. rewrite lookup_insert_eq. naive_solver.
    + by rewrite lookup_insert_ne.
Qed.
Lemma guarded_attachment_files f k :
  touchable k → (∀ m k' a, k' ≠ k → f m !! (k', a) = m !! (k', a)) →
  ∀ w, stays w → stays (w <| attachment_files := f (attachment_files w) |>).
Proof.
  intros Ht Hf w Hw. one_table Hw Hok Hs. intros k' a. destruct (decide (k' = k)) as [->|Hne]; [by left|].
  by rewrite Hf.
Qed.
Lemma guarded_Attachment_delete a : touchable (at_cipher_uuid a) → attachment_ok (at_id a) → guarded (Attachment_delete a).
Proof.
  intros Ht Ha. apply guarded_bind.
  - intros w Hw. apply wp_exec. one_table Hw Hok Hs.
    + destruct Hok. split; simpl; try done. intros k r Hk. apply lookup_delete_Some in Hk as [_ Hk]. auto.
    + intros k. destruct (decide (k = at_id a)) as [->|Hne].
      * destruct Ha as [|Ha]; [auto|]. right. right. split; [done|]. intros r. by rewrite lookup_delete_eq.
      * by rewrite lookup_delete_ne.
  - intros _. apply guarded_bind; [apply guarded_reads; unfold attachments_operator; solve_reads|].
    intros _ w Hw. unfold wp. destruct (storage_available e); [|done]. simpl.
    apply (guarded_attachment_files (delete (Attachment_get_file_path a)) (at_cipher_uuid a)); [done| |done].
    intros m k' a' Hne. apply lookup_delete_ne. intros [= E _]. by apply Hne.
Qed.
Lemma guarded_save_file k a content b : touchable k → guarded (save_attachment_file (k, a) content b).
Proof.
  intros Ht. apply guarded_bind; [apply guarded_reads; unfold attachments_operator; solve_reads|].
  intros _ w Hw. unfold wp. case_match; [|done]. simpl.
  apply (guarded_attachment_files (insert (k, a) content) k); [done| |done].
  intros m k' a' Hne. apply lookup_insert_ne. intros [= E _]. by apply Hne.
Qed.
Lemma guarded_delete_attachments k : touchable k → guarded (Attachment_delete_all_by_cipher k).
Proof.
  intros Ht. apply guarded_query. intros w Hw. apply guarded_for_each; [|done].
  intros a Ha. apply elem_of_load in Ha as [Hk [id Ha]]. apply bool_decide_eq_true in Hk. subst k.
  pose proof (ok_attachments _ (proj1 Hw) _ _ Ha) as <-.
  apply guarded_Attachment_delete; [done|]. by eapply attachment_back.
Qed.

(** Folders *)
Definition folder_ok (k : string) : Prop := drawn k ∨ own_folder w0 k.
Lemma folder_back w k f : stays w → folders (db w) !! k = Some f → f_user_uuid f = u → folder_ok k.
Proof.
  intros [_ Hw] Hf Hu. destruct (un_folders w Hw k) as [H|[H|[H _]]]; [by left| |by right].
  right. intros f' Hf'. congruence.
Qed.
Lemma guarded_folder_pairs s' :
  (∀ s c k, (c, k) ∈ s' s ↔ (c, k) ∈ s) ∨ 
  (∃ c, touchable c ∧ (∀ s c' k, c' ≠ c → (c', k) ∈ s' s ↔ (c', k) ∈ s) ∧ ∀ s k, (c, k) ∉ s' s) ∨
  (∃ k, folder_ok k ∧ ∀ s c k', k' ≠ k → (c, k') ∈ s' s ↔ (c, k') ∈ s) →
  guarded (exec (λ d, d <| folders_ciphers := s' (folders_ciphers d) |>)).
Proof.
  intros H w Hw. apply wp_exec. one_table Hw Hok Hs. intros k.
  destruct (H9 k) as [|[|Hk]]; [auto..|].
  destruct H as [H|[(c & Hc & H & Hgone)|(k' & Hk' & H)]].
  - right. right. intros c'. rewrite H. apply Hk.
  - right. right. intros c'. destruct (decide (c' = c)) as [->|Hne]; [right; by split|]. rewrite H by done. apply Hk.
  - destruct (decide (k = k')) as [->|Hne]; [destruct Hk'; auto|]. right. right. intros c'. rewrite H by done. apply Hk.
Qed.
Lemma guarded_folder_row f k : folder_ok k →
  (∀ m k', k' ≠ k → f m !! k' = m !! k') → (∀ m x, f m !! k = Some x → f_uuid x = k ∧ f_user_uuid x = u) →
  guarded (exec (λ d, d <| folders := f (folders d) |>)).
Proof.
  intros Hk Hne Heq w Hw. apply wp_exec. one_table Hw Hok Hs.
  - destruct Hok. split; simpl; try done. intros k' x Hx. destruct (decide (k' = k)) as [->|?]; [by eapply Heq|].
    rewrite Hne in Hx by done. auto.
  - intros k'. destruct (decide (k' = k)) as [->|?]; [|by rewrite Hne]. destruct Hk as [|Hk]; [auto|].
    right. right. split; [done|]. intros x Hx. by eapply Heq.
Qed.

(** The user's favourites and archive marks. *)
Lemma guarded_favorites s' :
  (∀ s v c, v ≠ u → (v, c) ∈ s' s ↔ (v, c) ∈ s) ∨
  (∃ k, touchable k ∧ (∀ s v c, c ≠ k → (v, c) ∈ s' s ↔ (v, c) ∈ s) ∧ ∀ s v, (v, k) ∉ s' s) →
  guarded (exec (λ d, d <| favorites := s' (favorites d) |>)).
Proof.
  intros H w Hw. apply wp_exec. one_table Hw Hok Hs. intros v c.
  destruct H as [H|(k & Hk & H & Hgone)].
  - destruct (decide (v = u)); [auto|]. rewrite H by done. apply H10.
  - destruct (decide (c = k)) as [->|?]; [auto|]. rewrite H by done. apply H10.
Qed.
Lemma guarded_archives f :
  (∀ m v c, v ≠ u → f m !! (v, c) = m !! (v, c)) → guarded (exec (λ d, d <| archives := f (archives d) |>)).
Proof.
  intros H w Hw. apply wp_exec. one_table Hw Hok Hs. intros v c. destruct (decide (v = u)); [auto|].
  rewrite H by done. auto.
Qed.

(** ** Operations *)

Lemma guarded_draw {A} (f : Env → nat → A) : guarded (next f).
Proof. intros w Hw. apply wp_next. apply (stays_same w); [done..|simpl; lia|done]. Qed.
(** What the result of a step satisfies. *)
Definition yields {A} (m : M A) (P : A → Prop) : Prop := ∀ w, wp m e w (λ r _, ∀ a, r = Ok a → P a).
Lemma guarded_yields {A B} (m : M A) (k : A → M B) (P : A → Prop) :
  guarded m → yields m P → (∀ a, P a → guarded (k a)) → guarded (mbind m k).
Proof.
  intros Hm HP Hk w Hw. specialize (Hm w Hw). specialize (HP w). apply wp_bind. unfold wp in *.
  destruct (m e w) as [[a|x|] w']; simpl in *; [|done..]. apply Hk; auto.
Qed.

Ltac solve_guarded :=
  repeat first
    [ progress intros
    | lazymatch goal with
      | |- guarded (mbind _ _) => apply guarded_bind
      | |- guarded (for_each _ _) => apply guarded_for_each
      | |- guarded (collect _ _) => apply guarded_collect
      | |- guarded (mignore _) => apply guarded_mignore
      | |- guarded (exec _) => apply guarded_exec; done
      | |- guarded (next _) => apply guarded_draw
      | |- guarded get_uuid => apply guarded_draw
      | |- guarded (if ?b then _ else _) => destruct b
      | |- guarded (match ?o with Some _ => _ | None => _ end) => destruct o
      end
    | solve [eauto 2 with guarded]
    | solve [apply guarded_reads; solve_reads] ].
Create HintDb guarded.

Lemma guarded_revision v : guarded (User_update_uuid_revision v).
Proof. unfold User_update_uuid_revision, User_update_revision_impl. solve_guarded. Qed.
#[local] Hint Resolve guarded_revision : guarded.
Lemma guarded_users_revision c : guarded (Cipher_update_users_revision c).
Proof. unfold Cipher_update_users_revision, update_revisions. solve_guarded. Qed.
Lemma guarded_log_event t s o a dt ip : guarded (log_event t s o a dt ip).
Proof. unfold log_event, log_event_impl, Event_new, Event_save. solve_guarded. Qed.
#[local] Hint Resolve guarded_users_revision guarded_log_event : guarded.
Lemma guarded_log_cipher h t c : guarded (log_cipher h t c).
Proof. unfold log_cipher, log_as. solve_guarded. Qed.
Lemma guarded_log_as h t s o : guarded (log_as h t s o).
Proof. unfold log_as. solve_guarded. Qed.
Lemma guarded_notify_cipher c : guarded (notify_cipher c).
Proof. unfold notify_cipher. solve_guarded. Qed.
#[local] Hint Resolve guarded_log_cipher guarded_log_as guarded_notify_cipher : guarded.

Lemma guarded_Cipher_save c : touchable (ci_uuid c) → guarded (Cipher_save c).
Proof.
  intros Ht. unfold Cipher_save. apply guarded_bind; [apply guarded_users_revision|]. intros _.
  apply guarded_bind; [solve_guarded|]. intros t. apply guarded_bind; [solve_guarded|]. intros r.
  apply guarded_bind; [|solve_guarded]. by apply (guarded_save_cipher (λ d, r d (ci_uuid c)) (c <| ci_updated_at := t |>)).
Qed.
Lemma guarded_Cipher_delete c : touchable (ci_uuid c) → guarded (Cipher_delete c).
Proof.
  intros Ht. apply guarded_bind; [apply guarded_users_revision|]. intros _. repeat (apply guarded_bind; [|intros _]).
  - apply guarded_folder_pairs. right. left. exists (ci_uuid c). set_solver.
  - apply (guarded_drop_links (ci_uuid c)); set_solver.
  - by apply guarded_delete_attachments.
  - apply guarded_favorites. right. exists (ci_uuid c). set_solver.
  - by apply guarded_remove_cipher.
Qed.
Lemma guarded_collection_revision col : guarded (CollectionCipher_update_users_revision col).
Proof. unfold CollectionCipher_update_users_revision, Collection_update_users_revision. solve_guarded. Qed.
Lemma guarded_link k col :
  touchable k → collection_writable e (db w0) u col → guarded (CollectionCipher_save k col).
Proof. intros. apply guarded_bind; [apply guarded_collection_revision|]. intros _. by apply guarded_add_link. Qed.
Lemma guarded_unlink k col : touchable k → guarded (CollectionCipher_delete k col).
Proof.
  intros. apply guarded_bind; [apply guarded_collection_revision|]. intros _.
  apply (guarded_drop_links k (λ s, s ∖ {[(k, col)]})); [done|set_solver..].
Qed.

(** The user's marks *)
Lemma guarded_set_favorite c b : guarded (Cipher_set_favorite c b u).
Proof.
  destruct b as [b|]; simpl; [|solve_guarded]. apply guarded_bind; [solve_guarded|]. intros old.
  destruct old, b; solve_guarded.
  - apply (guarded_favorites (λ s, s ∖ {[(u, ci_uuid c)]})). left. set_solver.
  - apply (guarded_favorites (λ s, {[(u, ci_uuid c)]} ∪ s)). left. set_solver.
Qed.
Lemma guarded_set_archived_at c t : guarded (Cipher_set_archived_at c t u).
Proof.
  apply guarded_bind; [solve_guarded|]. intros _. apply (guarded_archives (insert (u, ci_uuid c) t)). intros m v k Hv. apply lookup_insert_ne. congruence.
Qed.
Lemma guarded_unarchive c : guarded (Cipher_unarchive c u).
Proof.
  apply guarded_bind; [solve_guarded|]. intros _. apply (guarded_archives (delete (u, ci_uuid c))). intros m v k Hv. apply lookup_delete_ne. congruence.
Qed.
Lemma guarded_archived_date c d : guarded (set_archived_date c d u).
Proof. unfold set_archived_date. solve_guarded. apply guarded_set_archived_at. Qed.
#[local] Hint Resolve guarded_set_favorite guarded_archived_date guarded_set_archived_at guarded_unarchive : guarded.

(** Moving to a folder of the user *)
Definition folder_arg_ok (f : option string) : Prop := match f with Some k => folder_ok k | None => True end.
Lemma folder_of_ok w c k : stays w → folder_of c u (db w) = Some k → folder_ok k.
Proof.
  intros Hw. unfold folder_of. intros Hh. apply head_Some_elem_of in Hh. apply list_elem_of_fmap in Hh as ([c' k'] & -> & H).
  sql_cond H. unfold folder_pairs in H. sql_row H fc Hfc. sql_row H f Hf. sql_bools.
  apply elem_of_rows in Hf as [k Hf]. pose proof (ok_folders _ (proj1 Hw) _ _ Hf) as Hk.
  eapply folder_back; [done| |done]. simplify_eq/=. congruence.
Qed.
Lemma guarded_pair_added c k : folder_ok k → guarded (FolderCipher_save c k).
Proof. intros Hk. apply (guarded_folder_pairs (λ s, {[(c, k)]} ∪ s)). right. right. exists k. set_solver. Qed.
Lemma guarded_pair_removed c k : folder_ok k → guarded (FolderCipher_delete (c, k)).
Proof. intros Hk. apply (guarded_folder_pairs (λ s, s ∖ {[(c, k)]})). right. right. exists k. set_solver. Qed.
Lemma guarded_pair_found {A} c k (m : option (string * string) → M A) :
  (∀ o, o = Some (c, k) ∨ o = None → guarded (m o)) →
  guarded (let* found := FolderCipher_find_by_folder_and_cipher k c in m found).
Proof. intros Hm. apply guarded_query. intros w Hw. apply Hm; [|done]. case_match; auto. Qed.
Lemma guarded_move_to_folder c f : folder_arg_ok f → guarded (Cipher_move_to_folder c f u).
Proof.
  intros Hf. apply guarded_bind; [solve_guarded|]. intros _. apply guarded_query. intros w Hw.
  destruct (folder_of (ci_uuid c) u (db w)) as [k|] eqn:Hk; [pose proof (folder_of_ok w _ _ Hw Hk) as Ho|];
    destruct f as [k'|]; (match goal with |- wp ?m _ _ _ => cut (guarded m); [intros Hg; by apply Hg|] end).
  - case_match; [solve_guarded|]. apply guarded_pair_found. intros o Hfound.
    apply guarded_bind; [|intros _; by apply guarded_pair_added].
    destruct Hfound as [->| ->]; [by apply guarded_pair_removed|solve_guarded].
  - apply guarded_pair_found. intros o [->| ->]; [by apply guarded_pair_removed|solve_guarded].
  - by apply guarded_pair_added.
  - solve_guarded.
Qed.
Lemma guarded_check_folder {A} f (m : M A) : (folder_arg_ok f → guarded m) → guarded (do* check_folder f u in m).
Proof.
  intros Hm w Hw. apply wp_bind. destruct f as [k|]; simpl; [|by apply Hm].
  wp_step. apply wp_query. wp_step. apply wp_ensure; [|done]. intros Hc. apply Hm; [|done]. simpl.
  destruct (folders (db w) !! k) as [f|] eqn:Hf; [|done]. simpl in Hc. case_match; [|done].
  match goal with H : bool_decide _ = true |- _ => apply bool_decide_eq_true in H end. by eapply folder_back.
Qed.
Lemma guarded_Folder_save f : f_user_uuid f = u → folder_ok (f_uuid f) → guarded (Folder_save f).
Proof.
  intros Hu Hf. apply guarded_bind; [solve_guarded|]. intros _. apply guarded_bind; [solve_guarded|]. intros t.
  apply guarded_bind; [|solve_guarded].
  apply (guarded_folder_row (insert (f_uuid f) (f <| f_updated_at := t |>)) (f_uuid f)); [done|..].
  - intros m k Hk. by apply lookup_insert_ne.
  - intros m x Hx. rewrite lookup_insert_eq in Hx. by simplify_eq.
Qed.
Lemma guarded_Folder_delete f : folder_ok (f_uuid f) → guarded (Folder_delete f).
Proof.
  intros Hf. apply guarded_bind; [solve_guarded|]. intros _. apply guarded_bind.
  - apply guarded_folder_pairs. right. right. exists (f_uuid f). set_solver.
  - intros _. apply (guarded_folder_row (delete (f_uuid f)) (f_uuid f)); [done|..].
    + intros m k Hk. by apply lookup_delete_ne.
    + intros m x. by rewrite lookup_delete_eq.
Qed.

(** ** Updating a cipher *)

Lemma guarded_find_attachment {A} id (m : option Attachment → M A) :
  (∀ w, stays w → wp (m (attachments (db w) !! str_to_lowercase e id)) e w (λ _ w', stays w')) →
  guarded (let* found := Attachment_find_by_id id in m found).
Proof. intros Hm w Hw. unfold Attachment_find_by_id. wp_go. by apply Hm. Qed.
Lemma guarded_update_attachments k l : touchable k → guarded (update_attachments k l).
Proof.
  intros Ht. induction l as [|[id a] l IH]; simpl; [solve_guarded|].
  apply guarded_find_attachment. intros w Hw.
  destruct (attachments (db w) !! _) as [r|] eqn:Hr; [|by apply IH]. case_match eqn:Hk; [|done].
  apply bool_decide_eq_true in Hk. subst k. pose proof (ok_attachments _ (proj1 Hw) _ _ Hr) as Hid.
  apply guarded_bind; [|done|done]. apply guarded_save_attachment; [done|]. simpl. rewrite Hid. by eapply attachment_back.
Qed.
(** Run through a computation of whose steps only the result counts. *)
Ltac solve_yields :=
  intros w;
  repeat first [wp_step | lazymatch goal with |- wp _ _ _ _ => apply wp_intro; intros [?|?|] ? _; simpl end];
  try done; try by intros ? [= <-].
Lemma yields_assign_owner c data h b : yields (assign_owner c data h b) (λ c', ci_uuid c' = ci_uuid c).
Proof. unfold assign_owner. solve_yields. Qed.
Lemma yields_assign_contents c data : yields (assign_contents c data) (λ c', ci_uuid c' = ci_uuid c).
Proof. unfold assign_contents. solve_yields. Qed.
Lemma yields_Cipher_save c : yields (Cipher_save c) (λ c', ci_uuid c' = ci_uuid c).
Proof. unfold Cipher_save. solve_yields. Qed.
Lemma reads_has_write c v : reads (Cipher_is_write_accessible_to_user c v).
Proof.
  unfold Cipher_is_write_accessible_to_user, Cipher_get_access_restrictions, Cipher_is_in_full_access_org,
    Cipher_is_in_full_access_group, Cipher_get_group_collections_access_flags.
  solve_reads. all: try destruct (ci_organization_uuid c); solve_reads.
Qed.
Lemma reads_ownership_policy data h : reads (enforce_personal_ownership_policy data h).
Proof. unfold enforce_personal_ownership_policy. solve_reads. Qed.
Lemma reads_check_stale c data ut : reads (check_stale c data ut).
Proof. unfold check_stale. solve_reads. Qed.
Lemma reads_check_note n : reads (check_note n).
Proof. unfold check_note. solve_reads. Qed.
Lemma reads_assign_owner c data h b : reads (assign_owner c data h b).
Proof. unfold assign_owner. solve_reads. apply reads_has_write. Qed.
Lemma reads_assign_contents c data : reads (assign_contents c data).
Proof. unfold assign_contents, type_data_opt, opt_clean. solve_reads; repeat case_match; solve_reads. Qed.
#[local] Hint Resolve reads_ownership_policy reads_check_stale reads_check_note : frame.

Lemma guarded_update c data h sh ut :
  u_uuid (h_user h) = u → touchable (ci_uuid c) → guarded (update_cipher_from_data c data h sh ut).
Proof.
  intros Hu Ht. unfold update_cipher_from_data. rewrite Hu. do 4 (apply guarded_bind; [solve_guarded|intros _]).
  eapply guarded_yields; [apply guarded_reads, reads_assign_owner|apply yields_assign_owner|].
  intros c1 H1. apply guarded_check_folder. intros Hf. rewrite H1.
  apply guarded_bind; [by apply guarded_update_attachments|]. intros _.
  eapply guarded_yields; [apply guarded_reads, reads_assign_contents|apply yields_assign_contents|].
  intros c2 H2. eapply guarded_yields; [apply guarded_Cipher_save; congruence|apply yields_Cipher_save|].
  intros c3 H3. apply guarded_bind; [by apply guarded_move_to_folder|]. solve_guarded.
Qed.

(** ** The check before a write *)

Lemma may_write_same d d' c :
  context d' = context d → (∀ col, (ci_uuid c, col) ∈ ciphers_collections d' ↔ (ci_uuid c, col) ∈ ciphers_collections d) →
  may_write e d' u c → may_write e d u c.
Proof.
  unfold context, may_write, full_route, counted_route, full_member, full_group, user_route, group_route.
  intros [= _ -> -> -> -> ->] Hl. by setoid_rewrite Hl.
Qed.
Lemma write_back w c :
  stays w → ciphers (db w) !! ci_uuid c = Some c → may_write e (db w) u c → touchable (ci_uuid c).
Proof.
  intros [_ Hw] Hc Hm. destruct (un_ciphers w Hw (ci_uuid c)) as [|H1]; [done|].
  destruct (un_links w Hw (ci_uuid c)) as [|H2]; [done|]. right. exists c. split; [congruence|].
  eapply may_write_same; [by apply un_context|done..].
Qed.
Lemma guarded_checked {A} (check : Cipher → string → M bool) id m1 m2 (k : Cipher → M A) :
  check = Cipher_is_write_accessible_to_user ∨ check = Cipher_is_in_editable_collection_by_user →
  (∀ c, ci_uuid c = id → touchable (ci_uuid c) → guarded (k c)) →
  guarded (let* found := Cipher_find_by_uuid id in let* c := some_or_err found m1 in
           let* ok := check c u in do* ensure ok m2 in k c).
Proof.
  intros Hcheck Hk. apply guarded_query. intros w Hw. do 2 wp_step; [|done]. wp_step.
  pose proof (ok_ciphers _ (proj1 Hw) _ _ Ho) as Hid. rewrite <- Hid in Ho. wp_step.
  assert (∃ b, check a u e w = (Ok b, w) ∧ (b = true → may_write e (db w) u a)) as (b & Hrun & Hb).
  { destruct Hcheck as [-> | ->]; [by apply may_write_run, Ho; apply Hw|by apply editable_run, Ho; apply Hw]. }
  eapply wp_eq; [done|]. wp_step. wp_step. apply wp_ensure; [|done]. intros ->. wp_step.
  apply Hk; [done| |done]. eapply write_back; [done..|]. by apply Hb.
Qed.
Definition guarded_write {A} id m1 m2 (k : Cipher → M A) :=
  guarded_checked Cipher_is_write_accessible_to_user id m1 m2 k (or_introl eq_refl).

(** Linking to a collection the user may write. *)
Lemma guarded_to_collection {A} id org m1 m2 (k : Collection → M A) :
  (∀ c, collection_writable e (db w0) u (c_uuid c) → guarded (k c)) →
  guarded (let* found := Collection_find_by_uuid_and_org id org in let* c := some_or_err found m1 in
           let* ok := Collection_is_writable_by_user c u in do* ensure ok m2 in k c).
Proof.
  intros Hk. apply guarded_query. intros w Hw. do 2 wp_step; [|done]. wp_step. wp_step.
  destruct (collection_writable_run e w u a (proj1 Hw)) as (b & Hrun & Hb). eapply wp_eq; [done|]. wp_step. wp_step.
  apply wp_ensure; [|done]. intros ->. wp_step. apply Hk; [|done].
  eapply context_writable; [by apply un_context, Hw|]. by apply Hb.
Qed.
Lemma guarded_change_collection k org posted col : touchable k → guarded (change_collection k org u posted col).
Proof.
  intros Ht. apply guarded_to_collection. intros c Hc. case_match; [by apply guarded_link|by apply guarded_unlink].
Qed.
Lemma guarded_share_to_collections k org l : touchable k → guarded (share_to_collections k org u l).
Proof.
  intros Ht. induction l as [|col l IH]; simpl; [solve_guarded|]. apply guarded_to_collection. intros c Hc.
  apply guarded_bind; [by apply guarded_link|]. intros _. apply guarded_bind; [done|]. solve_guarded.
Qed.

(** ** Handlers *)

Context `{!Serde ProtectedActionData pa_stored} `{FL : FileLinks} (h : Headers) (Hu : u_uuid (h_user h) = u).

Lemma guarded_response c : guarded (cipher_response c h).
Proof. apply guarded_reads, reads_Cipher_to_json. Qed.
Lemma guarded_mdrop {A} (m : M A) : guarded m → guarded (mdrop m).
Proof. unfold mdrop. solve_guarded. Qed.
Lemma guarded_validate data user b : guarded (PasswordOrOtpData_validate data user b).
Proof.
  unfold PasswordOrOtpData_validate, validate_protected_action_otp, TwoFactor_delete, TwoFactor_save,
    ProtectedActionData_from_json, ProtectedActionData_time_since_sent, User_check_valid_password, verify_password_hash.
  repeat case_match; solve_guarded.
Qed.
#[local] Hint Resolve guarded_response guarded_validate : guarded.

Lemma guarded_new_cipher {A} t n (k : Cipher → M A) :
  (∀ c, touchable (ci_uuid c) → guarded (k c)) → guarded (let* c := Cipher_new t n in k c).
Proof.
  intros Hk. intros w Hw. unfold Cipher_new. wp_go. apply Hk.
  - left. exists (tick w). split; [apply Hw|by left].
  - apply (stays_same w); [done..|simpl; lia|done].
Qed.
Lemma guarded_post_ciphers data : guarded (post_ciphers data h).
Proof.
  apply guarded_new_cipher. intros c Hc. apply guarded_bind; [by apply guarded_update|]. solve_guarded.
Qed.
Lemma guarded_put_cipher id data : guarded (put_cipher id data h).
Proof.
  unfold put_cipher. rewrite Hu. apply guarded_write. intros c _ Hc.
  apply guarded_bind; [by apply guarded_update|]. solve_guarded.
Qed.
Lemma guarded_put_cipher_partial id data : guarded (put_cipher_partial id data h).
Proof.
  unfold put_cipher_partial, Cipher_is_accessible_to_user. rewrite Hu. do 4 (apply guarded_bind; [solve_guarded|intros ?]).
  apply guarded_check_folder. intros Hf. apply guarded_bind; [by apply guarded_move_to_folder|]. solve_guarded.
Qed.
Lemma guarded_share id data ut : guarded (share_cipher_by_uuid id data h ut).
Proof.
  unfold share_cipher_by_uuid. rewrite Hu. apply guarded_write. intros c _ Hc. apply guarded_bind.
  { case_match; [by apply guarded_share_to_collections|solve_guarded]. }
  intros l. apply guarded_bind; [by apply guarded_update|]. solve_guarded.
Qed.
Lemma guarded_share_selected data : guarded (put_cipher_share_selected data h).
Proof. unfold put_cipher_share_selected, share_selected. solve_guarded. apply guarded_share. Qed.
Lemma guarded_create data : guarded (post_ciphers_create data h).
Proof.
  unfold post_ciphers_create. apply guarded_bind; [solve_guarded|]. intros _. apply guarded_new_cipher. intros c Hc.
  eapply guarded_yields; [by apply guarded_Cipher_save|apply yields_Cipher_save|]. intros c1 H1 w Hw. unfold wp, on_error.
  pose proof (guarded_share (ci_uuid c1) (mkShareCipherData ((sc_cipher data) <| cp_last_known_revision_date := None |>)
    (sc_collection_ids data)) None w Hw) as H2. unfold wp in H2.
  destruct (share_cipher_by_uuid _ _ _ _ _ _) as [[j|x|] w2]; [done| |done]. simpl in H2.
  assert (touchable (ci_uuid c1)) as Hc1 by (by rewrite H1).
  pose proof (guarded_Cipher_delete c1 Hc1 w2 H2) as H3. unfold wp in H3.
  by destruct (Cipher_delete c1 e w2) as [[]].
Qed.
Lemma guarded_update_collections get id ids :
  (∀ c, reads (get c u)) → guarded (update_collections get id ids h).
Proof.
  intros Hget. unfold update_collections. rewrite Hu. apply guarded_checked; [by right|]. intros c _ Hc.
  apply guarded_bind; [solve_guarded|]. intros org. apply guarded_bind; [by apply guarded_reads|]. intros l.
  apply guarded_bind; [|solve_guarded]. apply guarded_for_each. intros col _. by apply guarded_change_collection.
Qed.

(** Import *)
Lemma guarded_new_folder {A} n (k : Folder → M A) :
  (∀ f, f_user_uuid f = u → folder_ok (f_uuid f) → guarded (k f)) → guarded (let* f := Folder_new u n in k f).
Proof.
  intros Hk w Hw. unfold Folder_new. wp_go. apply Hk; [done| |].
  - left. exists (tick w). split; [apply Hw|by left].
  - apply (stays_same w); [done..|simpl; lia|done].
Qed.
Lemma guarded_import_folders existing l : guarded (import_folders existing u l).
Proof.
  induction l as [|f l IH]; simpl; [solve_guarded|]. apply guarded_bind; [|intros id; apply guarded_bind; [done|solve_guarded]].
  case_match; [solve_guarded|]. apply guarded_new_folder. intros f' Hf1 Hf2.
  apply guarded_bind; [by apply guarded_Folder_save|]. solve_guarded.
Qed.
Lemma guarded_import_ciphers fs rel i l : guarded (import_ciphers fs rel h i l).
Proof.
  revert i. induction l as [|d l IH]; intros i; simpl; [solve_guarded|]. apply guarded_bind; [solve_guarded|]. intros f.
  apply guarded_new_cipher. intros c Hc. apply guarded_bind; [by apply guarded_update|]. intros _. apply IH.
Qed.
Lemma guarded_import data : guarded (post_ciphers_import data h).
Proof.
  unfold post_ciphers_import, Cipher_validate_cipher_data, User_update_revision, User_update_revision_impl. rewrite Hu.
  apply guarded_bind; [solve_guarded|]. intros _. apply guarded_bind.
  { apply guarded_bind; [solve_guarded|]. intros max. case_match; solve_guarded. }
  intros _. apply guarded_bind; [solve_guarded|]. intros fs. apply guarded_bind; [apply guarded_import_folders|]. intros ids.
  apply guarded_bind; [apply guarded_import_ciphers|]. solve_guarded.
Qed.

(** Attachments *)
Lemma guarded_attachment_id {A} (k : string → M A) :
  (∀ a, drawn a → guarded (k a)) → guarded (let* a := generate_attachment_id in k a).
Proof.
  intros Hk w Hw. unfold generate_attachment_id, encode_random_bytes, get_random_bytes. wp_go. apply Hk.
  - exists (tick w). split; [apply Hw|by right].
  - apply (stays_same w); [done..|simpl; lia|done].
Qed.
Lemma guarded_post_attachment_v2 id data : guarded (post_attachment_v2 id data h).
Proof.
  unfold post_attachment_v2. rewrite Hu. apply guarded_write. intros c _ Hc.
  apply guarded_bind; [unfold into_i64; solve_guarded|]. intros n. apply guarded_bind; [solve_guarded|]. intros _.
  apply guarded_attachment_id. intros a Ha. apply guarded_bind; [|solve_guarded].
  apply guarded_save_attachment; [done|by left].
Qed.
Lemma guarded_adjust_attachment a n : touchable (at_cipher_uuid a) → attachment_ok (at_id a) → guarded (adjust_attachment a n).
Proof.
  intros Hc Ha. unfold adjust_attachment. solve_guarded; [by apply guarded_save_attachment|by apply guarded_Attachment_delete].
Qed.
Lemma guarded_save_upload o id data :
  from_option (λ a, at_cipher_uuid a = id ∧ (touchable id → attachment_ok (at_id a))) True o →
  guarded (save_attachment o id data h).
Proof.
  intros Ho. unfold save_attachment. rewrite Hu. do 2 (apply guarded_bind; [solve_guarded|intros ?]).
  apply guarded_write. intros c <- Hc. apply guarded_bind.
  { unfold attachment_size_limit, attachment_limit. solve_guarded; repeat case_match; solve_guarded. }
  intros limit. apply guarded_bind; [solve_guarded|]. intros _. destruct o as [att|]; simpl.
  - destruct Ho as [H1 H2]. apply guarded_bind; [solve_guarded|]. intros f.
    apply guarded_bind; [apply guarded_adjust_attachment; [by rewrite H1|auto]|]. intros _.
    apply guarded_bind; [by apply guarded_save_file|]. solve_guarded.
  - apply guarded_attachment_id. intros f Hf. apply guarded_bind.
    { unfold create_attachment. solve_guarded. apply guarded_save_attachment; [done|by left]. }
    intros _. apply guarded_bind; [by apply guarded_save_file|]. solve_guarded.
Qed.
(** An attachment of the cipher in question *)
Lemma guarded_attachment_of {A} id a (b : bool) m1 m2 (k : Attachment → M A) :
  (∀ r, at_cipher_uuid r = id → (touchable id → attachment_ok (at_id r)) → guarded (k r)) →
  guarded (let* found := Attachment_find_by_id a in let* r := some_or_err found m1 in
           do* ensure (if b then bool_decide (id = at_cipher_uuid r) else bool_decide (at_cipher_uuid r = id)) m2 in k r).
Proof.
  intros Hk. apply guarded_find_attachment. intros w Hw. do 2 wp_step; [|done]. wp_step. wp_step.
  apply wp_ensure; [|done]. intros Hc. wp_step.
  assert (at_cipher_uuid a0 = id) as Hid by (destruct b; apply bool_decide_eq_true in Hc; congruence).
  apply Hk; [done| |done]. intros Ht. rewrite (ok_attachments _ (proj1 Hw) _ _ Ho). eapply attachment_back; [done..|].
  by rewrite Hid.
Qed.
Lemma guarded_upload_v2 id a data : guarded (post_attachment_v2_data id a data h).
Proof.
  apply (guarded_attachment_of id a true). intros r H1 H2. apply guarded_bind; [|solve_guarded].
  by apply guarded_save_upload.
Qed.
Lemma guarded_post_attachment id data : guarded (post_attachment id data h).
Proof. apply guarded_bind; [by apply guarded_save_upload|]. solve_guarded. Qed.
Lemma guarded_delete_attachment id a : guarded (delete_cipher_attachment_by_id id a h).
Proof.
  unfold delete_cipher_attachment_by_id. rewrite Hu. apply (guarded_attachment_of id a false). intros r <- H2.
  apply guarded_write. intros c H3 Hc. rewrite H3 in Hc. apply guarded_bind; [apply guarded_Attachment_delete; auto|]. solve_guarded.
Qed.

(** Deleting, restoring, moving *)
Lemma guarded_delete id o : guarded (delete_cipher_by_uuid id h o).
Proof.
  unfold delete_cipher_by_uuid. rewrite Hu. apply guarded_write. intros c _ Hc. apply guarded_bind; [|solve_guarded].
  destruct (is_soft o).
  - apply guarded_bind; [solve_guarded|]. intros t. by apply guarded_Cipher_save.
  - apply guarded_bind; [by apply guarded_Cipher_delete|]. solve_guarded.
Qed.
Lemma guarded_restore id b : guarded (restore_cipher_by_uuid id h b).
Proof.
  unfold restore_cipher_by_uuid. rewrite Hu. apply guarded_write. intros c _ Hc.
  apply guarded_bind; [by apply guarded_Cipher_save|]. solve_guarded.
Qed.
Lemma guarded_archive id b : guarded (archive_cipher id h b) ∧ guarded (unarchive_cipher id h b).
Proof. unfold archive_cipher, unarchive_cipher, Cipher_is_accessible_to_user. rewrite Hu. split; solve_guarded. Qed.
Lemma guarded_move_selected data : guarded (move_cipher_selected data h).
Proof.
  unfold move_cipher_selected, Cipher_find_by_user_and_ciphers, Cipher_find_by_user. rewrite Hu.
  apply guarded_check_folder. intros Hf. solve_guarded. by apply guarded_move_to_folder.
Qed.
Lemma guarded_purge_personal data : guarded (purge_personal_vault data h).
Proof.
  unfold purge_personal_vault, User_update_revision, User_update_revision_impl. rewrite Hu.
  apply guarded_bind; [solve_guarded|]. intros _. apply guarded_query. intros w Hw. apply guarded_bind; [| |done].
  - apply guarded_for_each. intros c Hc. apply elem_of_load in Hc as [Hp [k Hc]]. sql_bools.
    apply guarded_Cipher_delete. pose proof (ok_ciphers _ (proj1 Hw) _ _ Hc) as <-. apply (write_back w c); [done..|].
    left. left. unfold owned_by_user in *. by sql_bools.
  - intros _. apply guarded_query. intros w1 Hw1. apply guarded_bind; [|solve_guarded|done].
    apply guarded_for_each. intros f Hf. apply elem_of_load in Hf as [Hp [k Hf]]. sql_bools.
    apply guarded_Folder_delete. pose proof (ok_folders _ (proj1 Hw1) _ _ Hf) as <-. by eapply folder_back.
Qed.
Lemma owner_full_access m : is_status MS_Confirmed m = true → Membership_has_type m MT_Owner = true →
  Membership_has_full_access m = true.
Proof.
  unfold is_status, Membership_has_type, Membership_has_full_access, Membership_has_status. intros Hs Ht.
  apply Z.eqb_eq in Hs, Ht. rewrite Hs, Ht. by rewrite orb_true_r.
Qed.
Lemma guarded_purge_org org data : guarded (serve (PurgeOrgVault org data) h).
Proof.
  simpl. unfold purge_org_vault, Cipher_delete_all_by_organization. simpl. rewrite Hu.
  do 2 (apply guarded_bind; [solve_guarded|intros _]). apply guarded_query. intros w Hw.
  destruct (first _ _) as [m|] eqn:Hm; [|done]. destruct (Membership_has_type m MT_Owner) eqn:Ho; [|done].
  apply first_Some in Hm as [Hm [k Hk]]. sql_bools. do 2 wp_step. apply wp_query. wp_step.
  eapply wp_mono; [apply guarded_for_each; [|exact Hw]|].
  - intros c Hc. apply elem_of_load in Hc as [Hc [k' Hk']]. apply guarded_Cipher_delete.
    pose proof (ok_ciphers _ (proj1 Hw) _ _ Hk') as <-. apply (write_back w c); [done..|].
    unfold owned_by_org in Hc. sql_bools. left. right. exists (m_org_uuid m). split; [done|]. left.
    exists k, m. split_and!; try done. by apply owner_full_access.
  - intros [[]|x|] w1 Hw1; simpl; try done. by apply guarded_log_event.
Qed.

Lemma guarded_folder_handlers id data :
  guarded (put_folder id data h) ∧ guarded (delete_folder id h) ∧ guarded (post_folders data h).
Proof.
  unfold put_folder, delete_folder, post_folders. rewrite Hu.
  assert (∀ {A} (k : Folder → M A), (∀ f, f_user_uuid f = u → folder_ok (f_uuid f) → guarded (k f)) →
    guarded (let* found := Folder_find_by_uuid_and_user id u in let* f := some_or_err found "Invalid folder" in k f)) as Hfind.
  { intros A k Hk. apply guarded_query. intros w Hw. do 2 wp_step; [|done]. wp_step.
    destruct (folders (db w) !! id) as [f|] eqn:Hf; simpl in Ho; [|done]. case_match eqn:Hb; [|done]. sql_bools.
    apply Hk; [done| |done]. pose proof (ok_folders _ (proj1 Hw) _ _ Hf) as <-. by eapply folder_back. }
  split_and!.
  - apply Hfind. intros f H1 H2. apply guarded_bind; [by apply guarded_Folder_save|]. solve_guarded.
  - apply Hfind. intros f H1 H2. by apply guarded_Folder_delete.
  - apply guarded_new_folder. intros f H1 H2. apply guarded_bind; [by apply guarded_Folder_save|]. solve_guarded.
Qed.
Lemma guarded_reading r :
  match r with GetCiphers | GetCipher _ | GetAttachment _ _ | GetFolders | GetFolder _ => guarded (serve r h) | _ => True end.
Proof.
  destruct r; try done; simpl; unfold get_ciphers, get_cipher, get_attachment, get_folders, get_folder,
    Cipher_find_by_user_visible, Cipher_find_by_user, cipher_response, Cipher_is_accessible_to_user, Attachment_find_by_id;
    apply guarded_mdrop; solve_guarded; apply guarded_reads; auto with frame.
Qed.
Lemma guarded_serve r : guarded (serve r h).
Proof.
  pose proof (guarded_reading r) as Hr. destruct r; try exact Hr; try apply guarded_purge_org; simpl; try apply guarded_mdrop.
  - apply guarded_post_ciphers.
  - apply guarded_put_cipher.
  - apply guarded_put_cipher_partial.
  - apply guarded_import.
  - apply guarded_create.
  - apply guarded_share.
  - apply guarded_share_selected.
  - unfold post_collections2_update, post_collections_update. solve_guarded.
    apply guarded_update_collections. unfold Cipher_get_collections. solve_reads.
  - unfold post_collections_admin. solve_guarded.
    apply guarded_update_collections. unfold Cipher_get_admin_collections. solve_reads.
  - apply guarded_post_attachment_v2.
  - apply guarded_upload_v2.
  - apply guarded_post_attachment.
  - unfold post_attachment_share. solve_guarded; [apply guarded_delete_attachment|apply guarded_post_attachment].
  - apply guarded_delete_attachment.
  - apply guarded_delete.
  - unfold delete_multiple_ciphers. solve_guarded. apply guarded_delete.
  - apply guarded_restore.
  - unfold restore_multiple_ciphers. solve_guarded. apply guarded_restore.
  - apply guarded_move_selected.
  - apply guarded_archive.
  - unfold archive_multiple_ciphers. solve_guarded. apply guarded_archive.
  - apply guarded_archive.
  - unfold unarchive_multiple_ciphers. solve_guarded. apply guarded_archive.
  - apply guarded_purge_personal.
  - apply (guarded_folder_handlers "").
  - apply guarded_folder_handlers.
  - apply (guarded_folder_handlers folder_id (mkFolderData "" None)).
Qed.
End guarded.

(** C5: whatever a request to the vault asks for and however it ends, its user
    changes only what the user may.  Ciphers change, with their collections,
    attachments and files, only if they were created by the request or the user
    may write them: by owning them, with full access, or by the rows that count.
    New links are to collections the user may add to.  Folders of other users
    stay.  What other users hold on a cipher (its place in their folders, their
    mark as a favourite, their archive mark) is never set or changed; it may be
    lost, but only on a cipher that the user may write (such a cipher can be
    deleted, and saving it drops archive marks).  The tables that permissions are
    read from do not change at all. *)
Theorem vault_requests_guarded `{!Serde ProtectedActionData pa_stored} `{FL : FileLinks} r h e w :
  tables_ok (db w) →
  ∃ res w', serve r h e w = (res, w') ∧ tables_ok (db w') ∧ untouched e (u_uuid (h_user h)) w w'.
Proof.
  intros Hok. destruct (wp_exists _ _ _ _ (guarded_serve e (u_uuid (h_user h)) w h eq_refl r w (stays_refl _ _ _ Hok)))
    as (res & w' & Hrun & Hs). eauto.
Qed.

Module ToyRequests.
Import ToyEnv ToyUsers ToyTwoFactor ToyLinks ToyVault.
Definition vault_user (id : string) : Headers := mkHeaders (toy_user id) 0 "ip" "host".

(** Bob, whose row is not read-only, deletes the cipher; alice may not. *)
Lemma vault_requests_guarded_witness :
  ∃ w' w'', serve (DeleteCipher "c1" HardSingle) (vault_user "alice") (toy_env 0) toy_vault =
    (Err (new_msg "Cipher can't be deleted by user"), w') ∧ untouched (toy_env 0) "alice" toy_vault w' ∧
    serve (DeleteCipher "c1" HardSingle) (vault_user "bob") (toy_env 0) toy_vault = (Ok tt, w'') ∧
    ciphers (db w'') = ∅ ∧ untouched (toy_env 0) "bob" toy_vault w''.
Proof.
  pose (del id := serve (DeleteCipher "c1" HardSingle) (vault_user id) (toy_env 0) toy_vault).
  assert ((del "alice").1 = Err (new_msg "Cipher can't be deleted by user")) as E1 by (vm_compute; reflexivity).
  assert ((del "bob").1 = Ok tt) as E2 by (vm_compute; reflexivity).
  assert (ciphers (db (del "bob").2) = ∅) as E3 by (vm_compute; reflexivity).
  destruct (vault_requests_guarded (DeleteCipher "c1" HardSingle) (vault_user "alice") (toy_env 0) toy_vault toy_vault_ok)
    as (r1 & w1 & H1 & _ & U1).
  destruct (vault_requests_guarded (DeleteCipher "c1" HardSingle) (vault_user "bob") (toy_env 0) toy_vault toy_vault_ok)
    as (r2 & w2 & H2 & _ & U2).
  unfold del in E1, E2, E3. rewrite H1 in E1. rewrite H2 in E2, E3. simpl in E1, E2, E3. subst r1 r2.
  exists w1, w2. exact (conj H1 (conj U1 (conj H2 (conj E3 U2)))).
Defined.
End ToyRequests.
