(* ===== verification/VaultEffects.v ===== *)
(** * What the operations on ciphers do

    Exact effects of the operations behind the handlers of [Vault]: deleting a
    cipher, moving it to a folder, saving it where users have archived it, the
    quota for attachments; and two ends of requests that leave something behind:
    a share refused after its links are made, an import that panics. *)

From stdpp Require Import base strings numbers pretty gmap list.
From S2P Require Import Prelude Store JsonUtil Queries Users Orgs AuthRequests TwoFactor TotpReplay Collections Folders.
From S2P Require Import Ciphers VaultAccess Vault VaultSafety.

(** ** Steps that leave the vault alone *)

(** The vault and its files are as before. *)
Definition same_vault (w w' : World) : Prop :=
  vault_tables (db w') = vault_tables (db w) ∧ attachment_files w' = attachment_files w.
#[export] Instance same_vault_rel : WorldRel same_vault.
Proof.
  split; [split; [done|]|done..]. intros w w1 w2 [] []. unfold same_vault. split; congruence.
Qed.
Abbreviation quiet := (within same_vault).
#[export] Hint Extern 1 (quiet (exec _)) => apply within_exec; done : within.

Lemma quiet_revision v : quiet (User_update_uuid_revision v).
Proof. unfold User_update_uuid_revision, User_update_revision_impl. solve_within. Qed.
#[export] Hint Resolve quiet_revision : within.
Lemma quiet_users_revision c : quiet (Cipher_update_users_revision c).
Proof. unfold Cipher_update_users_revision, update_revisions. solve_within. Qed.
Lemma quiet_log_event t s o a dt ip : quiet (log_event t s o a dt ip).
Proof. unfold log_event, log_event_impl, Event_new, Event_save. solve_within. Qed.
Lemma quiet_collection_revision col : quiet (CollectionCipher_update_users_revision col).
Proof. unfold CollectionCipher_update_users_revision, Collection_update_users_revision. solve_within. Qed.
#[export] Hint Resolve quiet_users_revision quiet_log_event quiet_collection_revision : within.
Lemma quiet_log_cipher h t c : quiet (log_cipher h t c).
Proof. unfold log_cipher, log_as. solve_within. Qed.
Lemma quiet_notify_cipher c : quiet (notify_cipher c).
Proof. unfold notify_cipher. solve_within. Qed.
#[export] Hint Resolve quiet_log_cipher quiet_notify_cipher : within.

Lemma safe_users_revision c : safe (Cipher_update_users_revision c).
Proof. unfold Cipher_update_users_revision, update_revisions. solve_keeps; apply safe_bind; solve_keeps. Qed.
(** ** Deleting a cipher *)

(** The storage of attachments answers. *)
Definition storage_works (e : Env) : bool := storage_configured e && storage_available e.
(** [d'] is [d] without the cipher [k] and all that refers to it. *)
Record without_cipher (k : string) (d d' : Db) : Prop := {
  wo_ciphers : ciphers d' = delete k (ciphers d);
  wo_links : ciphers_collections d' = filter (λ cc, cc.1 ≠ k) (ciphers_collections d);
  wo_folders : folders_ciphers d' = filter (λ fc, fc.1 ≠ k) (folders_ciphers d);
  wo_favorites : favorites d' = filter (λ uc, uc.2 ≠ k) (favorites d);
  wo_archives : archives d' = filter (λ '(uc, _), uc.2 ≠ k) (archives d);
  wo_attachments : attachments d' = filter (λ '(_, a), at_cipher_uuid a ≠ k) (attachments d);
  wo_rest : (context d', folders d') = (context d, folders d);
}.

Lemma delete_file_run e w path :
  delete_attachment_file path e w =
  (if storage_works e then Ok tt else Err (new_msg "OpenDAL"),
   if storage_works e then w <| attachment_files := delete path (attachment_files w) |> else w).
Proof.
  unfold delete_attachment_file, attachments_operator, mbind, ask, ensure, storage_works.
  destruct (storage_configured e), (storage_available e); done.
Qed.
(** What a loop over attachments deletes. *)
Lemma delete_attachments_run e w l :
  storage_works e = true →
  for_each l Attachment_delete e w =
  (Ok tt, w <| db := (db w) <| attachments := foldl (λ m a, delete (at_id a) m) (attachments (db w)) l |> |>
            <| attachment_files := foldl (λ m a, delete (Attachment_get_file_path a) m) (attachment_files w) l |>).
Proof.
  intros Hs. revert w. induction l as [|a l IH]; intros w; [by destruct w as [[]]|].
  simpl. unfold mbind at 1, Attachment_delete, mbind at 1, exec. rewrite delete_file_run, Hs. rewrite IH. done.
Qed.
Lemma foldl_delete_lookup {K V W} `{Countable K} (f : W → K) (l : list W) (m : gmap K V) k :
  foldl (λ m a, delete (f a) m) m l !! k = if bool_decide (k ∈ f <$> l) then None else m !! k.
Proof.
  revert m. induction l as [|a l IH]; intros m; simpl; [done|]. rewrite IH.
  destruct (decide (k = f a)) as [->|Hne].
  - rewrite (bool_decide_eq_true_2 (f a ∈ f a :: _)) by set_solver. case_match; [done|]. apply lookup_delete_eq.
  - rewrite lookup_delete_ne by done. repeat case_bool_decide; set_solver.
Qed.
Lemma deleted_attachments d k :
  tables_ok d →
  foldl (λ m a, delete (at_id a) m) (attachments d) (load (λ a, bool_decide (at_cipher_uuid a = k)) (attachments d)) =
  filter (λ '(_, a), at_cipher_uuid a ≠ k) (attachments d).
Proof.
  intros Hok. apply map_eq. intros id. rewrite foldl_delete_lookup. apply option_eq. intros a.
  rewrite map_lookup_filter_Some. case_bool_decide as Hin.
  - split; [done|]. intros [Ha Hne]. apply list_elem_of_fmap in Hin as (a' & -> & Hl).
    apply elem_of_load in Hl as [Hk [id Hid]]. apply bool_decide_eq_true in Hk.
    rewrite (ok_attachments _ Hok _ _ Hid) in Ha. congruence.
  - split; [|by intros []]. intros Ha. split; [done|]. intros Hk. apply Hin. apply list_elem_of_fmap. exists a.
    split; [by rewrite (ok_attachments _ Hok _ _ Ha)|]. apply elem_of_load. split; [by apply bool_decide_eq_true|]. eauto.
Qed.

(** Deleting a cipher removes it with everything that refers to it (its
    collections, the folders it is in, favourites, archive marks, attachments and
    their files) and nothing else.  If the storage of attachments fails and it
    has an attachment, the deletion stops half-way: the cipher stays, but is in
    no collection and no folder any more. *)
Theorem Cipher_delete_spec c e w :
  tables_ok (db w) →
  let mine := load (λ a, bool_decide (at_cipher_uuid a = ci_uuid c)) (attachments (db w)) in
  ∃ r w', Cipher_delete c e w = (r, w') ∧
    (storage_works e = true ∨ mine = [] →
       r = Ok tt ∧ without_cipher (ci_uuid c) (db w) (db w') ∧
       ∀ p, attachment_files w' !! p = if bool_decide (p ∈ Attachment_get_file_path <$> mine) then None
                                       else attachment_files w !! p) ∧
    (storage_works e = false → mine ≠ [] →
       (∃ x, r = Err x) ∧ ciphers (db w') = ciphers (db w) ∧ favorites (db w') = favorites (db w) ∧
       (∀ col, (ci_uuid c, col) ∉ ciphers_collections (db w')) ∧ ∀ f, (ci_uuid c, f) ∉ folders_ciphers (db w')).
Proof.
  intros Hok mine. apply wp_exists. apply wp_bind.
  apply (wp_within_safe (R := same_vault)); [apply quiet_users_revision|apply safe_users_revision|]. intros us w1 [Hv Hf].
  assert (load (λ a, bool_decide (at_cipher_uuid a = ci_uuid c)) (attachments (db w1)) = mine) as Hmine.
  { unfold mine, vault_tables in *. congruence. }
  pose proof (tables_ok_same _ _ Hv Hok) as Hok1. unfold FolderCipher_delete_all_by_cipher,
    CollectionCipher_delete_all_by_cipher, Attachment_delete_all_by_cipher, Attachment_find_by_cipher,
    Favorite_delete_all_by_cipher. wp_go. simpl. rewrite Hmine.
  unfold vault_tables, context in Hv. injection Hv as E1 E2 E3 E4 E5 E6 E7 E8 E9 E10 E11 E12 E13.
  destruct (storage_works e) eqn:Hs.
  - eapply wp_eq; [by apply delete_attachments_run|]. wp_go. split; [|done]. intros _. split; [done|]. split.
    + split; simpl; unfold context; simpl; rewrite ?E1, ?E2, ?E3, ?E4, ?E5, ?E6, ?E7, ?E9, ?E10, ?E11, ?E12, ?E13; try done.
      rewrite <- Hmine, deleted_attachments, E8; done.
    + intros p. simpl. by rewrite foldl_delete_lookup, Hf.
  - destruct mine as [|a l] eqn:El.
    + simpl. wp_go. split; [|done]. intros _. split; [done|]. split; [|intros p; simpl; by rewrite Hf].
      split; simpl; unfold context; simpl; rewrite ?E1, ?E2, ?E3, ?E4, ?E5, ?E6, ?E7, ?E9, ?E10, ?E11, ?E12, ?E13; try done.
      rewrite <- (deleted_attachments (db w) (ci_uuid c)), E8 by done. fold mine. rewrite El. done.
    + simpl. wp_step. unfold Attachment_delete at 1. do 3 wp_step. eapply wp_eq; [apply delete_file_run|]. rewrite Hs. simpl.
      split; [by intros [|]|]. intros _ _. split_and!; eauto; set_solver.
Qed.

(** ** Saving a cipher *)

(** Saving a cipher stores it with a new revision date.  Where the database
    replaces the row (REPLACE INTO on SQLite and MySQL, when no other table
    refers to it), the archive marks of every user for the cipher go with the
    old row; where it updates the row they stay. *)
Theorem Cipher_save_archives c e w :
  ∃ w', Cipher_save c e w = (Ok (c <| ci_updated_at := now e |>), w') ∧
    ciphers (db w') = <[ci_uuid c := c <| ci_updated_at := now e |>]> (ciphers (db w)) ∧
    (is_Some (ciphers (db w) !! ci_uuid c) → (∀ d, save_replaces_row e d (ci_uuid c) = true) →
       ∀ v, archives (db w') !! (v, ci_uuid c) = None) ∧
    ((∀ d, save_replaces_row e d (ci_uuid c) = false) ∨ ciphers (db w) !! ci_uuid c = None →
       archives (db w') = archives (db w)).
Proof.
  assert (wp (Cipher_save c) e w (λ r w', r = Ok (c <| ci_updated_at := now e |>) ∧
    ciphers (db w') = <[ci_uuid c := c <| ci_updated_at := now e |>]> (ciphers (db w)) ∧
    (is_Some (ciphers (db w) !! ci_uuid c) → (∀ d, save_replaces_row e d (ci_uuid c) = true) →
       ∀ v, archives (db w') !! (v, ci_uuid c) = None) ∧
    ((∀ d, save_replaces_row e d (ci_uuid c) = false) ∨ ciphers (db w) !! ci_uuid c = None →
       archives (db w') = archives (db w)))) as H.
  { unfold Cipher_save. apply wp_bind.
    apply (wp_within_safe (R := same_vault)); [apply quiet_users_revision|apply safe_users_revision|]. intros us w1 [Hv _].
    assert (ciphers (db w1) = ciphers (db w) ∧ archives (db w1) = archives (db w)) as [E1 E2]
      by (unfold vault_tables in Hv; split; congruence).
    wp_go. unfold save_cipher_row, cascade_archives. simpl. rewrite E1. split; [done|]. split_and!.
    - by case_match; simpl; rewrite E1.
    - intros Hst Hr v. rewrite Hr, bool_decide_eq_true_2 by done. simpl. apply map_lookup_filter_None. right. naive_solver.
    - intros [Hr|Hst]; [by rewrite Hr|]. rewrite Hst, andb_comm. done. }
  apply wp_exists in H as (r & w' & Hrun & -> & H). eauto.
Qed.

(** ** Moving to a folder *)

Definition in_folder (d : Db) (u cid k : string) : Prop :=
  (cid, k) ∈ folders_ciphers d ∧ ∃ f, folders d !! k = Some f ∧ f_user_uuid f = u.
Lemma folder_of_spec d u cid :
  tables_ok d → match folder_of cid u d with Some k => in_folder d u cid k | None => ∀ k, ¬ in_folder d u cid k end.
Proof.
  intros Hok. assert (∀ fc, fc ∈ where_ (λ fc, bool_decide (fc.1 = cid)) (folder_pairs u d) ↔
    fc.1 = cid ∧ in_folder d u cid fc.2) as Hspec.
  { intros [c k]. simpl. split.
    - intros H. sql_cond H. unfold folder_pairs in H. sql_row H fc Hfc. sql_row H f Hf. sql_bools.
      apply elem_of_rows in Hf as [k' Hf]. pose proof (ok_folders _ Hok _ _ Hf). simplify_eq/=. split; [done|]. split; [done|].
      eexists. split; [|done]. congruence.
    - intros [-> (Hp & f & Hf & Hu)]. apply elem_of_where. split; [|by apply bool_decide_eq_true].
      pose proof (ok_folders _ Hok _ _ Hf) as Hk. unfold folder_pairs. sql_intro (cid, k); [|done].
      sql_intro f; [|apply elem_of_rows; eauto|sql_true].
      apply elem_of_guard_rows. split; [by apply bool_decide_eq_true|by left]. }
  unfold folder_of. revert Hspec. generalize (where_ (λ fc, bool_decide (fc.1 = cid)) (folder_pairs u d)).
  intros [|[c k] l] Hspec; simpl.
  - intros k Hk. apply (not_elem_of_nil (cid, k)). by apply Hspec.
  - by apply (Hspec (c, k)); left.
Qed.

(** A cipher is in at most one folder of a user, and moving it keeps this
    so: afterwards it is exactly in the given folder of the user, or in none.
    The folders of other users, and other ciphers, are not affected. *)
Theorem Cipher_move_to_folder_spec c folder u e w :
  tables_ok (db w) →
  (∀ k k', in_folder (db w) u (ci_uuid c) k → in_folder (db w) u (ci_uuid c) k' → k = k') →
  (∀ k, folder = Some k → ∃ f, folders (db w) !! k = Some f ∧ f_user_uuid f = u) →
  ∃ w', Cipher_move_to_folder c folder u e w = (Ok tt, w') ∧ folders (db w') = folders (db w) ∧
    (∀ k, in_folder (db w') u (ci_uuid c) k ↔ folder = Some k) ∧
    ∀ c' k, c' ≠ ci_uuid c ∨ (∀ f, folders (db w) !! k = Some f → f_user_uuid f ≠ u) →
      (c', k) ∈ folders_ciphers (db w') ↔ (c', k) ∈ folders_ciphers (db w).
Proof.
  intros Hok Hone Hf. assert (wp (Cipher_move_to_folder c folder u) e w (λ r w', r = Ok tt ∧
    folders (db w') = folders (db w) ∧ (∀ k, in_folder (db w') u (ci_uuid c) k ↔ folder = Some k) ∧
    ∀ c' k, c' ≠ ci_uuid c ∨ (∀ f, folders (db w) !! k = Some f → f_user_uuid f ≠ u) →
      (c', k) ∈ folders_ciphers (db w') ↔ (c', k) ∈ folders_ciphers (db w))) as H.
  { unfold Cipher_move_to_folder, Cipher_get_folder_uuid, FolderCipher_find_by_folder_and_cipher. apply wp_bind.
    apply (wp_within_safe (R := same_vault)); [apply quiet_revision|apply safe_update_uuid_revision|]. intros [] w1 [Hv _].
    assert (folders (db w1) = folders (db w) ∧ folders_ciphers (db w1) = folders_ciphers (db w)) as [E1 E2]
      by (unfold vault_tables in Hv; split; congruence).
    pose proof (folder_of_spec (db w1) u (ci_uuid c) (tables_ok_same _ _ Hv Hok)) as Hold.
    unfold in_folder in *. rewrite E1, E2 in Hold. do 4 wp_step.
    destruct (folder_of (ci_uuid c) u (db w1)) as [old|]; destruct folder as [new|];
      try destruct (Hf _ eq_refl) as (fn & Hfn & Hun).
    - case_bool_decide as Hne.
      + wp_go. rewrite E1, E2. subst. split_and!; try done. intros k. split; [|naive_solver].
        intros Hk. f_equal. apply Hone; [|done]. done.
      + do 3 wp_step. rewrite E2, bool_decide_eq_true_2 by apply Hold. unfold FolderCipher_delete, FolderCipher_save.
        wp_go. simpl. rewrite E1, E2. split_and!; try done.
        * intros k. split; [|set_solver]. intros [Hk Hown]. destruct (decide (k = new)) as [->|Hk']; [done|].
          assert (k = old) by (apply Hone; [set_solver|done]). set_solver.
        * intros c' k [Hc|Hk]; [set_solver|]. assert (k ≠ new) by (intros ->; naive_solver).
          assert (k ≠ old) by (intros ->; naive_solver). set_solver.
    - do 3 wp_step. rewrite E2, bool_decide_eq_true_2 by apply Hold. unfold FolderCipher_delete.
      wp_go. simpl. rewrite E1, E2. split_and!; try done.
      + intros k. split; [|done]. intros [Hk Hown]. assert (k = old) by (apply Hone; [set_solver|done]). set_solver.
      + intros c' k [Hc|Hk]; [set_solver|]. assert (k ≠ old) by (intros ->; naive_solver). set_solver.
    - unfold FolderCipher_save. wp_go. simpl. rewrite E1, E2. split_and!; try done.
      + intros k. split; [|set_solver]. intros [Hk Hown]. destruct (decide (k = new)) as [->|Hk']; [done|].
        destruct (Hold k). set_solver.
      + intros c' k [Hc|Hk]; [set_solver|]. assert (k ≠ new) by (intros ->; naive_solver). set_solver.
    - wp_go. rewrite E1, E2. split_and!; try done. intros k. split; [|done]. intros Hk. by destruct (Hold k). }
  apply wp_exists in H as (r & w' & Hrun & -> & H). eauto.
Qed.

(** ** The quota for attachments *)

Definition total_size (p : Cipher → bool) (d : Db) : Z := foldr Z.add 0%Z (at_file_size <$> attachments_where p d).
(** Whose quota a cipher counts against. *)
Definition quota_of (e : Env) (c : Cipher) : option (option Z * (Cipher → bool)) :=
  match ci_user_uuid c, ci_organization_uuid c with
  | Some u, _ => Some (user_attachment_limit (cfg e), owned_by_user u)
  | None, Some org => Some (org_attachment_limit (cfg e), owned_by_org org)
  | None, None => None
  end.

Lemma sum_app (l l' : list Z) : (foldr Z.add 0 (l ++ l') = foldr Z.add 0 l + foldr Z.add 0 l')%Z.
Proof. induction l; simpl; lia. Qed.
Lemma sum_permutation (l l' : list Z) : l ≡ₚ l' → foldr Z.add 0%Z l = foldr Z.add 0%Z l'.
Proof. induction 1; simpl; lia. Qed.
Lemma cipher_rows_unique d k c :
  tables_ok d → ciphers d !! k = Some c → where_ (λ c, bool_decide (ci_uuid c = k)) (rows (ciphers d)) = [c].
Proof.
  intros Hok Hc. assert (NoDup (rows (ciphers d))) as Hnd.
  { apply NoDup_fmap_2_strong; [|apply NoDup_map_to_list]. intros [k1 x] [k2 y] H1 H2 Heq. simpl in Heq. subst y.
    apply elem_of_map_to_list in H1, H2. rewrite <- (ok_ciphers _ Hok _ _ H1), <- (ok_ciphers _ Hok _ _ H2). done. }
  assert (∀ x, x ∈ where_ (λ c, bool_decide (ci_uuid c = k)) (rows (ciphers d)) ↔ x = c) as Hx.
  { intros x. rewrite elem_of_where, cipher_row, bool_decide_eq_true by done. split.
    - intros [H <-]. congruence.
    - intros ->. pose proof (ok_ciphers _ Hok _ _ Hc). split; congruence. }
  assert (NoDup (where_ (λ c, bool_decide (ci_uuid c = k)) (rows (ciphers d)))) as Hnd'.
  { unfold where_. by apply NoDup_filter. }
  revert Hx Hnd'. generalize (where_ (λ c, bool_decide (ci_uuid c = k)) (rows (ciphers d))). intros [|a [|b l]] Hx Hn.
  - destruct (not_elem_of_nil c). by apply Hx.
  - f_equal. apply Hx. by left.
  - apply NoDup_cons in Hn as [Hn _]. destruct Hn. assert (a = c) as -> by (apply Hx; by left).
    assert (b = c) as -> by (apply Hx; right; by left). by left.
Qed.
(** Rows for a cipher that counts: what a change of one row does to the sum. *)
Lemma total_size_insert p d a c :
  tables_ok d → ciphers d !! at_cipher_uuid a = Some c → p c = true → attachments d !! at_id a = None →
  total_size p (d <| attachments := <[at_id a := a]> (attachments d) |>) = (at_file_size a + total_size p d)%Z.
Proof.
  intros Hok Hc Hp Ha. unfold total_size, attachments_where. simpl.
  erewrite sum_permutation; [|apply fmap_Permutation, bind_Permutation; unfold rows; by rewrite map_to_list_insert].
  rewrite fmap_cons, bind_cons. simpl.
  unfold left_join at 1. rewrite (cipher_rows_unique d (at_cipher_uuid a) c) by done. simpl. rewrite Hp. simpl. done.
Qed.
Lemma total_size_update p d a a' c :
  tables_ok d → ciphers d !! at_cipher_uuid a = Some c → p c = true → attachments d !! at_id a = Some a →
  at_id a' = at_id a → at_cipher_uuid a' = at_cipher_uuid a →
  total_size p (d <| attachments := <[at_id a' := a']> (attachments d) |>) =
  (at_file_size a' - at_file_size a + total_size p d)%Z.
Proof.
  intros Hok Hc Hp Ha Hid Hcid.
  set (d0 := d <| attachments := delete (at_id a) (attachments d) |>).
  assert (tables_ok d0) as Hok0.
  { destruct Hok. split; try done. intros k r Hr. simpl in Hr. apply lookup_delete_Some in Hr as [_ Hr]. auto. }
  assert (d <| attachments := <[at_id a' := a']> (attachments d) |> = d0 <| attachments := <[at_id a' := a']> (attachments d0) |>) as ->.
  { destruct d. unfold d0. simpl. unfold setf. simpl. f_equal. rewrite Hid. by rewrite insert_delete_eq. }
  assert (d = d0 <| attachments := <[at_id a := a]> (attachments d0) |>) as Hd.
  { destruct d. unfold d0. simpl in *. unfold setf. simpl. f_equal. by rewrite insert_delete_id. }
  rewrite (total_size_insert p d0 a' c); [|done|by rewrite Hcid|done|by unfold d0; simpl; rewrite Hid, lookup_delete_eq].
  rewrite Hd at 1. rewrite (total_size_insert p d0 a c); [lia|done..|]. unfold d0. simpl. apply lookup_delete_eq.
Qed.

Lemma attachment_room_spec limit used adjust room :
  attachment_room limit used adjust = Some room → room = (limit * 1024 - used + adjust)%Z.
Proof. unfold attachment_room, to_i64. intros H. repeat (case_match; simplify_eq/=); lia. Qed.
Lemma wp_attachment_limit c adj e w limit p (Φ : res Error (option Z) → World → Prop) :
  quota_of e c = Some (Some limit, p) →
  (∀ x, Φ (Err x) w) →
  (let used := sum_to_i64 (at_file_size <$> attachments_where p (db w)) in
   Φ (Ok (Some (limit * 1024 - used + adj)%Z)) w) →
  wp (attachment_size_limit c adj) e w Φ.
Proof.
  intros Hq He Hok. unfold attachment_size_limit, quota_of in *.
  assert (∀ m, m = query (λ d, sum_to_i64 (at_file_size <$> attachments_where p d)) →
    wp (attachment_limit (Some limit) m adj) e w Φ) as H.
  { intros m ->. unfold attachment_limit. destruct limit; [wp_go; apply He|..];
      (wp_go; [|apply He..]); (apply attachment_room_spec in Ho; by rewrite Ho). }
  destruct (ci_user_uuid c) as [u|]; [|destruct (ci_organization_uuid c); [|done]]; injection Hq as Hl <-;
    do 3 wp_step; rewrite Hl; by apply H.
Qed.
Lemma adjust_attachment_total a n e w p c :
  tables_ok (db w) → ciphers (db w) !! at_cipher_uuid a = Some c → p c = true → attachments (db w) !! at_id a = Some a →
  wp (adjust_attachment a n) e w (λ r w', r = Ok tt →
    total_size p (db w') = (n - at_file_size a + total_size p (db w))%Z).
Proof.
  intros Hok Hc Hp Ha. unfold adjust_attachment, Attachment_save. wp_go; try done.
  - apply Z.eqb_eq in Hb0. intros _. lia.
  - intros _. exact (total_size_update p (db w) a
      (mkAttachment (at_id a) (at_cipher_uuid a) (at_file_name a) n (at_akey a)) c Hok Hc Hp Ha eq_refl eq_refl).
  - apply wp_intro. intros [[]|x|] w' _; wp_go; done.
Qed.
Lemma total_size_same p d d' : vault_tables d' = vault_tables d → total_size p d' = total_size p d.
Proof.
  unfold vault_tables, total_size, attachments_where. intros H.
  assert (ciphers d' = ciphers d ∧ attachments d' = attachments d) as [-> ->] by (split; congruence). done.
Qed.
(** The steps after the record is stored *)
Lemma wp_upload_tail p cid f content c h t e w (Φ : res Error Cipher → World → Prop) :
  (∀ r w', total_size p (db w') = total_size p (db w) → Φ r w') →
  wp (save_attachment_file (cid, f) content true) e w
    (bind_post (λ _, do* notify_cipher c in do* log_cipher h t c in mret c) e Φ).
Proof.
  intros HΦ. apply (wp_keeps id).
  { unfold save_attachment_file, attachments_operator. solve_keeps. intros e' w'. unfold wp. by case_match. }
  intros [[]|x|] w1 Hw1; simpl in Hw1; [|simpl; apply HΦ; by rewrite Hw1..]. wp_step.
  eapply wp_mono; [apply (within_bind (notify_cipher c)); [apply quiet_notify_cipher|intros _]|].
  { apply within_bind; [apply quiet_log_cipher|done]. }
  intros r w2 [Hv _]. apply HΦ. by rewrite (total_size_same _ _ _ Hv), Hw1.
Qed.

(** C32: after a successful upload, the attachments that count against the same
    quota, the user's or the organization's, take no more room than its limit,
    whether the upload announced its size before or not. *)
Theorem save_attachment_quota `{!Serde ProtectedActionData pa_stored} `{FL : FileLinks}
    attachment cid data h e w c limit p c' w' :
  tables_ok (db w) → ciphers (db w) !! cid = Some c → quota_of e c = Some (Some limit, p) →
  match attachment with
  | Some a => attachments (db w) !! at_id a = Some a ∧ at_cipher_uuid a = cid
  | None => attachments (db w) !! encode_hexlower e (random_bytes_at e (tick w) 10) = None
  end →
  to_i64 (total_size p (db w)) = Some (total_size p (db w)) →
  save_attachment attachment cid data h e w = (Ok c', w') →
  (total_size p (db w') ≤ limit * 1024)%Z.
Proof.
  intros Hok Hc Hq Hatt Hfits Hrun.
  assert (p c = true) as Hp.
  { unfold quota_of in Hq. destruct (ci_user_uuid c) eqn:E; [|destruct (ci_organization_uuid c) eqn:E'; [|done]];
      injection Hq as _ <-; unfold owned_by_user, owned_by_org; apply null_eq_Some; done. }
  assert (sum_to_i64 (at_file_size <$> attachments_where p (db w)) = total_size p (db w)) as Hsum.
  { unfold sum_to_i64. change (foldr Z.add 0%Z (at_file_size <$> attachments_where p (db w))) with (total_size p (db w)).
    rewrite Hfits. unfold total_size. by destruct (at_file_size <$> _). }
  enough (wp (save_attachment attachment cid data h) e w (λ r w', ∀ x, r = Ok x → (total_size p (db w') ≤ limit * 1024)%Z))
    as Hwp by exact (wp_run _ _ _ _ Hwp _ _ Hrun c' eq_refl).
  clear Hrun. unfold save_attachment, Cipher_find_by_uuid. wp_go; try done. rewrite Hc in Ho0. injection Ho0 as <-.
  apply wp_reads; [apply reads_has_write|]. intros [ok|x|]; [|done..]. wp_go; [|done].
  apply (wp_attachment_limit _ _ _ _ limit p); [done..|]. rewrite Hsum. simpl. wp_step.
  apply wp_ensure; [|done]. intros Hlim. wp_step. apply negb_true_iff, Z.ltb_ge in Hlim.
  destruct attachment as [att|]; simpl in *.
  - destruct Hatt as [Ha Hcid]. wp_go. rewrite <- Hcid in Hc. eapply wp_mono; [by eapply adjust_attachment_total|].
    intros [[]|x|] w1 Hw1; [|done..]. do 2 wp_step. apply (wp_upload_tail p). intros r w2 Hw2 x _.
    rewrite Hw2, Hw1 by done. lia.
  - unfold generate_attachment_id, encode_random_bytes, get_random_bytes, create_attachment, Attachment_save. wp_go; try done.
    apply (wp_upload_tail p). intros r w2 Hw2 x _. rewrite Hw2.
    pose proof (total_size_insert p (db w) (mkAttachment _ cid a0 a (Some a1)) c Hok Hc Hp Hatt) as Hi. simpl in Hi.
    eapply Z.le_trans; [apply Z.eq_le_incl; exact Hi|lia].
Qed.

(** ** Requests that end badly *)

(** A client whose copy of a cipher is older by more than a second cannot
    update it: nothing changes. *)
Theorem stale_update_refused c data h sh ut e w s t :
  ut ≠ UpdateNone → cp_last_known_revision_date data = Some s → parse_iso8601 e s = Some t →
  (1 < num_seconds (ci_updated_at c - t))%Z →
  ∃ r, update_cipher_from_data c data h sh ut e w = (r, w) ∧ ∀ c', r ≠ Ok c'.
Proof.
  intros Hut Hd Hp Hlate. assert (wp (update_cipher_from_data c data h sh ut) e w (λ r w', w' = w ∧ ∀ c', r ≠ Ok c')) as H.
  { unfold update_cipher_from_data. wp_step. apply wp_reads; [apply reads_ownership_policy|]. intros [[]|x|]; [|done..].
    do 2 wp_step. unfold check_stale. rewrite bool_decide_eq_false_2, Hd by done. do 3 wp_step. rewrite Hp.
    apply wp_ensure; [|done]. apply Z.ltb_lt in Hlate. by rewrite Hlate. }
  apply wp_exists in H as (r & w' & Hrun & -> & H). eauto.
Qed.

Lemma writable_same c u e w w' :
  context (db w') = context (db w) →
  Collection_is_writable_by_user c u e w = (Ok true, w) → Collection_is_writable_by_user c u e w' = (Ok true, w').
Proof.
  unfold context. intros [= E1 E2 E3 E4 E5 E6]. unfold Collection_is_writable_by_user, conf, ask, query, mbind.
  unfold writable_rows, users_collection_of, join_collection_groups, join_groups. rewrite E1, E2, E3, E4, E5, E6.
  intros H. assert (∀ b : bool, (Ok b : res Error bool, w) = (Ok true, w) → b = true) as Hf by congruence.
  apply Hf in H. by rewrite H.
Qed.
Lemma safe_collection_revision col : safe (CollectionCipher_update_users_revision col).
Proof. unfold CollectionCipher_update_users_revision, Collection_update_users_revision. solve_keeps. Qed.
Lemma share_to_collections_links id org u l e w :
  (∀ col, col ∈ l → ∃ x, collections (db w) !! col = Some x ∧ c_uuid x = col ∧ c_org_uuid x = org ∧
     Collection_is_writable_by_user x u e w = (Ok true, w)) →
  wp (share_to_collections id org u l) e w (λ r w', (∃ cols, r = Ok cols) ∧ context (db w') = context (db w) ∧
    ciphers (db w') = ciphers (db w) ∧ ciphers_collections (db w) ⊆ ciphers_collections (db w') ∧
    ∀ col, col ∈ l → (id, col) ∈ ciphers_collections (db w')).
Proof.
  revert w. induction l as [|col l IH]; intros w Hl; simpl.
  { wp_go. split_and!; eauto. intros col []%elem_of_nil. }
  destruct (Hl col) as (x & Hx & Hid & Horg & Hwr); [by left|]. unfold Collection_find_by_uuid_and_org. wp_go;
    rewrite Hx in Ho; simpl in Ho; rewrite bool_decide_eq_true_2 in Ho by done; [injection Ho as <-|done].
  eapply wp_eq; [exact Hwr|]. do 2 wp_step. apply wp_ensure; [|done]. intros _. do 2 wp_step. unfold CollectionCipher_save.
  wp_step. apply (wp_within_safe (R := same_vault)); [apply quiet_collection_revision|apply safe_collection_revision|]. intros [] w1 [Hv _].
  assert (context (db w1) = context (db w) ∧ ciphers (db w1) = ciphers (db w) ∧
    ciphers_collections (db w1) = ciphers_collections (db w)) as (E1 & E2 & E3)
    by (unfold vault_tables in Hv; split_and!; congruence).
  do 4 wp_step. eapply wp_mono; [apply IH|].
  { intros col' Hcol'. destruct (Hl col') as (x' & Hx' & Hid' & Horg' & Hwr'); [by right|]. exists x'. simpl.
    assert (collections (db w1) = collections (db w)) as -> by (unfold context in E1; congruence).
    split_and!; try done. by apply (writable_same _ _ _ w). }
  intros r w2 ([cols ->] & H1 & H2 & H3 & H4). do 2 wp_step. simpl in H1, H2, H3. rewrite Hid, E3 in H3.
  split_and!; [eauto|by rewrite H1|by rewrite H2|set_solver|]. intros col' [->|Hcol']%elem_of_cons; [set_solver|by apply H4].
Qed.
(** Sharing a cipher of one organization into collections of another is
    refused, but after the links are made: the cipher, still of the first
    organization, is in the collections of the second. *)
Theorem share_leaves_foreign_link `{!Serde ProtectedActionData pa_stored} `{FL : FileLinks} id data h ut e w c a b :
  ciphers (db w) !! id = Some c → ci_uuid c = id → ci_organization_uuid c = Some a →
  cp_organization_id (sc_cipher data) = Some b → a ≠ b →
  Cipher_is_write_accessible_to_user c (u_uuid (h_user h)) e w = (Ok true, w) →
  (∀ col, col ∈ sc_collection_ids data → ∃ x, collections (db w) !! col = Some x ∧ c_uuid x = col ∧ c_org_uuid x = b ∧
     Collection_is_writable_by_user x (u_uuid (h_user h)) e w = (Ok true, w)) →
  ∃ r w', share_cipher_by_uuid id data h ut e w = (r, w') ∧ (∀ j, r ≠ Ok j) ∧ ciphers (db w') !! id = Some c ∧
    ∀ col, col ∈ sc_collection_ids data → (id, col) ∈ ciphers_collections (db w').
Proof.
  intros Hc Hid Ha Hb Hne Hw Hcols. apply wp_exists. unfold share_cipher_by_uuid, Cipher_find_by_uuid.
  do 3 wp_step. rewrite Hc. wp_step. apply wp_some_or_err; [|done]. intros ? [= <-]. do 2 wp_step.
  eapply wp_eq; [exact Hw|]. do 2 wp_step.
  apply wp_ensure; [|done]. intros _. do 2 wp_step. rewrite Hb, Hid.
  eapply wp_mono; [by apply share_to_collections_links|]. intros r w1 ([cols ->] & _ & H2 & _ & H4). wp_step. wp_step.
  unfold update_cipher_from_data. wp_step. unfold enforce_personal_ownership_policy. rewrite bool_decide_eq_false_2
    by (simpl; by rewrite Hb). do 3 wp_step. apply wp_reads; [apply reads_check_stale|].
  intros [[]|x|]; [|simpl; rewrite H2; by split..]. do 2 wp_step. apply wp_ensure.
  - rewrite Ha, Hb. rewrite !bool_decide_eq_false_2 by congruence. done.
  - intros _. simpl. rewrite H2. by split.
Qed.

Lemma import_folders_length existing u l e w :
  wp (import_folders existing u l) e w (λ r _, ∃ ids, r = Ok ids ∧ length ids = length l).
Proof.
  revert w. induction l as [|f l IH]; intros w; simpl; [wp_go; by exists []|].
  assert (∀ id w1, wp (import_folders existing u l) e w1 (bind_post (λ rest, mret (id :: rest)) e
    (λ r _, ∃ ids, r = Ok ids ∧ length ids = S (length l)))) as Hrest.
  { intros id w1. eapply wp_mono; [apply IH|]. intros r w2 (ids & -> & Hlen). do 2 wp_step.
    exists (id :: ids). simpl. auto. }
  wp_step. case_match; [do 3 wp_step; apply Hrest|]. unfold Folder_new, Folder_save. wp_go.
  apply (wp_within_safe (R := same_vault)); [apply quiet_revision|apply safe_update_uuid_revision|]. intros [] w1 _. wp_go. apply Hrest.
Qed.
(** An import that puts its first cipher into a folder that is not in the
    request never succeeds: unless it is refused at once, the handler panics,
    after the folders of the request were created. *)
Theorem import_bad_relation_panics data h e w d l j :
  im_ciphers data = d :: l → relations_map (im_folder_relationships data) !! 0 = Some j → length (im_folders data) ≤ j →
  ∃ r w', post_ciphers_import data h e w = (r, w') ∧ (r = Panic ∨ w' = w ∧ ∃ x, r = Err x).
Proof.
  intros Hl Hj Hlen. apply wp_exists. unfold post_ciphers_import, Cipher_validate_cipher_data, Folder_find_by_user.
  wp_step. apply wp_reads; [apply reads_ownership_policy|]. intros [[]|x|]; [|simpl; eauto..]. do 4 wp_step.
  wp_step. case_match; [|wp_go; eauto]. do 6 wp_step.
  eapply wp_mono; [apply import_folders_length|]. intros r w1 (ids & -> & Hids). do 2 wp_step. rewrite Hl. simpl.
  rewrite Hj, lookup_ge_None_2 by lia. wp_go; eauto. done.
Qed.

(** ** Witnesses *)

Module ToyEffects.
Import ToyEnv ToyUsers ToyTwoFactor ToyLinks ToyVault ToyRequests.

(** Alice's cipher with an attachment, in a folder of hers. *)
Definition c2 : Cipher := toy_cipher "c2" (Some "alice") None.
Definition own_vault : World := toy_vault <| db := toy_vault_db
  <| ciphers := {["c1" := c1; "c2" := c2]} |>
  <| attachments := {["a1" := mkAttachment "a1" "c2" "file" 100 None]} |>
  <| folders := {["f1" := mkFolder "f1" 0 0 "alice" "one"; "f2" := mkFolder "f2" 0 0 "alice" "two"]} |>
  <| folders_ciphers := {[("c2", "f1")]} |> |>.
Lemma own_vault_ok : tables_ok (db own_vault).
Proof. apply (bool_decide_unpack (tables_ok (db own_vault))). vm_compute. exact I. Qed.

Lemma Cipher_delete_spec_witness :
  (∃ w', Cipher_delete c2 (toy_env 0) own_vault = (Ok tt, w') ∧ without_cipher "c2" (db own_vault) (db w')) ∧
  ∃ x w', Cipher_delete c2 ((toy_env 0) <| storage_available := false |>) own_vault = (Err x, w') ∧
    ciphers (db w') = ciphers (db own_vault).
Proof.
  split.
  - destruct (Cipher_delete_spec c2 (toy_env 0) own_vault own_vault_ok) as (r & w' & Hr & H & _).
    destruct H as (-> & Hw & _); [by left|]. exact (ex_intro _ w' (conj Hr Hw)).
  - destruct (Cipher_delete_spec c2 ((toy_env 0) <| storage_available := false |>) own_vault own_vault_ok)
      as (r & w' & Hr & _ & H).
    destruct H as ([x ->] & Hw & _); [reflexivity| |exact (ex_intro _ x (ex_intro _ w' (conj Hr Hw)))]. vm_compute. discriminate.
Defined.
Lemma Cipher_move_to_folder_spec_witness :
  ∃ w', Cipher_move_to_folder c2 (Some "f2") "alice" (toy_env 0) own_vault = (Ok tt, w') ∧
    ∀ k, in_folder (db w') "alice" "c2" k ↔ Some "f2" = Some k.
Proof.
  destruct (Cipher_move_to_folder_spec c2 (Some "f2") "alice" (toy_env 0) own_vault own_vault_ok) as (w' & Hw & _ & H & _).
  - assert (∀ k, in_folder (db own_vault) "alice" (ci_uuid c2) k → k = "f1") as H1.
    { intros k [Hk _]. change ((ci_uuid c2, k) ∈ ({[("c2", "f1")]} : gset (string * string))) in Hk.
      apply elem_of_singleton in Hk. congruence. }
    intros k k' Hk Hk'. by rewrite (H1 k Hk), (H1 k' Hk').
  - intros k [= <-]. eexists. split; reflexivity.
  - exact (ex_intro _ w' (conj Hw H)).
Defined.
Definition quota_env : Env := (toy_env 5) <| cfg := toy_config <| user_attachment_limit := Some 1%Z |> |>.
Definition upload (n : nat) : UploadData := mkUploadData (Some "key") (mkTempFile (Some "name") (replicate n 0%Z)).
Lemma save_attachment_quota_witness :
  ∃ c' w', save_attachment None "c2" (upload 500) (vault_user "alice") quota_env own_vault = (Ok c', w') ∧
    (total_size (owned_by_user "alice") (db w') ≤ 1 * 1024)%Z.
Proof.
  destruct (save_attachment None "c2" (upload 500) (vault_user "alice") quota_env own_vault) as [r w'] eqn:Hrun.
  pose proof (f_equal fst Hrun) as Hr. vm_compute in Hr. destruct r as [c'|x|]; [|discriminate..]. exists c', w'. split; [reflexivity|].
  apply (save_attachment_quota None "c2" (upload 500) (vault_user "alice") quota_env own_vault c2 1 _ c' w');
    [exact own_vault_ok|reflexivity..|exact Hrun].
Defined.
Definition stale_data : CipherData :=
  mkCipherData None None None None 1 "n" None None (Some (JObj [])) None None None None None None None None
    (Some (pos_to_str (encode (-5000000)%Z))) None.
Lemma stale_update_refused_witness :
  ∃ r, update_cipher_from_data (c2 <| ci_updated_at := 1000000000000%Z |>) stale_data (vault_user "alice") None
         SyncCipherUpdate (toy_env 0) own_vault = (r, own_vault) ∧ ∀ c', r ≠ Ok c'.
Proof.
  apply (stale_update_refused _ _ _ _ _ _ _ (pos_to_str (encode (-5000000)%Z)) (-5000000)%Z);
    [discriminate|reflexivity|vm_compute; reflexivity|vm_compute; reflexivity].
Defined.
(** Bob is also the owner of another organization. *)
Definition two_orgs : World := toy_vault <| db := toy_vault_db
  <| users_organizations := {["m1" := toy_membership "m1" "alice" 2; "m2" := toy_membership "m2" "bob" 2;
       "m3" := mkMembership "m3" "bob" "org2" None true "" 2 0 None None]} |>
  <| collections := {["col1" := mkCollection "col1" "org" "one" None; "col3" := mkCollection "col3" "org2" "three" None]} |> |>.
Definition foreign_share : ShareCipherData :=
  mkShareCipherData (stale_data <| cp_organization_id := Some "org2" |>) ["col3"].
Lemma share_leaves_foreign_link_witness :
  ∃ r w', share_cipher_by_uuid "c1" foreign_share
    (vault_user "bob") None (toy_env 0) two_orgs = (r, w') ∧ (∀ j, r ≠ Ok j) ∧ ciphers (db w') !! "c1" = Some c1 ∧
    ∀ col, col ∈ sc_collection_ids foreign_share → ("c1", col) ∈ ciphers_collections (db w').
Proof.
  apply (share_leaves_foreign_link "c1" foreign_share (vault_user "bob") None (toy_env 0) two_orgs c1 "org" "org2");
    [reflexivity..|discriminate|vm_compute; reflexivity|].
  intros col Hcol. apply list_elem_of_singleton in Hcol as ->. eexists. split; [reflexivity|].
  split; [reflexivity|]. split; [reflexivity|]. vm_compute. reflexivity.
Defined.
Lemma import_bad_relation_panics_witness :
  ∃ w', post_ciphers_import (mkImportData [stale_data] [mkFolderData "new" None] [mkRelationsData 0 1])
    (vault_user "alice") (toy_env 0) own_vault = (Panic, w') ∧ size (folders (db w')) = 3.
Proof.
  destruct (import_bad_relation_panics (mkImportData [stale_data] [mkFolderData "new" None] [mkRelationsData 0 1])
    (vault_user "alice") (toy_env 0) own_vault stale_data [] 1 eq_refl eq_refl) as (r & w' & Hr & H); [simpl; lia|].
  assert ((post_ciphers_import (mkImportData [stale_data] [mkFolderData "new" None] [mkRelationsData 0 1])
    (vault_user "alice") (toy_env 0) own_vault).1 = Panic) as E1 by (vm_compute; reflexivity).
  assert (size (folders (db (post_ciphers_import (mkImportData [stale_data] [mkFolderData "new" None] [mkRelationsData 0 1])
    (vault_user "alice") (toy_env 0) own_vault).2)) = 3) as E2 by (vm_compute; reflexivity).
  rewrite Hr in E1, E2. cbn [fst snd] in E1, E2. subst r. exact (ex_intro _ w' (conj Hr E2)).
Defined.
End ToyEffects.
