(* ===== verification/EmergencyAccess.v ===== *)
(** * Emergency access

    [server/src/db/models/emergency_access.rs] and every handler and job of
    [server/src/api/core/emergency_access.rs].  A grantor names a grantee, who
    may take over (or view) the vault after a waiting time in which the grantor
    can refuse.  This file holds the definitions; [EmergencyProtocol] has the
    state machine they implement and its properties. *)

From stdpp Require Import base strings numbers pretty gmap list.
From S2P Require Import Prelude Store Queries Users Orgs AuthRequests TwoFactor Collections Folders Ciphers Signups.

(** ** Model *)

Inductive EmergencyAccessType := View | Takeover.
Definition EmergencyAccessType_to_i32 (t : EmergencyAccessType) : Z :=
  match t with View => 0 | Takeover => 1 end.
Definition EmergencyAccessType_from_str (s : string) : option EmergencyAccessType :=
  if bool_decide (s ∈ ["0"; "View"]) then Some View
  else if bool_decide (s ∈ ["1"; "Takeover"]) then Some Takeover
  else None.

Inductive EmergencyAccessStatus := Invited | Accepted | Confirmed | RecoveryInitiated | RecoveryApproved.
Definition EmergencyAccessStatus_to_i32 (s : EmergencyAccessStatus) : Z :=
  match s with
  | Invited => 0 | Accepted => 1 | Confirmed => 2 | RecoveryInitiated => 3 | RecoveryApproved => 4
  end.
Definition has_status (r : EmergencyAccess) (s : EmergencyAccessStatus) : bool :=
  (ea_status r =? EmergencyAccessStatus_to_i32 s)%Z.

Definition EmergencyAccess_new (grantor_uuid email : string) (status atype wait_time_days : Z) : M EmergencyAccess :=
  let* t := ask now in
  let* uuid := get_uuid in
  mret {|
    ea_uuid := uuid; ea_grantor_uuid := grantor_uuid; ea_grantee_uuid := None; ea_email := Some email;
    ea_key_encrypted := None; ea_atype := atype; ea_status := status; ea_wait_time_days := wait_time_days;
    ea_recovery_initiated_at := None; ea_last_notification_at := None; ea_updated_at := t; ea_created_at := t;
  |}.

Definition EmergencyAccess_get_type_as_str (self : EmergencyAccess) : string :=
  if (ea_atype self =? EmergencyAccessType_to_i32 View)%Z then "View" else "Takeover".

Definition json_head (self : EmergencyAccess) : list (string * Json) :=
  [("id", JStr (ea_uuid self)); ("status", JNum (ea_status self)); ("type", JNum (ea_atype self));
   ("waitTimeDays", JNum (ea_wait_time_days self))].
Definition json_user (id_key : string) (u : User) : list (string * Json) :=
  [(id_key, JStr (u_uuid u)); ("email", JStr (u_email u)); ("name", JStr (u_name u));
   ("avatarColor", json_opt JStr (u_avatar_color u))].
Definition EmergencyAccess_to_json (self : EmergencyAccess) : Json :=
  JObj (json_head self ++ [("object", JStr "emergencyAccess")]).
Definition EmergencyAccess_to_json_grantor_details (self : EmergencyAccess) : M Json :=
  let* u := User_find_by_uuid (ea_grantor_uuid self) in
  let* grantor_user := mexpect u in
  mret (JObj (json_head self ++ json_user "grantorId" grantor_user ++
              [("object", JStr "emergencyAccessGrantorDetails")])).

(** *** Queries *)

Definition ea_find (p : EmergencyAccess → bool) : M (option EmergencyAccess) :=
  query (λ d, first p (emergency_access d)).
Definition ea_load (p : EmergencyAccess → bool) : M (list EmergencyAccess) :=
  query (λ d, load p (emergency_access d)).
Definition ea_get (uuid : string) (p : EmergencyAccess → bool) : M (option EmergencyAccess) :=
  query (λ d, r ← emergency_access d !! uuid; if p r then Some r else None).

Definition EmergencyAccess_find_by_grantor_uuid_and_grantee_uuid_or_email (grantor_uuid grantee_uuid email : string)
    : M (option EmergencyAccess) :=
  ea_find (λ r, bool_decide (ea_grantor_uuid r = grantor_uuid) &&
    (bool_decide (ea_grantee_uuid r = Some grantee_uuid) || bool_decide (ea_email r = Some email))).
Definition EmergencyAccess_find_all_recoveries_initiated : M (list EmergencyAccess) :=
  ea_load (λ r, has_status r RecoveryInitiated && bool_decide (is_Some (ea_recovery_initiated_at r))).
Definition EmergencyAccess_find_by_uuid_and_grantor_uuid (uuid grantor_uuid : string) : M (option EmergencyAccess) :=
  ea_get uuid (λ r, bool_decide (ea_grantor_uuid r = grantor_uuid)).
Definition EmergencyAccess_find_by_uuid_and_grantee_uuid (uuid grantee_uuid : string) : M (option EmergencyAccess) :=
  ea_get uuid (λ r, bool_decide (ea_grantee_uuid r = Some grantee_uuid)).
Definition EmergencyAccess_find_by_uuid_and_grantee_email (uuid grantee_email : string) : M (option EmergencyAccess) :=
  ea_get uuid (λ r, bool_decide (ea_email r = Some grantee_email)).
Definition EmergencyAccess_find_all_by_grantee_uuid (grantee_uuid : string) : M (list EmergencyAccess) :=
  ea_load (λ r, bool_decide (ea_grantee_uuid r = Some grantee_uuid)).
Definition EmergencyAccess_find_invited_by_grantee_email (grantee_email : string) : M (option EmergencyAccess) :=
  ea_find (λ r, bool_decide (ea_email r = Some grantee_email) && has_status r Invited).
Definition EmergencyAccess_find_all_invited_by_grantee_email (grantee_email : string) : M (list EmergencyAccess) :=
  ea_load (λ r, bool_decide (ea_email r = Some grantee_email) && has_status r Invited).
Definition EmergencyAccess_find_all_by_grantor_uuid (grantor_uuid : string) : M (list EmergencyAccess) :=
  ea_load (λ r, bool_decide (ea_grantor_uuid r = grantor_uuid)).
Definition EmergencyAccess_find_all_confirmed_by_grantor_uuid (grantor_uuid : string) : M (list EmergencyAccess) :=
  ea_load (λ r, bool_decide (ea_grantor_uuid r = grantor_uuid) &&
                (EmergencyAccessStatus_to_i32 Confirmed <=? ea_status r)%Z).

(** *** Updates *)

Definition EmergencyAccess_save (self : EmergencyAccess) : M EmergencyAccess :=
  do* User_update_uuid_revision (ea_grantor_uuid self) in
  let* t := ask now in
  let self := self <| ea_updated_at := t |> in
  do* exec (λ d, d <| emergency_access := <[ea_uuid self := self]> (emergency_access d) |>) in
  mret self.

(** Only the status and the date are written, by identifier. *)
Definition EmergencyAccess_update_access_status_and_save (self : EmergencyAccess) (status date : Z) : M EmergencyAccess :=
  let* grantee := mexpect (ea_grantee_uuid self) in
  do* User_update_uuid_revision grantee in
  do* exec (λ d, d <| emergency_access :=
    alter (λ r, r <| ea_status := status |> <| ea_updated_at := date |>) (ea_uuid self) (emergency_access d) |>) in
  mret (self <| ea_status := status |> <| ea_updated_at := date |>).
Definition EmergencyAccess_update_last_notification_date_and_save (self : EmergencyAccess) (date : Z) : M EmergencyAccess :=
  do* exec (λ d, d <| emergency_access :=
    alter (λ r, r <| ea_last_notification_at := Some date |> <| ea_updated_at := date |>) (ea_uuid self)
      (emergency_access d) |>) in
  mret (self <| ea_last_notification_at := Some date |> <| ea_updated_at := date |>).

Definition EmergencyAccess_delete (self : EmergencyAccess) : M unit :=
  do* User_update_uuid_revision (ea_grantor_uuid self) in
  exec (λ d, d <| emergency_access := delete (ea_uuid self) (emergency_access d) |>).
Definition EmergencyAccess_delete_all_by_user (user_uuid : string) : M unit :=
  let* l := EmergencyAccess_find_all_by_grantor_uuid user_uuid in
  do* for_each l EmergencyAccess_delete in
  let* l := EmergencyAccess_find_all_by_grantee_uuid user_uuid in
  for_each l EmergencyAccess_delete.
Definition EmergencyAccess_delete_all_by_grantee_email (grantee_email : string) : M unit :=
  let* l := EmergencyAccess_find_all_invited_by_grantee_email grantee_email in
  for_each l EmergencyAccess_delete.

Definition EmergencyAccess_accept_invite (self : EmergencyAccess) (grantee_uuid grantee_email : string)
    : M EmergencyAccess :=
  do* ensure (bool_decide (ea_email self = Some grantee_email)) "User email does not match invite." in
  do* ensure (negb (has_status self Accepted)) "Emergency contact already accepted." in
  EmergencyAccess_save (self <| ea_status := EmergencyAccessStatus_to_i32 Accepted |>
                             <| ea_grantee_uuid := Some grantee_uuid |> <| ea_email := None |>).

(** Outstanding invitations of unknown users are removed on the way. *)
Definition EmergencyAccess_to_json_grantee_details (self : EmergencyAccess) : M (option Json) :=
  let* grantee_user := match ea_grantee_uuid self with
    | Some grantee_uuid =>
       let* u := User_find_by_uuid grantee_uuid in
       let* user := mexpect u in
       mret (Some user)
    | None =>
       match ea_email self with
       | None => mret None
       | Some email =>
          let* u := User_find_by_mail email in
          match u with
          | Some user => mret (Some user)
          | None => do* mignore (EmergencyAccess_delete_all_by_grantee_email email) in mret None
          end
       end
    end in
  match grantee_user with
  | None => mret None
  | Some u => mret (Some (JObj (json_head self ++ json_user "granteeId" u ++
                                [("object", JStr "emergencyAccessGranteeDetails")])))
  end.

(** ** Handlers *)

(** The claims of an invitation token. *)
Record EmergencyAccessInviteJwtClaims := mkInviteClaims {
  cl_nbf : Z; cl_exp : Z; cl_iss : string; cl_sub : string; cl_email : string; cl_emer_id : string; cl_grantor_name : string; cl_grantor_email : string }.

Definition check_emergency_access_enabled : M unit :=
  let* allowed := conf emergency_access_allowed in
  ensure allowed "Emergency access is not enabled.".

Definition is_valid_request (emergency_access : EmergencyAccess) (requesting_user_id : string)
    (requested_access_type : EmergencyAccessType) : bool :=
  bool_decide (ea_grantee_uuid emergency_access = Some requesting_user_id)
  && has_status emergency_access RecoveryApproved
  && (ea_atype emergency_access =? EmergencyAccessType_to_i32 requested_access_type)%Z.

(** [for x in l { out.push(f(x)) }], where [f] may skip an element *)
Fixpoint collect_some {A B} (l : list A) (f : A → M (option B)) : M (list B) :=
  match l with
  | [] => mret []
  | x :: l =>
     let* y := f x in
     let* ys := collect_some l f in
     mret (match y with Some y => y :: ys | None => ys end)
  end.

Definition get_contacts (headers : Headers) : M Json :=
  let* allowed := conf emergency_access_allowed in
  let* l := (if allowed then EmergencyAccess_find_all_by_grantor_uuid (u_uuid (h_user headers)) else mret []) in
  let* out := collect_some l EmergencyAccess_to_json_grantee_details in
  mret (json_list out).

Definition get_grantees (headers : Headers) : M Json :=
  let* allowed := conf emergency_access_allowed in
  let* l := (if allowed then EmergencyAccess_find_all_by_grantee_uuid (u_uuid (h_user headers)) else mret []) in
  let* out := collect_some l (λ ea, let* j := EmergencyAccess_to_json_grantor_details ea in mret (Some j)) in
  mret (json_list out).

Definition get_emergency_access (emer_id : string) (headers : Headers) : M Json :=
  do* check_emergency_access_enabled in
  let* found := EmergencyAccess_find_by_uuid_and_grantor_uuid emer_id (u_uuid (h_user headers)) in
  match found with
  | Some emergency_access =>
     let* j := EmergencyAccess_to_json_grantee_details emergency_access in
     mexpect j
  | None => err "Emergency access not valid."
  end.

Record EmergencyAccessUpdateData := mkEmergencyAccessUpdateData {
  up_type : NumberOrString; up_wait_time_days : Z; up_key_encrypted : option string }.

Definition post_emergency_access (emer_id : string) (data : EmergencyAccessUpdateData) (headers : Headers) : M Json :=
  do* check_emergency_access_enabled in
  let* found := EmergencyAccess_find_by_uuid_and_grantor_uuid emer_id (u_uuid (h_user headers)) in
  let* emergency_access := some_or_err found "Emergency access not valid." in
  let* new_type := some_or_err (EmergencyAccessType_from_str (into_string (up_type data)))
                     "Invalid emergency access type." in
  let emergency_access := emergency_access <| ea_atype := EmergencyAccessType_to_i32 new_type |>
                                           <| ea_wait_time_days := up_wait_time_days data |> in
  let emergency_access := match up_key_encrypted data with
                          | Some k => emergency_access <| ea_key_encrypted := Some k |>
                          | None => emergency_access
                          end in
  let* emergency_access := EmergencyAccess_save emergency_access in
  mret (EmergencyAccess_to_json emergency_access).
Definition put_emergency_access := post_emergency_access.

Definition delete_emergency_access (emer_id : string) (headers : Headers) : M unit :=
  do* check_emergency_access_enabled in
  let* by_grantor := EmergencyAccess_find_by_uuid_and_grantor_uuid emer_id (u_uuid (h_user headers)) in
  let* by_grantee := EmergencyAccess_find_by_uuid_and_grantee_uuid emer_id (u_uuid (h_user headers)) in
  match by_grantor, by_grantee with
  | Some grantor_emer, None => EmergencyAccess_delete grantor_emer
  | None, Some grantee_emer => EmergencyAccess_delete grantee_emer
  | _, _ => err "Emergency access not valid."
  end.
Definition post_delete_emergency_access := delete_emergency_access.

Record EmergencyAccessInviteData := mkEmergencyAccessInviteData {
  inv_email : string; inv_type : NumberOrString; inv_wait_time_days : Z }.

(** The grantee's account, made on the fly for an unknown address; the flag
    says that it has no password yet. *)
Definition invite_grantee (email : string) : M (User * bool) :=
  let* found := User_find_by_mail email in
  match found with
  | None =>
     let* allowed := conf invitations_allowed in
     do* ensure allowed ("Grantee user does not exist: " +:+ email) in
     let* domain_ok := is_email_domain_allowed email in
     do* ensure domain_ok "Email domain not eligible for invitations" in
     let* mail := conf mail_enabled in
     do* (if mail then mret tt
          else let* invitation := Invitation_new email in Invitation_save invitation) in
     let* user := User_new email None in
     let* user := User_save user in
     mret (user, true)
  | Some user => mret (user, bool_decide (u_password_hash user = []))
  end.

Definition send_invite (data : EmergencyAccessInviteData) (headers : Headers) : M unit :=
  do* check_emergency_access_enabled in
  let* email := ask (λ e, str_to_lowercase e (inv_email data)) in
  let wait_time_days := inv_wait_time_days data in
  let emergency_access_status := EmergencyAccessStatus_to_i32 Invited in
  let* new_type := some_or_err (EmergencyAccessType_from_str (into_string (inv_type data)))
                     "Invalid emergency access type." in
  let grantor_user := h_user headers in
  do* ensure (bool_decide (email ≠ u_email grantor_user)) "You can not set yourself as an emergency contact." in
  let* (grantee_user, new_user) := invite_grantee email in
  let* existing := EmergencyAccess_find_by_grantor_uuid_and_grantee_uuid_or_email
                     (u_uuid grantor_user) (u_uuid grantee_user) (u_email grantee_user) in
  do* ensure (bool_decide (existing = None)) ("Grantee user already invited: " +:+ u_email grantee_user) in
  let* new_emergency_access := EmergencyAccess_new (u_uuid grantor_user) (u_email grantee_user)
                                 emergency_access_status (EmergencyAccessType_to_i32 new_type) wait_time_days in
  let* new_emergency_access := EmergencyAccess_save new_emergency_access in
  let* mail := conf mail_enabled in
  if mail then
    let* addr := mexpect (ea_email new_emergency_access) in
    send_mail (MailEmergencyInvite addr (u_uuid grantee_user) (ea_uuid new_emergency_access)
                 (u_name grantor_user) (u_email grantor_user))
  else if negb new_user then
    let* _ := EmergencyAccess_accept_invite new_emergency_access (u_uuid grantee_user) email in mret tt
  else mret tt.

Definition resend_invite (emer_id : string) (headers : Headers) : M unit :=
  do* check_emergency_access_enabled in
  let* found := EmergencyAccess_find_by_uuid_and_grantor_uuid emer_id (u_uuid (h_user headers)) in
  let* emergency_access := some_or_err found "Emergency access not valid." in
  do* ensure (has_status emergency_access Invited)
    "The grantee user is already accepted or confirmed to the organization" in
  let* email := some_or_err (ea_email emergency_access) "Email not valid." in
  let* found := User_find_by_mail email in
  let* grantee_user := some_or_err found "Grantee user not found." in
  let grantor_user := h_user headers in
  let* mail := conf mail_enabled in
  if mail then
    send_mail (MailEmergencyInvite email (u_uuid grantor_user) (ea_uuid emergency_access)
                 (u_name grantor_user) (u_email grantor_user))
  else if negb (bool_decide (u_password_hash grantee_user = [])) then
    let* _ := EmergencyAccess_accept_invite emergency_access (u_uuid grantee_user) email in mret tt
  else
    let* allowed := conf invitations_allowed in
    let* inv := Invitation_find_by_mail email in
    if allowed && bool_decide (inv = None) then
      let* invitation := Invitation_new email in Invitation_save invitation
    else mret tt.

Section handlers.
(** The decoder of invitation tokens (signature check and claims). *)
Variable decode_emergency_access_invite : string → res Error EmergencyAccessInviteJwtClaims.
Context `{!Serde UserStampException id} `{FL : FileLinks}.

Definition lift_res {A} (r : res Error A) : M A := λ _ w, (r, w).

Definition accept_invite (emer_id token : string) (headers : Headers) : M unit :=
  do* check_emergency_access_enabled in
  let* claims := lift_res (decode_emergency_access_invite token) in
  do* ensure (bool_decide (cl_email claims = u_email (h_user headers)))
    "Claim email does not match current users email" in
  let* found := User_find_by_mail (cl_email claims) in
  let* grantee_user := match found with
    | Some user => let* _ := Invitation_take (cl_email claims) in mret user
    | None => err "Invited user not found"
    end in
  let* found := EmergencyAccess_find_by_uuid_and_grantee_email emer_id (u_email (h_user headers)) in
  let* emergency_access := some_or_err found "Emergency access not valid." in
  let* found := User_find_by_uuid (ea_grantor_uuid emergency_access) in
  let* grantor_user := some_or_err found "Grantor user not found." in
  if bool_decide (emer_id = cl_emer_id claims) && bool_decide (u_name grantor_user = cl_grantor_name claims)
     && bool_decide (u_email grantor_user = cl_grantor_email claims) then
    let* _ := EmergencyAccess_accept_invite emergency_access (u_uuid grantee_user) (u_email grantee_user) in
    let* mail := conf mail_enabled in
    if mail then send_mail (MailEmergencyAccepted (u_email grantor_user) (u_email grantee_user)) else mret tt
  else err "Emergency access invitation error.".

Definition confirm_emergency_access (emer_id key : string) (headers : Headers) : M Json :=
  do* check_emergency_access_enabled in
  let confirming_user := h_user headers in
  let* found := EmergencyAccess_find_by_uuid_and_grantor_uuid emer_id (u_uuid confirming_user) in
  let* emergency_access := some_or_err found "Emergency access not valid." in
  do* ensure (negb (negb (has_status emergency_access Accepted)
                    || bool_decide (ea_grantor_uuid emergency_access ≠ u_uuid confirming_user)))
    "Emergency access not valid." in
  let* found := User_find_by_uuid (u_uuid confirming_user) in
  let* grantor_user := some_or_err found "Grantor user not found." in
  let* grantee_uuid := some_or_err (ea_grantee_uuid emergency_access) "Grantee user not found." in
  let* found := User_find_by_uuid grantee_uuid in
  let* grantee_user := some_or_err found "Grantee user not found." in
  let* emergency_access := EmergencyAccess_save (emergency_access
    <| ea_status := EmergencyAccessStatus_to_i32 Confirmed |> <| ea_key_encrypted := Some key |>
    <| ea_email := None |>) in
  let* mail := conf mail_enabled in
  do* (if mail then send_mail (MailEmergencyConfirmed (u_email grantee_user) (u_name grantor_user)) else mret tt) in
  mret (EmergencyAccess_to_json emergency_access).

Definition initiate_emergency_access (emer_id : string) (headers : Headers) : M Json :=
  do* check_emergency_access_enabled in
  let initiating_user := h_user headers in
  let* found := EmergencyAccess_find_by_uuid_and_grantee_uuid emer_id (u_uuid initiating_user) in
  let* emergency_access := some_or_err found "Emergency access not valid." in
  do* ensure (has_status emergency_access Confirmed) "Emergency access not valid." in
  let* found := User_find_by_uuid (ea_grantor_uuid emergency_access) in
  let* grantor_user := some_or_err found "Grantor user not found." in
  let* t := ask now in
  let* emergency_access := EmergencyAccess_save (emergency_access
    <| ea_status := EmergencyAccessStatus_to_i32 RecoveryInitiated |> <| ea_updated_at := t |>
    <| ea_recovery_initiated_at := Some t |> <| ea_last_notification_at := Some t |>) in
  let* mail := conf mail_enabled in
  do* (if mail then send_mail (MailRecoveryInitiated (u_email grantor_user) (u_name initiating_user)
                      (EmergencyAccess_get_type_as_str emergency_access) (ea_wait_time_days emergency_access))
       else mret tt) in
  mret (EmergencyAccess_to_json emergency_access).

Definition approve_emergency_access (emer_id : string) (headers : Headers) : M Json :=
  do* check_emergency_access_enabled in
  let* found := EmergencyAccess_find_by_uuid_and_grantor_uuid emer_id (u_uuid (h_user headers)) in
  let* emergency_access := some_or_err found "Emergency access not valid." in
  do* ensure (has_status emergency_access RecoveryInitiated) "Emergency access not valid." in
  let* found := User_find_by_uuid (u_uuid (h_user headers)) in
  let* grantor_user := some_or_err found "Grantor user not found." in
  let* grantee_uuid := some_or_err (ea_grantee_uuid emergency_access) "Grantee user not found." in
  let* found := User_find_by_uuid grantee_uuid in
  let* grantee_user := some_or_err found "Grantee user not found." in
  let* emergency_access := EmergencyAccess_save (emergency_access
    <| ea_status := EmergencyAccessStatus_to_i32 RecoveryApproved |>) in
  let* mail := conf mail_enabled in
  do* (if mail then send_mail (MailRecoveryApproved (u_email grantee_user) (u_name grantor_user)) else mret tt) in
  mret (EmergencyAccess_to_json emergency_access).

Definition reject_emergency_access (emer_id : string) (headers : Headers) : M Json :=
  do* check_emergency_access_enabled in
  let* found := EmergencyAccess_find_by_uuid_and_grantor_uuid emer_id (u_uuid (h_user headers)) in
  let* emergency_access := some_or_err found "Emergency access not valid." in
  do* ensure (negb (negb (has_status emergency_access RecoveryInitiated)
                    && negb (has_status emergency_access RecoveryApproved))) "Emergency access not valid." in
  let* grantee_uuid := some_or_err (ea_grantee_uuid emergency_access) "Grantee user not found." in
  let* found := User_find_by_uuid grantee_uuid in
  let* grantee_user := some_or_err found "Grantee user not found." in
  let* emergency_access := EmergencyAccess_save (emergency_access
    <| ea_status := EmergencyAccessStatus_to_i32 Confirmed |>) in
  let* mail := conf mail_enabled in
  do* (if mail then send_mail (MailRecoveryRejected (u_email grantee_user) (u_name (h_user headers))) else mret tt) in
  mret (EmergencyAccess_to_json emergency_access).

(** The head shared by the handlers that act on an approved request. *)
Definition approved_request (emer_id : string) (headers : Headers) (t : EmergencyAccessType) : M EmergencyAccess :=
  let* found := EmergencyAccess_find_by_uuid_and_grantee_uuid emer_id (u_uuid (h_user headers)) in
  let* emergency_access := some_or_err found "Emergency access not valid." in
  do* ensure (is_valid_request emergency_access (u_uuid (h_user headers)) t) "Emergency access not valid." in
  mret emergency_access.

Definition view_emergency_access (emer_id : string) (headers : Headers) : M Json :=
  do* check_emergency_access_enabled in
  let* emergency_access := approved_request emer_id headers View in
  let grantor_uuid := ea_grantor_uuid emergency_access in
  let* ciphers := Cipher_find_owned_by_user grantor_uuid in
  let* cipher_sync_data := CipherSyncData_new grantor_uuid CST_User in
  let* ciphers_json := collect ciphers
    (λ c, Cipher_to_json c (h_host headers) grantor_uuid (Some cipher_sync_data) CST_User) in
  mret (JObj [("ciphers", JArr ciphers_json);
              ("keyEncrypted", json_opt JStr (ea_key_encrypted emergency_access));
              ("object", JStr "emergencyAccessView")]).

Definition takeover_emergency_access (emer_id : string) (headers : Headers) : M Json :=
  do* check_emergency_access_enabled in
  let* emergency_access := approved_request emer_id headers Takeover in
  let* found := User_find_by_uuid (ea_grantor_uuid emergency_access) in
  let* grantor_user := some_or_err found "Grantor user not found." in
  mret (JObj [("kdf", JNum (u_client_kdf_type grantor_user));
              ("kdfIterations", JNum (u_client_kdf_iter grantor_user));
              ("kdfMemory", json_opt JNum (u_client_kdf_memory grantor_user));
              ("kdfParallelism", json_opt JNum (u_client_kdf_parallelism grantor_user));
              ("keyEncrypted", json_opt JStr (ea_key_encrypted emergency_access));
              ("object", JStr "emergencyAccessTakeover")]).

Record EmergencyAccessPasswordData := mkEmergencyAccessPasswordData {
  ep_new_master_password_hash : string; ep_key : string }.

Definition password_emergency_access (emer_id : string) (data : EmergencyAccessPasswordData) (headers : Headers) : M unit :=
  do* check_emergency_access_enabled in
  let* emergency_access := approved_request emer_id headers Takeover in
  let* found := User_find_by_uuid (ea_grantor_uuid emergency_access) in
  let* grantor_user := some_or_err found "Grantor user not found." in
  let* grantor_user := User_set_password grantor_user (ep_new_master_password_hash data) (Some (ep_key data)) true None in
  let* grantor_user := User_save grantor_user in
  do* TwoFactor_delete_all_by_user (u_uuid grantor_user) in
  let* l := Membership_find_any_state_by_user (u_uuid grantor_user) in
  for_each l (λ member,
    if (m_atype member =? MembershipType_to_i32 MT_Owner)%Z then mret tt else Membership_delete member).

Definition policies_emergency_access (emer_id : string) (headers : Headers) : M Json :=
  let* emergency_access := approved_request emer_id headers Takeover in
  let* found := User_find_by_uuid (ea_grantor_uuid emergency_access) in
  let* grantor_user := some_or_err found "Grantor user not found." in
  let* policies := OrgPolicy_find_confirmed_by_user (u_uuid grantor_user) in
  let* out := collect_some policies (λ p, let* j := OrgPolicy_to_json p in mret (Some j)) in
  mret (json_list out).
End handlers.

(** ** Jobs *)

(** [.expect("Error on sending email")] *)
Definition send_mail_or_panic (m : Mail) : M unit := λ e w,
  match send_mail m e w with (Err _, w') => (Panic, w') | r => r end.

(** The two accounts a job writes to. *)
Definition job_users (emer : EmergencyAccess) : M (User * User) :=
  let* u := User_find_by_uuid (ea_grantor_uuid emer) in
  let* grantor_user := mexpect u in
  let* grantee_uuid := mexpect (ea_grantee_uuid emer) in
  let* u := User_find_by_uuid grantee_uuid in
  let* grantee_user := mexpect u in
  mret (grantor_user, grantee_user).

Definition timeout_one (t : Z) (emer : EmergencyAccess) : M unit :=
  let* initiated := mexpect (ea_recovery_initiated_at emer) in
  let* recovery_allowed_at := plus_days initiated (ea_wait_time_days emer) in
  if (recovery_allowed_at <=? t)%Z then
    let* emer := EmergencyAccess_update_access_status_and_save emer (EmergencyAccessStatus_to_i32 RecoveryApproved) t in
    let* mail := conf mail_enabled in
    if mail then
      let* (grantor_user, grantee_user) := job_users emer in
      do* send_mail_or_panic (MailRecoveryTimedOut (u_email grantor_user) (u_name grantee_user)
                                (EmergencyAccess_get_type_as_str emer)) in
      send_mail_or_panic (MailRecoveryApproved (u_email grantee_user) (u_name grantor_user))
    else mret tt
  else mret tt.
Definition emergency_request_timeout_job : M unit :=
  let* allowed := conf emergency_access_allowed in
  if allowed then
    let* emergency_access_list := EmergencyAccess_find_all_recoveries_initiated in
    let* t := ask now in
    for_each emergency_access_list (timeout_one t)
  else mret tt.

(** [wait_time_days - 1] on [i32], wrapping as in a release build *)
Definition i32_pred (n : Z) : Z := if (n =? - 2 ^ 31)%Z then (2 ^ 31 - 1)%Z else (n - 1)%Z.
Definition remind_one (t : Z) (emer : EmergencyAccess) : M unit :=
  let* initiated := mexpect (ea_recovery_initiated_at emer) in
  let* final_recovery_reminder_at := plus_days initiated (i32_pred (ea_wait_time_days emer)) in
  let* next_recovery_reminder_at := match ea_last_notification_at emer with
    | Some last_notification_at => plus_days last_notification_at 1
    | None => mret t
    end in
  if (final_recovery_reminder_at <=? t)%Z && (next_recovery_reminder_at <=? t)%Z then
    let* emer := EmergencyAccess_update_last_notification_date_and_save emer t in
    let* mail := conf mail_enabled in
    if mail then
      let* (grantor_user, grantee_user) := job_users emer in
      send_mail_or_panic (MailRecoveryReminder (u_email grantor_user) (u_name grantee_user)
                            (EmergencyAccess_get_type_as_str emer) "1")
    else mret tt
  else mret tt.
Definition emergency_notification_reminder_job : M unit :=
  let* allowed := conf emergency_access_allowed in
  if allowed then
    let* emergency_access_list := EmergencyAccess_find_all_recoveries_initiated in
    let* t := ask now in
    for_each emergency_access_list (remind_one t)
  else mret tt.
