(* ===== verification/EmergencyProtocol.v ===== *)
(** * The emergency-access protocol

    The state machine of an emergency-access grant, as a step relation on the
    table; every handler and job of [EmergencyAccess] is shown to take only its
    steps, whatever the request, the configuration and the outcome.  Invariants
    and the conditions for an approval follow by induction on the steps. *)

From stdpp Require Import base strings numbers pretty gmap relations list.
From S2P Require Import Prelude Store Queries Users Orgs AuthRequests TwoFactor Collections Folders Ciphers Signups EmergencyAccess.

(** ** Requests *)

Inductive EaOp :=
  | GetContacts | GetGrantees | GetOne (emer_id : string)
  | Update (emer_id : string) (data : EmergencyAccessUpdateData)
  | Delete (emer_id : string)
  | Invite (data : EmergencyAccessInviteData)
  | Reinvite (emer_id : string)
  | Accept (emer_id token : string)
  | Confirm (emer_id key : string)
  | Initiate (emer_id : string) | Approve (emer_id : string) | Reject (emer_id : string)
  | ViewVault (emer_id : string) | TakeoverInfo (emer_id : string)
  | SetPassword (emer_id : string) (data : EmergencyAccessPasswordData)
  | Policies (emer_id : string)
  | TimeoutJob | ReminderJob.

Definition drop {A} (m : M A) : M unit := let* _ := m in mret tt.

Section protocol.
Variable decode_invite : string → res Error EmergencyAccessInviteJwtClaims.
Context `{!Serde UserStampException id} `{FL : FileLinks}.

(** The handler of a request; jobs have no requester. *)
Definition run_op (h : Headers) (op : EaOp) : M unit :=
  match op with
  | GetContacts => drop (get_contacts h)
  | GetGrantees => drop (get_grantees h)
  | GetOne id => drop (get_emergency_access id h)
  | Update id data => drop (post_emergency_access id data h)
  | Delete id => delete_emergency_access id h
  | Invite data => send_invite data h
  | Reinvite id => resend_invite id h
  | Accept id token => accept_invite decode_invite id token h
  | Confirm id key => drop (confirm_emergency_access id key h)
  | Initiate id => drop (initiate_emergency_access id h)
  | Approve id => drop (approve_emergency_access id h)
  | Reject id => drop (reject_emergency_access id h)
  | ViewVault id => drop (view_emergency_access id h)
  | TakeoverInfo id => drop (takeover_emergency_access id h)
  | SetPassword id data => password_emergency_access id data h
  | Policies id => drop (policies_emergency_access id h)
  | TimeoutJob => emergency_request_timeout_job
  | ReminderJob => emergency_notification_reminder_job
  end.
End protocol.

(** ** The state machine *)

Abbreviation table := (gmap string EmergencyAccess).
Definition ea_of (w : World) : table := emergency_access (db w).

(** What a request is checked against besides the grants: the decoder of invitation
    tokens, and the accounts when it comes in *)
Record Source := mkSource {
  so_decode : string → res Error EmergencyAccessInviteJwtClaims;
  so_accounts : gmap string User }.

Section machine.
Variables (S : Source) (e : Env) (h : Headers).
Let user : string := u_uuid (h_user h).
Let stamped (r : EmergencyAccess) : EmergencyAccess := r <| ea_updated_at := now e |>.

(** [g] is the account that is found under an address. *)
Definition account_at (mail g : string) : Prop :=
  ∃ k u, so_accounts S !! k = Some u ∧ u_uuid u = g ∧ u_email u = str_to_lowercase e mail.
Definition accepted_by (g : string) (r : EmergencyAccess) : EmergencyAccess :=
  stamped (r <| ea_status := 1%Z |> <| ea_grantee_uuid := Some g |> <| ea_email := None |>).

(** How a request may change a grant: the one it names.  Accepting takes a token
    for this grant and for the address of the user, which the grant was offered
    to.  Where the server sends no mail, an invitation of somebody who has an
    account counts as accepted at once. *)
Inductive row_step : EaOp → EmergencyAccess → EmergencyAccess → Prop :=
  | row_update id data t r :
     ea_uuid r = id → ea_grantor_uuid r = user → EmergencyAccessType_from_str (into_string (up_type data)) = Some t →
     row_step (Update id data) r (stamped (r <| ea_atype := EmergencyAccessType_to_i32 t |>
       <| ea_wait_time_days := up_wait_time_days data |>
       <| ea_key_encrypted := match up_key_encrypted data with Some k => Some k | None => ea_key_encrypted r end |>))
  | row_accept id token claims g r :
     ea_uuid r = id → so_decode S token = Ok claims → cl_emer_id claims = id → cl_email claims = u_email (h_user h) →
     ea_email r = Some (u_email (h_user h)) → account_at (u_email (h_user h)) g → ea_status r ≠ 1%Z →
     row_step (Accept id token) r (accepted_by g r)
  | row_invite data mail g r :
     mail_enabled (cfg e) = false → ea_grantor_uuid r = user → mail = str_to_lowercase e (inv_email data) →
     ea_email r = Some mail → account_at mail g → ea_status r = 0%Z →
     row_step (Invite data) r (accepted_by g r)
  | row_reinvite id mail g r :
     mail_enabled (cfg e) = false → ea_uuid r = id → ea_grantor_uuid r = user →
     ea_email r = Some mail → account_at mail g → ea_status r = 0%Z →
     row_step (Reinvite id) r (accepted_by g r)
  | row_confirm id key r :
     ea_uuid r = id → ea_grantor_uuid r = user → ea_status r = 1%Z → is_Some (ea_grantee_uuid r) →
     row_step (Confirm id key) r
       (stamped (r <| ea_status := 2%Z |> <| ea_key_encrypted := Some key |> <| ea_email := None |>))
  | row_initiate id r :
     ea_uuid r = id → ea_grantee_uuid r = Some user → ea_status r = 2%Z →
     row_step (Initiate id) r
       (stamped (r <| ea_status := 3%Z |> <| ea_recovery_initiated_at := Some (now e) |>
                   <| ea_last_notification_at := Some (now e) |>))
  | row_approve id r :
     ea_uuid r = id → ea_grantor_uuid r = user → ea_status r = 3%Z → is_Some (ea_grantee_uuid r) →
     row_step (Approve id) r (stamped (r <| ea_status := 4%Z |>))
  | row_reject id r :
     ea_uuid r = id → ea_grantor_uuid r = user → ea_status r = 3%Z ∨ ea_status r = 4%Z → is_Some (ea_grantee_uuid r) →
     row_step (Reject id) r (stamped (r <| ea_status := 2%Z |>))
  | row_timeout initiated r :
     ea_status r = 3%Z → is_Some (ea_grantee_uuid r) → ea_recovery_initiated_at r = Some initiated →
     (initiated + days (ea_wait_time_days r) ≤ now e)%Z →
     row_step TimeoutJob r (stamped (r <| ea_status := 4%Z |>))
  | row_remind initiated r :
     ea_status r = 3%Z → ea_recovery_initiated_at r = Some initiated →
     row_step ReminderJob r (stamped (r <| ea_last_notification_at := Some (now e) |>)).

(** Who may remove a grant: its grantor or its grantee; listing one's contacts
    removes invitations of unknown users. *)
Inductive may_delete : EaOp → EmergencyAccess → Prop :=
  | del_party id r : ea_uuid r = id → ea_grantor_uuid r = user ∨ ea_grantee_uuid r = Some user → may_delete (Delete id) r
  | del_invited op r : op = GetContacts ∨ (∃ id, op = GetOne id) → ea_status r = 0%Z → may_delete op r.

Inductive ea_trans : EaOp → table → table → Prop :=
  | tr_row op t k r r' :
     t !! k = Some r → row_step op r r' → ea_trans op t (<[k := r']> t)
  | tr_new d t r :
     ea_grantor_uuid r = user → ea_wait_time_days r = inv_wait_time_days d → ea_status r = 0%Z → is_Some (ea_email r) → ea_grantee_uuid r = None →
     ea_key_encrypted r = None → ea_recovery_initiated_at r = None →
     ea_trans (Invite d) t (<[ea_uuid r := r]> t)
  | tr_delete op t k r :
     t !! k = Some r → may_delete op r → ea_trans op t (delete k t).
End machine.

(** Rows sit under their identifier. *)
Definition ea_keyed (t : table) : Prop := ∀ k r, t !! k = Some r → ea_uuid r = k.

Section steps.
Context (S : Source).

Lemma row_step_uuid e h op r r' : row_step S e h op r r' → ea_uuid r' = ea_uuid r.
Proof. by destruct 1. Qed.
Lemma ea_trans_keyed e h op t t' : ea_trans S e h op t t' → ea_keyed t → ea_keyed t'.
Proof.
  intros Htr Hk. destruct Htr as [op t k r r' Hr Hs|d t r|op t k r Hr Hd]; intros k' x.
  - rewrite lookup_insert_Some. intros [[<- <-]|[_ Hx]]; [|by apply Hk].
    rewrite (row_step_uuid _ _ _ _ _ Hs). by apply Hk.
  - rewrite lookup_insert_Some. intros [[<- <-]|[_ Hx]]; [done|by apply Hk].
  - intros [_ Hx]%lookup_delete_Some. by apply Hk.
Qed.

(** ** Runs of the model's methods *)

Lemma wp_ea_save r e w (Φ : res Error EmergencyAccess → World → Prop) :
  (∀ w', ea_of w' = <[ea_uuid r := r <| ea_updated_at := now e |>]> (ea_of w) →
     Φ (Ok (r <| ea_updated_at := now e |>)) w') →
  wp (EmergencyAccess_save r) e w Φ.
Proof.
  intros HΦ. unfold EmergencyAccess_save. wp_step.
  apply (wp_keeps_safe emergency_access); [auto with frame..|].
  intros [] w' Hw'. wp_go. apply HΦ. unfold ea_of. simpl. by rewrite Hw'.
Qed.
Lemma wp_ea_delete r e w (Φ : res Error unit → World → Prop) :
  (∀ w', ea_of w' = delete (ea_uuid r) (ea_of w) → Φ (Ok tt) w') → wp (EmergencyAccess_delete r) e w Φ.
Proof.
  intros HΦ. unfold EmergencyAccess_delete. wp_step.
  apply (wp_keeps_safe emergency_access); [auto with frame..|].
  intros [] w' Hw'. wp_go. apply HΦ. unfold ea_of. simpl. by rewrite Hw'.
Qed.
Lemma wp_ea_accept r g mail e w (Φ : res Error EmergencyAccess → World → Prop) :
  (∀ r' w', ea_email r = Some mail → ea_status r ≠ 1%Z →
     r' = r <| ea_status := 1%Z |> <| ea_grantee_uuid := Some g |> <| ea_email := None |> <| ea_updated_at := now e |> →
     ea_of w' = <[ea_uuid r := r']> (ea_of w) → Φ (Ok r') w') →
  (∀ x, Φ (Err x) w) → wp (EmergencyAccess_accept_invite r g mail) e w Φ.
Proof.
  intros HΦ Herr. unfold EmergencyAccess_accept_invite. wp_step. wp_step; [|wp_step; apply Herr].
  apply bool_decide_eq_true in Hc. wp_step. wp_step. wp_step; [|wp_step; apply Herr]. wp_step.
  apply wp_ea_save. intros w' Hw'. eapply HΦ; [done| |done|exact Hw'].
  apply negb_true_iff, Z.eqb_neq in Hc0. done.
Qed.
Lemma wp_get uuid p e w (Φ : res Error (option EmergencyAccess) → World → Prop) :
  (∀ r, ea_of w !! uuid = Some r → p r = true → Φ (Ok (Some r)) w) → Φ (Ok None) w →
  wp (ea_get uuid p) e w Φ.
Proof.
  intros H1 H2. unfold ea_get. wp_step. fold (ea_of w). destruct (ea_of w !! uuid) as [r|] eqn:E; simpl; [|done].
  destruct (p r) eqn:Hp; [|done]. by apply H1.
Qed.

(** Run a handler up to its changes of the table. *)
Ltac ea_step :=
  lazymatch goal with
  | |- wp check_emergency_access_enabled _ _ _ => unfold check_emergency_access_enabled
  | |- wp (drop _) _ _ _ => unfold drop
  | |- wp (EmergencyAccess_find_by_uuid_and_grantor_uuid _ _) _ _ _ =>
     apply wp_get; [let r := fresh "r" in let H := fresh "Hr" in let Hp := fresh "Hp" in
                    intros r H Hp; apply bool_decide_eq_true in Hp|]
  | |- wp (EmergencyAccess_find_by_uuid_and_grantee_uuid _ _) _ _ _ =>
     apply wp_get; [let r := fresh "r" in let H := fresh "Hr" in let Hp := fresh "Hp" in
                    intros r H Hp; apply bool_decide_eq_true in Hp|]
  | |- wp (EmergencyAccess_find_by_uuid_and_grantee_email _ _) _ _ _ =>
     apply wp_get; [let r := fresh "r" in let H := fresh "Hr" in let Hp := fresh "Hp" in
                    intros r H Hp; apply bool_decide_eq_true in Hp|]
  | |- wp (EmergencyAccess_save _) _ _ _ => apply wp_ea_save; intros
  | |- wp (EmergencyAccess_delete _) _ _ _ => apply wp_ea_delete; intros
  | |- wp (EmergencyAccess_accept_invite _ _ _) _ _ _ => apply wp_ea_accept; intros
  | |- wp (User_find_by_uuid _) _ _ _ => unfold User_find_by_uuid
  | |- wp (User_find_by_mail _) _ _ _ => unfold User_find_by_mail
  | |- wp (approved_request _ _ _) _ _ _ => unfold approved_request
  | |- _ => wp_step
  end; simplify_eq.
Ltac ea_go := repeat ea_step; try apply rtc_refl.

(** One step of the machine on the row that was found. *)
Lemma one_step e h op t t' k r r' :
  ea_keyed t → t !! k = Some r → t' = <[ea_uuid r := r']> t → row_step S e h op r r' → rtc (ea_trans S e h op) t t'.
Proof. intros Hk Hr -> Hs. rewrite (Hk _ _ Hr). apply rtc_once. by eapply tr_row. Qed.

Definition refines {A} (h : Headers) (op : EaOp) (m : M A) : Prop :=
  ∀ e w, ea_keyed (ea_of w) → wp m e w (λ _ w', rtc (ea_trans S e h op) (ea_of w) (ea_of w')).

Lemma has_status_true r s : has_status r s = true → ea_status r = EmergencyAccessStatus_to_i32 s.
Proof. apply Z.eqb_eq. Qed.

(** Leave the row step to prove, for the row found and the table written. *)
Ltac ea_row :=
  match goal with
  | Hk : ea_keyed (ea_of ?w), Hr : ea_of ?w !! _ = Some ?r, H : ea_of _ = <[_ := _]> (ea_of ?w) |- rtc _ _ _ =>
     pose proof (Hk _ _ Hr); eapply one_step; [exact Hk|exact Hr|exact H|]
  end;
  repeat match goal with
  | H : has_status _ _ = true |- _ => apply has_status_true in H; cbn in H
  end.

Lemma refines_update h id data : refines h (Update id data) (drop (post_emergency_access id data h)).
Proof.
  intros e w Hk. unfold post_emergency_access. ea_go.
  pose proof (row_update S e h id data a0 a (Hk _ _ Hr) Hp Ho) as Hs.
  destruct (up_key_encrypted data) as [k|], a; ea_row; exact Hs.
Qed.
Lemma refines_confirm h id key : refines h (Confirm id key) (drop (confirm_emergency_access id key h)).
Proof.
  intros e w Hk. unfold confirm_emergency_access. ea_go.
  all: apply negb_true_iff, orb_false_iff in Hc0 as [Hc0 _]; apply negb_false_iff in Hc0.
  all: ea_row; apply row_confirm; eauto.
Qed.
Lemma refines_initiate h id : refines h (Initiate id) (drop (initiate_emergency_access id h)).
Proof. intros e w Hk. unfold initiate_emergency_access. ea_go; ea_row; apply row_initiate; eauto. Qed.
Lemma refines_approve h id : refines h (Approve id) (drop (approve_emergency_access id h)).
Proof. intros e w Hk. unfold approve_emergency_access. ea_go; ea_row; apply row_approve; eauto. Qed.
Lemma refines_reject h id : refines h (Reject id) (drop (reject_emergency_access id h)).
Proof.
  intros e w Hk. unfold reject_emergency_access. ea_go.
  all: apply negb_true_iff, andb_false_iff in Hc0; rewrite !negb_false_iff in Hc0.
  all: ea_row; apply row_reject; eauto.
  all: destruct Hc0 as [Hc0|Hc0]; apply has_status_true in Hc0; auto.
Qed.

Lemma refines_delete h id : refines h (Delete id) (delete_emergency_access id h).
Proof.
  intros e w Hk. unfold delete_emergency_access. ea_go.
  all: match goal with Hk : ea_keyed _, H : ea_of _ = delete _ _, Hr : ea_of _ !! _ = Some _ |- _ =>
    rewrite H, (Hk _ _ Hr); apply rtc_once; eapply tr_delete; [exact Hr|] end.
  all: constructor; auto.
Qed.

(** Parts of the handlers that leave the table alone. *)
Lemma keeps_lift_res {A X} (π : Db → X) (r : res Error A) : keeps π (lift_res r).
Proof. by intros e w. Qed.
Lemma keeps_collect_some {A B X} (π : Db → X) (l : list A) (f : A → M (option B)) :
  (∀ x, keeps π (f x)) → keeps π (collect_some l f).
Proof. intros Hf. induction l; simpl; solve_keeps. Qed.
Lemma keeps_Invitation_take mail : keeps emergency_access (Invitation_take mail).
Proof. unfold Invitation_take, Invitation_find_by_mail, Invitation_delete. solve_keeps. Qed.
Lemma keeps_Invitation_save mail : keeps emergency_access (Invitation_save mail).
Proof. unfold Invitation_save. solve_keeps. Qed.
Lemma keeps_User_save u : keeps emergency_access (User_save u).
Proof. unfold User_save. solve_keeps. Qed.
#[local] Hint Resolve keeps_lift_res keeps_Invitation_take keeps_Invitation_save keeps_User_save : frame.
Lemma keeps_invite_grantee mail : keeps emergency_access (invite_grantee mail).
Proof.
  unfold invite_grantee, User_find_by_mail, Invitation_new, User_new, get_random_bytes. solve_keeps.
Qed.
#[local] Hint Resolve keeps_invite_grantee : frame.

(** Skip such a part: the goal continues from the world it leaves. *)
Ltac ea_skip :=
  apply (wp_keeps emergency_access); [by auto with frame|];
  let r := fresh "r" in let w' := fresh "w" in let Hw := fresh "Hw" in
  intros r w' Hw;
  match type of Hw with
  | emergency_access (db _) = emergency_access (db ?w) =>
     change (ea_of w' = ea_of w) in Hw; rewrite <- Hw in *; clear Hw
  end; destruct r; try (wp_step; apply rtc_refl).

(** The requests that look an account up, from the accounts of the source *)
Section accounts.
Context (e : Env) (w : World) (Hacc : so_accounts S = users (db w)) (Hk : ea_keyed (ea_of w)).
Lemma found_account mail u :
  first (λ u, bool_decide (u_email u = str_to_lowercase e mail)) (users (db w)) = Some u → account_at S e mail (u_uuid u).
Proof using Hacc.
  intros [Hu%bool_decide_eq_true [k Hk']]%first_Some. exists k, u. by rewrite Hacc.
Qed.
Lemma refines_accept h id token :
  wp (accept_invite (so_decode S) id token h) e w (λ _ w', rtc (ea_trans S e h (Accept id token)) (ea_of w) (ea_of w')).
Proof using Hacc Hk.
  unfold accept_invite. ea_go. apply wp_intro. intros r w1 [= Hdec <-]. destruct r as [claims|x|]; [|apply rtc_refl..].
  ea_go. apply found_account in Hm. ea_skip. ea_go.
  all: ea_row; apply bool_decide_eq_true in Hc0; apply andb_true_iff in Hb as [[Hid%bool_decide_eq_true _]%andb_true_iff _];
    rewrite Hc0 in Hm; by eapply row_accept.
Qed.
Lemma refines_reinvite h id :
  wp (resend_invite id h) e w (λ _ w', rtc (ea_trans S e h (Reinvite id)) (ea_of w) (ea_of w')).
Proof using Hacc Hk.
  unfold resend_invite, Invitation_find_by_mail, Invitation_new. ea_go.
  - apply found_account in Ho0. ea_row. by eapply row_reinvite.
  - ea_skip; apply rtc_refl.
Qed.
(** The account an invitation is for: new ones are marked. *)
Lemma wp_invite_grantee mail (Φ : res Error (User * bool) → World → Prop) :
  (∀ r w', ea_of w' = ea_of w → (∀ u, r = Ok (u, false) → account_at S e mail (u_uuid u)) → Φ r w') →
  wp (invite_grantee mail) e w Φ.
Proof using Hacc.
  intros HΦ. apply wp_intro. intros r w' Hrun. apply HΦ; [apply (wp_run _ _ _ _ (keeps_invite_grantee mail e w) _ _ Hrun)|].
  intros u ->. unfold invite_grantee, User_find_by_mail in Hrun. ok_step Hrun. injection Hrun0 as Hu <-. destruct a as [u0|].
  - injection Hrun as -> _ _. by apply found_account.
  - by ok_inv Hrun.
Qed.
Lemma refines_invite h data :
  wp (send_invite data h) e w (λ _ w', rtc (ea_trans S e h (Invite data)) (ea_of w) (ea_of w')).
Proof using Hacc Hk.
  unfold send_invite, EmergencyAccess_new, EmergencyAccess_find_by_grantor_uuid_and_grantee_uuid_or_email, ea_find.
  ea_go. apply wp_invite_grantee. intros r w1 Hw1 Hg. rewrite <- Hw1.
  destruct r as [[grantee new_user]|x|]; [|apply rtc_refl..]. ea_go.
  all: match goal with H : ea_of ?w1 = <[_ := _]> (ea_of (?w0 <| tick := _ |>)) |- _ =>
    assert (rtc (ea_trans S e h (Invite data)) (ea_of w0) (ea_of w1)) as Hnew
      by (rewrite H; apply rtc_once; eapply (tr_new S e h data); try done; by eexists) end.
  all: try exact Hnew.
  eapply rtc_r; [exact Hnew|]. destruct new_user; [done|].
  match goal with H : ea_of ?w2 = <[_ := _]> (ea_of ?w1), H' : ea_of ?w1 = _ |- ea_trans _ _ _ _ (ea_of ?w1) _ =>
    rewrite H; eapply tr_row; [rewrite H'; apply lookup_insert_eq|eapply row_invite; eauto] end.
Qed.
End accounts.

(** Removing the outstanding invitations of an address. *)
Lemma refines_drop_invited h op mail :
  op = GetContacts ∨ (∃ id, op = GetOne id) → refines h op (EmergencyAccess_delete_all_by_grantee_email mail).
Proof.
  intros Hop e w Hk. unfold EmergencyAccess_delete_all_by_grantee_email,
    EmergencyAccess_find_all_invited_by_grantee_email, ea_load. wp_go.
  apply (wp_for_each _ _ _ _ (λ w', ea_of w' ⊆ ea_of w ∧ rtc (ea_trans S e h op) (ea_of w) (ea_of w'))).
  - split; [done|apply rtc_refl].
  - intros x w1 Hx [Hsub Hrtc]. apply elem_of_load in Hx as [Hp [k Hx]]. fold (ea_of w) in Hx.
    apply andb_true_iff in Hp as [_ Hp%has_status_true]. pose proof (Hk _ _ Hx) as <-.
    apply wp_ea_delete. intros w2 Hw2. rewrite Hw2. split; [etrans; [apply delete_subseteq|done]|].
    destruct (ea_of w1 !! ea_uuid x) as [y|] eqn:Hy; [|by rewrite delete_id].
    pose proof (lookup_weaken _ _ _ _ Hy Hsub) as Hy'. simplify_eq.
    eapply rtc_r; [exact Hrtc|]. eapply tr_delete; [exact Hy|by apply del_invited].
  - by intros w1 [_ ?].
Qed.

(** Sequences of refining parts refine. *)
Lemma rtc_trans_keyed e h op t t' : rtc (ea_trans S e h op) t t' → ea_keyed t → ea_keyed t'.
Proof. induction 1; eauto using ea_trans_keyed. Qed.
Lemma refines_bind {A B} h op (m : M A) (k : A → M B) :
  refines h op m → (∀ a, refines h op (k a)) → refines h op (mbind m k).
Proof.
  intros Hm Hkk e w Hk. apply wp_bind. eapply wp_mono; [by apply Hm|]. intros [a|x|] w1 Hr; simpl; try done.
  eapply wp_mono; [apply Hkk; by eapply rtc_trans_keyed|]. simpl. intros _ w2. by etrans.
Qed.
Lemma refines_keeps {A} h op (m : M A) : keeps emergency_access m → refines h op m.
Proof. intros Hm e w Hk. eapply wp_mono; [apply Hm|]. intros r w' E. change (ea_of w' = ea_of w) in E. rewrite E. apply rtc_refl. Qed.
Lemma refines_mignore h op m : refines h op m → refines h op (mignore m).
Proof. intros Hm e w Hk. apply wp_mignore. eapply wp_mono; [by apply Hm|]. by intros []. Qed.
Lemma refines_collect_some {A B} h op (l : list A) (f : A → M (option B)) :
  (∀ x, refines h op (f x)) → refines h op (collect_some l f).
Proof.
  intros Hf. induction l as [|x l IH]; simpl; [by apply refines_keeps|].
  apply refines_bind; [done|]. intros y. apply refines_bind; [done|]. intros ys. by apply refines_keeps.
Qed.

Lemma refines_grantee_details h op r :
  op = GetContacts ∨ (∃ id, op = GetOne id) → refines h op (EmergencyAccess_to_json_grantee_details r).
Proof.
  intros Hop. unfold EmergencyAccess_to_json_grantee_details, User_find_by_mail, User_find_by_uuid.
  apply refines_bind; [|intros u; apply refines_keeps; solve_keeps].
  destruct (ea_grantee_uuid r); [apply refines_keeps; solve_keeps|].
  destruct (ea_email r); [|apply refines_keeps; solve_keeps].
  apply refines_bind; [apply refines_keeps; solve_keeps|]. intros u. destruct u; [apply refines_keeps; solve_keeps|].
  apply refines_bind; [apply refines_mignore, refines_drop_invited; done|]. intros []. apply refines_keeps. solve_keeps.
Qed.
Lemma refines_get_contacts h : refines h GetContacts (drop (get_contacts h)).
Proof.
  unfold drop, get_contacts, EmergencyAccess_find_all_by_grantor_uuid, ea_load.
  apply refines_bind; [|intros a; apply refines_keeps; solve_keeps].
  apply refines_bind; [apply refines_keeps; solve_keeps|]. intros allowed.
  apply refines_bind; [apply refines_keeps; solve_keeps|]. intros l.
  apply refines_bind; [|intros out; apply refines_keeps; solve_keeps].
  apply refines_collect_some. intros r. apply refines_grantee_details. auto.
Qed.
Lemma refines_get_one h id : refines h (GetOne id) (drop (get_emergency_access id h)).
Proof.
  unfold drop, get_emergency_access, check_emergency_access_enabled,
    EmergencyAccess_find_by_uuid_and_grantor_uuid, ea_get.
  apply refines_bind; [|intros a; apply refines_keeps; solve_keeps].
  apply refines_bind; [apply refines_keeps; solve_keeps|]. intros [].
  apply refines_bind; [apply refines_keeps; solve_keeps|]. intros [r|]; [|apply refines_keeps; solve_keeps].
  apply refines_bind; [apply refines_grantee_details; eauto|]. intros j. apply refines_keeps. solve_keeps.
Qed.

(** Requests that only read grants. *)
Lemma keeps_approved_request id h t : keeps emergency_access (approved_request id h t).
Proof. unfold approved_request, EmergencyAccess_find_by_uuid_and_grantee_uuid, ea_get. solve_keeps. Qed.
Lemma keeps_Membership_delete m : keeps emergency_access (Membership_delete m).
Proof.
  unfold Membership_delete, CollectionUser_delete_all_by_user_and_org,
    CollectionUser_find_by_organization_and_user_uuid, GroupUser_delete_all_by_member, Membership_find_by_uuid.
  solve_keeps.
Qed.
Lemma keeps_set_password `{!Serde UserStampException id} u pw k b routes :
  keeps emergency_access (User_set_password u pw k b routes).
Proof.
  unfold User_set_password, hash_password, User_set_stamp_exception, User_reset_security_stamp,
    Device_rotate_refresh_tokens_by_user, Device_find_by_user, rotate_device, generate_refresh_token,
    encode_random_bytes, get_random_bytes, Device_save. solve_keeps.
Qed.
#[local] Hint Resolve keeps_approved_request keeps_Membership_delete keeps_set_password : frame.

Lemma keeps_reads `{!Serde UserStampException id} `{FL : FileLinks} h op :
  match op with
  | GetGrantees | ViewVault _ | TakeoverInfo _ | SetPassword _ _ | Policies _ =>
     keeps emergency_access (run_op (λ _, Panic) h op)
  | _ => True
  end.
Proof.
  destruct op; try done; simpl; unfold drop.
  - unfold get_grantees, EmergencyAccess_find_all_by_grantee_uuid, ea_load. solve_keeps.
    apply keeps_collect_some. intros r. unfold EmergencyAccess_to_json_grantor_details, User_find_by_uuid. solve_keeps.
  - unfold view_emergency_access, check_emergency_access_enabled. solve_keeps; apply keeps_of_reads; auto with frame.
  - unfold takeover_emergency_access, check_emergency_access_enabled, User_find_by_uuid. solve_keeps.
  - unfold password_emergency_access, check_emergency_access_enabled, User_find_by_uuid,
      TwoFactor_delete_all_by_user, Membership_find_any_state_by_user, members. solve_keeps.
  - unfold policies_emergency_access, User_find_by_uuid, OrgPolicy_find_confirmed_by_user. solve_keeps.
    apply keeps_collect_some. intros p. unfold OrgPolicy_to_json. solve_keeps.
Qed.

(** ** Jobs *)

Lemma keeps_send_mail_or_panic {X} (π : Db → X) m : keeps π (send_mail_or_panic m).
Proof. intros e w. unfold wp, send_mail_or_panic, send_mail. by destruct (mail_delivers e m). Qed.
Lemma keeps_job_users {X} (π : Db → X) r : keeps π (job_users r).
Proof. unfold job_users, User_find_by_uuid. solve_keeps. Qed.
#[local] Hint Resolve keeps_send_mail_or_panic keeps_job_users : frame.

Lemma plus_days_spec t n e w (Φ : res Error Z → World → Prop) :
  Φ (Ok (t + days n)%Z) w → Φ Panic w → wp (plus_days t n) e w Φ.
Proof.
  intros H1 H2. unfold plus_days, try_days, try_seconds. wp_step. wp_step; [|by wp_step].
  wp_step. wp_step; [|done].
  unfold checked_add_signed in Ho0. destruct (Z.abs _ <=? _)%Z; [|done]. destruct (in_range _); [|done].
  simplify_eq. exact H1.
Qed.

Lemma alter_insert (f : EmergencyAccess → EmergencyAccess) k x (t : table) :
  t !! k = Some x → alter f k t = <[k := f x]> t.
Proof.
  intros Hx. apply map_eq. intros k'. destruct (decide (k' = k)) as [->|Hne].
  - by rewrite lookup_alter_eq, lookup_insert_eq, Hx.
  - by rewrite lookup_alter_ne, lookup_insert_ne.
Qed.
Lemma wp_update_status x status date e w (Φ : res Error EmergencyAccess → World → Prop) :
  ea_of w !! ea_uuid x = Some x →
  (∀ w', is_Some (ea_grantee_uuid x) →
     ea_of w' = <[ea_uuid x := x <| ea_status := status |> <| ea_updated_at := date |>]> (ea_of w) →
     Φ (Ok (x <| ea_status := status |> <| ea_updated_at := date |>)) w') →
  Φ Panic w → wp (EmergencyAccess_update_access_status_and_save x status date) e w Φ.
Proof.
  intros Hx HΦ Hp. unfold EmergencyAccess_update_access_status_and_save. wp_step. wp_step; [|by wp_step].
  do 2 wp_step. apply (wp_keeps_safe emergency_access); [auto with frame..|]. intros [] w1 Hw1. wp_go.
  apply HΦ; [by eexists|]. unfold ea_of in *. simpl. rewrite Hw1. by rewrite (alter_insert _ _ x).
Qed.
Lemma wp_update_notification x date e w (Φ : res Error EmergencyAccess → World → Prop) :
  ea_of w !! ea_uuid x = Some x →
  (∀ w', ea_of w' = <[ea_uuid x := x <| ea_last_notification_at := Some date |> <| ea_updated_at := date |>]> (ea_of w) →
     Φ (Ok (x <| ea_last_notification_at := Some date |> <| ea_updated_at := date |>)) w') →
  wp (EmergencyAccess_update_last_notification_date_and_save x date) e w Φ.
Proof.
  intros Hx HΦ. unfold EmergencyAccess_update_last_notification_date_and_save. wp_go.
  apply HΦ. unfold ea_of in *. simpl. by rewrite (alter_insert _ _ x).
Qed.

(** What a job does to one listed row: at most one step, on that row. *)
Definition job_post (e : Env) (h : Headers) (op : EaOp) (x : EmergencyAccess) (w w' : World) : Prop :=
  rtc (ea_trans S e h op) (ea_of w) (ea_of w') ∧ (∀ k, k ≠ ea_uuid x → ea_of w' !! k = ea_of w !! k).
Lemma job_post_refl e h op x w : job_post e h op x w w.
Proof. split; [apply rtc_refl|done]. Qed.
Lemma job_post_step e h op x r' w w1 w2 :
  ea_of w !! ea_uuid x = Some x → row_step S e h op x r' → ea_of w1 = <[ea_uuid x := r']> (ea_of w) →
  ea_of w2 = ea_of w1 → job_post e h op x w w2.
Proof.
  intros Hx Hs H1 H2. split; rewrite H2, H1.
  - apply rtc_once. by eapply tr_row.
  - intros k Hne. by rewrite lookup_insert_ne.
Qed.

Lemma timeout_one_spec h x e w :
  ea_of w !! ea_uuid x = Some x → ea_status x = 3%Z →
  wp (timeout_one (now e) x) e w (λ _ w', job_post e h TimeoutJob x w w').
Proof.
  intros Hx Hs. unfold timeout_one. wp_step. wp_step; [|wp_step; apply job_post_refl].
  do 2 wp_step. apply plus_days_spec; [|wp_step; apply job_post_refl].
  do 2 wp_step; [|wp_step; apply job_post_refl]. wp_step.
  apply wp_update_status; [done| |wp_step; apply job_post_refl]. intros w1 Hg Hw1. wp_step.
  eapply (wp_keeps emergency_access); [solve_keeps|]. intros r w2 Hw2.
  eapply job_post_step; [done| |exact Hw1|exact Hw2]. apply Z.leb_le in Hb. by eapply row_timeout.
Qed.
Lemma remind_one_spec h x e w :
  ea_of w !! ea_uuid x = Some x → ea_status x = 3%Z →
  wp (remind_one (now e) x) e w (λ _ w', job_post e h ReminderJob x w w').
Proof.
  intros Hx Hs. unfold remind_one. wp_step. wp_step; [|wp_step; apply job_post_refl].
  do 2 wp_step. apply plus_days_spec; [|wp_step; apply job_post_refl].
  do 2 wp_step. apply (wp_keeps (λ d, d)); [unfold plus_days; solve_keeps|]. intros r w1 Hdb.
  assert (ea_of w1 = ea_of w) as Hw1 by (unfold ea_of; by rewrite Hdb).
  assert (job_post e h ReminderJob x w w1) as Hrefl.
  { split; rewrite Hw1; [apply rtc_refl|done]. }
  destruct r; wp_step; [|done..]. wp_step; [|by wp_step]. wp_step.
  apply wp_update_notification; [by rewrite Hw1|]. intros w2 Hw2. wp_step.
  eapply (wp_keeps emergency_access); [solve_keeps|]. intros r w3 Hw3. rewrite Hw1 in Hw2.
  eapply job_post_step; [done| |exact Hw2|exact Hw3]. by eapply row_remind.
Qed.

(** The loop of a job over the rows it listed. *)
Lemma job_loop h op (f : EmergencyAccess → M unit) l : ∀ e w,
  ea_keyed (ea_of w) → NoDup (ea_uuid <$> l) →
  Forall (λ x, ea_of w !! ea_uuid x = Some x ∧ ea_status x = 3%Z) l →
  (∀ x w, ea_of w !! ea_uuid x = Some x → ea_status x = 3%Z →
     wp (f x) e w (λ _ w', job_post e h op x w w')) →
  wp (for_each l f) e w (λ _ w', rtc (ea_trans S e h op) (ea_of w) (ea_of w')).
Proof.
  induction l as [|x l IH]; intros e w Hk Hnd Hl Hf; simpl; [wp_step; apply rtc_refl|].
  apply NoDup_cons in Hnd as [Hx Hnd]. apply Forall_cons in Hl as [[Hx1 Hx2] Hl].
  wp_step. eapply wp_mono; [by apply Hf|]. intros r w1 [Hstep Hframe].
  destruct r as [[]| |]; wp_step; [|done..].
  eapply wp_mono; [apply IH; [by eapply rtc_trans_keyed|done| |done]|].
  - eapply Forall_impl; [eapply Forall_and; split; [exact Hl|apply Forall_forall; intros y Hy; exact Hy]|].
    simpl. intros y [[Hy1 Hy2] Hin]. split; [|done]. rewrite Hframe; [done|]. intros E. apply Hx. rewrite <- E.
    apply list_elem_of_fmap. eauto.
  - simpl. intros _ w2. by etrans.
Qed.
Lemma refines_job h op f :
  (∀ e x w, ea_of w !! ea_uuid x = Some x → ea_status x = 3%Z →
     wp (f (now e) x) e w (λ _ w', job_post e h op x w w')) →
  refines h op (let* allowed := conf emergency_access_allowed in
                if allowed then
                  let* l := EmergencyAccess_find_all_recoveries_initiated in
                  let* t := ask now in for_each l (f t)
                else mret tt).
Proof.
  intros Hf e w Hk. do 4 wp_step; [|wp_step; apply rtc_refl].
  unfold EmergencyAccess_find_all_recoveries_initiated, ea_load. do 6 wp_step.
  apply job_loop; [done|by apply load_keys_NoDup| |by intros; apply Hf].
  apply Forall_forall. intros x Hx. apply elem_of_load in Hx as [Hp [k Hx]].
  apply andb_true_iff in Hp as [Hp%has_status_true _]. split; [|done]. by rewrite (Hk _ _ Hx).
Qed.

(** ** The invariant *)

Record ea_row_wf (r : EmergencyAccess) : Prop := {
  wf_status : (0 ≤ ea_status r ≤ 4)%Z;
  wf_invited : ea_status r = 0%Z → is_Some (ea_email r) ∧ ea_grantee_uuid r = None;
  wf_accepted : (1 ≤ ea_status r)%Z → is_Some (ea_grantee_uuid r) ∧ ea_email r = None;
  wf_confirmed : (2 ≤ ea_status r)%Z → is_Some (ea_key_encrypted r);
  wf_initiated : (3 ≤ ea_status r)%Z → is_Some (ea_recovery_initiated_at r);
}.
Definition ea_inv (t : table) : Prop := ea_keyed t ∧ ∀ k r, t !! k = Some r → ea_row_wf r.

Lemma row_step_wf e h op r r' : row_step S e h op r r' → ea_row_wf r → ea_row_wf r'.
Proof.
  intros Hs [W1 W2 W3 W4 W5]. destruct Hs; split; simpl; try lia; intros; eauto with lia; try naive_solver lia.
  destruct (up_key_encrypted data); [done|]. auto.
Qed.
Lemma ea_trans_inv e h op t t' : ea_trans S e h op t t' → ea_inv t → ea_inv t'.
Proof.
  intros Htr [Hk Hw]. split; [by eapply ea_trans_keyed|].
  destruct Htr as [op t k r r' Hr Hs|d t r Hg Hs He Hn Hkey Hi|op t k r Hr Hd]; intros k' x.
  - rewrite lookup_insert_Some. intros [[<- <-]|[_ Hx]]; [|by eapply Hw]. eapply row_step_wf; [done|by eapply Hw].
  - rewrite lookup_insert_Some. intros [[<- <-]|[_ Hx]]; [|by eapply Hw]. split; rewrite ?Hs; try lia; naive_solver lia.
  - intros [_ Hx]%lookup_delete_Some. by eapply Hw.
Qed.

(** A grant awaiting approval is untouched by the steps that approve others. *)
Lemma waiting_unchanged e h op t t1 k r :
  (∃ id, op = Approve id) ∨ op = TimeoutJob →
  rtc (ea_trans S e h op) t t1 → t1 !! k = Some r → ea_status r = 3%Z → t !! k = Some r.
Proof.
  intros Hop Hr. induction Hr as [t|t t2 t1 Hst _ IH]; intros Hk Hs; [done|]. specialize (IH Hk Hs).
  destruct Hst as [op t j x x' Hx Hrow|d t x|op t j x Hx Hd].
  - apply lookup_insert_Some in IH as [[<- <-]|[_ IH]]; [|done].
    destruct Hrow; simpl in Hs; try lia; destruct Hop as [[? ?]|?]; naive_solver.
  - destruct Hop as [[? ?]|?]; done.
  - destruct Hd; destruct Hop as [[? ?]|?]; naive_solver.
Qed.

End steps.

(** ** Every request refines the machine *)

Section properties.
Variable decode_invite : string → res Error EmergencyAccessInviteJwtClaims.
Context `{!Serde UserStampException id} `{FL : FileLinks}.
Abbreviation run := (run_op decode_invite).

(** The surroundings of a request that comes in when the world is [w] *)
Definition source (w : World) : Source := mkSource decode_invite (users (db w)).

Lemma run_op_refines h op e w :
  ea_keyed (ea_of w) → wp (run h op) e w (λ _ w', rtc (ea_trans (source w) e h op) (ea_of w) (ea_of w')).
Proof.
  intros Hk. pose proof (keeps_reads h op) as Hr.
  destruct op; simpl; try (by apply refines_keeps).
  - by apply refines_get_contacts.
  - by apply refines_get_one.
  - by apply refines_update.
  - by apply refines_delete.
  - by apply (refines_invite (source w)).
  - by apply (refines_reinvite (source w)).
  - by apply (refines_accept (source w)).
  - by apply refines_confirm.
  - by apply refines_initiate.
  - by apply refines_approve.
  - by apply refines_reject.
  - apply refines_job; [|done]. intros; by apply timeout_one_spec.
  - apply refines_job; [|done]. intros; by apply remind_one_spec.
Qed.

(** C33: every handler and job of emergency access, run with any request,
    configuration and database, whether it succeeds, fails midway or panics,
    changes the table of grants only by steps of the machine [ea_trans] that
    its own request allows: on the grant it names, in the state and by the party
    the step is for; and it is accepted by the account with the address it was
    offered to, on a token for both, or at once where no mail is sent. *)
Theorem emergency_access_refines e h op w r w' :
  ea_keyed (ea_of w) → run h op e w = (r, w') → rtc (ea_trans (source w) e h op) (ea_of w) (ea_of w').
Proof. intros Hk Hrun. by apply (wp_run _ _ _ _ (run_op_refines h op e w Hk) r). Qed.

(** Requests handled one after the other, each with its surroundings. *)
Fixpoint run_ops (l : list (Env * Headers * EaOp)) (w : World) : World :=
  match l with
  | [] => w
  | (e, h, op) :: l => run_ops l (run h op e w).2
  end.

(** C34: the invariant of grants.  After any series of requests and jobs, from
    any well-formed table (the empty one, say): every grant is in one of the
    five states; an invited one has an address and no grantee, a later one has
    a grantee and no address left; from confirmation on it holds the encrypted
    key, and from initiation on the time it was initiated.  The jobs therefore
    never meet a grant without grantee or date. *)
Theorem emergency_access_invariant l w : ea_inv (ea_of w) → ea_inv (ea_of (run_ops l w)).
Proof.
  revert w. induction l as [|[[e h] op] l IH]; intros w Hinv; simpl; [done|]. apply IH.
  assert (rtc (ea_trans (source w) e h op) (ea_of w) (ea_of (run h op e w).2)) as Hr.
  { exact (run_op_refines h op e w (proj1 Hinv)). }
  clear -Hr Hinv. induction Hr; eauto using ea_trans_inv.
Qed.

(** Who can approve.  If after a request a grant is approved that was not
    approved before, then recovery had been initiated on it, and either the
    request is the approval by its own grantor, or the timeout job ran and the
    grant's waiting time has passed since its initiation. *)
Theorem approval_needs_grantor_or_timeout e h op w res w' k r' :
  ea_keyed (ea_of w) → run h op e w = (res, w') → ea_of w' !! k = Some r' → ea_status r' = 4%Z →
  ∃ r, ea_of w !! k = Some r ∧
    (ea_status r = 4%Z ∨
     ea_status r = 3%Z ∧
       ((∃ id, op = Approve id) ∧ ea_grantor_uuid r = u_uuid (h_user h) ∨
        op = TimeoutJob ∧ ∃ t, ea_recovery_initiated_at r = Some t ∧ (t + days (ea_wait_time_days r) ≤ now e)%Z)).
Proof.
  intros Hk Hrun. pose proof (wp_run _ _ _ _ (run_op_refines h op e w Hk) _ _ Hrun) as Hr. simpl in Hr.
  clear -Hr. revert r'. apply rtc_nsteps in Hr as [n Hr]. revert Hr. generalize (ea_of w') as t'. clear w'.
  induction n as [|n IH]; intros t' Hr r' Hk' Hs; [inversion Hr; subst; eauto|].
  apply nsteps_inv_r in Hr as (t1 & Hr1 & Hst). pose proof (rtc_nsteps_2 _ _ _ Hr1) as Hrtc.
  destruct Hst as [op t1 j x x' Hx Hrow|d t1 x Hg Hst|op t1 j x Hx Hd].
  - apply lookup_insert_Some in Hk' as [[<- <-]|[_ Hk']]; [|by eapply IH].
    assert (ea_status x = 4%Z → ∃ r, ea_of w !! j = Some r ∧ (ea_status r = 4%Z ∨ ea_status r = 3%Z ∧
      ((∃ id, op = Approve id) ∧ ea_grantor_uuid r = u_uuid (h_user h) ∨
        op = TimeoutJob ∧ ∃ t, ea_recovery_initiated_at r = Some t ∧ (t + days (ea_wait_time_days r) ≤ now e)%Z)))
      as Hstay by (intros; by eapply IH).
    destruct Hrow; simpl in Hs; try lia; [by apply Hstay| |].
    + exists r. split; [eapply waiting_unchanged; [|exact Hrtc|exact Hx|done]; eauto|]. right. eauto.
    + exists r. split; [eapply waiting_unchanged; [|exact Hrtc|exact Hx|done]; eauto|]. right. eauto 10.
  - apply lookup_insert_Some in Hk' as [[<- <-]|[_ Hk']]; [lia|by eapply IH].
  - apply lookup_delete_Some in Hk' as [_ Hk']. by eapply IH.
Qed.
End properties.

(** ** Acting on a grant *)

Section access.
Context `{!Serde UserStampException id} `{FL : FileLinks}.

(** The requests that use a grant, with the kind of access each needs. *)
Definition uses_grant (op : EaOp) : option (string * EmergencyAccessType) :=
  match op with
  | ViewVault id => Some (id, View)
  | TakeoverInfo id | SetPassword id _ | Policies id => Some (id, Takeover)
  | _ => None
  end.

Lemma approved_request_refused id h t e w :
  (∀ r, ea_of w !! id = Some r → is_valid_request r (u_uuid (h_user h)) t = false) →
  approved_request id h t e w = (Err (new_msg "Emergency access not valid."), w).
Proof.
  intros Hno. unfold approved_request, EmergencyAccess_find_by_uuid_and_grantee_uuid, ea_get.
  cbv [mbind query]. fold (ea_of w). destruct (ea_of w !! id) as [r|] eqn:E; [|done]. simpl.
  destruct (bool_decide _); [|done]. simpl. unfold mret. by rewrite (Hno r eq_refl).
Qed.

(** A grant gives no access before it is approved.  Viewing the vault,
    reading the key material, setting a new master password and reading the
    policies are refused, and change nothing at all, unless the grant exists,
    the requester is its grantee, it has been approved, and it is of the kind
    the request needs (view for viewing, takeover for the others). *)
Theorem access_needs_approval dec op id t h e w :
  uses_grant op = Some (id, t) →
  (∀ r, ea_of w !! id = Some r →
     ¬ (ea_grantee_uuid r = Some (u_uuid (h_user h)) ∧ ea_status r = 4%Z ∧ ea_atype r = EmergencyAccessType_to_i32 t)) →
  ∃ x, run_op dec h op e w = (Err x, w).
Proof.
  intros Hop Hno.
  assert (∀ r, ea_of w !! id = Some r → is_valid_request r (u_uuid (h_user h)) t = false) as Hval.
  { intros r Hr. apply not_true_iff_false. unfold is_valid_request, has_status.
    rewrite !andb_true_iff, bool_decide_eq_true, !Z.eqb_eq. intros [[? ?] ?]. by apply (Hno r Hr). }
  assert (check_emergency_access_enabled e w =
    (if emergency_access_allowed (cfg e) then Ok tt else Err (new_msg "Emergency access is not enabled."), w)) as Hen.
  { unfold check_emergency_access_enabled, mbind, conf, ask, ensure. by destruct (emergency_access_allowed (cfg e)). }
  destruct op; simplify_eq/=; unfold drop, view_emergency_access, takeover_emergency_access,
    password_emergency_access, policies_emergency_access.
  1-3: unfold mbind at 1 2 || unfold mbind at 1; rewrite Hen; destruct (emergency_access_allowed (cfg e)); [|by eexists].
  all: unfold mbind; rewrite approved_request_refused by done; by eexists.
Qed.
End access.

(** ** The timeout job makes progress *)

(** A row the job can process: its dates are in chrono's range. *)
Definition timeout_in_range (r : EmergencyAccess) : Prop :=
  ∃ t, ea_recovery_initiated_at r = Some t ∧
    is_Some (d ← try_days (ea_wait_time_days r); checked_add_signed t d).
#[export] Instance timeout_in_range_dec r : Decision (timeout_in_range r).
Proof.
  unfold timeout_in_range. destruct (ea_recovery_initiated_at r) as [t|]; [|right; by intros (? & ? & _)].
  destruct (decide (is_Some (d ← try_days (ea_wait_time_days r); checked_add_signed t d))); [left; eauto|right].
  intros (t' & ? & ?). by simplify_eq.
Defined.

Lemma plus_days_ok t n e w :
  is_Some (d ← try_days n; checked_add_signed t d) → plus_days t n e w = (Ok (t + days n)%Z, w).
Proof.
  unfold plus_days, try_days, try_seconds, checked_add_signed, mbind, mexpect, mret.
  destruct (Z.abs _ <=? _)%Z; [|by intros []]. simpl. destruct (in_range _); [|by intros []]. done.
Qed.

Definition pending (r : EmergencyAccess) : bool :=
  has_status r RecoveryInitiated && bool_decide (is_Some (ea_recovery_initiated_at r)).

Definition timed_out (t : Z) (r : EmergencyAccess) : EmergencyAccess :=
  match ea_recovery_initiated_at r with
  | Some i => if (i + days (ea_wait_time_days r) <=? t)%Z
              then r <| ea_status := 4%Z |> <| ea_updated_at := t |> else r
  | None => r
  end.

(** With mail disabled, one row is processed without error. *)
Lemma timeout_one_run x e w :
  mail_enabled (cfg e) = false → ea_of w !! ea_uuid x = Some x → is_Some (ea_grantee_uuid x) → timeout_in_range x →
  ∃ w', timeout_one (now e) x e w = (Ok tt, w') ∧ ea_of w' = <[ea_uuid x := timed_out (now e) x]> (ea_of w).
Proof.
  intros Hm Hx [g Hg] (i & Hi & Hrange). unfold timeout_one, timed_out. rewrite Hi.
  unfold mbind at 1, mexpect, mret at 1. unfold mbind at 1. rewrite plus_days_ok by done.
  destruct (_ <=? _)%Z; [|exists w; split; [done|]; by rewrite insert_id].
  eexists. split.
  - cbv [mbind EmergencyAccess_update_access_status_and_save mexpect]. rewrite Hg.
    cbv [mret User_update_uuid_revision User_update_revision_impl mbind ask mignore exec conf]. rewrite Hm. reflexivity.
  - unfold ea_of in *. simpl. by rewrite (alter_insert _ _ x).
Qed.
Lemma timeout_loop_run l : ∀ e w,
  mail_enabled (cfg e) = false → NoDup (ea_uuid <$> l) →
  Forall (λ x, ea_of w !! ea_uuid x = Some x ∧ is_Some (ea_grantee_uuid x) ∧ timeout_in_range x) l →
  ∃ w', for_each l (timeout_one (now e)) e w = (Ok tt, w') ∧
    (∀ x, x ∈ l → ea_of w' !! ea_uuid x = Some (timed_out (now e) x)) ∧
    (∀ k, k ∉ ea_uuid <$> l → ea_of w' !! k = ea_of w !! k).
Proof.
  induction l as [|x l IH]; intros e w Hm Hnd Hl; simpl.
  { exists w. split; [done|]. split; [|done]. intros x Hx. by apply elem_of_nil in Hx. }
  apply NoDup_cons in Hnd as [Hx Hnd]. apply Forall_cons in Hl as [(Hx1 & Hg & Hr) Hl].
  destruct (timeout_one_run x e w Hm Hx1 Hg Hr) as (w1 & Hrun & Hw1). unfold mbind. rewrite Hrun.
  destruct (IH e w1 Hm Hnd) as (w' & -> & Hin & Hout).
  { apply Forall_forall. intros y Hy. rewrite Forall_forall in Hl. destruct (Hl y Hy) as (Hy1 & ? & ?).
    split_and!; [|done..]. rewrite Hw1, lookup_insert_ne; [done|]. intros E. apply Hx. rewrite E.
    by apply list_elem_of_fmap_2. }
  exists w'. split; [done|]. split.
  - intros y [->|Hy]%elem_of_cons; [|by apply Hin]. by rewrite Hout, Hw1, lookup_insert_eq.
  - intros k [Hne Hk]%not_elem_of_cons. by rewrite Hout, Hw1, lookup_insert_ne.
Qed.

(** The rows the job loads are the pending ones. *)
Lemma pending_row w x :
  ea_inv (ea_of w) → x ∈ load pending (ea_of w) →
  ea_of w !! ea_uuid x = Some x ∧ is_Some (ea_grantee_uuid x) ∧ is_Some (ea_recovery_initiated_at x).
Proof.
  intros [Hk Hwf] Hx. apply elem_of_load in Hx as [Hp [k Hx]].
  apply andb_true_iff in Hp as [Hp%has_status_true Hi%bool_decide_eq_true]. rewrite (Hk _ _ Hx).
  split_and!; [done| |done]. apply (wf_accepted _ (Hwf _ _ Hx)). rewrite Hp. done.
Qed.
Lemma pending_loaded t k r :
  ea_inv t → t !! k = Some r → ea_status r = 3%Z → r ∈ load pending t.
Proof.
  intros [Hk Hwf] Hr Hs. apply elem_of_load. split; [|eauto]. apply andb_true_iff. split; [by apply Z.eqb_eq|].
  apply bool_decide_eq_true, (wf_initiated _ (Hwf _ _ Hr)). lia.
Qed.
Lemma pending_status (t : table) x : x ∈ load pending t → ea_status x = 3%Z.
Proof. intros Hx. apply elem_of_load in Hx as [Hp _]. by apply andb_true_iff in Hp as [Hp%has_status_true _]. Qed.

(** C40: the timeout job does its work.  On a well-formed table whose pending
    grants have waiting times within the range of dates, with emergency access
    allowed and mail disabled, the job completes, approves every pending grant
    whose waiting time has passed, and leaves every other grant as it was. *)
Theorem timeout_job_approves e w :
  ea_inv (ea_of w) → emergency_access_allowed (cfg e) = true → mail_enabled (cfg e) = false →
  (∀ k r, ea_of w !! k = Some r → ea_status r = 3%Z → timeout_in_range r) →
  ∃ w', emergency_request_timeout_job e w = (Ok tt, w') ∧
    ∀ k r, ea_of w !! k = Some r →
      ea_of w' !! k = Some (if (ea_status r =? 3)%Z then timed_out (now e) r else r).
Proof.
  intros Hinv Hal Hm Hrange. pose proof (pending_row w) as Hrow.
  destruct (timeout_loop_run (load pending (ea_of w)) e w Hm) as (w' & Hrun & Hin & Hout).
  { apply load_keys_NoDup, Hinv. }
  { apply Forall_forall. intros x Hx. destruct (Hrow x Hinv Hx) as (H1 & H2 & _). split_and!; [done..|].
    eapply Hrange; [exact H1|by eapply pending_status]. }
  exists w'. split.
  - unfold emergency_request_timeout_job, EmergencyAccess_find_all_recoveries_initiated, ea_load.
    cbv [mbind conf ask query]. rewrite Hal. exact Hrun.
  - intros k r Hr. destruct (ea_status r =? 3)%Z eqn:Es.
    + apply Z.eqb_eq in Es. rewrite <- (proj1 Hinv _ _ Hr). by apply Hin, (pending_loaded _ k).
    + rewrite Hout; [done|]. intros (x & -> & Hx)%list_elem_of_fmap. destruct (Hrow x Hinv Hx) as (H1 & _).
      apply Z.eqb_neq in Es. apply pending_status in Hx. congruence.
Qed.

Lemma timeout_one_panics x e w : is_Some (ea_recovery_initiated_at x) → ¬ timeout_in_range x →
  timeout_one (now e) x e w = (Panic, w).
Proof.
  intros [i Hi] Hr. unfold timeout_one. rewrite Hi. unfold mbind at 1, mexpect, mret at 1. unfold mbind at 1.
  assert (plus_days i (ea_wait_time_days x) e w = (Panic, w)) as ->; [|done].
  unfold plus_days, mbind, mexpect, mret. destruct (try_days _) as [d|] eqn:Ed; [|done].
  destruct (checked_add_signed i d) eqn:Ea; [|done]. destruct Hr. exists i. rewrite Ed. simpl. by rewrite Ea.
Qed.
Lemma timeout_loop_panics l : ∀ e w,
  mail_enabled (cfg e) = false → NoDup (ea_uuid <$> l) →
  Forall (λ x, ea_of w !! ea_uuid x = Some x ∧ is_Some (ea_grantee_uuid x) ∧ is_Some (ea_recovery_initiated_at x)) l →
  Exists (λ x, ¬ timeout_in_range x) l → (for_each l (timeout_one (now e)) e w).1 = Panic.
Proof.
  induction l as [|x l IH]; intros e w Hm Hnd Hl Hex; simpl; [by apply Exists_nil in Hex|].
  apply NoDup_cons in Hnd as [Hx Hnd]. apply Forall_cons in Hl as [(Hx1 & Hg & Hi) Hl].
  destruct (decide (timeout_in_range x)) as [Hr|Hr]; unfold mbind; [|by rewrite timeout_one_panics].
  apply Exists_cons in Hex as [?|Hex]; [done|].
  destruct (timeout_one_run x e w Hm Hx1 Hg Hr) as (w1 & -> & Hw1). apply IH; [done..| |done].
  apply Forall_forall. intros y Hy. rewrite Forall_forall in Hl. destruct (Hl y Hy) as (Hy1 & ? & ?).
  split_and!; [|done..]. rewrite Hw1, lookup_insert_ne; [done|]. intros E. apply Hx. rewrite E.
  by apply list_elem_of_fmap_2.
Qed.

(** One grant can stop the timeout job.  If any pending grant has a
    waiting time that leads outside the range of dates (no handler refuses to
    store one), the job panics, whatever other grants there are. *)
Theorem timeout_job_panics e w k r :
  ea_inv (ea_of w) → emergency_access_allowed (cfg e) = true → mail_enabled (cfg e) = false →
  ea_of w !! k = Some r → ea_status r = 3%Z → ¬ timeout_in_range r →
  (emergency_request_timeout_job e w).1 = Panic.
Proof.
  intros Hinv Hal Hm Hr Hs Hrange.
  unfold emergency_request_timeout_job, EmergencyAccess_find_all_recoveries_initiated, ea_load.
  cbv [mbind conf ask query]. rewrite Hal. apply timeout_loop_panics; [done| | |].
  - apply load_keys_NoDup, Hinv.
  - apply Forall_forall. intros x Hx. by apply pending_row.
  - apply Exists_exists. exists r. split; [|done]. by apply (pending_loaded _ k).
Qed.

(** ** Examples *)

Import ToyEnv ToyUsers ToyLinks.
Definition toy_grant (status wait : Z) : EmergencyAccess := {|
  ea_uuid := "g1"; ea_grantor_uuid := "alice"; ea_grantee_uuid := Some "bob"; ea_email := None;
  ea_key_encrypted := Some "k"; ea_atype := 1; ea_status := status; ea_wait_time_days := wait;
  ea_recovery_initiated_at := Some 0%Z; ea_last_notification_at := Some 0%Z; ea_updated_at := 0; ea_created_at := 0 |}.
Definition grant_world (status wait : Z) : World :=
  mkWorld ((db toy_world) <| emergency_access := {["g1" := toy_grant status wait]} |>) 0 [] ∅ ∅.
Definition toy_decode (s : string) : res Error EmergencyAccessInviteJwtClaims := Err (new_msg "Invalid token").
Definition as_user (id : string) : Headers := mkHeaders (toy_user id) 0 "ip" "host".
Definition quiet_env (t : Z) : Env := (toy_env t) <| cfg := toy_config <| mail_enabled := false |> |>.

Lemma grant_lookup status wait k r :
  ea_of (grant_world status wait) !! k = Some r → k = "g1" ∧ r = toy_grant status wait.
Proof. intros Hr. change (({["g1" := toy_grant status wait]} : table) !! k = Some r) in Hr.
  apply lookup_singleton_Some in Hr as [<- <-]. done. Qed.
Lemma grant_inv status wait : (2 ≤ status ≤ 4)%Z → ea_inv (ea_of (grant_world status wait)).
Proof.
  intros Hs. split; intros k r [-> ->]%grant_lookup; [done|]. split; simpl; try lia; intros; eauto.
Qed.

Lemma emergency_access_refines_witness :
  rtc (ea_trans (source toy_decode (grant_world 3 7)) (toy_env (days 8)) (as_user "alice") (Approve "g1")) (ea_of (grant_world 3 7))
    (ea_of (run_op toy_decode (as_user "alice") (Approve "g1") (toy_env (days 8)) (grant_world 3 7)).2).
Proof.
  apply (emergency_access_refines toy_decode _ _ _ _
    (run_op toy_decode (as_user "alice") (Approve "g1") (toy_env (days 8)) (grant_world 3 7)).1).
  - by apply grant_inv.
  - by destruct (run_op _ _ _ _ _).
Defined.

Lemma emergency_access_invariant_witness :
  ea_inv (ea_of (run_ops toy_decode
    [(toy_env (days 1), as_user "bob", Initiate "g1"); (toy_env (days 9), as_user "bob", TimeoutJob)] (grant_world 2 7))).
Proof. by apply emergency_access_invariant, grant_inv. Defined.

Lemma approval_needs_grantor_or_timeout_witness :
  ∃ r, ea_of (grant_world 3 7) !! "g1" = Some r ∧
    (ea_status r = 4%Z ∨ ea_status r = 3%Z ∧
      ((∃ id, TimeoutJob = Approve id) ∧ ea_grantor_uuid r = "alice" ∨
       TimeoutJob = TimeoutJob ∧ ∃ t, ea_recovery_initiated_at r = Some t ∧
         (t + days (ea_wait_time_days r) ≤ now (toy_env (days 8)))%Z)).
Proof.
  apply (approval_needs_grantor_or_timeout toy_decode (toy_env (days 8)) (as_user "alice")
    TimeoutJob (grant_world 3 7)
    (run_op toy_decode (as_user "alice") TimeoutJob (toy_env (days 8)) (grant_world 3 7)).1
    (run_op toy_decode (as_user "alice") TimeoutJob (toy_env (days 8)) (grant_world 3 7)).2
    "g1" ((toy_grant 4 7) <| ea_updated_at := days 8 |>)).
  - by apply grant_inv.
  - by destruct (run_op _ _ _ _ _).
  - by vm_compute.
  - done.
Defined.

Lemma access_needs_approval_witness :
  ∃ x, run_op toy_decode (as_user "bob") (SetPassword "g1" (mkEmergencyAccessPasswordData "h" "k"))
         (toy_env (days 8)) (grant_world 3 7) = (Err x, grant_world 3 7).
Proof.
  eapply access_needs_approval; [done|]. intros r [_ ->]%grant_lookup. simpl. by intros (_ & ? & _).
Defined.

Lemma timeout_job_approves_witness :
  ∃ w', emergency_request_timeout_job (quiet_env (days 8)) (grant_world 3 7) = (Ok tt, w') ∧
    ea_of w' !! "g1" = Some ((toy_grant 4 7) <| ea_updated_at := days 8 |>).
Proof.
  destruct (timeout_job_approves (quiet_env (days 8)) (grant_world 3 7)) as (w' & Hrun & Hw').
  - by apply grant_inv.
  - done.
  - done.
  - intros k r [_ ->]%grant_lookup _. exists 0%Z. split; [done|]. vm_compute. by eexists.
  - exists w'. split; [exact Hrun|]. rewrite (Hw' "g1" (toy_grant 3 7)); [|by vm_compute]. by vm_compute.
Defined.

Lemma timeout_job_panics_witness :
  (emergency_request_timeout_job (quiet_env (days 8)) (grant_world 3 2147483647)).1 = Panic.
Proof.
  apply (timeout_job_panics _ _ "g1" (toy_grant 3 2147483647)); [by apply grant_inv|done|done|by vm_compute|done|].
  intros (t & [= <-] & [x Hx]). by vm_compute in Hx.
Defined.
