(* ===== verification/Profiles.v ===== *)
(** * Organizations and accounts as a whole

    [server/src/db/models/organization.rs] (the organization's own row, the
    documents of an organization and of its members), [user.rs] (the profile,
    and deleting an account), and [Collection::to_json_details] of
    [collection.rs].  Deleting an account is refused while it is the last
    confirmed owner of some organization. *)

From stdpp Require Import base strings numbers pretty gmap list.
From S2P Require Import Prelude Store JsonUtil Queries Users Orgs AuthRequests TwoFactor Sends Collections Folders.
From S2P Require Import Login Sessions Ciphers EmergencyAccess.

(** ** Organization *)

Definition Organization_new (name billing_email : string) (private_key public_key : option string) : M Organization :=
  let* billing_email := ask (λ e, str_to_lowercase e billing_email) in
  let* uuid := get_uuid in
  mret (mkOrganization uuid name billing_email private_key public_key).

Definition i16_max : Z := 32767.
Definition has_keys (self : Organization) : bool := is_not_null (o_private_key self) && is_not_null (o_public_key self).
Definition Organization_to_json (self : Organization) : M Json :=
  let* c := ask cfg in
  mret (JObj [
    ("id", JStr (o_uuid self)); ("name", JStr (o_name self)); ("seats", JNull); ("maxCollections", JNull);
    ("maxStorageGb", JNum i16_max); ("use2fa", JBool true); ("useCustomPermissions", JBool true);
    ("useDirectory", JBool false); ("useEvents", JBool (org_events_enabled c));
    ("useGroups", JBool (org_groups_enabled c)); ("useTotp", JBool true); ("usePolicies", JBool true);
    ("useScim", JBool false); ("useSso", JBool false); ("useKeyConnector", JBool false);
    ("usePasswordManager", JBool true); ("useSecretsManager", JBool false); ("selfHost", JBool true);
    ("useApi", JBool true); ("hasPublicAndPrivateKeys", JBool (has_keys self));
    ("useResetPassword", JBool (mail_enabled c)); ("allowAdminAccessToAllCollectionItems", JBool true);
    ("limitCollectionCreation", JBool true); ("limitCollectionDeletion", JBool true);
    ("businessName", JStr (o_name self)); ("businessAddress1", JNull); ("businessAddress2", JNull);
    ("businessAddress3", JNull); ("businessCountry", JNull); ("businessTaxNumber", JNull);
    ("maxAutoscaleSeats", JNull); ("maxAutoscaleSmSeats", JNull); ("maxAutoscaleSmServiceAccounts", JNull);
    ("secretsManagerPlan", JNull); ("smSeats", JNull); ("smServiceAccounts", JNull);
    ("billingEmail", JStr (o_billing_email self)); ("planType", JNum 6); ("usersGetPremium", JBool true);
    ("object", JStr "organization")]).

Definition Organization_save (self : Organization) : M unit :=
  let* valid := ask (λ e, is_valid_email e (o_billing_email self)) in
  do* ensure valid ("BillingEmail " +:+ o_billing_email self +:+ " is not a valid email address") in
  let* l := Membership_find_by_org (o_uuid self) in
  do* for_each l (λ member, User_update_uuid_revision (m_user_uuid member)) in
  exec (λ d, d <| organizations := <[o_uuid self := self]> (organizations d) |>).
Definition Organization_delete (self : Organization) : M unit :=
  do* Cipher_delete_all_by_organization (o_uuid self) in
  do* Collection_delete_all_by_organization (o_uuid self) in
  do* Membership_delete_all_by_organization (o_uuid self) in
  do* OrgPolicy_delete_all_by_organization (o_uuid self) in
  do* Group_delete_all_by_organization (o_uuid self) in
  do* OrganizationApiKey_delete_all_by_organization (o_uuid self) in
  exec (λ d, d <| organizations := delete (o_uuid self) (organizations d) |>).
Definition Organization_find_by_name (name : string) : M (option Organization) :=
  query (λ d, first (λ o, bool_decide (o_name o = name)) (organizations d)).
Definition Organization_get_all : M (list Organization) := query (λ d, load (λ _, true) (organizations d)).

(** [.order(atype.asc())]: a stable insertion sort; rows with equal keys come in
    an arbitrary order anyway. *)
Fixpoint insert_by {V} (key : V → Z) (x : V) (l : list V) : list V :=
  match l with
  | [] => [x]
  | y :: l => if (key x <=? key y)%Z then x :: y :: l else y :: insert_by key x l
  end.
Definition order_by {V} (key : V → Z) (l : list V) : list V := foldr (insert_by key) [] l.
Definition orgs_of_email (lower_mail : string) (d : Db) : list (Membership * Organization) :=
  o ← rows (organizations d);
  m ← inner_join (rows (users_organizations d)) (λ m, bool_decide (m_org_uuid m = o_uuid o));
  u ← inner_join (rows (users d)) (λ u, bool_decide (u_uuid u = m_user_uuid m));
  guard_rows (bool_decide (u_email u = lower_mail) && negb (is_status MS_Revoked m)) [(m, o)].
Definition Organization_find_org_user_email (user_email : string) : M (list Organization) :=
  let* lower_mail := ask (λ e, str_to_lowercase e user_email) in
  query (λ d, (order_by (λ mo, m_atype mo.1) (orgs_of_email lower_mail d)).*2).
Definition Organization_find_main_org_user_email (user_email : string) : M (option Organization) :=
  let* l := Organization_find_org_user_email user_email in mret (head l).

(** ** Documents of a membership *)

Definition permissions_json (collections : bool) : Json :=
  JObj [("accessEventLogs", JBool false); ("accessImportExport", JBool false); ("accessReports", JBool false);
        ("createNewCollections", JBool collections); ("editAnyCollection", JBool collections);
        ("deleteAnyCollection", JBool collections); ("manageGroups", JBool false); ("managePolicies", JBool false);
        ("manageSso", JBool false); ("manageUsers", JBool false); ("manageResetPassword", JBool false);
        ("manageScim", JBool false)].
Definition manages_all (self : Membership) : bool :=
  (Membership_type_manager_as_custom self =? 4)%Z && m_access_all self.

(** The organization must exist. *)
Definition Membership_to_json (self : Membership) : M Json :=
  let* found := Organization_find_by_uuid (m_org_uuid self) in
  let* org := mexpect found in
  let* c := ask cfg in
  mret (JObj [
    ("id", JStr (m_org_uuid self)); ("identifier", JNull); ("name", JStr (o_name org)); ("seats", JNum 20);
    ("maxCollections", JNull); ("usersGetPremium", JBool true); ("use2fa", JBool true); ("useDirectory", JBool false);
    ("useEvents", JBool (org_events_enabled c)); ("useGroups", JBool (org_groups_enabled c)); ("useTotp", JBool true);
    ("useScim", JBool false); ("usePolicies", JBool true); ("useApi", JBool true); ("selfHost", JBool true);
    ("hasPublicAndPrivateKeys", JBool (has_keys org));
    ("resetPasswordEnrolled", JBool (is_not_null (m_reset_password_key self)));
    ("useResetPassword", JBool (mail_enabled c)); ("ssoBound", JBool false); ("useSso", JBool false);
    ("useKeyConnector", JBool false); ("useSecretsManager", JBool false); ("usePasswordManager", JBool true);
    ("useCustomPermissions", JBool true); ("useActivateAutofillPolicy", JBool false);
    ("useAdminSponsoredFamilies", JBool false); ("useRiskInsights", JBool false);
    ("organizationUserId", JStr (m_uuid self)); ("providerId", JNull); ("providerName", JNull); ("providerType", JNull);
    ("familySponsorshipFriendlyName", JNull); ("familySponsorshipAvailable", JBool false); ("productTierType", JNum 3);
    ("keyConnectorEnabled", JBool false); ("keyConnectorUrl", JNull); ("familySponsorshipLastSyncDate", JNull);
    ("familySponsorshipValidUntil", JNull); ("familySponsorshipToDelete", JNull); ("accessSecretsManager", JBool false);
    ("limitCollectionCreation", JBool (i32_lt (m_atype self) MT_Manager || negb (m_access_all self)));
    ("limitCollectionDeletion", JBool true); ("limitItemDeletion", JBool false);
    ("allowAdminAccessToAllCollectionItems", JBool true); ("userIsManagedByOrganization", JBool false);
    ("userIsClaimedByOrganization", JBool false); ("permissions", permissions_json (manages_all self));
    ("maxStorageGb", JNum i16_max); ("userId", JStr (m_user_uuid self)); ("key", JStr (m_akey self));
    ("status", JNum (m_status self)); ("type", JNum (Membership_type_manager_as_custom self)); ("enabled", JBool true);
    ("object", JStr "profileOrganization")]).

Definition access_json (id : string) (read_only hide_passwords manage : bool) : Json :=
  JObj [("id", JStr id); ("readOnly", JBool read_only); ("hidePasswords", JBool hide_passwords); ("manage", JBool manage)].

(** The entry of a collection in the details of a member; access that comes
    only through a group is left out. *)
Definition member_collection_json (self : Membership) (cu : gmap string CollectionUser) (cg : gset string)
    (c : Collection) : option Json :=
  if Membership_has_full_access self then Some (access_json (c_uuid c) false false (i32_ge (m_atype self) MT_Manager))
  else match cu !! c_uuid c with
       | Some cu => Some (access_json (c_uuid c) (cu_read_only cu) (cu_hide_passwords cu)
           (cu_manage cu || Membership_has_type self MT_Manager && negb (cu_read_only cu) && negb (cu_hide_passwords cu)))
       | None => if bool_decide (c_uuid c ∈ cg) then None else Some (access_json (c_uuid c) true true false)
       end.
Definition member_collections_json (self : Membership) : M (list Json) :=
  let* cus := CollectionUser_find_by_organization_and_user_uuid (m_org_uuid self) (m_user_uuid self) in
  let cu := collect_map ((λ cu, (cu_collection_uuid cu, cu)) <$> cus) in
  let* cgs := CollectionGroup_find_by_user (m_user_uuid self) in
  let cg : gset string := list_to_set (cg_collections_uuid <$> cgs) in
  let* l := Collection_find_by_organization_and_user_uuid (m_org_uuid self) (m_user_uuid self) in
  mret (omap (member_collection_json self cu cg) l).
Definition Membership_to_json_user_details (self : Membership) (include_collections include_groups : bool) : M Json :=
  let* found := User_find_by_uuid (m_user_uuid self) in
  let* user := mexpect found in
  let* tfs := TwoFactor_find_by_user (u_uuid user) in
  let* groups_enabled := conf org_groups_enabled in
  let* groups := (if include_groups && groups_enabled
                  then let* l := GroupUser_find_by_member (m_uuid self) in mret l.*1 else mret []) in
  let* full_access_group := (if groups_enabled
                             then Group_is_in_full_access_group (m_user_uuid self) (m_org_uuid self) else mret false) in
  let* collections := (if include_collections && negb (full_access_group || m_access_all self)
                       then member_collections_json self else mret []) in
  mret (JObj [
    ("id", JStr (m_uuid self)); ("userId", JStr (m_user_uuid self));
    ("name", if (MembershipStatus_to_i32 MS_Accepted <=? Membership_get_unrevoked_status self)%Z
             then JStr (u_name user) else JNull);
    ("email", JStr (u_email user)); ("externalId", json_opt JStr (m_external_id self));
    ("avatarColor", json_opt JStr (u_avatar_color user)); ("groups", JArr (JStr <$> groups));
    ("collections", JArr collections); ("status", JNum (Membership_shown_status self));
    ("type", JNum (Membership_type_manager_as_custom self)); ("accessAll", JBool (m_access_all self));
    ("twoFactorEnabled", JBool (negb (bool_decide (tfs = []))));
    ("resetPasswordEnrolled", JBool (is_not_null (m_reset_password_key self)));
    ("hasMasterPassword", JBool (negb (bool_decide (u_password_hash user = []))));
    ("permissions", if manages_all self then permissions_json true else JNull);
    ("ssoBound", JBool false); ("managedByOrganization", JBool false); ("claimedByOrganization", JBool false);
    ("usesKeyConnector", JBool false); ("accessSecretsManager", JBool false);
    ("object", JStr "organizationUserUserDetails")]).
Definition Membership_to_json_user_access_restrictions (self : Membership) (col_user : CollectionUser) : Json :=
  access_json (m_uuid self) (cu_read_only col_user) (cu_hide_passwords col_user) (cu_manage col_user).
Definition Membership_to_json_details (self : Membership) : M Json :=
  let* coll_uuids :=
    (if m_access_all self then mret []
     else let* collections := CollectionUser_find_by_organization_and_user_uuid (m_org_uuid self) (m_user_uuid self) in
          mret ((λ cu, access_json (cu_collection_uuid cu) (cu_read_only cu) (cu_hide_passwords cu) (cu_manage cu))
                  <$> collections)) in
  mret (JObj [("id", JStr (m_uuid self)); ("userId", JStr (m_user_uuid self));
              ("status", JNum (Membership_shown_status self)); ("type", JNum (m_atype self));
              ("accessAll", JBool (m_access_all self)); ("collections", JArr coll_uuids);
              ("object", JStr "organizationUserDetails")]).
Definition Membership_to_json_mini_details (self : Membership) : M Json :=
  let* found := User_find_by_uuid (m_user_uuid self) in
  let* user := mexpect found in
  mret (JObj [("id", JStr (m_uuid self)); ("userId", JStr (m_user_uuid self));
              ("type", JNum (Membership_type_manager_as_custom self)); ("status", JNum (Membership_shown_status self));
              ("name", JStr (u_name user)); ("email", JStr (u_email user));
              ("object", JStr "organizationUserUserMiniDetails")]).

(** ** collection.rs: to_json_details *)

(** What the document says of the user's access to the collection. *)
Definition details_from_sync (self : Collection) (sync : CipherSyncData) : Flags :=
  match cs_members sync !! c_org_uuid self with
  | Some m =>
     if Membership_has_full_access m then (false, false, i32_ge (m_atype m) MT_Manager)
     else
       let is_manager := Membership_has_type m MT_Manager in
       match cs_user_collections sync !! c_uuid self with
       | Some cu => (cu_read_only cu, cu_hide_passwords cu,
                     is_manager && (cu_manage cu || negb (cu_read_only cu) && negb (cu_hide_passwords cu)))
       | None =>
          match cs_user_collections_groups sync !! c_uuid self with
          | Some cg => (cg_read_only cg, cg_hide_passwords cg,
                        is_manager && (cg_manage cg || negb (cg_read_only cg) && negb (cg_hide_passwords cg)))
          | None => (false, false, false)
          end
       end
  | None => (true, true, false)
  end.
Definition details_from_db (self : Collection) (user_uuid : string) : M Flags :=
  let* found := Membership_find_confirmed_by_user_and_org user_uuid (c_org_uuid self) in
  match found with
  | Some m =>
     if Membership_has_full_access m then mret (false, false, i32_ge (m_atype m) MT_Manager)
     else
       let is_manager := Membership_has_type m MT_Manager in
       let* manageable := (if is_manager then Collection_is_manageable_by_user self user_uuid else mret false) in
       if manageable then mret (false, false, true)
       else
         let* writable := Collection_is_writable_by_user self user_uuid in
         let read_only := negb writable in
         let* hide_passwords := Collection_hide_passwords_for_user self user_uuid in
         mret (read_only, hide_passwords, is_manager && negb read_only && negb hide_passwords)
  | None => mret (true, true, false)
  end.
Definition Collection_to_json_details_fields (self : Collection) (user_uuid : string) (sync : option CipherSyncData)
    : M (list (string * Json)) :=
  let* (read_only, hide_passwords, manage) :=
    match sync with
    | Some sync => mret (details_from_sync self sync)
    | None => details_from_db self user_uuid
    end in
  mret (json_insert "manage" (JBool manage) (json_insert "hidePasswords" (JBool hide_passwords)
    (json_insert "readOnly" (JBool read_only)
      (json_insert "object" (JStr "collectionDetails") (Collection_to_json_fields self))))).
Definition Collection_to_json_details (self : Collection) (user_uuid : string) (sync : option CipherSyncData) : M Json :=
  let* fields := Collection_to_json_details_fields self user_uuid sync in mret (JObj fields).

(** ** Accounts *)

Definition User_to_json (self : User) : M Json :=
  let* l := Membership_find_confirmed_by_user (u_uuid self) in
  let* orgs_json := collect l Membership_to_json in
  let* tfs := TwoFactor_find_by_user (u_uuid self) in
  let* mail := conf mail_enabled in
  let* created := ask (λ e, format_date e (u_created_at self)) in
  mret (JObj [
    ("_status", JNum (if bool_decide (u_password_hash self = []) then 1 else 0)); ("id", JStr (u_uuid self));
    ("name", JStr (u_name self)); ("email", JStr (u_email self));
    ("emailVerified", JBool (negb mail || is_not_null (u_verified_at self))); ("premium", JBool true);
    ("premiumFromOrganization", JBool false); ("culture", JStr "en-US");
    ("twoFactorEnabled", JBool (negb (bool_decide (tfs = [])))); ("key", JStr (u_akey self));
    ("privateKey", json_opt JStr (u_private_key self)); ("securityStamp", JStr (u_security_stamp self));
    ("organizations", JArr orgs_json); ("providers", JArr []); ("providerOrganizations", JArr []);
    ("forcePasswordReset", JBool false); ("avatarColor", json_opt JStr (u_avatar_color self));
    ("usesKeyConnector", JBool false); ("creationDate", JStr created); ("object", JStr "profile")]).

(** The database refuses to delete an account that rows still refer to; the
    requests to log in with a device are the ones that the deletion below
    leaves. *)
Definition unreferenced (user_uuid : string) : M unit :=
  let* l := AuthRequest_find_by_user user_uuid in
  ensure (bool_decide (l = [])) "Error deleting user".
Lemma reads_unreferenced user_uuid : reads (unreferenced user_uuid).
Proof. unfold unreferenced, AuthRequest_find_by_user. solve_reads. Qed.
#[export] Hint Resolve reads_unreferenced : frame.
(** The check comes before any deletion. *)
Definition check_not_last_owner (member : Membership) : M unit :=
  if Membership_has_type member MT_Owner then
    let* n := Membership_count_confirmed_by_org_and_type (m_org_uuid member) MT_Owner in
    ensure (1 <? n) "Can't delete last owner"
  else mret tt.
Definition User_delete (self : User) : M unit :=
  let* l := Membership_find_confirmed_by_user (u_uuid self) in
  do* for_each l check_not_last_owner in
  do* Send_delete_all_by_user (u_uuid self) in
  do* EmergencyAccess_delete_all_by_user (u_uuid self) in
  do* EmergencyAccess_delete_all_by_grantee_email (u_email self) in
  do* Membership_delete_all_by_user (u_uuid self) in
  do* Cipher_delete_all_by_user (u_uuid self) in
  do* Favorite_delete_all_by_user (u_uuid self) in
  do* Folder_delete_all_by_user (u_uuid self) in
  do* Device_delete_all_by_user (u_uuid self) in
  do* TwoFactor_delete_all_by_user (u_uuid self) in
  do* TwoFactorIncomplete_delete_all_by_user (u_uuid self) in
  let* _ := Invitation_take (u_email self) in
  do* unreferenced (u_uuid self) in
  exec (λ d, (cascade_archives (λ k, k.1 = u_uuid self) d) <| users := delete (u_uuid self) (users d) |>
             <| sso_users := delete (u_uuid self) (sso_users d) |>).
