(* ===== verification/Members.v ===== *)
(** * Organizations and their members

    [server/src/api/core/organizations.rs], as far as it concerns organizations
    as a whole and their members: creating and deleting an organization, and the
    life of a membership from the invitation over acceptance and confirmation to
    revocation and removal; with [accept_org_invite] of [api/core/mod.rs].  The
    handlers get what their request guard ([Sessions]) let through.  The theorems
    are in [MemberSafety]. *)

From Stdlib Require Import Ascii.
From stdpp Require Import base strings numbers pretty gmap list.
From S2P Require Import Prelude Store JsonUtil Queries Users Orgs AuthRequests TwoFactor Sends Collections Folders.
From S2P Require Import Login Sessions Ciphers Vault EmergencyAccess Profiles Signups.

(** ** Requests *)

(** [NumberOrString] is part of [Sends]. *)
Definition NumberOrString_into_string (self : NumberOrString) : string :=
  match self with Number n => pretty n | NString s => s end.

Record OrgKeyData := mkOrgKeyData { ok_encrypted_private_key : string; ok_public_key : string }.
Record OrgData := mkOrgData {
  od_billing_email : string; od_collection_name : string; od_key : string; od_name : string; od_keys : option OrgKeyData }.
Record OrganizationUpdateData := mkOrganizationUpdateData { ou_billing_email : string; ou_name : string }.
Record CollectionData := mkCollectionData {
  cd_id : string; cd_read_only : bool; cd_hide_passwords : bool; cd_manage : bool }.
Record InviteData := mkInviteData {
  iv_emails : list string; iv_groups : list string; iv_type : NumberOrString;
  iv_collections : option (list CollectionData); iv_permissions : gmap string Json }.
Record EditUserData := mkEditUserData {
  eu_type : NumberOrString; eu_collections : option (list CollectionData); eu_groups : option (list string);
  eu_permissions : gmap string Json }.
Record AcceptData := mkAcceptData { ac_token : string; ac_reset_password_key : option string }.
Record ConfirmData := mkConfirmData { cf_id : option string; cf_key : option string }.
Record GetOrgUserData := mkGetOrgUserData { gu_include_collections : option bool; gu_include_groups : option bool }.
Record PolicyData := mkPolicyData { pd_enabled : bool; pd_data : option Json }.

(** The claims of an invitation, less the dates and the issuer, which the
    decoder checks. *)
Record InviteJwtClaims := mkInviteJwtClaims {
  ij_sub : string; ij_email : string; ij_org_id : string; ij_member_id : string; ij_invited_by_email : option string }.

(** ** Shared parts *)

(** The organization of the membership that a guard found. *)
Definition os_org_id (h : OrgSession) : string := m_org_uuid (os_membership h).
Definition is_owner (h : OrgSession) : bool := bool_decide (os_membership_type h = MT_Owner).
Definition same_org (org_id : string) (h : OrgSession) : M unit :=
  ensure (bool_decide (org_id = os_org_id h)) "Organization not found".
Definition log_org (h : OrgSession) (event_type : Z) (source_uuid org_id : string) : M unit :=
  log_event event_type source_uuid org_id (u_uuid (os_user h)) (d_atype (os_device h)) (os_ip h).

Definition OrganizationUserInvited : Z := 1500.
Definition OrganizationUserConfirmed : Z := 1501.
Definition OrganizationUserUpdated : Z := 1502.
Definition OrganizationUserRemoved : Z := 1503.
Definition OrganizationUserUpdatedGroups : Z := 1504.
Definition OrganizationUserResetPasswordEnroll : Z := 1506.
Definition OrganizationUserResetPasswordWithdraw : Z := 1507.
Definition OrganizationUserAdminResetPassword : Z := 1508.
Definition OrganizationUserRestored : Z := 1512.
Definition OrganizationUserLeft : Z := 1516.
Definition OrganizationUpdated : Z := 1600.
Definition PolicyUpdated : Z := 1700.

Definition FAKE_ADMIN_UUID : string := "00000000-0000-0000-0000-000000000000".
Definition FAKE_SSO_IDENTIFIER : string := "00000000-01DC-01DC-01DC-000000000000".

(** [match m { Ok(()) => .., Err(e) => .. }] *)
Definition outcome (m : M unit) : M (option Error) := λ e w,
  match m e w with
  | (Ok _, w) => (Ok None, w)
  | (Err x, w) => (Ok (Some x), w)
  | (Panic, w) => (Panic, w)
  end.
(** The answer for one element of a bulk request; a failure does not stop the
    others.  The text is the message of the error; its debug form, which the
    code writes, adds the detail meant for the log. *)
Definition bulk_entry (object id : string) (m : M unit) : M Json :=
  let* failed := outcome m in
  mret (JObj [("object", JStr object); ("id", JStr id); ("error", JStr (from_option e_message "" failed))]).
Definition bulk_response (object : string) (ids : list string) (f : string → M unit) : M Json :=
  let* l := collect ids (λ id, bulk_entry object id (f id)) in mret (json_list l).

(** The last confirmed owner stays. *)
Definition other_owner_left (org_id msg : string) : M unit :=
  let* n := Membership_count_confirmed_by_org_and_type org_id MT_Owner in
  ensure (1 <? n) msg.
Definition is_confirmed_owner (m : Membership) : bool :=
  Membership_has_type m MT_Owner && Membership_has_status m MS_Confirmed.

Section members.
(** The decoder of invitation tokens (signature, issuer and dates). *)
Variable decode_invite : string → res Error InviteJwtClaims.
Context `{!Serde ProtectedActionData pa_stored, !Serde EmailTokenData id, !Serde UserStampException id} `{FL : FileLinks}.

(** ** Organizations *)

Definition create_organization (headers : Headers) (data : OrgData) : M Json :=
  let user := h_user headers in
  let* allowed := is_org_creation_allowed (u_email user) in
  do* ensure allowed "User not allowed to create organizations" in
  let* applicable := OrgPolicy_is_applicable_to_user (u_uuid user) SingleOrg None in
  do* ensure (negb applicable) "You may not create an organization. You belong to an organization which has a policy that prohibits you from being a member of any other organization." in
  let* org := Organization_new (od_name data) (od_billing_email data)
                (ok_encrypted_private_key <$> od_keys data) (ok_public_key <$> od_keys data) in
  let* member := Membership_new (u_uuid user) (o_uuid org) None in
  let* collection := Collection_new (o_uuid org) (od_collection_name data) None in
  let member := member <| m_akey := od_key data |> <| m_access_all := true |>
                       <| m_atype := MembershipType_to_i32 MT_Owner |>
                       <| m_status := MembershipStatus_to_i32 MS_Confirmed |> in
  do* Organization_save org in
  do* Membership_save member in
  do* Collection_save collection in
  Organization_to_json org.

Definition delete_organization (org_id : string) (data : PasswordOrOtpData) (headers : OrgSession) : M unit :=
  do* same_org org_id headers in
  do* PasswordOrOtpData_validate data (os_user headers) true in
  let* found := Organization_find_by_uuid org_id in
  match found with
  | None => err "Organization not found"
  | Some org => Organization_delete org
  end.
Definition post_delete_organization := delete_organization.

Definition leave_organization (org_id : string) (headers : OrgSession) : M unit :=
  let membership := os_membership headers in
  do* ensure (Membership_has_status membership MS_Confirmed)
    "You need to be a Member of the Organization to call this endpoint" in
  do* (if Membership_has_type membership MT_Owner then other_owner_left org_id "The last owner can't leave" else mret tt) in
  do* log_org headers OrganizationUserLeft (m_uuid membership) org_id in
  Membership_delete membership.

Definition get_organization (org_id : string) (headers : OrgSession) : M Json :=
  do* same_org org_id headers in
  let* found := Organization_find_by_uuid org_id in
  match found with
  | Some organization => Organization_to_json organization
  | None => err "Can't find organization details"
  end.
Definition post_organization (org_id : string) (headers : OrgSession) (data : OrganizationUpdateData) : M Json :=
  do* same_org org_id headers in
  let* found := Organization_find_by_uuid org_id in
  let* org := some_or_err found "Organization not found" in
  let* billing_email := ask (λ e, str_to_lowercase e (ou_billing_email data)) in
  let org := org <| o_name := ou_name data |> <| o_billing_email := billing_email |> in
  do* Organization_save org in
  do* log_org headers OrganizationUpdated org_id org_id in
  Organization_to_json org.
Definition put_organization := post_organization.

(** The policy that enrols members for password resets. *)
Definition auto_enroll_enabled (e : Env) (data : string) : option bool :=
  j ← parse_json e data;
  v ← one_field ["autoEnrollEnabled"; "AutoEnrollEnabled"] j;
  match v with JBool b => Some b | _ => None end.
Definition OrgPolicy_org_is_reset_password_auto_enroll (org_uuid : string) : M bool :=
  let* found := OrgPolicy_find_by_org_and_type org_uuid ResetPassword in
  match found with
  | Some policy =>
     let* opts := ask (λ e, auto_enroll_enabled e (p_data policy)) in
     mret (match opts with Some enroll => p_enabled policy && enroll | None => false end)
  | None => mret false
  end.
Definition get_auto_enroll_status (identifier : string) (headers : Headers) : M Json :=
  let* org :=
    (if bool_decide (identifier = FAKE_SSO_IDENTIFIER) then
       let* found := Membership_find_main_user_org (u_uuid (h_user headers)) in
       match found with
       | Some member => Organization_find_by_uuid (m_org_uuid member)
       | None => mret None
       end
     else Organization_find_by_uuid identifier) in
  let* (id, rp_auto_enroll) :=
    match org with
    | None => mret (identifier, false)
    | Some org => let* enroll := OrgPolicy_org_is_reset_password_auto_enroll (o_uuid org) in mret (o_uuid org, enroll)
    end in
  mret (JObj [("id", JStr id); ("identifier", JStr id); ("resetPasswordEnabled", JBool rp_auto_enroll)]).

Definition get_org_domain_sso_verified : M Json :=
  let* d := conf domain in
  mret (json_list [JObj [("organizationIdentifier", JStr FAKE_SSO_IDENTIFIER);
                         ("organizationName", JStr FAKE_SSO_IDENTIFIER); ("domainName", JStr d)]]).

Definition post_org_keys (org_id : string) (data : OrgKeyData) (headers : OrgSession) : M Json :=
  do* same_org org_id headers in
  let* found := Organization_find_by_uuid org_id in
  let* org := some_or_err found "Can't find organization details" in
  do* ensure (negb (has_keys org)) "Organization Keys already exist" in
  let org := org <| o_private_key := Some (ok_encrypted_private_key data) |> <| o_public_key := Some (ok_public_key data) |> in
  do* Organization_save org in
  mret (JObj [("object", JStr "organizationKeys"); ("publicKey", json_opt JStr (o_public_key org));
              ("privateKey", json_opt JStr (o_private_key org))]).

(** ** Looking at members *)

Definition get_members (data : GetOrgUserData) (org_id : string) (headers : OrgSession) : M Json :=
  do* same_org org_id headers in
  let* l := Membership_find_by_org org_id in
  let* users_json := collect l (λ u, Membership_to_json_user_details u
                       (default false (gu_include_collections data)) (default false (gu_include_groups data))) in
  mret (json_list users_json).
Definition get_org_user_mini_details (org_id : string) (headers : OrgSession) : M Json :=
  do* same_org org_id headers in
  let* l := Membership_find_by_org org_id in
  let* members_json := collect l Membership_to_json_mini_details in
  mret (json_list members_json).
Definition get_user (org_id member_id : string) (data : GetOrgUserData) (headers : OrgSession) : M Json :=
  do* same_org org_id headers in
  let* found := Membership_find_by_uuid_and_org member_id org_id in
  let* user := some_or_err found "The specified user isn't a member of the organization" in
  let include_groups := default false (gu_include_groups data) in
  Membership_to_json_user_details user (default include_groups (gu_include_collections data)) include_groups.

(** Unknown members and users are left out of the answer. *)
Definition member_public_key (org_id member_id : string) : M (option Json) :=
  let* found := Membership_find_by_uuid_and_org member_id org_id in
  match found with
  | Some member =>
     let* found := User_find_by_uuid (m_user_uuid member) in
     mret ((λ user, JObj [("object", JStr "organizationUserPublicKeyResponseModel"); ("id", JStr member_id);
                          ("userId", JStr (u_uuid user)); ("key", json_opt JStr (u_public_key user))]) <$> found)
  | None => mret None
  end.
Definition bulk_public_keys (org_id : string) (ids : list string) (headers : OrgSession) : M Json :=
  do* same_org org_id headers in
  let* l := collect ids (member_public_key org_id) in
  mret (json_list (omap id l)).

(** ** Inviting *)

(** [iter.find(|c| !ids.contains(c))] finds nothing. *)
Definition all_in (l ids : list string) : bool := forallb (λ x, bool_decide (x ∈ ids)) l.
Definition InviteData_validate (self : InviteData) (org_id : string) : M unit :=
  let* org_collections := Collection_find_by_organization org_id in
  do* ensure (all_in (cd_id <$> default [] (iv_collections self)) (c_uuid <$> org_collections)) "Invalid collection" in
  let* org_groups := Group_find_by_organization org_id in
  ensure (all_in (iv_groups self) (g_uuid <$> org_groups)) "Invalid group".

(** The custom role with all three permissions on collections gets access to
    everything, as admins and owners do. *)
Definition granted (permissions : gmap string Json) (k : string) : bool := bool_decide (permissions !! k = Some (JBool true)).
Definition grants_access_all (raw_type : string) (new_type : MembershipType) (permissions : gmap string Json) : bool :=
  match MembershipType_cmp new_type MT_Admin with Lt => false | _ => true end ||
  bool_decide (raw_type = "4") && granted permissions "editAnyCollection" &&
  granted permissions "deleteAnyCollection" && granted permissions "createNewCollections".

(** The collections of a member without access to everything. *)
Definition add_collections (org_id user_id : string) (l : list CollectionData) : M unit :=
  for_each l (λ col,
    let* found := Collection_find_by_uuid_and_org (cd_id col) org_id in
    match found with
    | None => err "Collection not found in Organization"
    | Some collection => CollectionUser_save user_id (c_uuid collection) (cd_read_only col) (cd_hide_passwords col)
                           (cd_manage col)
    end).
Definition add_groups (member_id : string) (l : list string) : M unit :=
  for_each l (λ group_id, GroupUser_save (group_id, member_id)).

(** The account behind an address, created when it is new, with the status of
    its membership and whether some account was created so far. *)
Definition invited_user (org_id email : string) (user_created : bool) : M (User * MembershipStatus * bool) :=
  let* found := User_find_by_mail email in
  let* mail := conf mail_enabled in
  match found with
  | None =>
     let* allowed := conf invitations_allowed in
     do* ensure allowed ("User does not exist: " +:+ email) in
     let* eligible := is_email_domain_allowed email in
     do* ensure eligible "Email domain not eligible for invitations" in
     do* (if mail then mret tt else let* invitation := Invitation_new email in Invitation_save invitation) in
     let* new_user := User_new email None in
     let* new_user := User_save new_user in
     mret (new_user, MS_Invited, true)
  | Some user =>
     let* existing := Membership_find_by_user_and_org (u_uuid user) org_id in
     do* ensure (negb (is_not_null existing)) ("User already in organization: " +:+ email) in
     mret (user, if negb mail && negb (bool_decide (u_password_hash user = [])) then MS_Accepted else MS_Invited,
           user_created)
  end.
(** A mail that fails takes back the membership, or the whole account when one
    was created in this request. *)
Definition mail_invite (user : User) (org_id : string) (new_member : Membership) (headers : OrgSession)
    (user_created : bool) : M unit :=
  let* found := Organization_find_by_uuid org_id in
  let* org := some_or_err found "Error looking up organization" in
  let* failed := outcome (send_mail (MailOrgInvite (u_email user) (u_uuid user) org_id (m_uuid new_member) (o_name org)
                                       (Some (u_email (os_user headers))))) in
  match failed with
  | Some e =>
     do* (if user_created then User_delete user else Membership_delete new_member) in
     err ("Error sending invite: " +:+ e_message e +:+ " ")
  | None => mret tt
  end.
Definition invite_one (org_id : string) (data : InviteData) (headers : OrgSession) (new_type : MembershipType)
    (access_all user_created : bool) (email : string) : M bool :=
  let* (user, member_status, user_created) := invited_user org_id email user_created in
  let* new_member := Membership_new (u_uuid user) org_id (Some (u_email (os_user headers))) in
  let new_member := new_member <| m_access_all := access_all |> <| m_atype := MembershipType_to_i32 new_type |>
                               <| m_status := MembershipStatus_to_i32 member_status |> in
  do* Membership_save new_member in
  let* mail := conf mail_enabled in
  do* (if mail then mail_invite user org_id new_member headers user_created else mret tt) in
  do* log_org headers OrganizationUserInvited (m_uuid new_member) org_id in
  do* (if access_all then mret tt else add_collections org_id (u_uuid user) (default [] (iv_collections data))) in
  do* add_groups (m_uuid new_member) (iv_groups data) in
  mret user_created.
Fixpoint invite_all (org_id : string) (data : InviteData) (headers : OrgSession) (new_type : MembershipType)
    (access_all user_created : bool) (emails : list string) : M unit :=
  match emails with
  | [] => mret tt
  | email :: emails =>
     let* user_created := invite_one org_id data headers new_type access_all user_created email in
     invite_all org_id data headers new_type access_all user_created emails
  end.
Definition send_invite (org_id : string) (data : InviteData) (headers : OrgSession) : M unit :=
  do* same_org org_id headers in
  do* InviteData_validate data org_id in
  let raw_type := NumberOrString_into_string (iv_type data) in
  let* new_type := some_or_err (MembershipType_from_str raw_type) "Invalid type" in
  do* ensure (bool_decide (new_type = MT_User) || is_owner headers) "Only Owners can invite Managers, Admins or Owners" in
  let access_all := grants_access_all raw_type new_type (iv_permissions data) in
  invite_all org_id data headers new_type access_all false (iv_emails data).

Definition reinvite_member_impl (org_id member_id invited_by_email : string) : M unit :=
  let* found := Membership_find_by_uuid_and_org member_id org_id in
  let* member := some_or_err found "The user hasn't been invited to the organization." in
  do* ensure (Membership_has_status member MS_Invited) "The user is already accepted or confirmed to the organization" in
  let* found := User_find_by_uuid (m_user_uuid member) in
  let* user := some_or_err found "User not found." in
  let* allowed := conf invitations_allowed in
  let no_password := bool_decide (u_password_hash user = []) in
  do* ensure (allowed || negb no_password) "Invitations are not allowed." in
  let* found := Organization_find_by_uuid org_id in
  let* org := some_or_err found "Error looking up organization." in
  let* mail := conf mail_enabled in
  if mail then send_mail (MailOrgInvite (u_email user) (u_uuid user) org_id (m_uuid member) (o_name org) (Some invited_by_email))
  else if no_password then let* invitation := Invitation_new (u_email user) in Invitation_save invitation
  else
    let* _ := Invitation_take (u_email user) in
    Membership_save (member <| m_status := MembershipStatus_to_i32 MS_Accepted |>).
Definition reinvite_member (org_id member_id : string) (headers : OrgSession) : M unit :=
  do* same_org org_id headers in
  reinvite_member_impl org_id member_id (u_email (os_user headers)).
Definition bulk_reinvite_members (org_id : string) (ids : list string) (headers : OrgSession) : M Json :=
  do* same_org org_id headers in
  bulk_response "OrganizationBulkConfirmResponseModel" ids
    (λ member_id, reinvite_member_impl org_id member_id (u_email (os_user headers))).

(** ** Accepting and confirming *)

Definition accept_org_invite (user : User) (member : Membership) (reset_password_key : option string) : M unit :=
  do* ensure (Membership_has_status member MS_Invited) "User already accepted the invitation" in
  let member := member <| m_status := MembershipStatus_to_i32 MS_Accepted |>
                       <| m_reset_password_key := reset_password_key |> in
  do* OrgPolicy_check_user_allowed member "join" in
  do* Membership_save member in
  let* mail := conf mail_enabled in
  if mail then
    let* found := Organization_find_by_uuid (m_org_uuid member) in
    let* org := some_or_err found "Organization not found." in
    send_mail (MailInviteAccepted (default (o_billing_email org) (m_invited_by_email member)) (u_email user) (o_name org))
  else mret tt.
Definition accept_invite (org_id member_id : string) (data : AcceptData) (headers : Headers) : M unit :=
  let* claims := lift_res (decode_invite (ac_token data)) in
  do* ensure (bool_decide (ij_email claims = u_email (h_user headers))) "Invitation was issued to a different account" in
  do* ensure (bool_decide (ij_org_id claims = org_id)) "Error accepting the invitation" in
  do* ensure (bool_decide (ij_member_id claims = member_id)) "Error accepting the invitation" in
  let* _ := Invitation_take (ij_email claims) in
  if negb (bool_decide (ij_member_id claims = FAKE_ADMIN_UUID)) then
    let* found := Membership_find_by_uuid_and_org (ij_member_id claims) (ij_org_id claims) in
    let* membership := some_or_err found "Error accepting the invitation" in
    let* enroll := OrgPolicy_org_is_reset_password_auto_enroll (m_org_uuid membership) in
    let* reset_password_key :=
      (if enroll then
         match ac_reset_password_key data with
         | None => err "Reset password key is required, but not provided."
         | Some key => mret (Some key)
         end
       else mret None) in
    let membership := membership <| m_invited_by_email :=
      match m_invited_by_email membership with Some m => Some m | None => ij_invited_by_email claims end |> in
    accept_org_invite (h_user headers) membership reset_password_key
  else
    let* mail := conf mail_enabled in
    if mail then let* org_name := conf invitation_org_name in send_mail (MailInviteConfirmed (ij_email claims) org_name)
    else mret tt.

Definition mail_confirmed (org_id : string) (member : Membership) : M unit :=
  let* found := Organization_find_by_uuid org_id in
  let* org := some_or_err found "Error looking up organization." in
  let* found := User_find_by_uuid (m_user_uuid member) in
  let* user := some_or_err found "Error looking up user." in
  send_mail (MailInviteConfirmed (u_email user) (o_name org)).
Definition confirm_invite_impl (org_id member_id key : string) (headers : OrgSession) : M unit :=
  do* same_org org_id headers in
  do* ensure (negb (bool_decide (key = "") || bool_decide (member_id = "")))
    "Key or UserId is not set, unable to process request" in
  let* found := Membership_find_by_uuid_and_org member_id org_id in
  let* member_to_confirm := some_or_err found "The specified user isn't a member of the organization" in
  do* ensure (Membership_has_type member_to_confirm MT_User || is_owner headers)
    "Only Owners can confirm Managers, Admins or Owners" in
  do* ensure (Membership_has_status member_to_confirm MS_Accepted) "User in invalid state" in
  let member_to_confirm := member_to_confirm <| m_status := MembershipStatus_to_i32 MS_Confirmed |> <| m_akey := key |> in
  do* OrgPolicy_check_user_allowed member_to_confirm "confirm" in
  do* log_org headers OrganizationUserConfirmed (m_uuid member_to_confirm) org_id in
  let* mail := conf mail_enabled in
  do* (if mail then mail_confirmed org_id member_to_confirm else mret tt) in
  Membership_save member_to_confirm.
Definition confirm_invite (org_id member_id : string) (data : ConfirmData) (headers : OrgSession) : M unit :=
  confirm_invite_impl org_id member_id (default "" (cf_key data)) headers.
(** An entry without a member panics. *)
Definition bulk_confirm_invite (org_id : string) (keys : option (list ConfirmData)) (headers : OrgSession) : M Json :=
  do* same_org org_id headers in
  let* l := collect (default [] keys) (λ invite,
    let* member_id := mexpect (cf_id invite) in
    bulk_entry "OrganizationBulkConfirmResponseModel" member_id
      (confirm_invite_impl org_id member_id (default "" (cf_key invite)) headers)) in
  mret (json_list l).

(** ** Editing and removing *)

Definition edit_member (org_id member_id : string) (data : EditUserData) (headers : OrgSession) : M unit :=
  do* same_org org_id headers in
  let raw_type := NumberOrString_into_string (eu_type data) in
  let* new_type := some_or_err (MembershipType_from_str raw_type) "Invalid type" in
  let access_all := grants_access_all raw_type new_type (eu_permissions data) in
  let* found := Membership_find_by_uuid_and_org member_id org_id in
  let* member_to_edit := some_or_err found "The specified user isn't member of the organization" in
  let same_type := Membership_has_type member_to_edit new_type in
  do* ensure (same_type
              || negb (i32_ge (m_atype member_to_edit) MT_Admin ||
                       match MembershipType_cmp new_type MT_Admin with Lt => false | _ => true end)
              || is_owner headers)
    "Only Owners can grant and remove Admin or Owner privileges" in
  do* ensure (negb (Membership_has_type member_to_edit MT_Owner) || is_owner headers) "Only Owners can edit Owner users" in
  do* (if is_confirmed_owner member_to_edit && negb (bool_decide (new_type = MT_Owner))
       then other_owner_left org_id "Can't delete the last owner" else mret tt) in
  let member_to_edit := member_to_edit <| m_access_all := access_all |> <| m_atype := MembershipType_to_i32 new_type |> in
  do* OrgPolicy_check_user_allowed member_to_edit "modify" in
  let* odd := CollectionUser_find_by_organization_and_user_uuid org_id (m_user_uuid member_to_edit) in
  do* for_each odd CollectionUser_delete in
  do* (if access_all then mret tt
       else add_collections org_id (m_user_uuid member_to_edit) (default [] (eu_collections data))) in
  do* GroupUser_delete_all_by_member (m_uuid member_to_edit) in
  do* add_groups (m_uuid member_to_edit) (default [] (eu_groups data)) in
  do* log_org headers OrganizationUserUpdated (m_uuid member_to_edit) org_id in
  Membership_save member_to_edit.
Definition put_member := edit_member.

Definition delete_member_impl (org_id member_id : string) (headers : OrgSession) : M unit :=
  do* same_org org_id headers in
  let* found := Membership_find_by_uuid_and_org member_id org_id in
  let* member_to_delete := some_or_err found "User to delete isn't member of the organization" in
  do* ensure (Membership_has_type member_to_delete MT_User || is_owner headers) "Only Owners can delete Admins or Owners" in
  do* (if is_confirmed_owner member_to_delete then other_owner_left org_id "Can't delete the last owner" else mret tt) in
  do* log_org headers OrganizationUserRemoved (m_uuid member_to_delete) org_id in
  Membership_delete member_to_delete.
Definition delete_member := delete_member_impl.
Definition bulk_delete_member (org_id : string) (ids : list string) (headers : OrgSession) : M Json :=
  do* same_org org_id headers in
  bulk_response "OrganizationBulkConfirmResponseModel" ids (λ member_id, delete_member_impl org_id member_id headers).

(** ** Revoking and restoring *)

Definition revoke_member_impl (org_id member_id : string) (headers : OrgSession) : M unit :=
  do* same_org org_id headers in
  let* found := Membership_find_by_uuid_and_org member_id org_id in
  match found with
  | Some member =>
     if (MembershipStatus_to_i32 MS_Revoked <? m_status member)%Z then
       do* ensure (negb (bool_decide (m_user_uuid member = u_uuid (os_user headers)))) "You cannot revoke yourself" in
       do* ensure (negb (Membership_has_type member MT_Owner) || is_owner headers) "Only owners can revoke other owners" in
       do* (if Membership_has_type member MT_Owner
            then other_owner_left org_id "Organization must have at least one confirmed owner" else mret tt) in
       let member := (Membership_revoke member).1 in
       do* Membership_save member in
       log_org headers OrganizationUserRevoked (m_uuid member) org_id
     else err "User is already revoked"
  | None => err "User not found in organization"
  end.
Definition revoke_member := revoke_member_impl.
Definition bulk_revoke_members (org_id : string) (ids : option (list string)) (headers : OrgSession) : M Json :=
  do* same_org org_id headers in
  bulk_response "OrganizationUserBulkResponseModel" (default [] ids)
    (λ member_id, revoke_member_impl org_id member_id headers).

Definition restore_member_impl (org_id member_id : string) (headers : OrgSession) : M unit :=
  do* same_org org_id headers in
  let* found := Membership_find_by_uuid_and_org member_id org_id in
  match found with
  | Some member =>
     if (m_status member <? MembershipStatus_to_i32 MS_Accepted)%Z then
       do* ensure (negb (bool_decide (m_user_uuid member = u_uuid (os_user headers)))) "You cannot restore yourself" in
       do* ensure (negb (Membership_has_type member MT_Owner) || is_owner headers) "Only owners can restore other owners" in
       let member := (Membership_restore member).1 in
       do* OrgPolicy_check_user_allowed member "restore" in
       do* Membership_save member in
       log_org headers OrganizationUserRestored (m_uuid member) org_id
     else err "User is already active"
  | None => err "User not found in organization"
  end.
Definition restore_member := restore_member_impl.
Definition restore_member_vnext := restore_member_impl.
Definition bulk_restore_members (org_id : string) (ids : list string) (headers : OrgSession) : M Json :=
  do* same_org org_id headers in
  bulk_response "OrganizationUserBulkResponseModel" ids (λ member_id, restore_member_impl org_id member_id headers).

(** ** Policies *)

Definition OrgPolicyType_from_i32 (n : Z) : option OrgPolicyType :=
  match n with
  | 0 => Some TwoFactorAuthentication | 1 => Some MasterPassword | 2 => Some PasswordGenerator | 3 => Some SingleOrg
  | 5 => Some PersonalOwnership | 6 => Some DisableSend | 7 => Some SendOptions | 8 => Some ResetPassword
  | 14 => Some RemoveUnlockWithPin | 15 => Some RestrictedItemTypes | 16 => Some UriMatchDefaults
  | _ => None
  end%Z.
Definition is_policy (a b : OrgPolicyType) : bool := (OrgPolicyType_to_i32 a =? OrgPolicyType_to_i32 b)%Z.

Definition policies_json (org_id : string) : M Json :=
  let* policies := OrgPolicy_find_by_org org_id in
  let* l := collect policies OrgPolicy_to_json in
  mret (json_list l).
Definition list_policies (org_id : string) (headers : OrgSession) : M Json :=
  do* same_org org_id headers in policies_json org_id.
Definition list_policies_token (org_id token : string) : M Json :=
  let* invite := lift_res (decode_invite token) in
  do* ensure (bool_decide (ij_org_id invite = org_id)) "Token doesn't match request organization" in
  if bool_decide (org_id = FAKE_ADMIN_UUID) then mret (JObj []) else policies_json org_id.

Definition default_password_policy (org_id : string) : M OrgPolicy :=
  let* c := ask cfg in
  let* text := ask json_text in
  let (enabled, data) := match sso_master_password_policy c with
                         | Some policy => if sso_enabled c then (true, text policy) else (false, "null")
                         | None => (false, "null")
                         end in
  OrgPolicy_new org_id MasterPassword enabled data.
Definition get_dummy_master_password_policy : M Json :=
  let* policy := default_password_policy FAKE_SSO_IDENTIFIER in OrgPolicy_to_json policy.
Definition get_master_password_policy (org_id : string) : M Json :=
  let* found := OrgPolicy_find_by_org_and_type org_id MasterPassword in
  let* policy := match found with Some policy => mret policy | None => default_password_policy org_id end in
  OrgPolicy_to_json policy.
Definition policy_or_new (org_id : string) (t : OrgPolicyType) (data : string) : M OrgPolicy :=
  let* found := OrgPolicy_find_by_org_and_type org_id t in
  match found with Some p => mret p | None => OrgPolicy_new org_id t false data end.
Definition get_policy (org_id : string) (pol_type : Z) (headers : OrgSession) : M Json :=
  do* same_org org_id headers in
  let* t := some_or_err (OrgPolicyType_from_i32 pol_type) "Invalid or unsupported policy type" in
  let* policy := policy_or_new org_id t "null" in
  OrgPolicy_to_json policy.

Definition policy_enabled (org_id : string) (t : OrgPolicyType) : M bool :=
  let* found := OrgPolicy_find_by_org_and_type org_id t in mret (from_option p_enabled false found).
(** Password resets and membership of a single organization belong together,
    where that is configured. *)
Definition check_policy_pair (org_id : string) (t : OrgPolicyType) (enable : bool) : M unit :=
  let* enforce := conf enforce_single_org_with_reset_pw_policy in
  if enforce then
    do* (if is_policy t ResetPassword && enable then
           let* single_org_policy_enabled := policy_enabled org_id SingleOrg in
           ensure single_org_policy_enabled
             "Single Organization policy is not enabled. It is mandatory for this policy to be enabled."
         else mret tt) in
    if is_policy t SingleOrg && negb enable then
      let* reset_pw_policy_enabled := policy_enabled org_id ResetPassword in
      ensure (negb reset_pw_policy_enabled)
        "Account recovery policy is enabled. It is not allowed to disable this policy."
    else mret tt
  else mret tt.
Definition enforce_single_org_member (org_id : string) (headers : OrgSession) (member : Membership) : M unit :=
  if i32_lt (m_atype member) MT_Admin && negb (Membership_has_status member MS_Invited) then
    let* n := Membership_count_accepted_and_confirmed_by_user (m_user_uuid member) (m_org_uuid member) in
    if 0 <? n then
      let* mail := conf mail_enabled in
      do* (if mail then
             let* found := Organization_find_by_uuid (m_org_uuid member) in
             let* org := mexpect found in
             let* found := User_find_by_uuid (m_user_uuid member) in
             let* user := mexpect found in
             send_mail (MailSingleOrgRemoved (u_email user) (o_name org))
           else mret tt) in
      do* log_org headers OrganizationUserRemoved (m_uuid member) org_id in
      Membership_save (Membership_revoke member).1
    else mret tt
  else mret tt.
Definition put_policy (org_id : string) (pol_type : Z) (data : PolicyData) (headers : OrgSession) : M Json :=
  do* same_org org_id headers in
  let* t := some_or_err (OrgPolicyType_from_i32 pol_type) "Invalid or unsupported policy type" in
  do* check_policy_pair org_id t (pd_enabled data) in
  do* (if is_policy t TwoFactorAuthentication && pd_enabled data
       then enforce_2fa_policy_for_org org_id (u_uuid (os_user headers)) (d_atype (os_device headers)) (os_ip headers)
       else mret tt) in
  do* (if is_policy t SingleOrg && pd_enabled data then
         let* l := Membership_find_by_org org_id in
         for_each l (enforce_single_org_member org_id headers)
       else mret tt) in
  let* policy := policy_or_new org_id t "{}" in
  let* text := ask (λ e, json_text e (default JNull (pd_data data))) in
  let policy := policy <| p_enabled := pd_enabled data |> <| p_data := text |> in
  do* OrgPolicy_save policy in
  do* log_org headers PolicyUpdated (p_uuid policy) org_id in
  OrgPolicy_to_json policy.
Definition put_policy_vnext := put_policy.

(** ** Resetting the password of a member *)

Definition get_organization_public_key (org_id : string) (headers : OrgSession) : M Json :=
  do* same_org org_id headers in
  let* found := Organization_find_by_uuid org_id in
  let* org := some_or_err found "Organization not found" in
  mret (JObj [("object", JStr "organizationPublicKey"); ("publicKey", json_opt JStr (o_public_key org))]).
Definition get_organization_keys := get_organization_public_key.

Definition check_reset_password_applicable (org_id : string) : M unit :=
  let* mail := conf mail_enabled in
  do* ensure mail "Password reset is not supported on an email-disabled instance." in
  let* found := OrgPolicy_find_by_org_and_type org_id ResetPassword in
  let* policy := some_or_err found "Policy not found" in
  ensure (p_enabled policy) "Reset password policy not enabled".
Definition check_reset_password_applicable_and_permissions (org_id member_id : string) (headers : OrgSession) : M unit :=
  do* check_reset_password_applicable org_id in
  let* found := Membership_find_by_uuid_and_org member_id org_id in
  let* target_user := some_or_err found "Reset target user not found" in
  match os_membership_type headers with
  | MT_Owner => mret tt
  | MT_Admin => ensure (i32_le (m_atype target_user) MT_Admin) "No permission to reset this user's password"
  | _ => err "No permission to reset this user's password"
  end.
Definition put_reset_password (org_id member_id new_master_password_hash key : string) (headers : OrgSession) : M unit :=
  do* same_org org_id headers in
  let* found := Organization_find_by_uuid org_id in
  let* org := some_or_err found "Required organization not found" in
  let* found := Membership_find_by_uuid_and_org member_id (o_uuid org) in
  let* member := some_or_err found "User to reset isn't member of required organization" in
  let* found := User_find_by_uuid (m_user_uuid member) in
  let* user := some_or_err found "User not found" in
  do* check_reset_password_applicable_and_permissions org_id member_id headers in
  do* ensure (is_not_null (m_reset_password_key member)) "Password reset not or not correctly enrolled" in
  do* ensure (Membership_has_status member MS_Confirmed)
    "Organization user must be confirmed for password reset functionality" in
  let* failed := outcome (send_mail (MailAdminResetPassword (u_email user) (User_display_name user) (o_name org))) in
  do* match failed with
      | Some e => err ("Error sending user reset password email: " +:+ e_message e)
      | None => mret tt
      end in
  let* user := User_set_password user new_master_password_hash (Some key) true None in
  let* _ := User_save user in
  log_org headers OrganizationUserAdminResetPassword member_id org_id.
Definition get_reset_password_details (org_id member_id : string) (headers : OrgSession) : M Json :=
  do* same_org org_id headers in
  let* found := Organization_find_by_uuid org_id in
  let* org := some_or_err found "Required organization not found" in
  let* found := Membership_find_by_uuid_and_org member_id org_id in
  let* member := some_or_err found "User to reset isn't member of required organization" in
  let* found := User_find_by_uuid (m_user_uuid member) in
  let* user := some_or_err found "User not found" in
  do* check_reset_password_applicable_and_permissions org_id member_id headers in
  mret (JObj [("object", JStr "organizationUserResetPasswordDetails"); ("organizationUserId", JStr member_id);
              ("kdf", JNum (u_client_kdf_type user)); ("kdfIterations", JNum (u_client_kdf_iter user));
              ("kdfMemory", json_opt JNum (u_client_kdf_memory user));
              ("kdfParallelism", json_opt JNum (u_client_kdf_parallelism user));
              ("resetPasswordKey", json_opt JStr (m_reset_password_key member));
              ("encryptedPrivateKey", json_opt JStr (o_private_key org))]).

Record ResetEnrollmentData := mkResetEnrollmentData {
  re_reset_password_key : option string; re_master_password_hash : option string; re_otp : option string }.
Definition put_reset_password_enrollment (org_id user_id : string) (data : ResetEnrollmentData) (headers : OrgSession)
    : M unit :=
  do* ensure (bool_decide (user_id = u_uuid (os_user headers))) "User to enroll isn't member of required organization" in
  let membership := os_membership headers in
  do* check_reset_password_applicable org_id in
  let reset_password_key := match re_reset_password_key data with
                            | Some key => if bool_decide (key = "") then None else Some key
                            | None => None
                            end in
  do* (if is_not_null reset_password_key then mret tt
       else let* enroll := OrgPolicy_org_is_reset_password_auto_enroll org_id in
            ensure (negb enroll) "Reset password can't be withdrawn due to an enterprise policy") in
  do* (if is_not_null reset_password_key
       then PasswordOrOtpData_validate (mkPasswordOrOtpData (re_master_password_hash data) (re_otp data)) (os_user headers) true
       else mret tt) in
  let membership := membership <| m_reset_password_key := reset_password_key |> in
  do* Membership_save membership in
  log_org headers (if is_not_null (m_reset_password_key membership) then OrganizationUserResetPasswordEnroll
                   else OrganizationUserResetPasswordWithdraw) (m_uuid membership) org_id.

(** ** The key of an organization for its public interface *)

Definition api_key (org_id : string) (data : PasswordOrOtpData) (rotate : bool) (headers : OrgSession) : M Json :=
  do* same_org org_id headers in
  do* PasswordOrOtpData_validate data (os_user headers) true in
  let* found := OrganizationApiKey_find_by_org_uuid org_id in
  let* org_api_key :=
    match found with
    | Some org_api_key =>
       if rotate then
         let* key := generate_api_key in
         let* t := ask now in
         let org_api_key := org_api_key <| oak_api_key := key |> <| oak_revision_date := t |> in
         do* OrganizationApiKey_save org_api_key in mret org_api_key
       else mret org_api_key
    | None =>
       let* key := generate_api_key in
       let* new_org_api_key := OrganizationApiKey_new org_id key in
       do* OrganizationApiKey_save new_org_api_key in mret new_org_api_key
    end in
  let* date := ask (λ e, format_date e (oak_revision_date org_api_key)) in
  mret (JObj [("apiKey", JStr (oak_api_key org_api_key)); ("revisionDate", JStr date); ("object", JStr "apiKey")]).
Definition post_api_key (org_id : string) (data : PasswordOrOtpData) (headers : OrgSession) : M Json :=
  api_key org_id data false headers.
Definition rotate_api_key (org_id : string) (data : PasswordOrOtpData) (headers : OrgSession) : M Json :=
  api_key org_id data true headers.
End members.
