(* ===== verification/OrgCollections.v ===== *)
(** * Collections and groups of an organization

    The rest of [server/src/api/core/organizations.rs]: collections and who may
    use them, groups and their members, moving many ciphers between collections,
    importing into an organization and exporting from it; with the guard
    [ManagerHeaders] of [auth.rs], which asks for the right to manage the
    collection of the request. *)

From stdpp Require Import base strings numbers pretty gmap list.
From S2P Require Import Prelude Store JsonUtil Queries Users Orgs AuthRequests TwoFactor Sends Collections Folders.
From S2P Require Import Login Sessions Ciphers Vault EmergencyAccess Profiles Members.

(** ** Requests *)

Record CollectionGroupData := mkCollectionGroupData {
  gd_id : string; gd_read_only : bool; gd_hide_passwords : bool; gd_manage : bool }.
Record CollectionMembershipData := mkCollectionMembershipData {
  md_id : string; md_read_only : bool; md_hide_passwords : bool; md_manage : bool }.
Record FullCollectionData := mkFullCollectionData {
  fc_name : string; fc_groups : list CollectionGroupData; fc_users : list CollectionMembershipData;
  fc_id : option string; fc_external_id : option string }.
Record BulkCollectionAccessData := mkBulkCollectionAccessData {
  ba_collection_ids : list string; ba_groups : list CollectionGroupData; ba_users : list CollectionMembershipData }.
Record GroupRequest := mkGroupRequest {
  gr_name : string; gr_access_all : bool; gr_external_id : option string; gr_collections : list CollectionData;
  gr_users : list string }.
(** The relations are pairs of an index of a cipher and one of a collection. *)
Record OrgImportData := mkOrgImportData {
  oi_ciphers : list CipherData; oi_collections : list FullCollectionData; oi_collection_relationships : list RelationsData }.
Record BulkCollectionsData := mkBulkCollectionsData {
  bc_organization_id : string; bc_cipher_ids : list string; bc_collection_ids : list string; bc_remove_collections : bool }.

Definition CollectionCreated : Z := 1300.
Definition CollectionUpdated : Z := 1301.
Definition CollectionDeleted : Z := 1302.
Definition GroupCreated : Z := 1400.
Definition GroupUpdated : Z := 1401.
Definition GroupDeleted : Z := 1402.

(** ** auth.rs: ManagerHeaders *)

Section manager_guard.
Context `{!Serde UserStampException id}.
Context (svc : Services).

(** The fourth segment of the path, or a query value; either must be a UUID. *)
Definition get_col_id (param_3 collectionId : option string) : M (option string) :=
  ask (λ e,
    let is_uuid s := bool_decide (is_Some (uuid_parse_str e s)) in
    match opt_filter is_uuid param_3 with
    | Some col_id => Some col_id
    | None => opt_filter is_uuid collectionId
    end).
Definition ManagerHeaders_from_request (rq : Request) (param_3 collectionId : option string) : M OrgSession :=
  let* headers := OrgHeaders_from_request svc rq in
  if is_confirmed_and_manager headers then
    let* found := get_col_id param_3 collectionId in
    match found with
    | Some col_id =>
       let* manageable := Collection_is_coll_manageable_by_user col_id (m_user_uuid (os_membership headers)) in
       if manageable then mret headers else err_handler "The current user isn't a manager for this collection"
    | None => err_handler "Error getting the collection id"
    end
  else err_handler "You need to be a Manager, Admin or Owner to call this endpoint".
End manager_guard.

(** Of the headers nothing changes. *)
Definition ManagerHeaders_from_loose (h : OrgSession) (collections : list string) : M OrgSession :=
  do* for_each collections (λ col_id,
    let* valid := ask (λ e, bool_decide (is_Some (uuid_parse_str e col_id))) in
    do* ensure valid "Collection Id is malformed!" in
    let* manageable := Collection_is_coll_manageable_by_user col_id (m_user_uuid (os_membership h)) in
    ensure manageable "Collection not found") in
  mret h.

(** ** Looking at collections *)

Definition get_user_collections (headers : Headers) : M Json :=
  let* l := Collection_find_by_user_uuid (u_uuid (h_user headers)) in
  mret (json_list (Collection_to_json <$> l)).
Definition get_org_collections_impl (org_id : string) : M Json :=
  let* l := Collection_find_by_organization org_id in mret (JArr (Collection_to_json <$> l)).
Definition needs_full_access (headers : OrgSession) : M unit :=
  if Membership_has_full_access (os_membership headers) then mret tt else err_code "Resource not found." 404.
Definition listing (data : Json) : Json :=
  JObj [("data", data); ("object", JStr "list"); ("continuationToken", JNull)].
Definition get_org_collections (org_id : string) (headers : OrgSession) : M Json :=
  do* same_org org_id headers in
  do* needs_full_access headers in
  let* data := get_org_collections_impl org_id in
  mret (listing data).

(** The role of each confirmed member, by the membership. *)
Definition membership_types (org_id : string) : M (gmap string Z) :=
  let* l := Membership_find_confirmed_by_org org_id in
  mret (collect_map ((λ m, (m_uuid m, m_atype m)) <$> l)).
Definition member_access_json (types : gmap string Z) (cm : CollectionMembership) : Json :=
  CollectionMembership_to_json_details_for_member cm
    (default (MembershipType_to_i32 MT_User) (types !! cm_membership_uuid cm)).
Definition collection_groups_json (collection_uuid : string) : M (list Json) :=
  let* groups_enabled := conf org_groups_enabled in
  if groups_enabled then
    let* l := CollectionGroup_find_by_collection collection_uuid in
    mret (CollectionGroup_to_json_details_for_group <$> l)
  else mret [].
Definition access_details_fields (fields : list (string * Json)) (assigned : bool) (users groups : list Json)
    : list (string * Json) :=
  json_insert "object" (JStr "collectionAccessDetails") (json_insert "groups" (JArr groups)
    (json_insert "users" (JArr users) (json_insert "assigned" (JBool assigned) fields))).

(** A collection that the member may not use is left out. *)
Definition collection_details (headers : OrgSession) (member : Membership) (full : bool)
    (col_users : list CollectionMembership) (types : gmap string Z) (manage_all_members : list Json) (col : Collection)
    : M (option Json) :=
  let* groups_enabled := conf org_groups_enabled in
  let* direct := CollectionUser_has_access_to_collection_by_user (c_uuid col) (m_user_uuid member) in
  let* grouped := GroupUser_has_access_to_collection_by_member (c_uuid col) (m_uuid member) in
  let assigned := full || direct || groups_enabled && grouped in
  if assigned then
    let users := (member_access_json types <$>
                    where_ (λ cm, bool_decide (cm_collection_uuid cm = c_uuid col)) col_users) ++ manage_all_members in
    let* groups := collection_groups_json (c_uuid col) in
    let* fields := Collection_to_json_details_fields col (u_uuid (os_user headers)) None in
    mret (Some (JObj (json_insert "unmanaged" (JBool false) (access_details_fields fields assigned users groups))))
  else mret None.
Definition get_org_collections_details (org_id : string) (headers : OrgSession) : M Json :=
  do* same_org org_id headers in
  let* found := Membership_find_by_user_and_org (u_uuid (os_user headers)) org_id in
  let* member := some_or_err found "User is not part of organization" in
  let* col_users := CollectionUser_find_by_organization_swap_user_uuid_with_member_uuid org_id in
  let* types := membership_types org_id in
  let* groups_enabled := conf org_groups_enabled in
  let* by_group := GroupUser_has_full_access_by_member org_id (m_uuid member) in
  let full := Membership_has_full_access member || groups_enabled && by_group in
  let* managers := Membership_find_confirmed_and_manage_all_by_org org_id in
  let manage_all_members := (λ m, access_json (m_uuid m) false false true) <$> managers in
  let* l := Collection_find_by_organization org_id in
  let* data := collect l (collection_details headers member full col_users types manage_all_members) in
  mret (json_list (omap id data)).

Definition get_org_collection_detail (org_id col_id : string) (headers : OrgSession) : M Json :=
  do* same_org org_id headers in
  let user_id := u_uuid (os_user headers) in
  let* found := Collection_find_by_uuid_and_user col_id user_id in
  match found with
  | None => err "Collection not found"
  | Some collection =>
     do* ensure (bool_decide (c_org_uuid collection = org_id)) "Collection is not owned by organization" in
     let* found := Membership_find_by_user_and_org user_id org_id in
     let* member := some_or_err found "User is not part of organization" in
     let* groups := collection_groups_json (c_uuid collection) in
     let* types := membership_types org_id in
     let* l := CollectionUser_find_by_org_and_coll_swap_user_uuid_with_member_uuid org_id (c_uuid collection) in
     let users := member_access_json types <$> l in
     let* assigned := Collection_can_access_collection member (c_uuid collection) in
     let* fields := Collection_to_json_details_fields collection user_id None in
     mret (JObj (access_details_fields fields assigned users groups))
  end.

(** A row of a user who is not a member panics. *)
Definition get_collection_users (org_id col_id : string) (headers : OrgSession) : M Json :=
  do* same_org org_id headers in
  let* found := Collection_find_by_uuid_and_org col_id org_id in
  let* collection := some_or_err found "Collection not found in Organization" in
  let* l := CollectionUser_find_by_collection (c_uuid collection) in
  let* member_list := collect l (λ col_user,
    let* found := Membership_find_by_user_and_org (cu_user_uuid col_user) org_id in
    let* member := mexpect found in
    mret (Membership_to_json_user_access_restrictions member col_user)) in
  mret (JArr member_list).

(** ** Changing collections *)

Definition FullCollectionData_validate (self : FullCollectionData) (org_id : string) : M unit :=
  let* org_groups := Group_find_by_organization org_id in
  do* ensure (all_in (gd_id <$> fc_groups self) (g_uuid <$> org_groups)) "Invalid group" in
  let* org_memberships := Membership_find_by_org org_id in
  ensure (all_in (md_id <$> fc_users self) (m_uuid <$> org_memberships)) "Invalid member".

Definition assign_groups (org_id col_id : string) (l : list CollectionGroupData) : M unit :=
  for_each l (λ group, CollectionGroup_save
    (mkCollectionGroup col_id (gd_id group) (gd_read_only group) (gd_hide_passwords group) (gd_manage group)) org_id).
(** Members with access to everything need no row. *)
Definition assign_users (org_id col_id : string) (l : list CollectionMembershipData) : M unit :=
  for_each l (λ user,
    let* found := Membership_find_by_uuid_and_org (md_id user) org_id in
    let* member := some_or_err found "User is not part of organization" in
    if m_access_all member then mret tt
    else CollectionUser_save (m_user_uuid member) col_id (md_read_only user) (md_hide_passwords user) (md_manage user)).

Definition post_organization_collections (org_id : string) (headers : OrgSession) (data : FullCollectionData) : M Json :=
  do* same_org org_id headers in
  do* FullCollectionData_validate data org_id in
  let membership := os_membership headers in
  do* ensure (negb (Membership_has_type membership MT_Manager && negb (m_access_all membership)))
    "You don't have permission to create collections" in
  let* collection := Collection_new org_id (fc_name data) (fc_external_id data) in
  do* Collection_save collection in
  do* log_org headers CollectionCreated (c_uuid collection) org_id in
  do* assign_groups org_id (c_uuid collection) (fc_groups data) in
  do* assign_users org_id (c_uuid collection) (fc_users data) in
  Collection_to_json_details collection (m_user_uuid membership) None.

Definition replace_access (org_id col_id : string) (groups : list CollectionGroupData)
    (users : list CollectionMembershipData) : M unit :=
  do* CollectionGroup_delete_all_by_collection col_id org_id in
  do* assign_groups org_id col_id groups in
  do* CollectionUser_delete_all_by_collection col_id in
  assign_users org_id col_id users.
Definition bulk_access_one (org_id : string) (headers : OrgSession) (data : BulkCollectionAccessData) (col_id : string)
    : M unit :=
  let* found := Collection_find_by_uuid_and_org col_id org_id in
  let* collection := some_or_err found "Collection not found" in
  let* manageable := Collection_is_manageable_by_user collection (m_user_uuid (os_membership headers)) in
  do* ensure manageable "Collection not found" in
  do* Collection_save collection in
  do* log_org headers CollectionUpdated (c_uuid collection) org_id in
  replace_access org_id col_id (ba_groups data) (ba_users data).
Definition post_bulk_access_collections (org_id : string) (headers : OrgSession) (data : BulkCollectionAccessData) : M unit :=
  do* same_org org_id headers in
  let* found := Organization_find_by_uuid org_id in
  do* ensure (is_not_null found) "Can't find organization details" in
  for_each (ba_collection_ids data) (bulk_access_one org_id headers data).

Definition post_organization_collection_update (org_id col_id : string) (headers : OrgSession) (data : FullCollectionData)
    : M Json :=
  do* same_org org_id headers in
  do* FullCollectionData_validate data org_id in
  let* found := Organization_find_by_uuid org_id in
  do* ensure (is_not_null found) "Can't find organization details" in
  let* found := Collection_find_by_uuid_and_org col_id org_id in
  let* collection := some_or_err found "Collection not found" in
  let collection := collection <| c_name := fc_name data |>
    <| c_external_id := opt_filter (λ x, negb (str_is_blank (chars x))) (fc_external_id data) |> in
  do* Collection_save collection in
  do* log_org headers CollectionUpdated (c_uuid collection) org_id in
  do* replace_access org_id col_id (fc_groups data) (fc_users data) in
  Collection_to_json_details collection (u_uuid (os_user headers)) None.
Definition put_organization_collection_update := post_organization_collection_update.

Definition delete_organization_collection_impl (org_id col_id : string) (headers : OrgSession) : M unit :=
  do* same_org org_id headers in
  let* found := Collection_find_by_uuid_and_org col_id org_id in
  let* collection := some_or_err found "Collection not found" in
  do* log_org headers CollectionDeleted (c_uuid collection) org_id in
  Collection_delete collection.
Definition delete_organization_collection := delete_organization_collection_impl.
Definition post_organization_collection_delete := delete_organization_collection_impl.
Definition bulk_delete_organization_collections (org_id : string) (headers : OrgSession) (ids : list string) : M unit :=
  do* same_org org_id headers in
  let* headers := ManagerHeaders_from_loose headers ids in
  for_each ids (λ col_id, delete_organization_collection_impl org_id col_id headers).

(** ** Groups *)

Definition get_groups_data (details : bool) (org_id : string) (headers : OrgSession) : M Json :=
  do* same_org org_id headers in
  let* groups_enabled := conf org_groups_enabled in
  let* data := (if groups_enabled then
                  let* l := Group_find_by_organization org_id in
                  collect l (λ g, if details then Group_to_json_details g else mret (Group_to_json g))
                else mret []) in
  mret (json_list data).
Definition get_groups (org_id : string) (headers : OrgSession) : M Json := get_groups_data false org_id headers.
Definition get_groups_details (org_id : string) (headers : OrgSession) : M Json := get_groups_data true org_id headers.

Definition GroupRequest_to_group (self : GroupRequest) (org_uuid : string) : M Group :=
  Group_new org_uuid (gr_name self) (gr_access_all self) (gr_external_id self).
Definition GroupRequest_update_group (self : GroupRequest) (group : Group) : Group :=
  group <| g_name := gr_name self |> <| g_access_all := gr_access_all self |>.
Definition GroupRequest_validate (self : GroupRequest) (org_id : string) : M unit :=
  let* org_collections := Collection_find_by_organization org_id in
  do* ensure (all_in (cd_id <$> gr_collections self) (c_uuid <$> org_collections)) "Invalid collection" in
  let* org_memberships := Membership_find_by_org org_id in
  ensure (all_in (gr_users self) (m_uuid <$> org_memberships)) "Invalid member".
Definition CollectionData_to_collection_group (self : CollectionData) (groups_uuid : string) : CollectionGroup :=
  mkCollectionGroup (cd_id self) groups_uuid (cd_read_only self) (cd_hide_passwords self) (cd_manage self).

Definition groups_supported : M unit :=
  let* groups_enabled := conf org_groups_enabled in ensure groups_enabled "Group support is disabled".
Definition assign_members (org_id group_id : string) (headers : OrgSession) (l : list string) : M unit :=
  for_each l (λ assigned_member,
    do* GroupUser_save (group_id, assigned_member) in
    log_org headers OrganizationUserUpdatedGroups assigned_member org_id).
Definition add_update_group (group : Group) (collections : list CollectionData) (members : list string)
    (org_id : string) (headers : OrgSession) : M Json :=
  let* group := Group_save group in
  do* for_each collections (λ col, CollectionGroup_save (CollectionData_to_collection_group col (g_uuid group)) org_id) in
  do* assign_members org_id (g_uuid group) headers members in
  mret (JObj [("id", JStr (g_uuid group)); ("organizationId", JStr (g_organizations_uuid group));
              ("name", JStr (g_name group)); ("accessAll", JBool (g_access_all group));
              ("externalId", json_opt JStr (g_external_id group)); ("object", JStr "group")]).
Definition post_groups (org_id : string) (headers : OrgSession) (data : GroupRequest) : M Json :=
  do* same_org org_id headers in
  do* groups_supported in
  do* GroupRequest_validate data org_id in
  let* group := GroupRequest_to_group data org_id in
  do* log_org headers GroupCreated (g_uuid group) org_id in
  add_update_group group (gr_collections data) (gr_users data) org_id headers.
Definition put_group (org_id group_id : string) (data : GroupRequest) (headers : OrgSession) : M Json :=
  do* same_org org_id headers in
  do* groups_supported in
  let* found := Group_find_by_uuid_and_org group_id org_id in
  let* group := some_or_err found "Group not found" in
  do* GroupRequest_validate data org_id in
  let updated_group := GroupRequest_update_group data group in
  do* CollectionGroup_delete_all_by_group group_id org_id in
  do* GroupUser_delete_all_by_group group_id org_id in
  do* log_org headers GroupUpdated (g_uuid updated_group) org_id in
  add_update_group updated_group (gr_collections data) (gr_users data) org_id headers.
Definition post_group := put_group.
Definition get_group_details (org_id group_id : string) (headers : OrgSession) : M Json :=
  do* same_org org_id headers in
  do* groups_supported in
  let* found := Group_find_by_uuid_and_org group_id org_id in
  let* group := some_or_err found "Group not found" in
  Group_to_json_details group.
Definition get_group (org_id group_id : string) (headers : OrgSession) : M Json :=
  do* same_org org_id headers in
  do* groups_supported in
  let* found := Group_find_by_uuid_and_org group_id org_id in
  let* group := some_or_err found "Group not found" in
  mret (Group_to_json group).

Definition delete_group_impl (org_id group_id : string) (headers : OrgSession) : M unit :=
  do* same_org org_id headers in
  do* groups_supported in
  let* found := Group_find_by_uuid_and_org group_id org_id in
  let* group := some_or_err found "Group not found" in
  do* log_org headers GroupDeleted (g_uuid group) org_id in
  Group_delete group org_id.
Definition delete_group := delete_group_impl.
Definition post_delete_group := delete_group_impl.
Definition bulk_delete_groups (org_id : string) (ids : list string) (headers : OrgSession) : M unit :=
  do* same_org org_id headers in
  do* groups_supported in
  for_each ids (λ group_id, delete_group_impl org_id group_id headers).

Definition get_group_members (org_id group_id : string) (headers : OrgSession) : M Json :=
  do* same_org org_id headers in
  do* groups_supported in
  let* found := Group_find_by_uuid_and_org group_id org_id in
  do* ensure (is_not_null found) "Group could not be found!" in
  let* group_members := GroupUser_find_by_group group_id org_id in
  mret (JArr ((λ gu, JStr gu.2) <$> group_members)).
Definition put_group_members (org_id group_id : string) (headers : OrgSession) (assigned_members : list string) : M unit :=
  do* same_org org_id headers in
  do* groups_supported in
  let* found := Group_find_by_uuid_and_org group_id org_id in
  do* ensure (is_not_null found) "Group could not be found!" in
  let* org_memberships := Membership_find_by_org org_id in
  do* ensure (all_in assigned_members (m_uuid <$> org_memberships)) "Invalid member" in
  do* GroupUser_delete_all_by_group group_id org_id in
  assign_members org_id group_id headers assigned_members.
Definition post_delete_group_member (org_id group_id member_id : string) (headers : OrgSession) : M unit :=
  do* same_org org_id headers in
  do* groups_supported in
  let* found := Membership_find_by_uuid_and_org member_id org_id in
  do* ensure (is_not_null found) "User could not be found or does not belong to the organization." in
  let* found := Group_find_by_uuid_and_org group_id org_id in
  do* ensure (is_not_null found) "Group could not be found or does not belong to the organization." in
  do* log_org headers OrganizationUserUpdatedGroups member_id org_id in
  GroupUser_delete_by_group_and_member group_id member_id.

(** ** Ciphers of the organization *)

Section ciphers.
Context `{FL : FileLinks}.

Definition get_org_details_impl (org_id host user_id : string) : M Json :=
  let* ciphers := Cipher_find_by_org org_id in
  let* cipher_sync_data := CipherSyncData_new user_id CST_Organization in
  let* ciphers_json := collect ciphers (λ c, Cipher_to_json c host user_id (Some cipher_sync_data) CST_Organization) in
  mret (JArr ciphers_json).
Definition get_org_details (organization_id host : string) (headers : OrgSession) : M Json :=
  do* (if bool_decide (organization_id = os_org_id headers) then mret tt else err_code "Resource not found." 404) in
  do* needs_full_access headers in
  let* data := get_org_details_impl organization_id host (u_uuid (os_user headers)) in
  mret (listing data).
Definition get_org_export (org_id host : string) (headers : OrgSession) : M Json :=
  do* same_org org_id headers in
  let* e := ask (λ e, e) in
  let* collections := get_org_collections_impl org_id in
  let* ciphers := get_org_details_impl org_id host (u_uuid (os_user headers)) in
  mret (JObj [("collections", convert_json_key_lcase_first e collections);
              ("ciphers", convert_json_key_lcase_first e ciphers)]).
End ciphers.

(** The collections of an import: known ones the member may use, or new ones. *)
Definition import_collection (org_id : string) (membership : Membership) (existing : list string)
    (col : FullCollectionData) : M string :=
  match opt_filter (λ id, bool_decide (id ∈ existing)) (fc_id col) with
  | Some col_id =>
     do* (if i32_lt (m_atype membership) MT_Admin then
            let* allowed := Collection_can_access_collection membership col_id in
            ensure allowed "The current user isn't allowed to manage this collection"
          else mret tt) in
     mret col_id
  | None =>
     do* ensure (negb (i32_le (m_atype membership) MT_Manager && negb (Membership_has_full_access membership)))
       "The current user isn't allowed to create new collections" in
     let* new_collection := Collection_new org_id (fc_name col) (fc_external_id col) in
     do* Collection_save new_collection in
     mret (c_uuid new_collection)
  end.
(** A cipher that cannot be stored is skipped silently, but keeps its place. *)
Definition import_cipher (headers : Headers) (collections : list string) (data : CipherData) : M string :=
  let data := data <| cp_folder_id := None |> in
  let* cipher := Cipher_new (cp_type data) (cp_name data) in
  do* mignore (mdrop (update_cipher_from_data cipher data headers (Some collections) UpdateNone)) in
  mret (ci_uuid cipher).
Definition session_headers (h : OrgSession) (host : string) : Headers :=
  mkHeaders (os_user h) (d_atype (os_device h)) (os_ip h) host.
(** An index out of range panics. *)
Definition post_org_import (org_id host : string) (data : OrgImportData) (headers : OrgSession) : M unit :=
  do* same_org org_id headers in
  do* Cipher_validate_cipher_data (oi_ciphers data) in
  let* l := Collection_find_by_organization org_id in
  let* collections := collect (oi_collections data) (import_collection org_id (os_membership headers) (c_uuid <$> l)) in
  let headers := session_headers headers host in
  let* ciphers := collect (oi_ciphers data) (import_cipher headers collections) in
  do* for_each (oi_collection_relationships data) (λ relation,
    let* cipher_id := mexpect (ciphers !! rd_key relation) in
    let* col_id := mexpect (collections !! rd_value relation) in
    CollectionCipher_save cipher_id col_id) in
  mdrop (User_update_revision (h_user headers)).

(** The given collections are a set, in some order. *)
Definition check_collections (user_id : string) (user_collections : gmap string Collection) (ids : list string) : M unit :=
  for_each ids (λ collection_uuid,
    match user_collections !! collection_uuid with
    | Some collection =>
       let* writable := Collection_is_writable_by_user collection user_id in
       if writable then mret tt else err_code "Resource not found" 404
    | None => err_code "Resource not found" 404
    end).
Definition bulk_collections_cipher (data : BulkCollectionsData) (user_id cipher_id : string) : M unit :=
  let* found := Cipher_find_by_uuid_and_org cipher_id (bc_organization_id data) in
  match found with
  | Some cipher =>
     let* writable := Cipher_is_write_accessible_to_user cipher user_id in
     if writable then
       for_each (bc_collection_ids data) (λ collection,
         if bc_remove_collections data then CollectionCipher_delete (ci_uuid cipher) collection
         else CollectionCipher_save (ci_uuid cipher) collection)
     else mret tt
  | None => mret tt
  end.
Definition post_bulk_collections (data : BulkCollectionsData) (headers : Headers) : M unit :=
  let user_id := u_uuid (h_user headers) in
  let* found := Membership_find_confirmed_by_user_and_org user_id (bc_organization_id data) in
  do* ensure (is_not_null found) "You need to be a Member of the Organization to call this endpoint" in
  let* l := Collection_find_by_organization_and_user_uuid (bc_organization_id data) user_id in
  let user_collections := collect_map
    ((λ c, (c_uuid c, c)) <$> where_ (λ c, bool_decide (c_uuid c ∈ bc_collection_ids data)) l) in
  do* check_collections user_id user_collections (bc_collection_ids data) in
  for_each (bc_cipher_ids data) (bulk_collections_cipher data user_id).

(** ** Fixed answers *)

Definition plan_json (product : Z) : Json :=
  JObj [("object", JStr "plan"); ("type", JNum 0); ("product", JNum product); ("name", JStr "Free");
        ("nameLocalizationKey", JStr "planNameFree"); ("bitwardenProduct", JNum product); ("maxUsers", JNum 0);
        ("descriptionLocalizationKey", JStr "planDescFree")].
Definition get_plans : Json := json_list [plan_json 0; plan_json 1].
Definition empty_data_json : Json := json_list [].
Definition get_billing_metadata : Json := empty_data_json.
Definition get_billing_warnings : Json :=
  JObj [("freeTrial", JNull); ("inactiveSubscription", JNull); ("resellerRenewal", JNull); ("taxId", JNull)].
Definition get_self_host_billing_metadata : Json :=
  JObj [("isOnSecretsManagerStandalone", JBool false); ("organizationOccupiedSeats", JNum 0)].
