(* ===== verification/MemberProtocol.v ===== *)
(** * The life of a membership

    An abstract account of what may happen to the memberships of the server: a
    transition system on the table [users_organizations] alone, with one rule per
    event in the life of a membership, and the properties that follow from the
    rules by induction.  [MemberSafety] shows that the handlers of [Members]
    implement it. *)

From stdpp Require Import base strings numbers gmap list relations.
From S2P Require Import Prelude Store Users Orgs Members.

Abbreviation Members := (gmap string Membership).

(** ** Well-formed tables *)

Definition known_type (m : Membership) : Prop := ∃ t, m_atype m = MembershipType_to_i32 t.
(** Each row sits under its identifier, has a role and a state that exist, and
    is the only one of its user in its organization. *)
Record members_wf (T : Members) : Prop := {
  wf_keyed : ∀ k m, T !! k = Some m → m_uuid m = k;
  wf_type : ∀ k m, T !! k = Some m → known_type m;
  wf_stored : ∀ k m, T !! k = Some m → Membership_stored m;
  wf_unique : ∀ k1 k2 m1 m2, T !! k1 = Some m1 → T !! k2 = Some m2 →
    m_user_uuid m1 = m_user_uuid m2 → m_org_uuid m1 = m_org_uuid m2 → k1 = k2;
}.

(** A confirmed owner of the organization, in a row other than [k]. *)
Definition other_owner (T : Members) (o k : string) : Prop :=
  ∃ k' m, k' ≠ k ∧ T !! k' = Some m ∧ m_org_uuid m = o ∧ is_confirmed_owner m = true.
Definition has_owner (T : Members) (o : string) : Prop :=
  ∃ k m, T !! k = Some m ∧ m_org_uuid m = o ∧ is_confirmed_owner m = true.

Definition has_role (m : Membership) (t : MembershipType) : Prop := m_atype m = MembershipType_to_i32 t.
Definition in_state (m : Membership) (s : MembershipStatus) : Prop := m_status m = MembershipStatus_to_i32 s.
(** Owners and administrators *)
Definition privileged (t : MembershipType) : Prop := t = MT_Owner ∨ t = MT_Admin.

(** ** The rules *)

(** Who makes a request: the organization it is about, the user, whether that is
    a confirmed owner of the organization, and whether the request invites. *)
Record Actor := mkActor { ac_org : string; ac_user : string; ac_owner : bool; ac_invites : bool }.

Inductive member_step (a : Actor) (T : Members) : Members → Prop :=
  | step_invite m t s :
     T !! m_uuid m = None → m_org_uuid m = ac_org a →
     (∀ k m', T !! k = Some m' → m_org_uuid m' = ac_org a → m_user_uuid m' ≠ m_user_uuid m) →
     has_role m t → t = MT_User ∨ ac_owner a = true →
     in_state m s → s = MS_Invited ∨ s = MS_Accepted →
     member_step a T (<[m_uuid m := m]> T)
  | step_accept k m invited_by reset_key :
     T !! k = Some m → m_org_uuid m = ac_org a → in_state m MS_Invited →
     member_step a T (<[k :=
       mkMembership (m_uuid m) (m_user_uuid m) (m_org_uuid m) invited_by (m_access_all m) (m_akey m)
         (MembershipStatus_to_i32 MS_Accepted) (m_atype m) reset_key (m_external_id m)]> T)
  | step_confirm k m key :
     T !! k = Some m → m_org_uuid m = ac_org a → in_state m MS_Accepted → has_role m MT_User ∨ ac_owner a = true →
     member_step a T (<[k := m <| m_status := MembershipStatus_to_i32 MS_Confirmed |> <| m_akey := key |>]> T)
  | step_edit k m t t' access_all :
     T !! k = Some m → m_org_uuid m = ac_org a → has_role m t →
     (t ≠ t' → privileged t ∨ privileged t' → ac_owner a = true) → (t = MT_Owner → ac_owner a = true) →
     (is_confirmed_owner m = true → t' ≠ MT_Owner → other_owner T (ac_org a) k) →
     member_step a T
       (<[k := m <| m_access_all := access_all |> <| m_atype := MembershipType_to_i32 t' |>]> T)
  | step_remove k m :
     T !! k = Some m → m_org_uuid m = ac_org a → has_role m MT_User ∨ ac_owner a = true →
     (is_confirmed_owner m = true → other_owner T (ac_org a) k) →
     member_step a T (delete k T)
  | step_leave k m :
     T !! k = Some m → m_org_uuid m = ac_org a → m_user_uuid m = ac_user a → in_state m MS_Confirmed →
     (has_role m MT_Owner → ac_owner a = true ∧ other_owner T (ac_org a) k) →
     member_step a T (delete k T)
  | step_revoke k m :
     T !! k = Some m → m_org_uuid m = ac_org a → m_user_uuid m ≠ ac_user a →
     (has_role m MT_Owner → ac_owner a = true ∧ other_owner T (ac_org a) k) →
     member_step a T (<[k := (Membership_revoke m).1]> T)
  | step_restore k m :
     T !! k = Some m → m_org_uuid m = ac_org a → m_user_uuid m ≠ ac_user a → (has_role m MT_Owner → ac_owner a = true) →
     member_step a T (<[k := (Membership_restore m).1]> T)
  | step_policy k m t :
     T !! k = Some m → m_org_uuid m = ac_org a → has_role m t → ¬ privileged t →
     member_step a T (<[k := (Membership_revoke m).1]> T)
  | step_enroll k m reset_key :
     T !! k = Some m → m_org_uuid m = ac_org a → m_user_uuid m = ac_user a →
     member_step a T (<[k := m <| m_reset_password_key := reset_key |>]> T)
  | step_delete_user u :
     ac_invites a = true →
     (∀ k m, T !! k = Some m → m_user_uuid m = u → is_confirmed_owner m = true → other_owner T (m_org_uuid m) k) →
     (∀ k m, T !! k = Some m → m_user_uuid m = u → m_org_uuid m = ac_org a →
        (in_state m MS_Invited ∨ in_state m MS_Accepted) ∧ (has_role m MT_User ∨ ac_owner a = true)) →
     member_step a T (filter (λ km, m_user_uuid km.2 ≠ u) T).
Abbreviation member_steps a := (rtc (member_step a)).

(** ** Rows *)

Lemma MembershipType_to_i32_inj t t' : MembershipType_to_i32 t = MembershipType_to_i32 t' → t = t'.
Proof. by destruct t, t'. Qed.
Lemma has_role_unique m t t' : has_role m t → has_role m t' → t = t'.
Proof. unfold has_role. intros -> H. by apply MembershipType_to_i32_inj. Qed.
Lemma confirmed_owner_spec m : is_confirmed_owner m = true ↔ has_role m MT_Owner ∧ in_state m MS_Confirmed.
Proof.
  unfold is_confirmed_owner, Membership_has_type, Membership_has_status, has_role, in_state.
  by rewrite andb_true_iff, !Z.eqb_eq.
Qed.

Lemma stored_of_state m s : in_state m s → s ≠ MS_Revoked → Membership_stored m.
Proof. intros ? ?. left. by exists s. Qed.
(** The states that are stored, as numbers. *)
Lemma stored_spec m : Membership_stored m ↔ m_status m ∈ [0; 1; 2; -128; -127; -126]%Z.
Proof.
  unfold Membership_stored, Membership_active. rewrite !elem_of_cons, elem_of_nil. split.
  - intros [(s & Hs & E)|(m0 & (s & Hs & E) & ->)].
    + destruct s; simpl in *; naive_solver.
    + destruct m0; simpl in *; subst. destruct s; simpl; naive_solver.
  - intros H. destruct (decide (0 ≤ m_status m)%Z) as [Hp|Hp].
    + left. destruct H as [H|[H|[H|H]]]; [exists MS_Invited|exists MS_Accepted|exists MS_Confirmed|lia]; by split.
    + right. exists (m <| m_status := (m_status m + 128)%Z |>). split.
      * destruct H as [H|[H|[H|[H|[H|[H|[]]]]]]]; try lia; simpl; rewrite H;
          [exists MS_Invited|exists MS_Accepted|exists MS_Confirmed]; by split.
      * destruct m as [? ? ? ? ? ? st ? ? ?]; simpl in *. unfold Membership_revoke; simpl.
        destruct H as [H|[H|[H|[H|[H|[H|[]]]]]]]; subst; by simpl.
Qed.
Lemma stored_revoke m : Membership_stored m → Membership_stored (Membership_revoke m).1.
Proof.
  rewrite !stored_spec. unfold Membership_revoke. destruct (_ <? _)%Z eqn:E; [|done].
  apply Z.ltb_lt in E. destruct m; simpl in *. rewrite !elem_of_cons, elem_of_nil. unfold ACTIVATE_REVOKE_DIFF. lia.
Qed.
Lemma stored_restore m : Membership_stored m → Membership_stored (Membership_restore m).1.
Proof.
  rewrite !stored_spec. unfold Membership_restore. destruct (_ <? _)%Z eqn:E; [|done].
  apply Z.ltb_lt in E. destruct m; simpl in *. rewrite !elem_of_cons, elem_of_nil. unfold ACTIVATE_REVOKE_DIFF. lia.
Qed.

Lemma known_same m m' : known_type m → m_atype m' = m_atype m → known_type m'.
Proof. intros [t Ht] E. exists t. congruence. Qed.
Lemma stored_same m m' : Membership_stored m → m_status m' = m_status m → Membership_stored m'.
Proof. rewrite !stored_spec. congruence. Qed.

(** A row keeps who it is. *)
Definition same_row (m m' : Membership) : Prop :=
  m_uuid m' = m_uuid m ∧ m_user_uuid m' = m_user_uuid m ∧ m_org_uuid m' = m_org_uuid m.
Lemma same_row_revoke m : same_row m (Membership_revoke m).1.
Proof. unfold same_row, Membership_revoke. by case_match. Qed.
Lemma same_row_restore m : same_row m (Membership_restore m).1.
Proof. unfold same_row, Membership_restore. by case_match. Qed.
Lemma revoke_type m : m_atype (Membership_revoke m).1 = m_atype m.
Proof. unfold Membership_revoke. by case_match. Qed.
Lemma restore_type m : m_atype (Membership_restore m).1 = m_atype m.
Proof. unfold Membership_restore. by case_match. Qed.

(** ** Well-formedness is kept *)

Lemma wf_update T k m m' :
  members_wf T → T !! k = Some m → same_row m m' → known_type m' → Membership_stored m' → members_wf (<[k := m']> T).
Proof.
  intros [Hkey Hty Hst Hun] Hk (Hid & Hu & Ho) Ht Hs. split.
  - intros k' x [[<- <-]|[_ ?]]%lookup_insert_Some; [|eauto]. rewrite Hid. eauto.
  - intros k' x [[<- <-]|[_ ?]]%lookup_insert_Some; eauto.
  - intros k' x [[<- <-]|[_ ?]]%lookup_insert_Some; eauto.
  - intros k1 k2 m1 m2 [[<- <-]|[? ?]]%lookup_insert_Some [[<- <-]|[? ?]]%lookup_insert_Some Eu Eo; [done| | |eauto];
      rewrite ?Hu, ?Ho in *; eauto.
Qed.
Lemma wf_subset T T' : members_wf T → T' ⊆ T → members_wf T'.
Proof.
  intros [Hkey Hty Hst Hun] Hsub.
  split; intros; repeat match goal with H : T' !! _ = Some _ |- _ => eapply lookup_weaken in H; [|done] end; eauto.
Qed.
Lemma wf_new T m :
  members_wf T → T !! m_uuid m = None →
  (∀ k m', T !! k = Some m' → m_org_uuid m' = m_org_uuid m → m_user_uuid m' ≠ m_user_uuid m) →
  known_type m → Membership_stored m → members_wf (<[m_uuid m := m]> T).
Proof.
  intros [Hkey Hty Hst Hun] Hnew Huniq Ht Hs. split.
  - intros k' x [[<- <-]|[_ ?]]%lookup_insert_Some; eauto.
  - intros k' x [[<- <-]|[_ ?]]%lookup_insert_Some; eauto.
  - intros k' x [[<- <-]|[_ ?]]%lookup_insert_Some; eauto.
  - intros k1 k2 m1 m2 [[<- <-]|[? ?]]%lookup_insert_Some [[<- <-]|[? ?]]%lookup_insert_Some Eu Eo; [done| | |eauto];
      exfalso; [eapply (Huniq k2 m2)|eapply (Huniq k1 m1)]; eauto.
Qed.
Lemma step_wf a T T' : members_wf T → member_step a T T' → members_wf T'.
Proof.
  intros Hwf Hstep. pose proof (wf_type _ Hwf) as Hty. pose proof (wf_stored _ Hwf) as Hst.
  destruct Hstep as
    [m t s Hnew Ho Huniq Ht Hw Hs Hs'|k m inv key Hk Ho Hs|k m key Hk Ho Hs Hw|k m t t' all Hk Ho Ht Hp Hw Hlast
    |k m Hk Ho Hw Hlast|k m Hk Ho Hu Hs Hlast|k m Hk Ho Hu Hlast|k m Hk Ho Hu Hw|k m t Hk Ho Ht Hp|k m key Hk Ho Hu|u Hinv Hlast Hun].
  1: { apply wf_new; [done..|by rewrite Ho|by eexists|]. eapply stored_of_state; [done|]. naive_solver. }
  10: { eapply wf_subset; [done|]. apply map_filter_subseteq. }
  4,5: eapply wf_subset; [done|]; apply delete_subseteq.
  all: specialize (Hty k m Hk); specialize (Hst k m Hk).
  all: eapply wf_update; [done..|first [done|apply same_row_revoke|apply same_row_restore]| |].
  - by apply (known_same m).
  - by apply (stored_of_state _ MS_Accepted).
  - by apply (known_same m).
  - by apply (stored_of_state _ MS_Confirmed).
  - by exists t'.
  - by apply (stored_same m).
  - apply (known_same m), revoke_type. done.
  - by apply stored_revoke.
  - apply (known_same m), restore_type. done.
  - by apply stored_restore.
  - apply (known_same m), revoke_type. done.
  - by apply stored_revoke.
  - by apply (known_same m).
  - by apply (stored_same m).
Qed.
Lemma steps_wf a T T' : members_wf T → member_steps a T T' → members_wf T'.
Proof. intros Hwf Hs. induction Hs; [done|]. eauto using step_wf. Qed.

(** ** An organization keeps an owner *)

(** Only the row [k] changes or goes, and it is no confirmed owner, or another
    one is left. *)
Lemma owner_outside T T' k m o :
  T !! k = Some m → (∀ k', k' ≠ k → T' !! k' = T !! k') →
  (is_confirmed_owner m = true → T' !! k = None ∨ (∃ m', T' !! k = Some m' ∧ (is_confirmed_owner m' = false ∨ m_org_uuid m' ≠ m_org_uuid m)) →
     other_owner T (m_org_uuid m) k) →
  has_owner T o → has_owner T' o.
Proof.
  intros Hk Hrest Hlast (k0 & m0 & Hk0 & Ho & Hown).
  destruct (decide (k0 = k)) as [->|Hne]; [|exists k0, m0; by rewrite Hrest].
  assert (m0 = m) as -> by congruence.
  assert (other_owner T (m_org_uuid m) k → has_owner T' o) as Hother.
  { intros (k' & m' & Hne & Hk' & ? & ?). exists k', m'. rewrite Hrest by done. naive_solver. }
  destruct (T' !! k) as [m'|] eqn:E; [|naive_solver].
  destruct (is_confirmed_owner m') eqn:Hm'; [|apply Hother, Hlast; eauto].
  destruct (decide (m_org_uuid m' = m_org_uuid m)); [|apply Hother, Hlast; eauto].
  exists k, m'. naive_solver.
Qed.
Lemma owner_insert T k m m' o :
  T !! k = Some m → m_org_uuid m' = m_org_uuid m →
  (is_confirmed_owner m = true → is_confirmed_owner m' = false → other_owner T (m_org_uuid m) k) →
  has_owner T o → has_owner (<[k := m']> T) o.
Proof.
  intros Hk Ho Hlast. eapply owner_outside; [done|intros; by rewrite lookup_insert_ne|].
  intros Hm [Hn|(x & Hx & [Hf|Hf])]; rewrite lookup_insert_eq in *; simplify_eq; auto; congruence.
Qed.
Lemma owner_delete T k m o :
  T !! k = Some m → (is_confirmed_owner m = true → other_owner T (m_org_uuid m) k) →
  has_owner T o → has_owner (delete k T) o.
Proof. intros Hk Hlast. eapply owner_outside; [done|intros; by rewrite lookup_delete_ne|auto]. Qed.
Lemma not_owner_state m s : in_state m s → s ≠ MS_Confirmed → is_confirmed_owner m = false.
Proof.
  intros Hs Hne. apply not_true_is_false. rewrite confirmed_owner_spec. intros [_ Hc]. unfold in_state in *.
  rewrite Hs in Hc. by destruct s.
Qed.
Lemma not_owner_role m t : has_role m t → t ≠ MT_Owner → is_confirmed_owner m = false.
Proof.
  intros Ht Hne. apply not_true_is_false. rewrite confirmed_owner_spec. intros [Hc _]. by apply (has_role_unique m t) in Hc.
Qed.
Lemma restore_owner m : is_confirmed_owner m = true → (Membership_restore m).1 = m.
Proof. rewrite confirmed_owner_spec. intros [_ Hc]. unfold Membership_restore. by rewrite Hc. Qed.
(** All rows of a user go, and wherever he was an owner there is another one. *)
Lemma owner_user_gone T u o :
  members_wf T →
  (∀ k m, T !! k = Some m → m_user_uuid m = u → is_confirmed_owner m = true → other_owner T (m_org_uuid m) k) →
  has_owner T o → has_owner (filter (λ km, m_user_uuid km.2 ≠ u) T) o.
Proof.
  intros Hwf Hlast (k0 & m0 & Hk0 & <- & Hown). destruct (decide (m_user_uuid m0 = u)) as [Hu|Hu].
  - destruct (Hlast k0 m0 Hk0 Hu Hown) as (k' & m' & Hne & Hk' & Ho' & Hown'). exists k', m'. split; [|done].
    apply map_lookup_filter_Some. split; [done|]. simpl. intros Hu'. apply Hne. symmetry.
    eapply (wf_unique _ Hwf); [done..|congruence|congruence].
  - exists k0, m0. split; [|done]. by apply map_lookup_filter_Some.
Qed.

Lemma step_owner a T T' o :
  members_wf T → member_step a T T' → has_owner T o → has_owner T' o.
Proof.
  intros Hwf Hstep. destruct Hstep as
    [m t s Hnew Ho Huniq Ht Hw Hs Hs'|k m inv key Hk Ho Hs|k m key Hk Ho Hs Hw|k m t t' all Hk Ho Ht Hp Hw Hlast
    |k m Hk Ho Hw Hlast|k m Hk Ho Hu Hs Hlast|k m Hk Ho Hu Hlast|k m Hk Ho Hu Hw|k m t Hk Ho Ht Hp|k m key Hk Ho Hu|u Hinv Hlast Hun].
  - intros (k0 & m0 & Hk0 & ? & ?). exists k0, m0. rewrite lookup_insert_ne by congruence. done.
  - eapply owner_insert; [done..|]. intros Hm. by rewrite (not_owner_state m MS_Invited) in Hm.
  - eapply owner_insert; [done..|]. intros Hm. by rewrite (not_owner_state m MS_Accepted) in Hm.
  - eapply owner_insert; [done..|]. intros Hm Hm'. rewrite Ho. apply Hlast; [done|]. intros ->.
    apply confirmed_owner_spec in Hm as [_ Hc]. apply not_true_iff_false in Hm'. apply Hm', confirmed_owner_spec. done.
  - eapply owner_delete; [done|]. by rewrite Ho.
  - eapply owner_delete; [done|]. intros [Hm _]%confirmed_owner_spec. rewrite Ho. by apply Hlast.
  - eapply owner_insert; [done|apply same_row_revoke|]. intros [Hm _]%confirmed_owner_spec _. rewrite Ho. by apply Hlast.
  - eapply owner_insert; [done|apply same_row_restore|]. intros Hm Hm'.
    rewrite restore_owner in Hm' by done. congruence.
  - eapply owner_insert; [done|apply same_row_revoke|]. intros Hm. rewrite (not_owner_role m t) in Hm; [done..|].
    intros ->. apply Hp. by left.
  - eapply owner_insert; [done..|]. intros Hm Hm'. exfalso.
    destruct m; unfold is_confirmed_owner, Membership_has_type, Membership_has_status in *; simpl in *. congruence.
  - by apply owner_user_gone.
Qed.
Lemma steps_owner a T T' o :
  members_wf T → member_steps a T T' → has_owner T o → has_owner T' o.
Proof. intros Hwf Hs. induction Hs; [done|]. eauto using step_wf, step_owner. Qed.

(** ** Owners are changed by owners only *)

(** From [T] to [T'], every owner of [o] stays one, in the same state unless the
    invitation was accepted, and nobody new is an owner or administrator. *)
Record owners_kept (o : string) (T T' : Members) : Prop := {
  kept_owner : ∀ k m, T !! k = Some m → m_org_uuid m = o → has_role m MT_Owner →
    ∃ m', T' !! k = Some m' ∧ same_row m m' ∧ has_role m' MT_Owner ∧
      (m_status m' = m_status m ∨ in_state m MS_Invited ∧ in_state m' MS_Accepted);
  kept_roles : ∀ k m' t, T' !! k = Some m' → m_org_uuid m' = o → has_role m' t → privileged t →
    ∃ m, T !! k = Some m ∧ m_org_uuid m = o ∧ has_role m t;
}.
Lemma same_row_refl m : same_row m m.
Proof. done. Qed.
#[export] Instance owners_kept_preorder o : PreOrder (owners_kept o).
Proof.
  split.
  - intros T. split; [|eauto]. intros k m Hk _ Hr. exists m. by split_and!; [|apply same_row_refl| |left].
  - intros T T1 T2 [Ho1 Hr1] [Ho2 Hr2]. split.
    + intros k m Hk Ho Hr. destruct (Ho1 k m Hk Ho Hr) as (m1 & Hk1 & (E1 & E2 & E3) & Hm1 & Hs1).
      destruct (Ho2 k m1 Hk1) as (m2 & Hk2 & (F1 & F2 & F3) & Hm2 & Hs2); [congruence|done|].
      exists m2. split; [done|]. split; [unfold same_row; split_and!; congruence|]. split; [done|].
      unfold in_state in *. destruct Hs1 as [Hs1|[Hs1 Hs1']], Hs2 as [Hs2|[Hs2 Hs2']].
      * left. congruence.
      * right. split; congruence.
      * right. split; congruence.
      * rewrite Hs1' in Hs2. done.
    + intros k m2 t Hk2 Ho2' Hr Hp. destruct (Hr2 k m2 t Hk2 Ho2' Hr Hp) as (m1 & Hk1 & Ho1' & Hr1'). eauto.
Qed.

(** A row of [o] that changes: an owner's not at all but for acceptance, and no
    role changes to or from a privileged one. *)
Lemma kept_insert o T k m m' :
  T !! k = Some m → same_row m m' →
  (m_org_uuid m = o → has_role m MT_Owner →
     has_role m' MT_Owner ∧ (m_status m' = m_status m ∨ in_state m MS_Invited ∧ in_state m' MS_Accepted)) →
  (∀ t, m_org_uuid m = o → has_role m' t → privileged t → has_role m t) →
  owners_kept o T (<[k := m']> T).
Proof.
  intros Hk Hrow Hown Hrole. split.
  - intros k' x Hk' Ho Hr. destruct (decide (k' = k)) as [->|Hne].
    + assert (x = m) as -> by congruence. exists m'. rewrite lookup_insert_eq. destruct (Hown Ho Hr). by split_and!.
    + exists x. rewrite lookup_insert_ne by done. by split_and!; [|apply same_row_refl| |left].
  - intros k' x t [[<- <-]|[Hne Hk']]%lookup_insert_Some Ho Hr Hp; [|eauto].
    destruct Hrow as (_ & _ & E). rewrite E in Ho. exists m. eauto.
Qed.
Lemma kept_removed o T T' :
  T' ⊆ T → (∀ k m, T !! k = Some m → T' !! k = None → m_org_uuid m = o → ¬ has_role m MT_Owner) → owners_kept o T T'.
Proof.
  intros Hsub Hgone. split.
  - intros k m Hk Ho Hr. destruct (T' !! k) as [m'|] eqn:E; [|by destruct (Hgone k m Hk E Ho)].
    assert (T !! k = Some m') by by eapply lookup_weaken. assert (m' = m) as -> by congruence. exists m. by split_and!; [|apply same_row_refl| |left].
  - intros k m t Hk Ho Hr _. exists m. split_and!; [by eapply lookup_weaken|done..].
Qed.

Lemma step_owners_kept a T T' : member_step a T T' → ac_owner a = false → owners_kept (ac_org a) T T'.
Proof.
  intros Hstep Hno. assert (∀ P : Prop, ac_owner a = true → P) as Hnot by congruence.
  destruct Hstep as
    [m t s Hnew Ho Huniq Ht Hw Hs Hs'|k m inv key Hk Ho Hs|k m key Hk Ho Hs Hw|k m t t' all Hk Ho Ht Hp Hw Hlast
    |k m Hk Ho Hw Hlast|k m Hk Ho Hu Hs Hlast|k m Hk Ho Hu Hlast|k m Hk Ho Hu Hw|k m t Hk Ho Ht Hp|k m key Hk Ho Hu|u Hinv Hlast Hun].
  - destruct Hw as [->|]; [|by apply Hnot]. split.
    + intros k m' Hk _ Hr. exists m'. rewrite lookup_insert_ne by congruence. by split_and!; [|apply same_row_refl| |left].
    + intros k m' t [[<- <-]|[Hne Hk]]%lookup_insert_Some Ho' Hr Hp; [|eauto].
      apply (has_role_unique _ _ _ Ht) in Hr as <-. by destruct Hp.
  - eapply kept_insert; [done..| |done]. intros _ Hr. split; [done|]. by right.
  - destruct Hw as [Ht|]; [|by apply Hnot]. eapply kept_insert; [done..| |done].
    intros _ Hr. by apply (has_role_unique _ _ _ Ht) in Hr.
  - eapply kept_insert; [done..| |].
    + intros _ Hr. apply (has_role_unique _ _ _ Ht) in Hr as ->. by apply Hnot, Hw.
    + intros t0 _ Hr Hp0. apply (has_role_unique _ t') in Hr as <-; [|done].
      destruct (decide (t = t')) as [<-|]; [done|]. apply Hnot, Hp; auto.
  - destruct Hw as [Ht|]; [|by apply Hnot]. apply kept_removed; [apply delete_subseteq|].
    intros k' m' Hk' [<- |]%lookup_delete_None _ Hr; [|congruence].
    assert (m' = m) as -> by congruence. by apply (has_role_unique _ _ _ Ht) in Hr.
  - apply kept_removed; [apply delete_subseteq|].
    intros k' m' Hk' [<- |]%lookup_delete_None _ Hr; [|congruence].
    assert (m' = m) as -> by congruence. by apply Hnot, Hlast.
  - eapply kept_insert; [done|apply same_row_revoke| |].
    + intros _ Hr. by apply Hnot, Hlast.
    + intros t0 _ Hr _. unfold has_role in *. by rewrite revoke_type in Hr.
  - eapply kept_insert; [done|apply same_row_restore| |].
    + intros _ Hr. by apply Hnot, Hw.
    + intros t0 _ Hr _. unfold has_role in *. by rewrite restore_type in Hr.
  - eapply kept_insert; [done|apply same_row_revoke| |].
    + intros _ Hr. apply (has_role_unique _ _ _ Ht) in Hr as ->. destruct Hp. by left.
    + intros t0 _ Hr _. unfold has_role in *. by rewrite revoke_type in Hr.
  - eapply kept_insert; [done..| |done]. intros _ Hr. split; [done|]. by left.
  - apply kept_removed; [apply map_filter_subseteq|]. intros k m Hk Hg Ho Hr.
    apply map_lookup_filter_None in Hg as [?|Hg]; [congruence|].
    destruct (decide (m_user_uuid m = u)) as [Hu|Hu]; [|by destruct (Hg m Hk)].
    destruct (Hun k m Hk Hu Ho) as [_ [Ht|]]; [|by apply Hnot]. by apply (has_role_unique _ _ _ Ht) in Hr.
Qed.
Lemma steps_owners_kept a T T' : member_steps a T T' → ac_owner a = false → owners_kept (ac_org a) T T'.
Proof. intros Hs Hno. induction Hs as [|x y z Hxy _ IH]; [done|]. etrans; [by eapply step_owners_kept|done]. Qed.

(** ** Other organizations *)

(** Their rows do not change and none comes; those of the account that is
    [lost], if any, go, and no other. *)
Definition foreign_kept (o : string) (lost : option string) (T T' : Members) : Prop :=
  ∀ k m, m_org_uuid m ≠ o →
    (T' !! k = Some m → T !! k = Some m) ∧
    (T !! k = Some m → T' !! k = if bool_decide (lost = Some (m_user_uuid m)) then None else Some m).
#[export] Instance foreign_kept_preorder o : PreOrder (foreign_kept o None).
Proof.
  split.
  - intros T k m Ho. by rewrite bool_decide_eq_false_2.
  - intros T T1 T2 H1 H2 k m Ho. destruct (H1 k m Ho) as [A1 B1], (H2 k m Ho) as [A2 B2].
    rewrite bool_decide_eq_false_2 in * by done. auto.
Qed.
Lemma foreign_insert o T k m' :
  m_org_uuid m' = o → (∀ m, T !! k = Some m → m_org_uuid m = o) → foreign_kept o None T (<[k := m']> T).
Proof.
  intros Ho Hk k' m Hne. rewrite bool_decide_eq_false_2 by done. split.
  - intros [[<- <-]|[_ ?]]%lookup_insert_Some; done.
  - intros Hm. rewrite lookup_insert_ne; [done|]. intros <-. eauto.
Qed.
Lemma foreign_delete o T k m : T !! k = Some m → m_org_uuid m = o → foreign_kept o None T (delete k T).
Proof.
  intros Hk Ho k' m' Hne. rewrite bool_decide_eq_false_2 by done. split.
  - by intros [_ ?]%lookup_delete_Some.
  - intros Hm. rewrite lookup_delete_ne; [done|]. intros <-. simplify_eq.
Qed.
Lemma foreign_filter o (T : Members) : foreign_kept o None T (filter (λ km, m_org_uuid km.2 ≠ o) T).
Proof.
  intros k m Hne. rewrite bool_decide_eq_false_2 by done. split.
  - by intros [? _]%map_lookup_filter_Some.
  - intros Hk. by apply map_lookup_filter_Some.
Qed.
(** The account [u] is lost. *)
Lemma foreign_lost o u T T1 :
  foreign_kept o None T T1 → foreign_kept o (Some u) T (filter (λ km, m_user_uuid km.2 ≠ u) T1).
Proof.
  intros H k m Hne. destruct (H k m Hne) as [A B]. split.
  - by intros [? _]%map_lookup_filter_Some; apply A.
  - intros Hk. rewrite bool_decide_eq_false_2 in B by done. specialize (B Hk). case_bool_decide as Hu.
    + apply map_lookup_filter_None. right. intros m' Hm' []. simpl. by simplify_eq.
    + apply map_lookup_filter_Some. split; [done|]. simpl. congruence.
Qed.
(** It has no memberships elsewhere. *)
Lemma foreign_lost_none o u T T1 :
  foreign_kept o None T T1 → (∀ k m, T !! k = Some m → m_user_uuid m ≠ u) →
  foreign_kept o None T (filter (λ km, m_user_uuid km.2 ≠ u) T1).
Proof.
  intros H Hu k m Hne. destruct (H k m Hne) as [A B]. rewrite bool_decide_eq_false_2 in * by done. split.
  - by intros [? _]%map_lookup_filter_Some; apply A.
  - intros Hk. apply map_lookup_filter_Some. split; [auto|]. by eapply Hu.
Qed.
Lemma step_foreign_kept a T T' : member_step a T T' → ac_invites a = false → foreign_kept (ac_org a) None T T'.
Proof.
  intros Hstep Hno. destruct Hstep; try congruence.
  1: apply foreign_insert; [done|congruence].
  4,5: by eapply foreign_delete.
  all: eapply foreign_insert; [|congruence]; unfold Membership_revoke, Membership_restore; repeat case_match; done.
Qed.
Lemma steps_foreign_kept a T T' : member_steps a T T' → ac_invites a = false → foreign_kept (ac_org a) None T T'.
Proof. intros Hs Hno. induction Hs as [|x y z Hxy _ IH]; [done|]. etrans; [by eapply step_foreign_kept|done]. Qed.
