(* ===== verification/MemberSafety.v ===== *)
(** * What the organization endpoints do to memberships

    Every request of [Members] and [OrgCollections], with its request guard,
    follows the rules of [MemberProtocol]; so an organization keeps a confirmed
    owner, only owners change owners, and the table of memberships stays in
    order. *)

From stdpp Require Import base strings numbers pretty gmap list relations.
From S2P Require Import Prelude Store JsonUtil Queries Users Orgs AuthRequests TwoFactor Sends Collections Folders.
From S2P Require Import Login Sessions SessionSafety Ciphers Vault Signups EmergencyAccess Profiles Members OrgCollections.
From S2P Require Import MemberProtocol.

Abbreviation members_of w := (users_organizations (db w)).

(** ** Steps that leave memberships alone *)

(** Somebody's account has the identifier. *)
Definition user_id (us : gmap string User) (x : string) : Prop := ∃ k u, us !! k = Some u ∧ u_uuid u = x.
(** Each organization sits under its identifier. *)
Definition orgs_keyed (d : Db) : Prop := ∀ k o, organizations d !! k = Some o → o_uuid o = k.
(** No new accounts, and organizations in their places. *)
Record settled (w w' : World) : Prop := {
  settled_users : ∀ x, user_id (users (db w')) x → user_id (users (db w)) x;
  settled_orgs : orgs_keyed (db w) → orgs_keyed (db w');
}.
#[export] Instance settled_preorder : PreOrder settled.
Proof. split; [by split|]. intros w w1 w2 [] []. split; auto. Qed.
(** Besides, the memberships are as before. *)
Record calm_rel (w w' : World) : Prop := {
  calm_members : members_of w' = members_of w;
  calm_tick : tick w ≤ tick w';
  calm_settled : settled w w';
}.
#[export] Instance calm_world_rel : WorldRel calm_rel.
Proof.
  split.
  - split; [by split|]. intros w w1 w2 [] []. split; [congruence|lia|by etrans].
  - intros w. split; simpl; [done|lia|by split].
  - by split.
Qed.
Abbreviation calm := (within calm_rel).

Lemma calm_exec f :
  (∀ d, users_organizations (f d) = users_organizations d) → (∀ d, users (f d) = users d) →
  (∀ d, organizations (f d) = organizations d) → calm (exec f).
Proof.
  intros Hm Hu Ho. apply within_exec. intros w. split; simpl; [apply Hm|done|].
  split; simpl; unfold orgs_keyed; by rewrite ?Hu, ?Ho.
Qed.
#[export] Hint Extern 1 (calm (exec _)) => apply calm_exec; done : within.

Lemma user_id_alter (us : gmap string User) f k x :
  (∀ u, u_uuid (f u) = u_uuid u) → user_id (alter f k us) x → user_id us x.
Proof.
  intros Hf (k' & u & Hk & <-). destruct (decide (k' = k)) as [->|Hne].
  - rewrite lookup_alter_eq in Hk. destruct (us !! k) as [u0|] eqn:E; simplify_eq/=. exists k, u0. by rewrite Hf.
  - rewrite lookup_alter_ne in Hk by done. by exists k', u.
Qed.
Lemma calm_update_revision_impl v t : calm (User_update_revision_impl v t).
Proof.
  apply within_exec. intros w. split; simpl; [done..|]. split; simpl; [|done]. intros x. by apply user_id_alter.
Qed.
#[export] Hint Resolve calm_update_revision_impl : within.
Lemma calm_revision v : calm (User_update_uuid_revision v).
Proof. unfold User_update_uuid_revision. solve_within. Qed.
#[export] Hint Resolve calm_revision : within.
Lemma calm_User_update_revision u : calm (User_update_revision u).
Proof. unfold User_update_revision. solve_within. Qed.
Lemma calm_log_event t s o a dt ip : calm (log_event t s o a dt ip).
Proof. unfold log_event, log_event_impl, Event_new, Event_save. solve_within. Qed.
Lemma calm_log_org h t s o : calm (log_org h t s o).
Proof. unfold log_org. apply calm_log_event. Qed.
Lemma calm_outcome m : calm m → calm (outcome m).
Proof. intros Hm e w. specialize (Hm e w). unfold wp, outcome in *. by destruct (m e w) as [[] ?]. Qed.
Lemma calm_collect {A B} (l : list A) (f : A → M B) : (∀ x, calm (f x)) → calm (collect l f).
Proof. intros Hf. induction l; simpl; solve_within. Qed.
Lemma calm_delete_attachment_file p : calm (delete_attachment_file p).
Proof.
  unfold delete_attachment_file, attachments_operator. solve_within. intros e w.
  apply wp_intro. intros r w'. case_match; intros [= <- <-]; by split.
Qed.
#[export] Hint Resolve calm_User_update_revision calm_log_event calm_log_org calm_outcome calm_collect
  calm_delete_attachment_file : within.
#[export] Hint Extern 1 (calm (send_mail _)) => apply within_send_mail : within.

(** Collections, groups and ciphers *)
Lemma calm_CollectionUser_delete cu : calm (CollectionUser_delete cu).
Proof. unfold CollectionUser_delete. solve_within. Qed.
Lemma calm_CollectionUser_save u c r h m : calm (CollectionUser_save u c r h m).
Proof. unfold CollectionUser_save. solve_within. Qed.
Lemma calm_CollectionUser_delete_all c : calm (CollectionUser_delete_all_by_collection c).
Proof. unfold CollectionUser_delete_all_by_collection. solve_within. Qed.
Lemma calm_CollectionUser_delete_user u o : calm (CollectionUser_delete_all_by_user_and_org u o).
Proof. unfold CollectionUser_delete_all_by_user_and_org. solve_within. Qed.
Lemma calm_GroupUser_revision gu : calm (GroupUser_update_user_revision gu).
Proof. unfold GroupUser_update_user_revision. solve_within. Qed.
#[export] Hint Resolve calm_CollectionUser_delete calm_CollectionUser_save calm_CollectionUser_delete_all
  calm_CollectionUser_delete_user calm_GroupUser_revision : within.
Lemma calm_GroupUser_save gu : calm (GroupUser_save gu).
Proof. unfold GroupUser_save. solve_within. Qed.
Lemma calm_GroupUser_delete_member m : calm (GroupUser_delete_all_by_member m).
Proof. unfold GroupUser_delete_all_by_member. solve_within. Qed.
Lemma calm_GroupUser_delete_group g o : calm (GroupUser_delete_all_by_group g o).
Proof. unfold GroupUser_delete_all_by_group. solve_within. Qed.
Lemma calm_GroupUser_delete_one g m : calm (GroupUser_delete_by_group_and_member g m).
Proof. unfold GroupUser_delete_by_group_and_member. solve_within. Qed.
Lemma calm_group_revisions g o : calm (CollectionGroup_update_group_revisions g o).
Proof. unfold CollectionGroup_update_group_revisions. solve_within. Qed.
#[export] Hint Resolve calm_GroupUser_save calm_GroupUser_delete_member calm_GroupUser_delete_group
  calm_GroupUser_delete_one calm_group_revisions : within.
Lemma calm_CollectionGroup_save cg o : calm (CollectionGroup_save cg o).
Proof. unfold CollectionGroup_save. solve_within. Qed.
Lemma calm_CollectionGroup_delete_collection c o : calm (CollectionGroup_delete_all_by_collection c o).
Proof. unfold CollectionGroup_delete_all_by_collection. solve_within. Qed.
Lemma calm_CollectionGroup_delete_group g o : calm (CollectionGroup_delete_all_by_group g o).
Proof. unfold CollectionGroup_delete_all_by_group. solve_within. Qed.
Lemma calm_collection_revision c : calm (Collection_update_users_revision c).
Proof. unfold Collection_update_users_revision. solve_within. Qed.
#[export] Hint Resolve calm_CollectionGroup_save calm_CollectionGroup_delete_collection
  calm_CollectionGroup_delete_group calm_collection_revision : within.
Lemma calm_Collection_save c : calm (Collection_save c).
Proof. unfold Collection_save. solve_within. Qed.
Lemma calm_Collection_delete c : calm (Collection_delete c).
Proof. unfold Collection_delete, CollectionCipher_delete_all_by_collection. solve_within. Qed.
Lemma calm_Group_save g : calm (Group_save g).
Proof. unfold Group_save. solve_within. Qed.
Lemma calm_Group_delete g o : calm (Group_delete g o).
Proof. unfold Group_delete. solve_within. Qed.
Lemma calm_CollectionCipher_revision c : calm (CollectionCipher_update_users_revision c).
Proof. unfold CollectionCipher_update_users_revision. solve_within. Qed.
Lemma calm_cipher_revision c : calm (Cipher_update_users_revision c).
Proof. unfold Cipher_update_users_revision, update_revisions. solve_within. Qed.
#[export] Hint Resolve calm_Collection_save calm_Collection_delete calm_Group_save calm_Group_delete
  calm_CollectionCipher_revision calm_cipher_revision : within.
Lemma calm_CollectionCipher_save c k : calm (CollectionCipher_save c k).
Proof. unfold CollectionCipher_save. solve_within. Qed.
Lemma calm_CollectionCipher_delete c k : calm (CollectionCipher_delete c k).
Proof. unfold CollectionCipher_delete. solve_within. Qed.
Lemma calm_Cipher_delete c : calm (Cipher_delete c).
Proof.
  unfold Cipher_delete, FolderCipher_delete_all_by_cipher, CollectionCipher_delete_all_by_cipher,
    Attachment_delete_all_by_cipher, Attachment_delete, Favorite_delete_all_by_cipher. solve_within.
Qed.
#[export] Hint Resolve calm_CollectionCipher_save calm_CollectionCipher_delete calm_Cipher_delete : within.

(** Accounts, policies and organizations *)
Lemma calm_Send_delete s : calm (Send_delete s).
Proof.
  unfold Send_delete, Send_update_users_revision, sends_operator, delete_files. solve_within.
  intros e w. apply wp_intro. intros r w'. case_match; intros [= <- <-]; by split.
Qed.
Lemma calm_EmergencyAccess_delete ea : calm (EmergencyAccess_delete ea).
Proof. unfold EmergencyAccess_delete. solve_within. Qed.
Lemma calm_Folder_delete f : calm (Folder_delete f).
Proof. unfold Folder_delete, FolderCipher_delete_all_by_folder. solve_within. Qed.
Lemma calm_Invitation_take mail : calm (Invitation_take mail).
Proof. unfold Invitation_take, Invitation_delete. solve_within. Qed.
Lemma calm_Invitation_save mail : calm (Invitation_save mail).
Proof. unfold Invitation_save. solve_within. Qed.
Lemma calm_OrgPolicy_save p : calm (OrgPolicy_save p).
Proof. unfold OrgPolicy_save. solve_within. Qed.
Lemma calm_Organization_save o : calm (Organization_save o).
Proof.
  unfold Organization_save. solve_within. apply within_exec. intros w. split; simpl; [done..|]. split; simpl; [done|].
  intros Hk k x. simpl. intros [[<- <-]|[_ ?]]%lookup_insert_Some; eauto.
Qed.
Lemma calm_OrganizationApiKey_save k : calm (OrganizationApiKey_save k).
Proof. unfold OrganizationApiKey_save. solve_within. Qed.
#[export] Hint Resolve calm_Send_delete calm_EmergencyAccess_delete calm_Folder_delete calm_Invitation_take
  calm_Invitation_save calm_OrgPolicy_save calm_Organization_save calm_OrganizationApiKey_save : within.
Lemma calm_random_string l n : calm (get_random_string l n).
Proof. induction n; simpl; solve_within. Qed.
#[export] Hint Resolve calm_random_string : within.

Section with_services.
Context `{!Serde ProtectedActionData pa_stored, !Serde EmailTokenData id, !Serde UserStampException id} `{FL : FileLinks}.

Lemma calm_validate d u del : calm (PasswordOrOtpData_validate d u del).
Proof.
  unfold PasswordOrOtpData_validate, validate_protected_action_otp, TwoFactor_delete, TwoFactor_save,
    ProtectedActionData_from_json, ProtectedActionData_time_since_sent, User_check_valid_password, verify_password_hash.
  destruct (po_master_password_hash d), (po_otp d); solve_within.
Qed.
Lemma calm_check_user_allowed m action : calm (OrgPolicy_check_user_allowed m action).
Proof.
  unfold OrgPolicy_check_user_allowed, find_and_activate_email_2fa, activate_email_2fa, EmailTokenData_new, TwoFactor_new,
    TwoFactor_save, Membership_count_accepted_and_confirmed_by_user. solve_within.
Qed.
Lemma calm_set_password u pw key stamp routes : calm (User_set_password u pw key stamp routes).
Proof.
  unfold User_set_password, User_set_stamp_exception, User_reset_security_stamp, Device_rotate_refresh_tokens_by_user,
    rotate_device, Device_save, generate_refresh_token, encode_random_bytes, get_random_bytes, hash_password.
  destruct routes; solve_within.
Qed.
End with_services.
#[export] Hint Resolve calm_validate calm_check_user_allowed calm_set_password : within.

(** ** Worlds in order *)

(** An identifier nobody has. *)
Definition unused (d : Db) (x : string) : Prop :=
  ¬ user_id (users d) x ∧ users_organizations d !! x = None ∧
  ∀ k m, users_organizations d !! k = Some m → m_user_uuid m ≠ x ∧ m_org_uuid m ≠ x.
(** The identifiers drawn from now on are distinct and unused. *)
Record fresh_identifiers (e : Env) (w : World) : Prop := {
  fresh_inj : ∀ i j, uuid_at e i = uuid_at e j → i = j;
  fresh_unused : ∀ i, tick w ≤ i → unused (db w) (uuid_at e i);
}.
Record in_order (e : Env) (w : World) : Prop := {
  order_wf : members_wf (members_of w);
  order_fresh : fresh_identifiers e w;
  order_orgs : orgs_keyed (db w);
}.

(** The rows of [T'] are rows of [T], perhaps changed. *)
Definition rows_from (T T' : Members) : Prop :=
  ∀ k m', T' !! k = Some m' → ∃ m, T !! k = Some m ∧ same_row m m'.
Lemma rows_from_insert T k m m' : T !! k = Some m → same_row m m' → rows_from T (<[k := m']> T).
Proof.
  intros Hk Hr k' x [[<- <-]|[_ Hx]]%lookup_insert_Some; [by exists m|]. exists x. by split; [|apply same_row_refl].
Qed.
Lemma rows_from_subset (T T' : Members) : T' ⊆ T → rows_from T T'.
Proof. intros Hs k m Hk. exists m. split; [by eapply lookup_weaken|apply same_row_refl]. Qed.

Lemma fresh_mono e w w' :
  fresh_identifiers e w → tick w ≤ tick w' → settled w w' →
  rows_from (members_of w) (members_of w') → fresh_identifiers e w'.
Proof.
  intros [Hinj Hun] Ht [Hu _] Hrows. split; [done|]. intros i Hi. destruct (Hun i ltac:(lia)) as (H1 & H2 & H3).
  split_and!; [eauto| |].
  - destruct (members_of w' !! uuid_at e i) as [m'|] eqn:E; [|done]. destruct (Hrows _ _ E) as (m & Hm & _). congruence.
  - intros k m' Hk. destruct (Hrows _ _ Hk) as (m & Hm & _ & -> & ->). eauto.
Qed.
Lemma in_order_calm e w w' : in_order e w → calm_rel w w' → in_order e w'.
Proof.
  intros [Hwf Hf Ho] [Hm Ht Hu]. split; [by rewrite Hm| |by apply Hu]. eapply fresh_mono; [done..|].
  rewrite Hm. by apply rows_from_subset.
Qed.

(** ** Following the rules *)

Section following.
Context (a : Actor) (e : Env).

Record followed (w w' : World) : Prop := {
  followed_steps : member_steps a (members_of w) (members_of w');
  followed_order : in_order e w';
  followed_tick : tick w ≤ tick w';
}.
Definition follows {A} (m : M A) : Prop := ∀ w, in_order e w → wp m e w (λ _ w', followed w w').

Lemma followed_refl w : in_order e w → followed w w.
Proof. intros Hw. by split. Qed.
Lemma followed_calm w w' : in_order e w → calm_rel w w' → followed w w'.
Proof. intros Hw Hc. split; [by rewrite (calm_members _ _ Hc)|by eapply in_order_calm|apply Hc]. Qed.
Lemma followed_trans w w1 w2 : followed w w1 → followed w1 w2 → followed w w2.
Proof. intros [H1 _ ?] [H2 Hw ?]. split; [by etrans|done|lia]. Qed.
Lemma followed_calm_l w w1 w2 : calm_rel w w1 → followed w1 w2 → followed w w2.
Proof. intros [Hm ? _] [Hs Hw ?]. split; [by rewrite <- Hm|done|lia]. Qed.

Lemma follows_calm {A} (m : M A) : calm m → follows m.
Proof. intros Hm w Hw. eapply wp_mono; [apply Hm|]. intros r w' Hc. by apply followed_calm. Qed.
Lemma follows_bind {A B} (m : M A) (k : A → M B) : follows m → (∀ x, follows (k x)) → follows (mbind m k).
Proof.
  intros Hm Hk w Hw. apply wp_bind. eapply wp_mono; [by apply Hm|]. intros [x|x|] w1 H1; simpl; try done.
  eapply wp_mono; [by apply Hk, H1|]. intros r w2 H2. by eapply followed_trans.
Qed.
Lemma follows_for_each {A} (l : list A) f : (∀ x, follows (f x)) → follows (for_each l f).
Proof. intros Hf. induction l; simpl; [apply follows_calm, within_mret|]. by apply follows_bind. Qed.
Lemma follows_collect {A B} (l : list A) (f : A → M B) : (∀ x, follows (f x)) → follows (collect l f).
Proof.
  intros Hf. induction l; simpl; [apply follows_calm, within_mret|]. apply follows_bind; [done|]. intros y.
  apply follows_bind; [done|]. intros ys. apply follows_calm, within_mret.
Qed.
Lemma follows_outcome m : follows m → follows (outcome m).
Proof. intros Hm w Hw. specialize (Hm w Hw). unfold wp, outcome in *. by destruct (m e w) as [[] ?]. Qed.
Lemma follows_mdrop {A} (m : M A) : follows m → follows (mdrop m).
Proof. intros Hm. apply follows_bind; [done|]. intros _. apply follows_calm, within_mret. Qed.

(** Run a calm step: what follows starts from a world with the same memberships. *)
Lemma wp_calm_step {A} (m : M A) w (Φ : res Error A → World → Prop) :
  calm m → in_order e w → (∀ r w', calm_rel w w' → in_order e w' → Φ r w') → wp m e w Φ.
Proof. intros Hm Hw HΦ. eapply wp_mono; [apply Hm|]. intros r w' Hc. by eapply HΦ, in_order_calm. Qed.

(** One row changes or goes. *)
Lemma wp_Membership_save m w (Φ : res Error unit → World → Prop) :
  (∀ w', members_of w' = <[m_uuid m := m]> (members_of w) → tick w' = tick w →
     settled w w' → Φ (Ok tt) w') →
  wp (Membership_save m) e w Φ.
Proof.
  intros HΦ. unfold Membership_save, User_update_uuid_revision, User_update_revision_impl. wp_go.
  apply HΦ; simpl; [done..|]. split; simpl; [|done]. intros x. by apply user_id_alter.
Qed.
Lemma follows_row k m m' w :
  in_order e w → members_of w !! k = Some m → same_row m m' →
  member_step a (members_of w) (<[k := m']> (members_of w)) →
  wp (Membership_save m') e w (λ _ w', followed w w').
Proof.
  intros [Hwf Hf Hkey] Hk Hr Hstep. apply wp_Membership_save. intros w' Hm Ht Hu.
  assert (m_uuid m' = k) as Hid. { destruct Hr as [-> _]. by eapply wf_keyed. }
  rewrite Hid in Hm. split; [rewrite Hm; by apply rtc_once| |lia]. split.
  - rewrite Hm. by eapply step_wf.
  - eapply fresh_mono; [done|lia|done|]. rewrite Hm. by eapply rows_from_insert.
  - by apply Hu.
Qed.
Lemma wp_Membership_delete m w (Φ : res Error unit → World → Prop) :
  (∀ w', members_of w' = delete (m_uuid m) (members_of w) → tick w ≤ tick w' →
     settled w w' → Φ (Ok tt) w') →
  wp (Membership_delete m) e w Φ.
Proof.
  intros HΦ. unfold Membership_delete. wp_step.
  apply (wp_within_safe (R := calm_rel)); [apply calm_revision|apply safe_update_uuid_revision|]. intros [] w1 [E1 T1 U1].
  do 2 wp_step. apply (wp_within_safe (R := calm_rel)); [apply calm_CollectionUser_delete_user| |].
  { unfold CollectionUser_delete_all_by_user_and_org, CollectionUser_find_by_organization_and_user_uuid. solve_keeps. }
  intros [] w2 [E2 T2 U2]. do 2 wp_step. apply (wp_within_safe (R := calm_rel)); [apply calm_GroupUser_delete_member| |].
  { unfold GroupUser_delete_all_by_member, Membership_find_by_uuid. solve_keeps. }
  intros [] w3 [E3 T3 U3]. do 2 wp_step. apply HΦ; simpl; [congruence|lia|].
  etrans; [exact U1|]. etrans; [exact U2|]. etrans; [exact U3|]. by split.
Qed.
Lemma follows_gone k m w :
  in_order e w → members_of w !! k = Some m → member_step a (members_of w) (delete k (members_of w)) →
  wp (Membership_delete m) e w (λ _ w', followed w w').
Proof.
  intros [Hwf Hf Hkey] Hk Hstep. apply wp_Membership_delete. intros w' Hm Ht Hu.
  rewrite (wf_keyed _ Hwf _ _ Hk) in Hm. split; [rewrite Hm; by apply rtc_once| |done]. split.
  - rewrite Hm. by eapply step_wf.
  - eapply fresh_mono; [done..|]. rewrite Hm. apply rows_from_subset, delete_subseteq.
  - by apply Hu.
Qed.
End following.

(** ** The handlers *)

Lemma wp_calm_bind {A B} a e (m : M A) (k : A → M B) w :
  calm m → in_order e w →
  (∀ x w', calm_rel w w' → in_order e w' → wp (k x) e w' (λ _ w2, followed a e w' w2)) →
  wp (mbind m k) e w (λ _ w', followed a e w w').
Proof.
  intros Hm Hw Hk. apply wp_bind. eapply wp_calm_step; [done..|]. intros [x|x|] w1 Hc Hw1; simpl;
    [|by apply followed_calm..]. eapply wp_mono; [by apply Hk|]. intros r w2 H2. by eapply followed_calm_l.
Qed.
(** A step and then something calm. *)
Lemma wp_then_calm {A} a e (m1 : M unit) (k : unit → M A) w :
  wp m1 e w (λ _ w', followed a e w w') → (∀ x, calm (k x)) → wp (mbind m1 k) e w (λ _ w', followed a e w w').
Proof.
  intros H1 Hk. apply wp_bind. eapply wp_mono; [exact H1|]. intros [x|x|] w1 Hw1; simpl; try done.
  eapply wp_mono; [apply (follows_calm a e _ (Hk x)), Hw1|]. intros r w2 H2. by eapply followed_trans.
Qed.
(** Run a calm step, and carry on with the facts known about the memberships. *)
Ltac calm_bind :=
  apply wp_calm_bind; [solve [auto with within | solve_within]|assumption|];
  let x := fresh "x" in let w := fresh "w" in let Hc := fresh "Hc" in let Hw := fresh "Hw" in
  intros x w Hc Hw; try rewrite <- (calm_members _ _ Hc) in *; clear Hc;
  lazymatch type of x with unit => destruct x | _ => idtac end.
(** Run the steps that only read; a failure changes nothing. *)
Ltac is_prim m :=
  lazymatch m with
  | ensure _ _ => idtac | some_or_err _ _ => idtac | mret _ => idtac | ask _ => idtac | conf _ => idtac
  | query _ => idtac | err _ => idtac | mexpect _ => idtac | err_code _ _ => idtac
  end.
Ltac read_step :=
  lazymatch goal with
  | |- wp (mbind (User_find_by_uuid _) _) _ _ _ => unfold User_find_by_uuid at 1
  | |- wp (mbind (User_find_by_mail _) _) _ _ _ => unfold User_find_by_mail at 1
  | |- wp (mbind (Organization_find_by_uuid _) _) _ _ _ => unfold Organization_find_by_uuid at 1
  | |- wp (mbind (Membership_find_by_uuid_and_org _ _) _) _ _ _ => unfold Membership_find_by_uuid_and_org at 1
  | |- wp (mbind (OrgPolicy_find_by_org_and_type _ _) _) _ _ _ => unfold OrgPolicy_find_by_org_and_type at 1
  | |- wp (mbind (same_org _ _) _) _ _ _ => unfold same_org at 1
  | |- wp (mbind ?m _) _ _ _ => is_prim m; wp_step; wp_step; wp_step
  | |- wp (if _ then _ else _) _ _ _ => wp_step
  | |- wp (match _ with Some _ => _ | None => _ end) _ _ _ => wp_step
  | |- wp ?m _ _ _ => is_prim m; wp_step
  end.
Ltac read_on := repeat read_step; try (by apply followed_refl).

Lemma has_type_spec m t : Membership_has_type m t = true ↔ has_role m t.
Proof. unfold Membership_has_type, has_role. apply Z.eqb_eq. Qed.
Lemma has_status_spec m s : Membership_has_status m s = true ↔ in_state m s.
Proof. unfold Membership_has_status, in_state. apply Z.eqb_eq. Qed.
Lemma is_owner_spec h : is_owner h = true ↔ os_membership_type h = MT_Owner.
Proof. unfold is_owner. apply bool_decide_eq_true. Qed.
Lemma find_member_Some k o (T : Members) m :
  (m ← T !! k; if is_org o m then Some m else None) = Some m → T !! k = Some m ∧ m_org_uuid m = o.
Proof.
  destruct (T !! k) as [m'|]; simpl; [|done]. unfold is_org. case_bool_decide; [|done]. intros [= <-]. done.
Qed.

Lemma two_rows (T : Members) p k :
  members_wf T → 1 < length (load p T) → ∃ k' m, k' ≠ k ∧ T !! k' = Some m ∧ p m = true.
Proof.
  intros Hwf Hlen. pose proof (load_keys_NoDup m_uuid p T (wf_keyed _ Hwf)) as Hnd.
  assert (∀ m, m ∈ load p T → T !! m_uuid m = Some m ∧ p m = true) as Hrow.
  { intros m [Hp [k' Hk']]%elem_of_load. by rewrite (wf_keyed _ Hwf _ _ Hk'). }
  destruct (load p T) as [|x [|y l]]; simpl in *; [lia..|].
  apply NoDup_cons in Hnd as [Hxy _]. rewrite elem_of_cons in Hxy.
  destruct (decide (m_uuid x = k)) as [<-|Hx].
  - exists (m_uuid y), y. split; [intros E; apply Hxy; by left|]. apply Hrow. by right; left.
  - exists (m_uuid x), x. split; [done|]. apply Hrow. by left.
Qed.
Lemma owners_counted T o k :
  members_wf T → 1 < length (load (λ m, is_org o m && Membership_has_type m MT_Owner && is_status MS_Confirmed m) T) →
  other_owner T o k.
Proof.
  intros Hwf Hlen. destruct (two_rows _ _ k Hwf Hlen) as (k' & m & Hne & Hk & Hp). exists k', m.
  rewrite !andb_true_iff in Hp. destruct Hp as [[Ho Ht] Hs]. unfold is_org in Ho. rewrite bool_decide_eq_true in Ho.
  split_and!; [done..|]. unfold is_confirmed_owner. by rewrite Ht.
Qed.
Lemma wp_other_owner o msg e w (Φ : res Error unit → World → Prop) :
  in_order e w → ((∀ k, other_owner (members_of w) o k) → Φ (Ok tt) w) → (∀ x, Φ (Err x) w) →
  wp (other_owner_left o msg) e w Φ.
Proof.
  intros [Hwf _] HOk HErr. unfold other_owner_left, Membership_count_confirmed_by_org_and_type, members.
  wp_go; [apply HOk|apply HErr]. intros k. eapply owners_counted; [done|]. by apply Nat.ltb_lt.
Qed.

(** The requester: [os_user] with the row the guard found. *)
Definition actor_of (h : OrgSession) (invites : bool) : Actor :=
  mkActor (os_org_id h) (u_uuid (os_user h)) (is_owner h && is_confirmed h) invites.

Section handlers.
Context `{!Serde ProtectedActionData pa_stored, !Serde EmailTokenData id, !Serde UserStampException id} `{FL : FileLinks}.
Context (h : OrgSession) (inv : bool) (e : Env).
Context (Hconf : is_confirmed h = true).
Abbreviation me := (actor_of h inv).

Lemma ac_owner_spec : ac_owner me = is_owner h.
Proof. unfold actor_of. simpl. by rewrite Hconf, andb_true_r. Qed.
Lemma may_act m : Membership_has_type m MT_User || is_owner h = true → has_role m MT_User ∨ ac_owner me = true.
Proof. rewrite orb_true_iff, has_type_spec, ac_owner_spec. done. Qed.
Lemma may_touch_owner m :
  negb (Membership_has_type m MT_Owner) || is_owner h = true → has_role m MT_Owner → ac_owner me = true.
Proof. rewrite orb_true_iff, negb_true_iff, ac_owner_spec. intros [Hf|]; [|done]. rewrite <- has_type_spec, Hf. done. Qed.

(** The check that another owner is left comes before a step that needs it. *)
Lemma wp_owner_check {A} (b : bool) o msg (k : unit → M A) w :
  in_order e w →
  ((b = true → ∀ k, other_owner (members_of w) o k) → wp (k tt) e w (λ _ w', followed me e w w')) →
  wp (mbind (if b then other_owner_left o msg else mret tt) k) e w (λ _ w', followed me e w w').
Proof.
  intros Hw Hk. apply wp_bind. destruct b.
  - apply wp_other_owner; [done| |intros; by apply followed_refl]. intros Hother. by apply Hk.
  - apply wp_mret. by apply Hk.
Qed.

Lemma not_type m t : Membership_has_type m t = false → ¬ has_role m t.
Proof. rewrite <- has_type_spec. congruence. Qed.

Lemma follows_delete_member o id : follows me e (delete_member_impl o id h).
Proof.
  intros w Hw. unfold delete_member_impl. read_on.
  apply bool_decide_eq_true in Hc as ->. apply find_member_Some in Ho as [Hk Ho].
  apply wp_owner_check; [done|]. intros Hlast. calm_bind. eapply follows_gone; [done..|].
  eapply step_remove; [done..|by apply may_act|]. auto.
Qed.
Lemma follows_revoke_member o id : follows me e (revoke_member_impl o id h).
Proof.
  intros w Hw. unfold revoke_member_impl. read_on.
  apply bool_decide_eq_true in Hc as ->; apply find_member_Some in Hm as [Hk Ho].
  apply negb_true_iff, bool_decide_eq_false in Hc0. apply wp_owner_check; [done|]. intros Hlast.
  apply wp_then_calm; [|auto with within]. eapply follows_row; [done..|apply same_row_revoke|].
  eapply step_revoke; [done..|]. intros Hr. split; [by eapply may_touch_owner|]. apply Hlast, has_type_spec, Hr.
Qed.
Lemma follows_restore_member o id : follows me e (restore_member_impl o id h).
Proof.
  intros w Hw. unfold restore_member_impl. read_on.
  apply bool_decide_eq_true in Hc as ->; apply find_member_Some in Hm as [Hk Ho].
  apply negb_true_iff, bool_decide_eq_false in Hc0. calm_bind. apply wp_then_calm; [|auto with within].
  eapply follows_row; [done..|apply same_row_restore|]. eapply step_restore; [done..|]. by apply may_touch_owner.
Qed.
Lemma follows_confirm o id key : follows me e (confirm_invite_impl o id key h).
Proof.
  intros w Hw. unfold confirm_invite_impl, mail_confirmed. read_on.
  apply bool_decide_eq_true in Hc as ->; apply find_member_Some in Ho as [Hk Ho]. apply has_status_spec in Hc2.
  do 2 calm_bind. read_on. calm_bind. eapply follows_row; [done..|]. eapply step_confirm; [done..|by apply may_act].
Qed.
Lemma admin_cmp t : match MembershipType_cmp t MT_Admin with Lt => false | _ => true end = true ↔ privileged t.
Proof. unfold privileged. destruct t; simpl; naive_solver. Qed.
Lemma i32_ge_admin m t : has_role m t → i32_ge (m_atype m) MT_Admin = true ↔ privileged t.
Proof. unfold has_role, privileged. intros ->. destruct t; simpl; naive_solver. Qed.
Lemma follows_edit_member o id data : follows me e (edit_member o id data h).
Proof.
  intros w Hw. unfold edit_member, add_collections, add_groups. read_on.
  apply bool_decide_eq_true in Hc as ->; apply find_member_Some in Ho0 as [Hk Ho0]. rename a into t', a0 into m.
  destruct (wf_type _ (order_wf _ _ Hw) _ _ Hk) as [t Ht]. fold (has_role m t) in Ht.
  apply wp_owner_check; [done|]. intros Hlast. do 7 calm_bind. eapply follows_row; [done..|].
  eapply (step_edit _ _ _ _ t); [done..| | |].
  - intros Hne Hp. rewrite ac_owner_spec. rewrite !orb_true_iff, negb_true_iff in Hc0. destruct Hc0 as [[Hc0|Hc0]|]; [| |done].
    + by apply has_type_spec, (has_role_unique _ _ _ Ht) in Hc0.
    + apply orb_false_iff in Hc0 as [H1 H2]. rewrite <- not_true_iff_false, (i32_ge_admin m t Ht) in H1.
      rewrite <- not_true_iff_false, admin_cmp in H2. naive_solver.
  - intros ->. by eapply may_touch_owner.
  - intros Hown Hne. apply Hlast. by rewrite Hown, bool_decide_eq_false_2.
Qed.
End handlers.

(** *** Invitations accepted *)

Section accepting.
Context `{!Serde ProtectedActionData pa_stored, !Serde EmailTokenData id, !Serde UserStampException id} `{FL : FileLinks}.
Context (decode_invite : string → res Error InviteJwtClaims) (a : Actor) (e : Env).

Lemma follows_reinvite id mail : follows a e (reinvite_member_impl (ac_org a) id mail).
Proof.
  intros w Hw. unfold reinvite_member_impl, Invitation_new. read_on.
  - by apply follows_calm; [apply within_send_mail|].
  - apply follows_calm; [auto with within|done].
  - apply find_member_Some in Ho as [Hk Ho]. calm_bind. eapply follows_row; [done..|].
    apply (step_accept a _ _ _ (m_invited_by_email a0) (m_reset_password_key a0)); [done..|]. by apply has_status_spec.
Qed.
Lemma calm_lift_res {A} (r : res Error A) : calm (lift_res r).
Proof. intros e' w'. by apply wp_intro; intros r' w1 [= <- <-]. Qed.
Lemma calm_auto_enroll o : calm (OrgPolicy_org_is_reset_password_auto_enroll o).
Proof. unfold OrgPolicy_org_is_reset_password_auto_enroll. solve_within. Qed.
Lemma follows_accept id data headers : follows a e (accept_invite decode_invite (ac_org a) id data headers).
Proof.
  intros w Hw. unfold accept_invite. apply wp_calm_bind; [apply calm_lift_res|done|].
  intros claims w1 _ Hw1. read_on. apply bool_decide_eq_true in Hc0. calm_bind. read_on.
  - rewrite Hc0 in *. apply find_member_Some in Ho as [Hk Ho]. apply wp_calm_bind; [apply calm_auto_enroll|done|].
    intros enroll w2 Hc2 Hw2. rewrite <- (calm_members _ _ Hc2) in *. clear Hc2. calm_bind.
    unfold accept_org_invite. read_on. apply has_status_spec in Hc2. calm_bind. apply wp_then_calm; [|solve_within].
    eapply follows_row; [done..|]. apply (step_accept a _ _ a0); [done..|exact Hc2].
  - apply follows_calm; [solve_within|done].
Qed.
End accepting.

(** *** The requester's own row *)

(** The row that the guard found, with its role and state. *)
Definition session_row (h : OrgSession) (T : Members) (k : string) : Prop :=
  T !! k = Some (os_membership h) ∧ m_user_uuid (os_membership h) = u_uuid (os_user h) ∧
  has_role (os_membership h) (os_membership_type h) ∧ in_state (os_membership h) (os_membership_status h).
Lemma session_owner h T k b :
  session_row h T k → is_confirmed_owner (os_membership h) = true → ac_owner (actor_of h b) = true.
Proof.
  intros (_ & _ & Hr & Hs) [Hr' Hs']%confirmed_owner_spec. apply (has_role_unique _ _ _ Hr) in Hr'.
  unfold in_state in *. rewrite Hs in Hs'. unfold actor_of, is_owner, is_confirmed. simpl.
  by destruct (os_membership_type h), (os_membership_status h).
Qed.

Section own_row.
Context `{!Serde ProtectedActionData pa_stored, !Serde EmailTokenData id, !Serde UserStampException id} `{FL : FileLinks}.
Context (h : OrgSession) (inv : bool) (e : Env).
Abbreviation me := (actor_of h inv).

Lemma follows_leave w k :
  in_order e w → session_row h (members_of w) k → wp (leave_organization (os_org_id h) h) e w (λ _ w', followed me e w w').
Proof.
  intros Hw Hrow. unfold leave_organization. read_on. apply has_status_spec in Hc. apply wp_owner_check; [done|].
  intros Hlast. calm_bind. pose proof Hrow as (Hk & Hu & _). eapply follows_gone; [done..|].
  eapply step_leave; [done..|]. intros Hr. split; [|by apply Hlast, has_type_spec].
  eapply session_owner; [done|]. by apply confirmed_owner_spec.
Qed.
Lemma follows_enroll w k user data :
  in_order e w → session_row h (members_of w) k →
  wp (put_reset_password_enrollment (os_org_id h) user data h) e w (λ _ w', followed me e w w').
Proof.
  intros Hw Hrow. unfold put_reset_password_enrollment. read_on. unfold check_reset_password_applicable. calm_bind.
  apply wp_calm_bind; [unfold OrgPolicy_org_is_reset_password_auto_enroll; solve_within|done|].
  intros x w1 Hc1 Hw1. rewrite <- (calm_members _ _ Hc1) in *. clear Hc1. calm_bind. destruct Hrow as (Hk & Hu & _).
  apply wp_then_calm; [|auto with within]. eapply follows_row; [done..|]. by eapply step_enroll.
Qed.
End own_row.

(** *** Policies *)

(** A step that touches no row but [k]. *)
Definition followed_at (a : Actor) (e : Env) (k : string) (w w' : World) : Prop :=
  followed a e w w' ∧ ∀ k', k' ≠ k → members_of w' !! k' = members_of w !! k'.
(** A loop over rows as they were loaded; each round may change its own row. *)
Lemma follows_rows a e (l : list Membership) f w :
  (∀ m w, m ∈ l → in_order e w → members_of w !! m_uuid m = Some m →
     wp (f m) e w (λ _ w', followed_at a e (m_uuid m) w w')) →
  in_order e w → NoDup (m_uuid <$> l) → (∀ m, m ∈ l → members_of w !! m_uuid m = Some m) →
  wp (for_each l f) e w (λ _ w', followed a e w w').
Proof.
  intros Hf. revert w. induction l as [|m l IH]; intros w Hw Hnd Hrows; simpl; [by apply wp_mret, followed_refl|].
  apply wp_bind. eapply wp_mono; [apply Hf; [by left|done|apply Hrows; by left]|].
  apply NoDup_cons in Hnd as [Hm Hnd]. intros [x|x|] w1 [H1 Hrest]; simpl; try done. eapply wp_mono.
  { apply IH; [intros; apply Hf; [by right|done..]|apply H1|done|]. intros m' Hm'. rewrite Hrest.
    - apply Hrows. by right.
    - intros E. apply Hm. rewrite <- E. by apply list_elem_of_fmap_2. }
  intros r w2 H2. by eapply followed_trans.
Qed.
(** What a loop over a query has. *)
Lemma loaded_rows (T : Members) p :
  members_wf T →
  NoDup (m_uuid <$> load p T) ∧ ∀ m, m ∈ load p T → T !! m_uuid m = Some m ∧ p m = true.
Proof.
  intros Hwf. split; [apply load_keys_NoDup, (wf_keyed _ Hwf)|]. intros m [Hp [k Hk]]%elem_of_load.
  by rewrite (wf_keyed _ Hwf _ _ Hk).
Qed.

Section policies.
Context `{!Serde ProtectedActionData pa_stored, !Serde EmailTokenData id, !Serde UserStampException id} `{FL : FileLinks}.
Context (a : Actor) (e : Env).

Lemma below_admin m : i32_lt (m_atype m) MT_Admin = true → known_type m → ∃ t, has_role m t ∧ ¬ privileged t.
Proof.
  intros Hlt [t Ht]. exists t. split; [done|]. rewrite Ht in Hlt. unfold privileged. destruct t; simpl in *; naive_solver.
Qed.
(** The row is written back revoked. *)
Lemma follows_policy_row m w :
  in_order e w → members_of w !! m_uuid m = Some m → m_org_uuid m = ac_org a → i32_lt (m_atype m) MT_Admin = true →
  wp (Membership_save (Membership_revoke m).1) e w (λ _ w', followed_at a e (m_uuid m) w w').
Proof.
  intros Hw Hk Ho Hlt. destruct (below_admin m Hlt) as (t & Ht & Hp); [by eapply wf_type; [apply Hw|]|].
  assert (wp (Membership_save (Membership_revoke m).1) e w (λ _ w', followed a e w w')) as Hrow.
  { eapply follows_row; [done..|apply same_row_revoke|]. by eapply step_policy. }
  unfold wp in *. split; [done|]. intros k' Hk'.
  assert (wp (Membership_save (Membership_revoke m).1) e w (λ _ w', members_of w' !! k' = members_of w !! k')) as H; [|apply H].
  apply wp_Membership_save. intros w' -> _ _. rewrite lookup_insert_ne; [done|]. by destruct (same_row_revoke m) as [-> _].
Qed.
Lemma followed_at_calm k w w' : in_order e w → calm_rel w w' → followed_at a e k w w'.
Proof. intros Hw Hc. split; [by apply followed_calm|]. intros k' _. by rewrite (calm_members _ _ Hc). Qed.
Lemma followed_at_trans k w w1 w2 : followed_at a e k w w1 → followed_at a e k w1 w2 → followed_at a e k w w2.
Proof. intros [H1 F1] [H2 F2]. split; [by eapply followed_trans|]. intros k' Hk. by rewrite F2, F1. Qed.
(** Calm steps before and after. *)
Lemma wp_at_calm_bind {A B} k (m : M A) (f : A → M B) w :
  calm m → in_order e w →
  (∀ x w', calm_rel w w' → in_order e w' → wp (f x) e w' (λ _ w2, followed_at a e k w' w2)) →
  wp (mbind m f) e w (λ _ w', followed_at a e k w w').
Proof.
  intros Hm Hw Hk. apply wp_bind. eapply wp_calm_step; [done..|]. intros [x|x|] w1 Hc Hw1; simpl;
    [|by apply followed_at_calm..]. eapply wp_mono; [by apply Hk|]. intros r w2 H2.
  eapply followed_at_trans; [by apply followed_at_calm|done].
Qed.
Lemma wp_at_then_calm {A B} k (m : M A) (f : A → M B) w :
  wp m e w (λ _ w', followed_at a e k w w') → (∀ x, calm (f x)) → wp (mbind m f) e w (λ _ w', followed_at a e k w w').
Proof.
  intros Hm Hf. apply wp_bind. eapply wp_mono; [done|]. intros [x|x|] w1 H1; simpl; try done.
  eapply wp_calm_step; [apply Hf|apply H1|]. intros r w2 Hc _. eapply followed_at_trans; [done|].
  apply followed_at_calm; [apply H1|done].
Qed.

Lemma follows_2fa_policy user dt ip : follows a e (enforce_2fa_policy_for_org (ac_org a) user dt ip).
Proof.
  intros w Hw. unfold enforce_2fa_policy_for_org, Membership_find_confirmed_by_org, members. read_on.
  destruct (loaded_rows _ (λ m, is_org (ac_org a) m && is_status MS_Confirmed m) (order_wf _ _ Hw)) as [Hnd Hrows].
  apply follows_rows; [|done..|naive_solver]. intros m w' Hm Hw' Hk. destruct (Hrows m Hm) as [_ Hp].
  apply andb_true_iff in Hp as [Horg _]. apply bool_decide_eq_true in Horg.
  read_step; [|by apply wp_mret, followed_at_calm]. unfold TwoFactor_find_by_user. do 2 read_step;
    [|by apply wp_mret, followed_at_calm].
  read_step. apply wp_at_calm_bind; [solve_within|done|]. intros _ w1 Hc Hw1. rewrite <- (calm_members _ _ Hc) in Hk.
  apply wp_at_then_calm; [|auto with within]. by apply follows_policy_row.
Qed.
Lemma follows_single_org h o l w :
  o = ac_org a → in_order e w → l = load (is_org (ac_org a)) (members_of w) →
  wp (for_each l (enforce_single_org_member o h)) e w (λ _ w', followed a e w w').
Proof.
  intros -> Hw ->. destruct (loaded_rows _ (is_org (ac_org a)) (order_wf _ _ Hw)) as [Hnd Hrows].
  apply follows_rows; [|done..|naive_solver]. intros m w' Hm Hw' Hk. destruct (Hrows m Hm) as [_ Ho].
  apply bool_decide_eq_true in Ho. unfold enforce_single_org_member, Membership_count_accepted_and_confirmed_by_user, members.
  read_step; [|by apply wp_mret, followed_at_calm]. apply andb_true_iff in Hb as [Hlt _].
  apply wp_at_calm_bind; [solve_within|done|]. intros n w1 Hc1 Hw1. rewrite <- (calm_members _ _ Hc1) in Hk.
  read_step; [|by apply wp_mret, followed_at_calm]. read_step.
  apply wp_at_calm_bind; [solve_within|done|]. intros _ w2 Hc2 Hw2. rewrite <- (calm_members _ _ Hc2) in Hk.
  apply wp_at_calm_bind; [auto with within|done|]. intros _ w3 Hc3 Hw3. rewrite <- (calm_members _ _ Hc3) in Hk.
  by apply follows_policy_row.
Qed.
Lemma follows_put_policy t data h : os_org_id h = ac_org a → follows a e (put_policy (ac_org a) t data h).
Proof.
  intros Hh w Hw. unfold put_policy. read_on. apply wp_calm_bind; [|done|].
  { unfold check_policy_pair, policy_enabled. solve_within. }
  intros _ w1 _ Hw1. apply follows_bind; [|intros _|done].
  { destruct (_ && _); [apply follows_2fa_policy|apply follows_calm, within_mret]. }
  apply follows_bind; [|intros _].
  { destruct (_ && _); [|apply follows_calm, within_mret]. intros w2 Hw2. unfold Membership_find_by_org, members. read_on.
    by apply follows_single_org. }
  apply follows_calm. unfold policy_or_new, OrgPolicy_new, OrgPolicy_to_json. solve_within.
Qed.
End policies.

(** *** Deleting an account *)

Lemma wp_check_owners l e w :
  in_order e w →
  wp (for_each l check_not_last_owner) e w (λ r w', w' = w ∧
    (r = Ok tt → ∀ m k, m ∈ l → has_role m MT_Owner → other_owner (members_of w) (m_org_uuid m) k)).
Proof.
  intros Hw. induction l as [|m l IH]; simpl.
  { apply wp_mret. split; [done|]. by intros _ m k []%not_elem_of_nil. }
  apply wp_bind. unfold check_not_last_owner at 1, Membership_count_confirmed_by_org_and_type, members.
  wp_go; simpl; try done; (eapply wp_mono; [exact IH|]); intros r w' [-> Hr]; (split; [done|]); intros Hok m' k Hm' Hrole;
    (apply elem_of_cons in Hm' as [->|Hm']; [|by apply Hr]).
  - eapply owners_counted; [apply Hw|]. by apply Nat.ltb_lt.
  - by apply has_type_spec in Hrole; rewrite Hrole in *.
Qed.
Lemma wp_delete_rows l e w :
  wp (for_each l Membership_delete) e w (λ r w', r = Ok tt ∧
    (∀ k, members_of w' !! k = if decide (k ∈ m_uuid <$> l) then None else members_of w !! k) ∧ tick w ≤ tick w' ∧
    settled w w').
Proof.
  revert w. induction l as [|m l IH]; intros w; simpl; [by apply wp_mret|].
  apply wp_bind, wp_Membership_delete. intros w1 Hm1 Ht1 Hu1. simpl. eapply wp_mono; [apply IH|].
  intros r w2 (-> & Hm2 & Ht2 & Hu2). split_and!; [done| |lia|by etrans]. intros k. rewrite Hm2, Hm1.
  destruct (decide (k = m_uuid m)) as [->|Hne].
  - rewrite lookup_delete_eq, (decide_True (P := m_uuid m ∈ m_uuid m :: _)) by by left. by case_decide.
  - rewrite lookup_delete_ne by done. apply decide_ext. rewrite elem_of_cons. naive_solver.
Qed.
(** All rows of a query go. *)
Lemma wp_delete_loaded p (P : string * Membership → Prop) `{!∀ x, Decision (P x)} e w :
  (∀ k m, p m = true ↔ ¬ P (k, m)) → in_order e w →
  wp (for_each (load p (members_of w)) Membership_delete) e w (λ r w', r = Ok tt ∧
    members_of w' = filter P (members_of w) ∧ in_order e w' ∧ tick w ≤ tick w').
Proof.
  intros HP [Hwf Hf Hkey]. eapply wp_mono; [apply wp_delete_rows|]. intros r w' (-> & Hm & Ht & Hu).
  assert (members_of w' = filter P (members_of w)) as E.
  { apply map_eq. intros k. rewrite Hm. destruct (loaded_rows _ p Hwf) as [_ Hrows]. case_decide as Hk.
    - apply list_elem_of_fmap in Hk as (m & -> & Hin). destruct (Hrows m Hin) as [Hl Hp]. symmetry.
      apply map_lookup_filter_None. right. intros m' Hm' Hp'. simplify_eq. by apply (HP (m_uuid m) m) in Hp.
    - destruct (members_of w !! k) as [m|] eqn:El; symmetry; [|apply map_lookup_filter_None; by left].
      apply map_lookup_filter_Some. split; [done|]. apply dec_stable. intros Hn. apply Hk, list_elem_of_fmap.
      exists m. split; [by rewrite (wf_keyed _ Hwf _ _ El)|]. apply elem_of_load. split; [|eauto]. by apply (HP k). }
  split_and!; [done..| |done]. split.
  - rewrite E. eapply wf_subset; [done|]. apply map_filter_subseteq.
  - eapply fresh_mono; [done..|]. rewrite E. apply rows_from_subset, map_filter_subseteq.
  - by apply Hu.
Qed.
(** All memberships of the user go. *)
Lemma wp_delete_memberships u e w :
  in_order e w →
  wp (Membership_delete_all_by_user u) e w (λ r w', r = Ok tt ∧
    members_of w' = filter (λ km, m_user_uuid km.2 ≠ u) (members_of w) ∧ in_order e w' ∧ tick w ≤ tick w').
Proof.
  intros Hw. unfold Membership_delete_all_by_user, Membership_find_any_state_by_user, members. do 3 wp_step.
  apply wp_delete_loaded; [|done]. intros k m. unfold is_user. simpl. rewrite bool_decide_eq_true. split; [auto|].
  apply dec_stable.
Qed.
(** Nothing happens to the memberships, or the check succeeded and all those of
    the user go. *)
Definition user_deleted (u : string) (T T' : Members) : Prop :=
  T' = T ∨
  (T' = filter (λ km, m_user_uuid km.2 ≠ u) T ∧
   ∀ k m, T !! k = Some m → m_user_uuid m = u → is_confirmed_owner m = true → other_owner T (m_org_uuid m) k).
Definition deleting (u : string) (e : Env) (w w' : World) : Prop :=
  user_deleted u (members_of w) (members_of w') ∧ in_order e w' ∧ tick w ≤ tick w'.
Lemma deleting_calm u e w w1 w2 : deleting u e w w1 → calm_rel w1 w2 → deleting u e w w2.
Proof.
  intros (Hd & Ho & Ht) Hc. split; [by rewrite (calm_members _ _ Hc)|]. split; [by eapply in_order_calm|].
  pose proof (calm_tick _ _ Hc). lia.
Qed.
(** Before the memberships go, and after. *)
Lemma wp_deleting_bind {A B} u (m : M A) (k : A → M B) e w w1 :
  calm m → in_order e w → calm_rel w w1 →
  (∀ x w2, calm_rel w w2 → wp (k x) e w2 (λ _ w', deleting u e w w')) → wp (mbind m k) e w1 (λ _ w', deleting u e w w').
Proof.
  intros Hm Hw Hc Hk. apply wp_bind, (wp_within _ _ _ _ Hm). intros r w2 Hc2. assert (calm_rel w w2) as Hc' by by etrans.
  destruct r as [x|x|]; simpl; [by apply Hk|..]; (eapply deleting_calm; [|done]); by split; [left|].
Qed.
(** The rest of [User_delete] *)
Lemma calm_delete_user_rows u : calm (exec (λ d, (cascade_archives (λ k, k.1 = u) d) <| users := delete u (users d) |>
    <| sso_users := delete u (sso_users d) |>)).
Proof.
  apply within_exec. intros w. split; [done..|]. split; [|done]. simpl. intros x (k & r & [_ Hk]%lookup_delete_Some & Hx). by exists k, r.
Qed.
Lemma wp_User_delete u e w :
  in_order e w →
  wp (User_delete u) e w (λ _ w', deleting (u_uuid u) e w w').
Proof.
  intros Hw. unfold User_delete, Membership_find_confirmed_by_user, members. wp_step. wp_step. wp_step.
  apply wp_bind. eapply wp_mono; [by apply wp_check_owners|]. intros r w0 [-> Hcheck].
  destruct r as [[]|x|]; simpl; [|by split; [left|]..].
  assert (∀ k m, members_of w !! k = Some m → m_user_uuid m = u_uuid u → is_confirmed_owner m = true →
    other_owner (members_of w) (m_org_uuid m) k) as Hlast.
  { intros k m Hk Hu [Hr Hs]%confirmed_owner_spec. apply Hcheck; [done| |done]. apply elem_of_load. split; [|eauto].
    apply andb_true_iff. split; [by apply bool_decide_eq_true|by apply has_status_spec]. }
  apply wp_deleting_bind; [unfold Send_delete_all_by_user; solve_within|done..|]. intros _ w1 Hc1.
  apply wp_deleting_bind; [unfold EmergencyAccess_delete_all_by_user; solve_within|done..|]. intros _ w2 Hc2.
  apply wp_deleting_bind; [unfold EmergencyAccess_delete_all_by_grantee_email; solve_within|done..|]. intros _ w3 Hc.
  apply wp_bind. eapply wp_mono; [apply wp_delete_memberships; by eapply in_order_calm|].
  intros r w4 (-> & E & Hw4 & Ht). simpl. rewrite (calm_members _ _ Hc) in E. pose proof (calm_tick _ _ Hc).
  assert (deleting (u_uuid u) e w w4) as Hd by (split; [right; by rewrite E|split; [done|lia]]).
  eapply wp_mono; [|intros r w5 H5; by eapply deleting_calm, H5]. apply (wp_within (R := calm_rel)); [|done].
  unfold Cipher_delete_all_by_user, Favorite_delete_all_by_user, Folder_delete_all_by_user, Device_delete_all_by_user,
    TwoFactor_delete_all_by_user, TwoFactorIncomplete_delete_all_by_user. solve_within. apply calm_delete_user_rows.
Qed.

(** *** Inviting *)

Lemma wp_invited_user o email created e w :
  in_order e w →
  wp (invited_user o email created) e w (λ r w',
    members_of w' = members_of w ∧ in_order e w' ∧ tick w ≤ tick w' ∧
    ∀ u s b, r = Ok (u, s, b) →
      (s = MS_Invited ∨ s = MS_Accepted) ∧ (∀ i, tick w' ≤ i → uuid_at e i ≠ u_uuid u) ∧
      (∀ k m, members_of w !! k = Some m → m_org_uuid m = o → m_user_uuid m ≠ u_uuid u)).
Proof.
  intros Hw. pose proof Hw as [Hwf [Hinj Hun] Hkey]. unfold invited_user, User_find_by_mail. do 10 wp_step.
  - apply first_Some in Hm as [_ [k Hk]]. unfold Membership_find_by_user_and_org, member. wp_go; [|done]. split_and!; [done..|].
    intros u s b [= <- <- <-]. split_and!.
    + case_match; auto.
    + intros i Hi E. destruct (Hun i Hi) as [Hu _]. apply Hu. exists k, a. by split.
    + intros k' m Hk' Ho E. destruct (first _ (members_of w)) eqn:Hf; [done|].
      rewrite first_None in Hf. specialize (Hf _ _ Hk'). unfold is_user, is_org in Hf.
      by rewrite !bool_decide_eq_true_2 in Hf.
  - repeat read_step; [|done..]. apply wp_bind, wp_reads; [auto with frame|]. intros [eligible|x|]; simpl; [|done..].
    repeat read_step; [|done..]. apply wp_bind. assert (calm (if mail_enabled (cfg e) then mret tt
      else let* invitation := Invitation_new email in Invitation_save invitation)) as Hcalm by solve_within.
    apply (wp_calm_step e _ _ _ Hcalm Hw). intros r w1 Hc1 Hw1.
    pose proof (calm_members _ _ Hc1) as E1. pose proof (calm_tick _ _ Hc1) as T1.
    destruct r as [[]|x|]; simpl; [|by split_and!..].
    unfold User_new, get_random_bytes, User_save. wp_go; simpl.
    + split_and!; [done| |lia|].
      * split; [apply Hw1| |apply Hw1]. destruct Hw1 as [_ [_ Hun1] _]. split; [done|]. simpl. intros i Hi.
        destruct (Hun1 i ltac:(lia)) as (H1 & H2 & H3). split_and!; [|done..]. simpl.
        intros (k & u & [[<- <-]|[_ Hk]]%lookup_insert_Some & Hid); [|apply H1; by exists k, u].
        simpl in Hid. apply Hinj in Hid. lia.
      * intros u s b [= <- <- <-]. split_and!; [auto|simpl; intros i Hi Hid%Hinj; lia|].
        simpl. intros k m Hk _. destruct (Hun (tick w1) ltac:(lia)) as (_ & _ & H3). by apply (H3 k m Hk).
    + split_and!; [done| |lia|done]. eapply in_order_calm; [exact Hw1|]. split; simpl; [done|lia|by split].
Qed.

Lemma unused_insert d d' x m :
  unused d x → users_organizations d' = <[m_uuid m := m]> (users_organizations d) →
  (∀ y, user_id (users d') y → user_id (users d) y) → m_uuid m ≠ x → m_user_uuid m ≠ x → m_org_uuid m ≠ x → unused d' x.
Proof.
  intros (H1 & H2 & H3) E Hu ? ? ?. unfold unused. rewrite E. split_and!; [auto|by simplify_map_eq|].
  intros k m' [[<- <-]|[_ ?]]%lookup_insert_Some; [done|eauto].
Qed.

(** A new row, of identifiers that will not be drawn again. *)
Lemma in_order_new e w w' m :
  in_order e w → members_of w' = <[m_uuid m := m]> (members_of w) → tick w ≤ tick w' → settled w w' →
  members_wf (members_of w') →
  (∀ i, tick w' ≤ i → m_uuid m ≠ uuid_at e i ∧ m_user_uuid m ≠ uuid_at e i ∧ m_org_uuid m ≠ uuid_at e i) →
  in_order e w'.
Proof.
  intros Hw E Ht [Hus Ho] Hwf Hids. split; [done| |apply Ho, Hw]. destruct (order_fresh _ _ Hw) as [Hinj Hun].
  split; [done|]. intros i Hi. destruct (Hids i Hi) as (? & ? & ?).
  eapply (unused_insert (db w)); [apply Hun; lia|done..].
Qed.

Section inviting.
Context (h : OrgSession) (e : Env) (Hconf : is_confirmed h = true).
Abbreviation me := (actor_of h true).

Lemma wp_mail_invite user m t s created w :
  in_order e w → members_of w !! m_uuid m = Some m → m_org_uuid m = os_org_id h → m_user_uuid m = u_uuid user →
  has_role m t → t = MT_User ∨ ac_owner me = true → in_state m s → s = MS_Invited ∨ s = MS_Accepted →
  wp (mail_invite user (os_org_id h) m h created) e w (λ _ w', followed me e w w').
Proof.
  intros Hw Hk Ho Hu Ht Hp Hs Hs'. unfold mail_invite. read_on. calm_bind. destruct x as [x|]; [|read_on].
  assert (is_confirmed_owner m = false) as Hno by (eapply not_owner_state; [done|naive_solver]).
  assert (has_role m MT_User ∨ ac_owner me = true) as Hrole by (destruct Hp as [->|]; auto).
  destruct created.
  - apply wp_bind. eapply wp_mono; [by apply wp_User_delete|]. intros r w1 (Hd & Hw1 & Ht1).
    assert (followed me e w0 w1) as Hf; [|by destruct r]. split; [|done..].
    destruct Hd as [->|[-> Hlast]]; [done|]. apply rtc_once, step_delete_user; [done..|].
    intros k' m' Hk' Hu' Ho'. simpl in Ho'.
    assert (k' = m_uuid m) as -> by (eapply (wf_unique _ (order_wf _ _ Hw0)); [done..|congruence|congruence]).
    simplify_eq. split; [|done]. destruct Hs' as [->| ->]; auto.
  - apply wp_then_calm; [|intros; apply within_reads; solve_reads]. eapply follows_gone; [done..|].
    eapply step_remove; [done..|]. congruence.
Qed.
Lemma wp_invite_one data t acc created email w :
  t = MT_User ∨ ac_owner me = true → in_order e w → (∀ i, tick w ≤ i → uuid_at e i ≠ os_org_id h) →
  wp (invite_one (os_org_id h) data h t acc created email) e w (λ _ w', followed me e w w').
Proof.
  intros Hp Hw Horg. unfold invite_one. apply wp_bind. eapply wp_mono; [by apply wp_invited_user|].
  intros r w1 (E1 & Hw1 & T1 & Hr). destruct r as [[[user s] b]|x|]; simpl; [|by split; [rewrite E1|..]..].
  destruct (Hr user s b eq_refl) as (Hs & Hfut & Huniq). unfold Membership_new. do 5 wp_step. unfold bind_post at 1.
  match goal with |- wp (mbind (Membership_save ?m) _) _ ?w2 _ => set (m0 := m); set (w2' := w2) end.
  assert (in_order e w2') as Hw2. { eapply in_order_calm; [exact Hw1|]. split; simpl; [done|lia|by split]. }
  apply wp_bind, wp_Membership_save. intros w3 E3 T3 U3. simpl.
  assert (member_step me (members_of w1) (members_of w3)) as Hstep.
  { rewrite E3. eapply (step_invite _ _ m0); [|done| |done..].
    - apply (fresh_unused e w1 (order_fresh _ _ Hw1) (tick w1)). done.
    - rewrite E1. done. }
  assert (in_order e w3) as Hw3.
  { eapply in_order_new; [exact Hw2|exact E3|lia|done|by eapply step_wf, Hstep; apply Hw1|].
    destruct (order_fresh _ _ Hw1) as [Hinj Hun]. intros i Hi. rewrite T3 in Hi. simpl in Hi. simpl. split_and!.
    - intros ?%Hinj. lia.
    - apply not_eq_sym, Hfut. lia.
    - apply not_eq_sym, Horg. lia. }
  assert (followed me e w w3) as Hf.
  { split; [rewrite <- E1; by apply rtc_once|done|]. rewrite T3. simpl. lia. }
  eapply wp_mono; [|intros r w4 H4; by eapply followed_trans, H4].
  apply wp_calm_bind; [apply within_reads; solve_reads|done|]. intros mail w4 Hc4 Hw4.
  apply wp_then_calm; [|intros; unfold add_collections, add_groups; solve_within].
  destruct mail; [|by apply followed_refl]. eapply (wp_mail_invite _ _ t s); [done| |done..].
  rewrite (calm_members _ _ Hc4), E3. apply lookup_insert_eq.
Qed.
Lemma wp_invite_all data t acc created emails w :
  t = MT_User ∨ ac_owner me = true → in_order e w → (∀ i, tick w ≤ i → uuid_at e i ≠ os_org_id h) →
  wp (invite_all (os_org_id h) data h t acc created emails) e w (λ _ w', followed me e w w').
Proof.
  intros Hp. revert created w. induction emails as [|email emails IH]; intros created w Hw Horg; simpl.
  { by apply wp_mret, followed_refl. }
  apply wp_bind. eapply wp_mono; [by apply wp_invite_one|]. intros [c|x|] w1 H1; simpl; try done.
  eapply wp_mono; [apply IH; [apply H1|]|].
  - intros i Hi. apply Horg. pose proof (followed_tick _ _ _ _ H1). lia.
  - intros r w2 H2. by eapply followed_trans.
Qed.
Lemma follows_send_invite o data k w :
  in_order e w → session_row h (members_of w) k →
  wp (send_invite o data h) e w (λ _ w', followed me e w w').
Proof.
  intros Hw (Hk & _). unfold send_invite. read_on. apply bool_decide_eq_true in Hc as ->.
  unfold InviteData_validate. calm_bind. read_on. apply wp_invite_all; [|done|].
  - apply orb_true_iff in Hc as [Ht%bool_decide_eq_true|Hown]; [by left|right]. simpl. by rewrite Hconf, Hown.
  - intros i Hi E. destruct (fresh_unused _ _ (order_fresh _ _ Hw0) i Hi) as (_ & _ & Hrow). by destruct (Hrow _ _ Hk).
Qed.
End inviting.
