(* ===== verification/OrgRequests.v ===== *)
(** * Requests to the organization endpoints

    The handlers of [Members] and [OrgCollections] that write to the database,
    each behind its request guard, as one function from requests to runs; and
    what any sequence of such requests keeps: the table of memberships stays in
    order, an organization keeps a confirmed owner until it is deleted, and only
    owners change owners. *)

From stdpp Require Import base strings numbers pretty gmap list relations.
From S2P Require Import Prelude Store JsonUtil Queries Users Orgs AuthRequests TwoFactor Sends Collections Folders.
From S2P Require Import Login Sessions SessionSafety Ciphers Vault Signups EmergencyAccess Profiles Members OrgCollections.
From S2P Require Import VaultSafety MemberProtocol MemberSafety.

(** ** Requests and their handlers *)

(** Under [/organizations/<org_id>/], and the import of ciphers. *)
Inductive OrgCall :=
  | DeleteOrganization (data : PasswordOrOtpData)
  | LeaveOrganization
  | PostOrganization (data : OrganizationUpdateData)
  | PostOrgKeys (data : OrgKeyData)
  | SendInvite (data : InviteData)
  | ReinviteMember (member_id : string)
  | BulkReinviteMembers (ids : list string)
  | ConfirmInvite (member_id : string) (data : ConfirmData)
  | BulkConfirmInvite (keys : option (list ConfirmData))
  | EditMember (member_id : string) (data : EditUserData)
  | DeleteMember (member_id : string)
  | BulkDeleteMember (ids : list string)
  | RevokeMember (member_id : string)
  | BulkRevokeMembers (ids : option (list string))
  | RestoreMember (member_id : string)
  | BulkRestoreMembers (ids : list string)
  | PutPolicy (pol_type : Z) (data : PolicyData)
  | PutResetPassword (member_id new_master_password_hash key : string)
  | PutResetPasswordEnrollment (user_id : string) (data : ResetEnrollmentData)
  | PostApiKey (data : PasswordOrOtpData)
  | RotateApiKey (data : PasswordOrOtpData)
  | PostCollections (data : FullCollectionData)
  | PostBulkAccess (data : BulkCollectionAccessData)
  | UpdateCollection (col_id : string) (data : FullCollectionData)
  | DeleteCollection (col_id : string)
  | BulkDeleteCollections (ids : list string)
  | PostGroups (data : GroupRequest)
  | PutGroup (group_id : string) (data : GroupRequest)
  | DeleteGroup (group_id : string)
  | BulkDeleteGroups (ids : list string)
  | PutGroupMembers (group_id : string) (assigned_members : list string)
  | DeleteGroupMember (group_id member_id : string)
  | PostOrgImport (data : OrgImportData).
(** For any user. *)
Inductive UserCall :=
  | CreateOrganization (data : OrgData)
  | AcceptInvite (member_id : string) (data : AcceptData)
  | PostBulkCollections (data : BulkCollectionsData).
Inductive OrgRequest := ByMember (c : OrgCall) | ByUser (c : UserCall).

(** The guard in the signature of the handler; the handlers of one collection
    ask for the right to manage it besides. *)
Definition call_guard (c : OrgCall) : Guard :=
  match c with
  | DeleteOrganization _ | PostOrganization _ => OwnerGuard
  | LeaveOrganization | PutResetPasswordEnrollment _ _ | PostOrgImport _ => MemberGuard
  | PostCollections _ | PostBulkAccess _ | BulkDeleteCollections _ | UpdateCollection _ _ | DeleteCollection _ => ManagerGuard
  | _ => AdminGuard
  end.
(** The identifiers in the path, after the organization. *)
Definition call_segments (c : OrgCall) : list string :=
  match c with
  | ReinviteMember id | ConfirmInvite id _ | EditMember id _ | DeleteMember id | RevokeMember id | RestoreMember id
  | PutResetPassword id _ _ | PutResetPasswordEnrollment id _ | UpdateCollection id _ | DeleteCollection id
  | PutGroup id _ | DeleteGroup id | PutGroupMembers id _ => [id]
  | DeleteGroupMember group_id member_id => [group_id; member_id]
  | _ => []
  end.

(** [#[derive(UuidFromParam)]]: a segment of the path must be a UUID. *)
Definition from_param (param : string) : M (option string) :=
  ask (λ e, if bool_decide (is_Some (uuid_parse_str e param)) then Some param else None).
(** A segment that does not parse means that there is no such route. *)
Definition route_param (o : option string) : M string :=
  match o with
  | Some p => let* id := from_param p in match id with Some id => mret id | None => err_code "Not Found" 404 end
  | None => err_code "Not Found" 404
  end.

Section requests.
Context `{!Serde ProtectedActionData pa_stored, !Serde EmailTokenData id, !Serde UserStampException id} `{FL : FileLinks}.
Context (decode_invite : string → res Error InviteJwtClaims) (svc : Services).
(** The host name of the request *)
Context (host : string).

Definition run_call (c : OrgCall) (org_id : string) (h : OrgSession) : M unit :=
  match c with
  | DeleteOrganization data => delete_organization org_id data h
  | LeaveOrganization => leave_organization org_id h
  | PostOrganization data => mdrop (post_organization org_id h data)
  | PostOrgKeys data => mdrop (post_org_keys org_id data h)
  | SendInvite data => Members.send_invite org_id data h
  | ReinviteMember id => reinvite_member org_id id h
  | BulkReinviteMembers ids => mdrop (bulk_reinvite_members org_id ids h)
  | ConfirmInvite id data => confirm_invite org_id id data h
  | BulkConfirmInvite keys => mdrop (bulk_confirm_invite org_id keys h)
  | EditMember id data => edit_member org_id id data h
  | DeleteMember id => delete_member org_id id h
  | BulkDeleteMember ids => mdrop (bulk_delete_member org_id ids h)
  | RevokeMember id => revoke_member org_id id h
  | BulkRevokeMembers ids => mdrop (bulk_revoke_members org_id ids h)
  | RestoreMember id => restore_member org_id id h
  | BulkRestoreMembers ids => mdrop (bulk_restore_members org_id ids h)
  | PutPolicy t data => mdrop (put_policy org_id t data h)
  | PutResetPassword id hash key => put_reset_password org_id id hash key h
  | PutResetPasswordEnrollment user data => put_reset_password_enrollment org_id user data h
  | PostApiKey data => mdrop (post_api_key org_id data h)
  | RotateApiKey data => mdrop (rotate_api_key org_id data h)
  | PostCollections data => mdrop (post_organization_collections org_id h data)
  | PostBulkAccess data => post_bulk_access_collections org_id h data
  | UpdateCollection col data => mdrop (post_organization_collection_update org_id col h data)
  | DeleteCollection col => delete_organization_collection org_id col h
  | BulkDeleteCollections ids => bulk_delete_organization_collections org_id h ids
  | PostGroups data => mdrop (post_groups org_id h data)
  | PutGroup id data => mdrop (put_group org_id id data h)
  | DeleteGroup id => delete_group org_id id h
  | BulkDeleteGroups ids => bulk_delete_groups org_id ids h
  | PutGroupMembers id members => put_group_members org_id id h members
  | DeleteGroupMember group id => post_delete_group_member org_id group id h
  | PostOrgImport data => post_org_import org_id host data h
  end.
Definition run_user_call (c : UserCall) (rq : Request) (headers : Headers) : M unit :=
  match c with
  | CreateOrganization data => mdrop (create_organization headers data)
  | AcceptInvite member_id data =>
     let* org_id := route_param (rq_param_1 rq) in
     let* member_id := route_param (Some member_id) in
     Members.accept_invite decode_invite org_id member_id data headers
  | PostBulkCollections data => post_bulk_collections data headers
  end.

Definition guard_call (c : OrgCall) (rq : Request) : M OrgSession :=
  match c with
  | UpdateCollection col _ | DeleteCollection col => ManagerHeaders_from_request svc rq (Some col) None
  | _ => run_guard svc (call_guard c) rq
  end.
(** The organization of the request: a segment of the path, or a query value
    for the import. *)
Definition call_org (c : OrgCall) (rq : Request) : M string :=
  match c with
  | PostOrgImport _ =>
     match rq_organizationId rq with Some org_id => mret org_id | None => err_code "Not Found" 404 end
  | _ => route_param (rq_param_1 rq)
  end.
Definition serve_org (r : OrgRequest) (rq : Request) : M unit :=
  match r with
  | ByMember c =>
     let* h := guard_call c rq in
     let* org_id := call_org c rq in
     do* for_each (call_segments c) (λ s, mdrop (route_param (Some s))) in
     run_call c org_id h
  | ByUser c =>
     let* s := Headers_from_request svc rq in
     run_user_call c rq (mkHeaders (sn_user s) (d_atype (sn_device s)) (sn_ip s) host)
  end.
End requests.

(** ** Handlers that leave memberships alone *)

(** A user who was known is saved. *)
Lemma wp_save_known u e w w1 :
  user_id (users (db w)) (u_uuid u) → calm_rel w w1 → wp (User_save u) e w1 (λ _ w', calm_rel w w').
Proof.
  intros Hu [Hm Ht [Hus Ho]]. unfold User_save. wp_go; [|done]. split; simpl; [done..|]. split; [|done]. simpl.
  intros x (k & u' & [[_ <-]|[_ Hk]]%lookup_insert_Some & <-); [done|]. apply Hus. by exists k, u'.
Qed.
Lemma row_user_id (d : Db) k u : users d !! k = Some u → user_id (users d) (u_uuid u).
Proof. intros Hk. by exists k, u. Qed.

Lemma calm_err_code {A} msg code : calm (err_code (A := A) msg code).
Proof. apply within_reads. solve_reads. Qed.
Lemma calm_route_param o : calm (route_param o).
Proof. unfold route_param, from_param. solve_within. Qed.
#[export] Hint Resolve calm_route_param : within.

Section calm.
Context `{!Serde ProtectedActionData pa_stored, !Serde EmailTokenData id, !Serde UserStampException id} `{FL : FileLinks}.
Context (svc : Services) (host : string).

Lemma calm_Headers rq : calm (Headers_from_request svc rq).
Proof.
  intros e w. unfold Headers_from_request, some_or_401, err_handler, Device_find_by_uuid_and_user, User_find_by_uuid.
  unfold check_stamp_exception, some_or_401, err_handler. wp_go; try done.
  eapply wp_mono; [apply (wp_save_known _ e w w); [by apply (row_user_id (db w) _ a2 Hm2)|done]|]. by intros [] w' Hc.
Qed.
Hint Resolve calm_Headers : within.
Lemma calm_OrgHeaders rq : calm (OrgHeaders_from_request svc rq).
Proof. unfold OrgHeaders_from_request, get_org_id, some_or_401, err_handler. solve_within. Qed.
Hint Resolve calm_OrgHeaders : within.
Lemma calm_guard_call c rq : calm (guard_call svc c rq).
Proof.
  assert (∀ g, calm (run_guard svc g rq)) as Hrun.
  { intros []; unfold run_guard, OrgMemberHeaders_from_request, ManagerHeadersLoose_from_request, AdminHeaders_from_request,
      OwnerHeaders_from_request, err_handler; solve_within. }
  destruct c; try apply Hrun; unfold guard_call, ManagerHeaders_from_request, get_col_id, err_handler; solve_within.
Qed.
Lemma calm_call_org c rq : calm (call_org c rq).
Proof. unfold call_org. destruct c; solve_within. Qed.

(** Settings of the organization *)
Lemma calm_post_organization o h data : calm (post_organization o h data).
Proof. unfold post_organization, same_org, Organization_find_by_uuid, Organization_to_json. solve_within. Qed.
Lemma calm_post_org_keys o data h : calm (post_org_keys o data h).
Proof. unfold post_org_keys, same_org, Organization_find_by_uuid. solve_within. Qed.
Lemma calm_api_key o data rotate h : calm (api_key o data rotate h).
Proof. unfold api_key, same_org, OrganizationApiKey_new, generate_api_key. solve_within. Qed.

(** Collections *)
Lemma calm_assign_groups o c l : calm (assign_groups o c l).
Proof. unfold assign_groups. solve_within. Qed.
Lemma calm_assign_users o c l : calm (assign_users o c l).
Proof. unfold assign_users. solve_within. Qed.
Hint Resolve calm_assign_groups calm_assign_users : within.
Lemma calm_replace_access o c groups users : calm (replace_access o c groups users).
Proof. unfold replace_access. solve_within. Qed.
Lemma calm_to_json_details c u s : calm (Collection_to_json_details c u s).
Proof. unfold Collection_to_json_details, Collection_to_json_details_fields, details_from_db. solve_within. Qed.
Lemma calm_validate_collection data o : calm (FullCollectionData_validate data o).
Proof. unfold FullCollectionData_validate. solve_within. Qed.
Hint Resolve calm_replace_access calm_to_json_details calm_validate_collection : within.
Lemma calm_post_collections o h data : calm (post_organization_collections o h data).
Proof. unfold post_organization_collections, same_org, Collection_new. solve_within. Qed.
Lemma calm_bulk_access o h data : calm (post_bulk_access_collections o h data).
Proof. unfold post_bulk_access_collections, bulk_access_one, same_org. solve_within. Qed.
Lemma calm_update_collection o c h data : calm (post_organization_collection_update o c h data).
Proof. unfold post_organization_collection_update, same_org. solve_within. Qed.
Lemma calm_delete_collection o c h : calm (delete_organization_collection_impl o c h).
Proof. unfold delete_organization_collection_impl, same_org. solve_within. Qed.
Hint Resolve calm_delete_collection : within.
Lemma calm_bulk_delete_collections o h ids : calm (bulk_delete_organization_collections o h ids).
Proof. unfold bulk_delete_organization_collections, ManagerHeaders_from_loose, same_org. solve_within. Qed.

(** Groups *)
Lemma calm_assign_members o g h l : calm (assign_members o g h l).
Proof. unfold assign_members. solve_within. Qed.
Hint Resolve calm_assign_members : within.
Lemma calm_add_update_group g cols l o h : calm (add_update_group g cols l o h).
Proof. unfold add_update_group. solve_within. Qed.
Lemma calm_validate_group data o : calm (GroupRequest_validate data o).
Proof. unfold GroupRequest_validate. solve_within. Qed.
Hint Resolve calm_add_update_group calm_validate_group : within.
Lemma calm_post_groups o h data : calm (post_groups o h data).
Proof. unfold post_groups, same_org, groups_supported, GroupRequest_to_group, Group_new. solve_within. Qed.
Lemma calm_put_group o g data h : calm (put_group o g data h).
Proof. unfold put_group, same_org, groups_supported. solve_within. Qed.
Lemma calm_delete_group o g h : calm (delete_group_impl o g h).
Proof. unfold delete_group_impl, same_org, groups_supported. solve_within. Qed.
Hint Resolve calm_delete_group : within.
Lemma calm_bulk_delete_groups o ids h : calm (bulk_delete_groups o ids h).
Proof. unfold bulk_delete_groups, same_org, groups_supported. solve_within. Qed.
Lemma calm_put_group_members o g h l : calm (put_group_members o g h l).
Proof. unfold put_group_members, same_org, groups_supported. solve_within. Qed.
Lemma calm_delete_group_member o g m h : calm (post_delete_group_member o g m h).
Proof. unfold post_delete_group_member, same_org, groups_supported. solve_within. Qed.

(** Ciphers *)
Lemma calm_update_attachments c l : calm (update_attachments c l).
Proof.
  induction l as [|[id att] l IH]; simpl; [solve_within|]. unfold Attachment_find_by_id, Attachment_save. solve_within.
Qed.
Lemma calm_Cipher_save c : calm (Cipher_save c).
Proof.
  unfold Cipher_save. solve_within. apply calm_exec; intros d; unfold save_cipher_row; by case_match.
Qed.
Lemma calm_move_to_folder c f u : calm (Cipher_move_to_folder c f u).
Proof.
  unfold Cipher_move_to_folder, FolderCipher_save, FolderCipher_delete. solve_within.
Qed.
Lemma calm_set_favorite c b u : calm (Cipher_set_favorite c b u).
Proof. unfold Cipher_set_favorite, Favorite_set_favorite. solve_within; repeat case_match; solve_within. Qed.
Lemma calm_archived_date c dt u : calm (set_archived_date c dt u).
Proof. unfold set_archived_date, Cipher_set_archived_at, Archive_save. solve_within. Qed.
Lemma calm_update_cipher c data h sh : calm (update_cipher_from_data c data h sh UpdateNone).
Proof.
  unfold update_cipher_from_data. rewrite (bool_decide_eq_true_2 (UpdateNone = UpdateNone)) by done.
  pose proof calm_update_attachments. pose proof calm_Cipher_save. pose proof calm_move_to_folder.
  pose proof calm_set_favorite. pose proof calm_archived_date.
  repeat lazymatch goal with |- within _ (mbind _ _) => apply within_bind; [|intros ?] end;
    try solve [auto|apply within_mret]; apply within_reads.
  - apply reads_ownership_policy.
  - solve_reads.
  - apply reads_check_note.
  - apply reads_assign_owner.
  - unfold check_folder. solve_reads.
  - apply reads_assign_contents.
Qed.
Lemma calm_post_org_import o data h : calm (post_org_import o host data h).
Proof.
  unfold post_org_import, same_org, import_collection, import_cipher, Collection_new, Cipher_new, Cipher_validate_cipher_data, mdrop.
  pose proof calm_update_cipher. solve_within.
  - case_match; [solve_within|]. apply within_reads. solve_reads.
  - apply calm_collect. unfold Collection_can_access_collection. solve_within.
  - apply calm_collect. solve_within.
Qed.
Lemma calm_post_bulk_collections data h : calm (post_bulk_collections data h).
Proof.
  unfold post_bulk_collections, check_collections, bulk_collections_cipher. solve_within.
  apply within_reads, reads_has_write.
Qed.

(** The password of a member: the row saved is one that was found. *)
Lemma wp_set_password_uuid u pw key e w :
  wp (User_set_password u pw key true None) e w (λ r _, ∀ u', r = Ok u' → u_uuid u' = u_uuid u).
Proof.
  unfold User_set_password, User_reset_security_stamp, hash_password. wp_go; try done; apply wp_intro;
    intros [[]|x|] w' _; simpl; try done; (apply wp_mret; intros u' [= <-]; by destruct key).
Qed.
Lemma calm_reset_applicable o id h : calm (check_reset_password_applicable_and_permissions o id h).
Proof.
  unfold check_reset_password_applicable_and_permissions, check_reset_password_applicable. solve_within.
  case_match; solve_within.
Qed.
Lemma calm_put_reset_password o id pw key h : calm (put_reset_password o id pw key h).
Proof.
  intros e w. unfold put_reset_password. repeat read_step; try done.
  apply wp_bind, (wp_within _ _ _ _ (calm_reset_applicable _ _ _)). intros [[]|x|] w1 Hc1; simpl; try done.
  repeat read_step; try done.
  apply wp_bind, (wp_within _ _ _ _ (calm_outcome _ (within_send_mail _))). intros [x|x|] w2 Hcm; simpl; [|by etrans..].
  destruct x as [x|]; repeat read_step; [by etrans|].
  apply wp_bind, wp_intro. intros r w3 Hrun.
  pose proof (wp_run _ _ _ _ (wp_set_password_uuid _ _ _ e w2) _ _ Hrun) as Hid.
  pose proof (wp_run _ _ _ _ (calm_set_password _ _ _ _ _ e w2) _ _ Hrun) as Hc3.
  assert (calm_rel w w3) as Hcw by (etrans; [|exact Hc3]; by etrans).
  destruct r as [u'|x|]; simpl; [|done..]. apply wp_bind. eapply wp_mono.
  { apply (wp_save_known u' e w w3); [|done]. rewrite (Hid u' eq_refl). by eapply row_user_id. }
  intros [u2|x|] w4 Hc4; simpl; [|done..]. apply (wp_within _ _ _ _ (calm_log_org _ _ _ _)). intros r w5 Hc5. by etrans.
Qed.
End calm.
#[export] Hint Resolve calm_post_organization calm_post_org_keys calm_api_key calm_post_collections calm_bulk_access
  calm_update_collection calm_delete_collection calm_bulk_delete_collections calm_post_groups calm_put_group
  calm_delete_group calm_bulk_delete_groups calm_put_group_members calm_delete_group_member calm_post_org_import
  calm_post_bulk_collections calm_put_reset_password : within.

(** ** Handlers behind their guards *)

Definition invites (c : OrgCall) : bool := match c with SendInvite _ => true | _ => false end.
Definition imports (c : OrgCall) : bool := match c with PostOrgImport _ => true | _ => false end.
Definition deletes (c : OrgCall) : bool := match c with DeleteOrganization _ => true | _ => false end.

Section requests.
Context `{!Serde ProtectedActionData pa_stored, !Serde EmailTokenData id, !Serde UserStampException id} `{FL : FileLinks}.
Context (decode_invite : string → res Error InviteJwtClaims) (svc : Services) (host : string).

(** What a guard found out: a session, with the role and state it asks for. *)
Definition let_through (c : OrgCall) (e : Env) (d : Db) (rq : Request) (h : OrgSession) : Prop :=
  org_session_of svc e d rq h ∧ (call_guard c ≠ MemberGuard → is_confirmed h = true) ∧
  (call_guard c = OwnerGuard → is_owner h = true).
Lemma run_guard_through c rq e w h w' :
  run_guard svc (call_guard c) rq e w = (Ok h, w') → w' = w ∧ let_through c e (db w) rq h.
Proof.
  unfold let_through. destruct (call_guard c); simpl; unfold OrgMemberHeaders_from_request, ManagerHeadersLoose_from_request,
    AdminHeaders_from_request, OwnerHeaders_from_request; rewrite guarded_Ok; intros (-> & Hs & Hp); split_and!; try done;
    intros; by apply andb_true_iff in Hp as [? ?].
Qed.
Lemma manager_through rq col e w h w' :
  ManagerHeaders_from_request svc rq (Some col) None e w = (Ok h, w') →
  w' = w ∧ org_session_of svc e (db w) rq h ∧ is_confirmed h = true.
Proof.
  intros Hrun. assert (wp (ManagerHeaders_from_request svc rq (Some col) None) e w (λ r w', ∀ h, r = Ok h →
    w' = w ∧ org_session_of svc e (db w) rq h ∧ is_confirmed h = true)) as Hwp; [|by apply (wp_run _ _ _ _ Hwp _ _ Hrun)].
  unfold ManagerHeaders_from_request, err_handler. apply wp_bind, wp_intro. intros r w1 Hrun1.
  destruct r as [h1|x|]; simpl; try done. apply OrgHeaders_from_request_Ok in Hrun1 as [-> Hs].
  wp_step; [|done]. apply andb_true_iff in Hb as [Hconf _]. unfold get_col_id. repeat wp_step; try done.
  apply wp_reads; [unfold Collection_is_coll_manageable_by_user; solve_reads|]. intros [[]|x|]; simpl; try done. by intros h2 [= <-].
Qed.
Lemma guard_call_through c rq e w h w' :
  guard_call svc c rq e w = (Ok h, w') → w' = w ∧ let_through c e (db w) rq h.
Proof.
  destruct c; try apply run_guard_through; intros (-> & Hs & Hconf)%manager_through; by split_and!.
Qed.

Lemma org_session_row e w rq h :
  members_wf (members_of w) → org_session_of svc e (db w) rq h →
  session_row h (members_of w) (m_uuid (os_membership h)) ∧ request_org e rq = Some (os_org_id h).
Proof.
  intros Hwf (_ & org & Horg & Hm & Ht & Hs & _). apply first_Some in Hm as [[Hu Ho]%andb_true_iff [k Hk]].
  apply bool_decide_eq_true in Hu, Ho. unfold os_org_id. rewrite Ho. split; [|done].
  rewrite (wf_keyed _ Hwf _ _ Hk). by split_and!.
Qed.
Lemma route_param_Ok rq e w o w' : route_param (rq_param_1 rq) e w = (Ok o, w') → w' = w ∧ request_org e rq = Some o.
Proof.
  unfold route_param, from_param, request_org. destruct (rq_param_1 rq) as [p|]; [|done].
  cbv [mbind ask]. case_bool_decide; [|done]. by intros [= <- <-].
Qed.
Lemma call_org_Ok c rq e w o w' :
  call_org c rq e w = (Ok o, w') → w' = w ∧ (imports c = false → request_org e rq = Some o).
Proof.
  destruct c; try (intros [-> ?]%route_param_Ok; by split).
  simpl. destruct (rq_organizationId rq); [|done]. intros [= _ <-]. by split.
Qed.

Lemma follows_bulk_entry a e object id m : follows a e m → follows a e (bulk_entry object id m).
Proof.
  intros Hm. unfold bulk_entry. apply follows_bind; [by apply follows_outcome|]. intros x. apply follows_calm, within_mret.
Qed.
Lemma follows_bulk a e object ids f : (∀ id, follows a e (f id)) → follows a e (bulk_response object ids f).
Proof.
  intros Hf. unfold bulk_response. apply follows_bind; [|intros; apply follows_calm, within_mret].
  apply follows_collect. intros id. by apply follows_bulk_entry.
Qed.
Lemma follows_same_org {A} a e o h (k : unit → M A) :
  (o = os_org_id h → follows a e (k tt)) → follows a e (mbind (same_org o h) k).
Proof.
  intros Hk w Hw. read_step. read_step; [|by apply followed_refl]. apply bool_decide_eq_true in Hc. by apply Hk.
Qed.
(** Every handler but the deletion of the organization follows the rules. *)
Lemma follows_call c h org e k w :
  deletes c = false → in_order e w → session_row h (members_of w) k →
  (call_guard c ≠ MemberGuard → is_confirmed h = true) → (imports c = false → org = os_org_id h) →
  wp (run_call host c org h) e w (λ _ w', followed (actor_of h (invites c)) e w w').
Proof.
  intros Hdel Hw Hrow Hconf Horg.
  assert (∀ A (m : M A), calm m → wp (mdrop m) e w (λ _ w', followed (actor_of h (invites c)) e w w')) as Hdrop.
  { intros A m Hm. apply follows_mdrop; [by apply follows_calm|done]. }
  assert (∀ m : M unit, calm m → wp m e w (λ _ w', followed (actor_of h (invites c)) e w w')) as Hcalm.
  { intros m Hm. by apply follows_calm. }
  destruct c; try discriminate Hdel; try rewrite (Horg eq_refl); try specialize (Hconf ltac:(done)); simpl run_call;
    try (first [apply Hdrop|apply Hcalm]; solve [auto with within]).
  - by eapply follows_leave.
  - by eapply follows_send_invite.
  - apply follows_same_org; [intros _|done]. apply follows_reinvite.
  - apply follows_mdrop; [|done]. apply follows_same_org. intros _. apply follows_bulk. intros id. apply follows_reinvite.
  - by apply follows_confirm.
  - apply follows_mdrop; [|done]. apply follows_same_org. intros _. apply follows_bind; [|intros; apply follows_calm, within_mret].
    apply follows_collect. intros x. apply follows_bind; [apply follows_calm, within_reads; solve_reads|].
    intros id. by apply follows_bulk_entry, follows_confirm.
  - by apply follows_edit_member.
  - by apply follows_delete_member.
  - apply follows_mdrop; [|done]. apply follows_same_org. intros _. apply follows_bulk. intros id. by apply follows_delete_member.
  - by apply follows_revoke_member.
  - apply follows_mdrop; [|done]. apply follows_same_org. intros _. apply follows_bulk. intros id. by apply follows_revoke_member.
  - by apply follows_restore_member.
  - apply follows_mdrop; [|done]. apply follows_same_org. intros _. apply follows_bulk. intros id. by apply follows_restore_member.
  - apply follows_mdrop; [|done]. by apply (follows_put_policy (actor_of h false)).
  - by eapply follows_enroll.
  - apply Hdrop, calm_api_key.
  - apply Hdrop, calm_api_key.
Qed.

(** *** Organizations come and go *)

(** All memberships of the organization go. *)
Definition org_deleted (o : string) (T T' : Members) : Prop := T' = T ∨ T' = filter (λ km, m_org_uuid km.2 ≠ o) T.
Lemma wp_delete_all_members o e w :
  in_order e w →
  wp (Membership_delete_all_by_organization o) e w (λ r w', r = Ok tt ∧
    members_of w' = filter (λ km, m_org_uuid km.2 ≠ o) (members_of w) ∧ in_order e w' ∧ tick w ≤ tick w').
Proof.
  intros Hw. unfold Membership_delete_all_by_organization, Membership_find_by_org, members. do 3 wp_step.
  apply wp_delete_loaded; [|done]. intros k m. unfold is_org. simpl. rewrite bool_decide_eq_true. split; [auto|].
  apply dec_stable.
Qed.
(** What the deletion of [o] does. *)
Definition deleting_org (o : string) (e : Env) (w w' : World) : Prop :=
  org_deleted o (members_of w) (members_of w') ∧ in_order e w' ∧ tick w ≤ tick w'.
Lemma deleting_org_calm o e w w1 w2 : deleting_org o e w w1 → calm_rel w1 w2 → deleting_org o e w w2.
Proof.
  intros (Hd & Ho & Ht) Hc. split; [by rewrite (calm_members _ _ Hc)|]. split; [by eapply in_order_calm|].
  pose proof (calm_tick _ _ Hc). lia.
Qed.
Lemma calm_delete_org_row k : calm (exec (λ d, d <| organizations := delete k (organizations d) |>)).
Proof.
  apply within_exec. intros w. split; simpl; [done..|]. split; simpl; [done|].
  intros Hk k' o. simpl. intros [_ Ho]%lookup_delete_Some. by apply Hk.
Qed.
Hint Resolve calm_delete_org_row : within.
Lemma wp_Organization_delete org e w :
  in_order e w → wp (Organization_delete org) e w (λ _ w', deleting_org (o_uuid org) e w w').
Proof.
  intros Hw. unfold Organization_delete, Cipher_delete_all_by_organization, Collection_delete_all_by_organization.
  assert (deleting_org (o_uuid org) e w w) as H0 by (by split; [left|]).
  apply wp_bind. eapply wp_calm_step; [solve_within|done|]. intros [[]|x|] w1 Hc1 Hw1; simpl; [|by eapply deleting_org_calm..].
  apply wp_bind. eapply wp_calm_step; [solve_within|done|]. intros r w2 Hc2 Hw2.
  assert (calm_rel w w2) as Hc by by etrans. destruct r as [[]|x|]; simpl; [|by eapply deleting_org_calm..].
  apply wp_bind. eapply wp_mono; [by apply wp_delete_all_members|]. intros r w3 (-> & E3 & Hw3 & Ht3). simpl.
  assert (deleting_org (o_uuid org) e w w3) as H3.
  { split; [right; by rewrite E3, (calm_members _ _ Hc)|]. split; [done|]. pose proof (calm_tick _ _ Hc). lia. }
  unfold OrgPolicy_delete_all_by_organization, Group_delete_all_by_organization, OrganizationApiKey_delete_all_by_organization.
  eapply wp_calm_step; [solve_within|done|]. intros r w4 Hc4 _. by eapply deleting_org_calm.
Qed.
Lemma wp_delete_organization o data h e w :
  in_order e w → wp (delete_organization o data h) e w (λ _ w', deleting_org o e w w').
Proof.
  intros Hw. unfold delete_organization. assert (deleting_org o e w w) as H0 by (by split; [left|]).
  repeat read_step; [|done]. apply wp_bind. eapply wp_calm_step; [auto with within|done|].
  intros [[]|x|] w1 Hc1 Hw1; simpl; [|by eapply deleting_org_calm..].
  repeat read_step; [|by eapply deleting_org_calm]. apply (order_orgs _ _ Hw1) in Hm as <-.
  eapply wp_mono; [by apply wp_Organization_delete|]. intros r w2 (Hd & Hw2 & Ht).
  split; [by rewrite <- (calm_members _ _ Hc1)|]. split; [done|]. pose proof (calm_tick _ _ Hc1). lia.
Qed.

(** A new organization has a new identifier and its creator as confirmed owner. *)
Definition org_created (T T' : Members) : Prop :=
  T' = T ∨ ∃ m, T !! m_uuid m = None ∧ (∀ k m', T !! k = Some m' → m_org_uuid m' ≠ m_org_uuid m) ∧
    is_confirmed_owner m = true ∧ T' = <[m_uuid m := m]> T.
Definition creating (e : Env) (w w' : World) : Prop :=
  org_created (members_of w) (members_of w') ∧ in_order e w' ∧ tick w ≤ tick w'.
Lemma creating_calm e w w1 w2 : creating e w w1 → calm_rel w1 w2 → creating e w w2.
Proof.
  intros (Hd & Ho & Ht) Hc. split; [by rewrite (calm_members _ _ Hc)|]. split; [by eapply in_order_calm|].
  pose proof (calm_tick _ _ Hc). lia.
Qed.
Lemma wp_create_organization headers data e w :
  in_order e w → user_id (users (db w)) (u_uuid (h_user headers)) →
  wp (create_organization headers data) e w (λ _ w', creating e w w').
Proof.
  intros Hw Hu. unfold create_organization. assert (creating e w w) as H0 by (by split; [left|]).
  apply wp_bind, wp_reads; [unfold is_org_creation_allowed; solve_reads|]. intros [allowed|x|]; simpl; [|done..].
  read_step; [|done]. apply wp_bind, wp_reads; [apply reads_is_applicable|].
  intros [applicable|x|]; simpl; [|done..]. read_step; [|done].
  unfold Organization_new, Membership_new, Collection_new. do 20 wp_step. unfold bind_post at 1.
  match goal with |- wp (do* Organization_save ?o in _) _ ?w1 _ => set (org := o); set (w1' := w1) end.
  assert (calm_rel w w1') as Hc1 by (split; simpl; [done|lia|by split]).
  apply wp_bind. eapply (wp_calm_step e _ w1'); [auto with within|by eapply in_order_calm|].
  intros r w2 Hc2 Hw2. assert (calm_rel w w2) as Hcw by by etrans.
  destruct r as [[]|x|]; simpl; [|by eapply creating_calm..].
  match goal with |- wp (mbind (Membership_save ?m) _) _ _ _ => set (m0 := m) end.
  apply wp_bind, wp_Membership_save. intros w3 E3 T3 U3. simpl.
  destruct (order_fresh _ _ Hw) as [Hinj Hun]. pose proof (calm_tick _ _ Hc2) as Ht2. simpl in Ht2.
  assert (members_of w2 !! m_uuid m0 = None) as Hnew.
  { rewrite (calm_members _ _ Hcw). apply (Hun (S (tick w))). lia. }
  assert (∀ k m', members_of w2 !! k = Some m' → m_org_uuid m' ≠ m_org_uuid m0) as Horg.
  { intros k m' Hk. rewrite (calm_members _ _ Hcw) in Hk. apply (Hun (tick w) ltac:(lia)) in Hk. apply Hk. }
  assert (in_order e w3) as Hw3.
  { eapply in_order_new; [exact Hw2|exact E3|lia|done|..].
    - rewrite E3. apply wf_new; [apply Hw2|done|intros k m' Hk Ho; by destruct (Horg _ _ Hk)|by exists MT_Owner|].
      by apply (stored_of_state _ MS_Confirmed).
    - intros i Hi. rewrite T3 in Hi. simpl. split_and!; [intros ?%Hinj; lia| |intros ?%Hinj; lia].
      intros E. apply (Hun i ltac:(lia)). by rewrite <- E. }
  assert (creating e w w3) as H3.
  { split; [right; exists m0; rewrite <- (calm_members _ _ Hcw); by rewrite E3|]. split; [done|]. rewrite T3. lia. }
  eapply wp_calm_step; [unfold Organization_to_json; solve_within|exact Hw3|].
  intros r w4 Hc4 _. by eapply creating_calm.
Qed.

(** ** Requests *)

(** What a request may do to the memberships: nothing; steps of the member who
    makes it, as the rules allow; the end of an organization, for one of its
    owners; a new organization; an invitation accepted. *)
Inductive request_effect (e : Env) (d : Db) (rq : Request) (T : Members) : OrgRequest → Members → Prop :=
  | effect_none r : request_effect e d rq T r T
  | effect_member c h T' :
     let_through c e d rq h → request_org e rq = Some (os_org_id h) → deletes c = false →
     member_steps (actor_of h (invites c)) T T' → request_effect e d rq T (ByMember c) T'
  | effect_delete data h :
     let_through (DeleteOrganization data) e d rq h → request_org e rq = Some (os_org_id h) →
     request_effect e d rq T (ByMember (DeleteOrganization data)) (filter (λ km, m_org_uuid km.2 ≠ os_org_id h) T)
  | effect_create data m :
     T !! m_uuid m = None → (∀ k m', T !! k = Some m' → m_org_uuid m' ≠ m_org_uuid m) → is_confirmed_owner m = true →
     request_effect e d rq T (ByUser (CreateOrganization data)) (<[m_uuid m := m]> T)
  | effect_accept id data org T' :
     request_org e rq = Some org → member_steps (mkActor org "" false false) T T' →
     request_effect e d rq T (ByUser (AcceptInvite id data)) T'.

Definition served (r : OrgRequest) (rq : Request) (e : Env) (w w' : World) : Prop :=
  request_effect e (db w) rq (members_of w) r (members_of w') ∧ in_order e w' ∧ tick w ≤ tick w'.
Lemma served_calm r rq e w w' : in_order e w → calm_rel w w' → served r rq e w w'.
Proof.
  intros Hw Hc. split; [rewrite (calm_members _ _ Hc); constructor|]. split; [by eapply in_order_calm|apply Hc].
Qed.
(** A step that may fail, before the handler proper. *)
Lemma wp_served_bind {A} r rq (m : M A) (k : A → M unit) e w :
  calm m → in_order e w →
  (∀ x, m e w = (Ok x, w) → wp (k x) e w (λ _ w', served r rq e w w')) →
  (∀ x w', m e w = (Ok x, w') → w' = w) →
  wp (mbind m k) e w (λ _ w', served r rq e w w').
Proof.
  intros Hm Hw Hk Hpure. apply wp_bind, wp_intro. intros [x|x|] w1 Hrun; simpl.
  - pose proof (Hpure _ _ Hrun) as ->. by apply Hk.
  - apply served_calm; [done|]. by apply (wp_run _ _ _ _ (Hm e w) _ _ Hrun).
  - apply served_calm; [done|]. by apply (wp_run _ _ _ _ (Hm e w) _ _ Hrun).
Qed.
Lemma reads_route_param o : reads (route_param o).
Proof. unfold route_param, from_param. solve_reads. Qed.

Lemma wp_serve_member c rq e w :
  in_order e w → wp (serve_org decode_invite svc host (ByMember c) rq) e w (λ _ w', served (ByMember c) rq e w w').
Proof.
  intros Hw. unfold serve_org.
  apply wp_served_bind; [apply calm_guard_call|done| |by intros ? ? [? _]%guard_call_through]. intros h Hguard.
  apply guard_call_through in Hguard as [_ Hthrough]. pose proof Hthrough as (Hs & Hconf & _).
  destruct (org_session_row _ _ _ _ (order_wf _ _ Hw) Hs) as [Hrow Hpath].
  apply wp_served_bind; [apply calm_call_org|done| |by intros ? ? [? _]%call_org_Ok]. intros org Horg.
  apply call_org_Ok in Horg as [_ Horg].
  assert (reads (for_each (call_segments c) (λ s, mdrop (route_param (Some s))))) as Hread.
  { generalize (call_segments c). intros l. induction l; simpl; unfold mdrop; solve_reads; by try apply reads_route_param. }
  apply wp_served_bind; [by apply within_reads|done| |intros ? ?; by apply reads_Ok]. intros _ _.
  destruct (deletes c) eqn:Hd.
  - destruct c; try discriminate Hd. simpl run_call. assert (org = os_org_id h) as -> by (specialize (Horg eq_refl); congruence).
    eapply wp_mono; [by apply wp_delete_organization|]. intros r w' (Hdel & Hw' & Ht). split; [|done].
    destruct Hdel as [->| ->]; [constructor|]. by apply effect_delete.
  - eapply wp_mono; [eapply follows_call; [done..|]|].
    + intros Hi. specialize (Horg Hi). congruence.
    + intros r w' [Hsteps Hw' Ht]. split; [|done]. by eapply effect_member.
Qed.
Lemma wp_serve_user c rq e w :
  in_order e w → wp (serve_org decode_invite svc host (ByUser c) rq) e w (λ _ w', served (ByUser c) rq e w w').
Proof.
  intros Hw. unfold serve_org. apply wp_served_bind; [apply calm_Headers|done| |by intros ? ? [? _]%Headers_from_request_Ok].
  intros s Hs. apply Headers_from_request_Ok in Hs as [_ (claims & _ & _ & Hu & _)]. destruct c; cbv beta iota delta [run_user_call].
  - unfold mdrop. apply wp_bind. eapply wp_mono; [apply wp_create_organization; [done|]; by eapply row_user_id|].
    intros r w' (Hc & Hw' & Ht). assert (served (ByUser (CreateOrganization data)) rq e w w') as Hserved; [|by destruct r].
    split; [|done]. destruct Hc as [->|(m & Hnew & Horg & Hown & ->)]; [constructor|by apply effect_create].
  - apply wp_served_bind; [apply calm_route_param|done| |intros ? ?; apply reads_Ok, reads_route_param].
    intros org [_ Horg]%route_param_Ok.
    apply wp_served_bind; [apply calm_route_param|done| |intros ? ?; apply reads_Ok, reads_route_param].
    intros id _. eapply wp_mono; [by apply (follows_accept decode_invite (mkActor org "" false false))|].
    intros r w' [Hsteps Hw' Ht]. split; [|done]. by eapply effect_accept.
  - eapply wp_mono; [apply calm_post_bulk_collections|]. intros r w' Hc. by apply served_calm.
Qed.
Lemma wp_serve r rq e w :
  in_order e w → wp (serve_org decode_invite svc host r rq) e w (λ _ w', served r rq e w w').
Proof. destruct r; [apply wp_serve_member|apply wp_serve_user]. Qed.
End requests.
