(* ===== verification/InviteSafety.v ===== *)
(** * What an invitation does to other organizations

    [send_invite] of [Members] adds memberships of the inviting organization only.
    When the mail to an invitee fails, the account of the invitee may be deleted,
    and with it his memberships elsewhere: the lemmas here say that nothing else
    is lost, and that the account is one the request names. *)

From stdpp Require Import base strings numbers gmap list relations.
From S2P Require Import Prelude Store JsonUtil Queries Users Orgs AuthRequests TwoFactor TotpReplay OneTimeCodes Sends Collections.
From S2P Require Import Folders Login LoginSafety Sessions SessionSafety Ciphers Vault Signups EmergencyAccess Profiles Members.
From S2P Require Import OrgCollections MemberProtocol MemberSafety OrgRequests.

(** ** Accounts *)

(** Accounts keep identifier and address, and none comes. *)
Definition named_rel (w w' : World) : Prop :=
  ∀ k u, users (db w') !! k = Some u → ∃ u0, users (db w) !! k = Some u0 ∧ u_uuid u0 = u_uuid u ∧ u_email u0 = u_email u.
#[export] Instance named_world_rel : WorldRel named_rel.
Proof.
  split.
  - split; [intros w k u Hu; by exists u|]. intros w w1 w2 H1 H2 k u Hu. destruct (H2 k u Hu) as (u1 & Hu1 & ? & ?).
    destruct (H1 k u1 Hu1) as (u0 & ? & ? & ?). exists u0. split_and!; congruence.
  - intros w k u Hu. by exists u.
  - intros w l k u Hu. by exists u.
Qed.
Abbreviation named := (within named_rel).
Lemma named_exec f : (∀ d, users (f d) = users d) → named (exec f).
Proof. intros Hf. apply within_exec. intros w k u. simpl. rewrite Hf. intros Hu. by exists u. Qed.
#[local] Hint Extern 1 (named (exec _)) => apply named_exec; done : within.
Lemma named_revision_impl v t : named (User_update_revision_impl v t).
Proof.
  apply within_exec. intros w k u. simpl. destruct (decide (v = k)) as [->|Hne].
  - rewrite lookup_alter_eq. destruct (users (db w) !! k) as [u0|]; [|done]. intros [= <-]. by exists u0.
  - rewrite lookup_alter_ne by done. intros Hu. by exists u.
Qed.
#[local] Hint Resolve named_revision_impl : within.
Lemma named_revision v : named (User_update_uuid_revision v).
Proof. unfold User_update_uuid_revision. solve_within. Qed.
#[local] Hint Resolve named_revision : within.
Lemma named_Membership_save m : named (Membership_save m).
Proof. unfold Membership_save. solve_within. Qed.
Lemma named_log_org h t s o : named (log_org h t s o).
Proof. unfold log_org, log_event, log_event_impl, Event_new, Event_save. solve_within. Qed.
Lemma named_GroupUser_save x : named (GroupUser_save x).
Proof. unfold GroupUser_save, GroupUser_update_user_revision. solve_within. Qed.
Lemma named_CollectionUser_save u c r p m : named (CollectionUser_save u c r p m).
Proof. unfold CollectionUser_save. solve_within. Qed.
Lemma named_Invitation_save i : named (Invitation_save i).
Proof. unfold Invitation_save. solve_within. Qed.
#[local] Hint Resolve named_Membership_save named_log_org named_GroupUser_save named_CollectionUser_save named_Invitation_save : within.

Lemma named_outcome m : named m → named (outcome m).
Proof. intros Hm e w. specialize (Hm e w). unfold wp, outcome in *. by destruct (m e w) as [[] ?]. Qed.
Lemma named_mail m : named (send_mail m).
Proof. apply within_send_mail. Qed.
#[local] Hint Resolve named_outcome named_mail : within.

Lemma wp_and {A} (m : M A) e w (Φ Ψ : res Error A → World → Prop) :
  wp m e w Φ → wp m e w Ψ → wp m e w (λ r w', Φ r w' ∧ Ψ r w').
Proof. by split. Qed.

Section invitations.
Context (h : OrgSession) (e : Env) (emails : list string) (w0 : World).
Abbreviation o := (os_org_id h).
Context (Hw0 : in_order e w0).

(** The account was there at first, or has an identifier drawn since. *)
Definition account_since (u : User) : Prop :=
  (∃ k u0, users (db w0) !! k = Some u0 ∧ u_uuid u0 = u_uuid u ∧ u_email u0 = u_email u) ∨
  ∃ i, tick w0 ≤ i ∧ u_uuid u = uuid_at e i.
Definition accounts_since (w : World) : Prop := tick w0 ≤ tick w ∧ ∀ k u, users (db w) !! k = Some u → account_since u.
Lemma accounts_named w w' : accounts_since w → named_rel w w' → tick w ≤ tick w' → accounts_since w'.
Proof.
  intros [Ht H] Hn Ht'. split; [lia|]. intros k u Hu. destruct (Hn k u Hu) as (u1 & Hu1 & Ei & Em).
  destruct (H k u1 Hu1) as [(k0 & u0 & ? & ? & ?)|(i & ? & ?)]; [left; exists k0, u0|right; exists i]; split_and!; congruence.
Qed.
(** An account that was there at first has an address of the list. *)
Definition invitee (u : string) : Prop :=
  mail_enabled (cfg e) = true ∧ ∃ k usr email, users (db w0) !! k = Some usr ∧ u_uuid usr = u ∧
    email ∈ emails ∧ u_email usr = str_to_lowercase e email.
(** Other organizations keep their members, but for an invitee when inviting
    fails. *)
Definition invite_result {A} (r : res Error A) (w : World) : Prop :=
  (∃ lost, foreign_kept o lost (members_of w0) (members_of w) ∧ ∀ u, lost = Some u → (∀ x, r ≠ Ok x) ∧ invitee u) ∧
  ((∃ x, r = Ok x) → accounts_since w).
Definition inviting (w : World) : Prop := foreign_kept o None (members_of w0) (members_of w) ∧ accounts_since w.

Lemma inviting_result {A} (r : res Error A) w : inviting w → invite_result r w.
Proof. intros [Hf Ha]. split; [by exists None|done]. Qed.
Lemma result_inviting {A} (x : A) w : invite_result (Ok x) w → inviting w.
Proof.
  intros [(lost & Hf & Hl) Ha]. split; [|apply Ha; eauto]. destruct lost as [u|]; [|done]. destruct (Hl u eq_refl) as [H _]. by destruct (H x).
Qed.
Lemma result_failed {A B} (r : res Error A) (r' : res Error B) w :
  (∀ x, r ≠ Ok x) → (∀ x, r' ≠ Ok x) → invite_result r w → invite_result r' w.
Proof.
  intros Hr Hr' [(lost & Hf & Hl) Ha]. split; [|intros [x ->]; by destruct (Hr' x)]. exists lost. split; [done|].
  intros u Hu. split; [done|by apply Hl].
Qed.
Lemma inviting_calm w w' : inviting w → calm_rel w w' → named_rel w w' → inviting w'.
Proof.
  intros [Hf Ha] Hc Hn. split; [by rewrite (calm_members _ _ Hc)|]. eapply accounts_named; [done..|apply Hc].
Qed.
Lemma wp_inviting {A} (m : M A) w : calm m → named m → inviting w → wp m e w (λ _ w', inviting w').
Proof.
  intros Hc Hn Hi. eapply wp_mono; [apply wp_and; [apply Hc|apply Hn]|]. intros r w' [? ?]. by eapply inviting_calm.
Qed.
Lemma wp_result_bind {A B} (m : M A) (k : A → M B) w :
  wp m e w (λ r w', invite_result r w') → (∀ x w', inviting w' → wp (k x) e w' (λ r w2, invite_result r w2)) →
  wp (mbind m k) e w (λ r w', invite_result r w').
Proof.
  intros Hm Hk. apply wp_bind. eapply wp_mono; [exact Hm|]. intros [x|x|] w' H; simpl.
  - by apply Hk, (result_inviting x).
  - by eapply result_failed, H.
  - by eapply result_failed, H.
Qed.

Lemma wp_invitee email created w :
  in_order e w → accounts_since w →
  wp (invited_user o email created) e w (λ r w', ∀ u s b, r = Ok (u, s, b) →
    accounts_since w' ∧ account_since u ∧ u_email u = str_to_lowercase e email).
Proof.
  intros Hw Ha. unfold invited_user, User_find_by_mail. do 10 wp_step.
  - apply first_Some in Hm as [He%bool_decide_eq_true [k Hk]]. unfold Membership_find_by_user_and_org, member. wp_go; [|done].
    intros u s b [= <- <- <-]. split_and!; [done|by eapply Ha|done].
  - repeat read_step; [|done..]. apply wp_bind, wp_reads; [auto with frame|]. intros [eligible|x|]; simpl; [|done..].
    repeat read_step; [|done..]. apply wp_bind. set (inv := if mail_enabled (cfg e) then _ else _).
    assert (calm inv) as Hcalm by (subst inv; solve_within). assert (named inv) as Hnamed by (subst inv; unfold Invitation_new; solve_within).
    eapply wp_mono; [apply wp_and; [apply Hcalm|apply Hnamed]|]. intros [[]|x|] w1 [Hc1 Hn1]; simpl; [|done..].
    pose proof (accounts_named _ _ Ha Hn1 (calm_tick _ _ Hc1)) as [Ht1 Ha1].
    unfold User_new, get_random_bytes, User_save. wp_go; simpl; [|done]. intros u s b [= <- <- <-].
    assert (∀ x, u_uuid x = uuid_at e (tick w1) → account_since x) as Hnew by (intros x Hx; right; by exists (tick w1)).
    split_and!; [|by apply Hnew|done]. split; simpl; [lia|]. intros k u [[<- <-]|[_ Hk]]%lookup_insert_Some; [by apply Hnew|eauto].
Qed.
(** An account that is deleted *)
Lemma inviting_lost {A} (r : res Error A) email user w :
  (∀ x, r ≠ Ok x) → inviting w → account_since user → email ∈ emails → u_email user = str_to_lowercase e email →
  mail_enabled (cfg e) = true →
  ∀ w', members_of w' = filter (λ km, m_user_uuid km.2 ≠ u_uuid user) (members_of w) → invite_result r w'.
Proof.
  intros Hr [Hf _] Hu Hin Hmail Hon w' Hw'. split; [|intros [x ->]; by destruct (Hr x)]. rewrite Hw'.
  destruct Hu as [(k & u0 & Hk & Ei & Em)|(i & Hi & Ei)].
  - exists (Some (u_uuid user)). split; [by apply foreign_lost|]. intros u [= <-]. split; [done|]. split; [done|].
    exists k, u0, email. split_and!; congruence.
  - exists None. split; [|done]. apply foreign_lost_none; [done|]. intros k m Hk. rewrite Ei.
    destruct (fresh_unused _ _ (order_fresh _ _ Hw0) i Hi) as (_ & _ & H3). by apply (H3 _ _ Hk).
Qed.
Lemma wp_mail_apart email user m created w :
  in_order e w → inviting w → members_of w !! m_uuid m = Some m → m_org_uuid m = o →
  account_since user → email ∈ emails → u_email user = str_to_lowercase e email → mail_enabled (cfg e) = true →
  wp (mail_invite user o m h created) e w (λ r w', invite_result r w').
Proof.
  intros Hw Hi Hk Ho Hu Hin Hmail Hon. unfold mail_invite. repeat read_step; [|by apply inviting_result].
  match goal with |- wp (let* _ := ?x in _) _ _ _ => assert (calm x) as Hc by solve_within; assert (named x) as Hn by solve_within end.
  apply wp_bind. eapply wp_mono; [apply wp_and; [apply Hc|apply Hn]|]. intros [failed|x|] w1 [Hc1 Hn1]; simpl;
    pose proof (inviting_calm _ _ Hi Hc1 Hn1) as Hi1; [|by apply inviting_result..].
  destruct failed as [x|]; [|by apply wp_mret, inviting_result]. rewrite <- (calm_members _ _ Hc1) in Hk.
  pose proof (in_order_calm _ _ _ Hw Hc1) as Hw1.
  assert (wp (if created then User_delete user else Membership_delete m) e w1 (λ _ w', ∀ B (r : res Error B), (∀ x, r ≠ Ok x) → invite_result r w')) as Hback.
  { destruct created.
    - eapply wp_mono; [by apply wp_User_delete|]. intros _ w2 ([E|[E _]] & _) B r Hr; [|by eapply inviting_lost].
      split; [|intros [y ->]; by destruct (Hr y)]. exists None. split; [rewrite E; apply Hi1|done].
    - apply wp_Membership_delete. intros w2 E _ _ B r Hr. split; [|intros [y ->]; by destruct (Hr y)]. exists None. split; [|done].
      rewrite E. etrans; [apply Hi1|]. by eapply foreign_delete. }
  apply wp_bind. eapply wp_mono; [exact Hback|]. intros [y|y|] w2 H2; simpl; [|by apply H2..]. by apply wp_err, H2.
Qed.
Lemma wp_invite_apart data t acc created email w :
  in_order e w → inviting w → email ∈ emails → (∀ i, tick w ≤ i → uuid_at e i ≠ o) →
  wp (invite_one o data h t acc created email) e w (λ r w', invite_result r w').
Proof.
  intros Hw Hi Hin Horg. unfold invite_one. apply wp_bind.
  eapply wp_mono; [apply wp_and; [by apply wp_invited_user|apply wp_invitee; [done|apply Hi]]|].
  intros r w1 [(E1 & Hw1 & T1 & Hr) Hr']. destruct r as [[[user s] b]|x|]; simpl.
  2,3: split; [exists None; split; [rewrite E1; apply Hi|done]|by intros []].
  destruct (Hr user s b eq_refl) as (Hs & Hfut & Huniq), (Hr' user s b eq_refl) as (Ha1 & Hu & Hmail).
  unfold Membership_new. do 5 wp_step. unfold bind_post at 1.
  match goal with |- wp (mbind (Membership_save ?m) _) _ ?w2 _ => set (m0 := m); set (w2' := w2) end.
  assert (in_order e w2') as Hw2. { eapply in_order_calm; [exact Hw1|]. split; simpl; [done|lia|by split]. }
  assert (accounts_since w2') as Ha2. { eapply accounts_named; [exact Ha1| |simpl; lia]. intros k u Hk. by exists u. }
  assert (wp (Membership_save m0) e w2' (λ r w3, r = Ok tt ∧ in_order e w3 ∧ members_of w3 = <[m_uuid m0 := m0]> (members_of w1) ∧
    tick w2' ≤ tick w3)) as Hsave.
  { apply wp_Membership_save. intros w3 E3 T3 U3. destruct (order_fresh _ _ Hw1) as [Hinj Hun].
    destruct (Hun (tick w1) ltac:(lia)) as (_ & Hnone & _). split_and!; [done| |done|by rewrite T3].
    eapply in_order_new; [exact Hw2|exact E3|by rewrite T3|done|..].
    - rewrite E3. apply wf_new; [apply Hw1|done| |by exists t|apply (stored_of_state _ s); naive_solver]. simpl. by rewrite E1.
    - intros i Hj. rewrite T3 in Hj. simpl in Hj. simpl. split_and!; [intros ?%Hinj; lia|apply not_eq_sym, Hfut; lia|].
      apply not_eq_sym, Horg. lia. }
  apply wp_bind. eapply wp_mono; [apply wp_and; [exact Hsave|apply named_Membership_save]|].
  intros r w3 [(-> & Hw3 & E3 & T3) Hn3]. simpl. assert (inviting w3) as Hi3.
  { split; [|by eapply accounts_named]. rewrite E3, E1. etrans; [apply Hi|]. apply foreign_insert; [done|].
    rewrite <- E1. intros m Hm. by destruct (fresh_unused _ _ (order_fresh _ _ Hw1) (tick w1) ltac:(lia)) as (_ & Hnone & _); simplify_eq/=. }
  apply wp_bind, wp_conf. simpl. apply wp_result_bind.
  - destruct (mail_enabled (cfg e)) eqn:Hon; [|by apply wp_mret, inviting_result]. eapply wp_mail_apart; [done..| |done|done|done|done|done].
    rewrite E3. apply lookup_insert_eq.
  - intros _ w4 Hi4. eapply wp_mono; [apply wp_inviting; [..|exact Hi4]|intros; by apply inviting_result];
      unfold add_collections, add_groups; solve_within.
Qed.
Lemma wp_invite_all_apart data t acc created l w :
  t = MT_User ∨ ac_owner (actor_of h true) = true → is_confirmed h = true →
  in_order e w → inviting w → l ⊆ emails → (∀ i, tick w ≤ i → uuid_at e i ≠ o) →
  wp (invite_all o data h t acc created l) e w (λ r w', invite_result r w').
Proof.
  intros Hp Hconf. revert created w. induction l as [|email l IH]; intros created w Hw Hi Hl Horg; simpl.
  { by apply wp_mret, inviting_result. }
  apply wp_bind. eapply wp_mono; [apply wp_and; [by apply wp_invite_one|apply wp_invite_apart; [done..|apply Hl; by left|done]]|].
  intros [c|x|] w1 [H1 H2]; simpl; [|by eapply result_failed, H2..]. apply IH; [apply H1|by eapply result_inviting| |].
  - intros x Hx. apply Hl. by right.
  - intros i Hj. apply Horg. pose proof (followed_tick _ _ _ _ H1). lia.
Qed.
End invitations.

Lemma wp_send_invite_apart h e data org k w :
  in_order e w → session_row h (members_of w) k → is_confirmed h = true →
  wp (send_invite org data h) e w (λ r w', invite_result h e (iv_emails data) w r w').
Proof.
  intros Hw (Hk & _) Hconf. unfold send_invite. assert (inviting h e w w) as Hi.
  { split; [done|]. split; [done|]. intros k' u Hu. left. by exists k', u. }
  repeat read_step; [|by apply inviting_result]. apply bool_decide_eq_true in Hc as ->.
  apply wp_bind, wp_reads; [unfold InviteData_validate; solve_reads|]. intros [[]|x|]; simpl; [|by apply inviting_result..].
  repeat read_step; [|by apply inviting_result..]. apply wp_invite_all_apart; [done| |done..|].
  - apply orb_true_iff in Hc as [Ht%bool_decide_eq_true|Hown]; [by left|right]. simpl. by rewrite Hconf, Hown.
  - intros i Hj E. destruct (fresh_unused _ _ (order_fresh _ _ Hw) i Hj) as (_ & _ & Hrow). by destruct (Hrow _ _ Hk).
Qed.

(** The handler behind the request guard *)
Section request.
Context `{!Serde ProtectedActionData pa_stored, !Serde EmailTokenData id, !Serde UserStampException id} `{FL : FileLinks}.
Context (decode_invite : string → res Error InviteJwtClaims) (svc : Services) (host : string).

(** A step before the handler proper, which changes nothing when it succeeds *)
Lemma wp_before {A} o (m : M A) (k : A → M unit) e w (Φ : res Error unit → World → Prop) :
  calm m → (∀ x w', m e w = (Ok x, w') → w' = w) →
  (∀ r w', foreign_kept o None (members_of w) (members_of w') → Φ r w') →
  (∀ x, m e w = (Ok x, w) → wp (k x) e w Φ) → wp (mbind m k) e w Φ.
Proof.
  intros Hm Hpure Hfail Hk. apply wp_bind, wp_intro. intros [x|x|] w1 Hrun; simpl.
  1: { pose proof (Hpure _ _ Hrun) as ->. by apply Hk. }
  all: apply Hfail; by rewrite (calm_members _ _ (wp_run _ _ _ _ (Hm e w) _ _ Hrun)).
Qed.
Lemma wp_serve_invite data rq e w o :
  in_order e w → request_org e rq = Some o →
  wp (serve_org decode_invite svc host (ByMember (SendInvite data)) rq) e w (λ r w',
    ∃ lost, foreign_kept o lost (members_of w) (members_of w') ∧
      ∀ u, lost = Some u → (∀ x, r ≠ Ok x) ∧ invitee e (iv_emails data) w u).
Proof.
  intros Hw Ho. unfold serve_org. set (Φ := λ (r : res Error unit) w', _). assert (∀ r w',
    foreign_kept o None (members_of w) (members_of w') → Φ r w') as Hfail by (intros r w' Hf; by exists None).
  apply (wp_before o); [apply calm_guard_call|by intros ? ? [? _]%guard_call_through|done|]. intros h Hguard.
  apply guard_call_through in Hguard as [_ (Hs & Hconf & _)]. destruct (org_session_row svc _ _ _ _ (order_wf _ _ Hw) Hs) as [Hrow Hpath].
  apply (wp_before o); [apply calm_call_org|by intros ? ? [? _]%call_org_Ok|done|]. intros org _.
  assert (reads (for_each (call_segments (SendInvite data)) (λ s, mdrop (route_param (Some s))))) as Hread by (simpl; solve_reads).
  apply (wp_before o); [by apply within_reads|intros ? ?; by apply reads_Ok|done|]. intros _ _.
  assert (o = os_org_id h) as -> by congruence. simpl run_call.
  eapply wp_mono; [eapply wp_send_invite_apart; [done..|by apply Hconf]|]. by intros r w' [H _].
Qed.
End request.
