(* ===== verification/OrgSafety.v ===== *)
(** * What requests to an organization keep

    Theorems on [serve_org] of [OrgRequests]: each request does to the memberships
    what the rules of [MemberProtocol] allow; any sequence of requests, over time,
    leaves the table in order and every organization with a confirmed owner until
    it is deleted; who is no owner changes no owner; other organizations are left
    alone.  Last, two ways in which the endpoints do more than they should. *)

From stdpp Require Import base strings numbers pretty gmap list relations.
From S2P Require Import Prelude Store JsonUtil Queries Users Orgs AuthRequests TwoFactor TotpReplay OneTimeCodes Sends Collections.
From S2P Require Import Folders Login LoginSafety Sessions SessionSafety Ciphers Vault Signups EmergencyAccess Profiles Members.
From S2P Require Import OrgCollections MemberProtocol MemberSafety OrgRequests InviteSafety.

Section org_safety.
Context `{!Serde ProtectedActionData pa_stored, !Serde EmailTokenData id, !Serde UserStampException id} `{FL : FileLinks}.
Context (decode_invite : string → res Error InviteJwtClaims) (svc : Services) (host : string).
Abbreviation serve := (serve_org decode_invite svc host).

(** ** One request *)


(** The caller is a confirmed owner of the organization of the request. *)
Definition by_owner (e : Env) (d : Db) (rq : Request) : Prop :=
  ∃ h, org_session_of svc e d rq h ∧ is_owner h = true ∧ is_confirmed h = true.
Lemma not_by_owner e d rq h b : ¬ by_owner e d rq → org_session_of svc e d rq h → ac_owner (actor_of h b) = false.
Proof.
  intros Hno Hs. simpl. destruct (is_owner h) eqn:Ho, (is_confirmed h) eqn:Hc; try done. destruct Hno. by exists h.
Qed.

(** C8: owners are changed by owners only.  A request of anybody else leaves the
    owners of the organization in place, each with his state (an invited one may
    accept), and makes nobody owner or administrator. *)
Theorem owners_protected r rq e w x w' o :
  in_order e w → serve r rq e w = (x, w') → request_org e rq = Some o → ¬ by_owner e (db w) rq →
  (∀ data, r ≠ ByUser (CreateOrganization data)) →
  owners_kept o (members_of w) (members_of w').
Proof.
  intros Hw Hrun Horg Hno Hnew.
  destruct (wp_run _ _ _ _ (wp_serve decode_invite svc host r rq e w Hw) _ _ Hrun) as [Heff _].
  destruct Heff as [r|c h T' Hl Hpath Hd Hsteps|data h Hl Hpath|data m _ _ _|id data org T' Hpath Hsteps].
  - done.
  - assert (o = os_org_id h) as -> by congruence. apply (steps_owners_kept _ _ _ Hsteps). by eapply not_by_owner, Hl.
  - destruct Hl as (Hs & Hconf & Hown). destruct Hno. exists h. split_and!; auto.
  - by destruct (Hnew data).
  - assert (org = o) as -> by congruence. by apply (steps_owners_kept _ _ _ Hsteps).
Qed.

(** C10: organizations are apart.  A request to one organization adds and changes
    no membership of another, and removes none, with one exception: when an
    invitation fails whose mail was to be sent, the memberships of one account go
    everywhere, that of an account known before under one of the addresses the
    request invites. *)
Theorem organizations_apart c rq e w x w' o :
  in_order e w → serve (ByMember c) rq e w = (x, w') → request_org e rq = Some o →
  ∃ lost, foreign_kept o lost (members_of w) (members_of w') ∧
    ∀ u, lost = Some u → ∃ data, c = SendInvite data ∧ (∀ y, x ≠ Ok y) ∧ invitee e (iv_emails data) w u.
Proof.
  intros Hw Hrun Horg. destruct (invites c) eqn:Hi.
  { destruct c; try discriminate Hi.
    destruct (wp_run _ _ _ _ (wp_serve_invite decode_invite svc host data rq e w o Hw Horg) _ _ Hrun) as (lost & Hf & Hl).
    exists lost. split; [done|]. intros u Hu. exists data. by destruct (Hl u Hu). }
  exists None. split; [|done].
  destruct (wp_run _ _ _ _ (wp_serve decode_invite svc host _ rq e w Hw) _ _ Hrun) as [Heff _]. remember (ByMember c) as r.
  destruct Heff as [r|c' h T' _ Hpath _ Hsteps|data h _ Hpath| |]; simplify_eq; [done| |].
  - by apply (steps_foreign_kept _ _ _ Hsteps).
  - apply foreign_filter.
Qed.

(** ** Any number of requests *)

(** Requests one after the other, each at its time and with its luck. *)
Definition serve_all (l : list (Env * Request * OrgRequest)) (w : World) : World :=
  foldl (λ w '(e, rq, r), (serve r rq e w).2) w l.
(** They all draw identifiers from the same source. *)
Definition same_source (e : Env) (l : list (Env * Request * OrgRequest)) : Prop :=
  Forall (λ x, uuid_at x.1.1 = uuid_at e) l.
Lemma in_order_env e e' w : uuid_at e' = uuid_at e → in_order e w → in_order e' w.
Proof. intros E [Hwf [Hinj Hun] Ho]. split; [done| |done]. split; by rewrite E. Qed.
(** Invariants by induction on the requests. *)
Lemma serve_all_ind (P : World → Prop) e l w :
  (∀ e' rq r w, (e', rq, r) ∈ l → in_order e' w → P w → served svc r rq e' w (serve r rq e' w).2 → P (serve r rq e' w).2) →
  same_source e l → in_order e w → P w → P (serve_all l w) ∧ in_order e (serve_all l w).
Proof.
  intros HP Hsrc. revert w. induction l as [|[[e' rq] r] l IH]; intros w Hw HPw; [done|].
  apply Forall_cons in Hsrc as [He Hsrc]. simpl in He. pose proof (in_order_env _ _ _ He Hw) as Hw'.
  pose proof (wp_serve decode_invite svc host r rq e' w Hw') as Hserved. unfold wp in Hserved.
  apply IH; [intros; apply HP; [by right|done..]|done| |].
  - apply (in_order_env e'); [done|]. apply Hserved.
  - apply HP; [by left|done..].
Qed.

(** C9: the table of memberships stays in order.  Through any sequence of
    requests every row stays under its identifier, with a role and a state that
    exist, alone of its user in its organization, and identifiers drawn later
    are new. *)
Theorem requests_keep_order e l w :
  same_source e l → in_order e w → in_order e (serve_all l w).
Proof. intros Hsrc Hw. by apply (serve_all_ind (λ _, True) e). Qed.

(** The request deletes the organization [o]. *)
Definition deletes_org (o : string) (x : Env * Request * OrgRequest) : Prop :=
  match x with
  | (e, rq, ByMember c) => deletes c = true ∧ request_org e rq = Some o
  | _ => False
  end.
Lemma effect_owner e rq r w T' o :
  members_wf (members_of w) → ¬ deletes_org o (e, rq, r) → request_effect svc e (db w) rq (members_of w) r T' →
  has_owner (members_of w) o → has_owner T' o.
Proof.
  intros Hwf Hno Heff Howner.
  destruct Heff as [r|c h T' _ _ _ Hsteps|data h _ Hpath|data m Hnew Horg Hown|id data org T' _ Hsteps].
  - done.
  - by eapply steps_owner.
  - destruct Howner as (k & m & Hk & <- & Hm). exists k, m. split; [|done]. apply map_lookup_filter_Some.
    split; [done|]. simpl. intros E. apply Hno. simpl. by rewrite E.
  - destruct Howner as (k & m' & Hk & Ho & Hm). exists k, m'. split; [|done]. rewrite lookup_insert_ne; [done|]. congruence.
  - by eapply steps_owner.
Qed.

(** An organization keeps an owner.  If it has a confirmed owner, then after
    any sequence of requests, whoever makes them, it still has one, unless one of
    them deletes it. *)
Theorem last_owner_kept e l w o :
  same_source e l → in_order e w → has_owner (members_of w) o → Forall (λ x, ¬ deletes_org o x) l →
  has_owner (members_of (serve_all l w)) o.
Proof.
  intros Hsrc Hw Howner Hno. rewrite Forall_forall in Hno.
  apply (serve_all_ind (λ w, has_owner (members_of w) o) e); [|done..]. intros e' rq r w' Hin Hw' Ho [Heff _].
  by eapply effect_owner; [apply Hw'|apply Hno|..].
Qed.
End org_safety.

(** ** Witnesses *)

Module ToyOrgs.
Import ToyEnv ToyUsers ToyTwoFactor ToyCodes ToyLogin ToyLinks.
Definition alice_row (t : MembershipType) : Membership :=
  mkMembership "m1" "alice" "org" None true "" 2 (MembershipType_to_i32 t) None None.
Definition bob_row (t : MembershipType) : Membership :=
  mkMembership "m2" "bob" "org" None false "" 2 (MembershipType_to_i32 t) None None.
Definition bob_elsewhere : Membership := mkMembership "m3" "bob" "org2" None false "" 2 2 None None.
Definition acme : Organization := mkOrganization "org" "Acme" "alice@example.org" None None.
(** Alice has a role in the organization; Bob's membership is given. *)
Definition org_world (t : MembershipType) (row : Membership) : World := mkWorld (empty_db
  <| users := {["alice" := toy_user "alice"; "bob" := toy_user "bob"]} |>
  <| devices := {[("d1", "alice") := toy_device "d1" "alice"]} |>
  <| organizations := {["org" := acme]} |>
  <| users_organizations := {["m1" := alice_row t; m_uuid row := row]} |>) 100 [] ∅ ∅.
Definition alice_at (param : string) : Request := mkRequest (Some "Bearer stamp") None (Some param) None "ip".
Definition no_invite (_ : string) : res Error InviteJwtClaims := Err (new_msg "no").

Lemma org_world_rows t row k m :
  users_organizations (db (org_world t row)) !! k = Some m → (k = "m1" ∧ m = alice_row t) ∨ (k = m_uuid row ∧ m = row).
Proof.
  change (users_organizations (db (org_world t row))) with (<["m1" := alice_row t]> (<[m_uuid row := row]> ∅ : Members)).
  intros [[<- <-]|[_ H]]%lookup_insert_Some; [auto|]. apply lookup_insert_Some in H as [[<- <-]|[_ H]]; [auto|].
  by rewrite lookup_empty in H.
Qed.
Lemma org_world_in_order z t t' row : row ∈ [bob_row t'; bob_elsewhere] → in_order (toy_env z) (org_world t row).
Proof.
  intros Hrow. rewrite !elem_of_cons, elem_of_nil in Hrow. assert (known_type row) as Hty.
  { destruct Hrow as [->|[->|[]]]; [by exists t'|by exists MT_User]. }
  split.
  - split.
    + intros k m [[-> ->]|[-> ->]]%org_world_rows; done.
    + intros k m [[-> ->]|[-> ->]]%org_world_rows; [by exists t|done].
    + intros k m [[-> ->]|[-> ->]]%org_world_rows; apply (stored_of_state _ MS_Confirmed); naive_solver.
    + intros k1 k2 m1 m2 [[-> ->]|[-> ->]]%org_world_rows [[-> ->]|[-> ->]]%org_world_rows; naive_solver.
  - split; [apply (toy_env_ok z)|]. intros i _. change (uuid_at (toy_env z) i) with ("id" +:+ pretty i). split_and!.
    + intros (k & u & Hk & E). change (users (db (org_world t row))) with
        (<["alice" := toy_user "alice"]> (<["bob" := toy_user "bob"]> (∅ : gmap string User))) in Hk.
      apply lookup_insert_Some in Hk as [[<- <-]|[_ Hk]]; [done|]. apply lookup_insert_Some in Hk as [[<- <-]|[_ Hk]]; [done|].
      by rewrite lookup_empty in Hk.
    + destruct (users_organizations (db (org_world t row)) !! _) as [m|] eqn:E; [|done].
      apply org_world_rows in E as [[E _]|[E _]]; [done|]. naive_solver.
    + intros k m [[-> ->]|[-> ->]]%org_world_rows; [done|]. naive_solver.
  - intros k o. change (organizations (db (org_world t row))) with ({["org" := acme]} : gmap string Organization).
    by intros [<- <-]%lookup_singleton_Some.
Qed.
(** Mail to Bob fails. *)
Definition no_mail_to_bob : Env := (toy_env 0) <| mail_delivers := λ m,
  match m with MailOrgInvite to _ _ _ _ _ => negb (bool_decide (to = "bob@example.org")) | _ => true end |>.
Definition invite_two : InviteData :=
  mkInviteData ["new@example.org"; "bob@example.org"] [] (Number 2) None ∅.
(** An organization of others, with a group that may use everything. *)
Definition other_cipher : Cipher :=
  mkCipher "c2" 0 0 None (Some "org2") None 1 "name" None None "{}" None None None.
Definition two_orgs_world : World := (org_world MT_Owner (bob_row MT_User)) <| db := (db (org_world MT_Owner (bob_row MT_User)))
  <| groups := {["g2" := mkGroup "g2" "org2" "all" true None 0 0]} |>
  <| ciphers := {["c2" := other_cipher]} |> |>.
Definition into_foreign_group : EditUserData := mkEditUserData (Number 2) None (Some ["g2"]) ∅.
End ToyOrgs.
Import ToyEnv ToyUsers ToyTwoFactor ToyCodes ToyLogin ToyLinks ToyOrgs.

(** ** Where the endpoints do too much *)

Lemma served_err {A} (r : res Error A * World) (P : World → Prop) :
  match r.1 with Err _ => true | _ => false end = true → P r.2 → ∃ x w', r = (Err x, w') ∧ P w'.
Proof. destruct r as [[] w']; simpl; try discriminate. eauto. Qed.

(** An invitation whose mail fails can delete the account of somebody who was
    there before.  The flag that says that an account was created is set once for
    the whole list of addresses: after a new address, the failure to reach an
    account that exists deletes that account, where only its membership should
    go. *)
Theorem failed_invite_deletes_account :
  ∃ x w', serve_org no_invite toy_services "host" (ByMember (SendInvite invite_two)) (alice_at "org") no_mail_to_bob
      (org_world MT_Owner bob_elsewhere) = (Err x, w') ∧
    users (db (org_world MT_Owner bob_elsewhere)) !! "bob" = Some (toy_user "bob") ∧ users (db w') !! "bob" = None ∧
    users_organizations (db w') !! "m3" = None.
Proof.
  apply served_err; [vm_compute; reflexivity|]. split; [reflexivity|]. split; vm_compute; reflexivity.
Qed.

(** An administrator can open another organization to a member.  Editing a
    member does not check that the groups of the request belong to the
    organization; a group of another organization with access to everything
    then lets the member use a cipher of that organization, which nobody there
    shared. *)
Theorem edit_member_foreign_group :
  ∃ w', serve_org no_invite toy_services "host" (ByMember (EditMember "m2" into_foreign_group)) (alice_at "org") (toy_env 0)
      two_orgs_world = (Ok tt, w') ∧
    (∀ m, m ∈ map_to_list (users_organizations (db w')) → m_org_uuid m.2 = "org") ∧
    (Cipher_is_accessible_to_user other_cipher "bob" (toy_env 0) two_orgs_world).1 = Ok false ∧
    (Cipher_is_accessible_to_user other_cipher "bob" (toy_env 0) w').1 = Ok true.
Proof.
  eexists. split; [vm_compute; reflexivity|]. split; [|split; vm_compute; reflexivity].
  vm_compute. intros m Hm. set_solver.
Qed.

(** Alice revokes Bob. *)
Abbreviation toy_serve := (serve_org no_invite toy_services "host").
Abbreviation acme_world := (org_world MT_Owner (bob_row MT_User)).
(** Alice is an administrator and tries to remove Bob, the owner. *)
Abbreviation admin_world := (org_world MT_Admin (bob_row MT_Owner)).
Lemma alice_no_owner : ¬ by_owner toy_services (toy_env 0) (db admin_world) (alice_at "org").
Proof.
  intros (h & (Hs & org & Horg & Hm & Ht & _) & Ho & _). destruct Hs as (claims & Hc & _ & Hu & _).
  assert (users (db admin_world) !! "alice" = Some (toy_user "alice")) as Ea by (vm_compute; reflexivity).
  assert (membership_of (db admin_world) "alice" "org" = Some (alice_row MT_Admin)) as Em by (vm_compute; reflexivity).
  assert (lj_sub claims = "alice") as Esub by (vm_compute in Hc; by injection Hc as <-).
  rewrite Esub, Ea in Hu. injection Hu as Hu. cbn [sn_user] in Hu. rewrite <- Hu in Hm.
  assert (org = "org") as -> by (vm_compute in Horg; congruence). change (u_uuid (toy_user "alice")) with "alice" in Hm.
  rewrite Em in Hm. injection Hm as Hm. rewrite <- Hm in Ht. apply is_owner_spec in Ho. rewrite Ho in Ht. discriminate Ht.
Qed.
Lemma owners_protected_witness :
  owners_kept "org" (members_of admin_world)
    (members_of (toy_serve (ByMember (DeleteMember "m2")) (alice_at "org") (toy_env 0) admin_world).2).
Proof.
  eapply (owners_protected no_invite toy_services "host");
    [apply (org_world_in_order 0 _ MT_Owner); by left|apply surjective_pairing|reflexivity|apply alice_no_owner|discriminate].
Defined.
(** Bob is a member of another organization; Alice may not remove him there, and an
    invitation that does not reach him, after one that made an account, does. *)
Lemma organizations_apart_witness :
  (∃ lost, foreign_kept "org" lost (members_of (org_world MT_Owner bob_elsewhere))
     (members_of (toy_serve (ByMember (DeleteMember "m3")) (alice_at "org") (toy_env 0) (org_world MT_Owner bob_elsewhere)).2) ∧
   ∀ u, lost = Some u → False) ∧
  (∃ lost, foreign_kept "org" lost (members_of (org_world MT_Owner bob_elsewhere))
     (members_of (toy_serve (ByMember (SendInvite invite_two)) (alice_at "org") no_mail_to_bob (org_world MT_Owner bob_elsewhere)).2) ∧
   lost = Some "bob").
Proof.
  split.
  - destruct (organizations_apart no_invite toy_services "host" (DeleteMember "m3") (alice_at "org") (toy_env 0)
      (org_world MT_Owner bob_elsewhere) (toy_serve (ByMember (DeleteMember "m3")) (alice_at "org") (toy_env 0)
        (org_world MT_Owner bob_elsewhere)).1 _ "org" (org_world_in_order 0 _ MT_User _ ltac:(by right; left))
      (surjective_pairing _) eq_refl) as (lost & Hf & Hl).
    exists lost. split; [done|]. intros u Hu. by destruct (Hl u Hu) as (? & ? & _).
  - destruct (organizations_apart no_invite toy_services "host" (SendInvite invite_two) (alice_at "org") no_mail_to_bob
      (org_world MT_Owner bob_elsewhere) (toy_serve (ByMember (SendInvite invite_two)) (alice_at "org") no_mail_to_bob
        (org_world MT_Owner bob_elsewhere)).1 _ "org" (in_order_env (toy_env 0) no_mail_to_bob _ eq_refl (org_world_in_order 0 _ MT_User _ ltac:(by right; left)))
      (surjective_pairing _) eq_refl) as (lost & Hf & _).
    exists lost. split; [done|]. destruct (Hf "m3" bob_elsewhere ltac:(done)) as [_ Hgone]. specialize (Hgone eq_refl).
    case_bool_decide as Hb; [exact Hb|]. exfalso. vm_compute in Hgone. discriminate Hgone.
Defined.
(** Alice tries to leave, revokes Bob and restores him, a day later each. *)
Definition some_days : list (Env * Request * OrgRequest) :=
  [(toy_env 0, alice_at "org", ByMember LeaveOrganization); (toy_env (days 1), alice_at "org", ByMember (RevokeMember "m2"));
   (toy_env (days 2), alice_at "org", ByMember (RestoreMember "m2"))].
Lemma some_days_source : same_source (toy_env 0) some_days.
Proof. repeat constructor. Qed.
Lemma requests_keep_order_witness : in_order (toy_env 0) (serve_all no_invite toy_services "host" some_days acme_world).
Proof. apply (requests_keep_order _ _ _ _ _ _ some_days_source). apply (org_world_in_order 0 _ MT_User). by left. Defined.
Lemma last_owner_kept_witness :
  has_owner (members_of (serve_all no_invite toy_services "host" some_days acme_world)) "org".
Proof.
  apply (last_owner_kept _ _ _ _ _ _ _ some_days_source).
  - apply (org_world_in_order 0 _ MT_User). by left.
  - exists "m1", (alice_row MT_Owner). split_and!; vm_compute; reflexivity.
  - repeat constructor; intros [? _]; discriminate.
Defined.
