(* ===== verification/Accounts.v ===== *)
(** * Accounts

    The endpoints of [server/src/api/core/accounts.rs] on the account itself:
    registration (with its endpoints in [api/identity.rs]), the profile, the
    master password and its key derivation, the address, deletion, the API key
    and the password hint.  Key rotation is in [KeyRotation], devices and
    approvals by device in [DeviceApproval]; the theorems are in
    [AccountSafety]. *)

From Stdlib Require Import Ascii.
From stdpp Require Import base strings numbers pretty gmap list.
From S2P Require Import Prelude Store JsonUtil Queries Users Orgs AuthRequests TwoFactor Sends Collections Signups Folders.
From S2P Require Import Login Sessions Ciphers Vault EmergencyAccess Profiles Members.

(** ** Requests *)

Record KDFData := mkKDFData {
  kdf : Z; kdf_iterations : Z; kdf_memory : option Z; kdf_parallelism : option Z }.
#[export] Instance KDFData_eq_dec : EqDecision KDFData.
Proof. solve_decision. Defined.
Record KeysData := mkKeysData { kd_encrypted_private_key : string; kd_public_key : string }.
Record RegisterData := mkRegisterData {
  rg_email : string;
  rg_kdf : KDFData;
  rg_key : string;
  rg_keys : option KeysData;
  rg_master_password_hash : string;
  rg_master_password_hint : option string;
  rg_name : option string;
  rg_organization_user_id : option string;
  rg_email_verification_token : option string;
  rg_accept_emergency_access_id : option string;
  rg_accept_emergency_access_invite_token : option string;
  rg_org_invite_token : option string;
}.
#[export] Instance eta_RegisterData : Eta RegisterData := λ r,
  mkRegisterData (rg_email r) (rg_kdf r) (rg_key r) (rg_keys r) (rg_master_password_hash r) (rg_master_password_hint r)
    (rg_name r) (rg_organization_user_id r) (rg_email_verification_token r) (rg_accept_emergency_access_id r)
    (rg_accept_emergency_access_invite_token r) (rg_org_invite_token r).
Record SetPasswordData := mkSetPasswordData {
  sp_kdf : KDFData; sp_key : string; sp_keys : option KeysData; sp_master_password_hash : string;
  sp_master_password_hint : option string; sp_org_identifier : option string }.
Record ChangePassData := mkChangePassData {
  cw_master_password_hash : string; cw_new_master_password_hash : string; cw_master_password_hint : option string;
  cw_key : string }.
Record AuthenticationData := mkAuthenticationData {
  ad_salt : string; ad_kdf : KDFData; ad_master_password_authentication_hash : string }.
Record UnlockData := mkUnlockData { ul_salt : string; ul_kdf : KDFData; ul_master_key_wrapped_user_key : string }.
(** Less the two fields that are not read. *)
Record ChangeKdfData := mkChangeKdfData {
  ck_authentication_data : AuthenticationData; ck_unlock_data : UnlockData; ck_master_password_hash : string }.
(** [EmailTokenData] of accounts.rs *)
Record ChangeEmailTokenData := mkChangeEmailTokenData { et_master_password_hash : string; et_new_email : string }.
Record ChangeEmailData := mkChangeEmailData {
  ce_master_password_hash : string; ce_new_email : string; ce_key : string; ce_new_master_password_hash : string;
  ce_change_token : NumberOrString }.
Record RegisterVerificationData := mkRegisterVerificationData { rd_email : string; rd_name : option string }.

(** The claims of the tokens, less the dates and the issuers, which the decoders
    check. *)
Record RegisterVerifyClaims := mkRegisterVerifyClaims { rv_sub : string; rv_name : option string; rv_verified : bool }.

(** The token library: signatures, issuers and dates. *)
Class AccountTokens := {
  decode_register_verify : string → res Error RegisterVerifyClaims;
  decode_emergency_invite : string → res Error EmergencyAccessInviteJwtClaims;
  decode_org_invite : string → res Error InviteJwtClaims;
  (** the subject of a token that deletes an account, or verifies its address *)
  decode_delete : string → res Error string;
  decode_verify_email : string → res Error string;
  encode_register_verify : RegisterVerifyClaims → option string;
}.

(** ** The password hint and the key derivation *)

Definition clean_password_hint (password_hint : option string) : option string :=
  match password_hint with
  | None => None
  | Some h => match str_trim (chars h) with
              | [] => None
              | ht => Some (string_of_chars ht)
              end
  end.
Definition enforce_password_hint_setting (password_hint : option string) : M unit :=
  let* allowed := conf password_hints_allowed in
  ensure (negb (is_not_null password_hint) || allowed)
    "Password hints have been disabled by the administrator. Remove the hint and try again.".

(** [UserKdfType] *)
Definition Pbkdf2 : Z := 0.
Definition Argon2id : Z := 1.
Definition set_kdf_data (user : User) (data : KDFData) : M User :=
  do* ensure (negb ((kdf data =? Pbkdf2) && (kdf_iterations data <? 100000)))%Z
    "PBKDF2 KDF iterations must be at least 100000." in
  let* user :=
    (if (kdf data =? Argon2id)%Z then
       do* ensure (1 <=? kdf_iterations data)%Z "Argon2 KDF iterations must be at least 1." in
       let* m := some_or_err (kdf_memory data) "Argon2 memory parameter is required." in
       do* ensure ((15 <=? m) && (m <=? 1024))%Z "Argon2 memory must be between 15 MB and 1024 MB." in
       let user := user <| u_client_kdf_memory := kdf_memory data |> in
       let* p := some_or_err (kdf_parallelism data) "Argon2 parallelism parameter is required." in
       do* ensure ((1 <=? p) && (p <=? 16))%Z "Argon2 parallelism must be between 1 and 16." in
       mret (user <| u_client_kdf_parallelism := kdf_parallelism data |>)
     else mret (user <| u_client_kdf_memory := None |> <| u_client_kdf_parallelism := None |>)) in
  mret (user <| u_client_kdf_iter := kdf_iterations data |> <| u_client_kdf_type := kdf data |>).
Definition set_keys (user : User) (keys : option KeysData) : User :=
  match keys with
  | Some k => user <| u_private_key := Some (kd_encrypted_private_key k) |> <| u_public_key := Some (kd_public_key k) |>
  | None => user
  end.
Definition check_name (name : string) : M unit :=
  ensure (Z.of_nat (String.length name) <=? 50)%Z "The field Name must be a string with a maximum length of 50.".
Definition UserChangedPassword : Z := 1001.
(** What the vault's functions read of a session *)
Definition as_headers (s : Session) (host : string) : Headers :=
  mkHeaders (sn_user s) (d_atype (sn_device s)) (sn_ip s) host.
Definition log_session (s : Session) (event_type : Z) : M unit :=
  log_user_event event_type (u_uuid (sn_user s)) (d_atype (sn_device s)) (sn_ip s).

Section accounts.
Context `{!Serde ProtectedActionData pa_stored, !Serde EmailTokenData id, !Serde UserStampException id} `{FL : FileLinks}.
Context `{AT : AccountTokens}.

(** ** Registration *)

Definition is_email_2fa_required (member_id : option string) : M bool :=
  let* enabled := conf enable_email_2fa in
  if negb enabled then mret false
  else
    let* enforced := conf email_2fa_enforce_on_verified_invite in
    if enforced then mret true
    else match member_id with
         | Some member_id => OrgPolicy_is_enabled_for_member member_id TwoFactorAuthentication
         | None => mret false
         end.

(** The request with the name of the token; whether the address is verified;
    and whether an emergency access is pending. *)
Definition check_registration_tokens (data : RegisterData) : M (RegisterData * bool * bool) :=
  match rg_email_verification_token data, rg_accept_emergency_access_id data,
        rg_accept_emergency_access_invite_token data, rg_organization_user_id data, rg_org_invite_token data with
  | Some email_verification_token, None, None, None, None =>
     let* claims := lift_res (decode_register_verify email_verification_token) in
     do* ensure (bool_decide (rv_sub claims = rg_email data)) "Email verification token does not match email" in
     let data := if is_not_null (rv_name claims) then data <| rg_name := rv_name claims |> else data in
     mret (data, rv_verified claims, false)
  | None, Some accept_emergency_access_id, Some accept_emergency_access_invite_token, None, None =>
     let* allowed := conf emergency_access_allowed in
     do* ensure allowed "Emergency access is not enabled." in
     let* claims := lift_res (decode_emergency_invite accept_emergency_access_invite_token) in
     do* ensure (bool_decide (cl_email claims = rg_email data)) "Claim email does not match email" in
     do* ensure (bool_decide (cl_emer_id claims = accept_emergency_access_id))
       "Claim emer_id does not match accept_emergency_access_id" in
     mret (data, true, true)
  | None, None, None, Some organization_user_id, Some org_invite_token =>
     let* claims := lift_res (decode_org_invite org_invite_token) in
     do* ensure (bool_decide (ij_email claims = rg_email data)) "Claim email does not match email" in
     do* ensure (bool_decide (ij_member_id claims = organization_user_id))
       "Claim org_user_id does not match organization_user_id" in
     mret (data, true, false)
  | _, _, _, _, _ => err "Registration is missing required parameters"
  end.

(** The account that is completed, or a new one; and whether the address is
    verified. *)
Definition registering_user (data : RegisterData) (email : string) (email_verified pending_emergency_access : bool)
    : M (User * bool) :=
  let not_allowed := "Registration not allowed or user already exists" in
  let* found := User_find_by_mail email in
  match found with
  | Some user =>
     do* ensure (bool_decide (u_password_hash user = [])) not_allowed in
     match rg_org_invite_token data with
     | Some token =>
        let* claims := lift_res (decode_org_invite token) in
        do* ensure (bool_decide (ij_email claims = email)) "Registration email does not match invite email" in
        mret (user, true)
     | None =>
        let* taken := Invitation_take email in
        if taken then do* Membership_accept_user_invitations (u_uuid user) in mret (user, email_verified)
        else
          let* signup := is_signup_allowed email in
          if signup then mret (user, email_verified)
          else
            let* emergency := conf emergency_access_allowed in
            let* invited := (if emergency then EmergencyAccess_find_invited_by_grantee_email email else mret None) in
            do* ensure (is_not_null invited) not_allowed in
            mret (user, email_verified)
     end
  | None =>
     let* taken := Invitation_take email in
     let* signup := (if taken then mret true else is_signup_allowed email) in
     do* ensure (signup || pending_emergency_access) not_allowed in
     let* user := User_new email None in
     mret (user, email_verified)
  end.

(** A mail that fails is only logged. *)
Definition welcome (user : User) (email_verified : bool) : M User :=
  let* verify := conf signups_verify in
  if verify && negb email_verified then
    do* mignore (send_mail (MailWelcomeMustVerify (u_email user) (u_uuid user))) in
    mret (user <| u_last_verifying_at := Some (u_created_at user) |>)
  else
    do* mignore (send_mail (MailWelcome (u_email user))) in
    mret user.
(** The row refers to the account's, which a new account does not have yet. *)
Definition twofactor_reference (user : User) : M unit :=
  let* enforced := ask enforces_references in
  let* found := User_find_by_uuid (u_uuid user) in
  ensure (negb enforced || is_not_null found) "FOREIGN KEY constraint failed".
Definition activate_enforced_2fa (user : User) (member_id : option string) (email_verified : bool) : M unit :=
  let* required := (if email_verified then is_email_2fa_required member_id else mret false) in
  if required then mignore (do* twofactor_reference user in activate_email_2fa user) else mret tt.

Definition register (data : RegisterData) (email_verification : bool) : M Json :=
  let* email := ask (λ e, str_to_lowercase e (rg_email data)) in
  let* (data, email_verified, pending_emergency_access) :=
    (if email_verification then check_registration_tokens data else mret (data, false, false)) in
  do* match rg_name data with Some name => check_name name | None => mret tt end in
  let password_hint := clean_password_hint (rg_master_password_hint data) in
  do* enforce_password_hint_setting password_hint in
  let* (user, email_verified) := registering_user data email email_verified pending_emergency_access in
  let* _ := Invitation_take email in
  let* user := set_kdf_data user (rg_kdf data) in
  let* user := User_set_password user (rg_master_password_hash data) (Some (rg_key data)) true None in
  let user := user <| u_password_hint := password_hint |> in
  let user := match rg_name data with Some name => user <| u_name := name |> | None => user end in
  let user := set_keys user (rg_keys data) in
  let* t := ask now in
  let user := if email_verified then user <| u_verified_at := Some t |> else user in
  let* mail := conf mail_enabled in
  let* user := (if mail then
                  let* user := welcome user email_verified in
                  do* activate_enforced_2fa user (rg_organization_user_id data) email_verified in
                  mret user
                else mret user) in
  let* user := User_save user in
  let* emergency := conf emergency_access_allowed in
  do* (if negb mail && emergency then
         let* l := EmergencyAccess_find_all_invited_by_grantee_email (u_email user) in
         for_each l (λ emergency_invite,
           mignore (mdrop (EmergencyAccess_accept_invite emergency_invite (u_uuid user) (u_email user))))
       else mret tt) in
  mret (JObj [("object", JStr "register"); ("captchaBypassToken", JStr "")]).

(** *** identity.rs *)

Definition identity_register (data : RegisterData) : M Json := register data false.
Definition register_finish (data : RegisterData) : M Json := register data true.
(** A token, unless it is sent by mail; the delay for accounts that exist is
    left out. *)
Definition register_verification_email (data : RegisterVerificationData) : M (option string) :=
  let* mail := conf mail_enabled in
  let* signup := is_signup_allowed (rd_email data) in
  let* invitation := (if signup || mail then mret None else Invitation_find_by_mail (rd_email data)) in
  do* ensure (signup || is_not_null invitation) "Registration not allowed or user already exists" in
  let* verify := conf signups_verify in
  let should_send_mail := mail && verify in
  let* token := some_or_err
    (encode_register_verify (mkRegisterVerifyClaims (rd_email data) (rd_name data) should_send_mail)) "JWT encoding failed" in
  if should_send_mail then
    let* user := User_find_by_mail (rd_email data) in
    do* (if is_not_null (user ≫= u_private_key) then mret tt
         else send_mail (MailRegisterVerify (rd_email data) token)) in
    mret None
  else mret (Some token).

(** *** The first password of an account made by single sign-on or an administrator *)

Definition post_set_password (data : SetPasswordData) (headers : Session) : M Json :=
  let user := sn_user headers in
  do* ensure (negb (is_not_null (u_private_key user))) "Account already initialized, cannot set password" in
  let password_hint := clean_password_hint (sp_master_password_hint data) in
  do* enforce_password_hint_setting password_hint in
  let* user := set_kdf_data user (sp_kdf data) in
  let* user := User_set_password user (sp_master_password_hash data) (Some (sp_key data)) false (Some ["revision_date"]) in
  let user := set_keys (user <| u_password_hint := password_hint |>) (sp_keys data) in
  do* match opt_filter (λ i, negb (bool_decide (i = FAKE_SSO_IDENTIFIER)) && negb (bool_decide (i = FAKE_ADMIN_UUID)))
              (sp_org_identifier data) with
      | Some identifier =>
         let* found := Organization_find_by_uuid identifier in
         let* org := some_or_err found "Failed to retrieve the associated organization" in
         let* found := Membership_find_by_user_and_org (u_uuid user) (o_uuid org) in
         let* membership := some_or_err found "Failed to retrieve the invitation" in
         accept_org_invite user membership None
      | None => mret tt
      end in
  let* mail := conf mail_enabled in
  do* (if mail then
         let* addr := ask (λ e, str_to_lowercase e (u_email user)) in send_mail (MailWelcome addr)
       else Membership_accept_user_invitations (u_uuid user)) in
  do* log_user_event UserChangedPassword (u_uuid user) (d_atype (sn_device headers)) (sn_ip headers) in
  let* _ := User_save user in
  mret (JObj [("object", JStr "set-password"); ("captchaBypassToken", JStr "")]).

(** ** Profile and keys *)

Definition profile (headers : Session) : M Json := User_to_json (sn_user headers).
Definition post_profile (name : string) (headers : Session) : M Json :=
  do* check_name name in
  let user := (sn_user headers) <| u_name := name |> in
  let* user := User_save user in
  User_to_json user.
Definition put_profile := post_profile.
Definition put_avatar (avatar_color : option string) (headers : Session) : M Json :=
  do* match avatar_color with
      | Some color => ensure (Nat.eqb (String.length color) 7)
          "The field AvatarColor must be a HTML/Hex color code with a length of 7 characters"
      | None => mret tt
      end in
  let user := (sn_user headers) <| u_avatar_color := avatar_color |> in
  let* user := User_save user in
  User_to_json user.
Definition get_public_keys (user_id : string) : M Json :=
  let* found := User_find_by_uuid user_id in
  match found with
  | Some user =>
     if is_not_null (u_public_key user) then
       mret (JObj [("userId", JStr (u_uuid user)); ("publicKey", json_opt JStr (u_public_key user)); ("object", JStr "userKey")])
     else err_code "User has no public_key" 404
  | None => err_code "User doesn't exist" 404
  end.
Definition post_keys (data : KeysData) (headers : Session) : M Json :=
  let user := set_keys (sn_user headers) (Some data) in
  let* user := User_save user in
  mret (JObj [("privateKey", json_opt JStr (u_private_key user)); ("publicKey", json_opt JStr (u_public_key user));
              ("object", JStr "keys")]).

(** ** The master password *)

(** Notifications change nothing in the store. *)
Definition post_password (data : ChangePassData) (headers : Session) : M unit :=
  let user := sn_user headers in
  let* valid := User_check_valid_password user (cw_master_password_hash data) in
  do* ensure valid "Invalid password" in
  let user := user <| u_password_hint := clean_password_hint (cw_master_password_hint data) |> in
  do* enforce_password_hint_setting (u_password_hint user) in
  do* log_session headers UserChangedPassword in
  let* user := User_set_password user (cw_new_master_password_hash data) (Some (cw_key data)) true
    (Some ["post_rotatekey"; "get_contacts"; "get_public_keys"; "get_api_webauthn"]) in
  mdrop (User_save user).
Definition post_kdf (data : ChangeKdfData) (headers : Session) : M unit :=
  let user := sn_user headers in
  let auth := ck_authentication_data data in
  let unlock := ck_unlock_data data in
  let* valid := User_check_valid_password user (ck_master_password_hash data) in
  do* ensure valid "Invalid password" in
  do* ensure (bool_decide (ad_kdf auth = ul_kdf unlock)) "KDF settings must be equal for authentication and unlock" in
  do* ensure (bool_decide (u_email user = ad_salt auth) && bool_decide (u_email user = ul_salt unlock))
    "Invalid master password salt" in
  let* user := set_kdf_data user (ul_kdf unlock) in
  let* user := User_set_password user (ad_master_password_authentication_hash auth)
    (Some (ul_master_key_wrapped_user_key unlock)) true None in
  mdrop (User_save user).
(** The devices go even when the account could not be saved. *)
Definition post_sstamp (data : PasswordOrOtpData) (headers : Session) : M unit :=
  let user := sn_user headers in
  do* PasswordOrOtpData_validate data user true in
  let* user := User_reset_security_stamp user in
  let* failed := outcome (mdrop (User_save user)) in
  do* Device_delete_all_by_user (u_uuid user) in
  match failed with Some e => mfail e | None => mret tt end.
Definition verify_password (master_password_hash : string) (headers : Session) : M Json :=
  let user := sn_user headers in
  let* valid := User_check_valid_password user master_password_hash in
  do* ensure valid "Invalid password" in
  let* user := kdf_upgrade user master_password_hash in
  master_password_policy user.
Definition prelogin (email : string) : M Json :=
  let* found := User_find_by_mail email in
  let '(kdf_type, kdf_iter, kdf_mem, kdf_para) :=
    match found with
    | Some user => (u_client_kdf_type user, u_client_kdf_iter user, u_client_kdf_memory user, u_client_kdf_parallelism user)
    | None => (CLIENT_KDF_TYPE_DEFAULT, CLIENT_KDF_ITER_DEFAULT, None, None)
    end in
  mret (JObj [("kdf", JNum kdf_type); ("kdfIterations", JNum kdf_iter); ("kdfMemory", json_opt JNum kdf_mem);
              ("kdfParallelism", json_opt JNum kdf_para)]).
Definition post_prelogin := prelogin.
Definition password_hint (email : string) : M unit :=
  let* hints := conf password_hints_allowed in
  let* mail := conf mail_enabled in
  let* show := conf show_password_hint in
  do* ensure (hints && (mail || show)) "This server is not configured to provide password hints." in
  let* found := User_find_by_mail email in
  match found with
  | None => if mail then mret tt else err "Sorry, you have no password hint..."
  | Some user =>
     if mail then send_mail (MailPasswordHint email (u_password_hint user))
     else match u_password_hint user with
          | Some hint => err ("Your password hint is: " +:+ hint)
          | None => err "Sorry, you have no password hint..."
          end
  end.

(** ** The address *)

(** Tells the holder of the address; a mail that fails is only logged. *)
Definition mail_address_taken (existing_user : User) (new_email acting : string) : M unit :=
  mignore (send_mail (if bool_decide (u_password_hash existing_user = []) then MailChangeEmailInvited new_email acting
                      else MailChangeEmailExisting new_email acting)).
Definition post_email_token (data : ChangeEmailTokenData) (headers : Session) : M unit :=
  let* allowed := conf email_change_allowed in
  do* ensure allowed "Email change is not allowed." in
  let user := sn_user headers in
  let* valid := User_check_valid_password user (et_master_password_hash data) in
  do* ensure valid "Invalid password" in
  let* found := User_find_by_mail (et_new_email data) in
  let* mail := conf mail_enabled in
  do* match found with
      | Some existing_user =>
         do* (if mail then mail_address_taken existing_user (et_new_email data) (u_email user) else mret tt) in
         err "Email already in use"
      | None => mret tt
      end in
  let* domain_ok := is_email_domain_allowed (et_new_email data) in
  do* ensure domain_ok "Email domain not allowed" in
  let* token := generate_email_token 6 in
  do* (if mail then mignore (send_mail (MailChangeEmail (et_new_email data) token)) else mret tt) in
  mdrop (User_save (user <| u_email_new := Some (et_new_email data) |> <| u_email_new_token := Some token |>)).
Definition post_email (data : ChangeEmailData) (headers : Session) : M unit :=
  let* allowed := conf email_change_allowed in
  do* ensure allowed "Email change is not allowed." in
  let user := sn_user headers in
  let* valid := User_check_valid_password user (ce_master_password_hash data) in
  do* ensure valid "Invalid password" in
  let* found := User_find_by_mail (ce_new_email data) in
  do* ensure (negb (is_not_null found)) "Email already in use" in
  let* val := some_or_err (u_email_new user) "No email change pending" in
  do* ensure (bool_decide (val = ce_new_email data)) "Email change mismatch" in
  let* mail := conf mail_enabled in
  let* t := ask now in
  let* user :=
    (if mail then
       let* val := some_or_err (u_email_new_token user) "No email change pending" in
       do* ensure (bool_decide (val = NumberOrString_into_string (ce_change_token data))) "Token mismatch" in
       mret (user <| u_verified_at := Some t |>)
     else mret (user <| u_verified_at := None |>)) in
  let user := user <| u_email := ce_new_email data |> <| u_email_new := None |> <| u_email_new_token := None |> in
  let* user := User_set_password user (ce_new_master_password_hash data) (Some (ce_key data)) true None in
  mdrop (User_save user).
Definition post_verify_email (headers : Session) : M unit :=
  let user := sn_user headers in
  let* mail := conf mail_enabled in
  do* ensure mail "Cannot verify email address" in
  mignore (send_mail (MailVerifyEmail (u_email user) (u_uuid user))).
Definition ok_or_err {A} (r : res Error A) (msg : string) : M A := match r with Ok a => mret a | _ => err msg end.
Definition post_verify_email_token (user_id token : string) : M unit :=
  let* found := User_find_by_uuid user_id in
  let* user := some_or_err found "User doesn't exist" in
  let* sub := ok_or_err (decode_verify_email token) "Invalid claim" in
  do* ensure (bool_decide (sub = u_uuid user)) "Invalid claim" in
  let* t := ask now in
  let user := user <| u_verified_at := Some t |> <| u_last_verifying_at := None |> <| u_login_verify_count := 0%Z |> in
  mignore (mdrop (User_save user)).

(** ** Deletion *)

Definition post_delete_recover (email : string) : M unit :=
  let* mail := conf mail_enabled in
  if mail then
    let* found := User_find_by_mail email in
    match found with
    | Some user => mignore (send_mail (MailDeleteAccount (u_email user) (u_uuid user)))
    | None => mret tt
    end
  else err "Please contact the administrator to delete your account".
Definition post_delete_recover_token (user_id token : string) : M unit :=
  let* sub := ok_or_err (decode_delete token) "Invalid claim" in
  let* found := User_find_by_uuid user_id in
  let* user := some_or_err found "User doesn't exist" in
  do* ensure (bool_decide (sub = u_uuid user)) "Invalid claim" in
  User_delete user.
Definition delete_account (data : PasswordOrOtpData) (headers : Session) : M unit :=
  do* PasswordOrOtpData_validate data (sn_user headers) true in
  User_delete (sn_user headers).
Definition post_delete_account := delete_account.

(** ** The revision date and the API key *)

(** [timestamp_millis] *)
Definition revision_date (headers : Session) : Json := JNum (u_updated_at (sn_user headers) / 1000000)%Z.
(** [expect] on a result *)
Definition expect_ok {A} (m : M A) : M A := λ e w, match m e w with (Err _, w) => (Panic, w) | rw => rw end.
Definition update_api_key (data : PasswordOrOtpData) (rotate : bool) (headers : Session) : M Json :=
  let user := sn_user headers in
  do* PasswordOrOtpData_validate data user true in
  let* user :=
    (if rotate || negb (is_not_null (u_api_key user)) then
       let* key := generate_api_key in
       expect_ok (User_save (user <| u_api_key := Some key |>))
     else mret user) in
  let* date := ask (λ e, format_date e (u_updated_at user)) in
  mret (JObj [("apiKey", json_opt JStr (u_api_key user)); ("revisionDate", JStr date); ("object", JStr "apiKey")]).
Definition post_account_api_key (data : PasswordOrOtpData) (headers : Session) : M Json := update_api_key data false headers.
Definition rotate_account_api_key (data : PasswordOrOtpData) (headers : Session) : M Json := update_api_key data true headers.
End accounts.

(** ** Example tokens *)

Module ToyAccounts.
(** Anyone may sign the address; other tokens are refused. *)
#[export] Instance toy_tokens : AccountTokens := {|
  decode_register_verify token := Ok (mkRegisterVerifyClaims token None true);
  decode_emergency_invite _ := Err (new_msg "no");
  decode_org_invite _ := Err (new_msg "no");
  decode_delete _ := Err (new_msg "no");
  decode_verify_email token := Ok token;
  encode_register_verify claims := Some (rv_sub claims);
|}.
End ToyAccounts.
