(* ===== verification/KeyRotation.v ===== *)
(** * Rotation of the account key

    [post_rotatekey] of [server/src/api/core/accounts.rs]: the client sends
    everything that is encrypted under the account key again.  The theorems say
    that a request which leaves something out changes nothing, and that after a
    rotation that succeeds everything stored is what the request gave. *)

From stdpp Require Import base strings numbers pretty gmap list.
From S2P Require Import Prelude Store JsonUtil Queries Users Orgs AuthRequests TwoFactor Sends Collections Signups Folders.
From S2P Require Import Login Sessions Ciphers Vault SendAccess VaultAccess VaultSafety EmergencyAccess EmergencyProtocol Profiles Members Accounts.

(** ** Requests *)

Record UpdateFolderData := mkUpdateFolderData { uf_id : option string; uf_name : string }.
Record UpdateEmergencyAccessData := mkUpdateEmergencyAccessData { ue_id : string; ue_key_encrypted : string }.
Record UpdateResetPasswordData := mkUpdateResetPasswordData { ur_organization_id : string; ur_reset_password_key : string }.
Record MasterPasswordUnlockData := mkMasterPasswordUnlockData {
  mp_kdf_type : Z; mp_kdf_iterations : Z; mp_kdf_parallelism : option Z; mp_kdf_memory : option Z; mp_email : string;
  mp_master_key_authentication_hash : string; mp_master_key_encrypted_user_key : string }.
Record RotateAccountUnlockData := mkRotateAccountUnlockData {
  emergency_access_unlock_data : list UpdateEmergencyAccessData;
  master_password_unlock_data : MasterPasswordUnlockData;
  organization_account_recovery_unlock_data : list UpdateResetPasswordData }.
Record RotateAccountKeys := mkRotateAccountKeys {
  user_key_encrypted_account_private_key : string; account_public_key : string }.
Record RotateAccountData := mkRotateAccountData {
  ra_ciphers : list CipherData; ra_folders : list UpdateFolderData; ra_sends : list SendData }.
Record KeyData := mkKeyData {
  account_unlock_data : RotateAccountUnlockData; account_keys : RotateAccountKeys; account_data : RotateAccountData;
  old_master_key_authentication_hash : string }.

(** ** Validation *)

(** [provided.is_superset(&existing)] on hash sets *)
Definition is_superset (provided existing : list string) : bool :=
  bool_decide (list_to_set existing ⊆@{gset string} list_to_set provided).

Definition provided_ciphers (data : KeyData) : list string :=
  omap cp_id (filter (λ c, cp_organization_id c = None) (ra_ciphers (account_data data))).
Definition provided_folders (data : KeyData) : list string := omap uf_id (ra_folders (account_data data)).
Definition provided_emergency_access (data : KeyData) : list string :=
  ue_id <$> emergency_access_unlock_data (account_unlock_data data).
Definition provided_reset_passwords (data : KeyData) : list string :=
  ur_organization_id <$> organization_account_recovery_unlock_data (account_unlock_data data).
Definition provided_sends (data : KeyData) : list string := omap sd_id (ra_sends (account_data data)).

Definition validate_keydata (data : KeyData) (existing_ciphers : list Cipher) (existing_folders : list Folder)
    (existing_emergency_access : list EmergencyAccess) (existing_memberships : list Membership)
    (existing_sends : list Send) (user : User) : M unit :=
  let unlock := master_password_unlock_data (account_unlock_data data) in
  do* ensure (bool_decide (u_client_kdf_type user = mp_kdf_type unlock) &&
              bool_decide (u_client_kdf_iter user = mp_kdf_iterations unlock) &&
              bool_decide (u_client_kdf_memory user = mp_kdf_memory unlock) &&
              bool_decide (u_client_kdf_parallelism user = mp_kdf_parallelism unlock) &&
              bool_decide (u_email user = mp_email unlock))
    "Changing the kdf variant or email is not supported during key rotation" in
  do* ensure (bool_decide (u_public_key user = Some (account_public_key (account_keys data))))
    "Changing the asymmetric keypair is not possible during key rotation" in
  do* ensure (is_superset (provided_ciphers data) (ci_uuid <$> existing_ciphers))
    "All existing ciphers must be included in the rotation" in
  do* ensure (is_superset (provided_folders data) (f_uuid <$> existing_folders))
    "All existing folders must be included in the rotation" in
  do* ensure (is_superset (provided_emergency_access data) (ea_uuid <$> existing_emergency_access))
    "All existing emergency access keys must be included in the rotation" in
  do* ensure (is_superset (provided_reset_passwords data) (m_org_uuid <$> existing_memberships))
    "All existing reset password keys must be included in the rotation" in
  ensure (is_superset (provided_sends data) (s_uuid <$> existing_sends))
    "All existing sends must be included in the rotation".

(** ** Rotation *)

(** [iter_mut().find(p)] and an update of the element found *)
Fixpoint update_found {A} (p : A → bool) (f : A → M A) (msg : string) (l : list A) : M (list A) :=
  match l with
  | [] => err msg
  | x :: l => if p x then let* x := f x in mret (x :: l)
              else let* l := update_found p f msg l in mret (x :: l)
  end.
(** A loop that updates a list along the way *)
Fixpoint fold_each {A S} (l : list A) (f : A → S → M S) (s : S) : M S :=
  match l with
  | [] => mret s
  | x :: l => let* s := f x s in fold_each l f s
  end.
(** [find(|s| &s.uuid == id.as_ref().unwrap())]: the identifier is looked at
    only when there is something to compare. *)
Definition unwrap_id {A} (id : option string) (l : list A) : M string :=
  match id, l with
  | Some id, _ => mret id
  | None, [] => mret ""
  | None, _ => mpanic
  end.

Definition rotate_folder (data : UpdateFolderData) (existing : list Folder) : M (list Folder) :=
  match uf_id data with
  | Some folder_id =>
     update_found (λ f, bool_decide (f_uuid f = folder_id)) (λ f, Folder_save (f <| f_name := uf_name data |>))
       "Folder doesn't exist" existing
  | None => mret existing
  end.
Definition rotate_emergency_access (data : UpdateEmergencyAccessData) (existing : list EmergencyAccess)
    : M (list EmergencyAccess) :=
  update_found (λ ea, bool_decide (ea_uuid ea = ue_id data))
    (λ ea, EmergencyAccess_save (ea <| ea_key_encrypted := Some (ue_key_encrypted data) |>))
    "Emergency access doesn't exist or is not owned by the user" existing.
Definition rotate_reset_password (data : UpdateResetPasswordData) (existing : list Membership) : M (list Membership) :=
  update_found (λ m, bool_decide (m_org_uuid m = ur_organization_id data))
    (λ m, let m := m <| m_reset_password_key := Some (ur_reset_password_key data) |> in
          do* Membership_save m in mret m)
    "Reset password doesn't exist" existing.
Definition rotate_send (headers : Headers) (data : SendData) (existing : list Send) : M (list Send) :=
  let* id := unwrap_id (sd_id data) existing in
  update_found (λ s, bool_decide (s_uuid s = id)) (λ s, update_send_from_data s data headers UTNone)
    "Send doesn't exist" existing.
Definition rotate_cipher (headers : Headers) (data : CipherData) (existing : list Cipher) : M (list Cipher) :=
  match cp_organization_id data with
  | None =>
     let* id := unwrap_id (cp_id data) existing in
     update_found (λ c, bool_decide (ci_uuid c = id)) (λ c, update_cipher_from_data c data headers None UpdateNone)
       "Cipher doesn't exist" existing
  | Some _ => mret existing
  end.

Section rotation.
Context `{!Serde UserStampException id}.

Definition rotate_user (data : KeyData) (user : User) : M unit :=
  let unlock := master_password_unlock_data (account_unlock_data data) in
  let user := user <| u_private_key := Some (user_key_encrypted_account_private_key (account_keys data)) |> in
  let* user := User_set_password user (mp_master_key_authentication_hash unlock)
    (Some (mp_master_key_encrypted_user_key unlock)) true None in
  mdrop (User_save user).

Definition post_rotatekey (data : KeyData) (headers : Session) (host : string) : M unit :=
  let user := sn_user headers in
  let user_id := u_uuid user in
  let* valid := User_check_valid_password user (old_master_key_authentication_hash data) in
  do* ensure valid "Invalid password" in
  do* Cipher_validate_cipher_data (ra_ciphers (account_data data)) in
  let* existing_ciphers := Cipher_find_owned_by_user user_id in
  let* existing_folders := Folder_find_by_user user_id in
  let* existing_emergency_access := EmergencyAccess_find_all_confirmed_by_grantor_uuid user_id in
  let* memberships := Membership_find_by_user user_id in
  let existing_memberships := filter (λ m, is_Some (m_reset_password_key m)) memberships in
  let* existing_sends := Send_find_by_user user_id in
  do* validate_keydata data existing_ciphers existing_folders existing_emergency_access existing_memberships
        existing_sends user in
  let* _ := fold_each (ra_folders (account_data data)) rotate_folder existing_folders in
  let* _ := fold_each (emergency_access_unlock_data (account_unlock_data data)) rotate_emergency_access
              existing_emergency_access in
  let* _ := fold_each (organization_account_recovery_unlock_data (account_unlock_data data)) rotate_reset_password
              existing_memberships in
  let* _ := fold_each (ra_sends (account_data data)) (rotate_send (as_headers headers host)) existing_sends in
  let* _ := fold_each (ra_ciphers (account_data data)) (rotate_cipher (as_headers headers host)) existing_ciphers in
  rotate_user data user.
End rotation.

(** ** What a rotation must include *)

Definition same_settings (unlock : MasterPasswordUnlockData) (u : User) : Prop :=
  u_client_kdf_type u = mp_kdf_type unlock ∧ u_client_kdf_iter u = mp_kdf_iterations unlock ∧
  u_client_kdf_memory u = mp_kdf_memory unlock ∧ u_client_kdf_parallelism u = mp_kdf_parallelism unlock ∧
  u_email u = mp_email unlock.
Definition personal (u : User) (c : Cipher) : Prop := ci_user_uuid c = Some (u_uuid u) ∧ ci_organization_uuid c = None.
Definition confirmed_grant (u : User) (r : EmergencyAccess) : Prop :=
  ea_grantor_uuid r = u_uuid u ∧ (EmergencyAccessStatus_to_i32 Confirmed ≤ ea_status r)%Z.
Definition recoverable (u : User) (m : Membership) : Prop := m_user_uuid m = u_uuid u ∧ is_Some (m_reset_password_key m).

(** Everything of the account that is encrypted under its key is in the request,
    and nothing that a rotation may not change is changed. *)
Record covers (data : KeyData) (d : Db) (u : User) : Prop := {
  cv_settings : same_settings (master_password_unlock_data (account_unlock_data data)) u;
  cv_keypair : u_public_key u = Some (account_public_key (account_keys data));
  cv_ciphers : ∀ k c, ciphers d !! k = Some c → personal u c →
    ∃ x, x ∈ ra_ciphers (account_data data) ∧ cp_organization_id x = None ∧ cp_id x = Some (ci_uuid c);
  cv_folders : ∀ k f, folders d !! k = Some f → f_user_uuid f = u_uuid u →
    ∃ x, x ∈ ra_folders (account_data data) ∧ uf_id x = Some (f_uuid f);
  cv_emergency : ∀ k r, emergency_access d !! k = Some r → confirmed_grant u r →
    ∃ x, x ∈ emergency_access_unlock_data (account_unlock_data data) ∧ ue_id x = ea_uuid r;
  cv_recovery : ∀ k m, users_organizations d !! k = Some m → recoverable u m →
    ∃ x, x ∈ organization_account_recovery_unlock_data (account_unlock_data data) ∧ ur_organization_id x = m_org_uuid m;
  cv_sends : ∀ k s, sends d !! k = Some s → s_user_uuid s = Some (u_uuid u) →
    ∃ x, x ∈ ra_sends (account_data data) ∧ sd_id x = Some (s_uuid s);
}.

Lemma is_superset_spec provided existing :
  is_superset provided existing = true ↔ ∀ x, x ∈ existing → x ∈ provided.
Proof. unfold is_superset. rewrite bool_decide_eq_true. set_solver. Qed.
Lemma is_superset_load {K V} `{Countable K} provided (key : V → string) (p : V → bool) (t : gmap K V) :
  is_superset provided (key <$> load p t) = true ↔ ∀ k r, t !! k = Some r → p r = true → key r ∈ provided.
Proof.
  rewrite is_superset_spec. setoid_rewrite list_elem_of_fmap. setoid_rewrite elem_of_load. naive_solver.
Qed.

(** The rows that a rotation looks at *)
Definition personal_ciphers (u : string) (d : Db) : list Cipher :=
  load (λ c, owned_by_user u c && negb (is_not_null (ci_organization_uuid c))) (ciphers d).
Definition own_folders (u : string) (d : Db) : list Folder := load (λ f, bool_decide (f_user_uuid f = u)) (folders d).
Definition own_grants (u : string) (d : Db) : list EmergencyAccess :=
  load (λ r, bool_decide (ea_grantor_uuid r = u) && (EmergencyAccessStatus_to_i32 Confirmed <=? ea_status r)%Z)
    (emergency_access d).
Definition own_recoveries (u : string) (d : Db) : list Membership :=
  filter (λ m, is_Some (m_reset_password_key m)) (load (is_user u) (users_organizations d)).
Definition own_sends (u : string) (d : Db) : list Send := load (owned_by u) (sends d).

(** The validation is exactly that condition. *)
Definition validation (data : KeyData) (u : User) (d : Db) : M unit :=
  validate_keydata data (personal_ciphers (u_uuid u) d) (own_folders (u_uuid u) d) (own_grants (u_uuid u) d)
    (own_recoveries (u_uuid u) d) (own_sends (u_uuid u) d) u.
Lemma reads_validate_keydata data cs fs es ms ss u : reads (validate_keydata data cs fs es ms ss u).
Proof. unfold validate_keydata. solve_reads. Qed.
#[export] Hint Resolve reads_validate_keydata : frame.
Lemma elem_of_omap_id {A} (f : A → option string) (l : list A) k : k ∈ omap f l ↔ ∃ x, x ∈ l ∧ f x = Some k.
Proof. apply list_elem_of_omap. Qed.
Lemma validation_Ok data u d e w w' : validation data u d e w = (Ok tt, w') → covers data d u.
Proof.
  unfold validation, validate_keydata. intros H. ok_inv H.
  rewrite !andb_true_iff, !bool_decide_eq_true in Hrun. rewrite bool_decide_eq_true in Hrun0.
  unfold personal_ciphers in Hrun1. rewrite is_superset_load in Hrun1. unfold own_folders in Hrun2. rewrite is_superset_load in Hrun2.
  unfold own_grants in Hrun3. rewrite is_superset_load in Hrun3. rewrite is_superset_spec in Hrun4.
  unfold own_sends in H. rewrite is_superset_load in H. split.
  - unfold same_settings. naive_solver.
  - done.
  - intros k c Hk [Hu Ho]. assert (ci_uuid c ∈ provided_ciphers data) as Hin.
    { apply (Hrun1 k c Hk). unfold owned_by_user. rewrite Ho, andb_true_r. by apply null_eq_Some. }
    apply elem_of_omap_id in Hin as (x & [Hx Hin]%list_elem_of_filter & Hid). eauto.
  - intros k f Hk Hu. apply elem_of_omap_id, (Hrun2 k f Hk). by apply bool_decide_eq_true.
  - intros k r Hk [Hu Hs]. assert (ea_uuid r ∈ provided_emergency_access data) as Hin.
    { apply (Hrun3 k r Hk). apply andb_true_iff. split; [by apply bool_decide_eq_true|by apply Z.leb_le]. }
    apply list_elem_of_fmap in Hin as (x & Hx & Hin). eauto.
  - intros k m Hk [Hu Hs]. assert (m_org_uuid m ∈ provided_reset_passwords data) as Hin.
    { apply Hrun4, list_elem_of_fmap. exists m. split; [done|]. apply list_elem_of_filter. split; [done|].
      apply elem_of_load. split; [by apply bool_decide_eq_true|eauto]. }
    apply list_elem_of_fmap in Hin as (x & Hx & Hin). eauto.
  - intros k s Hk Hu. apply elem_of_omap_id, (H k s Hk). by apply bool_decide_eq_true.
Qed.

(** ** The loops *)

Lemma update_found_Ok {A} p (f : A → M A) msg l : ∀ e w l' w',
  update_found p f msg l e w = (Ok l', w') →
  ∃ l1 x x' l2, l = l1 ++ x :: l2 ∧ l' = l1 ++ x' :: l2 ∧ Forall (λ y, p y = false) l1 ∧ p x = true ∧ f x e w = (Ok x', w').
Proof.
  induction l as [|x l IH]; simpl; intros e w l' w' H; [done|]. destruct (p x) eqn:Hp; ok_inv H.
  - by exists [], x, a, l.
  - destruct (IH _ _ _ _ Hrun) as (l1 & y & y' & l2 & -> & -> & Hl & Hy & Hf).
    exists (x :: l1), y, y', l2. split_and!; try done. by constructor.
Qed.
Lemma keeps_update_found {A X} (π : Db → X) p (f : A → M A) msg l : (∀ x, keeps π (f x)) → keeps π (update_found p f msg l).
Proof. intros Hf. induction l as [|x l IH]; simpl; [done|]. destruct (p x); solve_keeps. Qed.
Lemma keeps_fold_each {A S X} (π : Db → X) (l : list A) (f : A → S → M S) s :
  (∀ x s, keeps π (f x s)) → keeps π (fold_each l f s).
Proof. intros Hf. revert s. induction l as [|x l IH]; simpl; intros s; solve_keeps. Qed.
Lemma keeps_unwrap_id {A X} (π : Db → X) id (l : list A) : keeps π (unwrap_id id l).
Proof. by destruct id, l. Qed.
#[local] Hint Resolve keeps_unwrap_id : frame.

(** A loop whose rounds each write one row of a table: afterwards a row that
    some round named holds what the last such round gave, and the other rows
    are as they were. *)
Section rows.
Context {D V : Type} (tbl : Db → gmap string V) (ident : D → option string) (holds : D → V → Prop)
  (inv : list V → Prop) (f : D → list V → M (list V)) (e : Env).
Hypothesis round : ∀ x l w l' w', inv l → f x l e w = (Ok l', w') →
  inv l' ∧ match ident x with
           | None => tbl (db w') = tbl (db w)
           | Some id => ∃ v, holds x v ∧ tbl (db w') = <[id := v]> (tbl (db w))
           end.

Lemma fold_rows xs : ∀ l w l' w' k,
  inv l → fold_each xs f l e w = (Ok l', w') →
  (∃ x v, x ∈ xs ∧ ident x = Some k ∧ tbl (db w') !! k = Some v ∧ holds x v) ∨
  ((∀ x, x ∈ xs → ident x ≠ Some k) ∧ tbl (db w') !! k = tbl (db w) !! k).
Proof.
  induction xs as [|x xs IH]; simpl; intros l w l' w' k Hi H.
  - ok_inv H. right. split; [|done]. intros x Hx. by apply not_elem_of_nil in Hx.
  - ok_step H. destruct (round _ _ _ _ _ Hi Hrun) as [Hi1 Hr].
    destruct (IH _ _ _ _ k Hi1 H) as [(y & v & Hy & ?)|[Hno Hk]]; [left; exists y, v; split; [by right|done]|].
    rewrite Hk. destruct (ident x) as [id|] eqn:Hid.
    + destruct Hr as (v & Hv & ->). destruct (decide (id = k)) as [->|Hne].
      * left. exists x, v. rewrite lookup_insert_eq. split; [by left|done].
      * right. rewrite lookup_insert_ne by done. split; [|done]. intros y [->|Hy]%elem_of_cons; [congruence|auto].
    + right. rewrite Hr. split; [|done]. intros y [->|Hy]%elem_of_cons; [congruence|auto].
Qed.
Lemma fold_named xs l w l' w' x k :
  inv l → fold_each xs f l e w = (Ok l', w') → x ∈ xs → ident x = Some k →
  ∃ x v, x ∈ xs ∧ ident x = Some k ∧ tbl (db w') !! k = Some v ∧ holds x v.
Proof. intros Hi H Hx Hk. destruct (fold_rows _ _ _ _ _ k Hi H) as [?|[Hno _]]; [done|]. by destruct (Hno x). Qed.
End rows.

(** ** The rounds *)

(** The stored text of a cipher is that of the request. *)
Definition carries (e : Env) (x : CipherData) (c : Cipher) : Prop :=
  ci_key c = cp_key x ∧ ci_name c = cp_name x ∧ ci_notes c = cp_notes x ∧
  ci_password_history c = json_text e <$> cp_password_history x ∧
  (∃ fields, match cp_fields x with Some f => clean_cipher_data f = fields ∧ is_Some fields | None => fields = None end ∧
             ci_fields c = json_text e <$> fields) ∧
  (∃ t t', (cp_type x, Some t) ∈ [(1, cp_login x); (2, cp_secure_note x); (3, cp_card x); (4, cp_identity x);
                                  (5, cp_ssh_key x)]%Z ∧ clean_type_data t = Some t' ∧ ci_data c = json_text e t').
Definition send_carries (x : SendData) (s : Send) : Prop :=
  s_akey s = sd_key x ∧ s_name s = sd_name x ∧ s_notes s = sd_notes x.

Lemma assign_contents_Ok c x e w c' w' :
  assign_contents c x e w = (Ok c', w') → carries e x c' ∧ ci_uuid c' = ci_uuid c.
Proof.
  unfold assign_contents. intros H. ok_step H. rename Hrun into Ht. ok_step H. ok_step H. ok_step H. rename Hrun1 into Hf.
  ok_inv H. split; [|done]. unfold carries. simpl. do 4 (split; [done|]). split.
  - exists a2. split; [|done]. unfold opt_clean in Hf. destruct (cp_fields x); ok_inv Hf; [|done]. split; [done|by eexists].
  - exists a0, a1. split; [|done]. unfold type_data_opt in Ht.
    destruct (cp_type x) as [|p|p]; [done| |done]. do 3 (try destruct p as [p|p|]); try done; ok_inv Ht;
      rewrite <- Hrun, !elem_of_cons; tauto.
Qed.
Lemma keeps_ciphers_after c x u :
  keeps ciphers (do* Cipher_move_to_folder c (cp_folder_id x) u in
                 do* Cipher_set_favorite c (cp_favorite x) u in
                 do* set_archived_date c (cp_archived_date x) u in
                 mret c).
Proof.
  unfold Cipher_move_to_folder, Cipher_get_folder_uuid, Cipher_set_favorite, Favorite_set_favorite, Favorite_is_favorite,
    set_archived_date, Cipher_set_archived_at, Archive_save, FolderCipher_find_by_folder_and_cipher, FolderCipher_save,
    FolderCipher_delete. solve_keeps.
Qed.
Lemma keeps_update_attachments {X} (π : Db → X) k l :
  (∀ d a, π (d <| attachments := a |>) = π d) → keeps π (update_attachments k l).
Proof.
  intros Hπ. induction l as [|[id a] l IH]; simpl; unfold Attachment_find_by_id, Attachment_save; solve_keeps.
Qed.
Lemma reads_check_folder f u : reads (check_folder f u).
Proof. unfold check_folder, Folder_find_by_uuid_and_user. solve_reads. Qed.
Lemma keeps_users_revision {X} (π : Db → X) c :
  (∀ d us, π (d <| users := us |>) = π d) → keeps π (Cipher_update_users_revision c).
Proof.
  intros Hπ. assert (∀ v, keeps π (User_update_uuid_revision v)) by (intros v; by apply keeps_update_uuid_revision).
  unfold Cipher_update_users_revision, Membership_find_by_cipher_and_org, Membership_find_by_cipher_and_org_with_group,
    update_revisions. solve_keeps.
Qed.
Lemma Cipher_save_Ok c e w c' w' :
  Cipher_save c e w = (Ok c', w') →
  c' = c <| ci_updated_at := now e |> ∧ ciphers (db w') = <[ci_uuid c := c']> (ciphers (db w)).
Proof.
  unfold Cipher_save. intros H. ok_step H. apply (wp_run _ _ _ _ (keeps_users_revision ciphers _ ltac:(done) e w)) in Hrun.
  ok_inv H. split; [done|]. simpl. rewrite <- Hrun. unfold save_cipher_row. by case_match.
Qed.
Lemma update_cipher_Ok c x h e w c' w' :
  update_cipher_from_data c x h None UpdateNone e w = (Ok c', w') →
  ∃ v, carries e x v ∧ ciphers (db w') = <[ci_uuid c := v]> (ciphers (db w)).
Proof.
  unfold update_cipher_from_data. intros H. do 4 ok_step H.
  apply reads_Ok in Hrun; [|apply reads_ownership_policy]. apply reads_Ok in Hrun0; [|apply reads_check_stale].
  apply reads_Ok in Hrun2; [|apply reads_check_note]. subst. do 3 ok_step H.
  pose proof (wp_run _ _ _ _ (yields_assign_owner e _ _ _ _ w) _ _ Hrun _ eq_refl) as Hid.
  apply reads_Ok in Hrun; [|apply reads_assign_owner]. apply reads_Ok in Hrun0; [|apply reads_check_folder]. subst.
  assert (ciphers (db w2) = ciphers (db w)) as E2
    by exact (wp_run _ _ _ _ (keeps_update_attachments ciphers _ _ ltac:(done) e w) _ _ Hrun2).
  ok_step H. apply assign_contents_Ok in Hrun as Hc. apply reads_Ok in Hrun; [|apply reads_assign_contents]. subst.
  ok_step H. apply Cipher_save_Ok in Hrun as [-> E3].
  assert (ciphers (db w') = ciphers (db w0)) as ->.
  { apply (wp_run _ _ _ _ (keeps_ciphers_after _ x _ e w0) _ _ H). }
  exists (a6 <| ci_updated_at := now e |>). rewrite E3, E2. destruct Hc as [Hc ->].
  cbv beta in Hid. by rewrite Hid.
Qed.

Lemma set_send_fields_Ok s x e w s' w' :
  set_send_fields s x e w = (Ok s', w') → send_carries x s' ∧ s_uuid s' = s_uuid s ∧ db w' = db w.
Proof.
  unfold set_send_fields. intros H. ok_step H. ok_step H.
  assert (s_uuid a = s_uuid s ∧ w0 = w) as [Ea ->] by (destruct (data_is_type x Text); ok_inv Hrun; done).
  apply reads_Ok in Hrun0; [|auto with frame]. subst w1.
  destruct (sd_password x); [|by ok_inv H; split; [|split]].
  unfold Send_set_password, get_random_bytes, hash_password in H. ok_inv H. ok_inv Hrun0. by split; [|split].
Qed.
Lemma update_send_Ok s x h e w s' w' :
  update_send_from_data s x h UTNone e w = (Ok s', w') →
  ∃ v, send_carries x v ∧ sends (db w') = <[s_uuid s := v]> (sends (db w)).
Proof.
  unfold update_send_from_data. intros H. do 4 ok_step H. apply reads_Ok in Hrun1; [|auto with frame]. subst w0.
  apply set_send_fields_Ok in Hrun2 as (Hc & Hid & E). ok_step H. unfold Send_save in Hrun1. ok_step Hrun1.
  assert (sends (db w2) = sends (db w)) as E2.
  { rewrite <- E. unfold Send_update_users_revision in Hrun2. destruct (s_user_uuid a2); [|by ok_inv Hrun2].
    ok_inv Hrun2. exact (wp_run _ _ _ _ (keeps_update_uuid_revision sends _ ltac:(done) e w1) _ _ Hrun3). }
  ok_inv Hrun1. ok_inv H. exists (a2 <| s_revision_date := now e |>). simpl. by rewrite Hid, E2.
Qed.

Section rounds.
Context (e : Env).

Lemma folder_round x l w l' w' :
  True → rotate_folder x l e w = (Ok l', w') →
  True ∧ match uf_id x with
         | None => folders (db w') = folders (db w)
         | Some id => ∃ v, f_name v = uf_name x ∧ folders (db w') = <[id := v]> (folders (db w))
         end.
Proof.
  intros _ H. split; [done|]. unfold rotate_folder in H. destruct (uf_id x) as [id|]; [|by ok_inv H].
  apply update_found_Ok in H as (l1 & f & f' & l2 & _ & _ & _ & Hid & H). apply bool_decide_eq_true in Hid as <-.
  unfold Folder_save in H. ok_step H. ok_inv H. eexists. split; [|simpl; f_equal]; [done|].
  exact (wp_run _ _ _ _ (keeps_update_uuid_revision folders _ ltac:(done) e w) _ _ Hrun).
Qed.
Lemma emergency_round x l w l' w' :
  True → rotate_emergency_access x l e w = (Ok l', w') →
  True ∧ ∃ v, ea_key_encrypted v = Some (ue_key_encrypted x) ∧
    emergency_access (db w') = <[ue_id x := v]> (emergency_access (db w)).
Proof.
  intros _ H. split; [done|]. unfold rotate_emergency_access in H.
  apply update_found_Ok in H as (l1 & r & r' & l2 & _ & _ & _ & Hid & H). apply bool_decide_eq_true in Hid as <-.
  unfold EmergencyAccess_save in H. ok_step H. ok_inv H. eexists. split; [|simpl; f_equal]; [done|].
  exact (wp_run _ _ _ _ (keeps_update_uuid_revision emergency_access _ ltac:(done) e w) _ _ Hrun).
Qed.
Lemma send_round h x l w l' w' :
  True → rotate_send h x l e w = (Ok l', w') →
  True ∧ match sd_id x with
         | None => sends (db w') = sends (db w)
         | Some id => ∃ v, send_carries x v ∧ sends (db w') = <[id := v]> (sends (db w))
         end.
Proof.
  intros _ H. split; [done|]. unfold rotate_send, unwrap_id in H. destruct (sd_id x) as [id|]; [|by destruct l].
  ok_step H. apply update_found_Ok in H as (l1 & s & s' & l2 & _ & _ & _ & Hid & H). apply bool_decide_eq_true in Hid as <-.
  by eapply update_send_Ok.
Qed.
(** The identifier of a personal cipher *)
Definition personal_id (x : CipherData) : option string :=
  match cp_organization_id x with None => cp_id x | Some _ => None end.
Lemma cipher_round h x l w l' w' :
  True → rotate_cipher h x l e w = (Ok l', w') →
  True ∧ match personal_id x with
         | None => ciphers (db w') = ciphers (db w)
         | Some id => ∃ v, carries e x v ∧ ciphers (db w') = <[id := v]> (ciphers (db w))
         end.
Proof.
  intros _ H. split; [done|]. unfold rotate_cipher, unwrap_id, personal_id in *. destruct (cp_organization_id x); [by ok_inv H|].
  destruct (cp_id x) as [id|]; [|by destruct l].
  ok_step H. apply update_found_Ok in H as (l1 & c & c' & l2 & _ & _ & _ & Hid & H). apply bool_decide_eq_true in Hid as <-.
  by eapply update_cipher_Ok.
Qed.
(** Memberships are found by their organization; the list keeps both
    identifiers. *)
Definition member_ids (m : Membership) : string * string := (m_uuid m, m_org_uuid m).
Fixpoint member_of_org (l : list (string * string)) (org : string) : option string :=
  match l with
  | [] => None
  | (id, o) :: l => if bool_decide (o = org) then Some id else member_of_org l org
  end.
Lemma member_of_org_app l1 m l2 org :
  Forall (λ m, bool_decide (m_org_uuid m = org) = false) l1 → m_org_uuid m = org →
  member_of_org (member_ids <$> (l1 ++ m :: l2)) org = Some (m_uuid m).
Proof.
  intros Hl Hm. induction Hl as [|y l1 Hy _ IH]; simpl; [by rewrite bool_decide_eq_true_2|by rewrite Hy].
Qed.
Lemma member_of_org_elem l m :
  m ∈ l → (∀ m2, m2 ∈ l → m_org_uuid m2 = m_org_uuid m → m_uuid m2 = m_uuid m) →
  member_of_org (member_ids <$> l) (m_org_uuid m) = Some (m_uuid m).
Proof.
  induction l as [|y l IH]; intros Hm Hu; [by apply not_elem_of_nil in Hm|]. simpl. case_bool_decide as Hy.
  - f_equal. apply Hu; [by left|done].
  - apply elem_of_cons in Hm as [->|Hm]; [done|]. apply IH; [done|]. intros m2 H2. apply Hu. by right.
Qed.
Lemma member_of_org_Some l org k :
  member_of_org (member_ids <$> l) org = Some k → ∃ m, m ∈ l ∧ m_uuid m = k ∧ m_org_uuid m = org.
Proof.
  induction l as [|y l IH]; simpl; [done|]. case_bool_decide as Hy.
  - intros [= <-]. exists y. by split; [left|].
  - intros (m & Hm & ?)%IH. exists m. by split; [right|].
Qed.
Definition recovery_holds (x : UpdateResetPasswordData) (m : Membership) : Prop :=
  m_org_uuid m = ur_organization_id x ∧ m_reset_password_key m = Some (ur_reset_password_key x).
Lemma recovery_round ids x l w l' w' :
  member_ids <$> l = ids → rotate_reset_password x l e w = (Ok l', w') →
  member_ids <$> l' = ids ∧
  match member_of_org ids (ur_organization_id x) with
  | None => users_organizations (db w') = users_organizations (db w)
  | Some id => ∃ v, recovery_holds x v ∧ users_organizations (db w') = <[id := v]> (users_organizations (db w))
  end.
Proof.
  intros <- H. unfold rotate_reset_password in H.
  apply update_found_Ok in H as (l1 & m & m' & l2 & -> & -> & Hl & Hid & H). apply bool_decide_eq_true in Hid.
  rewrite (member_of_org_app _ _ _ _ Hl Hid). unfold Membership_save in H. ok_step H. ok_inv H. ok_inv Hrun. split.
  - by rewrite !fmap_app.
  - exists (m <| m_reset_password_key := Some (ur_reset_password_key x) |>). split; [by split|]. simpl. f_equal.
    exact (wp_run _ _ _ _ (keeps_update_uuid_revision users_organizations _ ltac:(done) e w) _ _ Hrun0).
Qed.
End rounds.

(** *** What the parts leave alone *)

Lemma keeps_rotate_emergency x l : keeps folders (rotate_emergency_access x l).
Proof. unfold rotate_emergency_access, EmergencyAccess_save. apply keeps_update_found. solve_keeps. Qed.
Lemma keeps_rotate_recovery x l : keeps (λ d, (folders d, emergency_access d)) (rotate_reset_password x l).
Proof. unfold rotate_reset_password, Membership_save. apply keeps_update_found. solve_keeps. Qed.
Lemma keeps_rotate_send h x l : keeps (λ d, (folders d, emergency_access d, users_organizations d)) (rotate_send h x l).
Proof.
  unfold rotate_send. apply keeps_bind; [auto with frame|]. intros id. apply keeps_update_found. intros s.
  unfold update_send_from_data, check_deletion_date, plus_days, set_send_fields, opt_into_i32, into_i32, Send_save,
    Send_update_users_revision, Send_set_password, get_random_bytes, hash_password. solve_keeps. destruct n; solve_keeps.
Qed.
Lemma keeps_update_cipher c x h :
  keeps (λ d, (folders d, emergency_access d, users_organizations d, sends d))
    (update_cipher_from_data c x h None UpdateNone).
Proof.
  unfold update_cipher_from_data.
  apply keeps_bind; [apply keeps_of_reads, reads_ownership_policy|intros _].
  apply keeps_bind; [apply keeps_of_reads, reads_check_stale|intros _].
  apply keeps_bind; [apply keeps_ensure|intros _].
  apply keeps_bind; [apply keeps_of_reads, reads_check_note|intros _].
  apply keeps_bind; [apply keeps_of_reads, reads_assign_owner|intros c1].
  apply keeps_bind; [apply keeps_of_reads, reads_check_folder|intros _].
  apply keeps_bind; [by apply keeps_update_attachments|intros _].
  apply keeps_bind; [apply keeps_of_reads, reads_assign_contents|intros c2].
  apply keeps_bind.
  { unfold Cipher_save. apply keeps_bind; [by apply keeps_users_revision|intros _]. unfold save_cipher_row, cascade_archives.
    solve_keeps. apply keeps_exec. intros d. by case_match. }
  intros c3. rewrite (bool_decide_eq_true_2 (UpdateNone = UpdateNone)) by done.
  unfold Cipher_move_to_folder, Cipher_get_folder_uuid, Cipher_set_favorite, Favorite_set_favorite, Favorite_is_favorite, set_archived_date, Cipher_set_archived_at, Archive_save, FolderCipher_find_by_folder_and_cipher,
    FolderCipher_save, FolderCipher_delete. solve_keeps.
Qed.
Lemma keeps_rotate_cipher h x l :
  keeps (λ d, (folders d, emergency_access d, users_organizations d, sends d)) (rotate_cipher h x l).
Proof.
  unfold rotate_cipher. destruct (cp_organization_id x); [done|]. apply keeps_bind; [auto with frame|]. intros id.
  apply keeps_update_found. intros c. apply keeps_update_cipher.
Qed.

(** ** Properties *)

(** The account after a rotation: new key, wrapped keys and password, a new
    security stamp; the rest of it stays. *)
Definition rotated_user (e : Env) (i : nat) (data : KeyData) (u : User) : User :=
  let unlock := master_password_unlock_data (account_unlock_data data) in
  (with_password e i (u <| u_private_key := Some (user_key_encrypted_account_private_key (account_keys data)) |>)
    (mp_master_key_authentication_hash unlock) (Some (mp_master_key_encrypted_user_key unlock))) <| u_updated_at := now e |>.

(** Everything of the account is stored as the request gives it. *)
Record rotated (e : Env) (data : KeyData) (d d' : Db) (u : User) : Prop := {
  rt_ciphers : ∀ k c, ciphers d !! k = Some c → personal u c →
    ∃ x c', x ∈ ra_ciphers (account_data data) ∧ cp_organization_id x = None ∧ cp_id x = Some k ∧
      ciphers d' !! k = Some c' ∧ carries e x c';
  rt_folders : ∀ k f, folders d !! k = Some f → f_user_uuid f = u_uuid u →
    ∃ x f', x ∈ ra_folders (account_data data) ∧ uf_id x = Some k ∧ folders d' !! k = Some f' ∧ f_name f' = uf_name x;
  rt_emergency : ∀ k r, emergency_access d !! k = Some r → confirmed_grant u r →
    ∃ x r', x ∈ emergency_access_unlock_data (account_unlock_data data) ∧ ue_id x = k ∧
      emergency_access d' !! k = Some r' ∧ ea_key_encrypted r' = Some (ue_key_encrypted x);
  rt_recovery : ∀ k m, users_organizations d !! k = Some m → recoverable u m →
    ∃ x m', x ∈ organization_account_recovery_unlock_data (account_unlock_data data) ∧
      users_organizations d' !! k = Some m' ∧ m_org_uuid m = ur_organization_id x ∧
      m_reset_password_key m' = Some (ur_reset_password_key x);
  rt_sends : ∀ k s, sends d !! k = Some s → s_user_uuid s = Some (u_uuid u) →
    ∃ x s', x ∈ ra_sends (account_data data) ∧ sd_id x = Some k ∧ sends d' !! k = Some s' ∧ send_carries x s';
  rt_user : ∃ i, users d' !! u_uuid u = Some (rotated_user e i data u);
}.
(** Rows sit under their identifiers, and a user has one membership per
    organization. *)
Record rotation_tables (d : Db) : Prop := {
  rk_vault : tables_ok d;
  rk_emergency : ea_keyed (emergency_access d);
  rk_sends : ∀ k s, sends d !! k = Some s → s_uuid s = k;
}.

Section theorems.
Context `{!Serde UserStampException id}.
Context (data : KeyData) (s : Session) (host : string) (e : Env).
Let u := sn_user s.

Lemma reads_check_password v pw : reads (User_check_valid_password v pw).
Proof. unfold User_check_valid_password, verify_password_hash. solve_reads. Qed.
Lemma reads_validate_ciphers l : reads (Cipher_validate_cipher_data l).
Proof. intros e0 w. unfold Cipher_validate_cipher_data, conf, ask, mbind. case_match; by eexists. Qed.

(** The request comes with the password of the account. *)
Definition password_given (w : World) : Prop :=
  User_check_valid_password u (old_master_key_authentication_hash data) e w = (Ok true, w).

(** C16: a key rotation that does not come with the password of the account, or
    that leaves out any folder, send, personal cipher, emergency access or
    recovery key of the account, or that changes its key pair, address or key
    derivation, is refused and changes nothing. *)
Theorem rotation_refused w :
  ¬ (password_given w ∧ covers data (db w) u) →
  ∃ r, post_rotatekey data s host e w = (r, w) ∧ r ≠ Ok tt.
Proof.
  intros Hno. enough (wp (post_rotatekey data s host) e w (λ r w', w' = w ∧ r ≠ Ok tt)) as (r & w' & Hrun & -> & Hr)%wp_exists
    by eauto.
  unfold post_rotatekey. apply wp_bind, wp_intro. intros r w1 Hpw.
  assert (w1 = w) as -> by (destruct (reads_check_password u (old_master_key_authentication_hash data) e w) as [r' Hr'];
    by injection (eq_trans (eq_sym Hpw) Hr')).
  destruct r as [valid|x|]; simpl; [|done..]. wp_step. wp_step; [subst valid|done]. wp_step.
  apply wp_bind, wp_reads; [apply reads_validate_ciphers|]. intros [[]|x|]; simpl; [|done..].
  unfold Cipher_find_owned_by_user, Folder_find_by_user, EmergencyAccess_find_all_confirmed_by_grantor_uuid, ea_load,
    Membership_find_by_user, members, Send_find_by_user. do 15 wp_step.
  apply wp_bind, wp_intro. intros r w' Hrun. destruct (reads_validate_keydata data (personal_ciphers (u_uuid u) (db w))
    (own_folders (u_uuid u) (db w)) (own_grants (u_uuid u) (db w)) (own_recoveries (u_uuid u) (db w))
    (own_sends (u_uuid u) (db w)) u e w) as [r' Hr].
  assert ((r, w') = (r', w)) as [= -> ->] by (by rewrite <- Hr, <- Hrun).
  destruct r' as [[]|x|]; simpl; [|done..]. destruct Hno. split; [exact Hpw|exact (validation_Ok _ _ _ _ _ _ Hr)].
Qed.

Lemma rotate_user_Ok w w' :
  rotate_user data u e w = (Ok tt, w') →
  (∃ i, users (db w') !! u_uuid u = Some (rotated_user e i data u)) ∧
  (folders (db w'), emergency_access (db w'), users_organizations (db w'), sends (db w'), ciphers (db w'))
  = (folders (db w), emergency_access (db w), users_organizations (db w), sends (db w), ciphers (db w)).
Proof.
  unfold rotate_user. intros H. ok_step H. apply set_password_Ok in Hrun as [-> Hk]. unfold User_save in H. ok_inv H. split.
  - exists (tick w). simpl. apply lookup_insert_eq.
  - apply (Hk _ (λ d, (folders d, emergency_access d, users_organizations d, sends d, ciphers d))). done.
Qed.

Lemma recovery_rewritten w w1 w2 l' :
  tables_ok (db w) → covers data (db w) u →
  fold_each (organization_account_recovery_unlock_data (account_unlock_data data)) rotate_reset_password
    (own_recoveries (u_uuid u) (db w)) e w1 = (Ok l', w2) →
  ∀ k m, users_organizations (db w) !! k = Some m → recoverable u m →
    ∃ x m', x ∈ organization_account_recovery_unlock_data (account_unlock_data data) ∧
      users_organizations (db w2) !! k = Some m' ∧ m_org_uuid m = ur_organization_id x ∧
      m_reset_password_key m' = Some (ur_reset_password_key x).
Proof.
  intros Hv Hc Hrun k m Hk Hm. destruct (cv_recovery _ _ _ Hc k m Hk Hm) as (x & Hx & Hid).
  assert (∀ m2, m2 ∈ own_recoveries (u_uuid u) (db w) →
    m_user_uuid m2 = u_uuid u ∧ ∃ k2, users_organizations (db w) !! k2 = Some m2) as Hin.
  { intros m2 [_ [Hu2%bool_decide_eq_true Hk2]%elem_of_load]%list_elem_of_filter. done. }
  assert (member_of_org (member_ids <$> own_recoveries (u_uuid u) (db w)) (m_org_uuid m) = Some k) as Hmo.
  { rewrite <- (ok_members _ Hv _ _ Hk). destruct Hm as [Hm1 Hm2]. apply member_of_org_elem.
    - apply list_elem_of_filter. split; [done|]. apply elem_of_load. split; [by apply bool_decide_eq_true|eauto].
    - intros m2 [Hu2 [k2 Hk2]]%Hin Ho. f_equal. apply (ok_members_unique _ Hv _ _ _ _ Hk2 Hk); congruence. }
  destruct (fold_named users_organizations _ recovery_holds _ _ e (recovery_round e _) _ _ _ _ _ x k eq_refl Hrun Hx)
    as (y & v & Hy & Hyk & Hv' & [Ho Hn]); [by rewrite Hid|]. exists y, v. split_and!; try done.
  apply member_of_org_Some in Hyk as (m3 & [_ [k3 Hk3]]%Hin & Hu3 & Ho3).
  rewrite (ok_members _ Hv _ _ Hk3) in Hu3. subst k3. congruence.
Qed.

(** C17: after a key rotation that succeeds, the old password was given, nothing
    was left out, every folder, send, personal cipher, emergency access and
    recovery key of the account is stored as the request gives it, and the
    account has the new key, password and security stamp. *)
Theorem rotation_complete w w' :
  rotation_tables (db w) → post_rotatekey data s host e w = (Ok tt, w') →
  password_given w ∧ covers data (db w) u ∧ rotated e data (db w) (db w') u.
Proof.
  intros [Hv Hea Hs] H. unfold post_rotatekey in H. ok_step H. apply reads_Ok in Hrun as E; [|apply reads_check_password].
  subst w0. rename Hrun into Hpw. ok_step H. ok_step H. apply reads_Ok in Hrun0; [|apply reads_validate_ciphers]. subst.
  unfold Cipher_find_owned_by_user, Folder_find_by_user, EmergencyAccess_find_all_confirmed_by_grantor_uuid, ea_load,
    Membership_find_by_user, members, Send_find_by_user in H. do 6 ok_step H.
  apply reads_Ok in Hrun as E; [|apply reads_validate_keydata]. subst w0.
  match type of Hrun with _ = (Ok ?x, _) => destruct x end.
  assert (covers data (db w) u) as Hc by exact (validation_Ok _ _ _ _ _ _ Hrun). split; [done|]. split; [done|]. clear Hrun.
  do 5 ok_step H. destruct (rotate_user_Ok _ _ H) as [Hu [= F1 F2 F3 F4 F5]].
  pose proof (wp_run _ _ _ _ (keeps_fold_each _ _ _ _ (keeps_rotate_cipher _) e w3) _ _ Hrun3) as [= C1 C2 C3 C4].
  pose proof (wp_run _ _ _ _ (keeps_fold_each _ _ _ _ (keeps_rotate_send _) e w2) _ _ Hrun2) as [= S1 S2 S3].
  pose proof (wp_run _ _ _ _ (keeps_fold_each _ _ _ _ keeps_rotate_recovery e w1) _ _ Hrun1) as [= R1 R2].
  pose proof (wp_run _ _ _ _ (keeps_fold_each _ _ _ _ keeps_rotate_emergency e w0) _ _ Hrun0) as E1. simpl in E1.
  split; [..|exact Hu].
  - intros k c Hk Hp. destruct (cv_ciphers _ _ _ Hc k c Hk Hp) as (x & Hx & Ho & Hid). rewrite (ok_ciphers _ Hv _ _ Hk) in Hid.
    destruct (fold_named ciphers personal_id (carries e) (λ _, True) _ e (cipher_round e _) _ _ _ _ _ x k I Hrun3 Hx)
      as (y & v & Hy & Hyk & Hv' & Hcar); [by unfold personal_id; rewrite Ho|].
    unfold personal_id in Hyk. destruct (cp_organization_id y) eqn:Hyo; [done|]. exists y, v. rewrite F5. split_and!; done.
  - intros k f Hk Hf. destruct (cv_folders _ _ _ Hc k f Hk Hf) as (x & Hx & Hid). rewrite (ok_folders _ Hv _ _ Hk) in Hid.
    destruct (fold_named folders uf_id (λ x f, f_name f = uf_name x) (λ _, True) _ e (folder_round e) _ _ _ _ _ x k I Hrun Hx Hid)
      as (y & v & Hy & Hyk & Hv' & Hn). exists y, v. rewrite F1, C1, S1, R1, E1. done.
  - intros k r Hk Hr. destruct (cv_emergency _ _ _ Hc k r Hk Hr) as (x & Hx & Hid). rewrite (Hea _ _ Hk) in Hid.
    destruct (fold_named emergency_access (Some ∘ ue_id) (λ x r, ea_key_encrypted r = Some (ue_key_encrypted x)) (λ _, True) _ e
      (emergency_round e) _ _ _ _ _ x k I Hrun0 Hx) as (y & v & Hy & [= Hyk] & Hv' & Hn); [simpl; congruence|].
    exists y, v. rewrite F2, C2, S2, R2. done.
  - intros k m Hk Hm. destruct (recovery_rewritten w w1 w2 _ Hv Hc Hrun1 k m Hk Hm) as (y & v & ?). exists y, v.
    by rewrite F3, C3, S3.
  - intros k x0 Hk Hx0. destruct (cv_sends _ _ _ Hc k x0 Hk Hx0) as (x & Hx & Hid). rewrite (Hs _ _ Hk) in Hid.
    destruct (fold_named sends sd_id send_carries (λ _, True) _ e (send_round e _) _ _ _ _ _ x k I Hrun2 Hx Hid)
      as (y & v & Hy & Hyk & Hv' & Hn). exists y, v. by rewrite F4, C4.
Qed.
End theorems.

(** ** Examples *)

Module ToyRotation.
Import ToyEnv ToyUsers ToyVault.

(** Alice has a folder, a cipher, a send, an emergency contact and a recovery key. *)
Definition alice : User := (toy_user "alice") <| u_public_key := Some "public" |>.
Definition alice_session : Session := mkSession (toy_device "d1" "alice") alice "ip".
Definition rotation_db (policies : gmap string OrgPolicy) : Db := empty_db
  <| users := {["alice" := alice]} |>
  <| devices := {[("d1", "alice") := toy_device "d1" "alice"]} |>
  <| folders := {["f1" := mkFolder "f1" 0 0 "alice" "old"]} |>
  <| ciphers := {["c2" := toy_cipher "c2" (Some "alice") None]} |>
  <| sends := {[toy_id := toy_send 0]} |>
  <| emergency_access := {["ea" := (toy_grant 2 1) <| ea_uuid := "ea" |> <| ea_grantor_uuid := "alice" |>]} |>
  <| users_organizations := {["m1" := mkMembership "m1" "alice" "org" None false "" 2 2 (Some "old") None]} |>
  <| org_policies := policies |>.
Definition rotation_world (policies : gmap string OrgPolicy) : World := mkWorld (rotation_db policies) 100 [] ∅ ∅.
Definition new_cipher : CipherData := mkCipherData (Some "c2") (Some "f1") None (Some "key") 1 "new" None None
  (Some (JObj [])) None None None None None None None None None None.
Definition new_send : SendData := mkSendData 0 "new" None None None 0 false None "new" None (Some (JObj [])) None None (Some toy_id).
Definition rotation_request (folders : list UpdateFolderData) : KeyData := {|
  account_unlock_data := mkRotateAccountUnlockData [mkUpdateEmergencyAccessData "ea" "new"]
    (mkMasterPasswordUnlockData 0 600000 None None "alice@example.org" "newpw" "newkey") [mkUpdateResetPasswordData "org" "new"];
  account_keys := mkRotateAccountKeys "newprivate" "public";
  account_data := mkRotateAccountData [new_cipher] folders [new_send];
  old_master_key_authentication_hash := "pw" |}.
Definition new_folder : UpdateFolderData := mkUpdateFolderData (Some "f1") "new".
Definition rotate (folders : list UpdateFolderData) (policies : gmap string OrgPolicy) :=
  post_rotatekey (rotation_request folders) alice_session "host" (toy_env 0) (rotation_world policies).

(** Without the folder; and with everything, but with a wrong password *)
Definition wrong_password : KeyData :=
  let r := rotation_request [new_folder] in mkKeyData (account_unlock_data r) (account_keys r) (account_data r) "wrong".
Lemma rotation_refused_witness :
  (∃ r, rotate [] ∅ = (r, rotation_world ∅) ∧ r ≠ Ok tt) ∧
  (∃ r, post_rotatekey wrong_password alice_session "host" (toy_env 0) (rotation_world ∅) = (r, rotation_world ∅) ∧ r ≠ Ok tt).
Proof.
  split.
  - apply (rotation_refused (rotation_request []) alice_session "host" (toy_env 0)). intros [_ Hc].
    destruct (cv_folders _ _ _ Hc "f1" (mkFolder "f1" 0 0 "alice" "old") eq_refl eq_refl) as (x & Hx & _).
    exact (not_elem_of_nil x Hx).
  - apply (rotation_refused wrong_password alice_session "host" (toy_env 0)). intros [Hp _].
    apply (f_equal fst) in Hp. vm_compute in Hp. discriminate Hp.
Defined.
Lemma rotation_tables_ok : rotation_tables (rotation_db ∅).
Proof.
  split.
  - apply (bool_decide_unpack (tables_ok (rotation_db ∅))). vm_compute. exact I.
  - intros k r H. change (({["ea" := (toy_grant 2 1) <| ea_uuid := "ea" |> <| ea_grantor_uuid := "alice" |>]} : gmap string _) !! k = Some r) in H.
    apply lookup_singleton_Some in H as [<- <-]. reflexivity.
  - intros k r H. change (({[toy_id := toy_send 0]} : gmap string _) !! k = Some r) in H.
    apply lookup_singleton_Some in H as [<- <-]. reflexivity.
Qed.
Lemma rotation_complete_witness :
  ∃ w', rotate [new_folder] ∅ = (Ok tt, w') ∧ rotated (toy_env 0) (rotation_request [new_folder]) (rotation_db ∅) (db w') alice.
Proof.
  unfold rotate. destruct (post_rotatekey _ _ _ _ _) as [r w'] eqn:Hr.
  assert (r = Ok tt) as -> by (apply (f_equal fst) in Hr; vm_compute in Hr; by symmetry).
  destruct (rotation_complete (rotation_request [new_folder]) alice_session "host" (toy_env 0) (rotation_world ∅) w'
    rotation_tables_ok Hr) as (_ & _ & H). exists w'. split; [reflexivity|exact H].
Defined.

(** The personal-ownership policy of an organization stops a rotation at its
    first personal cipher, when the names of the folders, the keys of the
    emergency contacts and of the recovery, and the sends are already stored under
    the new account key, which is then dropped: the account keeps the old one. *)
Theorem rotation_stops_halfway :
  let policies := {["p1" := mkOrgPolicy "p1" "org" 5 true "{}"]} in
  ∃ msg w', rotate [new_folder] policies = (Err (new_msg msg), w') ∧
    users (db w') !! "alice" = Some (alice <| u_updated_at := 0%Z |>) ∧
    (f_name <$> folders (db w') !! "f1", ea_key_encrypted <$> emergency_access (db w') !! "ea",
     m_reset_password_key <$> users_organizations (db w') !! "m1", s_akey <$> sends (db w') !! toy_id)
    = (Some "new", Some (Some "new"), Some (Some "new"), Some "new") ∧
    ciphers (db w') = ciphers (rotation_db policies).
Proof.
  eexists _, _. split; [vm_compute; reflexivity|]. split; [vm_compute; reflexivity|]. split; vm_compute; reflexivity.
Qed.
End ToyRotation.
