(* ===== verification/DeviceApproval.v ===== *)
(** * Devices, and logging in with the approval of another device

    The endpoints of [server/src/api/core/accounts.rs] on devices and on the
    requests of a new device that another one approves, with the parts of
    [db/models/device.rs] and [auth_request.rs] that only they use.  The
    theorems are in [ApprovalSafety]. *)

From Stdlib Require Import Ascii.
From stdpp Require Import base strings numbers pretty gmap list.
From S2P Require Import Prelude Store JsonUtil Queries Users Orgs AuthRequests TwoFactor Login Sessions Accounts.

(** ** Requests *)

(** [auth::ClientHeaders]: what is known of a client without a session. *)
Record ClientHeaders := mkClientHeaders { ch_device_type : Z; ch_ip : string }.
Definition UnknownBrowser_i32 : Z := 14.
Definition ClientHeaders_from_request (device_type : option string) (ip : string) : ClientHeaders :=
  mkClientHeaders (default UnknownBrowser_i32 (d ← device_type; n ← parse_signed (chars d); to_i32 n)) ip.

Record AuthRequestRequest := mkAuthRequestRequest {
  aq_access_code : string; aq_device_identifier : string; aq_email : string; aq_public_key : string }.
Record AuthResponseRequest := mkAuthResponseRequest {
  as_device_identifier : string; as_key : string; as_master_password_hash : option string; as_request_approved : bool }.

#[export] Instance eta_AuthRequest : Eta AuthRequest := λ r,
  mkAuthRequest (ar_uuid r) (ar_user_uuid r) (ar_organization_uuid r) (ar_request_device_identifier r) (ar_device_type r)
    (ar_request_ip r) (ar_response_device_id r) (ar_access_code r) (ar_public_key r) (ar_enc_key r)
    (ar_master_password_hash r) (ar_approved r) (ar_creation_date r) (ar_response_date r) (ar_authentication_date r).

(** *** KnownDevice *)

(** [String::from_utf8] accepts well-formed text: no overlong forms, no
    surrogates, nothing beyond the last code point. *)
Definition utf8_cont (c : Z) : bool := ((128 <=? c) && (c <=? 191))%Z.
Definition utf8_second3 (a b : Z) : bool :=
  (if a =? 224 then (160 <=? b) && (b <=? 191) else if a =? 237 then (128 <=? b) && (b <=? 159) else utf8_cont b)%Z.
Definition utf8_second4 (a b : Z) : bool :=
  (if a =? 240 then (144 <=? b) && (b <=? 191) else if a =? 244 then (128 <=? b) && (b <=? 143) else utf8_cont b)%Z.
Fixpoint utf8_ok (s : list Z) : bool :=
  match s with
  | [] => true
  | a :: s1 =>
     if (a <? 128)%Z then utf8_ok s1 else
     match s1 with
     | [] => false
     | b :: s2 =>
        if ((194 <=? a) && (a <=? 223))%Z then utf8_cont b && utf8_ok s2 else
        match s2 with
        | [] => false
        | c :: s3 =>
           if ((224 <=? a) && (a <=? 239))%Z then utf8_second3 a b && utf8_cont c && utf8_ok s3 else
           match s3 with
           | [] => false
           | d :: s4 => ((240 <=? a) && (a <=? 244))%Z && utf8_second4 a b && utf8_cont c && utf8_cont d && utf8_ok s4
           end
        end
     end
  end.
(** [trim_end_matches('=')] *)
Fixpoint trim_padding (s : string) : string :=
  match s with
  | EmptyString => EmptyString
  | String c s => match trim_padding s with
                  | EmptyString => if bool_decide (c = "="%char) then EmptyString else String c EmptyString
                  | s => String c s
                  end
  end.
(** The address and the identifier of a device, from two headers. *)
Definition KnownDevice_from_request (x_request_email x_device_identifier : option string) : M (string * string) :=
  match x_request_email with
  | None => err_code "X-Request-Email value is required" 400
  | Some email_b64 =>
     let* decoded := ask (λ e, decode_base64url e (trim_padding email_b64)) in
     match decoded with
     | None => err_code "X-Request-Email value failed to decode as base64url" 400
     | Some email_bytes =>
        if utf8_ok email_bytes then
          match x_device_identifier with
          | Some uuid => mret (string_of_chars email_bytes, uuid)
          | None => err_code "X-Device-Identifier value is required" 400
          end
        else err_code "X-Request-Email value failed to decode as UTF-8" 400
     end
  end.
Definition get_known_device (device : string * string) : M Json :=
  let '(email, uuid) := device in
  let* found := User_find_by_mail email in
  match found with
  | Some user => let* d := Device_find_by_uuid_and_user uuid (u_uuid user) in mret (JBool (is_not_null d))
  | None => mret (JBool false)
  end.

(** ** Devices *)

(** [order_by(creation_date.desc()).first()] *)
Definition latest (l : list AuthRequest) : option AuthRequest :=
  foldl (λ acc r, match acc with
                  | Some a => if (ar_creation_date a <? ar_creation_date r)%Z then Some r else Some a
                  | None => Some r
                  end) None l.
Definition AuthRequest_find_by_user_and_requested_device (user_uuid device_uuid : string) : M (option AuthRequest) :=
  query (λ d, latest (load (λ r, bool_decide (ar_user_uuid r = user_uuid) &&
                                 bool_decide (ar_request_device_identifier r = device_uuid) &&
                                 bool_decide (ar_approved r = None)) (auth_requests d))).
Definition AuthRequest_to_json_for_pending_device (self : AuthRequest) : M Json :=
  ask (λ e, JObj [("id", JStr (ar_uuid self)); ("creationDate", JStr (format_date e (ar_creation_date self)))]).
Definition Device_to_json (self : Device) : M Json :=
  ask (λ e, JObj [("id", JStr (d_uuid self)); ("name", JStr (d_name self)); ("type", JNum (d_atype self));
                  ("identifier", JStr (d_uuid self)); ("creationDate", JStr (format_date e (d_created_at self)));
                  ("isTrusted", JBool false); ("object", JStr "device")]).
Definition DeviceWithAuthRequest_to_json (device : Device) (pending_auth_request : option AuthRequest) : M Json :=
  let* auth_request := match pending_auth_request with
                       | Some r => AuthRequest_to_json_for_pending_device r
                       | None => mret JNull
                       end in
  ask (λ e, JObj [("id", JStr (d_uuid device)); ("name", JStr (d_name device)); ("type", JNum (d_atype device));
                  ("identifier", JStr (d_uuid device)); ("creationDate", JStr (format_date e (d_created_at device)));
                  ("devicePendingAuthRequest", auth_request); ("isTrusted", JBool false); ("encryptedPublicKey", JNull);
                  ("encryptedUserKey", JNull); ("object", JStr "device")]).
Definition Device_find_with_auth_request_by_user (user_uuid : string) : M (list (Device * option AuthRequest)) :=
  let* devices := Device_find_by_user user_uuid in
  collect devices (λ device,
    let* auth_request := AuthRequest_find_by_user_and_requested_device user_uuid (d_uuid device) in
    mret (device, auth_request)).

Definition get_all_devices (headers : Session) : M Json :=
  let* devices := Device_find_with_auth_request_by_user (u_uuid (sn_user headers)) in
  let* devices := collect devices (λ '(device, auth_request), DeviceWithAuthRequest_to_json device auth_request) in
  mret (JObj [("data", JArr devices); ("continuationToken", JNull); ("object", JStr "list")]).
Definition get_device_by_id (device_id : string) (headers : Session) : M Json :=
  let* found := Device_find_by_uuid_and_user device_id (u_uuid (sn_user headers)) in
  let* device := some_or_err found "No device found" in
  Device_to_json device.
Definition get_tasks : Json := JObj [("data", JArr []); ("object", JStr "list")].

Section devices.
Context (svc : Services).
(** The push relay takes back a registration. *)
Context (push_relay_reachable : bool).

(** The identifier of the path is only used in messages. *)
Definition put_device_token (device_id push_token : string) (headers : Session) : M unit :=
  let* found := Device_find_by_uuid_and_user (d_uuid (sn_device headers)) (u_uuid (sn_user headers)) in
  let* device := some_or_err found ("Error: device " +:+ device_id +:+ " should be present before a token can be assigned") in
  if bool_decide (d_push_token device = Some push_token) then mret tt
  else
    let* device := Device_save (device <| d_push_token := Some push_token |>) true in
    mdrop (register_push_device svc device).
Definition post_device_token := put_device_token.
Definition unregister_push_device (push_id : option string) : M unit :=
  let* enabled := conf push_enabled in
  ensure (negb enabled || negb (is_not_null push_id) || push_relay_reachable) "An error occurred during device unregistration".
(** There is no session: whoever knows the identifier of a device may clear its token. *)
Definition put_clear_device_token (device_id : string) : M unit :=
  let* enabled := conf push_enabled in
  if negb enabled then mret tt
  else
    let* found := Device_find_by_uuid device_id in
    match found with
    | Some device =>
       do* Device_clear_push_token_by_uuid device_id in
       unregister_push_device (d_push_uuid device)
    | None => mret tt
    end.
Definition post_clear_device_token := put_clear_device_token.
End devices.

(** ** Approvals *)

Definition UserRequestedDeviceApproval : Z := 1010.
Definition OrganizationUserApprovedAuthRequest : Z := 1513.
Definition OrganizationUserRejectedAuthRequest : Z := 1514.

(** The answers of all endpoints have the same fields. *)
Definition auth_request_json (r : AuthRequest) (response_date : option Z) (approved : Json) : M Json :=
  let* origin := conf domain_origin in
  ask (λ e, JObj [
    ("id", JStr (ar_uuid r)); ("publicKey", JStr (ar_public_key r));
    ("requestDeviceType", JStr (DeviceType_display (DeviceType_from_i32 (ar_device_type r))));
    ("requestIpAddress", JStr (ar_request_ip r)); ("key", json_opt JStr (ar_enc_key r));
    ("masterPasswordHash", json_opt JStr (ar_master_password_hash r));
    ("creationDate", JStr (format_date e (ar_creation_date r)));
    ("responseDate", json_opt (λ t, JStr (format_date e t)) response_date); ("requestApproved", approved);
    ("origin", JStr origin); ("object", JStr "auth-request")]).
Definition shown (r : AuthRequest) : M Json := auth_request_json r (ar_response_date r) (json_opt JBool (ar_approved r)).

Definition post_auth_request (data : AuthRequestRequest) (client_headers : ClientHeaders) : M Json :=
  let* found := User_find_by_mail (aq_email data) in
  let* user := some_or_err found "AuthRequest doesn't exist" in
  let* found := Device_find_by_uuid_and_user (aq_device_identifier data) (u_uuid user) in
  do* ensure (match found with Some device => (d_atype device =? ch_device_type client_headers)%Z | None => false end)
    "AuthRequest doesn't exist" in
  let* auth_request := AuthRequest_new (u_uuid user) (aq_device_identifier data) (ch_device_type client_headers)
    (ch_ip client_headers) (aq_access_code data) (aq_public_key data) in
  do* AuthRequest_save auth_request in
  do* log_user_event UserRequestedDeviceApproval (u_uuid user) (ch_device_type client_headers) (ch_ip client_headers) in
  auth_request_json auth_request None (JBool false).

Definition get_auth_request (auth_request_id : string) (headers : Session) : M Json :=
  let* found := AuthRequest_find_by_uuid_and_user auth_request_id (u_uuid (sn_user headers)) in
  let* auth_request := some_or_err found "AuthRequest doesn't exist" in
  shown auth_request.

(** What an approval makes of a request *)
Definition approve (r : AuthRequest) (data : AuthResponseRequest) (t : Z) : AuthRequest :=
  r <| ar_approved := Some (as_request_approved data) |> <| ar_enc_key := Some (as_key data) |>
    <| ar_master_password_hash := as_master_password_hash data |>
    <| ar_response_device_id := Some (as_device_identifier data) |> <| ar_response_date := Some t |>.
Definition put_auth_request (auth_request_id : string) (data : AuthResponseRequest) (headers : Session) : M Json :=
  let* found := AuthRequest_find_by_uuid_and_user auth_request_id (u_uuid (sn_user headers)) in
  let* auth_request := some_or_err found "AuthRequest doesn't exist" in
  do* ensure (bool_decide (d_uuid (sn_device headers) = as_device_identifier data)) "AuthRequest doesn't exist" in
  do* ensure (bool_decide (ar_approved auth_request = None))
    "An authentication request with the same device already exists" in
  let* response_date := ask now in
  let* auth_request :=
    (if as_request_approved data then
       let auth_request := approve auth_request data response_date in
       do* AuthRequest_save auth_request in
       do* log_session headers OrganizationUserApprovedAuthRequest in
       mret auth_request
     else
       do* AuthRequest_delete auth_request in
       do* log_session headers OrganizationUserRejectedAuthRequest in
       mret auth_request) in
  auth_request_json auth_request (Some response_date) (json_opt JBool (ar_approved auth_request)).

Definition get_auth_request_response (auth_request_id code : string) (client_headers : ClientHeaders) : M Json :=
  let* found := AuthRequest_find_by_uuid auth_request_id in
  let* auth_request := some_or_err found "AuthRequest doesn't exist" in
  do* ensure ((ar_device_type auth_request =? ch_device_type client_headers)%Z &&
              bool_decide (ar_request_ip auth_request = ch_ip client_headers) &&
              AuthRequest_check_access_code auth_request code) "AuthRequest doesn't exist" in
  shown auth_request.

Definition get_auth_requests_pending (headers : Session) : M Json :=
  let* auth_requests := AuthRequest_find_by_user (u_uuid (sn_user headers)) in
  let* l := collect (filter (λ r, ar_approved r = None) auth_requests) shown in
  mret (JObj [("data", JArr l); ("continuationToken", JNull); ("object", JStr "list")]).
Definition get_auth_requests := get_auth_requests_pending.

(** A pool that gives no connection is only logged. *)
Definition purge_auth_requests (connected : bool) : M unit :=
  if connected then AuthRequest_purge_expired_auth_requests else mret tt.
