(* ===== verification/AccountRequests.v ===== *)
(** * Requests to the account endpoints

    The handlers of [Accounts], [KeyRotation] and [DeviceApproval] that write to
    the database, behind their request guards, as one function from requests to
    runs. *)

From stdpp Require Import base strings numbers pretty gmap list relations.
From S2P Require Import Prelude Store JsonUtil Queries Users Orgs AuthRequests TwoFactor Sends Collections Signups Folders.
From S2P Require Import Login Sessions SessionSafety Ciphers Vault EmergencyAccess Profiles Members Accounts KeyRotation.
From S2P Require Import OrgRequests DeviceApproval.

(** With a session *)
Inductive AccountCall :=
  | PostSetPassword (data : SetPasswordData)
  | PostProfile (name : string)
  | PutAvatar (color : option string)
  | PostKeys (data : KeysData)
  | PostPassword (data : ChangePassData)
  | PostKdf (data : ChangeKdfData)
  | PostRotatekey (data : KeyData)
  | PostSstamp (data : PasswordOrOtpData)
  | PostEmailToken (data : ChangeEmailTokenData)
  | PostEmail (data : ChangeEmailData)
  | PostVerifyEmail
  | DeleteAccount (data : PasswordOrOtpData)
  | VerifyPassword (hash : string)
  | UpdateApiKey (data : PasswordOrOtpData) (rotate : bool)
  | PutDeviceToken (device_id token : string)
  | PutAuthRequest (id : string) (data : AuthResponseRequest).
(** Without one; the last two are jobs of the server. *)
Inductive OpenCall :=
  | Register (data : RegisterData) (email_verification : bool)
  | RegisterVerificationEmail (data : RegisterVerificationData)
  | PostVerifyEmailToken (user_id token : string)
  | PostDeleteRecover (email : string)
  | PostDeleteRecoverToken (user_id token : string)
  | PasswordHint (email : string)
  | PutClearDeviceToken (device_id : string)
  | PostAuthRequest (data : AuthRequestRequest) (client : ClientHeaders)
  | PurgeAuthRequests (connected : bool).
Inductive AccountRequest := InSession (c : AccountCall) (rq : Request) | Open (c : OpenCall).

Section requests.
Context `{!Serde ProtectedActionData pa_stored, !Serde EmailTokenData id, !Serde UserStampException id} `{FL : FileLinks}.
Context `{AT : AccountTokens} (svc : Services) (push_relay_reachable : bool).
(** The host name of the request *)
Context (host : string).

Definition run_account_call (c : AccountCall) (s : Session) : M unit :=
  match c with
  | PostSetPassword data => mdrop (post_set_password data s)
  | PostProfile name => mdrop (post_profile name s)
  | PutAvatar color => mdrop (put_avatar color s)
  | PostKeys data => mdrop (post_keys data s)
  | PostPassword data => post_password data s
  | PostKdf data => post_kdf data s
  | PostRotatekey data => post_rotatekey data s host
  | PostSstamp data => post_sstamp data s
  | PostEmailToken data => post_email_token data s
  | PostEmail data => post_email data s
  | PostVerifyEmail => post_verify_email s
  | DeleteAccount data => delete_account data s
  | VerifyPassword hash => mdrop (verify_password hash s)
  | UpdateApiKey data rotate => mdrop (update_api_key data rotate s)
  | PutDeviceToken id token => put_device_token svc id token s
  | PutAuthRequest id data => let* id := route_param (Some id) in mdrop (put_auth_request id data s)
  end.
Definition run_open_call (c : OpenCall) : M unit :=
  match c with
  | Register data verification => mdrop (register data verification)
  | RegisterVerificationEmail data => mdrop (register_verification_email data)
  | PostVerifyEmailToken user_id token => post_verify_email_token user_id token
  | PostDeleteRecover email => post_delete_recover email
  | PostDeleteRecoverToken user_id token => post_delete_recover_token user_id token
  | PasswordHint email => password_hint email
  | PutClearDeviceToken id => put_clear_device_token push_relay_reachable id
  | PostAuthRequest data client => mdrop (post_auth_request data client)
  | PurgeAuthRequests connected => purge_auth_requests connected
  end.
Definition serve_account (r : AccountRequest) : M unit :=
  match r with
  | InSession c rq => let* s := Headers_from_request svc rq in run_account_call c s
  | Open c => run_open_call c
  end.
End requests.
