(* ===== verification/AccountFrames.v ===== *)
(** * What the account endpoints leave alone

    Whatever the outcome, a request changes at most the account it is about, and
    only the endpoints for approvals by device change the requests for them. *)

From stdpp Require Import base strings numbers pretty gmap list.
From S2P Require Import Prelude Store JsonUtil Queries Users Orgs AuthRequests TwoFactor Sends Collections Signups Folders.
From S2P Require Import Login Sessions SessionSafety Ciphers Vault SendAccess VaultAccess VaultSafety EmergencyAccess Profiles Members.
From S2P Require Import OrgRequests Accounts KeyRotation DeviceApproval AccountRequests.

(** An account, but for the date of its last change. *)
Definition account (o : option User) : option User := (λ u, u <| u_updated_at := 0%Z |>) <$> o.

(** Apart from the accounts in [P], accounts are as before; and so are the
    requests for approval. *)
Record aside_rel (P : string → Prop) (w w' : World) : Prop := {
  aside_requests : auth_requests (db w') = auth_requests (db w);
  aside_tick : tick w ≤ tick w';
  aside_users : ∀ k, ¬ P k → account (users (db w') !! k) = account (users (db w) !! k);
}.
#[export] Instance aside_world_rel P : WorldRel (aside_rel P).
Proof.
  split.
  - split; [by split|]. intros w w1 w2 [E1 T1 U1] [E2 T2 U2]. split; [congruence|lia|].
    intros k Hk. rewrite U2, U1; done.
  - intros w. split; simpl; [done|lia|done].
  - by split.
Qed.

(** The list of a loop is not part of the world. *)
Section loops.
Context {R : relation World} `{!WorldRel R}.
Lemma within_update_found {A} p (f : A → M A) msg l : (∀ x, within R (f x)) → within R (update_found p f msg l).
Proof. intros Hf. induction l as [|x l IH]; simpl; [solve_within|]. destruct (p x); solve_within. Qed.
Lemma within_fold_each {A S} (l : list A) (f : A → S → M S) s : (∀ x s, within R (f x s)) → within R (fold_each l f s).
Proof. intros Hf. revert s. induction l as [|x l IH]; simpl; intros s; solve_within. Qed.
Lemma within_collect {A B} (l : list A) (f : A → M B) : (∀ x, within R (f x)) → within R (collect l f).
Proof. intros Hf. induction l; simpl; solve_within. Qed.
Lemma within_outcome m : within R m → within R (outcome m).
Proof. intros Hm e w. specialize (Hm e w). unfold wp, outcome in *. by destruct (m e w) as [[] ?]. Qed.
Lemma within_expect_ok {A} (m : M A) : within R m → within R (expect_ok m).
Proof. intros Hm e w. specialize (Hm e w). unfold wp, expect_ok in *. by destruct (m e w) as [[] ?]. Qed.
Lemma within_mdrop {A} (m : M A) : within R m → within R (mdrop m).
Proof. intros Hm. unfold mdrop. solve_within. Qed.
Lemma within_unwrap_id {A} id (l : list A) : within R (unwrap_id id l).
Proof. apply within_reads. destruct id, l; intros ??; by eexists. Qed.
Lemma within_lift_res {A} (r : res Error A) : within R (lift_res r).
Proof. apply within_reads. intros ??. by eexists. Qed.
Lemma within_ok_or_err {A} (r : res Error A) msg : within R (ok_or_err r msg).
Proof. apply within_reads. destruct r; intros ??; by eexists. Qed.
(** A step whose result is an account, and what follows when the account is
    still the same one. *)
Definition same_id (m : M User) (u : User) : Prop := ∀ e w u' w', m e w = (Ok u', w') → u_uuid u' = u_uuid u.
Lemma within_same_id {B} (m : M User) (k : User → M B) u :
  within R m → same_id m u → (∀ u', u_uuid u' = u_uuid u → within R (k u')) → within R (mbind m k).
Proof.
  intros Hm Hid Hk e w. apply wp_bind, wp_intro. intros r w1 Hrun. pose proof (wp_run _ _ _ _ (Hm e w) _ _ Hrun) as H1.
  destruct r as [u'|x|]; simpl; [|done..]. eapply wp_mono; [apply Hk; by eapply Hid|]. intros r w2 H2. by etrans.
Qed.
Lemma within_random_string l n : within R (get_random_string l n).
Proof. induction n; simpl; solve_within. Qed.
End loops.
#[export] Hint Extern 1 (within _ (unwrap_id _ _)) => apply within_unwrap_id : within.
#[export] Hint Extern 1 (within _ (lift_res _)) => apply within_lift_res : within.
#[export] Hint Extern 1 (within _ (ok_or_err _ _)) => apply within_ok_or_err : within.
#[export] Hint Extern 1 (within _ (get_random_string _ _)) => apply within_random_string : within.

Section aside.
Context (P : string → Prop).
Abbreviation aside := (within (aside_rel P)).

Lemma aside_exec f :
  (∀ d, auth_requests (f d) = auth_requests d) → (∀ d, users (f d) = users d) → aside (exec f).
Proof. intros Ha Hu. apply within_exec. intros w. split; simpl; [apply Ha|done|]. intros k _. by rewrite Hu. Qed.
Hint Extern 1 (aside (exec _)) => apply aside_exec; done : within.
Lemma aside_revision_impl v t : aside (User_update_revision_impl v t).
Proof.
  apply within_exec. intros w. split; simpl; [done..|]. intros k _. unfold account.
  destruct (decide (v = k)) as [->|Hne]; [|by rewrite lookup_alter_ne].
  rewrite lookup_alter_eq. by destruct (users (db w) !! k).
Qed.
Hint Resolve aside_revision_impl : within.
Lemma aside_revision v : aside (User_update_uuid_revision v).
Proof. unfold User_update_uuid_revision. solve_within. Qed.
Hint Resolve aside_revision : within.
Lemma aside_save u : P (u_uuid u) → aside (User_save u).
Proof.
  intros Hp. unfold User_save. solve_within. apply within_exec. intros w. split; simpl; [done..|]. intros k Hk.
  rewrite lookup_insert_ne; [done|]. by intros <-.
Qed.
Lemma aside_member_events t u dt date ip l : aside (member_events t u dt date ip l).
Proof. induction l; simpl; unfold Event_new; solve_within. Qed.
Hint Resolve aside_member_events : within.
Lemma aside_log_user_event t u dt ip : aside (log_user_event t u dt ip).
Proof. unfold log_user_event, log_user_event_impl, Event_new, Event_save_user_event. solve_within. Qed.
Lemma aside_log_event t s o a dt ip : aside (log_event t s o a dt ip).
Proof. unfold log_event, log_event_impl, Event_new, Event_save. solve_within. Qed.
Lemma aside_Invitation_take mail : aside (Invitation_take mail).
Proof. unfold Invitation_take, Invitation_delete. solve_within. Qed.
Lemma aside_Invitation_save mail : aside (Invitation_save mail).
Proof. unfold Invitation_save. solve_within. Qed.
Lemma aside_Membership_save m : aside (Membership_save m).
Proof. unfold Membership_save. solve_within. Qed.
Lemma aside_accept_invitations u : aside (Membership_accept_user_invitations u).
Proof. unfold Membership_accept_user_invitations. solve_within. Qed.
Lemma aside_EmergencyAccess_save r : aside (EmergencyAccess_save r).
Proof. unfold EmergencyAccess_save. solve_within. Qed.
Lemma aside_Folder_save f : aside (Folder_save f).
Proof. unfold Folder_save. solve_within. Qed.
Lemma aside_Device_save d b : aside (Device_save d b).
Proof. unfold Device_save. solve_within. Qed.
Hint Resolve aside_log_user_event aside_log_event aside_Invitation_take aside_Invitation_save aside_Membership_save
  aside_accept_invitations aside_EmergencyAccess_save aside_Folder_save aside_Device_save : within.

Lemma aside_cipher_revision c : aside (Cipher_update_users_revision c).
Proof. unfold Cipher_update_users_revision, update_revisions. solve_within. Qed.
Hint Resolve aside_cipher_revision : within.
Lemma aside_delete_attachment_file p : aside (delete_attachment_file p).
Proof.
  unfold delete_attachment_file, attachments_operator. solve_within. intros e w.
  apply wp_intro. intros r w'. case_match; intros [= <- <-]; by split.
Qed.
Hint Resolve aside_delete_attachment_file : within.
Lemma aside_Cipher_delete c : aside (Cipher_delete c).
Proof.
  unfold Cipher_delete, FolderCipher_delete_all_by_cipher, CollectionCipher_delete_all_by_cipher,
    Attachment_delete_all_by_cipher, Attachment_delete, Favorite_delete_all_by_cipher. solve_within.
Qed.
Lemma aside_Send_delete s : aside (Send_delete s).
Proof.
  unfold Send_delete, Send_update_users_revision, sends_operator, delete_files. solve_within.
  intros e w. apply wp_intro. intros r w'. case_match; intros [= <- <-]; by split.
Qed.
Lemma aside_EmergencyAccess_delete ea : aside (EmergencyAccess_delete ea).
Proof. unfold EmergencyAccess_delete. solve_within. Qed.
Lemma aside_Folder_delete f : aside (Folder_delete f).
Proof. unfold Folder_delete, FolderCipher_delete_all_by_folder. solve_within. Qed.
Lemma aside_Membership_delete m : aside (Membership_delete m).
Proof.
  unfold Membership_delete, CollectionUser_delete_all_by_user_and_org, GroupUser_delete_all_by_member,
    GroupUser_update_user_revision. solve_within.
Qed.
Hint Resolve aside_Cipher_delete aside_Send_delete aside_EmergencyAccess_delete aside_Folder_delete
  aside_Membership_delete : within.
Lemma aside_check_owner m : aside (check_not_last_owner m).
Proof. unfold check_not_last_owner, Membership_count_confirmed_by_org_and_type. solve_within. Qed.
Hint Resolve aside_check_owner : within.
Lemma aside_User_delete u : P (u_uuid u) → aside (User_delete u).
Proof.
  intros Hp. unfold User_delete, Send_delete_all_by_user, EmergencyAccess_delete_all_by_user,
    EmergencyAccess_delete_all_by_grantee_email, Membership_delete_all_by_user, Cipher_delete_all_by_user,
    Favorite_delete_all_by_user, Folder_delete_all_by_user, Device_delete_all_by_user, TwoFactor_delete_all_by_user,
    TwoFactorIncomplete_delete_all_by_user. solve_within.
  apply within_exec. intros w. split; simpl; [done..|]. intros k Hk. rewrite lookup_delete_ne; [done|]. by intros <-.
Qed.

(** *** Ciphers and sends *)

Lemma aside_update_attachments k l : aside (update_attachments k l).
Proof. induction l as [|[id a] l IH]; simpl; unfold Attachment_save; solve_within. Qed.
Lemma aside_Cipher_save c : aside (Cipher_save c).
Proof.
  unfold Cipher_save. solve_within. apply aside_exec; intros d; unfold save_cipher_row; by case_match.
Qed.
Lemma aside_update_cipher c x h : aside (update_cipher_from_data c x h None UpdateNone).
Proof.
  unfold update_cipher_from_data. rewrite (bool_decide_eq_true_2 (UpdateNone = UpdateNone)) by done.
  apply within_bind; [apply within_reads, reads_ownership_policy|intros _].
  apply within_bind; [apply within_reads, reads_check_stale|intros _].
  apply within_bind; [apply within_reads, reads_ensure|intros _].
  apply within_bind; [apply within_reads, reads_check_note|intros _].
  apply within_bind; [apply within_reads, reads_assign_owner|intros c1].
  apply within_bind; [apply within_reads, reads_check_folder|intros _].
  apply within_bind; [apply aside_update_attachments|intros _].
  apply within_bind; [apply within_reads, reads_assign_contents|intros c2].
  apply within_bind; [apply aside_Cipher_save|intros c3].
  unfold Cipher_move_to_folder, FolderCipher_save, FolderCipher_delete, Cipher_set_favorite, Favorite_set_favorite,
    set_archived_date, Cipher_set_archived_at, Archive_save. solve_within.
Qed.
Lemma aside_update_send s x h : aside (update_send_from_data s x h UTNone).
Proof.
  unfold update_send_from_data, set_send_fields, Send_set_password, get_random_bytes, hash_password, Send_save,
    Send_update_users_revision. solve_within; apply within_reads; auto with frame.
Qed.
Hint Resolve aside_update_cipher aside_update_send : within.

(** *** Handlers *)

Section with_services.
Context `{!Serde ProtectedActionData pa_stored, !Serde EmailTokenData id, !Serde UserStampException id} `{FL : FileLinks}.
Context `{AT : AccountTokens} (svc : Services) (relay : bool) (host : string).

Lemma aside_validate d u del : aside (PasswordOrOtpData_validate d u del).
Proof.
  unfold PasswordOrOtpData_validate, validate_protected_action_otp, TwoFactor_delete, TwoFactor_save,
    ProtectedActionData_from_json, ProtectedActionData_time_since_sent, User_check_valid_password, verify_password_hash.
  destruct (po_master_password_hash d), (po_otp d); solve_within.
Qed.
Lemma aside_activate_2fa u : aside (activate_email_2fa u).
Proof. unfold activate_email_2fa, EmailTokenData_new, TwoFactor_new, TwoFactor_save. solve_within. Qed.
Hint Resolve aside_activate_2fa : within.
Lemma aside_check_user_allowed m action : aside (OrgPolicy_check_user_allowed m action).
Proof.
  unfold OrgPolicy_check_user_allowed, find_and_activate_email_2fa, Membership_count_accepted_and_confirmed_by_user. solve_within.
Qed.
Lemma aside_rotate_tokens u : aside (Device_rotate_refresh_tokens_by_user u).
Proof.
  unfold Device_rotate_refresh_tokens_by_user, rotate_device, generate_refresh_token, encode_random_bytes, get_random_bytes.
  solve_within.
Qed.
Hint Resolve aside_validate aside_check_user_allowed aside_rotate_tokens : within.
Lemma aside_set_password u pw key stamp routes : aside (User_set_password u pw key stamp routes).
Proof.
  unfold User_set_password, User_set_stamp_exception, User_reset_security_stamp, hash_password. destruct routes; solve_within.
Qed.
Lemma aside_accept_org_invite u m k : aside (accept_org_invite u m k).
Proof. unfold accept_org_invite. solve_within. Qed.
Lemma reads_User_to_json u : reads (User_to_json u).
Proof.
  unfold User_to_json. apply reads_bind; [by intros ??; eexists|]. intros l. apply reads_bind; [|solve_reads].
  apply reads_collect. intros m. unfold Membership_to_json. solve_reads.
Qed.
Lemma reads_master_password_policy u : reads (master_password_policy u).
Proof. unfold master_password_policy. solve_reads; case_match; solve_reads. Qed.
Hint Resolve aside_set_password aside_accept_org_invite : within.
#[local] Hint Resolve reads_User_to_json reads_master_password_policy : frame.
Lemma reads_set_kdf_data u k : reads (set_kdf_data u k).
Proof. unfold set_kdf_data. solve_reads. Qed.
#[local] Hint Resolve reads_set_kdf_data reads_check_password reads_validate_ciphers : frame.

Lemma same_id_kdf u k : same_id (set_kdf_data u k) u.
Proof. intros e w u' w' H. unfold set_kdf_data in H. do 2 ok_step H.
  destruct (kdf k =? Argon2id)%Z; ok_inv Hrun0; by ok_inv H. Qed.
Lemma same_id_save u : same_id (User_save u) u.
Proof. intros e w u' w' H. unfold User_save in H. by ok_inv H. Qed.
Lemma same_id_reset u : same_id (User_reset_security_stamp u) u.
Proof. intros e w u' w' H. unfold User_reset_security_stamp in H. by ok_inv H. Qed.
Lemma same_id_set_password u pw key stamp routes : same_id (User_set_password u pw key stamp routes) u.
Proof.
  intros e w u' w' H. unfold User_set_password in H. ok_step H. ok_step H.
  assert (u_uuid a0 = u_uuid u) as Hid by (destruct routes; [unfold User_set_stamp_exception in Hrun0; by ok_inv Hrun0|by ok_inv Hrun0]).
  destruct stamp; [apply same_id_reset in H; rewrite H|ok_inv H]; by destruct key.
Qed.
Ltac next_user L := eapply within_same_id; [solve [solve_within]|apply L|]; let u := fresh "u" in let H := fresh "Hid" in intros u H.

Lemma aside_save_last u : P (u_uuid u) → aside (mdrop (User_save u)).
Proof. intros Hp. apply within_mdrop. by apply aside_save. Qed.
Lemma aside_post_set_password data s : P (u_uuid (sn_user s)) → aside (post_set_password data s).
Proof.
  intros Hp. unfold post_set_password, enforce_password_hint_setting. do 2 (apply within_bind; [solve_within|intros _]).
  next_user same_id_kdf. next_user same_id_set_password. apply within_bind; [case_match; solve_within|intros _].
  solve_within. apply aside_save. destruct (sp_keys data); simpl; congruence.
Qed.
Lemma aside_post_password data s : P (u_uuid (sn_user s)) → aside (post_password data s).
Proof.
  intros Hp. unfold post_password, enforce_password_hint_setting, log_session. do 4 (apply within_bind; [solve_within|intros ?]).
  next_user same_id_set_password. apply aside_save_last. by rewrite Hid.
Qed.
Lemma aside_post_kdf data s : P (u_uuid (sn_user s)) → aside (post_kdf data s).
Proof.
  intros Hp. unfold post_kdf. do 4 (apply within_bind; [solve_within|intros ?]). next_user same_id_kdf.
  next_user same_id_set_password. apply aside_save_last. congruence.
Qed.
Lemma aside_post_rotatekey data s : P (u_uuid (sn_user s)) → aside (post_rotatekey data s host).
Proof.
  intros Hp. unfold post_rotatekey. apply within_bind; [solve_within|intros valid]. apply within_bind; [solve_within|intros _].
  apply within_bind; [apply within_reads, reads_validate_ciphers|intros _]. do 5 (apply within_bind; [solve_within|intros ?]).
  apply within_bind; [solve_within|intros _].
  apply within_bind; [apply within_fold_each; intros; unfold rotate_folder; case_match; [apply within_update_found|]; solve_within|intros _].
  apply within_bind; [apply within_fold_each; intros; apply within_update_found; solve_within|intros _].
  apply within_bind; [apply within_fold_each; intros; apply within_update_found; intros; cbv zeta; solve_within|intros _].
  apply within_bind; [apply within_fold_each; intros; unfold rotate_send; apply within_bind; [solve_within|intros];
    apply within_update_found; solve_within|intros _].
  apply within_bind; [apply within_fold_each; intros; unfold rotate_cipher; case_match; [solve_within|];
    apply within_bind; [solve_within|intros]; apply within_update_found; solve_within|intros _].
  unfold rotate_user. next_user same_id_set_password. apply aside_save_last. by rewrite Hid.
Qed.
Lemma aside_post_sstamp data s : P (u_uuid (sn_user s)) → aside (post_sstamp data s).
Proof.
  intros Hp. unfold post_sstamp. apply within_bind; [solve_within|intros _].
  eapply within_same_id; [unfold User_reset_security_stamp; solve_within|apply same_id_reset|]. intros u Hid.
  apply within_bind; [apply within_outcome, aside_save_last; by rewrite Hid|]. intros failed.
  unfold Device_delete_all_by_user. destruct failed; solve_within.
Qed.
Lemma aside_post_email_token data s : P (u_uuid (sn_user s)) → aside (post_email_token data s).
Proof.
  intros Hp. unfold post_email_token, mail_address_taken, generate_email_token, get_random_string_numeric.
  solve_within. by apply aside_save_last.
Qed.
Lemma aside_post_email data s : P (u_uuid (sn_user s)) → aside (post_email data s).
Proof.
  intros Hp. unfold post_email. do 10 (apply within_bind; [solve_within|intros ?]).
  apply (within_same_id _ _ (sn_user s)); [solve_within| |].
  { intros e w u' w' H. case_match; by ok_inv H. }
  intros u Hid. next_user same_id_set_password. apply aside_save_last. rewrite Hid0. simpl. by rewrite Hid.
Qed.
Lemma aside_kdf_upgrade u pw : P (u_uuid u) → aside (kdf_upgrade u pw).
Proof.
  intros Hp. unfold kdf_upgrade. apply within_bind; [solve_within|intros n]. destruct (_ <? _)%Z; [|solve_within].
  next_user same_id_set_password. apply within_bind; [apply within_mignore, aside_save_last; by rewrite Hid|solve_within].
Qed.
Lemma aside_update_api_key data rotate s : P (u_uuid (sn_user s)) → aside (update_api_key data rotate s).
Proof.
  intros Hp. unfold update_api_key, generate_api_key, get_random_string_alphanum. solve_within.
  apply within_expect_ok. by apply aside_save.
Qed.
Lemma aside_put_device_token id token s : aside (put_device_token svc id token s).
Proof. unfold put_device_token, register_push_device, mdrop. solve_within. Qed.

(** Only an answer to a request for approval changes those. *)
Lemma aside_account_call c s :
  P (u_uuid (sn_user s)) → (∀ id data, c ≠ PutAuthRequest id data) → aside (run_account_call svc host c s).
Proof.
  intros Hp Hno. destruct c as [data|name|color|data|data|data|data|data|data|data| |data|hash|data rotate|id token|id data]; simpl.
  - by apply within_mdrop, aside_post_set_password.
  - apply within_mdrop. unfold post_profile, check_name. solve_within. by apply aside_save.
  - apply within_mdrop. unfold put_avatar. solve_within. by apply aside_save.
  - apply within_mdrop. unfold post_keys. solve_within. by apply aside_save.
  - by apply aside_post_password.
  - by apply aside_post_kdf.
  - by apply aside_post_rotatekey.
  - by apply aside_post_sstamp.
  - by apply aside_post_email_token.
  - by apply aside_post_email.
  - unfold post_verify_email. solve_within.
  - unfold delete_account. solve_within. by apply aside_User_delete.
  - apply within_mdrop. unfold verify_password. solve_within. by apply aside_kdf_upgrade.
  - by apply within_mdrop, aside_update_api_key.
  - apply aside_put_device_token.
  - by destruct (Hno id data).
Qed.

(** *** Without a session *)

(** Not about approvals *)
Definition other_open_call (c : OpenCall) : bool :=
  match c with PostAuthRequest _ _ | PurgeAuthRequests _ => false | _ => true end.
Lemma aside_check_tokens data : aside (check_registration_tokens data).
Proof. unfold check_registration_tokens. repeat case_match; solve_within. Qed.
Lemma aside_registering_user data email v p : aside (registering_user data email v p).
Proof. unfold registering_user, User_new, get_random_bytes. solve_within. Qed.
Lemma aside_welcome u v : aside (welcome u v).
Proof. unfold welcome. solve_within. Qed.
Lemma aside_activate_enforced u m v : aside (activate_enforced_2fa u m v).
Proof. unfold activate_enforced_2fa, is_email_2fa_required, OrgPolicy_is_enabled_for_member, twofactor_reference. solve_within. Qed.
Lemma aside_accept_emergency r id mail : aside (EmergencyAccess_accept_invite r id mail).
Proof. unfold EmergencyAccess_accept_invite. solve_within. Qed.
Hint Resolve aside_check_tokens aside_registering_user aside_welcome aside_activate_enforced aside_accept_emergency : within.
Lemma aside_register data v : (∀ k, P k) → aside (register data v).
Proof.
  intros Hp. assert (∀ u, aside (User_save u)) by (intros u; by apply aside_save).
  unfold register, check_name, enforce_password_hint_setting, mdrop. solve_within.
Qed.
Lemma aside_open_call c : (∀ k, P k) → other_open_call c = true → aside (run_open_call relay c).
Proof.
  intros Hp Hc. assert (∀ u, aside (User_save u)) by (intros u; by apply aside_save).
  assert (∀ u, aside (User_delete u)) by (intros u; by apply aside_User_delete).
  destruct c as [data v|data|u t|mail|u t|mail|id|data client|conn]; try done; simpl.
  - by apply within_mdrop, aside_register.
  - unfold register_verification_email, mdrop. solve_within.
  - unfold post_verify_email_token, mdrop. solve_within.
  - unfold post_delete_recover. solve_within.
  - unfold post_delete_recover_token. solve_within.
  - unfold password_hint. solve_within.
  - unfold put_clear_device_token, Device_clear_push_token_by_uuid, unregister_push_device. solve_within.
Qed.

(** The guard resets an exception to the security stamp that has expired. *)
Lemma aside_headers rq e w :
  (∀ claims u, request_claims svc e rq = Some claims → users (db w) !! lj_sub claims = Some u → P (u_uuid u)) →
  wp (Headers_from_request svc rq) e w (λ _ w', aside_rel P w w').
Proof.
  intros Hp. unfold Headers_from_request, request_claims, some_or_401, err_handler, Device_find_by_uuid_and_user, User_find_by_uuid in *.
  unfold check_stamp_exception, some_or_401, err_handler. wp_go; try done.
  apply (wp_within (R := aside_rel P)); [|by intros []]. apply aside_save. by apply (Hp a0 a2).
Qed.
End with_services.
End aside.
