(* ===== verification/ApprovalSafety.v ===== *)
(** * Approvals by device: protocol and safety

    The requests for approval as a transition system, the refinement of it by
    all account endpoints, and what follows for a login with a device. *)

From stdpp Require Import base strings numbers pretty gmap list relations.
From S2P Require Import Prelude Store JsonUtil Queries Users Orgs AuthRequests TwoFactor Sends Collections Signups Folders.
From S2P Require Import TotpReplay OneTimeCodes Login LoginSafety Sessions SessionSafety Ciphers Vault EmergencyAccess Profiles Members OrgRequests Accounts.
From S2P Require Import KeyRotation DeviceApproval AccountRequests AccountFrames.

(** ** The protocol *)

Abbreviation Approvals := (gmap string AuthRequest).
Definition approvals (w : World) : Approvals := auth_requests (db w).
(** Nobody has answered yet. *)
Definition pending (r : AuthRequest) : Prop :=
  ar_approved r = None ∧ ar_enc_key r = None ∧ ar_master_password_hash r = None ∧ ar_response_device_id r = None ∧
  ar_response_date r = None.

Section protocol.
Context `{!Serde UserStampException id} (svc : Services) (e : Env) (d : Db).

(** The steps a request may take: a known device of the account asks; a session
    of the account answers a question that is still open, once, from the device
    it names; and old requests go. *)
Inductive approval_step : AccountRequest → relation Approvals :=
  | step_ask data client k u device id r T :
     users d !! k = Some u → u_email u = str_to_lowercase e (aq_email data) →
     devices d !! (aq_device_identifier data, u_uuid u) = Some device → d_atype device = ch_device_type client →
     T !! id = None → ar_uuid r = id → pending r → ar_user_uuid r = u_uuid u →
     ar_request_device_identifier r = aq_device_identifier data → ar_request_ip r = ch_ip client →
     ar_access_code r = aq_access_code data → ar_creation_date r = now e →
     approval_step (Open (PostAuthRequest data client)) T (<[id := r]> T)
  | step_approve id data rq s r T :
     session_of svc e d rq s → T !! id = Some r → ar_user_uuid r = u_uuid (sn_user s) → ar_approved r = None →
     as_device_identifier data = d_uuid (sn_device s) → as_request_approved data = true →
     approval_step (InSession (PutAuthRequest id data) rq) T (<[id := approve r data (now e)]> T)
  | step_deny id data rq s r T :
     session_of svc e d rq s → T !! id = Some r → ar_user_uuid r = u_uuid (sn_user s) → ar_approved r = None →
     as_request_approved data = false →
     approval_step (InSession (PutAuthRequest id data) rq) T (delete id T)
  | step_purge id r T :
     T !! id = Some r → (ar_creation_date r + minutes 15 < now e)%Z →
     approval_step (Open (PurgeAuthRequests true)) T (delete id T).
Definition approval_steps (r : AccountRequest) : relation Approvals := rtc (approval_step r).
End protocol.

(** Requests sit under their identifiers, and the identifiers drawn from now on
    are distinct and not those of requests. *)
Record approvals_ok (e : Env) (w : World) : Prop := {
  apo_keyed : auth_requests_keyed (db w);
  apo_inj : ∀ i j, uuid_at e i = uuid_at e j → i = j;
  apo_fresh : ∀ i, tick w ≤ i → approvals w !! uuid_at e i = None;
}.

Section refinement.
Context `{!Serde ProtectedActionData pa_stored, !Serde EmailTokenData id, !Serde UserStampException id} `{FL : FileLinks}.
Context `{AT : AccountTokens} (svc : Services) (relay : bool) (host : string).
Abbreviation serve := (serve_account svc relay host).
Abbreviation anything := (aside_rel (λ _, True)).

Lemma approvals_ok_aside e w w' : approvals_ok e w → anything w w' → approvals_ok e w'.
Proof.
  intros [Hk Hi Hf] [Ha Ht _]. split; unfold approvals, auth_requests_keyed in *; rewrite ?Ha; [done..|].
  intros i Hle. apply Hf. lia.
Qed.
(** What a run must show. *)
Definition refined (r : AccountRequest) (e : Env) (w w' : World) : Prop :=
  approval_steps svc e (db w) r (approvals w) (approvals w') ∧ approvals_ok e w' ∧ tick w ≤ tick w'.
Lemma refined_quiet r e w w' : approvals_ok e w → anything w w' → refined r e w w'.
Proof.
  intros Hw Ha. split; [|split]; [|by eapply approvals_ok_aside|apply Ha].
  unfold approvals. rewrite (aside_requests _ _ _ Ha). apply rtc_refl.
Qed.
Lemma refined_then r e w w1 w2 : refined r e w w1 → anything w1 w2 → refined r e w w2.
Proof.
  intros (Hs & Ho & Ht) Ha. split; [|split]; [|by eapply approvals_ok_aside|etrans; [exact Ht|apply Ha]].
  unfold approvals. by rewrite (aside_requests _ _ _ Ha).
Qed.

Lemma wp_refined_on {A} r e w w1 (m : M A) (Φ : res Error A → World → Prop) :
  refined r e w w1 → within anything m → (∀ x w2, refined r e w w2 → Φ x w2) → wp m e w1 Φ.
Proof. intros Hr Hm HΦ. apply (wp_within (R := anything)); [done|]. intros x w2 H2. by eapply HΦ, refined_then. Qed.
Lemma reads_auth_request_json r t a : reads (auth_request_json r t a).
Proof. unfold auth_request_json. solve_reads. Qed.
Hint Resolve reads_auth_request_json : frame.

Lemma wp_post_auth_request data client e w :
  approvals_ok e w → wp (post_auth_request data client) e w (λ _ w', refined (Open (PostAuthRequest data client)) e w w').
Proof.
  intros Hw. pose proof Hw as [Hk Hi Hf].
  unfold post_auth_request, User_find_by_mail, Device_find_by_uuid_and_user, AuthRequest_new, AuthRequest_save.
  wp_go; try (by apply refined_quiet). eapply wp_refined_on; [|apply aside_log_user_event|].
  2: { intros [x|x|] w2 H2; simpl; [|done..]. by apply wp_reads; [auto with frame|]. }
  destruct (devices _ !! _) as [device|] eqn:Hd; [|done]. apply Z.eqb_eq in Hc.
  apply first_Some in Ho as [Hmail%bool_decide_eq_true [k Hu]]. split; [|split]; [| |simpl; lia].
  - apply rtc_once. apply (step_ask svc e (db w) data client k a device); try done. by apply Hf.
  - split; [|done|]; simpl.
    + intros k' r. simpl. intros [[<- <-]|[_ Hr]]%lookup_insert_Some; [done|by apply Hk].
    + intros i Hle. unfold approvals. simpl. rewrite lookup_insert_ne; [apply Hf; lia|]. intros E%Hi. lia.
Qed.
(** A row changes or goes. *)
Lemma approvals_ok_insert e w w' id r r' :
  approvals_ok e w → approvals w !! id = Some r → ar_uuid r' = ar_uuid r → tick w ≤ tick w' →
  approvals w' = <[ar_uuid r' := r']> (approvals w) → approvals_ok e w'.
Proof.
  intros [Hk Hi Hf] Hr Hid Ht E. pose proof (Hk _ _ Hr) as Hrid. split; [|done|]; unfold auth_requests_keyed; fold (approvals w').
  - rewrite E. intros k x [[<- <-]|[_ Hx]]%lookup_insert_Some; [done|by apply Hk].
  - intros i Hle. rewrite E. rewrite lookup_insert_ne; [apply Hf; lia|]. intros Ei. specialize (Hf i ltac:(lia)). congruence.
Qed.
Lemma approvals_ok_subset e w w' :
  approvals_ok e w → approvals w' ⊆ approvals w → tick w ≤ tick w' → approvals_ok e w'.
Proof.
  intros [Hk Hi Hf] Hs Ht. split; [|done|].
  - intros k r Hr. apply Hk. by eapply lookup_weaken.
  - intros i Hle. eapply lookup_weaken_None; [|done]. apply Hf. lia.
Qed.
Lemma wp_put_auth_request id data rq s e w :
  approvals_ok e w → session_of svc e (db w) rq s →
  wp (put_auth_request id data s) e w (λ _ w', refined (InSession (PutAuthRequest id data) rq) e w w').
Proof.
  intros Hw Hs. unfold put_auth_request, AuthRequest_find_by_uuid_and_user, AuthRequest_save, AuthRequest_delete, log_session.
  wp_go; try (by apply refined_quiet).
  all: apply bool_decide_eq_true in Hc, Hc0; destruct (auth_requests (db w) !! id) as [r|] eqn:Hr; [|done]; simpl in Ho.
  all: case_bool_decide as Hu; simplify_eq; pose proof (apo_keyed _ _ Hw _ _ Hr) as Hid.
  all: eapply wp_refined_on; [|apply aside_log_user_event|].
  2, 4: intros [x|x|] w2 H2; simpl; [|done..]; apply wp_mret; simpl; by apply wp_reads; [auto with frame|].
  - split; [|split]; [| |done].
    + apply rtc_once. unfold approvals. simpl. rewrite Hid. by eapply step_approve.
    + by eapply (approvals_ok_insert e w _ id a (approve a data (now e))).
  - split; [|split]; [| |done].
    + apply rtc_once. unfold approvals. simpl. rewrite Hid. by eapply step_deny.
    + eapply approvals_ok_subset; [done| |done]. apply delete_subseteq.
Qed.

Lemma purge_steps d l : ∀ e w,
  (∀ r, r ∈ l → approvals w !! ar_uuid r = Some r ∧ (ar_creation_date r + minutes 15 < now e)%Z) → NoDup (ar_uuid <$> l) →
  ∃ w', for_each l (λ r, mignore (AuthRequest_delete r)) e w = (Ok tt, w') ∧
    approval_steps svc e d (Open (PurgeAuthRequests true)) (approvals w) (approvals w') ∧
    approvals w' ⊆ approvals w ∧ tick w' = tick w.
Proof.
  induction l as [|r l IH]; intros e w Hl Hnd; [exists w; by split_and!|]. apply NoDup_cons in Hnd as [Hr Hnd].
  destruct (IH e (w <| db := (db w) <| auth_requests := delete (ar_uuid r) (auth_requests (db w)) |> |>)) as (w' & Hrun & Hs & Hsub & Ht).
  { intros r' Hr'. destruct (Hl r' ltac:(by right)) as [Hk Hx]. split; [|done]. unfold approvals. simpl.
    rewrite lookup_delete_ne; [done|]. intros E. apply Hr. rewrite E. by apply list_elem_of_fmap_2. }
  { done. }
  exists w'. split; [exact Hrun|]. destruct (Hl r ltac:(by left)) as [Hk Hx]. split_and!; [|etrans; [exact Hsub|apply delete_subseteq]|done].
  eapply rtc_l; [|exact Hs]. by apply (step_purge svc e d _ r).
Qed.
Lemma wp_purge conn e w :
  approvals_ok e w → wp (purge_auth_requests conn) e w (λ _ w', refined (Open (PurgeAuthRequests conn)) e w w').
Proof.
  intros Hw. destruct conn; [|by apply wp_mret, refined_quiet]. unfold purge_auth_requests.
  unfold AuthRequest_purge_expired_auth_requests, AuthRequest_find_created_before. wp_go.
  destruct (purge_steps (db w) (load (λ r, (ar_creation_date r <? now e - minutes 15)%Z) (auth_requests (db w))) e w) as (w' & Hrun & Hs & Hsub & Ht).
  - intros r [Hr%Z.ltb_lt [k Hk]]%elem_of_load. rewrite (apo_keyed _ _ Hw _ _ Hk). split; [done|lia].
  - apply load_keys_NoDup. apply Hw.
  - eapply wp_eq; [exact Hrun|]. split; [done|]. split; [|lia]. eapply approvals_ok_subset; [done..|lia].
Qed.

Lemma wp_serve_account r e w : approvals_ok e w → wp (serve r) e w (λ _ w', refined r e w w').
Proof.
  intros Hw. destruct r as [c rq|c]; simpl.
  - apply wp_bind, wp_intro. intros [s|x|] w1 Hrun; simpl.
    2, 3: apply refined_quiet; [done|]; by apply (wp_run _ _ _ _ (aside_headers (λ _, True) svc rq e w ltac:(done)) _ _ Hrun).
    apply Headers_from_request_Ok in Hrun as [-> Hs].
    destruct (match c with PutAuthRequest _ _ => true | _ => false end) eqn:Hc.
    + destruct c as [| | | | | | | | | | | | | | |key data]; try done. simpl. unfold route_param, from_param.
      wp_go; try (by apply refined_quiet). case_bool_decide; [injection Hm as <-|done]. apply wp_bind.
      eapply wp_mono; [by apply (wp_put_auth_request key data rq s)|].
      by intros [] w'.
    + apply (wp_within (R := anything)); [|intros res w'; by apply refined_quiet].
      apply aside_account_call; [done|]. intros key data ->. done.
  - destruct (other_open_call c) eqn:Hc.
    + apply (wp_within (R := anything)); [|intros res w'; by apply refined_quiet]. by apply aside_open_call.
    + destruct c as [| | | | | | |data client|conn]; try done; simpl; [|by apply wp_purge].
      apply wp_bind. eapply wp_mono; [by apply wp_post_auth_request|]. by intros [] w'.
Qed.
(** C18: the account endpoints, all of them and whatever their outcome, do to the
    requests for approval nothing but the steps of the protocol.  A request is
    created by a device that the account knows, open; only a session of the same
    account answers it, once, with the key it sends; nothing changes it after
    that, but old requests are removed. *)
Theorem approvals_refine r e w :
  approvals_ok e w →
  ∃ res w', serve r e w = (res, w') ∧ approval_steps svc e (db w) r (approvals w) (approvals w') ∧
    approvals_ok e w' ∧ tick w ≤ tick w'.
Proof.
  intros Hw. apply wp_exists. by apply wp_serve_account.
Qed.

(** ** Sequences of requests *)

Definition serve_in_turn (l : list (Env * AccountRequest)) (w : World) : World := foldl (λ w er, (serve er.2 er.1 w).2) w l.
(** The random identifiers of all requests come from one stream. *)
Definition one_stream (e : Env) (l : list (Env * AccountRequest)) : Prop := ∀ er, er ∈ l → uuid_at er.1 = uuid_at e.
Lemma approvals_ok_stream e e' w : uuid_at e' = uuid_at e → approvals_ok e w → approvals_ok e' w.
Proof. intros E [Hk Hi Hf]. split; rewrite ?E; done. Qed.
Lemma serve_in_turn_ok e l : ∀ w, one_stream e l → approvals_ok e w → approvals_ok e (serve_in_turn l w).
Proof.
  induction l as [|[e' r] l IH]; intros w Hl Hw; [done|]. simpl. assert (uuid_at e' = uuid_at e) as E by (apply (Hl (e', r)); by left).
  apply IH; [intros er Her; apply Hl; by right|]. apply (approvals_ok_stream e'); [done|].
  assert (approvals_ok e' w) as Hw' by (by eapply approvals_ok_stream).
  destruct (wp_exists _ _ _ _ (wp_serve_account r e' w Hw')) as (res & w' & Hrun & _ & Ho & _). by rewrite Hrun.
Qed.

(** The answer that a session of the account gave to request [id]. *)
Definition answered (e : Env) (d : Db) (id : string) (r : AuthRequest) (req : AccountRequest) : Prop :=
  ∃ data rq s, req = InSession (PutAuthRequest id data) rq ∧ session_of svc e d rq s ∧
    ar_user_uuid r = u_uuid (sn_user s) ∧ as_request_approved data = true ∧ as_device_identifier data = d_uuid (sn_device s) ∧
    ar_enc_key r = Some (as_key data) ∧ ar_master_password_hash r = as_master_password_hash data.
Lemma steps_answered e d req T T' id r b :
  approval_steps svc e d req T T' → T' !! id = Some r → ar_approved r = Some b → T !! id = Some r ∨ answered e d id r req.
Proof.
  intros Hs Hr Hb. induction Hs as [|T T1 T' Hstep _ IH]; [by left|]. destruct (IH Hr) as [H1|]; [|by right].
  destruct Hstep as [data client k u device id' r' T ???? Hno Hid [Hp _]|id' data rq s r' T Hs Hr' Hu Hp Hd Ha|
    id' data rq s r' T Hs Hr' Hu Hp Ha|id' r' T Hr' Hx].
  - apply lookup_insert_Some in H1 as [[_ <-]|[_ H1]]; [congruence|by left].
  - apply lookup_insert_Some in H1 as [[<- <-]|[_ H1]]; [|by left]. right. exists data, rq, s. by split_and!.
  - apply lookup_delete_Some in H1 as [_ H1]. by left.
  - apply lookup_delete_Some in H1 as [_ H1]. by left.
Qed.
Lemma approved_history e l w id r b :
  one_stream e l → approvals_ok e w → (∀ k r, approvals w !! k = Some r → ar_approved r = None) →
  approvals (serve_in_turn l w) !! id = Some r → ar_approved r = Some b →
  ∃ l1 e1 req l2, l = l1 ++ (e1, req) :: l2 ∧ answered e1 (db (serve_in_turn l1 w)) id r req.
Proof.
  intros Hl Hw Hopen. revert r. induction l as [|[e1 req] l IH] using rev_ind; intros r Hr Hb; simpl in Hr.
  { rewrite (Hopen _ _ Hr) in Hb. done. }
  unfold serve_in_turn in Hr. rewrite foldl_app in Hr. fold (serve_in_turn l w) in Hr. simpl in Hr.
  assert (one_stream e l) as Hl1 by (intros er Her; apply Hl, elem_of_app; by left).
  assert (uuid_at e1 = uuid_at e) as E by (apply (Hl (e1, req)), elem_of_app; right; by left).
  assert (approvals_ok e1 (serve_in_turn l w)) as Hw1 by (eapply approvals_ok_stream; [done|]; by apply serve_in_turn_ok).
  destruct (wp_exists _ _ _ _ (wp_serve_account req e1 _ Hw1)) as (res & w' & Hrun & Hs & _). rewrite Hrun in Hr. simpl in Hr.
  destruct (steps_answered _ _ _ _ _ _ _ _ Hs Hr Hb) as [Hr1|Ha].
  - destruct (IH Hl1 r Hr1 Hb) as (l1 & e2 & req2 & l2 & -> & Ha). exists l1, e2, req2, (l2 ++ [(e1, req)]).
    by rewrite <- app_assoc.
  - by exists l, e1, req, [].
Qed.

(** C19: a device logs in by a request for approval only if, among the requests
    served before, a session of the same account approved that request, from the
    device it named, sending the key that is stored. *)
Theorem device_login_approved l e0 w0 user data password ip id e a w' :
  one_stream e0 l → approvals_ok e0 w0 → (∀ k r, approvals w0 !! k = Some r → ar_approved r = None) →
  cd_auth_request data = Some id → check_first_factor user data password ip e (serve_in_turn l w0) = (Ok a, w') →
  ∃ r l1 e1 req l2, approvals (serve_in_turn l w0) !! id = Some r ∧ ar_user_uuid r = u_uuid user ∧
    l = l1 ++ (e1, req) :: l2 ∧ answered e1 (db (serve_in_turn l1 w0)) id r req.
Proof.
  intros Hl Hw Hopen Hid Hrun. apply check_first_factor_Ok in Hrun as [_ Hff]. unfold first_factor in Hff. rewrite Hid in Hff.
  destruct Hff as (r & Hr & Hu & Ha & _).
  destruct (approved_history e0 l w0 id r true Hl Hw Hopen Hr Ha) as (l1 & e1 & req & l2 & H). by exists r, l1, e1, req, l2.
Qed.
End refinement.

(** ** Examples *)

Module ToyApprovals.
Import ToyEnv ToyUsers ToyTwoFactor ToyCodes ToyLogin ToyLinks ToyAccounts.

(** Alice's device [d2] asks, and [d1] approves. *)
Definition approval_world : World := toy_world <| db := (db toy_world)
  <| devices := {[("d1", "alice") := toy_device "d1" "alice"; ("d2", "alice") := toy_device "d2" "alice"]} |> |>.
Definition asking : AccountRequest :=
  Open (PostAuthRequest (mkAuthRequestRequest "code" "d2" "alice@example.org" "public") (mkClientHeaders 0 "ip")).
Definition approving : AccountRequest :=
  InSession (PutAuthRequest "id100" (mkAuthResponseRequest "d1" "key" None true)) (mkRequest (Some "Bearer stamp") None None None "ip").
Definition two_requests : list (Env * AccountRequest) := [(toy_env 0, asking); (toy_env 0, approving)].
Definition with_device : ConnectData := (mkConnectData None (Some "web") None (Some "code") (Some "api offline_access")
  (Some "alice@example.org") (Some "d2") (Some "phone") (Some "9") None None None (Some "id100") None None).

Lemma approval_world_ok t : approvals_ok (toy_env t) approval_world.
Proof. split; [done|apply (toy_env_ok t)|done]. Qed.
Lemma approvals_refine_witness :
  ∃ w', serve_account toy_services true "host" asking (toy_env 0) approval_world = (Ok tt, w') ∧
    approval_steps toy_services (toy_env 0) (db approval_world) asking ∅ (approvals w') ∧ is_Some (approvals w' !! "id100").
Proof.
  destruct (approvals_refine toy_services true "host" asking (toy_env 0) approval_world (approval_world_ok 0)) as (r & w' & Hrun & Hs & _).
  assert (r = Ok tt) as -> by (apply (f_equal fst) in Hrun; vm_compute in Hrun; by symmetry).
  exists w'. split; [exact Hrun|]. split; [exact Hs|]. apply (f_equal snd) in Hrun. simpl in Hrun. rewrite <- Hrun. vm_compute. by eexists.
Defined.
Lemma device_login_approved_witness :
  ∃ r l1 e1 req l2, approvals (serve_in_turn toy_services true "host" two_requests approval_world) !! "id100" = Some r ∧
    ar_user_uuid r = "alice" ∧ two_requests = l1 ++ (e1, req) :: l2 ∧
    answered toy_services e1 (db (serve_in_turn toy_services true "host" l1 approval_world)) "id100" r req.
Proof.
  eapply (device_login_approved toy_services true "host" two_requests (toy_env 0) approval_world (toy_user "alice") with_device
    "code" "ip" "id100" (toy_env (seconds 60))).
  - intros er [->|[->|Her%not_elem_of_nil]%elem_of_cons]%elem_of_cons; [reflexivity..|contradiction].
  - apply approval_world_ok.
  - intros k r H. discriminate H.
  - reflexivity.
  - vm_compute. reflexivity.
Defined.
End ToyApprovals.
