(* ===== verification/AccountSafety.v ===== *)
(** * Accounts: safety

    Requests in a session change no account but its own; an account is completed
    or created only on grounds that the settings or an invitation give; the
    parameters of the key derivation stay in bounds; and an address changes only
    with the password and the code sent to the new address. *)

From stdpp Require Import base strings numbers pretty gmap list relations.
From S2P Require Import Prelude Store JsonUtil Queries Users Orgs AuthRequests TwoFactor Sends Collections Signups Folders.
From S2P Require Import TotpReplay OneTimeCodes Login LoginSafety Sessions SessionSafety Ciphers Vault VaultAccess EmergencyAccess.
From S2P Require Import EmergencyProtocol Profiles Members OrgRequests Accounts KeyRotation DeviceApproval AccountRequests AccountFrames.

(** ** The key derivation *)

(** What [set_kdf_data] lets through *)
Definition kdf_allowed (k : KDFData) : Prop :=
  (kdf k = Pbkdf2 → 100000 ≤ kdf_iterations k)%Z ∧
  (kdf k = Argon2id → (1 ≤ kdf_iterations k)%Z ∧ (∃ m, kdf_memory k = Some m ∧ (15 ≤ m ≤ 1024)%Z) ∧
                      (∃ p, kdf_parallelism k = Some p ∧ (1 ≤ p ≤ 16)%Z)).
Definition kdf_of (u : User) : KDFData :=
  mkKDFData (u_client_kdf_type u) (u_client_kdf_iter u) (u_client_kdf_memory u) (u_client_kdf_parallelism u).
(** What is stored: memory and parallelism only for Argon2. *)
Definition kdf_stored (k : KDFData) : KDFData :=
  if bool_decide (kdf k = Argon2id) then k else mkKDFData (kdf k) (kdf_iterations k) None None.

Definition with_kdf (u : User) (k : KDFData) : User :=
  let k := kdf_stored k in
  u <| u_client_kdf_memory := kdf_memory k |> <| u_client_kdf_parallelism := kdf_parallelism k |>
    <| u_client_kdf_iter := kdf_iterations k |> <| u_client_kdf_type := kdf k |>.
Lemma set_kdf_run u k e w :
  kdf_allowed k ∧ set_kdf_data u k e w = (Ok (with_kdf u k), w) ∨
  ¬ kdf_allowed k ∧ ∃ msg, set_kdf_data u k e w = (Err (new_msg msg), w).
Proof.
  unfold kdf_allowed, set_kdf_data, with_kdf, kdf_stored, ensure, some_or_err, err, mfail, mbind, mret.
  destruct k as [t n m p]; simpl. destruct (Z.eqb_spec t Argon2id) as [->|Ht]; simpl.
  - destruct (Z.leb_spec 1 n); simpl; [|right; split; [naive_solver lia|by eexists]].
    destruct m as [m|]; simpl; [|right; split; [naive_solver|by eexists]].
    destruct (Z.leb_spec 15 m), (Z.leb_spec m 1024); simpl; [|right; split; [naive_solver lia|by eexists]..].
    destruct p as [p|]; simpl; [|right; split; [naive_solver|by eexists]].
    destruct (Z.leb_spec 1 p), (Z.leb_spec p 16); simpl; [|right; split; [naive_solver lia|by eexists]..].
    left. split; [|done]. split; [done|]. intros _. split; [lia|]. split; eexists; split; (done || lia).
  - rewrite bool_decide_eq_false_2 by done.
    destruct (Z.eqb_spec t Pbkdf2) as [->|Hp], (Z.ltb_spec n 100000); simpl.
    1: right; split; [naive_solver lia|by eexists].
    all: left; split; [|done]; split; [lia|done].
Qed.
Lemma set_kdf_Ok u k e w u' w' : set_kdf_data u k e w = (Ok u', w') → w' = w ∧ kdf_allowed k ∧ u' = with_kdf u k.
Proof. intros H. destruct (set_kdf_run u k e w) as [[Hk Hr]|[_ [msg Hr]]]; rewrite Hr in H; by simplify_eq. Qed.

(** The parameters of the key derivation are accepted exactly when they are
    in bounds: at least 100000 iterations of PBKDF2; at least one iteration, 15 to
    1024 megabytes and 1 to 16 lanes of Argon2.  What is accepted is stored, but
    for the memory and lanes of other functions, and the rest of the account stays.
    The numbers of functions that do not exist are in bounds. *)
Theorem set_kdf_data_exact u k e w :
  (kdf_allowed k → ∃ u', set_kdf_data u k e w = (Ok u', w) ∧ kdf_of u' = kdf_stored k ∧
     u' <| u_client_kdf_type := u_client_kdf_type u |> <| u_client_kdf_iter := u_client_kdf_iter u |>
        <| u_client_kdf_memory := u_client_kdf_memory u |> <| u_client_kdf_parallelism := u_client_kdf_parallelism u |> = u) ∧
  (¬ kdf_allowed k → ∃ msg, set_kdf_data u k e w = (Err (new_msg msg), w)).
Proof.
  destruct (set_kdf_run u k e w) as [[Hk Hr]|[Hk Hr]]; split; [|done..|done]. intros _. exists (with_kdf u k).
  split; [done|]. unfold with_kdf, kdf_of. split; [by destruct (kdf_stored k)|by destruct u].
Qed.

(** ** Sessions apart *)

Section sessions.
Context `{!Serde ProtectedActionData pa_stored, !Serde EmailTokenData id, !Serde UserStampException id} `{FL : FileLinks}.
Context `{AT : AccountTokens} (svc : Services) (relay : bool) (host : string).

Definition users_keyed (d : Db) : Prop := ∀ k u, users d !! k = Some u → u_uuid u = k.
(** The account of the token that comes with a request *)
Definition request_user (e : Env) (rq : Request) : option string := lj_sub <$> request_claims svc e rq.

Lemma keeps_put_auth_request id data s : keeps users (put_auth_request id data s).
Proof.
  unfold put_auth_request, AuthRequest_find_by_uuid_and_user, AuthRequest_save, AuthRequest_delete, log_session, auth_request_json.
  solve_keeps.
Qed.

(** C20: a request to the endpoints of the own account (the calls of
    [AccountCall]: profile, keys, password, KDF, address, rotation, deletion,
    devices, avatar, API key, approvals) changes no other account, however it ends:
    address, password, keys, stamp and settings of the others stay, everything but
    the date of their last change.  Taking over an account as an emergency contact
    and the account recovery of organizations are other endpoints, which change the
    account of somebody else by design. *)
Theorem accounts_apart c rq e w k :
  users_keyed (db w) → request_user e rq ≠ Some k →
  ∃ r w', serve_account svc relay host (InSession c rq) e w = (r, w') ∧
    account (users (db w') !! k) = account (users (db w) !! k).
Proof.
  intros Hk Hne. apply wp_exists. simpl. set (P := λ x, request_user e rq = Some x).
  assert (wp (Headers_from_request svc rq) e w (λ _ w', aside_rel P w w')) as Hh.
  { apply aside_headers. intros claims u Hc Hu. unfold P, request_user. rewrite Hc, (Hk _ _ Hu). done. }
  apply wp_bind, wp_intro. intros [s|x|] w1 Hrun; simpl.
  2, 3: by apply (wp_run _ _ _ _ Hh _ _ Hrun).
  apply Headers_from_request_Ok in Hrun as [-> (claims & Hc & _ & Hu & _)].
  assert (P (u_uuid (sn_user s))) as Hp by (unfold P, request_user; by rewrite Hc, (Hk _ _ Hu)).
  destruct (match c with PutAuthRequest _ _ => true | _ => false end) eqn:E.
  - destruct c as [| | | | | | | | | | | | | | |id data]; try done. simpl. apply wp_bind, wp_reads;
      [unfold route_param, from_param; solve_reads|]. intros [id'|x|]; simpl; [|done..].
    apply wp_bind. apply (wp_keeps users); [apply keeps_put_auth_request|]. intros [x|x|] w' Hw; [apply wp_mret|..]; simpl; by rewrite Hw.
  - apply (wp_within (R := aside_rel P)); [|intros r w' Ha; by apply Ha]. apply aside_account_call; [done|]. by intros id data ->.
Qed.
End sessions.

(** ** Runs that change no account *)

Abbreviation quiet := (aside_rel (λ _, False)).
(** A step of a run that has changed no account so far *)
Lemma wp_quiet_bind {A B} (m : M A) (k : A → M B) e w0 w (Φ : res Error B → World → Prop) :
  within quiet m → quiet w0 w → (∀ r w', quiet w0 w' → (∀ b, r ≠ Ok b) → Φ r w') →
  (∀ a w', m e w = (Ok a, w') → quiet w0 w' → wp (k a) e w' Φ) → wp (mbind m k) e w Φ.
Proof.
  intros Hm H0 Hend Hk. apply wp_bind, wp_intro. intros r w1 Hrun.
  assert (quiet w0 w1) as H1 by (etrans; [exact H0|apply (wp_run _ _ _ _ (Hm e w) _ _ Hrun)]).
  destruct r; simpl; [by apply Hk|by apply Hend..].
Qed.
Lemma User_save_eq u e w :
  User_save u e w =
  (if is_valid_email e (u_email u) then Ok (u <| u_updated_at := now e |>)
   else Err (new_msg ("User email " +:+ u_email u +:+ " is not a valid email address")),
   if is_valid_email e (u_email u) then
     w <| db := (db w) <| users := <[u_uuid u := u <| u_updated_at := now e |>]> (users (db w)) |> |>
   else w).
Proof. unfold User_save, ensure, ask, exec, mbind. by destruct (is_valid_email _ _). Qed.

(** ** Registration *)

Section registration.
Context `{!Serde ProtectedActionData pa_stored, !Serde EmailTokenData id, !Serde UserStampException id} `{FL : FileLinks}.
Context `{AT : AccountTokens}.

Definition signup_open (e : Env) (email : string) : Prop := ∀ w, is_signup_allowed email e w = (Ok true, w).
(** What lets someone complete an account that was made by an invitation *)
Definition may_complete (e : Env) (w : World) (data : RegisterData) (email : string) : Prop :=
  (∃ token claims, rg_org_invite_token data = Some token ∧ decode_org_invite token = Ok claims ∧ ij_email claims = email) ∨
  str_to_lowercase e email ∈ invitations (db w) ∨ signup_open e email ∨
  (emergency_access_allowed (cfg e) = true ∧
   ∃ k r, emergency_access (db w) !! k = Some r ∧ ea_email r = Some email ∧ has_status r Invited = true).
(** What lets someone make a new account *)
Definition may_create (e : Env) (w : World) (data : RegisterData) (verification : bool) (email : string) : Prop :=
  str_to_lowercase e email ∈ invitations (db w) ∨ signup_open e email ∨
  (verification = true ∧ ∃ id token claims, rg_accept_emergency_access_id data = Some id ∧
     rg_accept_emergency_access_invite_token data = Some token ∧ decode_emergency_invite token = Ok claims ∧
     cl_email claims = rg_email data ∧ cl_emer_id claims = id).
(** The account that the request may write *)
Definition grounds (e : Env) (w : World) (data : RegisterData) (verification : bool) (email : string) (u : User) : Prop :=
  (∃ k, users (db w) !! k = Some u ∧ u_email u = str_to_lowercase e email ∧ u_password_hash u = [] ∧
        may_complete e w data email) ∨
  ((∀ k u', users (db w) !! k = Some u' → u_email u' ≠ str_to_lowercase e email) ∧
   (∃ i, tick w ≤ i ∧ u_uuid u = uuid_at e i) ∧ u_email u = str_to_lowercase e email ∧
   may_create e w data verification email).

Lemma signup_allowed_open e w email w' : is_signup_allowed email e w = (Ok true, w') → signup_open e email.
Proof.
  unfold signup_open, is_signup_allowed, is_email_domain_allowed, mbind, conf, ask, mret.
  destruct (bool_decide _); intros H w1; [by injection H as -> _|].
  destruct (rsplit_once _ _) as [[domain local]|]; [|done]. destruct (_ || _); [done|]. by injection H as -> _.
Qed.
Lemma Invitation_take_Ok mail e w b w' :
  Invitation_take mail e w = (Ok b, w') →
  b = bool_decide (str_to_lowercase e mail ∈ invitations (db w)) ∧ users (db w') = users (db w) ∧
  emergency_access (db w') = emergency_access (db w) ∧ tick w' = tick w.
Proof.
  unfold Invitation_take, Invitation_find_by_mail, Invitation_delete. intros H. ok_step H. ok_inv Hrun.
  case_bool_decide; by ok_inv H.
Qed.
Lemma registration_tokens_Ok data e w data' ver pend w' :
  check_registration_tokens data e w = (Ok (data', ver, pend), w') →
  w' = w ∧ (∃ name, data' = data <| rg_name := name |>) ∧
  (pend = true → ∃ id token claims, rg_accept_emergency_access_id data = Some id ∧
     rg_accept_emergency_access_invite_token data = Some token ∧ decode_emergency_invite token = Ok claims ∧
     cl_email claims = rg_email data ∧ cl_emer_id claims = id).
Proof.
  unfold check_registration_tokens. intros H.
  repeat (case_match; try by ok_inv H).
  - ok_step H. injection Hrun as Hrun <-. ok_step H. injection H as <- <- <- <-. split; [done|]. split; [|done].
    exists (if is_not_null (rv_name a) then rv_name a else rg_name data). by destruct (is_not_null _), data.
  - ok_step H. ok_step H. ok_step H. injection Hrun0 as Hrun0 <-. do 2 ok_step H. injection H as <- <- <- <-.
    split; [done|]. split; [by exists (rg_name data); destruct data|]. intros _. apply bool_decide_eq_true in Hrun1, Hrun2. eauto 10.
  - ok_step H. injection Hrun as Hrun <-. do 2 ok_step H. injection H as <- <- <- <-.
    split; [done|]. split; [by exists (rg_name data); destruct data|done].
Qed.
Lemma registering_user_Ok data email ver pend e w u ver' w' v :
  (pend = true → v = true ∧ ∃ id token claims, rg_accept_emergency_access_id data = Some id ∧
     rg_accept_emergency_access_invite_token data = Some token ∧ decode_emergency_invite token = Ok claims ∧
     cl_email claims = rg_email data ∧ cl_emer_id claims = id) →
  registering_user data email ver pend e w = (Ok (u, ver'), w') → grounds e w data v email u.
Proof.
  intros Hpend H. unfold registering_user, User_find_by_mail in H. ok_step H. ok_inv Hrun. cbv beta in H.
  destruct (first _ _) as [u0|] eqn:Hf; [left|right].
  - apply first_Some in Hf as [Hmail%bool_decide_eq_true [k Hu]]. ok_step H. apply bool_decide_eq_true in Hrun.
    assert (u = u0 ∧ may_complete e w data email) as [-> Hc]; [|by exists k]. unfold may_complete.
    destruct (rg_org_invite_token data) as [token|].
    { ok_step H. injection Hrun0 as Hrun0 <-. ok_step H. apply bool_decide_eq_true in Hrun1. injection H as <- _ _. eauto 10. }
    ok_step H. apply Invitation_take_Ok in Hrun0 as (-> & _ & Hea & _). case_bool_decide as Hi.
    { ok_step H. injection H as <- _ _. auto. }
    ok_step H. assert (w1 = w0) as -> by (by eapply reads_Ok; [apply reads_is_signup_allowed|]). destruct a0.
    { injection H as <- _ _. split; [done|]. right; right; left. by eapply signup_allowed_open. }
    ok_step H. ok_step H. ok_step H. injection H as <- _ _. split; [done|]. right; right; right.
    destruct (emergency_access_allowed (cfg e)); [|by injection Hrun1 as <- <-]. split; [done|].
    unfold EmergencyAccess_find_invited_by_grantee_email, ea_find in Hrun1. ok_inv Hrun1.
    destruct (first _ _) as [r|] eqn:Hr; [|done]. apply first_Some in Hr as [[Hm%bool_decide_eq_true Hs]%andb_prop [j Hj]].
    exists j, r. by rewrite <- Hea.
  - split; [intros k u' Hu Hm; apply (first_None _ _) with (k := k) (r := u') in Hf; [by rewrite Hm, bool_decide_eq_true_2 in Hf|done]|].
    ok_step H. apply Invitation_take_Ok in Hrun as (-> & _ & _ & Ht). ok_step H. ok_step H. ok_step H. injection H as <- _ _.
    unfold User_new, get_random_bytes in Hrun1. ok_inv Hrun1. simpl. split; [exists (tick w1)|split; [done|]].
    { split; [|done]. case_bool_decide; [by ok_inv Hrun; lia|]. apply reads_Ok in Hrun as ->; [lia|apply reads_is_signup_allowed]. }
    unfold may_create. case_bool_decide as Hi; [by left|]. destruct a; [right; left; by eapply signup_allowed_open|auto].
Qed.

(** The account as the request makes it: the password, the key derivation and the
    keys are those of the request. *)
Record registered (e : Env) (data : RegisterData) (u u' : User) : Prop := {
  rgd_uuid : u_uuid u' = u_uuid u;
  rgd_email : u_email u' = u_email u;
  rgd_password : u_password_hash u' =
    pbkdf2_derive e (string_bytes (rg_master_password_hash data)) (u_salt u) (cast_unsigned32 (u_password_iterations u));
  rgd_salt : u_salt u' = u_salt u ∧ u_password_iterations u' = u_password_iterations u;
  rgd_key : u_akey u' = rg_key data;
  rgd_kdf : kdf_allowed (rg_kdf data) ∧ kdf_of u' = kdf_stored (rg_kdf data);
  rgd_keys : ∀ k, rg_keys data = Some k →
    u_private_key u' = Some (kd_encrypted_private_key k) ∧ u_public_key u' = Some (kd_public_key k);
  rgd_hint : u_password_hint u' = clean_password_hint (rg_master_password_hint data);
}.
Lemma register_tokens data (v : bool) e w data1 ver pend w1 :
  (if v then check_registration_tokens data else mret (data, false, false)) e w = (Ok (data1, ver, pend), w1) →
  w1 = w ∧ (∃ name, data1 = data <| rg_name := name |>) ∧
  (pend = true → v = true ∧ ∃ id token claims, rg_accept_emergency_access_id data = Some id ∧
     rg_accept_emergency_access_invite_token data = Some token ∧ decode_emergency_invite token = Ok claims ∧
     cl_email claims = rg_email data ∧ cl_emer_id claims = id).
Proof.
  destruct v.
  - intros (-> & Hn & Hp)%registration_tokens_Ok. split_and!; [done..|]. intros H. split; [done|by apply Hp].
  - intros [= <- <- <- <-]. split_and!; [done| |done]. exists (rg_name data). by destruct data.
Qed.

(** The mails and the second factor before the account is stored *)
Definition mail_step (mail : bool) (u : User) (member_id : option string) (verified : bool) : M User :=
  if mail then
    let* user := welcome u verified in
    do* activate_enforced_2fa user member_id verified in
    mret user
  else mret u.
Lemma within_mail_step mail u member_id verified : within quiet (mail_step mail u member_id verified).
Proof. unfold mail_step. solve_within; [apply aside_welcome|apply aside_activate_enforced]. Qed.
Lemma mail_step_Ok mail u member_id verified e w u' w' :
  mail_step mail u member_id verified e w = (Ok u', w') → ∃ t, u' = u <| u_last_verifying_at := t |>.
Proof.
  assert (∃ t, u = u <| u_last_verifying_at := t |>) as Hsame by (exists (u_last_verifying_at u); by destruct u).
  unfold mail_step, welcome. intros H. destruct mail; [|by ok_inv H]. ok_step H. ok_step H. ok_inv H.
  ok_step Hrun. destruct (_ && _); ok_inv Hrun; [by eexists|done].
Qed.
(** The last steps: the account is stored, and open invitations are accepted. *)
Definition store_account (mail : bool) (u : User) : M Json :=
  let* user := User_save u in
  let* emergency := conf emergency_access_allowed in
  do* (if negb mail && emergency then
         let* l := EmergencyAccess_find_all_invited_by_grantee_email (u_email user) in
         for_each l (λ emergency_invite,
           mignore (mdrop (EmergencyAccess_accept_invite emergency_invite (u_uuid user) (u_email user))))
       else mret tt) in
  mret (JObj [("object", JStr "register"); ("captchaBypassToken", JStr "")]).
Lemma wp_store_account mail u e w (Φ : res Error Json → World → Prop) :
  (∀ x, Φ (Err x) w) →
  (∀ r w', account (users (db w') !! u_uuid u) = account (Some u) →
     (∀ k, k ≠ u_uuid u → account (users (db w') !! k) = account (users (db w) !! k)) → Φ r w') →
  wp (store_account mail u) e w Φ.
Proof.
  intros Herr HΦ. unfold store_account. apply wp_bind. eapply wp_eq; [apply User_save_eq|].
  destruct (is_valid_email e (u_email u)); [|apply Herr]. cbn [bind_post fst snd].
  set (u1 := u <| u_updated_at := now e |>). set (w1 := w <| db := _ |>).
  apply (wp_within (R := quiet)).
  - solve_within. apply within_mdrop, aside_accept_emergency.
  - intros r w' Hq. assert (∀ k, account (users (db w') !! k) = account (users (db w1) !! k)) as Hw by (intros k; apply Hq; by intros []).
    apply HΦ; [|intros k Hk]; rewrite Hw; simpl; [by rewrite lookup_insert_eq|by rewrite lookup_insert_ne].
Qed.

(** C21: a request to register changes an account only on grounds: either the
    account has the address of the request and no password yet, and an invitation
    of an organization, of the administrator or of an emergency contact, or open
    registration, lets its holder complete it; or no account has the address, and
    it is a new one, by an invitation, open registration or the token of an
    emergency contact.  It then has the password, keys and key derivation of the
    request, in bounds, and all other accounts are as before.  In all other cases
    the request fails and all accounts are as before. *)
Theorem registration_sound data v e w :
  let email := str_to_lowercase e (rg_email data) in
  ∃ r w', register data v e w = (r, w') ∧
    ((∀ k, account (users (db w') !! k) = account (users (db w) !! k)) ∧ (∀ j, r ≠ Ok j) ∨
     ∃ u u', grounds e w data v email u ∧ registered e data u u' ∧
       account (users (db w') !! u_uuid u) = account (Some u') ∧
       ∀ k, k ≠ u_uuid u → account (users (db w') !! k) = account (users (db w) !! k)).
Proof.
  intros email. apply wp_exists. unfold register.
  assert (∀ (r : res Error Json) w', quiet w w' → (∀ b, r ≠ Ok b) →
    (∀ k, account (users (db w') !! k) = account (users (db w) !! k)) ∧ (∀ j, r ≠ Ok j)) as Hend
    by (intros r w' Hq Hr; split; [intros k; apply Hq; by intros []|done]).
  apply wp_bind, wp_ask. fold email. apply wp_quiet_bind with (w0 := w); [destruct v; [apply aside_check_tokens|solve_within]|done|auto|].
  intros [[data1 ver] pend] w1 Htok _. apply register_tokens in Htok as (-> & [name ->] & Hpend).
  apply wp_quiet_bind with (w0 := w); [unfold check_name; solve_within|done|auto|].
  intros o w1 Hrun _. assert (w1 = w) as -> by (simpl in Hrun; destruct name; unfold check_name in Hrun; by ok_inv Hrun).
  apply wp_quiet_bind with (w0 := w); [unfold enforce_password_hint_setting; solve_within|done|auto|].
  intros o' w1 Hhint _. assert (w1 = w) as -> by (unfold enforce_password_hint_setting in Hhint; by ok_inv Hhint).
  apply wp_quiet_bind with (w0 := w); [apply aside_registering_user|done|auto|]. intros [u ver'] w1 Hu H1.
  apply (registering_user_Ok _ _ _ _ _ _ _ _ _ v) in Hu; [|done].
  apply wp_quiet_bind with (w0 := w); [apply aside_Invitation_take|done|auto|]. intros b w2 _ H2.
  apply wp_quiet_bind with (w0 := w); [apply within_reads, reads_set_kdf_data|done|auto|].
  intros u1 w3 (-> & Hk & ->)%set_kdf_Ok _.
  apply wp_quiet_bind with (w0 := w); [apply aside_set_password|done|auto|]. intros u2 w3 [-> _]%set_password_Ok H3.
  do 2 (apply wp_bind; wp_step; wp_step).
  apply wp_quiet_bind with (w0 := w); [apply (within_mail_step (mail_enabled (cfg e)))|done|auto|].
  intros u3 w4 [t Hu3]%(mail_step_Ok (mail_enabled (cfg e))) H4.
  apply (wp_store_account (mail_enabled (cfg e))); [intros x; left; by apply Hend|]. intros r w' Hin Hout.
  assert (u_uuid u3 = u_uuid u) as Hid by (rewrite Hu3; simpl; by destruct name, ver', (rg_keys data)).
  rewrite Hid in Hin, Hout. right. exists u, u3. split; [exact Hu|]. split; [|split; [done|]].
  - rewrite Hu3. simpl. destruct name, ver', (rg_keys data) eqn:Ek; split; simpl; rewrite ?Ek; try done.
    all: try (split; [exact Hk|]; unfold kdf_of; simpl; by destruct (kdf_stored _)). all: by intros ? [= <-].
  - intros k Hne. rewrite Hout by done. apply H4. by intros [].
Qed.
End registration.

(** ** The address *)

Section address.
Context `{!Serde ProtectedActionData pa_stored, !Serde EmailTokenData id, !Serde UserStampException id}.

(** The change was asked for, and the code sent to the new address came back. *)
Record change_confirmed (e : Env) (w : World) (data : ChangeEmailData) (u : User) : Prop := {
  cc_allowed : email_change_allowed (cfg e) = true;
  cc_password : User_check_valid_password u (ce_master_password_hash data) e w = (Ok true, w);
  cc_unused : ∀ k u', users (db w) !! k = Some u' → u_email u' ≠ str_to_lowercase e (ce_new_email data);
  cc_pending : u_email_new u = Some (ce_new_email data);
  cc_code : mail_enabled (cfg e) = true → u_email_new_token u = Some (NumberOrString_into_string (ce_change_token data));
}.
(** The account after the change *)
Record address_changed (e : Env) (data : ChangeEmailData) (u u' : User) : Prop := {
  ac_uuid : u_uuid u' = u_uuid u;
  ac_email : u_email u' = ce_new_email data;
  ac_pending : u_email_new u' = None ∧ u_email_new_token u' = None;
  ac_password : u_password_hash u' =
    pbkdf2_derive e (string_bytes (ce_new_master_password_hash data)) (u_salt u) (cast_unsigned32 (u_password_iterations u));
  ac_key : u_akey u' = ce_key data;
}.

Lemma reads_check_valid_password u pw : reads (User_check_valid_password u pw).
Proof. unfold User_check_valid_password, verify_password_hash. solve_reads. Qed.
Lemma wp_mdrop_save u e w (Φ : res Error unit → World → Prop) :
  (∀ x, Φ (Err x) w) →
  (∀ w', account (users (db w') !! u_uuid u) = account (Some u) →
     (∀ k, k ≠ u_uuid u → account (users (db w') !! k) = account (users (db w) !! k)) → Φ (Ok tt) w') →
  wp (mdrop (User_save u)) e w Φ.
Proof.
  intros Herr HΦ. unfold mdrop. apply wp_bind. eapply wp_eq; [apply User_save_eq|].
  destruct (is_valid_email e (u_email u)); [|apply Herr]. apply HΦ; [|intros k Hk]; simpl; [by rewrite lookup_insert_eq|by rewrite lookup_insert_ne].
Qed.

Lemma wp_password_saved u pw key e w (Φ : res Error unit → World → Prop) :
  (∀ r w', quiet w w' → (∀ b, r ≠ Ok b) → Φ r w') →
  (∀ w' i, account (users (db w') !! u_uuid u) = account (Some (with_password e i u pw key)) →
     (∀ k, k ≠ u_uuid u → account (users (db w') !! k) = account (users (db w) !! k)) → Φ (Ok tt) w') →
  wp (User_set_password u pw key true None) e w (bind_post (λ u', mdrop (User_save u')) e Φ).
Proof.
  intros Hend HΦ. apply wp_intro. intros r w1 Hrun.
  pose proof (wp_run _ _ _ _ (aside_set_password (λ _, False) u pw key true None e w) _ _ Hrun) as Hq.
  destruct r as [u'|x|]; simpl; [|by apply Hend..]. apply set_password_Ok in Hrun as [-> _].
  assert (u_uuid (with_password e (tick w) u pw key) = u_uuid u) as Hid by (by destruct key).
  apply wp_mdrop_save; [intros x; by apply Hend|]. rewrite Hid. intros w' Hin Hout. apply (HΦ _ (tick w)); [done|].
  intros k Hk. rewrite Hout by done. apply Hq. by intros [].
Qed.

Lemma wp_post_email data s e w :
  wp (post_email data s) e w (λ r w',
    (∀ k, account (users (db w') !! k) = account (users (db w) !! k)) ∧ r ≠ Ok tt ∨
    r = Ok tt ∧ change_confirmed e w data (sn_user s) ∧
    (∃ u', address_changed e data (sn_user s) u' ∧ account (users (db w') !! u_uuid (sn_user s)) = account (Some u')) ∧
    ∀ k, k ≠ u_uuid (sn_user s) → account (users (db w') !! k) = account (users (db w) !! k)).
Proof.
  assert (∀ (r : res Error unit) w', quiet w w' → (∀ b, r ≠ Ok b) →
    (∀ k, account (users (db w') !! k) = account (users (db w) !! k)) ∧ r ≠ Ok tt) as Hend
    by (intros r w' Hq Hr; split; [intros k; apply Hq; by intros []|done]).
  unfold post_email. apply wp_bind, wp_conf. simpl. apply wp_bind, wp_ensure; intros Ha; [|left; by apply Hend].
  apply wp_bind, wp_intro. intros r w1 Hpw. assert (w1 = w) as -> by (destruct (reads_check_valid_password (sn_user s) (ce_master_password_hash data) e w); congruence).
  destruct r as [b|x|]; [|left; by apply Hend..]. simpl. apply wp_bind, wp_ensure; intros Hb; [|left; by apply Hend].
  unfold User_find_by_mail. apply wp_bind. wp_go; try (left; by apply Hend).
  all: destruct b; [|done]; apply bool_decide_eq_true in Hc0 as ->; apply wp_password_saved; [left; by apply Hend|].
  all: intros w' i Hin Hout; right; split; [done|]; split; [split; try done|].
  all: try (intros k u' Hu Hm; destruct (first _ _) eqn:Hf; [done|];
            apply (first_None _ _) with (k := k) (r := u') in Hf; [by rewrite Hm, bool_decide_eq_true_2 in Hf|done]).
  1: apply bool_decide_eq_true in Hc1 as <-; done. 1, 3: split; [by eexists; split; [|exact Hin]|done]. congruence.
Qed.

(** The address of an account changes only with its password, to the address
    that is pending, which no account has, and, where mail is sent, with the code
    that was sent to it.  The account then has the new address, the new password
    and the new key, and nothing is pending; all other accounts are as before.  In
    all other cases all accounts are as before. *)
Theorem email_change_sound data s e w :
  ∃ r w', post_email data s e w = (r, w') ∧
    ((∀ k, account (users (db w') !! k) = account (users (db w) !! k)) ∧ r ≠ Ok tt ∨
     r = Ok tt ∧ change_confirmed e w data (sn_user s) ∧
     (∃ u', address_changed e data (sn_user s) u' ∧ account (users (db w') !! u_uuid (sn_user s)) = account (Some u')) ∧
     ∀ k, k ≠ u_uuid (sn_user s) → account (users (db w') !! k) = account (users (db w) !! k)).
Proof. apply wp_exists, wp_post_email. Qed.

Lemma account_email o o' u' : account o = account o' → o = Some u' → ∃ u, o' = Some u ∧ u_email u' = u_email u.
Proof. intros E ->. destruct o' as [u|]; [|done]. exists u. split; [done|]. by injection E as []. Qed.
(** An account whose new address has a capital letter cannot be found by that
    address any more: addresses are looked up in lower case, and the change
    stores what was typed. *)
Theorem email_change_loses_account data s e w w' :
  post_email data s e w = (Ok tt, w') → str_to_lowercase e (ce_new_email data) ≠ ce_new_email data →
  User_find_by_mail (ce_new_email data) e w' = (Ok None, w').
Proof.
  intros Hrun Hcase. destruct (wp_run _ _ _ _ (wp_post_email data s e w) _ _ Hrun) as [[_ []]|(_ & Hc & (u & Ha & Hu) & Ho)]; [done|].
  unfold User_find_by_mail, mbind, ask, query. do 2 f_equal. apply first_None. intros k u1 Hk. apply bool_decide_eq_false_2. intros Hm.
  destruct (decide (k = u_uuid (sn_user s))) as [->|Hne].
  - destruct (account_email _ _ _ Hu Hk) as (u2 & [= <-] & E). destruct Hcase. rewrite <- Hm, E. apply Ha.
  - destruct (account_email _ _ _ (Ho k Hne) Hk) as (u2 & Hu2 & E). by apply (cc_unused _ _ _ _ Hc _ _ Hu2); rewrite <- E.
Qed.
End address.

(** ** Examples *)

Module ToyAccountSafety.
Import ToyEnv ToyUsers ToyTwoFactor ToyCodes ToyLogin ToyLinks ToyAccounts.

Lemma toy_users_keyed : users_keyed (db toy_world).
Proof.
  intros k u H. change (({["alice" := toy_user "alice"; "bob" := toy_user "bob"]} : gmap string User) !! k = Some u) in H.
  apply lookup_insert_Some in H as [[<- <-]|[_ [<- <-]%lookup_singleton_Some]]; reflexivity.
Qed.
Definition alice_token : Request := mkRequest (Some "Bearer stamp") None None None "ip".
Lemma accounts_apart_witness :
  ∃ w', serve_account toy_services true "host" (InSession (PostProfile "Al") alice_token) (toy_env 0) toy_world = (Ok tt, w') ∧
    account (users (db w') !! "bob") = account (Some (toy_user "bob")).
Proof.
  destruct (accounts_apart toy_services true "host" (PostProfile "Al") alice_token (toy_env 0) toy_world "bob" toy_users_keyed)
    as (r & w' & Hrun & H); [vm_compute; discriminate|].
  assert (r = Ok tt) as -> by (apply (f_equal fst) in Hrun; vm_compute in Hrun; by symmetry).
  exists w'. split; [exact Hrun|exact H].
Defined.

(** Alice asked to change her address, and types the code. *)
Definition case_env : Env := (toy_env 0) <| str_to_lowercase := λ s, if bool_decide (s = "Al@x.org") then "al@x.org" else s |>.
Definition alice_moving : User := (toy_user "alice") <| u_email_new := Some "Al@x.org" |> <| u_email_new_token := Some "123456" |>.
Definition moving_session : Session := mkSession (toy_device "d1" "alice") alice_moving "ip".
Definition moving_world : World := toy_world <| db := (db toy_world) <| users := {["alice" := alice_moving]} |> |>.
Lemma email_change_loses_account_witness :
  ∃ w', post_email (mkChangeEmailData "pw" "Al@x.org" "key2" "pw2" (NString "123456")) moving_session case_env moving_world = (Ok tt, w') ∧
    User_find_by_mail "Al@x.org" case_env w' = (Ok None, w').
Proof.
  eexists. split; [vm_compute; reflexivity|].
  eapply (email_change_loses_account (mkChangeEmailData "pw" "Al@x.org" "key2" "pw2" (NString "123456")) moving_session case_env moving_world);
    vm_compute; [reflexivity|discriminate].
Defined.

(** Carol is invited and registers. *)
Definition carol_data (iterations : Z) : RegisterData :=
  mkRegisterData "carol@x.org" (mkKDFData 0 iterations None None) "key" None "pw" None None None (Some "carol@x.org") None None None.
Definition invited_world : World := toy_world <| db := (db toy_world) <| invitations := {["carol@x.org"]} |> |>.
Definition invited_only : Env := (toy_env 0) <| cfg := toy_config <| signups_allowed := false |> |>.
(** A request with parameters out of bounds is refused after the invitation was
    taken, so that it cannot be repeated. *)
Theorem registration_loses_invitation :
  ∃ w', register (carol_data 1000) true invited_only invited_world
          = (Err (new_msg "PBKDF2 KDF iterations must be at least 100000."), w') ∧
    ∃ w'', register (carol_data 600000) true invited_only w'
             = (Err (new_msg "Registration not allowed or user already exists"), w'') ∧
      ∃ w3, register (carol_data 600000) true invited_only invited_world
              = (Ok (JObj [("object", JStr "register"); ("captchaBypassToken", JStr "")]), w3).
Proof.
  eexists. split; [vm_compute; reflexivity|]. eexists. split; [vm_compute; reflexivity|]. eexists. vm_compute. reflexivity.
Qed.
(** A second factor that is enforced for verified addresses is not set up for a
    new account: its row refers to the account, which is stored afterwards. *)
Theorem enforced_2fa_skipped :
  let e := (toy_env 0) <| cfg := toy_config <| email_2fa_enforce_on_verified_invite := true |> |> in
  ∃ j w', register (carol_data 600000) true e toy_world = (Ok j, w') ∧
    is_Some (users (db w') !! "id100") ∧ u_verified_at <$> users (db w') !! "id100" = Some (Some 0%Z) ∧ twofactor (db w') = ∅.
Proof. do 2 eexists. split; [vm_compute; reflexivity|]. split; [vm_compute; by eexists|]. split; vm_compute; reflexivity. Qed.
End ToyAccountSafety.
