(* ===== verification/AccountDeletion.v ===== *)
(** * Deletion of accounts

    A deletion that succeeds removes exactly the rows that belong to the account, in
    every table; one that fails at the last statement has removed most of them. *)

From stdpp Require Import base strings numbers pretty gmap list.
From S2P Require Import Prelude Store JsonUtil Queries Users Orgs AuthRequests TwoFactor Sends Collections Signups Folders.
From S2P Require Import TotpReplay OneTimeCodes Login Sessions Ciphers Vault SendAccess VaultAccess EmergencyAccess EmergencyProtocol.
From S2P Require Import Profiles Members OrgRequests Accounts KeyRotation AccountFrames.

(** ** What the steps leave alone *)

Section frames.
Context {X} (π : Db → X).
Hypothesis π_users : ∀ d x, π (d <| users := x |>) = π d.

Lemma keeps_revision v : keeps π (User_update_uuid_revision v).
Proof. by apply keeps_update_uuid_revision. Qed.
Hint Resolve keeps_revision : frame.
Lemma keeps_Send_delete s : (∀ d x, π (d <| sends := x |>) = π d) → keeps π (Send_delete s).
Proof.
  intros Hπ. unfold Send_delete, Send_update_users_revision, sends_operator, delete_files. solve_keeps.
  intros e w. apply wp_intro. intros r w'. case_match; by intros [= <- <-].
Qed.
Lemma keeps_EmergencyAccess_delete r :
  (∀ d x, π (d <| emergency_access := x |>) = π d) → keeps π (EmergencyAccess_delete r).
Proof. intros Hπ. unfold EmergencyAccess_delete. solve_keeps. Qed.
Lemma keeps_member_delete m :
  (∀ d x, π (d <| users_collections := x |>) = π d) → (∀ d x, π (d <| groups_users := x |>) = π d) →
  (∀ d x, π (d <| users_organizations := x |>) = π d) → keeps π (Membership_delete m).
Proof.
  intros H1 H2 H3. unfold Membership_delete, CollectionUser_delete_all_by_user_and_org,
    CollectionUser_find_by_organization_and_user_uuid, GroupUser_delete_all_by_member, Membership_find_by_uuid. solve_keeps.
Qed.
Lemma keeps_Cipher_delete c :
  (∀ d x, π (d <| folders_ciphers := x |>) = π d) → (∀ d x, π (d <| ciphers_collections := x |>) = π d) →
  (∀ d x, π (d <| attachments := x |>) = π d) → (∀ d x, π (d <| favorites := x |>) = π d) →
  (∀ d x y, π (d <| archives := x |> <| ciphers := y |>) = π d) → keeps π (Cipher_delete c).
Proof.
  intros H1 H2 H3 H4 H5. unfold Cipher_delete, FolderCipher_delete_all_by_cipher, CollectionCipher_delete_all_by_cipher,
    Attachment_delete_all_by_cipher, Attachment_find_by_cipher, Attachment_delete, delete_attachment_file,
    attachments_operator, Favorite_delete_all_by_cipher. solve_keeps.
  - by apply keeps_users_revision.
  - intros e w. apply wp_intro. intros r w'. case_match; by intros [= <- <-].
  - apply keeps_exec. intros d. apply H5.
Qed.
Lemma keeps_Folder_delete f :
  (∀ d x, π (d <| folders_ciphers := x |>) = π d) → (∀ d x, π (d <| folders := x |>) = π d) → keeps π (Folder_delete f).
Proof. intros H1 H2. unfold Folder_delete, FolderCipher_delete_all_by_folder. solve_keeps. Qed.
End frames.

(** ** A loop that deletes what it finds *)

Section drain.
Context {K V} `{HK : Countable K} (T : Db → gmap K V) (key : V → K) (f : V → M unit).
(** Each round deletes its row. *)
Hypothesis f_deletes : ∀ x e w w', f x e w = (Ok tt, w') → T (db w') = delete (key x) (T (db w)).

Lemma for_each_deletes l : ∀ e w w',
  for_each l f e w = (Ok tt, w') → T (db w') = filter (λ kv, kv.1 ∉ key <$> l) (T (db w)).
Proof.
  induction l as [|x l IH]; intros e w w' H; simpl in H.
  - injection H as <-. symmetry. apply map_filter_id. intros k v _. apply not_elem_of_nil.
  - ok_step H. destruct a. rewrite (IH _ _ _ H), (f_deletes _ _ _ _ Hrun). apply map_eq. intros k.
    apply option_eq. intros v. rewrite !map_lookup_filter_Some, lookup_delete_Some. simpl. set_solver.
Qed.
Lemma drained_where p e w w' :
  (∀ k x, T (db w) !! k = Some x → p x = true → key x = k) →
  for_each (load p (T (db w))) f e w = (Ok tt, w') → T (db w') = delete_where p (T (db w)).
Proof.
  intros Hk H1. rewrite (for_each_deletes _ _ _ _ H1). apply map_eq. intros k. apply option_eq. intros v.
  unfold delete_where. rewrite !map_lookup_filter_Some. simpl. split; intros [Hv Hp]; (split; [done|]).
  - destruct (p v) eqn:E; [|done]. destruct Hp. rewrite <- (Hk _ _ Hv E). apply list_elem_of_fmap_2, elem_of_load. eauto.
  - intros (x & Hx & [Hpx [j Hj]]%elem_of_load)%list_elem_of_fmap. rewrite (Hk _ _ Hj Hpx) in Hx. simplify_eq. congruence.
Qed.
Lemma drained p e w w' :
  (∀ k x, T (db w) !! k = Some x → key x = k) →
  for_each (load p (T (db w))) f e w = (Ok tt, w') → T (db w') = delete_where p (T (db w)).
Proof. intros Hk. apply drained_where. auto. Qed.
End drain.

(** A loop that does the same to a table for each row it found *)
Section acting.
Context {X} (T : Db → X) {V} (G : V → X → X) (I : X → Prop) (f : V → M unit).
Hypothesis f_acts : ∀ x e w w', I (T (db w)) → f x e w = (Ok tt, w') → T (db w') = G x (T (db w)).
Hypothesis I_kept : ∀ x t, I t → I (G x t).
Lemma for_each_acts l e w w' : I (T (db w)) → for_each l f e w = (Ok tt, w') → T (db w') = foldl (flip G) (T (db w)) l.
Proof.
  revert w. induction l as [|x l IH]; intros w HI H; simpl in H; [by injection H as <-|]. ok_step H. destruct a.
  pose proof (f_acts _ _ _ _ HI Hrun) as E. simpl. rewrite <- E. apply IH; [|done]. rewrite E. by apply I_kept.
Qed.
End acting.
(** The row under the key [k] is one of those that go. *)
Definition goes {V} (p : V → bool) (t : gmap string V) (k : string) : bool := from_option p false (t !! k).
Lemma goes_loaded {V} (key : V → string) p (t : gmap string V) k :
  (∀ k x, t !! k = Some x → key x = k) → goes p t k = true ↔ k ∈ key <$> load p t.
Proof.
  intros Hk. unfold goes. rewrite list_elem_of_fmap. split.
  - destruct (t !! k) as [x|] eqn:E; [|done]. simpl. intros Hp. exists x. split; [symmetry; by apply Hk|]. apply elem_of_load. eauto.
  - intros (x & -> & [Hp [j Hj]]%elem_of_load). by rewrite (Hk _ _ Hj), Hj.
Qed.
Lemma goes_not_loaded {V} (key : V → string) p (t : gmap string V) k :
  (∀ k x, t !! k = Some x → key x = k) → goes p t k = false ↔ k ∉ key <$> load p t.
Proof. intros Hk. rewrite <- (goes_loaded key p t k Hk). by destruct (goes p t k). Qed.
(** Links to rows that go, in a table of pairs *)
Definition cut {V} (side : string * string → string) (key : V → string) (x : V) (T : gset (string * string)) : gset (string * string) :=
  filter (λ l, side l ≠ key x) T.
Lemma links_drained {V} (key : V → string) (side : string * string → string) (p : V → bool) (t : gmap string V) (T0 : gset (string * string)) :
  (∀ k x, t !! k = Some x → key x = k) →
  foldl (flip (cut side key)) T0 (load p t) = filter (λ l, goes p t (side l) = false) T0.
Proof.
  intros Hk. assert (∀ l T0, foldl (flip (cut side key)) T0 l = filter (λ y, side y ∉ key <$> l) (T0 : gset _)) as ->.
  { clear. induction l as [|x l IH]; intros T0; simpl; [|rewrite IH]; unfold cut; apply set_eq; intros y; rewrite !elem_of_filter; set_solver. }
  apply set_eq. intros y. rewrite !elem_of_filter. by rewrite (goes_not_loaded key p t (side y) Hk).
Qed.
(** Rows that refer to rows that go *)
Lemma rows_drained {K V U} `{Countable K} (q : V → U → bool) l (T0 : gmap K U) :
  foldl (flip (λ x (T : gmap K U), delete_where (q x) T)) T0 l = delete_where (λ y, existsb (λ x, q x y) l) T0.
Proof.
  revert T0. induction l as [|x l IH]; intros T0; simpl.
  - apply map_eq. intros k. rewrite lookup_delete_where. by destruct (T0 !! k).
  - rewrite IH. apply map_eq. intros k. rewrite !lookup_delete_where. destruct (T0 !! k) as [y|]; simpl; [|done]. by destruct (q x y).
Qed.
(** The same, beside a table that stays *)
Lemma pair_drained {K V U C} `{Countable K} (q : C → V → U → bool) l (t : C * gmap K U) :
  foldl (flip (λ x (t : C * gmap K U), (t.1, delete_where (q t.1 x) t.2))) t l = (t.1, delete_where (λ y, existsb (λ x, q t.1 x y) l) t.2).
Proof.
  rewrite <- (rows_drained (q t.1)). revert t. induction l as [|x l IH]; intros [c T0]; [done|]. simpl. rewrite IH. done.
Qed.
Lemma delete_where_ext {K V} `{Countable K} (p q : V → bool) (t : gmap K V) :
  (∀ k x, t !! k = Some x → p x = q x) → delete_where p t = delete_where q t.
Proof. intros Hpq. apply map_eq. intros k. rewrite !lookup_delete_where. destruct (t !! k) eqn:E; simpl; [|done]. by rewrite (Hpq _ _ E). Qed.

Lemma keeps_Ok {A X} (π : Db → X) (m : M A) e w a w' : keeps π m → m e w = (Ok a, w') → π (db w') = π (db w).
Proof. intros Hm Hrun. apply (wp_run _ _ _ _ (Hm e w) _ _ Hrun). Qed.
Lemma Send_delete_Ok s e w w' : Send_delete s e w = (Ok tt, w') → sends (db w') = delete (s_uuid s) (sends (db w)).
Proof.
  unfold Send_delete. intros H. do 2 ok_step H. ok_inv H. simpl. f_equal. etrans; [eapply keeps_Ok; [|exact Hrun0]|eapply keeps_Ok; [|exact Hrun]].
  - unfold sends_operator, delete_files. solve_keeps.
    intros ? ?. apply wp_intro. intros r ?. case_match; by intros [= <- <-].
  - unfold Send_update_users_revision. solve_keeps.
Qed.
Lemma EmergencyAccess_delete_Ok r e w w' :
  EmergencyAccess_delete r e w = (Ok tt, w') → emergency_access (db w') = delete (ea_uuid r) (emergency_access (db w)).
Proof. unfold EmergencyAccess_delete. intros H. ok_step H. ok_inv H. simpl. f_equal. eapply keeps_Ok; [|exact Hrun]. solve_keeps. Qed.
Lemma Membership_delete_Ok m e w w' :
  Membership_delete m e w = (Ok tt, w') → users_organizations (db w') = delete (m_uuid m) (users_organizations (db w)).
Proof.
  unfold Membership_delete. intros H. do 3 ok_step H. ok_inv H. simpl. f_equal.
  etrans; [eapply keeps_Ok; [|exact Hrun1]|etrans; [eapply keeps_Ok; [|exact Hrun0]|eapply keeps_Ok; [|exact Hrun]]].
  - unfold GroupUser_delete_all_by_member, Membership_find_by_uuid. solve_keeps.
  - unfold CollectionUser_delete_all_by_user_and_org, CollectionUser_find_by_organization_and_user_uuid. solve_keeps.
  - solve_keeps.
Qed.
Lemma Cipher_delete_Ok c e w w' : Cipher_delete c e w = (Ok tt, w') → ciphers (db w') = delete (ci_uuid c) (ciphers (db w)).
Proof.
  unfold Cipher_delete, FolderCipher_delete_all_by_cipher, CollectionCipher_delete_all_by_cipher, Favorite_delete_all_by_cipher.
  intros H. do 5 ok_step H. ok_inv H. simpl. f_equal. etrans; [eapply keeps_Ok; [|exact Hrun0]|simpl; eapply keeps_Ok; [|exact Hrun]].
  - unfold Attachment_delete_all_by_cipher, Attachment_find_by_cipher, Attachment_delete, delete_attachment_file, attachments_operator.
    solve_keeps. intros ? ?. apply wp_intro. intros r ?. case_match; by intros [= <- <-].
  - by apply keeps_users_revision.
Qed.
Lemma Folder_delete_Ok f e w w' : Folder_delete f e w = (Ok tt, w') → folders (db w') = delete (f_uuid f) (folders (db w)).
Proof.
  unfold Folder_delete, FolderCipher_delete_all_by_folder. intros H. do 2 ok_step H. ok_inv H. simpl. f_equal.
  eapply keeps_Ok; [|exact Hrun]. solve_keeps.
Qed.

(** The other tables of a step *)
Lemma delete_file_keeps {X} (π : Db → X) x : keeps π (delete_attachment_file x).
Proof.
  unfold delete_attachment_file, attachments_operator. solve_keeps. intros e w. apply wp_intro. intros r w'. case_match; by intros [= <- <-].
Qed.
Lemma attachments_by_cipher_Ok k e w w' :
  (∀ k x, attachments (db w) !! k = Some x → at_id x = k) → Attachment_delete_all_by_cipher k e w = (Ok tt, w') →
  attachments (db w') = delete_where (λ a, bool_decide (at_cipher_uuid a = k)) (attachments (db w)).
Proof.
  intros Hk H. unfold Attachment_delete_all_by_cipher, Attachment_find_by_cipher in H. ok_step H.
  apply (drained attachments at_id) in H; [done| |done]. clear. intros x e w w' H. unfold Attachment_delete in H. ok_step H.
  by rewrite (keeps_Ok attachments _ _ _ _ _ (delete_file_keeps attachments _) H).
Qed.
Lemma attachments_by_cipher_keeps {X} (π : Db → X) k :
  (∀ d x, π (d <| attachments := x |>) = π d) → keeps π (Attachment_delete_all_by_cipher k).
Proof.
  intros Hπ. unfold Attachment_delete_all_by_cipher, Attachment_find_by_cipher, Attachment_delete. pose proof (@delete_file_keeps X π). solve_keeps.
Qed.
Lemma Cipher_delete_links c e w w' :
  Cipher_delete c e w = (Ok tt, w') →
  folders_ciphers (db w') = filter (λ l, l.1 ≠ ci_uuid c) (folders_ciphers (db w)) ∧
  ciphers_collections (db w') = filter (λ l, l.1 ≠ ci_uuid c) (ciphers_collections (db w)) ∧
  favorites (db w') = filter (λ l, l.2 ≠ ci_uuid c) (favorites (db w)) ∧
  archives (db w') = filter (λ '(k, _), k.2 ≠ ci_uuid c) (archives (db w)) ∧
  ((∀ k x, attachments (db w) !! k = Some x → at_id x = k) →
   attachments (db w') = delete_where (λ a, bool_decide (at_cipher_uuid a = ci_uuid c)) (attachments (db w))).
Proof.
  unfold Cipher_delete, FolderCipher_delete_all_by_cipher, CollectionCipher_delete_all_by_cipher, Favorite_delete_all_by_cipher, cascade_archives.
  intros H. do 5 ok_step H. ok_inv H. destruct a2. simpl.
  assert (∀ X (π : Db → X), (∀ d x, π (d <| users := x |>) = π d) → π (db w0) = π (db w)) as F1.
  { intros X π Hπ. eapply keeps_Ok, Hrun. by apply keeps_users_revision. }
  assert (∀ X (π : Db → X), (∀ d x, π (d <| attachments := x |>) = π d) → π (db w1) = π ((db w0)
    <| folders_ciphers := filter (λ fc, fc.1 ≠ ci_uuid c) (folders_ciphers (db w0)) |>
    <| ciphers_collections := filter (λ cc, cc.1 ≠ ci_uuid c) (ciphers_collections (db w0)) |>)) as F2.
  { intros X π Hπ. eapply (keeps_Ok π) in Hrun0; [exact Hrun0|]. by apply attachments_by_cipher_keeps. }
  split_and!.
  - by rewrite (F2 _ folders_ciphers), <- (F1 _ folders_ciphers).
  - by rewrite (F2 _ ciphers_collections), <- (F1 _ ciphers_collections).
  - by rewrite (F2 _ favorites), <- (F1 _ favorites).
  - by rewrite (F2 _ archives), <- (F1 _ archives).
  - intros Hk. apply attachments_by_cipher_Ok in Hrun0; simpl in *; rewrite (F1 _ attachments) in *; done.
Qed.
Lemma Folder_delete_links f e w w' :
  Folder_delete f e w = (Ok tt, w') → folders_ciphers (db w') = filter (λ l, l.2 ≠ f_uuid f) (folders_ciphers (db w)).
Proof.
  unfold Folder_delete, FolderCipher_delete_all_by_folder. intros H. do 2 ok_step H. ok_inv H. simpl. f_equal.
  eapply keeps_Ok; [|exact Hrun]. solve_keeps.
Qed.
(** The collection is one of the organization. *)
Definition in_org_collection (cols : gmap string Collection) (o k : string) : bool :=
  match cols !! k with Some c => bool_decide (c_org_uuid c = o) | None => false end.
Definition access_of (cols : gmap string Collection) (m : Membership) (cu : CollectionUser) : bool :=
  bool_decide (cu_user_uuid cu = m_user_uuid m) && in_org_collection cols (m_org_uuid m) (cu_collection_uuid cu).
Lemma Membership_delete_links m e w w' :
  Membership_delete m e w = (Ok tt, w') →
  groups_users (db w') = filter (λ l, l.2 ≠ m_uuid m) (groups_users (db w)) ∧ collections (db w') = collections (db w) ∧
  ((∀ k x, users_collections (db w) !! k = Some x → (cu_user_uuid x, cu_collection_uuid x) = k) →
   users_collections (db w') = delete_where (access_of (collections (db w)) m) (users_collections (db w))).
Proof.
  unfold Membership_delete. intros H. do 3 ok_step H. ok_inv H. destruct a, a0, a1. simpl.
  assert (∀ X (π : Db → X), (∀ d x, π (d <| users := x |>) = π d) → π (db w0) = π (db w)) as F1.
  { intros X π Hπ. eapply keeps_Ok, Hrun. by apply keeps_revision. }
  assert (∀ X (π : Db → X), (∀ d x, π (d <| users_collections := x |>) = π d) → π (db w1) = π (db w0)) as F2.
  { intros X π Hπ. eapply keeps_Ok, Hrun0. unfold CollectionUser_delete_all_by_user_and_org, CollectionUser_find_by_organization_and_user_uuid. solve_keeps. }
  assert (∀ X (π : Db → X), (∀ d x, π (d <| users := x |>) = π d) → (∀ d x, π (d <| groups_users := x |>) = π d) → π (db w2) = π (db w1)) as F3.
  { intros X π H1 H2. eapply keeps_Ok, Hrun1. unfold GroupUser_delete_all_by_member, Membership_find_by_uuid.
    pose proof (keeps_revision π H1). solve_keeps. }
  split_and!.
  - unfold GroupUser_delete_all_by_member, Membership_find_by_uuid in Hrun1. ok_step Hrun1. ok_step Hrun1. ok_inv Hrun1. simpl.
    rewrite <- (F1 _ groups_users), <- (F2 _ groups_users) by done. f_equal. eapply keeps_Ok, Hrun2. solve_keeps.
  - by rewrite (F3 _ collections), (F2 _ collections), (F1 _ collections).
  - intros Hk. rewrite (F3 _ users_collections) by done. rewrite <- (F1 _ users_collections) in Hk |- * by done.
    rewrite <- (F1 _ collections) by done.
    unfold CollectionUser_delete_all_by_user_and_org, CollectionUser_find_by_organization_and_user_uuid in Hrun0. ok_step Hrun0.
    apply (drained_where users_collections (λ cu, (m_user_uuid m, cu_collection_uuid cu))) in Hrun0; [exact Hrun0|..].
    + clear. intros x e w w' H. by ok_inv H.
    + intros k x Hx [Hu _]%andb_true_iff. apply bool_decide_eq_true in Hu. rewrite <- (Hk _ _ Hx). congruence.
Qed.
(** ** The account *)

(** Rows are stored under their own keys. *)
Record rows_keyed (d : Db) : Prop := {
  rk_sends : ∀ k x, sends d !! k = Some x → s_uuid x = k;
  rk_emergency : ∀ k x, emergency_access d !! k = Some x → ea_uuid x = k;
  rk_members : ∀ k x, users_organizations d !! k = Some x → m_uuid x = k;
  rk_ciphers : ∀ k x, ciphers d !! k = Some x → ci_uuid x = k;
  rk_folders : ∀ k x, folders d !! k = Some x → f_uuid x = k;
  rk_attachments : ∀ k x, attachments d !! k = Some x → at_id x = k;
  rk_accesses : ∀ k x, users_collections d !! k = Some x → (cu_user_uuid x, cu_collection_uuid x) = k;
}.
(** Rows of emergency access that name the account: its own, those given to it,
    and open invitations to its address *)
Definition names_account (u : User) (r : EmergencyAccess) : bool :=
  bool_decide (ea_grantor_uuid r = u_uuid u) || (bool_decide (ea_grantee_uuid r = Some (u_uuid u)) ||
  (bool_decide (ea_email r = Some (u_email u)) && has_status r Invited)).
Definition personal_to (u : User) (c : Cipher) : bool := owned_by_user (u_uuid u) c && negb (is_not_null (ci_organization_uuid c)).

(** A cipher, folder or membership of the account, by its identifier *)
Definition cipher_goes (u : User) (d : Db) : string → bool := goes (personal_to u) (ciphers d).
Definition folder_goes (u : User) (d : Db) : string → bool := goes (λ f, bool_decide (f_user_uuid f = u_uuid u)) (folders d).
Definition member_goes (u : User) (d : Db) : string → bool := goes (is_user (u_uuid u)) (users_organizations d).
(** An access of the account to a collection of an organization it is a member of *)
Definition access_goes (u : User) (d : Db) (cu : CollectionUser) : bool :=
  existsb (λ m, access_of (collections d) m cu) (load (is_user (u_uuid u)) (users_organizations d)).

(** Tables that no deletion touches *)
Definition kept_tables (d : Db) :=
  (organizations d, org_policies d, collections d, groups d, collections_groups d, organization_api_key d, events d,
   twofactor_duo_ctx d, sso_auth d).

(** What deleting an account does to the tables: its rows go with what belongs to
    them, and all other rows stay. *)
Record account_deleted (e : Env) (u : User) (d d' : Db) : Prop := {
  del_user : users d' !! u_uuid u = None;
  del_others : ∀ k, k ≠ u_uuid u → account (users d' !! k) = account (users d !! k);
  del_sends : sends d' = delete_where (owned_by (u_uuid u)) (sends d);
  del_emergency : emergency_access d' = delete_where (names_account u) (emergency_access d);
  del_members : users_organizations d' = delete_where (is_user (u_uuid u)) (users_organizations d);
  del_groups_users : groups_users d' = filter (λ l, member_goes u d l.2 = false) (groups_users d);
  del_accesses : users_collections d' = delete_where (access_goes u d) (users_collections d);
  del_ciphers : ciphers d' = delete_where (personal_to u) (ciphers d);
  del_attachments : attachments d' = delete_where (λ a, cipher_goes u d (at_cipher_uuid a)) (attachments d);
  del_folders : folders d' = delete_where (λ f, bool_decide (f_user_uuid f = u_uuid u)) (folders d);
  del_folders_ciphers :
    folders_ciphers d' = filter (λ l, cipher_goes u d l.1 = false ∧ folder_goes u d l.2 = false) (folders_ciphers d);
  del_ciphers_collections : ciphers_collections d' = filter (λ l, cipher_goes u d l.1 = false) (ciphers_collections d);
  del_favorites : favorites d' = filter (λ l, l.1 ≠ u_uuid u ∧ cipher_goes u d l.2 = false) (favorites d);
  del_archives : archives d' = filter (λ ka, ka.1.1 ≠ u_uuid u ∧ cipher_goes u d ka.1.2 = false) (archives d);
  del_devices : devices d' = delete_where (λ r, bool_decide (d_user_uuid r = u_uuid u)) (devices d);
  del_twofactor : twofactor d' = delete_where (λ r, bool_decide (tf_user_uuid r = u_uuid u)) (twofactor d);
  del_incomplete :
    twofactor_incomplete d' = delete_where (λ r, bool_decide (ti_user_uuid r = u_uuid u)) (twofactor_incomplete d);
  del_invitation : invitations d' = invitations d ∖ {[str_to_lowercase e (u_email u)]};
  del_link : sso_users d' = delete (u_uuid u) (sso_users d);
  del_requests : auth_requests d' = auth_requests d ∧ ∀ k r, auth_requests d !! k = Some r → ar_user_uuid r ≠ u_uuid u;
  del_rest : kept_tables d' = kept_tables d;
}.
Lemma delete_where_where {V} (p q : V → bool) (t : gmap string V) :
  delete_where q (delete_where p t) = delete_where (λ x, p x || q x) t.
Proof.
  apply map_eq. intros k. rewrite !lookup_delete_where. destruct (t !! k) as [x|]; simpl; [|done].
  destruct (p x); simpl; [done|]. by destruct (q x).
Qed.
Lemma delete_where_keyed {V} (key : V → string) (p : V → bool) (t : gmap string V) :
  (∀ k x, t !! k = Some x → key x = k) → ∀ k x, delete_where p t !! k = Some x → key x = k.
Proof. intros Hk k x. rewrite lookup_delete_where. destruct (t !! k) eqn:E; [|done]. simpl. case_match; intros [= <-]. by apply Hk. Qed.

Lemma emergency_deleted u e w w1 w2 :
  (∀ k x, emergency_access (db w) !! k = Some x → ea_uuid x = k) → EmergencyAccess_delete_all_by_user (u_uuid u) e w = (Ok tt, w1) →
  EmergencyAccess_delete_all_by_grantee_email (u_email u) e w1 = (Ok tt, w2) →
  emergency_access (db w2) = delete_where (names_account u) (emergency_access (db w)).
Proof.
  intros Hk H1 H2. unfold EmergencyAccess_delete_all_by_user, EmergencyAccess_delete_all_by_grantee_email in *.
  unfold EmergencyAccess_find_all_by_grantor_uuid, EmergencyAccess_find_all_by_grantee_uuid,
    EmergencyAccess_find_all_invited_by_grantee_email, ea_load in *.
  ok_step H1. ok_step H1. ok_step H1. destruct a. ok_step H2. pose proof EmergencyAccess_delete_Ok as HD.
  apply (drained emergency_access ea_uuid _ HD) in Hrun; [|done].
  apply (drained emergency_access ea_uuid _ HD) in H1; [|rewrite Hrun; by apply delete_where_keyed].
  apply (drained emergency_access ea_uuid _ HD) in H2; [|rewrite H1, Hrun; by do 2 apply delete_where_keyed].
  rewrite H2, H1, Hrun, !delete_where_where. done.
Qed.

(** *** The steps *)

Section steps.
Context (u : User) (e : Env) (w w' : World).
Context {X} (π : Db → X) (π_users : ∀ d x, π (d <| users := x |>) = π d).

Lemma sends_step :
  Send_delete_all_by_user (u_uuid u) e w = (Ok tt, w') → (∀ d x, π (d <| sends := x |>) = π d) → π (db w') = π (db w).
Proof.
  intros H Hπ. eapply keeps_Ok; [|exact H]. unfold Send_delete_all_by_user, Send_find_by_user. solve_keeps. by apply keeps_Send_delete.
Qed.
Lemma emergency_step :
  EmergencyAccess_delete_all_by_user (u_uuid u) e w = (Ok tt, w') →
  (∀ d x, π (d <| emergency_access := x |>) = π d) → π (db w') = π (db w).
Proof.
  intros H Hπ. eapply keeps_Ok; [|exact H]. unfold EmergencyAccess_delete_all_by_user,
    EmergencyAccess_find_all_by_grantor_uuid, EmergencyAccess_find_all_by_grantee_uuid, ea_load.
  solve_keeps; by apply keeps_EmergencyAccess_delete.
Qed.
Lemma invited_step :
  EmergencyAccess_delete_all_by_grantee_email (u_email u) e w = (Ok tt, w') →
  (∀ d x, π (d <| emergency_access := x |>) = π d) → π (db w') = π (db w).
Proof.
  intros H Hπ. eapply keeps_Ok; [|exact H]. unfold EmergencyAccess_delete_all_by_grantee_email,
    EmergencyAccess_find_all_invited_by_grantee_email, ea_load. solve_keeps. by apply keeps_EmergencyAccess_delete.
Qed.
Lemma members_step :
  Membership_delete_all_by_user (u_uuid u) e w = (Ok tt, w') →
  (∀ d x, π (d <| users_collections := x |>) = π d) → (∀ d x, π (d <| groups_users := x |>) = π d) →
  (∀ d x, π (d <| users_organizations := x |>) = π d) → π (db w') = π (db w).
Proof.
  intros H H1 H2 H3. eapply keeps_Ok; [|exact H]. unfold Membership_delete_all_by_user, Membership_find_any_state_by_user, members.
  solve_keeps. by apply keeps_member_delete.
Qed.
Lemma ciphers_step :
  Cipher_delete_all_by_user (u_uuid u) e w = (Ok tt, w') →
  (∀ d x, π (d <| folders_ciphers := x |>) = π d) → (∀ d x, π (d <| ciphers_collections := x |>) = π d) →
  (∀ d x, π (d <| attachments := x |>) = π d) → (∀ d x, π (d <| favorites := x |>) = π d) →
  (∀ d x y, π (d <| archives := x |> <| ciphers := y |>) = π d) → π (db w') = π (db w).
Proof.
  intros H H1 H2 H3 H4 H5. eapply keeps_Ok; [|exact H]. unfold Cipher_delete_all_by_user, Cipher_find_owned_by_user.
  solve_keeps. by apply keeps_Cipher_delete.
Qed.
Lemma folders_step :
  Folder_delete_all_by_user (u_uuid u) e w = (Ok tt, w') →
  (∀ d x, π (d <| folders_ciphers := x |>) = π d) → (∀ d x, π (d <| folders := x |>) = π d) → π (db w') = π (db w).
Proof.
  intros H H1 H2. eapply keeps_Ok; [|exact H]. unfold Folder_delete_all_by_user, Folder_find_by_user. solve_keeps.
  by apply keeps_Folder_delete.
Qed.
Lemma invitation_step (b : bool) :
  Invitation_take (u_email u) e w = (Ok b, w') → (∀ d x, π (d <| invitations := x |>) = π d) → π (db w') = π (db w).
Proof.
  intros H Hπ. eapply keeps_Ok; [|exact H]. unfold Invitation_take, Invitation_find_by_mail, Invitation_delete. solve_keeps.
Qed.
End steps.

(** Loops over the rows of the account, and the links to them *)
Lemma marks_drained {V} (key : V → string) (p : V → bool) (t : gmap string V) (T0 : gmap (string * string) Z) :
  (∀ k x, t !! k = Some x → key x = k) →
  foldl (flip (λ x (T : gmap (string * string) Z), filter (λ '(k, _), k.2 ≠ key x) T)) T0 (load p t) =
  filter (λ ka, goes p t ka.1.2 = false) T0.
Proof.
  intros Hk. assert (∀ l T0, foldl (flip (λ x (T : gmap (string * string) Z), filter (λ '(k, _), k.2 ≠ key x) T)) T0 l =
    filter (λ ka, ka.1.2 ∉ key <$> l) T0) as ->.
  { clear. induction l as [|x l IH]; intros T0; simpl; [|rewrite IH]; apply map_eq; intros k; apply option_eq; intros z;
      rewrite !map_lookup_filter_Some; simpl; set_solver. }
  apply map_eq. intros k. apply option_eq. intros z. rewrite !map_lookup_filter_Some. by rewrite (goes_not_loaded key p t k.2 Hk).
Qed.
Lemma ciphers_links u e w w' :
  (∀ k x, ciphers (db w) !! k = Some x → ci_uuid x = k) → (∀ k x, attachments (db w) !! k = Some x → at_id x = k) →
  Cipher_delete_all_by_user (u_uuid u) e w = (Ok tt, w') →
  folders_ciphers (db w') = filter (λ l, cipher_goes u (db w) l.1 = false) (folders_ciphers (db w)) ∧
  ciphers_collections (db w') = filter (λ l, cipher_goes u (db w) l.1 = false) (ciphers_collections (db w)) ∧
  favorites (db w') = filter (λ l, cipher_goes u (db w) l.2 = false) (favorites (db w)) ∧
  archives (db w') = filter (λ ka, cipher_goes u (db w) ka.1.2 = false) (archives (db w)) ∧
  attachments (db w') = delete_where (λ a, cipher_goes u (db w) (at_cipher_uuid a)) (attachments (db w)).
Proof.
  intros Hk Ha H. unfold Cipher_delete_all_by_user, Cipher_find_owned_by_user in H. ok_step H.
  change (λ c, owned_by_user (u_uuid u) c && _) with (personal_to u) in H. split_and!.
  - apply (for_each_acts folders_ciphers (cut fst ci_uuid) (λ _, True)) in H; [|intros x ? ? ? _ Hx; apply (Cipher_delete_links _ _ _ _ Hx)|done..].
    rewrite H. by apply (links_drained ci_uuid fst).
  - apply (for_each_acts ciphers_collections (cut fst ci_uuid) (λ _, True)) in H; [|intros x ? ? ? _ Hx; apply (Cipher_delete_links _ _ _ _ Hx)|done..].
    rewrite H. by apply (links_drained ci_uuid fst).
  - apply (for_each_acts favorites (cut snd ci_uuid) (λ _, True)) in H; [|intros x ? ? ? _ Hx; apply (Cipher_delete_links _ _ _ _ Hx)|done..].
    rewrite H. by apply (links_drained ci_uuid snd).
  - apply (for_each_acts archives (λ x (T : gmap (string * string) Z), filter (λ '(k, _), k.2 ≠ ci_uuid x) T) (λ _, True)) in H; [|intros x ? ? ? _ Hx; apply (Cipher_delete_links _ _ _ _ Hx)|done..].
    rewrite H. by apply (marks_drained ci_uuid).
  - apply (for_each_acts attachments (λ c, delete_where (λ a, bool_decide (at_cipher_uuid a = ci_uuid c))) (λ t, ∀ k x, t !! k = Some x → at_id x = k)) in H;
      [|intros x ? ? ? Hx Hrun; by apply (Cipher_delete_links _ _ _ _ Hrun)|intros; by eapply delete_where_keyed|done].
    rewrite H, (rows_drained (λ c a, bool_decide (at_cipher_uuid a = ci_uuid c))). apply delete_where_ext. intros k a _.
    apply eq_bool_prop_intro. rewrite !Is_true_true, existsb_exists. unfold cipher_goes. rewrite (goes_loaded ci_uuid _ _ _ Hk), list_elem_of_fmap.
    setoid_rewrite bool_decide_eq_true. setoid_rewrite list_elem_of_In. naive_solver.
Qed.
Lemma folders_links u e w w' :
  (∀ k x, folders (db w) !! k = Some x → f_uuid x = k) → Folder_delete_all_by_user (u_uuid u) e w = (Ok tt, w') →
  folders_ciphers (db w') = filter (λ l, folder_goes u (db w) l.2 = false) (folders_ciphers (db w)).
Proof.
  intros Hk H. unfold Folder_delete_all_by_user, Folder_find_by_user in H. ok_step H.
  apply (for_each_acts folders_ciphers (cut snd f_uuid) (λ _, True)) in H; [|intros x ? ? ? _ Hx; apply (Folder_delete_links _ _ _ _ Hx)|done..].
  rewrite H. by apply (links_drained f_uuid snd).
Qed.
Lemma members_links u e w w' :
  (∀ k x, users_organizations (db w) !! k = Some x → m_uuid x = k) →
  (∀ k x, users_collections (db w) !! k = Some x → (cu_user_uuid x, cu_collection_uuid x) = k) →
  Membership_delete_all_by_user (u_uuid u) e w = (Ok tt, w') →
  groups_users (db w') = filter (λ l, member_goes u (db w) l.2 = false) (groups_users (db w)) ∧
  users_collections (db w') = delete_where (access_goes u (db w)) (users_collections (db w)).
Proof.
  intros Hk Ha H. unfold Membership_delete_all_by_user, Membership_find_any_state_by_user, members in H. ok_step H. split.
  - apply (for_each_acts groups_users (cut snd m_uuid) (λ _, True)) in H; [|intros x ? ? ? _ Hx; apply (Membership_delete_links _ _ _ _ Hx)|done..].
    rewrite H. by apply (links_drained m_uuid snd).
  - apply (for_each_acts (λ d, (collections d, users_collections d)) (λ m t, (t.1, delete_where (access_of t.1 m) t.2))
      (λ t, ∀ k x, t.2 !! k = Some x → (cu_user_uuid x, cu_collection_uuid x) = k)) in H; [| | |exact Ha].
    + rewrite (pair_drained access_of) in H. injection H as _ H. exact H.
    + intros m ? ? ? Hx Hrun. simpl in *. destruct (Membership_delete_links _ _ _ _ Hrun) as (_ & -> & E). by rewrite E.
    + intros m t Hx k x. simpl. rewrite lookup_delete_where. destruct (t.2 !! k) eqn:E; [|done]. simpl. case_match; intros [= <-]. eauto.
Qed.
Lemma invitation_taken u e w b w' :
  Invitation_take (u_email u) e w = (Ok b, w') → invitations (db w') = invitations (db w) ∖ {[str_to_lowercase e (u_email u)]}.
Proof.
  unfold Invitation_take, Invitation_find_by_mail, Invitation_delete. intros H. ok_step H. ok_inv Hrun. case_bool_decide as Hi.
  - ok_step H. by injection H as _ <-.
  - injection H as _ <-. set_solver.
Qed.
Lemma unreferenced_Ok u e w w' :
  unreferenced u e w = (Ok tt, w') → w' = w ∧ ∀ k r, auth_requests (db w) !! k = Some r → ar_user_uuid r ≠ u.
Proof.
  unfold unreferenced, AuthRequest_find_by_user. intros H. ok_step H. apply ensure_Ok in H as [H%bool_decide_eq_true ->].
  split; [done|]. intros k r Hr Hu. cbv beta in H. apply (elem_of_nil r). rewrite <- H. apply elem_of_load.
  rewrite bool_decide_eq_true_2 by done. eauto.
Qed.
Lemma reads_owner_checks l : reads (for_each l check_not_last_owner).
Proof.
  induction l; simpl; unfold check_not_last_owner, Membership_count_confirmed_by_org_and_type; solve_reads.
Qed.
(** Follow table [T] back through the steps that leave it alone. *)
Ltac past F T := try rewrite (F _ T) by (intros; reflexivity).
Ltac back T F1 F2 F3 F4 F5 F6 F7 :=
  simpl; past F1 T; simpl; past F2 T; simpl; past F3 T; past F4 T; past F5 T; past F6 T; past F7 T.

(** The worlds a deletion passes through *)
Record deletion_runs (u : User) (e : Env) (w w1 w2 w3 w4 w5 w6 w7 w' : World) : Prop := {
  run_sends : Send_delete_all_by_user (u_uuid u) e w = (Ok tt, w1);
  run_emergency : EmergencyAccess_delete_all_by_user (u_uuid u) e w1 = (Ok tt, w2);
  run_invited : EmergencyAccess_delete_all_by_grantee_email (u_email u) e w2 = (Ok tt, w3);
  run_members : Membership_delete_all_by_user (u_uuid u) e w3 = (Ok tt, w4);
  run_ciphers : Cipher_delete_all_by_user (u_uuid u) e w4 = (Ok tt, w5);
  run_folders : Folder_delete_all_by_user (u_uuid u) e
    (w5 <| db := (db w5) <| favorites := filter (λ l, l.1 ≠ u_uuid u) (favorites (db w5)) |> |>) = (Ok tt, w6);
  run_invitation : ∃ b, Invitation_take (u_email u) e (w6 <| db := (db w6)
    <| devices := delete_where (λ r, bool_decide (d_user_uuid r = u_uuid u)) (devices (db w6)) |>
    <| twofactor := delete_where (λ r, bool_decide (tf_user_uuid r = u_uuid u)) (twofactor (db w6)) |>
    <| twofactor_incomplete := delete_where (λ r, bool_decide (ti_user_uuid r = u_uuid u)) (twofactor_incomplete (db w6)) |> |>) = (Ok b, w7);
  run_unreferenced : ∀ k r, auth_requests (db w7) !! k = Some r → ar_user_uuid r ≠ u_uuid u;
  run_end : db w' = (cascade_archives (λ k, k.1 = u_uuid u) (db w7)) <| users := delete (u_uuid u) (users (db w7)) |>
    <| sso_users := delete (u_uuid u) (sso_users (db w7)) |>;
}.
Lemma User_delete_runs u e w w' : User_delete u e w = (Ok tt, w') → ∃ w1 w2 w3 w4 w5 w6 w7, deletion_runs u e w w1 w2 w3 w4 w5 w6 w7 w'.
Proof.
  intros H. unfold User_delete, Favorite_delete_all_by_user, Device_delete_all_by_user, TwoFactor_delete_all_by_user,
    TwoFactorIncomplete_delete_all_by_user in H.
  ok_step H. assert (w0 = w) as -> by (by eapply reads_Ok; [|exact Hrun]; unfold Membership_find_confirmed_by_user, members; solve_reads).
  ok_step H. assert (w0 = w) as -> by (eapply reads_Ok; [apply reads_owner_checks|exact Hrun0]). clear Hrun Hrun0.
  do 5 (ok_step H; match goal with x : unit |- _ => destruct x end). ok_step H. ok_step H. do 3 ok_step H. ok_step H. ok_step H. destruct a7.
  apply unreferenced_Ok in Hrun6 as [-> Href]. ok_step H. destruct a2. exists w0, w1, w2, w3, w4, w5, w6. split; try done. by exists a6.
Qed.
Ltac frames u e R1 R2 R3 R4 R5 R6 R7 :=
  pose proof (λ X π Hu, sends_step u e _ _ (X := X) π Hu R1) as FS; pose proof (λ X π Hu, emergency_step u e _ _ (X := X) π Hu R2) as FE;
  pose proof (λ X π Hu, invited_step u e _ _ (X := X) π Hu R3) as FI; pose proof (λ X π Hu, members_step u e _ _ (X := X) π Hu R4) as FM;
  pose proof (λ X π Hu, ciphers_step u e _ _ (X := X) π Hu R5) as FC; pose proof (λ X π Hu, folders_step u e _ _ (X := X) π Hu R6) as FF;
  pose proof (λ X π, invitation_step u e _ _ (X := X) π _ R7) as FV.
(** What refers to the rows of the account *)
Lemma deletion_links u e w w1 w2 w3 w4 w5 w6 w7 w' :
  rows_keyed (db w) → deletion_runs u e w w1 w2 w3 w4 w5 w6 w7 w' →
  (groups_users (db w') = filter (λ l, member_goes u (db w) l.2 = false) (groups_users (db w)) ∧
   users_collections (db w') = delete_where (access_goes u (db w)) (users_collections (db w))) ∧
  attachments (db w') = delete_where (λ a, cipher_goes u (db w) (at_cipher_uuid a)) (attachments (db w)) ∧
  folders_ciphers (db w') = filter (λ l, cipher_goes u (db w) l.1 = false ∧ folder_goes u (db w) l.2 = false) (folders_ciphers (db w)) ∧
  ciphers_collections (db w') = filter (λ l, cipher_goes u (db w) l.1 = false) (ciphers_collections (db w)) ∧
  favorites (db w') = filter (λ l, l.1 ≠ u_uuid u ∧ cipher_goes u (db w) l.2 = false) (favorites (db w)) ∧
  archives (db w') = filter (λ ka, ka.1.1 ≠ u_uuid u ∧ cipher_goes u (db w) ka.1.2 = false) (archives (db w)).
Proof.
  intros [K1 K2 K3 K4 K5 K6 K7] [R1 R2 R3 R4 R5 R6 [b R7] Href E]. frames u e R1 R2 R3 R4 R5 R6 R7. rewrite E.
  assert (ciphers (db w4) = ciphers (db w)) as C4 by by back ciphers FV FF FC FM FI FE FS.
  assert (attachments (db w4) = attachments (db w)) as A4 by by back attachments FV FF FC FM FI FE FS.
  assert (folders (db w5) = folders (db w)) as F5 by by back folders FV FF FC FM FI FE FS.
  assert (users_organizations (db w3) = users_organizations (db w)) as M3 by by back users_organizations FV FF FC FM FI FE FS.
  assert (users_collections (db w3) = users_collections (db w)) as U3 by by back users_collections FV FF FC FM FI FE FS.
  assert (collections (db w3) = collections (db w)) as O3 by by back collections FV FF FC FM FI FE FS.
  destruct (ciphers_links u e w4 w5) as (L1 & L2 & L3 & L4 & L5); [by rewrite C4|by rewrite A4|done|].
  destruct (members_links u e w3 w4) as [L6 L7]; [by rewrite M3|by rewrite U3|done|].
  assert (L8 := R6). apply folders_links in L8; [|simpl; by rewrite F5].
  unfold cipher_goes, folder_goes, member_goes, access_goes in *. simpl in L8.
  rewrite C4 in L1, L2, L3, L4, L5. rewrite F5 in L8. rewrite M3 in L6, L7. rewrite O3 in L7. split_and!.
  - back groups_users FV FF FC FM FI FE FS. rewrite L6. by back groups_users FV FF FC FM FI FE FS.
  - back users_collections FV FF FC FM FI FE FS. by rewrite L7, U3.
  - back attachments FV FF FC FM FI FE FS. by rewrite L5, A4.
  - back folders_ciphers FV FF FC FM FI FE FS. rewrite L8, L1. back folders_ciphers FV FF FC FM FI FE FS.
    apply set_eq. intros l. rewrite !elem_of_filter. tauto.
  - back ciphers_collections FV FF FC FM FI FE FS. rewrite L2. by back ciphers_collections FV FF FC FM FI FE FS.
  - back favorites FV FF FC FM FI FE FS. rewrite L3. back favorites FV FF FC FM FI FE FS.
    apply set_eq. intros l. rewrite !elem_of_filter. tauto.
  - back archives FV FF FC FM FI FE FS. rewrite L4. back archives FV FF FC FM FI FE FS.
    apply map_eq. intros k. apply option_eq. intros z. rewrite !map_lookup_filter_Some. simpl. tauto.
Qed.
Lemma User_delete_Ok u e w w' :
  rows_keyed (db w) → User_delete u e w = (Ok tt, w') → account_deleted e u (db w) (db w').
Proof.
  intros Hkeyed H. pose proof (wp_run _ _ _ _ (aside_User_delete (λ k, k = u_uuid u) u eq_refl e w) _ _ H) as [_ _ Hothers].
  apply User_delete_runs in H as (w1 & w2 & w3 & w4 & w5 & w6 & w7 & R).
  pose proof (deletion_links _ _ _ _ _ _ _ _ _ _ _ Hkeyed R) as ([D1 D2] & D3 & D4 & D5 & D6 & D7).
  destruct R as [R1 R2 R3 R4 R5 R6 [b R7] Href E], Hkeyed as [K1 K2 K3 K4 K5 _ _]. frames u e R1 R2 R3 R4 R5 R6 R7.
  split; try done; rewrite ?E; clear D1 D2 D3 D4 D5 D6 D7.
  - simpl. apply lookup_delete_eq.
  - back sends FV FF FC FM FI FE FS. unfold Send_delete_all_by_user, Send_find_by_user in R1. ok_step R1.
    by apply (drained sends s_uuid _ Send_delete_Ok) in R1.
  - back emergency_access FV FF FC FM FI FE FS. rewrite <- (FS _ emergency_access) in K2 |- * by done.
    by eapply emergency_deleted.
  - back users_organizations FV FF FC FM FI FE FS. unfold Membership_delete_all_by_user, Membership_find_any_state_by_user, members in R4.
    ok_step R4. apply (drained users_organizations m_uuid _ Membership_delete_Ok) in R4 as ->;
      back users_organizations FV FF FC FM FI FE FS; done.
  - back ciphers FV FF FC FM FI FE FS. unfold Cipher_delete_all_by_user, Cipher_find_owned_by_user in R5.
    ok_step R5. apply (drained ciphers ci_uuid _ Cipher_delete_Ok) in R5 as ->; back ciphers FV FF FC FM FI FE FS; done.
  - back folders FV FF FC FM FI FE FS. unfold Folder_delete_all_by_user, Folder_find_by_user in R6.
    ok_step R6. apply (drained folders f_uuid _ Folder_delete_Ok) in R6 as ->; back folders FV FF FC FM FI FE FS; done.
  - by back devices FV FF FC FM FI FE FS.
  - by back twofactor FV FF FC FM FI FE FS.
  - by back twofactor_incomplete FV FF FC FM FI FE FS.
  - simpl. rewrite (invitation_taken _ _ _ _ _ R7). by back invitations FV FF FC FM FI FE FS.
  - by back sso_users FV FF FC FM FI FE FS.
  - assert (auth_requests (db w7) = auth_requests (db w)) as A by by back auth_requests FV FF FC FM FI FE FS.
    rewrite A in Href. by split.
  - etrans; [by apply (FV _ kept_tables)|]. etrans; [by apply (FF _ kept_tables)|]. etrans; [by apply (FC _ kept_tables)|].
    etrans; [by apply (FM _ kept_tables)|]. etrans; [by apply (FI _ kept_tables)|]. etrans; [by apply (FE _ kept_tables)|].
    by apply (FS _ kept_tables).
Qed.

Section deletion.
Context `{!Serde ProtectedActionData pa_stored}.

Lemma validate_twofactor_only data u e w w' :
  PasswordOrOtpData_validate data u true e w = (Ok tt, w') → db w' = (db w) <| twofactor := twofactor (db w') |>.
Proof.
  intros H. pose (π := λ d, d <| twofactor := twofactor (db w') |>).
  assert (∀ d x, π (d <| twofactor := x |>) = π d) as Hπ by done.
  assert (π (db w') = π (db w)) as E; [|unfold π in E; rewrite <- E; by destruct (db w')].
  eapply keeps_Ok; [|exact H]. clearbody π. unfold PasswordOrOtpData_validate, validate_protected_action_otp,
    ProtectedActionData_from_json, ProtectedActionData_time_since_sent, TwoFactor_delete, TwoFactor_save.
  destruct (po_master_password_hash data), (po_otp data); unfold User_check_valid_password, verify_password_hash; solve_keeps.
Qed.

(** C22: a session that deletes its account has given the password or a code that
    was mailed to it; and then exactly what belongs to the account is gone, in every
    table: the account with its link to an identity of single sign-on, its sends,
    devices, two-factor settings and invitation; its emergency contacts and the
    accesses others gave it; its memberships with their places in groups and its
    accesses to the collections of those organizations; its personal ciphers with
    their attachments, collections, places in folders, favourites and archive marks,
    whoever set them; its folders, favourites and archive marks.  Other accounts
    keep everything but the date of their last change, all other rows of these
    tables are as before, and so are all other tables; no request for an approval
    by device is for the account. *)
Theorem deletion_complete data s e w w' :
  rows_keyed (db w) → delete_account data s e w = (Ok tt, w') →
  ∃ w1, PasswordOrOtpData_validate data (sn_user s) true e w = (Ok tt, w1) ∧
    db w1 = (db w) <| twofactor := twofactor (db w1) |> ∧ account_deleted e (sn_user s) (db w1) (db w').
Proof.
  intros Hk H. unfold delete_account in H. ok_step H. destruct a. pose proof (validate_twofactor_only _ _ _ _ _ Hrun) as E.
  exists w0. split; [done|]. split; [done|]. apply User_delete_Ok; [|done]. rewrite E. destruct Hk. by split.
Qed.
End deletion.

(** ** Examples *)

Module ToyDeletion.
Import ToyEnv ToyUsers ToyTwoFactor ToyVault ToyRotation.

Definition with_password_given : PasswordOrOtpData := mkPasswordOrOtpData (Some "pw") None.
(** Alice's cipher has an attachment and sits in her folder; she may use a collection
    of her organization, and is in a group; Bob has rows of his own. *)
Definition alice_file : Attachment := mkAttachment "a1" "c2" "file" 1 None.
Definition alice_access : CollectionUser := mkCollectionUser "alice" "col" false false false.
Definition deletion_world (requests : gmap string AuthRequest) : World :=
  (rotation_world ∅) <| db := (rotation_db ∅) <| auth_requests := requests |>
    <| attachments := {["a1" := alice_file]} |> <| collections := {["col" := mkCollection "col" "org" "" None]} |>
    <| users_collections := {[("alice", "col") := alice_access]} |> <| groups_users := {[("g", "m1"); ("g", "m2")]} |>
    <| folders_ciphers := {[("c2", "f1"); ("c3", "f2")]} |> <| favorites := {[("alice", "c2"); ("bob", "c3")]} |> |>.
Lemma deletion_world_keyed requests : rows_keyed (db (deletion_world requests)).
Proof.
  split; intros k x H.
  - change (({[toy_id := toy_send 0]} : gmap string Send) !! k = Some x) in H. apply lookup_singleton_Some in H as [<- <-]. reflexivity.
  - change (({["ea" := (toy_grant 2 1) <| ea_uuid := "ea" |> <| ea_grantor_uuid := "alice" |>]} : gmap string _) !! k = Some x) in H.
    apply lookup_singleton_Some in H as [<- <-]. reflexivity.
  - change (({["m1" := mkMembership "m1" "alice" "org" None false "" 2 2 (Some "old") None]} : gmap string _) !! k = Some x) in H.
    apply lookup_singleton_Some in H as [<- <-]. reflexivity.
  - change (({["c2" := toy_cipher "c2" (Some "alice") None]} : gmap string _) !! k = Some x) in H.
    apply lookup_singleton_Some in H as [<- <-]. reflexivity.
  - change (({["f1" := mkFolder "f1" 0 0 "alice" "old"]} : gmap string _) !! k = Some x) in H.
    apply lookup_singleton_Some in H as [<- <-]. reflexivity.
  - change (({["a1" := alice_file]} : gmap string _) !! k = Some x) in H. apply lookup_singleton_Some in H as [<- <-]. reflexivity.
  - change (({[("alice", "col") := alice_access]} : gmap (string * string) _) !! k = Some x) in H.
    apply lookup_singleton_Some in H as [<- <-]. reflexivity.
Qed.
Lemma deletion_complete_witness :
  ∃ w1 w', delete_account with_password_given alice_session (toy_env 0) (deletion_world ∅) = (Ok tt, w') ∧
    account_deleted (toy_env 0) alice (db w1) (db w') ∧ attachments (db w') = ∅ ∧ users_collections (db w') = ∅ ∧
    groups_users (db w') = {[("g", "m2")]} ∧ folders_ciphers (db w') = {[("c3", "f2")]} ∧ favorites (db w') = {[("bob", "c3")]}.
Proof.
  destruct (delete_account with_password_given alice_session (toy_env 0) (deletion_world ∅)) as [r w'] eqn:Hr.
  assert (r = Ok tt) as -> by (apply (f_equal fst) in Hr; vm_compute in Hr; by symmetry).
  destruct (deletion_complete with_password_given alice_session (toy_env 0) (deletion_world ∅) w'
    (deletion_world_keyed ∅) Hr) as (w1 & _ & _ & H).
  exists w1, w'. split; [reflexivity|]. split; [exact H|]. apply (f_equal snd) in Hr. simpl in Hr. subst w'.
  split_and!; vm_compute; reflexivity.
Defined.

(** Alice's phone has asked her tablet to approve a login. *)
Definition open_request : AuthRequest :=
  mkAuthRequest "r1" "alice" None "d2" 0 "ip" None "code" "public" None None None 0 None None.
(** An account that has a request to log in with a device cannot be deleted:
    the last statement fails, since the request refers to the account.  By then
    its ciphers, folders, sends, memberships, emergency contacts and devices are
    deleted. *)
Theorem deletion_fails_late :
  ∃ w', delete_account with_password_given alice_session (toy_env 0) (deletion_world {["r1" := open_request]})
          = (Err (new_msg "Error deleting user"), w') ∧
    is_Some (users (db w') !! "alice") ∧
    (ciphers (db w'), folders (db w'), sends (db w'), users_organizations (db w'), emergency_access (db w')) = (∅, ∅, ∅, ∅, ∅) ∧
    devices (db w') = ∅.
Proof.
  eexists. split; [vm_compute; reflexivity|]. split; [by eexists|]. split; vm_compute; reflexivity.
Qed.
End ToyDeletion.
