(* ===== verification/Directory.v ===== *)
(** * Directory synchronization

    The public interface of [server/src/api/core/public.rs]: a directory
    connector, which holds the API key of an organization, brings the members and
    groups of the organization in line with the directory.  The theorems are in
    [ServerSafety]. *)

From stdpp Require Import base strings numbers pretty gmap list.
From S2P Require Import Prelude Store JsonUtil Queries Users Orgs AuthRequests TwoFactor Sends Collections Signups Folders.
From S2P Require Import Login Sessions Ciphers Vault EmergencyAccess Profiles Members.

Record OrgImportGroupData := mkOrgImportGroupData {
  ig_name : string; ig_external_id : string; ig_member_external_ids : list string }.
Record OrgImportUserData := mkOrgImportUserData { iu_email : string; iu_external_id : string; iu_deleted : bool }.
Record DirectoryData := mkDirectoryData {
  dd_groups : list OrgImportGroupData; dd_members : list OrgImportUserData; dd_overwrite_existing : bool }.

(** ** Members *)

(** A member the directory has, or had: whether the row must be saved. *)
Definition store_if (changed : bool) (member : Membership) : M unit :=
  if changed then Membership_save member else mret tt.
Definition revoke_listed (org_id : string) (user_data : OrgImportUserData) (member : Membership) : M unit :=
  let* (member, revoked) :=
    (if is_confirmed_owner member then
       let* n := Membership_count_confirmed_by_org_and_type org_id MT_Owner in
       if n <=? 1 then mret (member, false) else mret (Membership_revoke member)
     else mret (Membership_revoke member)) in
  let (member, ext_modified) := Membership_set_external_id member (Some (iu_external_id user_data)) in
  store_if (revoked || ext_modified) member.
Definition restore_listed (user_data : OrgImportUserData) (member : Membership) : M unit :=
  let (member, restored) := Membership_restore member in
  let (member, ext_modified) := Membership_set_external_id member (Some (iu_external_id user_data)) in
  store_if (restored || ext_modified) member.

(** The account behind an address, and whether it is new. *)
Definition listed_user (email : string) : M (User * bool) :=
  let* found := User_find_by_mail email in
  match found with
  | Some user => mret (user, false)
  | None =>
     let* new_user := User_new email None in
     let* new_user := User_save new_user in
     let* mail := conf mail_enabled in
     do* (if mail then mret tt else let* invitation := Invitation_new (u_email new_user) in Invitation_save invitation) in
     mret (new_user, true)
  end.
(** A mail that fails takes back the membership, or the account that was
    created for it. *)
Definition mail_listed (user : User) (user_created : bool) (org : Organization) (new_member : Membership) : M unit :=
  let* mail := conf mail_enabled in
  if mail then
    let* failed := outcome (send_mail (MailOrgInvite (u_email user) (u_uuid user) (m_org_uuid new_member) (m_uuid new_member)
                                         (o_name org) (Some (o_billing_email org)))) in
    match failed with
    | Some e =>
       do* (if user_created then User_delete user else Membership_delete new_member) in
       err ("Error sending invite: " +:+ e_message e +:+ " ")
    | None => mret tt
    end
  else mret tt.
Definition invite_listed (org_id : string) (user_data : OrgImportUserData) : M unit :=
  let* (user, user_created) := listed_user (iu_email user_data) in
  let* mail := conf mail_enabled in
  let member_status := if mail || bool_decide (u_password_hash user = []) then MS_Invited else MS_Accepted in
  let* found := Organization_find_by_uuid org_id in
  let* org := some_or_err found "Error looking up organization" in
  let* new_member := Membership_new (u_uuid user) org_id (Some (o_billing_email org)) in
  let new_member := (Membership_set_external_id new_member (Some (iu_external_id user_data))).1 in
  let new_member := new_member <| m_access_all := false |> <| m_atype := MembershipType_to_i32 MT_User |>
                               <| m_status := MembershipStatus_to_i32 member_status |> in
  do* Membership_save new_member in
  mail_listed user user_created org new_member.
Definition import_member (org_id : string) (user_data : OrgImportUserData) : M unit :=
  let* found := Membership_find_by_email_and_org (iu_email user_data) org_id in
  match found with
  | Some member => if iu_deleted user_data then revoke_listed org_id user_data member else restore_listed user_data member
  | None => if iu_deleted user_data then mret tt else invite_listed org_id user_data
  end.

(** ** Groups, and members that are not listed *)

Definition import_group (org_id : string) (group_data : OrgImportGroupData) : M unit :=
  let* found := Group_find_by_external_id_and_org (ig_external_id group_data) org_id in
  let* group_uuid :=
    match found with
    | Some group => mret (g_uuid group)
    | None =>
       let* group := Group_new org_id (ig_name group_data) false (Some (ig_external_id group_data)) in
       let* group := Group_save group in
       mret (g_uuid group)
    end in
  do* GroupUser_delete_all_by_group group_uuid org_id in
  for_each (ig_member_external_ids group_data) (λ ext_id,
    let* found := Membership_find_by_external_id_and_org ext_id org_id in
    match found with
    | Some member => GroupUser_save (group_uuid, m_uuid member)
    | None => mret tt
    end).
Definition remove_unlisted (org_id : string) (sync_members : list string) (member : Membership) : M unit :=
  match m_external_id member with
  | Some user_external_id =>
     if bool_decide (user_external_id ∈ sync_members) then mret tt
     else
       let* keep :=
         (if is_confirmed_owner member then
            let* n := Membership_count_confirmed_by_org_and_type org_id MT_Owner in mret (n <=? 1)
          else mret false) in
       if keep then mret tt else Membership_delete member
  | None => mret tt
  end.

Definition ldap_import (data : DirectoryData) (org_id : string) : M unit :=
  do* for_each (dd_members data) (import_member org_id) in
  let* enabled := conf org_groups_enabled in
  do* (if enabled then for_each (dd_groups data) (import_group org_id) else mret tt) in
  if dd_overwrite_existing data then
    let sync_members := iu_external_id <$> dd_members data in
    let* l := Membership_find_by_org org_id in
    for_each l (remove_unlisted org_id sync_members)
  else mret tt.

(** ** The request guard *)

Section public_token.
(** The token library checks the signature, the issuer and the dates. *)
Context (decode_api_org : Z → string → option OrgApiKeyLoginJwtClaims).

Definition PublicToken_from_request (rq : Request) : M string :=
  let* a := some_or_401 (rq_authorization rq) "No access token provided" in
  let access_token := rsplit_next "Bearer " a in
  let* t := ask now in
  let* claims := some_or_401 (decode_api_org t access_token) "Invalid claim" in
  do* (if (timestamp t <? ok_nbf claims)%Z then err_handler "Token issued in the future" else mret tt) in
  do* (if (ok_exp claims <? timestamp t)%Z then err_handler "Token expired" else mret tt) in
  let* origin := conf domain_origin in
  let* scope := mexpect (ok_scope claims !! 0) in
  do* (if bool_decide (origin +:+ "|" +:+ scope = ok_iss claims) then mret tt
       else err_handler "Token not issued by this server") in
  let* org_id := some_or_401 (strip_prefix organization_key_prefix (ok_client_id claims)) "Malformed client_id" in
  let* found := OrganizationApiKey_find_by_org_uuid org_id in
  let* org_api_key := some_or_401 found "Invalid client_id" in
  do* (if bool_decide (oak_org_uuid org_api_key = ok_client_sub claims) then mret tt
       else err_handler "Token not issued for this org") in
  do* (if bool_decide (oak_uuid org_api_key = ok_sub claims) then mret tt
       else err_handler "Token not issued for this client") in
  mret (ok_client_sub claims).
Definition serve_directory (data : DirectoryData) (rq : Request) : M unit :=
  let* org_id := PublicToken_from_request rq in
  ldap_import data org_id.
End public_token.
