(* ===== verification/Admin.v ===== *)
(** * The administrator's page

    The endpoints of [server/src/api/admin.rs] that change accounts, memberships
    and organizations, with the login and the request guard.  Not modelled:
    pages, diagnostics, settings and
    backups.  The theorems are in [ServerSafety]. *)

From stdpp Require Import base strings numbers pretty gmap list.
From S2P Require Import Prelude Store JsonUtil Queries Users Orgs AuthRequests TwoFactor Sends Collections Signups Folders.
From S2P Require Import Login Sessions Ciphers Vault EmergencyAccess Profiles Members Accounts DeviceApproval.

Definition ACTING_ADMIN_USER : string := "vaultwarden-admin-00000-000000000000".
Definition OrganizationUserDeleted : Z := 1515.

Record MembershipTypeData := mkMembershipTypeData {
  mt_user_type : NumberOrString; mt_user_uuid : string; mt_org_uuid : string }.
(** [AdminResponse], less the pages *)
Inductive AdminResponse := AdminPage | AdminRedirect (path : string) | AdminUnauthorized (msg : string) | AdminTooManyRequests.

(** [with_code] on a result *)
Definition with_code {A} (m : M A) (code : Z) : M A := λ e w,
  match m e w with (Err x, w) => (Err (mkError (e_message x) code (e_event x) (e_json x)), w) | rw => rw end.

Section admin.
Context `{!Serde ProtectedActionData pa_stored, !Serde EmailTokenData id}.
(** The token library on the cookie: its value, and whether it is valid. *)
Context (encode_admin : Z → option string) (decode_admin : Z → string → bool).
(** [argon2]: whether the password matches the hash, when that is well-formed. *)
Context (argon2_verify : string → string → option bool).
(** The rate limiter *)
Context (admin_allowed : Z → string → bool).
(** Whether the push relay answers *)
Context (push_relay_reachable : bool).

(** ** Login and guard *)

Definition validate_token (token : string) : M bool :=
  let* t := conf admin_token in
  match t with
  | None => mret false
  | Some t =>
     if String.prefix "$argon2" t then mret (default false (argon2_verify t (string_trim token)))
     else mret (ct_eq (string_trim t) (string_trim token))
  end.
(** The answer, and the cookie that goes with it. *)
Definition post_admin_login (token : string) (redirect : option string) (ip : string) : M (AdminResponse * option string) :=
  let* t := ask now in
  if negb (admin_allowed t ip) then mret (AdminTooManyRequests, None)
  else
    let* valid := validate_token token in
    if valid then
      match encode_admin t with
      | Some jwt => mret (match redirect with Some path => AdminRedirect path | None => AdminPage end, Some jwt)
      | None => mret (AdminUnauthorized "JWT encoding error", None)
      end
    else mret (AdminUnauthorized "Invalid admin token, please try again.", None).
(** A request for the page itself is passed on to the login page instead. *)
Definition AdminToken_from_request (cookie : option string) (ip : string) : M string :=
  let* disabled := conf disable_admin_token in
  if disabled then mret ip
  else match cookie with
       | None => err_code "Unauthorized" 401
       | Some access_token =>
          let* t := ask now in
          if decode_admin t access_token then mret ip else err_code "Session expired" 401
       end.

(** ** Accounts *)

Definition get_user_or_404 (user_id : string) : M User :=
  let* found := User_find_by_uuid user_id in
  match found with Some user => mret user | None => err_code "User doesn't exist" 404 end.
Definition admin_invite_mail (user : User) : M unit :=
  let* sso := conf sso_enabled in
  let* name := conf invitation_org_name in
  let org_id := if sso then FAKE_SSO_IDENTIFIER else FAKE_ADMIN_UUID in
  send_mail (MailOrgInvite (u_email user) (u_uuid user) org_id FAKE_ADMIN_UUID name None).
Definition generate_invite (user : User) : M unit :=
  let* mail := conf mail_enabled in
  if mail then admin_invite_mail user
  else let* invitation := Invitation_new (u_email user) in Invitation_save invitation.
Definition invite_user (email : string) : M Json :=
  let* found := User_find_by_mail email in
  do* (if is_not_null found then err_code "User already exists" 409 else mret tt) in
  let* user := User_new email None in
  do* with_code (generate_invite user) 500 in
  let* user := with_code (User_save user) 500 in
  User_to_json user.
Definition test_smtp (email : string) : M unit :=
  let* mail := conf mail_enabled in
  if mail then send_mail (MailTest email) else err "Mail is not enabled".

(** A failure is reported after the log is written. *)
Definition delete_user (user_id ip : string) : M unit :=
  let* user := get_user_or_404 user_id in
  let* memberships := Membership_find_any_state_by_user user_id in
  let* res := outcome (User_delete user) in
  do* for_each memberships (λ membership,
        log_event OrganizationUserDeleted (m_uuid membership) (m_org_uuid membership) ACTING_ADMIN_USER UnknownBrowser_i32 ip) in
  match res with Some e => mfail e | None => mret tt end.
Definition OrganizationUserUnlinkedSso : Z := 1505.
Definition delete_sso_user (user_id ip : string) : M unit :=
  let* memberships := Membership_find_any_state_by_user user_id in
  let* res := outcome (SsoUser_delete user_id) in
  do* for_each memberships (λ membership,
        log_event OrganizationUserUnlinkedSso (m_uuid membership) (m_org_uuid membership) ACTING_ADMIN_USER UnknownBrowser_i32 ip) in
  match res with Some e => mfail e | None => mret tt end.
Definition deauth_user (user_id : string) : M unit :=
  let* user := get_user_or_404 user_id in
  let* push := conf push_enabled in
  do* (if push then
         let* l := Device_find_push_devices_by_user (u_uuid user) in
         for_each l (λ device, mignore (unregister_push_device push_relay_reachable (d_push_uuid device)))
       else mret tt) in
  do* Device_delete_all_by_user (u_uuid user) in
  let* user := User_reset_security_stamp user in
  mdrop (User_save user).
(** The devices go even when the account could not be saved. *)
Definition disable_user (user_id : string) : M unit :=
  let* user := get_user_or_404 user_id in
  let* user := User_reset_security_stamp user in
  let* save_result := outcome (mdrop (User_save (user <| u_enabled := false |>))) in
  do* Device_delete_all_by_user (u_uuid user) in
  match save_result with Some e => mfail e | None => mret tt end.
Definition enable_user (user_id : string) : M unit :=
  let* user := get_user_or_404 user_id in
  mdrop (User_save (user <| u_enabled := true |>)).
Definition remove_2fa (user_id ip : string) : M unit :=
  let* user := get_user_or_404 user_id in
  do* TwoFactor_delete_all_by_user (u_uuid user) in
  do* enforce_2fa_policy user ACTING_ADMIN_USER UnknownBrowser_i32 ip in
  mdrop (User_save (user <| u_totp_recover := None |>)).
Definition resend_user_invite (user_id : string) : M unit :=
  let* found := User_find_by_uuid user_id in
  match found with
  | Some user =>
     do* (if bool_decide (u_password_hash user = []) then mret tt else err_code "User already accepted invitation" 400) in
     let* mail := conf mail_enabled in
     if mail then admin_invite_mail user else mret tt
  | None => err_code "User doesn't exist" 404
  end.

(** ** Memberships and organizations *)

Definition update_membership_type (data : MembershipTypeData) (ip : string) : M unit :=
  let* found := Membership_find_by_user_and_org (mt_user_uuid data) (mt_org_uuid data) in
  let* member_to_edit := some_or_err found "The specified user isn't member of the organization" in
  let* new_type := some_or_err (MembershipType_from_str (NumberOrString_into_string (mt_user_type data))) "Invalid type" in
  do* (if Membership_has_type member_to_edit MT_Owner && negb (bool_decide (new_type = MT_Owner)) then
         other_owner_left (mt_org_uuid data) "Can't change the type of the last owner"
       else mret tt) in
  let member_to_edit := member_to_edit <| m_atype := MembershipType_to_i32 new_type |> in
  do* OrgPolicy_check_user_allowed member_to_edit "modify" in
  do* log_event OrganizationUserUpdated (m_uuid member_to_edit) (mt_org_uuid data) ACTING_ADMIN_USER UnknownBrowser_i32 ip in
  Membership_save member_to_edit.
Definition update_revision_users : M unit := User_update_all_revisions.
Definition admin_delete_organization (org_id : string) : M unit :=
  let* found := Organization_find_by_uuid org_id in
  let* org := some_or_err found "Organization doesn't exist" in
  Organization_delete org.

(** ** Requests *)

Inductive AdminCall :=
  | InviteUser (email : string)
  | DeleteUser (user_id : string)
  | DeleteSsoUser (user_id : string)
  | DeauthUser (user_id : string)
  | DisableUser (user_id : string)
  | EnableUser (user_id : string)
  | Remove2fa (user_id : string)
  | ResendUserInvite (user_id : string)
  | UpdateMembershipType (data : MembershipTypeData)
  | UpdateRevisionUsers
  | AdminDeleteOrganization (org_id : string).
Definition run_admin_call (c : AdminCall) (ip : string) : M unit :=
  match c with
  | InviteUser email => mdrop (invite_user email)
  | DeleteUser id => delete_user id ip
  | DeleteSsoUser id => delete_sso_user id ip
  | DeauthUser id => deauth_user id
  | DisableUser id => disable_user id
  | EnableUser id => enable_user id
  | Remove2fa id => remove_2fa id ip
  | ResendUserInvite id => resend_user_invite id
  | UpdateMembershipType data => update_membership_type data ip
  | UpdateRevisionUsers => update_revision_users
  | AdminDeleteOrganization org_id => admin_delete_organization org_id
  end.
Definition serve_admin (c : AdminCall) (cookie : option string) (ip : string) : M unit :=
  let* ip := AdminToken_from_request cookie ip in run_admin_call c ip.
End admin.
