(* ===== verification/ServerSafety.v ===== *)
(** * Directory synchronization and administration: safety

    What a directory connector and the administrator may do to memberships; with
    the requests of members, any sequence of which leaves every organization with
    an owner.  And what disabling an account does. *)

From stdpp Require Import base strings numbers pretty gmap list relations.
From S2P Require Import Prelude Store JsonUtil Queries Users Orgs AuthRequests TwoFactor Sends Collections Signups Folders.
From S2P Require Import TotpReplay OneTimeCodes Login LoginSafety Sessions SessionSafety Ciphers Vault EmergencyAccess Profiles Members.
From S2P Require Import OrgCollections MemberProtocol MemberSafety OrgRequests OrgSafety Accounts DeviceApproval AccountFrames Directory Admin.

(** ** Runs that respect a relation on memberships *)

Section proceeding.
Context (R : relation Members) `{!PreOrder R} (e : Env).

Record proceeded (w w' : World) : Prop := {
  pr_rel : R (members_of w) (members_of w');
  pr_order : in_order e w';
  pr_tick : tick w ≤ tick w';
}.
Definition proceeds {A} (m : M A) : Prop := ∀ w, in_order e w → wp m e w (λ _ w', proceeded w w').

Lemma proceeded_refl w : in_order e w → proceeded w w.
Proof. by split. Qed.
Lemma proceeded_calm w w' : in_order e w → calm_rel w w' → proceeded w w'.
Proof. intros Hw Hc. split; [by rewrite (calm_members _ _ Hc)|by eapply in_order_calm|apply Hc]. Qed.
Lemma proceeded_trans w w1 w2 : proceeded w w1 → proceeded w1 w2 → proceeded w w2.
Proof. intros [H1 _ ?] [H2 Hw ?]. split; [by etrans|done|lia]. Qed.
Lemma proceeds_calm {A} (m : M A) : calm m → proceeds m.
Proof. intros Hm w Hw. eapply wp_mono; [apply Hm|]. intros r w' Hc. by apply proceeded_calm. Qed.
Lemma proceeds_bind {A B} (m : M A) (k : A → M B) : proceeds m → (∀ x, proceeds (k x)) → proceeds (mbind m k).
Proof.
  intros Hm Hk w Hw. apply wp_bind. eapply wp_mono; [by apply Hm|]. intros [x|x|] w1 H1; simpl; try done.
  eapply wp_mono; [by apply Hk, H1|]. intros r w2 H2. by eapply proceeded_trans.
Qed.
Lemma proceeds_for_each {A} (l : list A) f : (∀ x, proceeds (f x)) → proceeds (for_each l f).
Proof. intros Hf. induction l; simpl; [apply proceeds_calm, within_mret|]. by apply proceeds_bind. Qed.
(** A calm step of a longer run *)
Lemma wp_proceed {A B} (m : M A) (k : A → M B) w0 w :
  calm m → in_order e w → proceeded w0 w →
  (∀ x w', m e w = (Ok x, w') → calm_rel w w' → in_order e w' → proceeded w0 w' → wp (k x) e w' (λ _ w2, proceeded w0 w2)) →
  wp (mbind m k) e w (λ _ w', proceeded w0 w').
Proof.
  intros Hm Hw H0 Hk. apply wp_bind, wp_intro. intros r w1 Hrun. pose proof (wp_run _ _ _ _ (Hm e w) _ _ Hrun) as Hc.
  assert (in_order e w1) as Hw1 by (by eapply in_order_calm).
  assert (proceeded w0 w1) as H1 by (eapply proceeded_trans; [done|by apply proceeded_calm]).
  destruct r; simpl; [by apply Hk|done..].
Qed.
(** One row changes, or goes. *)
Lemma proceeded_row k m m' w :
  in_order e w → members_of w !! k = Some m → same_row m m' → known_type m' → Membership_stored m' →
  R (members_of w) (<[k := m']> (members_of w)) → wp (Membership_save m') e w (λ _ w', proceeded w w').
Proof.
  intros [Hwf Hf Hkey] Hk Hr Ht Hs HR. apply wp_Membership_save. intros w' Hm Htk Hu.
  assert (m_uuid m' = k) as Hid by (destruct Hr as [-> _]; by eapply wf_keyed).
  rewrite Hid in Hm. split; [by rewrite Hm| |lia]. split.
  - rewrite Hm. by eapply wf_update.
  - eapply fresh_mono; [done|lia|done|]. rewrite Hm. by eapply rows_from_insert.
  - by apply Hu.
Qed.
Lemma proceeded_gone k m w :
  in_order e w → members_of w !! k = Some m → R (members_of w) (delete k (members_of w)) →
  wp (Membership_delete m) e w (λ _ w', proceeded w w').
Proof.
  intros [Hwf Hf Hkey] Hk HR. apply wp_Membership_delete. intros w' Hm Ht Hu.
  rewrite (wf_keyed _ Hwf _ _ Hk) in Hm. split; [by rewrite Hm| |done]. split.
  - rewrite Hm. eapply wf_subset; [done|]. apply delete_subseteq.
  - eapply fresh_mono; [done..|]. rewrite Hm. apply rows_from_subset, delete_subseteq.
  - by apply Hu.
Qed.
End proceeding.

(** ** Directory synchronization *)

(** The row keeps its role, and its state but for a revocation. *)
Definition same_standing (m m' : Membership) : Prop :=
  same_row m m' ∧ m_atype m' = m_atype m ∧ m_access_all m' = m_access_all m ∧
  Membership_get_unrevoked_status m' = Membership_get_unrevoked_status m ∧
  m_akey m' = m_akey m ∧ m_reset_password_key m' = m_reset_password_key m ∧ m_invited_by_email m' = m_invited_by_email m.
(** The directory lists the identifier. *)
Definition listed (data : DirectoryData) (x : string) : Prop := x ∈ iu_external_id <$> dd_members data.
(** The row keeps the identifier it has in the directory, or has got a listed one. *)
Definition same_listing (data : DirectoryData) (m m' : Membership) : Prop :=
  m_external_id m' = m_external_id m ∨ ∀ x, m_external_id m' = Some x → listed data x.
(** The synchronization is to overwrite, and the row is one of the directory's
    that it does not list any more. *)
Definition overwritten (data : DirectoryData) (m : Membership) : Prop :=
  dd_overwrite_existing data = true ∧ ∃ x, m_external_id m = Some x ∧ ¬ listed data x.
(** A plain member who is not confirmed *)
Definition plain_newcomer (o : string) (m : Membership) : Prop :=
  m_org_uuid m = o ∧ has_role m MT_User ∧ m_access_all m = false ∧
  (Membership_get_unrevoked_status m = MembershipStatus_to_i32 MS_Invited ∨
   Membership_get_unrevoked_status m = MembershipStatus_to_i32 MS_Accepted).
(** What a synchronization of organization [o] may do to the memberships *)
Record synchronized (data : DirectoryData) (o : string) (T T' : Members) : Prop := {
  sy_owner : ∀ x, has_owner T x → has_owner T' x;
  sy_foreign : ∀ k m, m_org_uuid m ≠ o → T !! k = Some m ↔ T' !! k = Some m;
  sy_rows : ∀ k m', T' !! k = Some m' → (∃ m, T !! k = Some m ∧ same_standing m m') ∨ plain_newcomer o m';
  sy_kept : ∀ k m, T !! k = Some m →
    (∃ m', T' !! k = Some m' ∧ same_standing m m' ∧ same_listing data m m') ∨ overwritten data m;
}.
Lemma same_standing_refl m : same_standing m m.
Proof. by repeat split. Qed.
Lemma same_standing_trans m1 m2 m3 : same_standing m1 m2 → same_standing m2 m3 → same_standing m1 m3.
Proof. intros ((?&?&?)&?&?&?&?&?&?) ((?&?&?)&?&?&?&?&?&?). repeat split; congruence. Qed.
Lemma same_listing_refl data m : same_listing data m m.
Proof. by left. Qed.
Lemma same_listing_trans data m1 m2 m3 : same_listing data m1 m2 → same_listing data m2 m3 → same_listing data m1 m3.
Proof. intros [E1|H1] [E2|H2]; [left; congruence|by right|right; intros x; rewrite E2; apply H1|by right]. Qed.
Lemma overwritten_before data m m' : same_listing data m m' → overwritten data m' → overwritten data m.
Proof. intros [E|H] (Ho & x & Hx & Hn); [|by destruct (Hn (H x Hx))]. split; [done|]. exists x. by rewrite <- E. Qed.
Lemma newcomer_standing o m m' : plain_newcomer o m → same_standing m m' → plain_newcomer o m'.
Proof. intros (?&?&?&Hs) ((?&?&?)&?&?&E&_). unfold plain_newcomer, has_role in *. rewrite E. split_and!; [congruence..|done]. Qed.
#[export] Instance synchronized_preorder data o : PreOrder (synchronized data o).
Proof.
  split.
  - intros T. split; [done..| |]; intros k m Hk; left; exists m.
    + split; [done|apply same_standing_refl].
    + split_and!; [done|apply same_standing_refl|apply same_listing_refl].
  - intros T1 T2 T3 [O1 F1 R1 K1] [O2 F2 R2 K2]. split; [auto| | |].
    + intros k m Hm. by rewrite F1, F2.
    + intros k m' Hk. destruct (R2 _ _ Hk) as [(m & Hm & Hs)|]; [|by right].
      destruct (R1 _ _ Hm) as [(m0 & Hm0 & Hs0)|Hn]; [left|right; by eapply newcomer_standing].
      exists m0. split; [done|by eapply same_standing_trans].
    + intros k m Hk. destruct (K1 _ _ Hk) as [(m1 & Hm1 & Hs1 & Hl1)|]; [|by right].
      destruct (K2 _ _ Hm1) as [(m2 & Hm2 & Hs2 & Hl2)|]; [left; exists m2|right; by eapply overwritten_before].
      split_and!; [done|by eapply same_standing_trans|by eapply same_listing_trans].
Qed.
(** A row that is as it was *)
Lemma kept_as_is data (T : Members) k m :
  T !! k = Some m → (∃ m', T !! k = Some m' ∧ same_standing m m' ∧ same_listing data m m') ∨ overwritten data m.
Proof. intros Hk. left. exists m. split_and!; [done|apply same_standing_refl|apply same_listing_refl]. Qed.

Lemma synchronized_update data o T k m m' :
  T !! k = Some m → m_org_uuid m = o → same_standing m m' → same_listing data m m' →
  (is_confirmed_owner m = true → is_confirmed_owner m' = false → other_owner T o k) → synchronized data o T (<[k := m']> T).
Proof.
  intros Hk Ho Hs Hl Hlast. pose proof Hs as ((_ & _ & Horg) & _). split.
  - intros x. eapply owner_insert; [done..|]. by rewrite Ho.
  - intros k' x Hx. destruct (decide (k = k')) as [<-|Hne]; [|by rewrite lookup_insert_ne].
    rewrite lookup_insert_eq. split; intros E; simplify_eq; congruence.
  - intros k' x [[<- <-]|[_ Hx]]%lookup_insert_Some; left; [by exists m|]. exists x. split; [done|apply same_standing_refl].
  - intros k' x Hx. destruct (decide (k = k')) as [<-|Hne]; [|rewrite lookup_insert_ne by done; by apply kept_as_is].
    left. exists m'. rewrite lookup_insert_eq. by simplify_eq.
Qed.
Lemma synchronized_delete data o T k m :
  T !! k = Some m → m_org_uuid m = o → (is_confirmed_owner m = true → other_owner T o k) → overwritten data m →
  synchronized data o T (delete k T).
Proof.
  intros Hk Ho Hlast Hover. split.
  - intros x. eapply owner_delete; [done|]. by rewrite Ho.
  - intros k' x Hx. rewrite lookup_delete_Some. split; [|naive_solver]. intros E. split; [|done]. intros <-. congruence.
  - intros k' x [_ Hx]%lookup_delete_Some. left. exists x. split; [done|apply same_standing_refl].
  - intros k' x Hx. destruct (decide (k = k')) as [<-|Hne]; [right; by simplify_eq|]. rewrite lookup_delete_ne by done. by apply kept_as_is.
Qed.
Lemma synchronized_new data o T m :
  T !! m_uuid m = None → plain_newcomer o m → synchronized data o T (<[m_uuid m := m]> T).
Proof.
  intros Hk Hn. split.
  - intros x (k & m' & Hm & ?). exists k, m'. rewrite lookup_insert_ne by congruence. done.
  - intros k x Hx. rewrite lookup_insert_Some. destruct Hn as [Ho _]. split; [intros E; right; split; congruence|].
    intros [[_ <-]|[_ ?]]; done.
  - intros k x [[<- <-]|[_ Hx]]%lookup_insert_Some; [by right|]. left. exists x. split; [done|apply same_standing_refl].
  - intros k x Hx. rewrite lookup_insert_ne by congruence. by apply kept_as_is.
Qed.

(** *** The rows *)

Lemma unrevoked_revoke m : Membership_stored m → Membership_get_unrevoked_status (Membership_revoke m).1 = Membership_get_unrevoked_status m.
Proof.
  rewrite stored_spec. unfold Membership_revoke, Membership_get_unrevoked_status. destruct m as [? ? ? ? ? ? st ? ? ?]; simpl.
  rewrite !elem_of_cons, elem_of_nil. intros [->|[->|[->|[->|[->|[->|[]]]]]]]; done.
Qed.
Lemma unrevoked_restore m : Membership_stored m → Membership_get_unrevoked_status (Membership_restore m).1 = Membership_get_unrevoked_status m.
Proof.
  rewrite stored_spec. unfold Membership_restore, Membership_get_unrevoked_status. destruct m as [? ? ? ? ? ? st ? ? ?]; simpl.
  rewrite !elem_of_cons, elem_of_nil. intros [->|[->|[->|[->|[->|[->|[]]]]]]]; done.
Qed.
Lemma access_revoke m : m_access_all (Membership_revoke m).1 = m_access_all m.
Proof. unfold Membership_revoke. by case_match. Qed.
Lemma access_restore m : m_access_all (Membership_restore m).1 = m_access_all m.
Proof. unfold Membership_restore. by case_match. Qed.
Lemma standing_revoke m : Membership_stored m → same_standing m (Membership_revoke m).1.
Proof.
  intros Hs. split; [apply same_row_revoke|]. rewrite revoke_type, access_revoke, unrevoked_revoke by done.
  unfold Membership_revoke. by case_match.
Qed.
Lemma standing_restore m : Membership_stored m → same_standing m (Membership_restore m).1.
Proof.
  intros Hs. split; [apply same_row_restore|]. rewrite restore_type, access_restore, unrevoked_restore by done.
  unfold Membership_restore. by case_match.
Qed.

(** The identifier of the directory is all that changes. *)
Lemma set_external_id_fields m x :
  ∃ y, (Membership_set_external_id m x).1 = m <| m_external_id := y |> ∧ (y = m_external_id m ∨ ∀ z, y = Some z → x = Some z).
Proof.
  unfold Membership_set_external_id. case_bool_decide; [exists (m_external_id m); split; [by destruct m|by left]|].
  eexists. split; [done|]. right. intros z. destruct x as [x|]; [|done]. by case_bool_decide.
Qed.
Lemma external_owner m y : is_confirmed_owner (m <| m_external_id := y |>) = is_confirmed_owner m.
Proof. by destruct m. Qed.

(** *** Accounts *)

(** An account is saved, of an identifier that will not be drawn. *)
Record user_saved (u : User) (w w' : World) : Prop := {
  us_members : members_of w' = members_of w;
  us_orgs : organizations (db w') = organizations (db w);
  us_users : ∃ u', u_uuid u' = u_uuid u ∧ users (db w') = <[u_uuid u := u']> (users (db w));
  us_tick : tick w ≤ tick w';
}.
Lemma wp_User_save u e w (Φ : res Error User → World → Prop) :
  (∀ x, Φ (Err x) w) → (∀ u' w', u_uuid u' = u_uuid u → u_password_hash u' = u_password_hash u → user_saved u w w' → Φ (Ok u') w') →
  wp (User_save u) e w Φ.
Proof.
  intros HE HO. unfold User_save. wp_go; [|apply HE]. apply HO; [done..|]. split; simpl; [done..| |done].
  eexists; split; [|reflexivity]; done.
Qed.
Lemma wp_User_new email name e w (Φ : res Error User → World → Prop) :
  (∀ u w', u_uuid u = uuid_at e (tick w) → calm_rel w w' → tick w < tick w' → Φ (Ok u) w') → wp (User_new email name) e w Φ.
Proof. intros HΦ. unfold User_new, get_random_bytes. wp_go. apply HΦ; simpl; [done| |lia]. by split; simpl; [|lia|split]. Qed.
Lemma in_order_user e u w w' :
  in_order e w → user_saved u w w' → (∀ i, tick w' ≤ i → uuid_at e i ≠ u_uuid u) → in_order e w'.
Proof.
  intros [Hwf [Hinj Hun] Hk] [Em Eo (u' & Hid & Eu) Ht] Hnew. split; [by rewrite Em| |intros k x; rewrite Eo; apply Hk].
  split; [done|]. intros i Hi. destruct (Hun i ltac:(lia)) as (H1 & H2 & H3). unfold unused. rewrite Em, Eu. split_and!; [|done..].
  intros (k & x & [[<- <-]|[_ Hx]]%lookup_insert_Some & E); [|apply H1; by exists k, x]. apply (Hnew i Hi). congruence.
Qed.
Lemma known_user_old e w k u : in_order e w → users (db w) !! k = Some u → ∀ i, tick w ≤ i → uuid_at e i ≠ u_uuid u.
Proof. intros Hw Hu i Hi E. destruct (fresh_unused _ _ (order_fresh _ _ Hw) i Hi) as [H _]. apply H. by exists k, u. Qed.

Section directory.
Context (data : DirectoryData) (o : string) (e : Env).
Abbreviation synced := (proceeded (synchronized data o) e).
Abbreviation syncs := (proceeds (synchronized data o) e).
(** The organization's identifier is not drawn again. *)
Abbreviation org_old w := (∀ i, tick w ≤ i → uuid_at e i ≠ o).

Lemma synced_refl w : in_order e w → synced w w.
Proof. apply (proceeded_refl (synchronized data o)). Qed.
Lemma synced_then {A} (m : M A) w w1 : synced w w1 → wp m e w1 (λ _ w', synced w1 w') → wp m e w1 (λ _ w', synced w w').
Proof. intros H1 Hm. eapply wp_mono; [exact Hm|]. intros r w2. by apply (proceeded_trans (synchronized data o)). Qed.
(** A row with a changed state, and the directory's identifier *)
Lemma synced_store k m m1 x b w :
  in_order e w → members_of w !! k = Some m → m_org_uuid m = o → same_standing m m1 → m_external_id m1 = m_external_id m →
  Membership_stored m1 → listed data x →
  (is_confirmed_owner m = true → is_confirmed_owner m1 = false → other_owner (members_of w) o k) →
  wp (let (m2, ext_modified) := Membership_set_external_id m1 (Some x) in store_if (b || ext_modified) m2) e w (λ _ w', synced w w').
Proof.
  intros Hw Hk Ho Hs Hext Hst Hx Hlast. destruct (set_external_id_fields m1 (Some x)) as (y & Hy & Hl).
  destruct (Membership_set_external_id m1 (Some x)) as [m2 c]. simpl in Hy. subst m2. unfold store_if.
  destruct (b || c); [|by apply wp_mret, synced_refl]. pose proof Hs as (Hr & Ht & _).
  eapply (proceeded_row _ _ k m); [done|done|exact Hr| | |].
  - apply (known_same m); [by eapply wf_type; [apply Hw|]|done].
  - by apply (stored_same m1).
  - apply (synchronized_update _ _ _ _ m); [done..| |by rewrite external_owner].
    destruct Hl as [->|Hl]; [left; simpl; congruence|right]. simpl. intros z [= ->]%Hl. done.
Qed.
Lemma external_revoke m : m_external_id (Membership_revoke m).1 = m_external_id m.
Proof. unfold Membership_revoke. by case_match. Qed.
Lemma external_restore m : m_external_id (Membership_restore m).1 = m_external_id m.
Proof. unfold Membership_restore. by case_match. Qed.
Lemma syncs_import_found k m d w :
  listed data (iu_external_id d) → in_order e w → members_of w !! k = Some m → m_org_uuid m = o →
  wp (if iu_deleted d then revoke_listed o d m else restore_listed d m) e w (λ _ w', synced w w').
Proof.
  intros Hd Hw Hk Ho. pose proof (wf_stored _ (order_wf _ _ Hw) _ _ Hk) as Hst. destruct (iu_deleted d).
  - unfold revoke_listed. pose proof (standing_revoke m Hst) as Hs. pose proof (stored_revoke m Hst) as Hst'.
    pose proof (external_revoke m) as Hext.
    destruct (is_confirmed_owner m) eqn:Hown.
    + unfold Membership_count_confirmed_by_org_and_type, members. do 4 wp_step. apply wp_mret. simpl.
      case_match eqn:Hn; apply wp_mret; simpl.
      * apply (synced_store k m m _ false); try done; congruence.
      * destruct (Membership_revoke m) as [m1 b]. eapply synced_store; [done..|]. intros _ _. eapply owners_counted; [apply Hw|].
        by apply Nat.leb_gt.
    + wp_step. apply wp_mret. simpl. destruct (Membership_revoke m) as [m1 b]. eapply synced_store; [done..|congruence].
  - unfold restore_listed. pose proof (standing_restore m Hst) as Hs. pose proof (stored_restore m Hst) as Hst'.
    pose proof (external_restore m) as Hext.
    destruct (Membership_restore m) as [m1 b] eqn:E. eapply synced_store; [done..|]. intros Hown Hno.
    apply confirmed_owner_spec in Hown as Hc. unfold Membership_restore in E. destruct Hc as [_ Hc]. rewrite Hc in E. simpl in E.
    congruence.
Qed.

(** *** New members *)

Lemma calm_Group_new org name acc ext : calm (Group_new org name acc ext).
Proof. unfold Group_new. solve_within. Qed.
Lemma calm_import_group g : calm (import_group o g).
Proof.
  unfold import_group, Group_find_by_external_id_and_org, Membership_find_by_external_id_and_org, member.
  pose proof calm_Group_new. solve_within.
Qed.
Definition mail_user (email : string) (w : World) : option User :=
  first (λ u, bool_decide (u_email u = str_to_lowercase e email)) (users (db w)).
(** Nobody with the address is a member. *)
Definition no_member (email : string) (w : World) : Prop :=
  ∀ u, mail_user email w = Some u → ∀ k m, members_of w !! k = Some m → m_org_uuid m = o → m_user_uuid m ≠ u_uuid u.
Lemma wp_listed_user email w :
  in_order e w → no_member email w →
  wp (listed_user email) e w (λ r w', members_of w' = members_of w ∧ in_order e w' ∧ tick w ≤ tick w' ∧
    ∀ u created, r = Ok (u, created) → (∀ i, tick w' ≤ i → uuid_at e i ≠ u_uuid u) ∧
      ∀ k m, members_of w !! k = Some m → m_org_uuid m = o ∨ created = true → m_user_uuid m ≠ u_uuid u).
Proof.
  intros Hw Hno. unfold listed_user, User_find_by_mail. wp_step. wp_step. wp_step. wp_step. wp_step. wp_step. wp_step.
  - apply wp_mret. split_and!; [done..|]. intros u c [= <- <-]. apply first_Some in Hm as Hu. destruct Hu as [_ [k Hk]].
    split; [by eapply known_user_old|]. intros k' m Hk' [Ho|]; [|done]. by eapply Hno.
  - apply wp_bind, wp_User_new. intros u w1 Hid Hc1 Ht1. apply wp_bind. pose proof (in_order_calm _ _ _ Hw Hc1) as Hw1.
    pose proof (calm_members _ _ Hc1) as E1. apply wp_User_save; [intros; simpl; split_and!; [done|done|lia|done]|].
    intros u' w2 Hid' _ Hs. pose proof Hs as [E2 _ _ Ht2].
    assert (in_order e w2) as Hw2.
    { eapply in_order_user; [done..|]. intros i Hi. rewrite Hid. intros ?%(fresh_inj _ _ (order_fresh _ _ Hw)). lia. }
    apply wp_bind. assert (∀ mail : bool, calm (if mail then mret tt else let* i := Invitation_new (u_email u') in Invitation_save i)) as Hcalm
      by (intros; solve_within).
    apply wp_conf. simpl. apply wp_bind, (wp_calm_step e _ _ _ (Hcalm _) Hw2). intros r w3 Hc3 Hw3.
    pose proof (calm_members _ _ Hc3). pose proof (calm_tick _ _ Hc3).
    destruct r; simpl; [apply wp_mret|..]; (split_and!; [congruence|done|lia|]); [|done..].
    intros u0 c [= <- <-]. rewrite Hid', Hid. split; [intros i Hi ?%(fresh_inj _ _ (order_fresh _ _ Hw)); lia|].
    intros k m Hk _. destruct (fresh_unused _ _ (order_fresh _ _ Hw) (tick w) ltac:(lia)) as (_ & _ & H3). by destruct (H3 _ _ Hk).
Qed.

(** Taking back an invitation *)
(** The row [k] may go. *)
Definition taken_back (k : string) (T T' : Members) : Prop := T' = T ∨ T' = delete k T.
#[local] Instance taken_back_preorder k : PreOrder (taken_back k).
Proof.
  split; [by left|]. intros T1 T2 T3 [->| ->] [->| ->]; [by left|by right..|]. right. by rewrite delete_delete_eq.
Qed.
Lemma filter_only (T : Members) u k :
  (∀ k' m, T !! k' = Some m → m_user_uuid m = u ↔ k' = k) → filter (λ km, m_user_uuid km.2 ≠ u) T = delete k T.
Proof.
  intros Hk. apply map_eq. intros k'. apply option_eq. intros m. rewrite map_lookup_filter_Some, lookup_delete_Some. simpl.
  split; [intros [Hm Hne]|intros [Hne Hm]].
  - split; [|done]. intros <-. by apply Hne, (Hk k).
  - split; [done|]. intros Hu. by apply Hne, eq_sym, (Hk k' m).
Qed.
Lemma wp_mail_listed user created org m w :
  in_order e w → members_of w !! m_uuid m = Some m → m_user_uuid m = u_uuid user →
  (created = true → ∀ k m', members_of w !! k = Some m' → m_user_uuid m' = u_uuid user → k = m_uuid m) →
  wp (mail_listed user created org m) e w (λ _ w', proceeded (taken_back (m_uuid m)) e w w').
Proof.
  intros Hw Hk Hu Honly. unfold mail_listed. apply wp_bind, wp_conf. simpl. set (R := taken_back (m_uuid m)).
  assert (proceeded R e w w) as Hrefl by by apply (proceeded_refl R).
  destruct (mail_enabled (cfg e)); [|by apply wp_mret]. apply (wp_proceed R); [solve_within|done..|].
  intros x w1 _ Hc Hw1 Hp. rewrite <- (calm_members _ _ Hc) in Hk, Honly. destruct x as [x|]; [|by apply wp_mret].
  assert (wp (if created then User_delete user else Membership_delete m) e w1 (λ _ w', proceeded R e w1 w')) as Hback.
  { destruct created; [|apply (proceeded_gone R e (m_uuid m)); [done..|by right]].
    eapply wp_mono; [by apply wp_User_delete|]. intros r w2 (Hd & Hw2 & Ht2). split; [|done..].
    destruct Hd as [->|[-> _]]; [by left|right]. apply filter_only. intros k m' Hk'. split; [by apply Honly|]. intros ->. congruence. }
  apply wp_bind. eapply wp_mono; [exact Hback|]. intros r w2 H2. pose proof (proceeded_trans _ _ _ _ _ Hp H2). destruct r; simpl; [|done..].
  by apply wp_reads; [solve_reads|].
Qed.

Lemma syncs_new_member m user created org w w1 :
  in_order e w → org_old w → calm_rel w w1 → tick w < tick w1 →
  m_uuid m = uuid_at e (tick w) → m_user_uuid m = u_uuid user → plain_newcomer o m → Membership_stored m →
  (∀ i, tick w ≤ i → uuid_at e i ≠ u_uuid user) →
  (∀ k m', members_of w !! k = Some m' → m_org_uuid m' = o ∨ created = true → m_user_uuid m' ≠ u_uuid user) →
  wp (do* Membership_save m in mail_listed user created org m) e w1 (λ _ w', synced w w').
Proof.
  intros Hw Hold Hc Ht Hid Hu Hn Hst Hfut Hrows. apply wp_bind, wp_Membership_save. intros w2 E2 T2 U2. simpl.
  rewrite (calm_members _ _ Hc) in E2. pose proof Hn as (Ho & Hr & _).
  pose proof (order_fresh _ _ Hw) as [Hinj Hun]. destruct (Hun (tick w) ltac:(done)) as (_ & Hnone & _). rewrite <- Hid in Hnone.
  assert (members_wf (members_of w2)) as Hwf2.
  { rewrite E2. apply wf_new; [apply Hw|done| |by exists MT_User|done]. intros k m' Hk. rewrite Ho, Hu. intros. by eapply Hrows; [|left]. }
  assert (in_order e w2) as Hw2.
  { eapply (in_order_new _ w1 _ m); [by eapply in_order_calm|by rewrite (calm_members _ _ Hc)|lia|done..|].
    intros i Hi. rewrite Hid, Hu, Ho. split_and!; apply not_eq_sym; [|apply Hfut; lia|apply Hold; lia]. intros ?%Hinj. lia. }
  eapply wp_mono; [apply (wp_mail_listed user created org m); [done| |done|]|].
  - rewrite E2. apply lookup_insert_eq.
  - intros -> k m'. rewrite E2. intros [[<- _]|[_ Hk]]%lookup_insert_Some Hu'; [done|]. exfalso. by eapply Hrows; [|right|].
  - intros r w3 [Hback Hw3 Ht3]. split; [|done|lia]. rewrite E2 in Hback. destruct Hback as [->| ->]; [by apply synchronized_new|].
    by rewrite delete_insert_id.
Qed.
Lemma syncs_invite_listed d w :
  in_order e w → org_old w → no_member (iu_email d) w → wp (invite_listed o d) e w (λ _ w', synced w w').
Proof.
  intros Hw Hold Hno. unfold invite_listed. apply wp_bind. eapply wp_mono; [by apply wp_listed_user|].
  intros r w1 (E1 & Hw1 & T1 & Hr).
  assert (synced w w1) as H1 by (split; [by rewrite E1|done..]).
  destruct r as [[user created]|x|]; simpl; [|done..]. destruct (Hr user created eq_refl) as [Hfut Hrows]. rewrite <- E1 in Hrows.
  apply (synced_then _ _ _ H1). apply wp_bind, wp_conf. simpl. unfold Organization_find_by_uuid. wp_step. wp_step. wp_step. wp_step.
  wp_step; [|by apply synced_refl].
  unfold Membership_new. do 4 wp_step. apply wp_mret. unfold bind_post at 1.
  match goal with |- context [Membership_set_external_id ?m ?x] => destruct (set_external_id_fields m x) as (y & -> & _) end.
  apply (syncs_new_member _ _ _ _ w1); [done| | |simpl; lia|done|done| | |done..].
  - intros i Hi. apply Hold. lia.
  - split; simpl; [done|lia|by split].
  - split_and!; [done..|]. simpl. case_match; auto.
  - apply stored_spec. simpl. case_match; simpl; set_solver.
Qed.
Lemma wp_find_by_email email w (Φ : res Error (option Membership) → World → Prop) :
  (∀ k m, members_of w !! k = Some m → m_org_uuid m = o → Φ (Ok (Some m)) w) → (no_member email w → Φ (Ok None) w) →
  wp (Membership_find_by_email_and_org email o) e w Φ.
Proof.
  intros HS HN. unfold Membership_find_by_email_and_org, User_find_by_mail, Membership_find_by_user_and_org, member. wp_go.
  - destruct (first _ (members_of w)) as [m|] eqn:Hf.
    + apply first_Some in Hf as [Hp [k Hk]]. apply andb_true_iff in Hp as [_ Hp]. unfold is_org in Hp.
      apply bool_decide_eq_true in Hp. by eapply HS.
    + apply HN. unfold no_member, mail_user. rewrite Hm. intros u [= <-] k m Hk Ho E. rewrite first_None in Hf.
      specialize (Hf _ _ Hk). unfold is_user, is_org in Hf. by rewrite !bool_decide_eq_true_2 in Hf.
  - apply HN. unfold no_member, mail_user. by rewrite Hm.
Qed.
Lemma syncs_import_member d w : listed data (iu_external_id d) → in_order e w → org_old w → wp (import_member o d) e w (λ _ w', synced w w').
Proof.
  intros Hd Hw Hold. unfold import_member. apply wp_bind, wp_find_by_email; simpl; [intros; by eapply syncs_import_found|].
  intros Hno. wp_step; [by apply synced_refl|]. by apply syncs_invite_listed.
Qed.
Lemma syncs_import_members l w :
  (∀ d, d ∈ l → listed data (iu_external_id d)) → in_order e w → org_old w → wp (for_each l (import_member o)) e w (λ _ w', synced w w').
Proof.
  revert w. induction l as [|d l IH]; intros w Hl Hw Hold; simpl; [by apply wp_mret, synced_refl|].
  apply wp_bind. eapply wp_mono; [apply syncs_import_member; [apply Hl; by left|done..]|]. intros r w1 H1. destruct r; simpl; [|done..].
  apply (synced_then _ _ _ H1), IH; [intros d' Hd'; apply Hl; by right|apply H1|]. intros i Hi. apply Hold. pose proof (pr_tick _ _ _ _ H1). lia.
Qed.

(** *** Members that are not listed *)

Section removal.
Context (Hover : dd_overwrite_existing data = true).
Abbreviation s := (iu_external_id <$> dd_members data).
Lemma syncs_remove_one m w :
  in_order e w → members_of w !! m_uuid m = Some m → m_org_uuid m = o →
  wp (remove_unlisted o s m) e w (λ _ w', synced w w' ∧ ∀ k, k ≠ m_uuid m → members_of w' !! k = members_of w !! k).
Proof.
  intros Hw Hk Ho. unfold remove_unlisted. pose proof (synced_refl w Hw) as Hrefl.
  assert (overwritten data m → (is_confirmed_owner m = true → other_owner (members_of w) o (m_uuid m)) →
    wp (Membership_delete m) e w (λ _ w', synced w w' ∧ ∀ k, k ≠ m_uuid m → members_of w' !! k = members_of w !! k)) as Hdel.
  { intros Hov Hlast. assert (wp (Membership_delete m) e w (λ _ w', synced w w')) as H1.
    { apply (proceeded_gone (synchronized data o) e (m_uuid m)); [done..|]. by eapply synchronized_delete. }
    unfold wp in *. split; [done|]. intros k Hne. 
    assert (wp (Membership_delete m) e w (λ _ w', members_of w' !! k = members_of w !! k)) as H; [|apply H].
    apply wp_Membership_delete. intros w' -> _ _. by rewrite lookup_delete_ne. }
  unfold Membership_count_confirmed_by_org_and_type, members. destruct (is_confirmed_owner m) eqn:Hown; wp_go; try done.
  - apply Hdel; [|intros _; eapply owners_counted; [apply Hw|]; by apply Nat.leb_gt]. split; [done|]. eexists. split; [done|].
    by apply bool_decide_eq_false in Hb.
  - apply Hdel; [|done]. split; [done|]. eexists. split; [done|]. by apply bool_decide_eq_false in Hb.
Qed.
Lemma syncs_remove l w :
  in_order e w → NoDup (m_uuid <$> l) → (∀ m, m ∈ l → members_of w !! m_uuid m = Some m ∧ m_org_uuid m = o) →
  wp (for_each l (remove_unlisted o s)) e w (λ _ w', synced w w').
Proof.
  revert w. induction l as [|m l IH]; intros w Hw Hnd Hl; simpl; [by apply wp_mret, synced_refl|].
  apply NoDup_cons in Hnd as [Hm Hnd]. destruct (Hl m ltac:(by left)) as [Hk Ho].
  apply wp_bind. eapply wp_mono; [by apply syncs_remove_one|]. intros r w1 [H1 Hrest]. destruct r; simpl; [|done..].
  apply (synced_then _ _ _ H1), IH; [apply H1|done|]. intros m' Hm'. rewrite Hrest; [apply Hl; by right|].
  intros E. apply Hm. rewrite <- E. by apply list_elem_of_fmap_2.
Qed.
End removal.
Lemma syncs_ldap_import w : in_order e w → org_old w → wp (ldap_import data o) e w (λ _ w', synced w w').
Proof.
  intros Hw Hold. unfold ldap_import. apply wp_bind. eapply wp_mono; [apply syncs_import_members; [intros d; apply list_elem_of_fmap_2|done..]|].
  intros r w1 H1. destruct r; simpl; [|done..]. apply (synced_then _ _ _ H1). pose proof (pr_order _ _ _ _ H1) as Hw1.
  apply wp_bind, wp_conf. simpl. apply (wp_proceed (synchronized data o)); [|done|by apply synced_refl|].
  { pose proof calm_import_group. solve_within. }
  intros _ w2 _ Hc Hw2 H2. destruct (dd_overwrite_existing data) eqn:Hover; [|by apply wp_mret]. apply (synced_then _ _ _ H2).
  unfold Membership_find_by_org, members. do 3 wp_step. destruct (loaded_rows _ (is_org o) (order_wf _ _ Hw2)) as [Hnd Hrows].
  apply syncs_remove; [done..|]. intros m Hm. destruct (Hrows m Hm) as [Hk Ho]. split; [done|].
  by apply bool_decide_eq_true in Ho.
Qed.
End directory.

(** ** The administrator *)

Section administration.
Context `{!Serde ProtectedActionData pa_stored, !Serde EmailTokenData id, !Serde UserStampException id}.
Context (encode_admin : Z → option string) (decode_admin : Z → string → bool) (push_relay_reachable : bool).
Context (spared : string → Prop) (e : Env).

(** The organizations that are spared keep an owner. *)
Definition owner_stays (T T' : Members) : Prop := ∀ o, spared o → has_owner T o → has_owner T' o.
#[local] Instance owner_stays_preorder : PreOrder owner_stays.
Proof. split; [by intros T o|]. intros T1 T2 T3 H1 H2 o Ho H. auto. Qed.
Abbreviation stays := (proceeds owner_stays e).
Abbreviation stayed := (proceeded owner_stays e).

Lemma stayed_then {A} (m : M A) w w1 : stayed w w1 → wp m e w1 (λ _ w', stayed w1 w') → wp m e w1 (λ _ w', stayed w w').
Proof. intros H1 Hm. eapply wp_mono; [exact Hm|]. intros r w2. by apply (proceeded_trans owner_stays). Qed.
Lemma wp_with_code {A} (m : M A) c w (P : World → Prop) : wp m e w (λ _ w', P w') → wp (with_code m c) e w (λ _ w', P w').
Proof. unfold wp, with_code. by destruct (m e w) as [[] w']. Qed.
Lemma calm_with_code {A} (m : M A) c : calm m → calm (with_code m c).
Proof. intros Hm e' w'. specialize (Hm e' w'). unfold wp, with_code in *. by destruct (m e' w') as [[] ?]. Qed.
Lemma stays_calm_bind {A B} (m : M A) (k : A → M B) w :
  calm m → in_order e w →
  (∀ x w', calm_rel w w' → in_order e w' → wp (k x) e w' (λ _ w2, stayed w' w2)) → wp (mbind m k) e w (λ _ w', stayed w w').
Proof.
  intros Hm Hw Hk. apply (wp_proceed owner_stays); [done..|by apply proceeded_refl; [apply _|]|].
  intros x w' _ Hc Hw' Hp. apply (stayed_then _ _ _ Hp). by apply Hk.
Qed.

(** An account is saved whose identifier is not drawn again. *)
Lemma stays_User_save u w :
  in_order e w → (∀ i, tick w ≤ i → uuid_at e i ≠ u_uuid u) → wp (User_save u) e w (λ _ w', stayed w w').
Proof.
  intros Hw Hold. apply wp_User_save; [intros; by apply proceeded_refl; [apply _|]|]. intros u' w' _ _ Hs.
  pose proof Hs as [Em _ _ Ht]. split; [by rewrite Em| |done]. eapply in_order_user; [done..|]. intros i Hi. apply Hold. lia.
Qed.
Lemma stays_drop {A} (m : M A) w : wp m e w (λ _ w', stayed w w') → wp (mdrop m) e w (λ _ w', stayed w w').
Proof. intros Hm. apply wp_bind. eapply wp_mono; [exact Hm|]. by intros [] w' H. Qed.
(** The account at the head of most actions *)
Lemma stays_with_user {A} id (k : User → M A) w :
  in_order e w →
  (∀ u, (∀ i, tick w ≤ i → uuid_at e i ≠ u_uuid u) → wp (k u) e w (λ _ w', stayed w w')) →
  wp (mbind (get_user_or_404 id) k) e w (λ _ w', stayed w w').
Proof.
  intros Hw Hk. unfold get_user_or_404, User_find_by_uuid. wp_go; [|by apply proceeded_refl; [apply _|]].
  apply Hk. by eapply known_user_old.
Qed.
Lemma calm_rotate_tokens u : calm (Device_rotate_refresh_tokens_by_user u).
Proof.
  unfold Device_rotate_refresh_tokens_by_user, rotate_device, Device_save, generate_refresh_token, encode_random_bytes, get_random_bytes.
  solve_within.
Qed.
Lemma stays_reset_stamp {A} u (k : User → M A) w :
  in_order e w →
  (∀ u' w', u_uuid u' = u_uuid u → calm_rel w w' → in_order e w' → wp (k u') e w' (λ _ w2, stayed w' w2)) →
  wp (mbind (User_reset_security_stamp u) k) e w (λ _ w', stayed w w').
Proof.
  intros Hw Hk. apply wp_bind. unfold User_reset_security_stamp. do 3 wp_step. apply wp_bind.
  apply (wp_within (R := calm_rel)); [apply calm_rotate_tokens|]. intros r w1 Hc.
  assert (calm_rel w w1) as Hc1 by (etrans; [|exact Hc]; split; simpl; [done|lia|by split]).
  pose proof (proceeded_calm owner_stays e _ _ Hw Hc1) as H1. destruct r; simpl; [|done..]. apply wp_mret. simpl.
  apply (stayed_then _ _ _ H1). apply Hk; [done..|apply H1].
Qed.

Lemma stays_invite_user email w : in_order e w → wp (invite_user email) e w (λ _ w', stayed w w').
Proof.
  intros Hw. unfold invite_user. apply stays_calm_bind; [solve_within|done|]. intros found w1 _ Hw1.
  apply stays_calm_bind; [solve_within|done|]. intros _ w2 _ Hw2.
  apply wp_bind, wp_User_new. intros u w3 Hid Hc3 Ht3. simpl. pose proof (proceeded_calm owner_stays e _ _ Hw2 Hc3) as H3.
  apply (stayed_then _ _ _ H3). pose proof (pr_order _ _ _ _ H3) as Hw3.
  assert (∀ i, tick w3 ≤ i → uuid_at e i ≠ u_uuid u) as Hold.
  { intros i Hi. rewrite Hid. intros ?%(fresh_inj _ _ (order_fresh _ _ Hw)). lia. }
  apply stays_calm_bind; [|done|].
  { apply calm_with_code. unfold generate_invite, admin_invite_mail. solve_within. }
  intros _ w4 Hc4 Hw4. apply wp_bind. eapply wp_mono.
  { apply wp_with_code, stays_User_save; [done|]. intros i Hi. apply Hold. pose proof (calm_tick _ _ Hc4). lia. }
  intros r w5 H5. destruct r; simpl; [|done..]. apply (stayed_then _ _ _ H5). apply (proceeds_calm owner_stays); [|apply H5].
  apply within_reads, reads_User_to_json.
Qed.
Lemma stays_delete_user id ip w : in_order e w → wp (delete_user id ip) e w (λ _ w', stayed w w').
Proof.
  intros Hw. unfold delete_user. apply stays_with_user; [done|]. intros u _. unfold Membership_find_any_state_by_user, members.
  do 3 wp_step. apply wp_bind. assert (wp (outcome (User_delete u)) e w (λ _ w', deleting (u_uuid u) e w w')) as Hdel.
  { pose proof (wp_User_delete u e w Hw) as H. unfold wp, outcome in *. by destruct (User_delete u e w) as [[] ?]. }
  eapply wp_mono; [exact Hdel|]. intros r w1 (Hd & Hw1 & Ht1).
  assert (stayed w w1) as H1.
  { split; [|done..]. intros o _. destruct Hd as [->|[-> Hlast]]; [done|]. apply owner_user_gone; [apply Hw|done]. }
  destruct r as [res| |]; simpl; [|done..]. apply (stayed_then _ _ _ H1). apply (proceeds_calm owner_stays); [|done].
  solve_within.
Qed.
Lemma stays_deauth_user id w : in_order e w → wp (deauth_user push_relay_reachable id) e w (λ _ w', stayed w w').
Proof.
  intros Hw. unfold deauth_user. apply stays_with_user; [done|]. intros u Hold.
  apply stays_calm_bind; [solve_within|done|]. intros push w1 Hc1 Hw1.
  apply stays_calm_bind; [unfold unregister_push_device; solve_within|done|]. intros _ w2 Hc2 Hw2.
  apply stays_calm_bind; [unfold Device_delete_all_by_user; solve_within|done|]. intros _ w3 Hc3 Hw3.
  apply stays_reset_stamp; [done|]. intros u' w4 Hid Hc4 Hw4. apply stays_drop, stays_User_save; [done|].
  rewrite Hid. intros i Hi. apply Hold.
  pose proof (calm_tick _ _ Hc1). pose proof (calm_tick _ _ Hc2). pose proof (calm_tick _ _ Hc3). pose proof (calm_tick _ _ Hc4). lia.
Qed.
Lemma stays_disable_user id w : in_order e w → wp (disable_user id) e w (λ _ w', stayed w w').
Proof.
  intros Hw. unfold disable_user. apply stays_with_user; [done|]. intros u Hold.
  apply stays_reset_stamp; [done|]. intros u' w1 Hid Hc1 Hw1. apply wp_bind.
  assert (wp (outcome (mdrop (User_save (u' <| u_enabled := false |>)))) e w1 (λ _ w', stayed w1 w')) as Hsave.
  { assert (wp (mdrop (User_save (u' <| u_enabled := false |>))) e w1 (λ _ w', stayed w1 w')) as H.
    { apply stays_drop, stays_User_save; [done|]. simpl. rewrite Hid. intros i Hi. apply Hold. pose proof (calm_tick _ _ Hc1). lia. }
    unfold wp, outcome in *. by destruct (mdrop _ e w1) as [[] ?]. }
  eapply wp_mono; [exact Hsave|]. intros r w2 H2. destruct r; simpl; [|done..]. apply (stayed_then _ _ _ H2).
  apply (proceeds_calm owner_stays); [|apply H2]. unfold Device_delete_all_by_user. solve_within.
Qed.
Lemma stays_enable_user id w : in_order e w → wp (enable_user id) e w (λ _ w', stayed w w').
Proof.
  intros Hw. unfold enable_user. apply stays_with_user; [done|]. intros u Hold. apply stays_drop. by apply stays_User_save.
Qed.

(** Members below administrator are revoked; every row stays, with its role. *)
Definition row_stays (x x' : Membership) : Prop := same_row x x' ∧ m_atype x' = m_atype x.
Record revoking (T T' : Members) : Prop := {
  rv_owner : owner_stays T T';
  rv_rows : ∀ k x, T !! k = Some x → ∃ x', T' !! k = Some x' ∧ row_stays x x';
}.
Lemma row_stays_refl x : row_stays x x.
Proof. by repeat split. Qed.
Lemma row_stays_trans x y z : row_stays x y → row_stays y z → row_stays x z.
Proof. intros ((?&?&?)&?) ((?&?&?)&?). repeat split; congruence. Qed.
#[local] Instance revoking_preorder : PreOrder revoking.
Proof.
  split.
  - intros T. split; [done|]. intros k x Hk. exists x. split; [done|apply row_stays_refl].
  - intros T1 T2 T3 [O1 R1] [O2 R2]. split; [by etrans|]. intros k x Hk. destruct (R1 _ _ Hk) as (y & Hy & H1).
    destruct (R2 _ _ Hy) as (z & Hz & H2). exists z. split; [done|by eapply row_stays_trans].
Qed.
Abbreviation revoked := (proceeded revoking e).
(** The row as it was loaded *)
Definition loaded_row (T : Members) (m : Membership) : Prop :=
  known_type m ∧ Membership_stored m ∧ ∃ x, T !! m_uuid m = Some x ∧ row_stays m x.
Lemma loaded_later T T' m : revoking T T' → loaded_row T m → loaded_row T' m.
Proof.
  intros [_ HR] (? & ? & x & Hx & Hm). split_and!; [done..|]. destruct (HR _ _ Hx) as (y & Hy & ?). exists y.
  split; [done|by eapply row_stays_trans].
Qed.
Lemma revoking_row T m :
  loaded_row T m → i32_lt (m_atype m) MT_Admin = true → revoking T (<[m_uuid m := (Membership_revoke m).1]> T).
Proof.
  intros (Hty & Hst & x & Hx & Hr) Hlt. assert (row_stays x (Membership_revoke m).1) as Hrow.
  { pose proof (same_row_revoke m) as (?&?&?). destruct Hr as ((?&?&?)&?). unfold row_stays, same_row. rewrite revoke_type.
    split_and!; congruence. }
  split.
  - intros o _. eapply owner_insert; [done|apply Hrow|]. intros Hown. exfalso.
    destruct (below_admin m Hlt Hty) as (t & Ht & Hp). apply confirmed_owner_spec in Hown as [Hown _].
    apply Hp. left. unfold has_role in *. destruct Hr as [_ Hr]. rewrite Hr, Ht in Hown. by destruct t.
  - intros k y Hy. destruct (decide (k = m_uuid m)) as [->|Hne]; [|exists y; rewrite lookup_insert_ne by done; split; [done|apply row_stays_refl]].
    exists (Membership_revoke m).1. rewrite lookup_insert_eq. split; [done|]. congruence.
Qed.
Lemma revoked_member user act dt ip m w :
  in_order e w → loaded_row (members_of w) m →
  wp (enforce_2fa_policy_member user act dt ip m) e w (λ _ w', revoked w w').
Proof.
  intros Hw Hl. unfold enforce_2fa_policy_member. pose proof (proceeded_refl revoking e w Hw) as Hrefl.
  destruct (i32_lt _ _) eqn:Hlt; [|by apply wp_mret]. apply (wp_proceed revoking); [solve_within|done..|].
  intros mail w1 _ Hc1 Hw1 H1. apply (wp_proceed revoking); [solve_within|done..|]. intros _ w2 _ Hc2 Hw2 H2.
  apply (loaded_later _ (members_of w2)) in Hl; [|apply H2]. apply wp_bind. eapply wp_mono.
  { destruct Hl as (Hty & Hst & x & Hx & Hr). apply (proceeded_row revoking e (m_uuid m) x); [done..| | | |].
    - pose proof (same_row_revoke m) as (?&?&?). destruct Hr as ((?&?&?)&?). unfold same_row. split_and!; congruence.
    - apply (known_same m); [done|apply revoke_type].
    - by apply stored_revoke.
    - apply revoking_row; [|done]. split_and!; [done..|]. by exists x. }
  intros r w3 H3. pose proof (proceeded_trans revoking _ _ _ _ H2 H3) as H. destruct r; simpl; [|done..].
  eapply wp_mono; [apply (proceeds_calm revoking); [auto with within|apply H3]|]. intros r w4 H4.
  by eapply (proceeded_trans revoking).
Qed.
Lemma revoked_members user act dt ip l w :
  in_order e w → (∀ m, m ∈ l → loaded_row (members_of w) m) →
  wp (for_each l (enforce_2fa_policy_member user act dt ip)) e w (λ _ w', revoked w w').
Proof.
  revert w. induction l as [|m l IH]; intros w Hw Hl; simpl; [apply wp_mret; by apply (proceeded_refl revoking)|].
  apply wp_bind. eapply wp_mono; [apply revoked_member; [done|apply Hl; by left]|]. intros r w1 H1.
  destruct r; simpl; [|done..]. eapply wp_mono.
  { apply IH; [apply H1|]. intros m' Hm'. eapply loaded_later; [apply H1|]. apply Hl. by right. }
  intros r w2 H2. by eapply (proceeded_trans revoking).
Qed.
Lemma stays_enforce_2fa user act dt ip w : in_order e w → wp (enforce_2fa_policy user act dt ip) e w (λ _ w', stayed w w').
Proof.
  intros Hw. unfold enforce_2fa_policy, Membership_find_by_user_and_policy. do 3 wp_step. eapply wp_mono.
  { apply revoked_members; [done|]. intros m (m' & Hp & [_ [k Hk]]%elem_of_load)%list_elem_of_bind.
    apply list_elem_of_fmap in Hp as (p & -> & _). pose proof (order_wf _ _ Hw) as Hwf.
    split_and!; [by eapply wf_type|by eapply wf_stored|]. exists m'. split; [by rewrite (wf_keyed _ Hwf _ _ Hk)|apply row_stays_refl]. }
  intros r w1 [H1 ? ?]. split; [apply H1|done..].
Qed.
Lemma stays_remove_2fa id ip w : in_order e w → wp (remove_2fa id ip) e w (λ _ w', stayed w w').
Proof.
  intros Hw. unfold remove_2fa. apply stays_with_user; [done|]. intros u Hold.
  apply stays_calm_bind; [unfold TwoFactor_delete_all_by_user; solve_within|done|]. intros _ w1 Hc1 Hw1.
  apply wp_bind. eapply wp_mono; [by apply stays_enforce_2fa|]. intros r w2 H2. destruct r; simpl; [|done..].
  apply (stayed_then _ _ _ H2). apply stays_drop, stays_User_save; [apply H2|]. simpl. intros i Hi. apply Hold.
  pose proof (calm_tick _ _ Hc1). pose proof (pr_tick _ _ _ _ H2). lia.
Qed.
Lemma stays_membership_type data ip w : in_order e w → wp (update_membership_type data ip) e w (λ _ w', stayed w w').
Proof.
  intros Hw. pose proof (proceeded_refl owner_stays e w Hw) as Hrefl. unfold update_membership_type, Membership_find_by_user_and_org, member.
  do 3 wp_step. repeat read_step; [|done..].
  apply first_Some in Ho as [Hp [k Hk]]. apply andb_true_iff in Hp as [_ Horg]. unfold is_org in Horg. apply bool_decide_eq_true in Horg.
  apply wp_bind. assert (∀ b : bool, wp (if b then other_owner_left (mt_org_uuid data) "Can't change the type of the last owner" else mret tt) e w
    (λ r w', w' = w ∧ (r = Ok tt → b = true → ∀ k, other_owner (members_of w) (mt_org_uuid data) k))) as Hcheck.
  { intros []; [|by apply wp_mret]. by apply wp_other_owner. }
  eapply wp_mono; [apply Hcheck|]. intros r w' [-> Hlast]. destruct r as [[]|x|]; simpl; [|done..]. specialize (Hlast eq_refl).
  apply stays_calm_bind; [auto with within|done|]. intros _ w1 Hc1 Hw1. apply stays_calm_bind; [auto with within|done|].
  intros _ w2 Hc2 Hw2. rewrite <- (calm_members _ _ Hc1), <- (calm_members _ _ Hc2) in *.
  eapply (proceeded_row owner_stays e k); [done..| | |].
  - by exists a0.
  - eapply (stored_same a); [by eapply wf_stored; [apply Hw2|]|done].
  - intros o _. eapply owner_insert; [done..|]. intros Hown Hno. rewrite Horg. apply Hlast.
    apply confirmed_owner_spec in Hown as [Hr Hs]. apply andb_true_iff. split; [by apply has_type_spec|].
    apply negb_true_iff, bool_decide_eq_false. intros ->. apply not_true_iff_false in Hno. apply Hno, confirmed_owner_spec. done.
Qed.
Lemma stays_delete_organization o w :
  ¬ spared o → in_order e w → wp (admin_delete_organization o) e w (λ _ w', stayed w w').
Proof.
  intros Hno Hw. pose proof (proceeded_refl owner_stays e w Hw) as Hrefl. unfold admin_delete_organization. repeat read_step; [|done].
  apply (order_orgs _ _ Hw) in Ho as Hid. eapply wp_mono; [by apply wp_Organization_delete|]. intros r w1 (Hd & Hw1 & Ht).
  split; [|done..]. intros o' Ho'. destruct Hd as [->| ->]; [done|]. intros (k & m & Hk & <- & Hown). exists k, m.
  split; [|done]. apply map_lookup_filter_Some. split; [done|]. simpl. intros E. apply Hno. congruence.
Qed.
Lemma calm_all_revisions : calm User_update_all_revisions.
Proof.
  unfold User_update_all_revisions. solve_within. apply within_exec. intros w. split; simpl; [done..|]. split; simpl; [|done].
  intros y (k & u & (u0 & <- & Hk)%lookup_fmap_Some & <-). by exists k, u0.
Qed.
Lemma stays_admin_call c ip w :
  (∀ o, c = AdminDeleteOrganization o → ¬ spared o) → in_order e w →
  wp (run_admin_call push_relay_reachable c ip) e w (λ _ w', stayed w w').
Proof.
  intros Hc Hw. destruct c; simpl.
  - by apply stays_drop, stays_invite_user.
  - by apply stays_delete_user.
  - apply (proceeds_calm owner_stays); [|done]. unfold delete_sso_user, SsoUser_delete, Membership_find_any_state_by_user. solve_within.
  - by apply stays_deauth_user.
  - by apply stays_disable_user.
  - by apply stays_enable_user.
  - by apply stays_remove_2fa.
  - apply (proceeds_calm owner_stays); [|done]. unfold resend_user_invite, admin_invite_mail. solve_within.
  - by apply stays_membership_type.
  - by apply (proceeds_calm owner_stays); [apply calm_all_revisions|].
  - apply stays_delete_organization; [by apply Hc|done].
Qed.
Lemma stays_serve_admin c cookie ip w :
  (∀ o, c = AdminDeleteOrganization o → ¬ spared o) → in_order e w →
  wp (serve_admin decode_admin push_relay_reachable c cookie ip) e w (λ _ w', stayed w w').
Proof.
  intros Hc Hw. unfold serve_admin. apply stays_calm_bind; [unfold AdminToken_from_request; solve_within|done|].
  intros ip' w1 _ Hw1. by apply stays_admin_call.
Qed.
End administration.

(** ** Requests of all three kinds *)

(** The request carries a valid token for the API key of organization [o]. *)
Definition directory_token (decode_api_org : Z → string → option OrgApiKeyLoginJwtClaims)
    (e : Env) (d : Db) (rq : Request) (o : string) : Prop :=
  ∃ a claims k key, rq_authorization rq = Some a ∧ decode_api_org (now e) (rsplit_next "Bearer " a) = Some claims ∧
    (ok_nbf claims ≤ timestamp (now e) ≤ ok_exp claims)%Z ∧ ok_client_sub claims = o ∧
    organization_api_key d !! k = Some key ∧ oak_org_uuid key = o ∧ oak_uuid key = ok_sub claims.
Lemma wp_PublicToken decode rq e w (Φ : res Error string → World → Prop) :
  (∀ o, directory_token decode e (db w) rq o → Φ (Ok o) w) → (∀ r, (∀ o, r ≠ Ok o) → Φ r w) →
  wp (PublicToken_from_request decode rq) e w Φ.
Proof.
  intros HO HE. unfold PublicToken_from_request, some_or_401, err_handler, OrganizationApiKey_find_by_org_uuid, mexpect.
  wp_go; try (by apply HE). apply HO. apply first_Some in Hm3 as [_ [k Hk]].
  repeat match goal with H : bool_decide _ = true |- _ => apply bool_decide_eq_true in H end.
  exists a, a0, k, a3. split_and!; [done..|lia|lia|done|done|congruence|done].
Qed.
Lemma wp_serve_directory decode data rq e w (Φ : World → Prop) :
  Φ w → (∀ o, directory_token decode e (db w) rq o → wp (ldap_import data o) e w (λ _ w', Φ w')) →
  wp (serve_directory decode data rq) e w (λ _ w', Φ w').
Proof.
  intros HΦ Ho. unfold serve_directory. apply wp_bind, wp_PublicToken; [by apply Ho|]. by intros [o|x|] Hr; simpl; [destruct (Hr o)|..].
Qed.
(** An organization with a member has an identifier that is not drawn again. *)
Lemma owned_old e w o : in_order e w → has_owner (members_of w) o → ∀ i, tick w ≤ i → uuid_at e i ≠ o.
Proof.
  intros Hw (k & m & Hk & <- & _) i Hi E. destruct (fresh_unused _ _ (order_fresh _ _ Hw) i Hi) as (_ & _ & H). by destruct (H _ _ Hk).
Qed.

(** C11: what a directory connector may do.  A synchronization leaves the
    memberships alone unless it comes with a valid token for the API key of an
    organization.  Then, the organization having an owner, it leaves the rows of
    other organizations as they are and every organization its owners; in its
    own it adds plain members who are not confirmed; of the others it changes
    neither role, keys nor standing, but may revoke and restore them and note
    their identifier in the directory; and it removes one only if it is asked to
    overwrite, and only a member whose identifier in the directory is not listed
    any more. *)
Theorem directory_import_contained decode data rq e w r w' :
  in_order e w → serve_directory decode data rq e w = (r, w') →
  members_of w' = members_of w ∨
  ∃ o, directory_token decode e (db w) rq o ∧
    (has_owner (members_of w) o → synchronized data o (members_of w) (members_of w') ∧ in_order e w').
Proof.
  intros Hw Hrun. enough (wp (serve_directory decode data rq) e w (λ _ w', members_of w' = members_of w ∨
    ∃ o, directory_token decode e (db w) rq o ∧ (has_owner (members_of w) o →
      synchronized data o (members_of w) (members_of w') ∧ in_order e w'))) as H by apply (wp_run _ _ _ _ H _ _ Hrun).
  apply wp_serve_directory; [by left|]. intros o Ho. apply wp_intro.
  intros r1 w1 Hrun1. right. exists o. split; [done|]. intros Hown.
  destruct (wp_run _ _ _ _ (syncs_ldap_import data o e w Hw (owned_old _ _ _ Hw Hown)) _ _ Hrun1). done.
Qed.

Section server.
Context `{!Serde ProtectedActionData pa_stored, !Serde EmailTokenData id, !Serde UserStampException id} `{FL : FileLinks}.
Context (decode_invite : string → res Error InviteJwtClaims) (svc : Services) (host : string).
Context (decode_api_org : Z → string → option OrgApiKeyLoginJwtClaims).
Context (decode_admin : Z → string → bool) (push_relay_reachable : bool).

(** A request to the endpoints of organizations, of a directory connector, or of
    the administrator *)
Inductive ServerRequest :=
  | OfMember (rq : Request) (r : OrgRequest)
  | OfConnector (rq : Request) (data : DirectoryData)
  | OfAdmin (c : AdminCall) (cookie : option string) (ip : string).
Definition serve_one (x : Env * ServerRequest) (w : World) : World :=
  match x with
  | (e, OfMember rq r) => (serve_org decode_invite svc host r rq e w).2
  | (e, OfConnector rq data) => (serve_directory decode_api_org data rq e w).2
  | (e, OfAdmin c cookie ip) => (serve_admin decode_admin push_relay_reachable c cookie ip e w).2
  end.
Definition serve_mixed (l : list (Env * ServerRequest)) (w : World) : World := foldl (λ w x, serve_one x w) w l.
(** The organization a connector's token is for is not created later. *)
Definition token_settled (x : Env * ServerRequest) (w : World) : Prop :=
  match x with
  | (e, OfConnector rq data) => ∀ o, directory_token decode_api_org e (db w) rq o → ∀ i, tick w ≤ i → uuid_at e i ≠ o
  | _ => True
  end.
Fixpoint tokens_settled (l : list (Env * ServerRequest)) (w : World) : Prop :=
  match l with [] => True | x :: l => token_settled x w ∧ tokens_settled l (serve_one x w) end.
(** The request deletes the organization [o]. *)
Definition removes_org (o : string) (x : Env * ServerRequest) : Prop :=
  match x with
  | (e, OfMember rq r) => deletes_org o (e, rq, r)
  | (_, OfConnector _ _) => False
  | (_, OfAdmin c _ _) => c = AdminDeleteOrganization o
  end.
Lemma serve_one_owner x w :
  in_order x.1 w → token_settled x w →
  in_order x.1 (serve_one x w) ∧
  ∀ o, ¬ removes_org o x → has_owner (members_of w) o → has_owner (members_of (serve_one x w)) o.
Proof.
  destruct x as [e [rq r|rq data|c cookie ip]]; simpl; intros Hw Htok.
  - pose proof (wp_serve decode_invite svc host r rq e w Hw) as (Heff & Hord & _). split; [done|]. intros o Hno Hown.
    eapply effect_owner; [apply Hw|done|exact Heff|done].
  - assert (wp (serve_directory decode_api_org data rq) e w (λ _ w', in_order e w' ∧
      ∀ o, has_owner (members_of w) o → has_owner (members_of w') o)) as H.
    { apply (wp_serve_directory _ _ _ _ _ (λ w', in_order e w' ∧ ∀ o, has_owner (members_of w) o → has_owner (members_of w') o)); [done|].
      intros o Ho. eapply wp_mono; [by apply (syncs_ldap_import data o); [|apply Htok]|]. intros _ w1 [Hs Hw1 _]. split; [done|].
      apply Hs. }
    destruct H as [H1 H2]. split; [done|]. auto.
  - pose proof (stays_serve_admin decode_admin push_relay_reachable (λ o, c ≠ AdminDeleteOrganization o) e c cookie ip w) as H.
    destruct H as [H1 H2 _]; [intros o -> Hn; by apply Hn|done|]. split; [done|]. intros o Hno. by apply H1.
Qed.

(** C7: the server keeps every organization an owner.  Requests of members,
    directory connectors and the administrator, in any order: an organization
    with a confirmed owner still has one in the end, unless a request deletes it,
    and the table of memberships stays in order. *)
Theorem server_keeps_owners e l w o :
  Forall (λ x, uuid_at x.1 = uuid_at e) l → in_order e w → tokens_settled l w →
  has_owner (members_of w) o → Forall (λ x, ¬ removes_org o x) l →
  has_owner (members_of (serve_mixed l w)) o ∧ in_order e (serve_mixed l w).
Proof.
  intros Hsrc. revert w. induction l as [|x l IH]; intros w Hw Htok Hown Hno; [done|].
  apply Forall_cons in Hsrc as [He Hsrc]. apply Forall_cons in Hno as [Hx Hno]. destruct Htok as [Ht Htok].
  destruct (serve_one_owner x w (in_order_env _ _ _ He Hw) Ht) as [Hord Hstep].
  apply (IH Hsrc (serve_one x w)); [by apply (in_order_env x.1)|done|auto|done].
Qed.
End server.

(** ** Disabling an account *)

Section disabling.
Context `{!Serde ProtectedActionData pa_stored, !Serde EmailTokenData id, !Serde UserStampException id, !Serde DuoProviderData id}.
Context (svc : Services).

(** Devices of others are as before. *)
Definition other_devices (u : string) (d d' : Db) : Prop :=
  ∀ k r, devices d' !! k = Some r → d_user_uuid r ≠ u → devices d !! k = Some r.
Lemma wp_rotate_all u l e w :
  (∀ r, r ∈ l → d_user_uuid r = u) →
  wp (for_each l rotate_device) e w (λ _ w', users (db w') = users (db w) ∧ other_devices u (db w) (db w')).
Proof.
  revert w. induction l as [|d l IH]; intros w Hl; [by apply wp_mret; split; [|intros k r Hk _]|]. simpl. apply wp_bind. eapply wp_eq; [apply rotate_device_eq|].
  simpl. eapply wp_mono; [apply IH; intros r Hr; apply Hl; by right|]. simpl. intros _ w' [-> Hrest]. split; [done|].
  intros k r Hk Hu. specialize (Hrest k r Hk Hu). simpl in Hrest. apply lookup_insert_Some in Hrest as [[_ <-]|[_ ?]]; [|done].
  destruct Hu. apply (Hl d). by left.
Qed.
(** What disabling leaves *)
Definition locked (id : string) (d d' : Db) : Prop :=
  (∃ u, users d' !! id = Some u ∧ u_enabled u = false) ∧
  ∀ k r, devices d' !! k = Some r → d_user_uuid r ≠ id ∧ devices d !! k = Some r.
Lemma disable_user_locks id u e w w' :
  users (db w) !! id = Some u → u_uuid u = id → disable_user id e w = (Ok tt, w') → locked id (db w) (db w').
Proof.
  intros Hu Hid Hrun. enough (wp (disable_user id) e w (λ r w', r = Ok tt → locked id (db w) (db w'))) as H
    by (by apply (wp_run _ _ _ _ H _ _ Hrun)).
  unfold disable_user, get_user_or_404, User_find_by_uuid, User_reset_security_stamp, Device_rotate_refresh_tokens_by_user,
    Device_find_by_user. do 3 wp_step. rewrite Hu. do 6 wp_step.
  simpl. do 4 wp_step. eapply wp_mono.
  { apply (wp_rotate_all id). intros r [Hr _]%elem_of_load. apply bool_decide_eq_true in Hr. congruence. }
  simpl. intros [[]|x|] w1 [Hus Hdev]; simpl; [|done..]. apply wp_mret. simpl.
  unfold Device_delete_all_by_user. cbv [wp mbind outcome mdrop User_save ask ensure exec mret err mfail]. simpl.
  destruct (is_valid_email e (u_email u)); simpl; [|done]. intros _. split.
  - eexists. split; [simpl; by rewrite Hid, lookup_insert_eq|done].
  - simpl. intros k r. unfold delete_where. intros [Hk Hr]%map_lookup_filter_Some. simpl in Hr.
    apply bool_decide_eq_false in Hr. rewrite Hid in Hr. auto.
Qed.
Lemma wp_login_disabled data device_type ip cv user e w :
  login_account e (db w) data = Some user → u_enabled user = false →
  wp (login_password svc data device_type ip cv) e w (implies_ok False).
Proof.
  intros Hacc Hen. unfold login_password, check_is_some. wp_step. wp_step. wp_step.
  do 8 (wp_step; wp_step; [|apply implies_ok_Err]; wp_step).
  apply wp_ok_bind, wp_intro. intros r w1 Hfind user' ->. apply find_login_user_Ok in Hfind as [-> Hacc'].
  rewrite Hacc in Hacc'. injection Hacc' as <-. apply wp_log_login. unfold login_as. wp_step. rewrite Hen. apply implies_ok_Err.
Qed.

(** C12: a disabled account is locked out.  When the administrator disables it and
    that succeeds, no request is let through with a token of the account, no
    password and no API key logs in, and the refresh tokens its devices had are
    refused. *)
Theorem disabled_locked_out id u e w w' :
  users (db w) !! id = Some u → u_uuid u = id → devices_keyed (db w) →
  disable_user id e w = (Ok tt, w') →
  (∀ e2 rq claims s w2, request_claims svc e2 rq = Some claims → lj_sub claims = id →
     Headers_from_request svc rq e2 w' ≠ (Ok s, w2)) ∧
  (∀ e2 data device_type ip cv user j w2, login_account e2 (db w') data = Some user → users (db w') !! id = Some user →
     login_password svc data device_type ip cv e2 w' ≠ (Ok j, w2)) ∧
  (∀ e2 data device_type ip j w2, cd_client_id data = Some ("user." +:+ id) →
     login_client_credentials svc data device_type ip e2 w' ≠ (Ok j, w2)) ∧
  (∀ e2 token client, let tok := rj_device_token (refresh_claims_of svc (now e2) token) in
     (∀ k d, devices (db w) !! k = Some d → d_refresh_token d = tok → d_user_uuid d = id) →
     refresh_tokens svc token client e2 w' = (Err (new_msg "Invalid refresh token"), w')).
Proof.
  intros Hu Hid Hkeyed Hrun. destruct (disable_user_locks _ _ _ _ _ Hu Hid Hrun) as [(u' & Hu' & Hen) Hdev]. split_and!.
  - intros e2 rq claims s w2 Hc Hsub [_ (c & Hc' & Hd & _)]%Headers_from_request_Ok. rewrite Hc in Hc'. injection Hc' as <-.
    destruct (Hdev _ _ Hd) as [Hne Hd0]. apply Hne. apply Hkeyed in Hd0. unfold Device_key in Hd0. congruence.
  - intros e2 data dt ip cv user j w2 Hacc Huser Hlog. rewrite Hu' in Huser. injection Huser as <-.
    apply (wp_run _ _ _ _ (wp_login_disabled data dt ip cv u' e2 w' Hacc Hen) _ _ Hlog). by eexists.
  - intros e2 data dt ip j w2 Hcl Hlog.
    destruct (wp_run _ _ _ _ (wp_client_credentials svc data dt ip e2 w') _ _ Hlog) as (client & secret & Hc & _ & Hcase); [by eexists|].
    rewrite Hcl in Hc. injection Hc as <-. destruct Hcase as [(_ & i & user & E & Hi & He & _)|(_ & org & k & row & E & _)]; [|done].
    apply (inj (String.append "user.")) in E as <-. congruence.
  - intros e2 token client tok Hown. apply refresh_tokens_unknown. intros k d Hd Ht. destruct (Hdev _ _ Hd) as [Hne Hd0].
    by apply Hne, (Hown k).
Qed.
End disabling.

(** ** Witnesses *)

Module ToyServer.
Import ToyEnv ToyUsers ToyTwoFactor ToyCodes ToyLogin ToyLinks ToyOrgs ToySessions.
(** The connector's token decodes to claims for the organization's key. *)
Definition toy_decode_org (t : Z) (s : string) : option OrgApiKeyLoginJwtClaims :=
  if bool_decide (s = "token") then
    Some (mkOrgApiKeyLoginJwtClaims 0 (timestamp t) "https://vault.example|api.organization" "key" "organization.org" "org"
            ["api.organization"])
  else None.
Definition key_world : World := (org_world MT_Owner (bob_row MT_User)) <| db := (db (org_world MT_Owner (bob_row MT_User)))
  <| organization_api_key := {[("key", "org") := mkOrganizationApiKey "key" "org" 0 "secret" 0]} |> |>.
Definition connector_request : Request := mkRequest (Some "Bearer token") None None None "ip".
(** Bob has left, Alice (the last owner) as well, as the directory has it; Carol is new. *)
Definition toy_directory : DirectoryData := mkDirectoryData []
  [mkOrgImportUserData "bob@example.org" "x1" true; mkOrgImportUserData "alice@example.org" "x2" true;
   mkOrgImportUserData "carol@example.org" "x3" false] false.
Lemma key_world_in_order : in_order (toy_env 0) key_world.
Proof. destruct (org_world_in_order 0 MT_Owner MT_User (bob_row MT_User)) as [H1 [H2 H3] H4]; [by left|]. by split. Qed.
Lemma key_world_owner : has_owner (members_of key_world) "org".
Proof. exists "m1", (alice_row MT_Owner). split_and!; vm_compute; reflexivity. Qed.
Definition mixed_requests : list (Env * ServerRequest) :=
  [(toy_env 0, OfConnector connector_request toy_directory);
   (toy_env 0, OfAdmin (UpdateMembershipType (mkMembershipTypeData (Number 2) "alice" "org")) (Some "cookie") "ip");
   (toy_env 0, OfAdmin (DeleteUser "alice") (Some "cookie") "ip")].
End ToyServer.
Import ToyEnv ToyUsers ToyTwoFactor ToyCodes ToyLogin ToyLinks ToyOrgs ToySessions ToyServer.

(** Bob is revoked, Alice is not, Carol is invited. *)
Lemma directory_import_contained_witness :
  ∃ w', serve_directory toy_decode_org toy_directory connector_request (toy_env 0) key_world = (Ok tt, w') ∧
    (m_status <$> members_of w' !! "m2" = Some (-126)%Z ∧ m_status <$> members_of w' !! "m1" = Some 2%Z ∧
     size (members_of w') = 3) ∧
    (members_of w' = members_of key_world ∨ ∃ o, directory_token toy_decode_org (toy_env 0) (db key_world) connector_request o ∧
      (has_owner (members_of key_world) o →
       synchronized toy_directory o (members_of key_world) (members_of w') ∧ in_order (toy_env 0) w')).
Proof.
  eexists. split; [vm_compute; reflexivity|]. split; [vm_compute; done|].
  eapply (directory_import_contained toy_decode_org toy_directory connector_request (toy_env 0) key_world); [apply key_world_in_order|].
  vm_compute. reflexivity.
Defined.
Abbreviation toy_mixed := (serve_mixed no_invite toy_services "host" toy_decode_org (λ _ _, true) true mixed_requests key_world).
Lemma server_keeps_owners_witness : has_owner (members_of toy_mixed) "org" ∧ in_order (toy_env 0) toy_mixed.
Proof.
  apply (server_keeps_owners no_invite toy_services "host" toy_decode_org (λ _ _, true) true (toy_env 0) mixed_requests key_world "org").
  - repeat constructor.
  - apply key_world_in_order.
  - split; [|by repeat split]. intros o (a & claims & k & key & Ha & Hc & _ & <- & _) i _ E. vm_compute in Ha. injection Ha as <-.
    vm_compute in Hc. injection Hc as <-. change (uuid_at (toy_env 0) i) with ("id" +:+ pretty i) in E. discriminate E.
  - apply key_world_owner.
  - repeat constructor; intros H; by inversion H.
Defined.
(** Alice had a session, a password, an API key and a refresh token. *)
Lemma disabled_locked_out_witness :
  ∃ w', disable_user "alice" (toy_env 0) toy_session_world = (Ok tt, w') ∧
    (∀ j w2, login_client_credentials toy_services toy_api_connect 9 "ip" (toy_env 0) w' ≠ (Ok j, w2)) ∧
    refresh_tokens toy_services "old" None (toy_env 5) w' = (Err (new_msg "Invalid refresh token"), w').
Proof.
  eexists. split; [vm_compute; reflexivity|].
  edestruct (disabled_locked_out toy_services "alice" toy_key_user (toy_env 0) toy_session_world) as (_ & _ & Hkey & Href);
    [vm_compute; reflexivity|reflexivity|intros k d [-> ->]%toy_session_device; done|vm_compute; reflexivity|].
  split; [intros j w2; apply Hkey; reflexivity|]. apply Href. intros k d [-> ->]%toy_session_device _. done.
Defined.
