(* ===== verification/HttpClient.v ===== *)
(** * The HTTP client

    [server/src/http_client.rs], through which the server fetches what users
    name, and [is_global_hardcoded] of [server/src/util.rs]: which hosts and
    addresses are refused, on the way to the resolver, behind it, and at each
    redirect.  The adapter for S3 is not modelled. *)

From stdpp Require Import base strings numbers pretty list sorting.
From S2P Require Import Prelude.

(** ** Addresses *)

(** [std::net::IpAddr], by octets and by segments *)
Inductive IpAddr :=
  | V4 (a b c d : Z)
  | V6 (s0 s1 s2 s3 s4 s5 s6 s7 : Z).
#[export] Instance IpAddr_eq_dec : EqDecision IpAddr.
Proof. solve_decision. Defined.
Definition is_u16 (x : Z) : Prop := (0 ≤ x < 65536)%Z.
Definition ip_ok (ip : IpAddr) : Prop :=
  match ip with
  | V4 a b c d => Forall is_u8 [a; b; c; d]
  | V6 s0 s1 s2 s3 s4 s5 s6 s7 => Forall is_u16 [s0; s1; s2; s3; s4; s5; s6; s7]
  end.
(** The address as a number of 32 or 128 bits *)
Definition v4_bits (a b c d : Z) : Z := (((a * 256 + b) * 256 + c) * 256 + d)%Z.
Definition v6_bits (s0 s1 s2 s3 s4 s5 s6 s7 : Z) : Z :=
  (((((((s0 * 65536 + s1) * 65536 + s2) * 65536 + s3) * 65536 + s4) * 65536 + s5) * 65536 + s6) * 65536 + s7)%Z.

(** [Ipv4Addr::is_private] and the like *)
Definition is_private (a b : Z) : bool :=
  ((a =? 10) || (a =? 172) && (16 <=? b) && (b <=? 31) || (a =? 192) && (b =? 168))%Z.
Definition v4_is_loopback (a : Z) : bool := (a =? 127)%Z.
Definition is_link_local (a b : Z) : bool := ((a =? 169) && (b =? 254))%Z.
Definition is_documentation (a b c : Z) : bool :=
  ((a =? 192) && (b =? 0) && (c =? 2) || (a =? 198) && (b =? 51) && (c =? 100) || (a =? 203) && (b =? 0) && (c =? 113))%Z.
Definition is_broadcast (a b c d : Z) : bool := ((a =? 255) && (b =? 255) && (c =? 255) && (d =? 255))%Z.
(** [Ipv6Addr::is_unique_local], [is_unicast_link_local] *)
Definition is_unique_local (s0 : Z) : bool := (Z.land s0 0xfe00 =? 0xfc00)%Z.
Definition is_unicast_link_local (s0 : Z) : bool := (Z.land s0 0xffc0 =? 0xfe80)%Z.

Definition is_global_hardcoded (ip : IpAddr) : bool :=
  match ip with
  | V4 a b c d =>
     negb ((a =? 0)
       || is_private a b
       || ((a =? 100) && (Z.land b 192 =? 64))
       || v4_is_loopback a
       || is_link_local a b
       || ((a =? 192) && (b =? 0) && (c =? 0) && negb (d =? 9) && negb (d =? 10))
       || is_documentation a b c
       || ((a =? 198) && (Z.land b 0xfe =? 18))
       || ((Z.land a 240 =? 240) && negb (is_broadcast a b c d))
       || is_broadcast a b c d)%Z
  | V6 s0 s1 s2 s3 s4 s5 s6 s7 =>
     negb ((v6_bits s0 s1 s2 s3 s4 s5 s6 s7 =? 0)
       || (v6_bits s0 s1 s2 s3 s4 s5 s6 s7 =? 1)
       || ((s0 =? 0) && (s1 =? 0) && (s2 =? 0) && (s3 =? 0) && (s4 =? 0) && (s5 =? 0xffff))
       || ((s0 =? 0x64) && (s1 =? 0xff9b) && (s2 =? 1))
       || ((s0 =? 0x100) && (s1 =? 0) && (s2 =? 0) && (s3 =? 0))
       || ((s0 =? 0x2001) && (s1 <? 0x200)
           && negb ((v6_bits s0 s1 s2 s3 s4 s5 s6 s7 =? 0x20010001000000000000000000000001)
                    || (v6_bits s0 s1 s2 s3 s4 s5 s6 s7 =? 0x20010001000000000000000000000002)
                    || ((s0 =? 0x2001) && (s1 =? 3))
                    || ((s0 =? 0x2001) && (s1 =? 4) && (s2 =? 0x112))
                    || ((s0 =? 0x2001) && (0x20 <=? s1) && (s1 <=? 0x3f))))
       || (s0 =? 0x2002)
       || ((s0 =? 0x2001) && (s1 =? 0xdb8) || (s0 =? 0x3fff) && (s1 <=? 0x0fff))
       || (s0 =? 0x5f00)
       || is_unique_local s0
       || is_unicast_link_local s0)%Z
  end.

(** *** As text *)

(** [{}] and [{:x}] on an unsigned number *)
Definition dec (n : Z) : str := chars (pretty (Z.to_N n)).
Definition hex_digit (n : Z) : Z := if (n <? 10)%Z then (48 + n)%Z else (87 + n)%Z.
Fixpoint hex_fuel (fuel : nat) (n : Z) : str :=
  match fuel with
  | 0 => []
  | S fuel => if (n <? 16)%Z then [hex_digit n] else hex_fuel fuel (n / 16)%Z ++ [hex_digit (n mod 16)%Z]
  end.
Definition hex16 (n : Z) : str := hex_fuel 4 n.
Fixpoint join_str (sep : str) (l : list str) : str :=
  match l with [] => [] | [x] => x | x :: l => x ++ sep ++ join_str sep l end.
Definition v4_to_string (a b c d : Z) : str := join_str (chars ".") (dec <$> [a; b; c; d]).
(** The first longest run of zeros: where it starts, and its length. *)
Fixpoint zero_run (i cur_start cur_len start len : nat) (l : list Z) : nat * nat :=
  match l with
  | [] => (start, len)
  | s :: l =>
     if (s =? 0)%Z then
       let cur_start := if cur_len =? 0 then i else cur_start in
       let cur_len := S cur_len in
       if len <? cur_len then zero_run (S i) cur_start cur_len cur_start cur_len l else zero_run (S i) cur_start cur_len start len l
     else zero_run (S i) 0 0 start len l
  end.
Definition v6_to_string (l : list Z) : str :=
  match l with
  | [s0; s1; s2; s3; s4; s5; s6; s7] =>
     if forallb (λ s, s =? 0)%Z [s0; s1; s2; s3; s4] && (s5 =? 0xffff)%Z then
       chars "::ffff:" ++ v4_to_string (s6 / 256) (s6 mod 256) (s7 / 256) (s7 mod 256)
     else
       let (start, len) := zero_run 0 0 0 0 0 l in
       if 1 <? len then
         join_str (chars ":") (hex16 <$> take start l) ++ chars "::" ++ join_str (chars ":") (hex16 <$> drop (start + len) l)
       else join_str (chars ":") (hex16 <$> l)
  | _ => []
  end.
Definition ip_to_string (ip : IpAddr) : str :=
  match ip with
  | V4 a b c d => v4_to_string a b c d
  | V6 s0 s1 s2 s3 s4 s5 s6 s7 => v6_to_string [s0; s1; s2; s3; s4; s5; s6; s7]
  end.

(** ** The client *)

(** [url::Host] *)
Inductive Host := Domain (d : str) | HostIp (ip : IpAddr).
#[export] Instance Host_eq_dec : EqDecision Host.
Proof. solve_decision. Defined.
Inductive CustomHttpClientError :=
  | Blocked (domain : str)
  | NonGlobalIp (domain : option str) (ip : IpAddr)
  | Invalid (domain : str).
(** The errors of the client, and those of the library and the resolver. *)
Inductive HttpError :=
  | ClientError (e : CustomHttpClientError)
  | ErrMsg (msg : string)
  | LookupFailed.
Record HttpConfig := mkHttpConfig {
  http_request_block_non_global_ips : bool;
  http_request_block_regex : option str }.

Section client.
(** The [regex] and [url] crates: compiling a pattern, matching, and parsing a
    host or an address of a resource. *)
Context {Regex Url : Type} (Regex_new : str → option Regex) (is_match : Regex → str → bool).
Context (Host_parse : str → option Host) (Url_parse : str → option Url) (url_host : Url → option Host).
(** What the resolver answers, which may change from one exchange to the next *)
Context (lookup_ip : nat → str → option (list IpAddr)).

(** [COMPILED_REGEX]: the pattern that was compiled last.  A panic under the lock
    poisons it. *)
Inductive RegexCache := NoRegex | Compiled (value : str) (regex : Regex) | Poisoned.
(** The cache, and the addresses the client was given to connect to, by host. *)
Record HttpState := mkHttpState { compiled_regex : RegexCache; contacted : list (Host * list IpAddr) }.
Definition H (A : Type) : Type := HttpState → res HttpError A * HttpState.
Definition hret {A} (a : A) : H A := λ s, (Ok a, s).
Definition herr {A} (e : HttpError) : H A := λ s, (Err e, s).
Definition hbind {A B} (m : H A) (k : A → H B) : H B := λ s,
  match m s with (Ok a, s) => k a s | (Err e, s) => (Err e, s) | (Panic, s) => (Panic, s) end.
#[local] Notation "'let*' x := m 'in' k" := (hbind m (λ x, k)) (at level 10, x pattern, k at level 200).
#[local] Notation "'do*' m 'in' k" := (hbind m (λ _, k)) (at level 10, k at level 200).

Context (cfg : HttpConfig).

Definition should_block_ip (ip : IpAddr) : bool :=
  if negb (http_request_block_non_global_ips cfg) then false else negb (is_global_hardcoded ip).
Definition should_block_address_regex (domain_or_ip : str) : H bool :=
  match http_request_block_regex cfg with
  | None => hret false
  | Some block_regex => λ s,
     let recreate :=
       match Regex_new block_regex with
       | Some regex => (Ok (is_match regex domain_or_ip), mkHttpState (Compiled block_regex regex) (contacted s))
       | None => (Panic, mkHttpState Poisoned (contacted s))
       end in
     match compiled_regex s with
     | Poisoned => (Panic, s)
     | Compiled value regex => if bool_decide (value = block_regex) then (Ok (is_match regex domain_or_ip), s) else recreate
     | NoRegex => recreate
     end
  end.
(** [char::is_ascii_alphanumeric] *)
Definition is_ascii_alphanumeric (c : Z) : bool :=
  ((48 <=? c) && (c <=? 57) || (65 <=? c) && (c <=? 90) || (97 <=? c) && (c <=? 122))%Z.
Definition valid_label (label : str) : bool :=
  negb (bool_decide (label = []))
  && (utf8_len label <=? 63)
  && negb (bool_decide (head label = Some 45%Z))
  && negb (bool_decide (last label = Some 45%Z))
  && forallb (λ c, is_ascii_alphanumeric c || (c =? 45)%Z) label.
(** [str::split] *)
Definition split_str (sep : Z) (s : str) : list str := splitn (S (S (length s))) (λ c, c =? sep)%Z s.
Definition get_valid_host (host : str) : res CustomHttpClientError Host :=
  match Host_parse host with
  | None => Err (Invalid host)
  | Some (Domain domain) =>
     if 253 <? utf8_len domain then Err (Invalid domain)
     else if negb (forallb valid_label (split_str 46 domain)) then Err (Invalid domain)
     else Ok (Domain domain)
  | Some (HostIp ip) => Ok (HostIp ip)
  end.
Definition should_block_host (host : Host) : H unit :=
  let (ip, host_str) := match host with HostIp ip => (Some ip, ip_to_string ip) | Domain d => (None, d) end in
  let check_regex :=
    let* blocked := should_block_address_regex host_str in
    if blocked : bool then herr (ClientError (Blocked host_str)) else hret tt in
  match ip with
  | Some ip => if should_block_ip ip then herr (ClientError (NonGlobalIp None ip)) else check_regex
  | None => check_regex
  end.

(** *** The resolver *)

(** [is_err] on the outcome; a panic stays one. *)
Definition is_err (m : H unit) : H bool := λ s,
  match m s with (Ok _, s) => (Ok false, s) | (Err _, s) => (Ok true, s) | (Panic, s) => (Panic, s) end.
Definition pre_resolve (name : str) : H unit :=
  match get_valid_host name with
  | Ok host =>
     let* blocked := is_err (should_block_host host) in
     if blocked : bool then herr (ClientError (Blocked name)) else hret tt
  | _ => herr (ClientError (Invalid name))
  end.
Definition post_resolve (name : str) (ip : IpAddr) : H unit :=
  if should_block_ip ip then herr (ClientError (NonGlobalIp (Some name) ip)) else hret tt.
Fixpoint post_resolve_all (name : str) (l : list IpAddr) : H unit :=
  match l with [] => hret tt | ip :: l => do* post_resolve name ip in post_resolve_all name l end.
Definition resolve_domain (name : str) : H (list IpAddr) :=
  do* pre_resolve name in λ s,
  match lookup_ip (length (contacted s)) name with
  | None => (Err LookupFailed, s)
  | Some results => (do* post_resolve_all name results in hret results) s
  end.

(** *** Requests *)

Definition make_http_request (url : str) : H Url :=
  match Url_parse url with
  | None => herr (ErrMsg "Invalid URL")
  | Some url =>
     match url_host url with
     | None => herr (ErrMsg "Invalid host")
     | Some host => do* should_block_host host in hret url
     end
  end.
(** The policy of [get_reqwest_client_builder]: with the addresses requested so
    far, and the one redirected to. *)
Definition redirect_policy (previous : list Url) (url : Url) : H unit :=
  if 5 <=? length previous then herr (ErrMsg "Too many redirects")
  else match url_host url with
       | None => herr (ErrMsg "Invalid host")
       | Some host => should_block_host host
       end.

(** The library asks the resolver for the addresses of a name, takes the address
    of a literal as it is, and asks the policy at each redirect.  What comes back
    from the network redirects, or not, and not each time to the same place. *)
Context (respond : nat → Url → list IpAddr → option Url).
Definition connect (url : Url) : H (list IpAddr) :=
  match url_host url with
  | None => herr (ErrMsg "Invalid host")
  | Some host =>
     let* addrs := match host with Domain d => resolve_domain d | HostIp ip => hret [ip] end in
     λ s, (Ok addrs, mkHttpState (compiled_regex s) (contacted s ++ [(host, addrs)]))
  end.
(** [None]: out of fuel *)
Fixpoint send (fuel : nat) (previous : list Url) (url : Url) : H (option Url) :=
  match fuel with
  | 0 => hret None
  | S fuel =>
     let* addrs := connect url in
     match respond (length previous) url addrs with
     | None => hret (Some url)
     | Some next =>
        let previous := previous ++ [url] in
        do* redirect_policy previous next in send fuel previous next
     end
  end.
Definition http_get (fuel : nat) (url : str) : H (option Url) :=
  let* url := make_http_request url in send fuel [] url.
End client.
Arguments NoRegex {Regex}.
Arguments Compiled {Regex}.
Arguments Poisoned {Regex}.
Arguments mkHttpState {Regex}.
Arguments compiled_regex {Regex}.
Arguments contacted {Regex}.

(** ** Which addresses are global *)

(** A block of addresses: those that agree with the base in the first [len] of
    [w] bits. *)
Definition in_block (w : Z) (block : Z * Z) (x : Z) : bool :=
  (Z.shiftr x (w - block.2) =? Z.shiftr block.1 (w - block.2))%Z.
(** The column "globally reachable" of the registries of special-purpose addresses
    that IANA keeps (after RFC 6890); where a block is deprecated or is used for a
    transition it says neither. *)
Inductive Reach := Yes | No | NotApplicable.
Definition reaches (r : Reach) : bool := match r with Yes => true | _ => false end.
(** The two registries, the most specific blocks first *)
Definition iana_v4 : list (Z * Z * Reach) :=
  [(v4_bits 0 0 0 0, 32, No); (v4_bits 192 0 0 8, 32, No); (v4_bits 192 0 0 9, 32, Yes); (v4_bits 192 0 0 10, 32, Yes);
   (v4_bits 192 0 0 170, 32, No); (v4_bits 192 0 0 171, 32, No); (v4_bits 192 88 99 2, 32, No); (v4_bits 255 255 255 255, 32, No);
   (v4_bits 192 0 0 0, 29, No);
   (v4_bits 192 0 0 0, 24, No); (v4_bits 192 0 2 0, 24, No); (v4_bits 192 31 196 0, 24, Yes); (v4_bits 192 52 193 0, 24, Yes);
   (v4_bits 192 88 99 0, 24, NotApplicable); (v4_bits 192 175 48 0, 24, Yes); (v4_bits 198 51 100 0, 24, No);
   (v4_bits 203 0 113 0, 24, No); (v4_bits 169 254 0 0, 16, No); (v4_bits 192 168 0 0, 16, No); (v4_bits 198 18 0 0, 15, No);
   (v4_bits 172 16 0 0, 12, No); (v4_bits 100 64 0 0, 10, No); (v4_bits 0 0 0 0, 8, No); (v4_bits 10 0 0 0, 8, No);
   (v4_bits 127 0 0 0, 8, No); (v4_bits 240 0 0 0, 4, No)]%Z.
Definition iana_v6 : list (Z * Z * Reach) :=
  [(v6_bits 0 0 0 0 0 0 0 0, 128, No); (v6_bits 0 0 0 0 0 0 0 1, 128, No); (v6_bits 0x2001 1 0 0 0 0 0 1, 128, Yes);
   (v6_bits 0x2001 1 0 0 0 0 0 2, 128, Yes); (v6_bits 0x2001 1 0 0 0 0 0 3, 128, Yes);
   (v6_bits 0 0 0 0 0 0xffff 0 0, 96, No); (v6_bits 0x64 0xff9b 0 0 0 0 0 0, 96, Yes);
   (v6_bits 0x100 0 0 0 0 0 0 0, 64, No); (v6_bits 0x100 0 0 1 0 0 0 0, 64, No);
   (v6_bits 0x64 0xff9b 1 0 0 0 0 0, 48, No); (v6_bits 0x2001 2 0 0 0 0 0 0, 48, No); (v6_bits 0x2001 4 0x112 0 0 0 0 0, 48, Yes);
   (v6_bits 0x2620 0x4f 0x8000 0 0 0 0 0, 48, Yes);
   (v6_bits 0x2001 0 0 0 0 0 0 0, 32, NotApplicable); (v6_bits 0x2001 3 0 0 0 0 0 0, 32, Yes); (v6_bits 0x2001 0xdb8 0 0 0 0 0 0, 32, No);
   (v6_bits 0x2001 0x10 0 0 0 0 0 0, 28, NotApplicable); (v6_bits 0x2001 0x20 0 0 0 0 0 0, 28, Yes); (v6_bits 0x2001 0x30 0 0 0 0 0 0, 28, Yes);
   (v6_bits 0x2001 0 0 0 0 0 0 0, 23, No); (v6_bits 0x3fff 0 0 0 0 0 0 0, 20, No);
   (v6_bits 0x2002 0 0 0 0 0 0 0, 16, NotApplicable); (v6_bits 0x5f00 0 0 0 0 0 0 0, 16, No);
   (v6_bits 0xfe80 0 0 0 0 0 0 0, 10, No); (v6_bits 0xfc00 0 0 0 0 0 0 0, 7, No)]%Z.
(** The entry of the most specific block counts; an address in none is reachable. *)
Fixpoint first_of (l : list (bool * Reach)) : Reach :=
  match l with [] => Yes | (true, r) :: _ => r | (false, _) :: l => first_of l end.
Definition entry_of (w : Z) (registry : list (Z * Z * Reach)) (x : Z) : Reach :=
  first_of (zip (map (λ block, in_block w block x) (map fst registry)) (map snd registry)).
Definition globally_reachable (ip : IpAddr) : bool :=
  reaches (match ip with
           | V4 a b c d => entry_of 32%Z iana_v4 (v4_bits a b c d)
           | V6 s0 s1 s2 s3 s4 s5 s6 s7 => entry_of 128%Z iana_v6 (v6_bits s0 s1 s2 s3 s4 s5 s6 s7)
           end).
(** Where the code departs from them: the former relays of 6to4, a second block
    for discarding, and an anycast address for service registration *)
Definition departs (ip : IpAddr) : bool :=
  match ip with
  | V4 a b c d => in_block 32%Z (v4_bits 192 88 99 0, 24)%Z (v4_bits a b c d)
  | V6 s0 s1 s2 s3 s4 s5 s6 s7 =>
     existsb (λ block, in_block 128%Z block (v6_bits s0 s1 s2 s3 s4 s5 s6 s7))
       [(v6_bits 0x100 0 0 1 0 0 0 0, 64); (v6_bits 0x2001 1 0 0 0 0 0 3, 128)]%Z
  end.
(** The order of the lists *)
Lemma registries_sorted :
  Sorted (λ x y, y.1.2 ≤ x.1.2)%Z iana_v4 ∧ Sorted (λ x y, y.1.2 ≤ x.1.2)%Z iana_v6.
Proof. split; repeat (constructor; simpl; try lia). Qed.

(** Masks by inspection of all octets and segments *)
Definition octets : list Z := Z.of_nat <$> seq 0 256.
Lemma elem_of_octets x : (0 ≤ x < 256)%Z → In x octets.
Proof. intros Hx. apply list_elem_of_In, list_elem_of_fmap. exists (Z.to_nat x). split; [lia|]. apply elem_of_seq. lia. Qed.
Lemma by_inspection (f g : Z → bool) : forallb (λ x, Bool.eqb (f x) (g x)) octets = true → ∀ x, is_u8 x → f x = g x.
Proof. intros Hall x Hx. rewrite forallb_forall in Hall. by apply eqb_prop, Hall, elem_of_octets. Qed.
Lemma shared_mask b : is_u8 b → (Z.land b 192 =? 64)%Z = ((64 <=? b) && (b <? 128))%Z.
Proof. intros Hb. by apply (by_inspection (λ b, Z.land b 192 =? 64)%Z (λ b, (64 <=? b) && (b <? 128))%Z). Qed.
Lemma benchmark_mask b : is_u8 b → (Z.land b 0xfe =? 18)%Z = ((18 <=? b) && (b <? 20))%Z.
Proof. intros Hb. by apply (by_inspection (λ b, Z.land b 0xfe =? 18)%Z (λ b, (18 <=? b) && (b <? 20))%Z). Qed.
Lemma reserved_mask b : is_u8 b → (Z.land b 240 =? 240)%Z = (240 <=? b)%Z.
Proof. intros Hb. by apply (by_inspection (λ b, Z.land b 240 =? 240)%Z (λ b, 240 <=? b)%Z). Qed.
Lemma by_inspection_16 (f g : Z → bool) :
  forallb (λ h, forallb (λ l, Bool.eqb (f (h * 256 + l)%Z) (g (h * 256 + l)%Z)) octets) octets = true →
  ∀ x, is_u16 x → f x = g x.
Proof.
  unfold is_u16. intros Hall x Hx. assert (0 ≤ x / 256 < 256 ∧ 0 ≤ x mod 256 < 256 ∧ x / 256 * 256 + x mod 256 = x)%Z as (H1 & H2 & H3)
    by (Z.to_euclidean_division_equations; lia).
  rewrite forallb_forall in Hall. specialize (Hall _ (elem_of_octets _ H1)). rewrite forallb_forall in Hall.
  specialize (Hall _ (elem_of_octets _ H2)). rewrite H3 in Hall. by apply eqb_prop.
Qed.
Lemma unique_local_mask s : is_u16 s → is_unique_local s = ((0xfc00 <=? s) && (s <? 0xfe00))%Z.
Proof. apply (by_inspection_16 is_unique_local (λ s, (0xfc00 <=? s) && (s <? 0xfe00))%Z). vm_compute. reflexivity. Qed.
Lemma link_local_mask s : is_u16 s → is_unicast_link_local s = ((0xfe80 <=? s) && (s <? 0xfec0))%Z.
Proof. apply (by_inspection_16 is_unicast_link_local (λ s, (0xfe80 <=? s) && (s <? 0xfec0))%Z). vm_compute. reflexivity. Qed.

(** A block is a range of numbers. *)
Lemma in_block_range w base len x :
  (0 ≤ len ≤ w)%Z → (0 ≤ base)%Z → (base mod 2 ^ (w - len) = 0)%Z →
  in_block w (base, len) x = ((base <=? x) && (x <? base + 2 ^ (w - len)))%Z.
Proof.
  intros Hl Hb Hm. unfold in_block. simpl. rewrite !Z.shiftr_div_pow2 by lia.
  set (p := (2 ^ (w - len))%Z) in *. assert (0 < p)%Z by (unfold p; apply Z.pow_pos_nonneg; lia).
  apply Bool.eq_iff_eq_true. rewrite andb_true_iff, Z.eqb_eq, Z.leb_le, Z.ltb_lt.
  pose proof (Z.div_mod base p ltac:(lia)). pose proof (Z.div_mod x p ltac:(lia)). pose proof (Z.mod_pos_bound x p ltac:(lia)). split.
  - intros E. rewrite E in *. nia.
  - intros [Hlo Hhi]. symmetry. apply (Z.div_unique x p _ (x - base)); [|nia]. lia.
Qed.

(** The blocks as tests on octets and segments *)
Lemma cons_congr {A} (x y : A) l k : x = y → l = k → x :: l = y :: k.
Proof. by intros -> ->. Qed.
Ltac by_ranges :=
  cbn [map fst]; repeat (rewrite in_block_range by (vm_compute; intuition discriminate));
  unfold v4_bits, v6_bits, is_u8, is_u16 in *; repeat (apply cons_congr; [lia|]); reflexivity.
(** Decide a goal on tests by cases on their outcomes, one test at a time. *)
Ltac decide_test t := let b := eval vm_compute in t in lazymatch b with true => idtac | false => idtac end; change t with b.
Ltac by_tests :=
  cbn [andb orb negb xorb first_of reaches]; try reflexivity;
  match goal with
  | |- context [(?x =? ?v)%Z] => first [decide_test (x =? v)%Z|is_var x; destruct (Z.eqb_spec x v) as [->|?]]; by_tests
  | |- context [(?x <=? ?y)%Z] => first [decide_test (x <=? y)%Z|destruct (Z.leb_spec x y); try (exfalso; lia)]; by_tests
  | |- context [(?x <? ?y)%Z] => first [decide_test (x <? y)%Z|destruct (Z.ltb_spec x y); try (exfalso; lia)]; by_tests
  end.
Lemma existsb_map {A} (f : A → bool) l : existsb f l = existsb id (map f l).
Proof. induction l as [|x l IH]; [done|]. simpl. by rewrite IH. Qed.
Lemma v4_blocks a b c d :
  is_u8 a → is_u8 b → is_u8 c → is_u8 d →
  map (λ block, in_block 32 block (v4_bits a b c d)) (map fst iana_v4) =
  [(a =? 0) && (b =? 0) && (c =? 0) && (d =? 0); (a =? 192) && (b =? 0) && (c =? 0) && (d =? 8);
   (a =? 192) && (b =? 0) && (c =? 0) && (d =? 9); (a =? 192) && (b =? 0) && (c =? 0) && (d =? 10);
   (a =? 192) && (b =? 0) && (c =? 0) && (d =? 170); (a =? 192) && (b =? 0) && (c =? 0) && (d =? 171);
   (a =? 192) && (b =? 88) && (c =? 99) && (d =? 2); (a =? 255) && (b =? 255) && (c =? 255) && (d =? 255);
   (a =? 192) && (b =? 0) && (c =? 0) && (d <? 8);
   (a =? 192) && (b =? 0) && (c =? 0); (a =? 192) && (b =? 0) && (c =? 2); (a =? 192) && (b =? 31) && (c =? 196);
   (a =? 192) && (b =? 52) && (c =? 193); (a =? 192) && (b =? 88) && (c =? 99); (a =? 192) && (b =? 175) && (c =? 48);
   (a =? 198) && (b =? 51) && (c =? 100); (a =? 203) && (b =? 0) && (c =? 113); (a =? 169) && (b =? 254);
   (a =? 192) && (b =? 168); (a =? 198) && ((18 <=? b) && (b <? 20)); (a =? 172) && (16 <=? b) && (b <=? 31);
   (a =? 100) && ((64 <=? b) && (b <? 128)); a =? 0; a =? 10; a =? 127; 240 <=? a]%Z.
Proof. intros. unfold iana_v4. by_ranges. Qed.
Lemma v4_registry a b c d : ip_ok (V4 a b c d) →
  is_global_hardcoded (V4 a b c d) = xorb (departs (V4 a b c d)) (globally_reachable (V4 a b c d)).
Proof.
  intros Hok. unfold ip_ok in Hok. rewrite !Forall_cons in Hok. destruct Hok as (Ha & Hb & Hc & Hd & _).
  unfold globally_reachable, entry_of, departs, is_global_hardcoded, is_private, is_documentation, is_link_local, v4_is_loopback, is_broadcast.
  rewrite shared_mask, benchmark_mask, reserved_mask, v4_blocks by done.
  rewrite in_block_range by (vm_compute; intuition discriminate).
  replace ((v4_bits 192 88 99 0 <=? v4_bits a b c d) && (v4_bits a b c d <? v4_bits 192 88 99 0 + 2 ^ (32 - 24)))%Z
    with ((a =? 192) && (b =? 88) && (c =? 99))%Z by (unfold v4_bits, is_u8 in *; lia).
  cbn [zip map iana_v4 zip_with snd first_of]. unfold is_u8 in *. by_tests.
Qed.
Section v6.
Context (s0 s1 s2 s3 s4 s5 s6 s7 : Z).
Context (H0 : is_u16 s0) (H1 : is_u16 s1) (H2 : is_u16 s2) (H3 : is_u16 s3).
Context (H4 : is_u16 s4) (H5 : is_u16 s5) (H6 : is_u16 s6) (H7 : is_u16 s7).
Abbreviation bits := (v6_bits s0 s1 s2 s3 s4 s5 s6 s7).
Abbreviation segments x0 x1 x2 x3 x4 x5 x6 x7 :=
  ((s0 =? x0) && (s1 =? x1) && (s2 =? x2) && (s3 =? x3) && (s4 =? x4) && (s5 =? x5) && (s6 =? x6) && (s7 =? x7))%Z.
Lemma v6_blocks :
  map (λ block, in_block 128 block bits) (map fst iana_v6) =
  [segments 0 0 0 0 0 0 0 0; segments 0 0 0 0 0 0 0 1; segments 0x2001 1 0 0 0 0 0 1; segments 0x2001 1 0 0 0 0 0 2;
   segments 0x2001 1 0 0 0 0 0 3;
   (s0 =? 0) && (s1 =? 0) && (s2 =? 0) && (s3 =? 0) && (s4 =? 0) && (s5 =? 0xffff);
   (s0 =? 0x64) && (s1 =? 0xff9b) && (s2 =? 0) && (s3 =? 0) && (s4 =? 0) && (s5 =? 0);
   (s0 =? 0x100) && (s1 =? 0) && (s2 =? 0) && (s3 =? 0); (s0 =? 0x100) && (s1 =? 0) && (s2 =? 0) && (s3 =? 1);
   (s0 =? 0x64) && (s1 =? 0xff9b) && (s2 =? 1); (s0 =? 0x2001) && (s1 =? 2) && (s2 =? 0);
   (s0 =? 0x2001) && (s1 =? 4) && (s2 =? 0x112); (s0 =? 0x2620) && (s1 =? 0x4f) && (s2 =? 0x8000);
   (s0 =? 0x2001) && (s1 =? 0); (s0 =? 0x2001) && (s1 =? 3); (s0 =? 0x2001) && (s1 =? 0xdb8);
   (s0 =? 0x2001) && ((0x10 <=? s1) && (s1 <? 0x20)); (s0 =? 0x2001) && ((0x20 <=? s1) && (s1 <? 0x30));
   (s0 =? 0x2001) && ((0x30 <=? s1) && (s1 <? 0x40)); (s0 =? 0x2001) && (s1 <? 0x200); (s0 =? 0x3fff) && (s1 <=? 0x0fff);
   s0 =? 0x2002; s0 =? 0x5f00; (0xfe80 <=? s0) && (s0 <? 0xfec0); (0xfc00 <=? s0) && (s0 <? 0xfe00)]%Z.
Proof using All. unfold iana_v6. by_ranges. Qed.
Lemma v6_departs :
  map (λ block, in_block 128 block bits) [(v6_bits 0x100 0 0 1 0 0 0 0, 64); (v6_bits 0x2001 1 0 0 0 0 0 3, 128)]%Z =
  [(s0 =? 0x100) && (s1 =? 0) && (s2 =? 0) && (s3 =? 1); segments 0x2001 1 0 0 0 0 0 3]%Z.
Proof using All. by_ranges. Qed.
Lemma v6_numbers :
  (bits =? 0)%Z = segments 0 0 0 0 0 0 0 0 ∧ (bits =? 1)%Z = segments 0 0 0 0 0 0 0 1 ∧
  (bits =? 0x20010001000000000000000000000001)%Z = segments 0x2001 1 0 0 0 0 0 1 ∧
  (bits =? 0x20010001000000000000000000000002)%Z = segments 0x2001 1 0 0 0 0 0 2.
Proof using All. unfold v6_bits, is_u16 in *. split_and!; lia. Qed.
Lemma v6_registry :
  is_global_hardcoded (V6 s0 s1 s2 s3 s4 s5 s6 s7) =
  xorb (departs (V6 s0 s1 s2 s3 s4 s5 s6 s7)) (globally_reachable (V6 s0 s1 s2 s3 s4 s5 s6 s7)).
Proof using All.
  unfold globally_reachable, entry_of, departs, is_global_hardcoded. rewrite existsb_map, v6_departs, v6_blocks.
  destruct v6_numbers as (-> & -> & -> & ->). rewrite unique_local_mask, link_local_mask by done.
  cbn [zip map iana_v6 zip_with snd first_of existsb id]. unfold is_u16 in *. by_tests.
Qed.
End v6.

(** C27: the addresses that count as global, against the registries of
    special-purpose addresses of IANA.  For each address of the two versions of
    the protocol, the chain of tests on octets and segments answers whether the
    most specific block that the registries list for it is globally reachable,
    with those that are not said to be counting as not, except in three places:
    it lets through 192.88.99.0/24 and 100:0:0:1::/64, and refuses 2001:1::3. *)
Theorem is_global_registry ip : ip_ok ip → is_global_hardcoded ip = xorb (departs ip) (globally_reachable ip).
Proof.
  destruct ip; [apply v4_registry|]. unfold ip_ok. rewrite !Forall_cons. intros (? & ? & ? & ? & ? & ? & ? & ? & _). by apply v6_registry.
Qed.
(** The metadata service of a cloud provider, one of the two reachable addresses
    of a reserved block, and the three departures *)
Lemma is_global_registry_witness :
  is_global_hardcoded (V4 169 254 169 254) = xorb (departs (V4 169 254 169 254)) (globally_reachable (V4 169 254 169 254)) ∧
  is_global_hardcoded (V6 0x2001 1 0 0 0 0 0 3) = xorb (departs (V6 0x2001 1 0 0 0 0 0 3)) (globally_reachable (V6 0x2001 1 0 0 0 0 0 3)) ∧
  ((λ ip, (is_global_hardcoded ip, globally_reachable ip)) <$>
     [V4 169 254 169 254; V4 192 0 0 9; V4 192 88 99 2; V6 0x100 0 0 1 0 0 0 9; V6 0x2001 1 0 0 0 0 0 3])
  = [(false, false); (true, true); (true, false); (true, false); (false, true)].
Proof.
  split_and!; [apply is_global_registry; repeat constructor; lia|apply is_global_registry; repeat constructor; lia|vm_compute; reflexivity].
Defined.

(** ** The client's promises *)

Section client_safety.
Context {Regex Url : Type} (Regex_new : str → option Regex) (is_match : Regex → str → bool).
Context (Host_parse : str → option Host) (Url_parse : str → option Url) (url_host : Url → option Host).
Context (lookup_ip : nat → str → option (list IpAddr)).
Implicit Types (s : HttpState (Regex := Regex)).

(** The compiled pattern is the one it is kept for. *)
Definition cache_ok s : Prop :=
  match compiled_regex s with Compiled value regex => Regex_new value = Some regex | _ => True end.
(** What the answer should be, with the pattern compiled each time *)
Definition regex_answer (cfg : HttpConfig) (x : str) : res HttpError bool :=
  match http_request_block_regex cfg with
  | None => Ok false
  | Some p => match Regex_new p with Some r => Ok (is_match r x) | None => Panic end
  end.
Abbreviation check_regex cfg := (should_block_address_regex Regex_new is_match cfg).
Lemma check_regex_spec cfg x s r s' :
  cache_ok s → check_regex cfg x s = (r, s') →
  cache_ok s' ∧ contacted s' = contacted s ∧ (r = regex_answer cfg x ∨ compiled_regex s = Poisoned ∧ r = Panic ∧ s' = s) ∧
  (compiled_regex s' = Poisoned → compiled_regex s = Poisoned ∨ r = Panic).
Proof.
  unfold should_block_address_regex, regex_answer, cache_ok. destruct (http_request_block_regex cfg) as [p|]; simpl.
  2: { intros Hs [= <- <-]. split_and!; auto. }
  destruct (compiled_regex s) as [|v re|] eqn:Hc; simpl.
  - intros _. destruct (Regex_new p) as [re'|] eqn:Hp; intros [= <- <-]; simpl; split_and!; auto; done.
  - intros Hv. case_bool_decide as E; [subst v; intros [= <- <-]; rewrite Hc, Hv; split_and!; auto; done|].
    destruct (Regex_new p) as [re'|] eqn:Hp; intros [= <- <-]; simpl; split_and!; auto; done.
  - intros _ [= <- <-]. rewrite Hc. split_and!; auto.
Qed.
(** Queries one after the other, each under the settings of its time *)
Fixpoint regex_answers (l : list (HttpConfig * str)) s : list (res HttpError bool) :=
  match l with [] => [] | (cfg, x) :: l => let (r, s) := check_regex cfg x s in r :: regex_answers l s end.
Definition pattern_ok (cfg : HttpConfig) : Prop :=
  match http_request_block_regex cfg with Some p => is_Some (Regex_new p) | None => True end.
Lemma regex_answers_spec l s :
  Forall (λ q, pattern_ok q.1) l → cache_ok s → compiled_regex s ≠ Poisoned →
  regex_answers l s = (λ q, regex_answer q.1 q.2) <$> l.
Proof.
  intros Hl. revert s. induction Hl as [|[cfg x] l Hq Hl IH]; intros s Hs Hp; simpl in *; [done|].
  destruct (check_regex cfg x s) as [r s'] eqn:E. destruct (check_regex_spec _ _ _ _ _ Hs E) as (Hs' & _ & Hr & Hp').
  destruct Hr as [->|(? & _)]; [|done]. f_equal. apply IH; [done|]. intros [|Hpanic]%Hp'; [done|].
  unfold regex_answer, pattern_ok in *. destruct (http_request_block_regex cfg) as [p|]; [|done]. by destruct Hq as [re Hre]; rewrite Hre in Hpanic.
Qed.

(** Keeping the compiled pattern changes no answer.  Through any sequence of
    queries, while the settings change, the answers are those of compiling the
    pattern of the day for each query, as long as the patterns compile. *)
Theorem regex_cache_transparent l :
  Forall (λ q, pattern_ok q.1) l →
  regex_answers l (mkHttpState NoRegex []) = (λ q, regex_answer q.1 q.2) <$> l.
Proof. intros Hl. by apply regex_answers_spec. Qed.

Context (cfg : HttpConfig) (respond : nat → Url → list IpAddr → option Url).
Abbreviation block_host := (should_block_host Regex_new is_match cfg).
Abbreviation get := (http_get Regex_new is_match Host_parse Url_parse url_host lookup_ip cfg respond).
Abbreviation send_from := (send Regex_new is_match Host_parse url_host lookup_ip cfg respond).

Definition host_text (h : Host) : str := match h with Domain d => d | HostIp ip => ip_to_string ip end.
(** The host may be asked for. *)
Definition host_allowed (h : Host) : Prop :=
  regex_answer cfg (host_text h) = Ok false ∧ ∀ ip, h = HostIp ip → should_block_ip cfg ip = false.
Lemma block_host_spec h s r s' :
  cache_ok s → block_host h s = (r, s') →
  cache_ok s' ∧ contacted s' = contacted s ∧ (r = Ok tt → host_allowed h).
Proof.
  intros Hs. unfold should_block_host, host_allowed, hbind, herr, hret.
  destruct h as [d|ip]; simpl.
  - destruct (check_regex cfg d s) as [r1 s1] eqn:E. destruct (check_regex_spec _ _ _ _ _ Hs E) as (H1 & H2 & Hr & _).
    destruct r1 as [[]|x|]; intros [= <- <-]; split_and!; try done. intros _. destruct Hr as [<-|(_ & ? & _)]; [|done]. by split.
  - destruct (should_block_ip cfg ip) eqn:Hip; [by intros [= <- <-]|].
    destruct (check_regex cfg (ip_to_string ip) s) as [r1 s1] eqn:E. destruct (check_regex_spec _ _ _ _ _ Hs E) as (H1 & H2 & Hr & _).
    destruct r1 as [[]|x|]; intros [= <- <-]; split_and!; try done. intros _. destruct Hr as [<-|(_ & ? & _)]; [|done].
    split; [done|]. by intros ? [= <-].
Qed.

(** *** Addresses *)

Abbreviation resolve := (resolve_domain Regex_new is_match Host_parse lookup_ip cfg).
Lemma post_resolve_spec name l s r s' :
  post_resolve_all cfg name l s = (r, s') → s' = s ∧ (r = Ok tt → Forall (λ ip, should_block_ip cfg ip = false) l).
Proof.
  revert r s'. induction l as [|ip l IH]; intros r s'; simpl; [by intros [= <- <-]|]. unfold hbind, post_resolve, herr, hret.
  destruct (should_block_ip cfg ip) eqn:E; [by intros [= <- <-]|]. intros [-> Hr]%IH. split; [done|]. intros Hok. constructor; auto.
Qed.
Lemma pre_resolve_spec name s r s' :
  cache_ok s → pre_resolve Regex_new is_match Host_parse cfg name s = (r, s') → cache_ok s' ∧ contacted s' = contacted s.
Proof.
  intros Hs. unfold pre_resolve, hbind, is_err, herr, hret. destruct (get_valid_host _ name) as [h| |]; [|by intros [= <- <-]..].
  destruct (block_host h s) as [r1 s1] eqn:E. destruct (block_host_spec _ _ _ _ Hs E) as (H1 & H2 & _).
  destruct r1; intros [= <- <-]; done.
Qed.
Lemma resolve_spec name s r s' :
  cache_ok s → resolve name s = (r, s') →
  cache_ok s' ∧ contacted s' = contacted s ∧ ∀ l, r = Ok l → Forall (λ ip, should_block_ip cfg ip = false) l.
Proof.
  intros Hs. unfold resolve_domain, hbind at 1. destruct (pre_resolve _ _ _ _ name s) as [r1 s1] eqn:E.
  destruct (pre_resolve_spec _ _ _ _ Hs E) as (H1 & H2). destruct r1 as [[]|x|]; [|intros [= <- <-]; split_and!; done..].
  destruct (lookup_ip (length (contacted s1)) name) as [l|]; [|intros [= <- <-]; split_and!; done]. unfold hbind.
  destruct (post_resolve_all cfg name l s1) as [r2 s2] eqn:E2. apply post_resolve_spec in E2 as [-> Hall].
  destruct r2 as [[]|x|]; intros [= <- <-]; split_and!; try done. intros l' [= <-]. auto.
Qed.

(** *** Requests *)

(** What the client may have been given to connect to *)
Definition contact_ok (c : Host * list IpAddr) : Prop :=
  regex_answer cfg (host_text c.1) = Ok false ∧ Forall (λ ip, should_block_ip cfg ip = false) c.2.
Lemma connect_spec url h s r s' :
  cache_ok s → url_host url = Some h → host_allowed h →
  connect Regex_new is_match Host_parse url_host lookup_ip cfg url s = (r, s') →
  cache_ok s' ∧ ∃ new, contacted s' = contacted s ++ new ∧ Forall contact_ok new ∧ length new ≤ 1.
Proof.
  intros Hs Hh [Hre Hip] Hrun. unfold connect in Hrun. rewrite Hh in Hrun. unfold hbind in Hrun. destruct h as [d|ip].
  - destruct (resolve d s) as [r1 s1] eqn:E. destruct (resolve_spec _ _ _ _ Hs E) as (H1 & H2 & H3).
    destruct r1 as [l| |]; injection Hrun as <- <-.
    + split; [done|]. exists [(Domain d, l)]. simpl. rewrite H2. split_and!; [done| |lia]. constructor; [|done]. split; [done|]. by apply H3.
    + split; [done|]. exists []. rewrite H2, app_nil_r. split_and!; [done..|simpl; lia].
    + split; [done|]. exists []. rewrite H2, app_nil_r. split_and!; [done..|simpl; lia].
  - injection Hrun as <- <-. split; [done|]. exists [(HostIp ip, [ip])]. split_and!; [done| |simpl; lia].
    constructor; [|done]. split; [done|]. constructor; [|done]. by apply Hip.
Qed.
Lemma policy_spec previous url s r s' :
  cache_ok s → redirect_policy Regex_new is_match url_host cfg previous url s = (r, s') →
  cache_ok s' ∧ contacted s' = contacted s ∧
  (r = Ok tt → length previous < 5 ∧ ∃ h, url_host url = Some h ∧ host_allowed h).
Proof.
  intros Hs. unfold redirect_policy, herr. destruct (5 <=? length previous) eqn:E; [by intros [= <- <-]|]. apply Nat.leb_gt in E.
  destruct (url_host url) as [h|]; [|by intros [= <- <-]]. intros (H1 & H2 & H3)%block_host_spec; [|done]. split_and!; [done..|].
  intros Hr. split; [done|]. exists h. auto.
Qed.
(** Any number of redirects is followed by the rules, but there are not that many. *)
Lemma send_spec fuel : ∀ previous url h s r s',
  cache_ok s → url_host url = Some h → host_allowed h → length previous < 5 →
  send_from fuel previous url s = (r, s') →
  (∃ new, contacted s' = contacted s ++ new ∧ Forall contact_ok new ∧ length new + length previous ≤ 5) ∧
  (5 ≤ fuel + length previous → r ≠ Ok None ∧ ∀ fuel', 5 ≤ fuel' + length previous → send_from fuel' previous url s = (r, s')).
Proof.
  induction fuel as [|fuel IH]; intros previous url h s r s' Hs Hh Ha Hlen Hrun; simpl in Hrun.
  { injection Hrun as <- <-. split; [|lia]. exists []. rewrite app_nil_r. split_and!; [done..|simpl; lia]. }
  unfold hbind at 1 in Hrun. destruct (connect _ _ _ _ _ _ url s) as [r1 s1] eqn:E1.
  destruct (connect_spec _ _ _ _ _ Hs Hh Ha E1) as (Hs1 & new & Hnew & Hok & Hone).
  assert (∀ fuel', 5 ≤ fuel' + length previous → ∃ n, fuel' = S n) as Hsucc by (intros [|n] ?; [lia|eauto]).
  assert (∀ r2 s2, (r2, s2) = (r, s') → contacted s2 = contacted s1 →
    ∃ new, contacted s' = contacted s ++ new ∧ Forall contact_ok new ∧ length new + length previous ≤ 5) as Hstop.
  { intros r2 s2 [= _ <-] ->. exists new. split_and!; [done..|lia]. }
  destruct r1 as [addrs|x|]; simpl in Hrun.
  2,3: injection Hrun as <- <-; split; [by eapply Hstop|intros _; split; [done|]; intros fuel' [n ->]%Hsucc; simpl; unfold hbind; by rewrite E1].
  destruct (respond (length previous) url addrs) as [next|] eqn:Hresp.
  2: { injection Hrun as <- <-. split; [by eapply Hstop|]. intros _. split; [done|]. intros fuel' [n ->]%Hsucc. simpl. unfold hbind.
       by rewrite E1, Hresp. }
  unfold hbind in Hrun. destruct (redirect_policy _ _ _ _ _ next s1) as [r2 s2] eqn:E2.
  destruct (policy_spec _ _ _ _ _ Hs1 E2) as (Hs2 & Hc2 & Hr2).
  destruct r2 as [[]|x|].
  2,3: injection Hrun as <- <-; split; [by eapply Hstop|intros _; split; [done|]; intros fuel' [n ->]%Hsucc; simpl; unfold hbind; by rewrite E1, Hresp, E2].
  destruct (Hr2 eq_refl) as (Hlt & h2 & Hh2 & Ha2). destruct (IH _ _ _ _ _ _ Hs2 Hh2 Ha2 Hlt Hrun) as [(new2 & Hnew2 & Hok2 & Hlen2) Hfuel].
  rewrite length_app in *. simpl in *. split.
  - exists (new ++ new2). rewrite Hnew2, Hc2, Hnew, app_assoc, length_app. split_and!; [done|by apply Forall_app|lia].
  - intros Henough. destruct (Hfuel ltac:(lia)) as [Hne Hall]. split; [done|]. intros fuel' Hf. destruct (Hsucc _ Hf) as [n ->]. simpl.
    unfold hbind. rewrite E1, Hresp, E2. apply Hall. lia.
Qed.

Lemma get_spec fuel url s r s' :
  cache_ok s → get fuel url s = (r, s') →
  (∃ new, contacted s' = contacted s ++ new ∧ Forall contact_ok new ∧ length new ≤ 5) ∧
  (5 ≤ fuel → r ≠ Ok None ∧ ∀ fuel', 5 ≤ fuel' → get fuel' url s = (r, s')).
Proof.
  intros Hs. unfold http_get, hbind, make_http_request, herr.
  assert (∀ r1 s1, contacted s1 = contacted s → (∀ u, r1 ≠ Ok u) → (r1, s1) = (r, s') →
    ∃ new, contacted s' = contacted s ++ new ∧ Forall contact_ok new ∧ length new ≤ 5) as Hstop.
  { intros r1 s1 Hc _ [= _ <-]. exists []. rewrite app_nil_r. split_and!; [done..|simpl; lia]. }
  destruct (Url_parse url) as [u|]; [|intros [= <- <-]; split; [by apply (Hstop (Err (ErrMsg "Invalid URL")) s)|done]].
  destruct (url_host u) as [h|] eqn:Hh; [|intros [= <- <-]; split; [by apply (Hstop (Err (ErrMsg "Invalid host")) s)|done]].
  unfold hbind, hret. destruct (block_host h s) as [r1 s1] eqn:E1. destruct (block_host_spec _ _ _ _ Hs E1) as (Hs1 & Hc1 & Hr1).
  destruct r1 as [[]|x|].
  - intros Hrun. destruct (send_spec fuel [] u h s1 r s' Hs1 Hh (Hr1 eq_refl) ltac:(simpl; lia) Hrun) as [(new & Hn & Hok & Hl) Hf].
    simpl in *. rewrite Hc1 in Hn. split; [exists new; split_and!; [done..|lia]|]. intros Henough. destruct Hf as [Hne Hall]; [lia|].
    split; [done|]. intros fuel' Hf'. apply Hall. lia.
  - intros [= <- <-]. split; [by apply (Hstop (Err x) s1)|done].
  - intros [= <- <-]. split; [by apply (Hstop Panic s1)|done].
Qed.

(** C25: no request leaves the allowed part of the network.  Whatever address a
    user names, wherever names resolve to and wherever servers redirect to: if
    addresses that are not global are refused, each address the client is given
    to connect to is global, those of literals and those the resolver found
    alike; and no host it asks for, in the first place or after a redirect,
    matches the blocked pattern. *)
Theorem requests_stay_global fuel url r s' h addrs :
  get fuel url (mkHttpState NoRegex []) = (r, s') → (h, addrs) ∈ contacted s' →
  (http_request_block_non_global_ips cfg = true → Forall (λ ip, is_global_hardcoded ip = true) addrs) ∧
  (∀ p re, http_request_block_regex cfg = Some p → Regex_new p = Some re → is_match re (host_text h) = false).
Proof.
  intros Hrun Hin. destruct (get_spec _ _ _ _ _ (I : cache_ok (mkHttpState NoRegex [])) Hrun) as [(new & Hnew & Hok & _) _].
  simpl in Hnew. rewrite Hnew in Hin. rewrite Forall_forall in Hok. destruct (Hok _ Hin) as [Hre Hips]. split.
  - intros Hblock. eapply Forall_impl; [exact Hips|]. intros ip. unfold should_block_ip. rewrite Hblock. apply negb_false_iff.
  - intros p re Hp Hc. unfold regex_answer in Hre. rewrite Hp, Hc in Hre. by injection Hre.
Qed.

(** C26: redirects come to an end.  Whatever servers answer, a request ends
    within five exchanges: with fuel five or more the outcome is the same and
    complete, and at most five hosts have been asked. *)
Theorem redirects_end fuel url s r s' :
  cache_ok s → 5 ≤ fuel → get fuel url s = (r, s') →
  r ≠ Ok None ∧ get 5 url s = (r, s') ∧ length (contacted s') ≤ length (contacted s) + 5.
Proof.
  intros Hs Hf Hrun. destruct (get_spec _ _ _ _ _ Hs Hrun) as [(new & Hn & _ & Hl) Hfuel]. destruct (Hfuel Hf) as [Hne Hall].
  split_and!; [done|by apply Hall|]. rewrite Hn, length_app. lia.
Qed.
End client_safety.

(** ** Witnesses *)

Module ToyHttp.
(** Patterns match themselves; one does not compile.  Addresses of resources are
    hosts. *)
Definition toy_regex (p : str) : option str := if bool_decide (p = chars "(") then None else Some p.
Definition toy_match (r x : str) : bool := bool_decide (r = x).
Definition toy_host (s : str) : option Host :=
  if bool_decide (s = chars "2130706433") then Some (HostIp (V4 127 0 0 1)) else Some (Domain s).
Definition toy_lookup (n : nat) (d : str) : option (list IpAddr) :=
  if bool_decide (d = chars "inside.example") then Some [V4 8 8 8 8; V4 10 0 0 1]
  else if bool_decide (d = chars "rebound.example") then Some [if n =? 0 then V4 8 8 8 8 else V4 127 0 0 1] else Some [V4 8 8 8 8].
Definition toy_cfg : HttpConfig := mkHttpConfig true (Some (chars "bad.example")).
(** One server redirects to itself, so does one whose name then means another
    address, and a third one redirects inside. *)
Definition toy_respond (_ : nat) (u : Host) (_ : list IpAddr) : option Host :=
  match u with
  | Domain d => if bool_decide (d = chars "loop.example") || bool_decide (d = chars "rebound.example") then Some u
                else if bool_decide (d = chars "out.example") then Some (Domain (chars "inside.example")) else None
  | HostIp _ => None
  end.
Abbreviation toy_get := (http_get toy_regex toy_match toy_host toy_host Some toy_lookup toy_cfg toy_respond).
End ToyHttp.
Import ToyHttp.

Lemma regex_cache_transparent_witness :
  regex_answers toy_regex toy_match
    [(toy_cfg, chars "bad.example"); (mkHttpConfig true (Some (chars "x")), chars "bad.example"); (toy_cfg, chars "bad.example")]
    (mkHttpState NoRegex []) = [Ok true; Ok false; Ok true].
Proof.
  etrans; [apply (regex_cache_transparent toy_regex toy_match); repeat constructor; eexists; vm_compute; reflexivity|]. vm_compute. reflexivity.
Defined.
(** A name that means a public address first and the server itself after the
    redirect *)
Example rebinding_refused :
  (toy_get 5 (chars "rebound.example") (mkHttpState NoRegex [])).1
    = Err (ClientError (NonGlobalIp (Some (chars "rebound.example")) (V4 127 0 0 1))).
Proof. vm_compute. reflexivity. Qed.
(** The first exchange is with a public server, the redirect is refused. *)
Lemma requests_stay_global_witness :
  ∃ s', toy_get 5 (chars "out.example") (mkHttpState NoRegex [])
          = (Err (ClientError (NonGlobalIp (Some (chars "inside.example")) (V4 10 0 0 1))), s') ∧
    (http_request_block_non_global_ips toy_cfg = true → Forall (λ ip, is_global_hardcoded ip = true) [V4 8 8 8 8]) ∧
    (∀ p re, http_request_block_regex toy_cfg = Some p → toy_regex p = Some re →
       toy_match re (host_text (Domain (chars "out.example"))) = false).
Proof.
  eexists. split; [vm_compute; reflexivity|].
  eapply (requests_stay_global toy_regex toy_match toy_host toy_host Some toy_lookup toy_cfg toy_respond 5 (chars "out.example"));
    [vm_compute; reflexivity|]. left.
Defined.
Lemma redirects_end_witness :
  ∃ r s', toy_get 9 (chars "loop.example") (mkHttpState NoRegex []) = (r, s') ∧ r ≠ Ok None ∧
    toy_get 5 (chars "loop.example") (mkHttpState NoRegex []) = (r, s') ∧ length (contacted s') ≤ 0 + 5.
Proof.
  do 2 eexists. split; [vm_compute; reflexivity|].
  eapply (redirects_end toy_regex toy_match toy_host toy_host Some toy_lookup toy_cfg toy_respond 9 (chars "loop.example") (mkHttpState NoRegex []));
    [exact I|lia|vm_compute; reflexivity].
Defined.
