(* ===== verification/Notifications.v ===== *)
(** * Notifications: messages

    What clients are told when their data change: [server/src/api/notifications.rs]
    builds the messages for open websockets, [server/src/api/push.rs] those for the
    push relay.  The connections themselves are in [Hub]. *)

From stdpp Require Import base strings numbers pretty gmap list.
From S2P Require Import Prelude Totp Store JsonUtil Queries Users.

(** ** Values and frames *)

(** [rmpv::Value], what the server uses of it *)
Inductive Value :=
  | VNil
  | VInt (n : Z)
  | VString (s : string)
  | VArray (l : list Value)
  | VMap (l : list (Value * Value))
  | VExt (ty : Z) (data : bytes).

Inductive UpdateType :=
  | SyncCipherUpdate | SyncCipherCreate | SyncLoginDelete | SyncFolderDelete | SyncCiphers
  | SyncVault | SyncOrgKeys | SyncFolderCreate | SyncFolderUpdate | SyncSettings | LogOut
  | SyncSendCreate | SyncSendUpdate | SyncSendDelete | AuthRequestUpdate | AuthRequestResponse | NoUpdate.
Definition UpdateType_to_i32 (ut : UpdateType) : Z :=
  match ut with
  | SyncCipherUpdate => 0 | SyncCipherCreate => 1 | SyncLoginDelete => 2 | SyncFolderDelete => 3 | SyncCiphers => 4
  | SyncVault => 5 | SyncOrgKeys => 6 | SyncFolderCreate => 7 | SyncFolderUpdate => 8 | SyncSettings => 10 | LogOut => 11
  | SyncSendCreate => 12 | SyncSendUpdate => 13 | SyncSendDelete => 14 | AuthRequestUpdate => 15 | AuthRequestResponse => 16
  | NoUpdate => 100
  end.

(** The size in groups of seven bits, the lowest first; all but the last group
    are marked.  [None]: out of fuel. *)
Fixpoint len_loop (fuel : nat) (size : Z) (len_buf : bytes) : option bytes :=
  match fuel with
  | 0 => None
  | S fuel =>
     let size_part := Z.land size 0x7f in
     let size := Z.shiftr size 7 in
     let size_part := if (0 <? size)%Z then Z.lor size_part 0x80 else size_part in
     let len_buf := len_buf ++ [size_part] in
     if (size =? 0)%Z then Some len_buf else len_loop fuel size len_buf
  end.
(** Enough for 64 bits *)
Definition LEN_FUEL : nat := 10.

(** [i64], by wrapping *)
Definition i64_wrap (x : Z) : Z := ((x + 2 ^ 63) mod 2 ^ 64 - 2 ^ 63)%Z.
(** [timestamp_subsec_nanos] *)
Definition subsec_nanos (t : Z) : Z := (t mod NANOS)%Z.
Definition serialize_date (date : Z) : Value :=
  let seconds := timestamp date in
  let nanos := subsec_nanos date in
  let stamp := Z.lor (i64_wrap (Z.shiftl nanos 34)) seconds in
  VExt (-1) (to_be_bytes stamp).
Definition convert_option (option : option string) : Value := from_option VString VNil option.

Definition RECORD_SEPARATOR : Z := 0x1e.
Definition INITIAL_RESPONSE : bytes := [0x7b; 0x7d; RECORD_SEPARATOR]%Z.
Record InitialMessage := mkInitialMessage { im_protocol : string; im_version : Z }.
#[export] Instance InitialMessage_eq_dec : EqDecision InitialMessage.
Proof. solve_decision. Defined.
Definition INITIAL_MESSAGE : InitialMessage := mkInitialMessage "messagepack" 1.

(** What a notification leads to: a message for the open connections of a user,
    or one for the push relay. *)
Inductive Notice :=
  | ToUser (user_id : string) (data : bytes)
  | ToRelay (notification_data : Json).

Section messages.
(** The encoder of values *)
Context (write_value : Value → bytes).
(** [enable_websocket] of the settings *)
Context (enable_websocket : bool).

Definition serialize (val : Value) : bytes :=
  let buf := write_value val in
  default [] (len_loop LEN_FUEL (Z.of_nat (length buf)) []) ++ buf.

Definition create_update (payload : list (Value * Value)) (ut : UpdateType) (acting_device_id : option string) : bytes :=
  serialize (VArray [VInt 1; VMap []; VNil; VString "ReceiveMessage";
    VArray [VMap [(VString "ContextId", convert_option acting_device_id);
                  (VString "Type", VInt (UpdateType_to_i32 ut));
                  (VString "Payload", VMap payload)]]]).
Definition create_anonymous_update (payload : list (Value * Value)) (ut : UpdateType) (user_id : string) : bytes :=
  serialize (VArray [VInt 1; VMap []; VNil; VString "AuthRequestResponseRecieved";
    VArray [VMap [(VString "Type", VInt (UpdateType_to_i32 ut));
                  (VString "Payload", VMap payload);
                  (VString "UserId", VString user_id)]]]).
Definition create_ping : bytes := serialize (VArray [VInt 6]).

(** ** The push relay *)

(** The parts that all notifications have *)
Definition push_message (user_id : string) (device_id identifier : option string) (ut : UpdateType) (payload : list (string * Json)) : Json :=
  JObj [("userId", JStr user_id); ("organizationId", JNull); ("deviceId", json_opt JStr device_id);
        ("identifier", json_opt JStr identifier); ("type", JNum (UpdateType_to_i32 ut)); ("payload", JObj payload);
        ("clientType", JNull); ("installationId", JNull)].
(** Failures are logged, no more. *)
Definition send_to_push_relay (notification_data : Json) : M (list Notice) :=
  let* enabled := conf push_enabled in
  mret (if enabled : bool then [ToRelay notification_data] else []).
(** Nothing is sent to users without a device that takes it. *)
Definition to_push_devices (user_id : string) (message : Env → Json) : M (list Notice) :=
  let* has := Device_check_user_has_push_device user_id in
  if has : bool then let* message := ask message in send_to_push_relay message else mret [].
Definition push_cipher_update (ut : UpdateType) (cipher : Cipher) (device : Device) : M (list Notice) :=
  match ci_organization_uuid cipher, ci_user_uuid cipher with
  | Some _, _ => mret []
  | None, None => mret []
  | None, Some user_id =>
     to_push_devices user_id (λ e, push_message user_id (d_push_uuid device) (Some (d_uuid device)) ut
       [("id", JStr (ci_uuid cipher)); ("userId", json_opt JStr (ci_user_uuid cipher)); ("organizationId", JNull);
        ("collectionIds", JNull); ("revisionDate", JStr (format_date e (ci_updated_at cipher)))])
  end.
Definition push_logout (user : User) (acting_device : option Device) : M (list Notice) :=
  to_push_devices (u_uuid user) (λ e, push_message (u_uuid user) (acting_device ≫= d_push_uuid) (d_uuid <$> acting_device) LogOut
    [("userId", JStr (u_uuid user)); ("date", JStr (format_date e (u_updated_at user)))]).
Definition push_user_update (ut : UpdateType) (user : User) (push_uuid : option string) : M (list Notice) :=
  to_push_devices (u_uuid user) (λ e, push_message (u_uuid user) push_uuid None ut
    [("userId", JStr (u_uuid user)); ("date", JStr (format_date e (u_updated_at user)))]).
Definition push_folder_update (ut : UpdateType) (folder : Folder) (device : Device) : M (list Notice) :=
  to_push_devices (f_user_uuid folder) (λ e, push_message (f_user_uuid folder) (d_push_uuid device) (Some (d_uuid device)) ut
    [("id", JStr (f_uuid folder)); ("userId", JStr (f_user_uuid folder)); ("revisionDate", JStr (format_date e (f_updated_at folder)))]).
Definition push_send_update (ut : UpdateType) (send : Send) (device : Device) : M (list Notice) :=
  match s_user_uuid send with
  | None => mret []
  | Some s =>
     to_push_devices s (λ e, push_message s (d_push_uuid device) (Some (d_uuid device)) ut
       [("id", JStr (s_uuid send)); ("userId", json_opt JStr (s_user_uuid send));
        ("revisionDate", JStr (format_date e (s_revision_date send)))])
  end.
Definition push_auth_request (user_id auth_request_id : string) (device : Device) : M (list Notice) :=
  to_push_devices user_id (λ _, push_message user_id (d_push_uuid device) (Some (d_uuid device)) AuthRequestUpdate
    [("userId", JStr user_id); ("id", JStr auth_request_id)]).
Definition push_auth_response (user_id auth_request_id : string) (device : Device) : M (list Notice) :=
  to_push_devices user_id (λ _, push_message user_id (d_push_uuid device) (Some (d_uuid device)) AuthRequestResponse
    [("userId", JStr user_id); ("id", JStr auth_request_id)]).

(** ** Notifications *)

(** To open connections, if there are any, and to the relay, if it is used *)
Definition notify (users : list string) (data : bytes) (push : M (list Notice)) : M (list Notice) :=
  let* enabled := conf push_enabled in
  if negb enable_websocket && negb enabled then mret []
  else
    let ws := if enable_websocket then (λ u, ToUser u data) <$> users else [] in
    let* relay := if (enabled : bool) then push else mret [] in
    mret (ws ++ relay).
Definition send_user_update (ut : UpdateType) (user : User) (push_uuid : option string) : M (list Notice) :=
  notify [u_uuid user]
    (create_update [(VString "UserId", VString (u_uuid user)); (VString "Date", serialize_date (u_updated_at user))] ut None)
    (push_user_update ut user push_uuid).
Definition send_logout (user : User) (acting_device : option Device) : M (list Notice) :=
  notify [u_uuid user]
    (create_update [(VString "UserId", VString (u_uuid user)); (VString "Date", serialize_date (u_updated_at user))] LogOut
       (d_uuid <$> acting_device))
    (push_logout user acting_device).
Definition send_folder_update (ut : UpdateType) (folder : Folder) (device : Device) : M (list Notice) :=
  notify [f_user_uuid folder]
    (create_update [(VString "Id", VString (f_uuid folder)); (VString "UserId", VString (f_user_uuid folder));
                    (VString "RevisionDate", serialize_date (f_updated_at folder))] ut (Some (d_uuid device)))
    (push_folder_update ut folder device).
(** A message about collections names no user and has the date of today, or
    clients would not fetch the change. *)
Definition send_cipher_update (ut : UpdateType) (cipher : Cipher) (user_ids : list string) (device : Device)
    (collection_uuids : option (list string)) : M (list Notice) :=
  let* t := ask now in
  let '(user_id, collections, revision_date) :=
    match collection_uuids with
    | Some l => (VNil, VArray (VString <$> l), serialize_date t)
    | None => (convert_option (ci_user_uuid cipher), VNil, serialize_date (ci_updated_at cipher))
    end in
  notify user_ids
    (create_update [(VString "Id", VString (ci_uuid cipher)); (VString "UserId", user_id);
                    (VString "OrganizationId", convert_option (ci_organization_uuid cipher));
                    (VString "CollectionIds", collections); (VString "RevisionDate", revision_date)] ut (Some (d_uuid device)))
    (if length user_ids =? 1 then push_cipher_update ut cipher device else mret []).
Definition send_send_update (ut : UpdateType) (send : Send) (user_ids : list string) (device : Device) : M (list Notice) :=
  notify user_ids
    (create_update [(VString "Id", VString (s_uuid send)); (VString "UserId", convert_option (s_user_uuid send));
                    (VString "RevisionDate", serialize_date (s_revision_date send))] ut None)
    (if length user_ids =? 1 then push_send_update ut send device else mret []).
Definition send_auth_request (user_id auth_request_uuid : string) (device : Device) : M (list Notice) :=
  notify [user_id]
    (create_update [(VString "Id", VString auth_request_uuid); (VString "UserId", VString user_id)] AuthRequestUpdate (Some (d_uuid device)))
    (push_auth_request user_id auth_request_uuid device).
Definition send_auth_response (user_id auth_request_id : string) (device : Device) : M (list Notice) :=
  notify [user_id]
    (create_update [(VString "Id", VString auth_request_id); (VString "UserId", VString user_id)] AuthRequestResponse (Some (d_uuid device)))
    (push_auth_response user_id auth_request_id device).
End messages.

(** The token for the relay is fetched again when half its time is over. *)
Record AuthPushToken := mkAuthPushToken { ap_access_token : string; ap_expires_in : Z }.
Record LocalAuthPushToken := mkLocalAuthPushToken { lp_access_token : string; lp_valid_until : Z }.
(** [fetch]: what the identity server answers, if it does *)
Definition get_auth_api_token (fetch : option AuthPushToken) (t : Z) (api_token : LocalAuthPushToken)
    : option string * LocalAuthPushToken :=
  if (0 <? Z.max 0 (lp_valid_until api_token - t) / NANOS)%Z then (Some (lp_access_token api_token), api_token)
  else match fetch with
       | None => (None, api_token)
       | Some json_pushtoken =>
          let half_expires_in := Z.max (Z.quot (ap_expires_in json_pushtoken) 2) 0 in
          let api_token := mkLocalAuthPushToken (ap_access_token json_pushtoken) (t + seconds half_expires_in) in
          (Some (lp_access_token api_token), api_token)
       end.

(** ** Frames are read back *)

(** The size and the message behind it, as clients read them *)
Fixpoint read_size (l : bytes) : option (Z * bytes) :=
  match l with
  | [] => None
  | b :: l => if (b <? 128)%Z then Some (b, l) else (λ '(n, l), (b - 128 + 128 * n, l)%Z) <$> read_size l
  end.
Definition read_frame (l : bytes) : option (bytes * bytes) :=
  '(n, l) ← read_size l;
  if (n <=? Z.of_nat (length l))%Z then Some (take (Z.to_nat n) l, drop (Z.to_nat n) l) else None.

Lemma lor_128 x : (0 ≤ x < 128)%Z → Z.lor x 128 = (x + 128)%Z.
Proof.
  intros Hx. assert (Forall (λ x, Z.lor x 128 = x + 128)%Z (Z.of_nat <$> seq 0 128)) as Hall by (vm_compute; repeat constructor).
  rewrite Forall_forall in Hall. apply Hall, list_elem_of_fmap. exists (Z.to_nat x). split; [lia|]. apply elem_of_seq. lia.
Qed.
Lemma len_loop_spec fuel : ∀ size buf,
  (0 ≤ size < 2 ^ (7 * Z.of_nat fuel))%Z → 0 < fuel →
  ∃ pre, len_loop fuel size buf = Some (buf ++ pre) ∧ length pre ≤ fuel ∧ bytes_ok pre ∧ ∀ rest, read_size (pre ++ rest) = Some (size, rest).
Proof.
  induction fuel as [|fuel IH]; intros size buf Hsize Hf; [lia|]. simpl len_loop.
  change (Z.land size 127) with (Z.land size (Z.ones 7)). rewrite (Z.land_ones size 7), (Z.shiftr_div_pow2 size 7) by lia. change (2 ^ 7)%Z with 128%Z.
  pose proof (Z.mod_pos_bound size 128 ltac:(lia)) as Hmod. pose proof (Z.div_mod size 128 ltac:(lia)) as Hdiv.
  destruct (size / 128 =? 0)%Z eqn:E.
  - apply Z.eqb_eq in E. rewrite E. simpl. exists [(size mod 128)%Z]. split_and!; [done|simpl; lia|constructor; [|done]; unfold is_u8; lia|].
    intros rest. simpl. destruct (size mod 128 <? 128)%Z eqn:E1; [|lia]. do 2 f_equal. lia.
  - apply Z.eqb_neq in E. assert (0 ≤ size / 128)%Z as H0 by (apply Z.div_pos; lia).
    destruct (0 <? size / 128)%Z eqn:E1; [|lia]. rewrite lor_128 by lia.
    assert (size / 128 < 2 ^ (7 * Z.of_nat fuel))%Z as Hlt.
    { apply Z.div_lt_upper_bound; [lia|]. replace (7 * Z.of_nat (S fuel))%Z with (7 + 7 * Z.of_nat fuel)%Z in Hsize by lia.
      rewrite Z.pow_add_r in Hsize by lia. lia. }
    destruct fuel as [|fuel]; [simpl in Hlt; lia|].
    destruct (IH (size / 128)%Z (buf ++ [(size mod 128 + 128)%Z])) as (pre & Hrun & Hlen & Hok & Hread); [lia|lia|].
    exists ((size mod 128 + 128)%Z :: pre). rewrite Hrun, <- app_assoc. split_and!; [done|simpl; lia|constructor; [unfold is_u8; lia|done]|].
    intros rest. simpl. destruct (size mod 128 + 128 <? 128)%Z eqn:E2; [lia|]. rewrite Hread. simpl. do 2 f_equal. lia.
Qed.

(** C30: framing terminates and is read back.  For every message whose size fits
    64 bits, the loop that writes the size ends within its ten rounds, and a
    client finds in the stream exactly the encoded message, followed by the rest:
    messages that follow each other do not run into one another. *)
Theorem serialize_framed write_value val rest :
  (Z.of_nat (length (write_value val)) < 2 ^ 64)%Z →
  (∃ prefix, len_loop LEN_FUEL (Z.of_nat (length (write_value val))) [] = Some prefix ∧ length prefix ≤ 10 ∧ bytes_ok prefix ∧
     serialize write_value val = prefix ++ write_value val) ∧
  read_frame (serialize write_value val ++ rest) = Some (write_value val, rest).
Proof.
  intros Hsize. destruct (len_loop_spec LEN_FUEL (Z.of_nat (length (write_value val))) []) as (pre & Hrun & Hlen & Hok & Hread);
    [split; [lia|]; etrans; [exact Hsize|]; done|unfold LEN_FUEL; lia|]. simpl app in Hrun.
  assert (serialize write_value val = pre ++ write_value val) as E by (unfold serialize; by rewrite Hrun).
  split; [by exists pre|]. rewrite E, <- app_assoc. unfold read_frame. rewrite Hread. simpl.
  rewrite length_app, Nat2Z.id, (proj2 (Z.leb_le _ _)) by lia. by rewrite take_app_length, drop_app_length.
Qed.
(** *** Dates *)

(** The timestamp format with 30 bits of nanoseconds above 34 bits of seconds *)
Definition read_timestamp (v : Value) : option (Z * Z) :=
  match v with
  | VExt ty data => if ((ty =? -1)%Z && (length data =? 8)) then Some (Z.shiftr (be_value 256 data) 34, Z.land (be_value 256 data) (Z.ones 34)) else None
  | _ => None
  end.
Lemma be_value_to_be x : be_value 256 (to_be_bytes x) = (x mod 2 ^ 64)%Z.
Proof.
  unfold be_value, to_be_bytes, as_u8. cbn [seq fmap list_fmap foldl]. rewrite !Z.shiftr_div_pow2 by lia.
  repeat match goal with |- context [(2 ^ ?e)%Z] => let v := eval vm_compute in (2 ^ e)%Z in change (2 ^ e)%Z with v end.
  Z.to_euclidean_division_equations. lia.
Qed.
Lemma i64_wrap_mod x : (i64_wrap x mod 2 ^ 64 = x mod 2 ^ 64)%Z.
Proof. unfold i64_wrap. Z.to_euclidean_division_equations. lia. Qed.

(** Dates are read back.  A date from 1970 until the seconds need more than
    34 bits (in the year 2514) is found again by the reader of timestamps, to the
    nanosecond, although the shifted nanoseconds overflow the signed number. *)
Theorem date_read_back date :
  (0 ≤ timestamp date < 2 ^ 34)%Z → read_timestamp (serialize_date date) = Some (subsec_nanos date, timestamp date).
Proof.
  intros Ht. assert (0 ≤ subsec_nanos date < 2 ^ 30)%Z as Hn.
  { unfold subsec_nanos, NANOS. pose proof (Z.mod_pos_bound date 1000000000 ltac:(lia)). lia. }
  unfold read_timestamp, serialize_date. set (n := subsec_nanos date) in *. set (s := timestamp date) in *.
  change ((-1 =? -1)%Z && (length (to_be_bytes (Z.lor (i64_wrap (Z.shiftl n 34)) s)) =? 8)) with true. cbn [andb].
  assert (be_value 256 (to_be_bytes (Z.lor (i64_wrap (Z.shiftl n 34)) s)) = Z.shiftl n 34 + s)%Z as ->.
  { rewrite be_value_to_be, <- Z.land_ones, Z.land_lor_distr_l, !Z.land_ones, i64_wrap_mod by lia.
    rewrite (Z.mod_small s) by lia. rewrite (Z.mod_small (Z.shiftl n 34)) by (rewrite Z.shiftl_mul_pow2; lia).
    rewrite lor_shift_add by lia. by rewrite Z.shiftl_mul_pow2 by lia. }
  rewrite Z.land_ones, Z.shiftr_div_pow2, Z.shiftl_mul_pow2 by lia. do 2 f_equal; Z.to_euclidean_division_equations; lia.
Qed.
(** A token for the relay is used for at most half the time it was issued for. *)
Lemma push_token_in_time f t0 t fetch a tok' :
  let expiry := (t0 + seconds (Z.max (Z.quot (ap_expires_in f) 2) 0))%Z in
  get_auth_api_token fetch t (mkLocalAuthPushToken (ap_access_token f) expiry) = (Some a, tok') →
  (a = ap_access_token f ∧ (t < expiry)%Z) ∨ ∃ g, fetch = Some g ∧ a = ap_access_token g.
Proof.
  intros expiry. unfold get_auth_api_token. simpl. destruct (0 <? _)%Z eqn:E.
  - intros [= <- _]. left. split; [done|]. apply Z.ltb_lt in E. unfold NANOS in E. Z.to_euclidean_division_equations. lia.
  - destruct fetch as [g|]; [|done]. intros [= <- _]. right. by exists g.
Qed.

(** ** Witnesses *)

Module ToyMessages.
(** An encoder that keeps strings apart *)
Fixpoint toy_write (v : Value) : bytes :=
  match v with
  | VNil => [0]%Z
  | VInt n => [1; n mod 256]%Z
  | VString s => 2%Z :: chars s
  | VArray l => 3%Z :: concat (map toy_write l)
  | VMap l => [4]%Z
  | VExt _ d => 5%Z :: d
  end.
End ToyMessages.
Import ToyMessages.
Lemma serialize_framed_witness :
  serialize toy_write (VString "hello") ++ create_ping toy_write = 6%Z :: 2%Z :: chars "hello" ++ create_ping toy_write ∧
  read_frame (serialize toy_write (VString "hello") ++ create_ping toy_write) = Some (2%Z :: chars "hello", create_ping toy_write).
Proof. split; [reflexivity|]. apply (serialize_framed toy_write (VString "hello") (create_ping toy_write)). vm_compute. done. Defined.
Lemma date_read_back_witness :
  read_timestamp (serialize_date (seconds 1700000000 + 999999999)) = Some (999999999, 1700000000)%Z.
Proof. apply (date_read_back (seconds 1700000000 + 999999999)). vm_compute. split; [discriminate|reflexivity]. Defined.
