(* ===== verification/Hub.v ===== *)
(** * Notifications: connections

    The websockets of [server/src/api/notifications.rs]: who is connected, what
    happens to the messages of clients, and how messages for a user reach the
    connections, while these come and go.  A call of [send_update] takes the
    list of connections as it is and then waits for each channel in turn, so its
    steps interleave with everything else. *)

From stdpp Require Import base strings numbers gmap list relations.
From S2P Require Import Prelude Store Login Notifications.

(** ** Connections *)

(** A channel of bounded size.  When the connection ends, its receiver goes. *)
Definition CAPACITY : nat := 100.
Record Channel := mkChannel { queue : list bytes; receiver : bool }.
(** [WebSocketUsers], [AnonymousWebSocketSubscriptions]; a connection is known by
    its [entry_uuid], or its sender. *)
Record HubState := mkHub {
  ws_users : gmap string (list nat);
  ws_anonymous : gmap string nat;
  channels : gmap nat Channel }.

(** [Message] of a websocket *)
Inductive Message := Text (s : string) | Binary (data : bytes) | Ping (data : bytes) | Pong (data : bytes) | Close.

Section hub.
(** The library of web tokens, and the parser of the first message *)
Context (decode_login : string → option LoginJwtClaims) (parse_initial : str → option InitialMessage).

Definition add_connection (user : string) (c : nat) (h : HubState) : HubState :=
  mkHub (<[user := default [] (ws_users h !! user) ++ [c]]> (ws_users h)) (ws_anonymous h)
    (<[c := mkChannel [] true]> (channels h)).
(** The user, and the state with the connection [c], or an error. *)
Definition websockets_hub (access_token header_token : option string) (c : nat) (h : HubState) : res (string * Z) (string * HubState) :=
  match match access_token with Some t => Some t | None => header_token end with
  | None => Err ("Invalid claim", 401%Z)
  | Some token =>
     match decode_login token with
     | None => Err ("Invalid token", 401%Z)
     | Some claims => Ok (lj_sub claims, add_connection (lj_sub claims) c h)
     end
  end.
Definition WSEntryMapGuard_drop (user : string) (c : nat) (h : HubState) : HubState :=
  mkHub (alter (filter (λ c', c' ≠ c)) user (ws_users h)) (ws_anonymous h) (channels h).
Definition drop_receiver (c : nat) (h : HubState) : HubState :=
  mkHub (ws_users h) (ws_anonymous h) (alter (λ ch, mkChannel [] false) c (channels h)).
Definition anonymous_websockets_hub (token : string) (c : nat) (h : HubState) : HubState :=
  mkHub (ws_users h) (<[token := c]> (ws_anonymous h)) (<[c := mkChannel [] true]> (channels h)).
Definition WSAnonymousEntryMapGuard_drop (token : string) (h : HubState) : HubState :=
  mkHub (ws_users h) (delete token (ws_anonymous h)) (channels h).

(** What a connection does with a message of its client: the answer, or an end. *)
Definition strip_suffix_char (c : Z) (s : str) : option str :=
  match last s with Some x => if (x =? c)%Z then Some (take (pred (length s)) s) else None | None => None end.
Definition on_message (message : Message) : option (list Message) :=
  match message with
  | Ping ping => Some [Pong ping]
  | Pong _ => Some []
  | Text message =>
     let msg := default (chars message) (strip_suffix_char RECORD_SEPARATOR (chars message)) in
     Some (if bool_decide (parse_initial msg = Some INITIAL_MESSAGE) then [Binary INITIAL_RESPONSE] else [])
  | Close => None
  | Binary data => Some [Binary data]
  end.
End hub.

(** ** Sending *)

Inductive Sending := Sent (h : HubState) | NoReceiver | Full.
Definition send_to (c : nat) (data : bytes) (h : HubState) : Sending :=
  match channels h !! c with
  | Some ch =>
     if receiver ch then
       if length (queue ch) <? CAPACITY then
         Sent (mkHub (ws_users h) (ws_anonymous h) (<[c := mkChannel (queue ch ++ [data]) true]> (channels h)))
       else Full
     else NoReceiver
  | None => NoReceiver
  end.
(** The connections a call of [send_update] goes through *)
Definition senders (user : string) (h : HubState) : list nat := default [] (ws_users h !! user).
Definition anonymous_sender (token : string) (h : HubState) : option nat := ws_anonymous h !! token.
(** [AnonymousWebSocketSubscriptions::send_update] *)
Definition anonymous_send_update (token : string) (data : bytes) (h : HubState) : Sending :=
  match anonymous_sender token h with Some c => send_to c data h | None => NoReceiver end.
Definition anonymous_send_auth_response (write_value : Value → bytes) (enable_websocket : bool) (user_id auth_request_id : string)
    (h : HubState) : Sending :=
  if negb enable_websocket then NoReceiver
  else anonymous_send_update auth_request_id
         (create_anonymous_update write_value [(VString "Id", VString auth_request_id); (VString "UserId", VString user_id)]
            AuthRequestResponse user_id) h.
(** What a client reads next *)
Definition receive (c : nat) (h : HubState) : option (bytes * HubState) :=
  ch ← channels h !! c;
  match receiver ch, queue ch with
  | true, data :: rest => Some (data, mkHub (ws_users h) (ws_anonymous h) (<[c := mkChannel rest true]> (channels h)))
  | _, _ => None
  end.

(** *** Calls and connections, interleaved *)

(** A call in progress: for whom it is, the connections it found, those it has
    still to serve, and the message. *)
Record Call := mkCall { call_user : string; call_found : list nat; call_left : list nat; call_data : bytes }.
(** With the history: whose token opened a connection, and what was put into and
    taken out of the channels. *)
Record HubSystem := mkSystem {
  hub : HubState; owner : gmap nat string; calls : list Call;
  put_log : list (nat * bytes); got_log : list (nat * bytes) }.
Definition set_hub (s : HubSystem) (h : HubState) : HubSystem := mkSystem h (owner s) (calls s) (put_log s) (got_log s).

Inductive hub_step (decode_login : string → option LoginJwtClaims) (s : HubSystem) : HubSystem → Prop :=
  | step_open access header c user h :
      owner s !! c = None → channels (hub s) !! c = None →
      websockets_hub decode_login access header c (hub s) = Ok (user, h) →
      hub_step decode_login s (mkSystem h (<[c := user]> (owner s)) (calls s) (put_log s) (got_log s))
  | step_guard c user : owner s !! c = Some user → hub_step decode_login s (set_hub s (WSEntryMapGuard_drop user c (hub s)))
  | step_gone c : hub_step decode_login s (set_hub s (drop_receiver c (hub s)))
  | step_call user data :
      hub_step decode_login s (mkSystem (hub s) (owner s)
        (calls s ++ [mkCall user (senders user (hub s)) (senders user (hub s)) data]) (put_log s) (got_log s))
  | step_put i user found c left data h :
      calls s !! i = Some (mkCall user found (c :: left) data) → send_to c data (hub s) = Sent h →
      hub_step decode_login s (mkSystem h (owner s) (<[i := mkCall user found left data]> (calls s)) (put_log s ++ [(c, data)]) (got_log s))
  | step_skip i user found c left data :
      calls s !! i = Some (mkCall user found (c :: left) data) → send_to c data (hub s) = NoReceiver →
      hub_step decode_login s (mkSystem (hub s) (owner s) (<[i := mkCall user found left data]> (calls s)) (put_log s) (got_log s))
  | step_get c data h :
      receive c (hub s) = Some (data, h) →
      hub_step decode_login s (mkSystem h (owner s) (calls s) (put_log s) (got_log s ++ [(c, data)])).
Definition hub_start : HubSystem := mkSystem (mkHub ∅ ∅ ∅) ∅ [] [] [].

(** ** Invariants *)

(** The messages of a history that concern a connection *)
Definition of_conn (c : nat) (l : list (nat * bytes)) : list bytes := (filter (λ x, x.1 = c) l).*2.
Lemma of_conn_snoc c c' d l : of_conn c (l ++ [(c', d)]) = of_conn c l ++ (if decide (c' = c) then [d] else []).
Proof. unfold of_conn. rewrite filter_app, fmap_app. f_equal. rewrite filter_cons, filter_nil. simpl. by case_decide. Qed.

Record hub_inv (s : HubSystem) : Prop := {
  hi_owner : ∀ u c, c ∈ senders u (hub s) → owner s !! c = Some u;
  hi_channel : ∀ c ch, channels (hub s) !! c = Some ch →
    is_Some (owner s !! c) ∧ length (queue ch) ≤ CAPACITY ∧ (receiver ch = false → queue ch = []);
  hi_order : ∀ c ch, channels (hub s) !! c = Some ch → receiver ch = true →
    of_conn c (put_log s) = of_conn c (got_log s) ++ queue ch;
  hi_put : ∀ c d, (c, d) ∈ put_log s → ∃ i k, calls s !! i = Some k ∧ owner s !! c = Some (call_user k) ∧ call_data k = d;
  hi_got : ∀ c, of_conn c (got_log s) `prefix_of` of_conn c (put_log s);
  hi_calls : ∀ i k, calls s !! i = Some k →
    (∀ c, c ∈ call_found k → owner s !! c = Some (call_user k)) ∧ call_left k ⊆ call_found k ∧
    ∀ c, c ∈ call_found k → c ∈ call_left k ∨ (c, call_data k) ∈ put_log s ∨ ∃ ch, channels (hub s) !! c = Some ch ∧ receiver ch = false;
  hi_known : ∀ c u, owner s !! c = Some u → is_Some (channels (hub s) !! c);
}.

Lemma send_to_Sent c data h h' :
  send_to c data h = Sent h' → ∃ ch, channels h !! c = Some ch ∧ receiver ch = true ∧ length (queue ch) < CAPACITY ∧
    h' = mkHub (ws_users h) (ws_anonymous h) (<[c := mkChannel (queue ch ++ [data]) true]> (channels h)).
Proof.
  unfold send_to. destruct (channels h !! c) as [ch|]; [|done]. destruct (receiver ch) eqn:Hr; [|done].
  destruct (_ <? _) eqn:E; [|done]. intros [= <-]. exists ch. split_and!; try done. by apply Nat.ltb_lt.
Qed.
Lemma send_to_NoReceiver c data h :
  send_to c data h = NoReceiver → channels h !! c = None ∨ ∃ ch, channels h !! c = Some ch ∧ receiver ch = false.
Proof.
  unfold send_to. destruct (channels h !! c) as [ch|]; [|by left]. destruct (receiver ch) eqn:Hr; [by case_match|]. right. by exists ch.
Qed.
Lemma receive_Some c h data h' :
  receive c h = Some (data, h') → ∃ rest, channels h !! c = Some (mkChannel (data :: rest) true) ∧
    h' = mkHub (ws_users h) (ws_anonymous h) (<[c := mkChannel rest true]> (channels h)).
Proof.
  unfold receive. destruct (channels h !! c) as [[q r]|]; simpl; [|done]. destruct r, q as [|d q]; try done.
  intros [= <- <-]. by exists q.
Qed.
Lemma senders_add u user c h : senders u (add_connection user c h) = senders u h ++ (if decide (user = u) then [c] else []).
Proof.
  unfold senders, add_connection. simpl. case_decide as E; [subst; by rewrite lookup_insert_eq|].
  by rewrite lookup_insert_ne, app_nil_r.
Qed.
Lemma senders_drop u user c h x : x ∈ senders u (WSEntryMapGuard_drop user c h) → x ∈ senders u h.
Proof.
  unfold senders, WSEntryMapGuard_drop. simpl. destruct (decide (user = u)) as [->|Hne].
  - rewrite lookup_alter_eq. destruct (ws_users h !! u); simpl; [|done]. by intros [_ ?]%list_elem_of_filter.
  - by rewrite lookup_alter_ne.
Qed.

Section invariant.
Context (decode_login : string → option LoginJwtClaims).

Lemma inv_open s user c :
  hub_inv s → owner s !! c = None → channels (hub s) !! c = None →
  hub_inv (mkSystem (add_connection user c (hub s)) (<[c := user]> (owner s)) (calls s) (put_log s) (got_log s)).
Proof.
  intros [I1 I2 I3 I4 I5 I6 I7] Ho Hc.
  assert (∀ c' u, owner s !! c' = Some u → <[c := user]> (owner s) !! c' = Some u) as Hkeep.
  { intros c' u E. rewrite lookup_insert_ne; [done|]. intros ->. congruence. }
  assert (of_conn c (put_log s) = []) as Hput.
  { unfold of_conn. destruct (filter _ (put_log s)) as [|[c' d] l] eqn:E; [done|]. exfalso.
    assert ((c', d) ∈ filter (λ x, x.1 = c) (put_log s)) as [Hx Hin]%list_elem_of_filter by (rewrite E; by left).
    simpl in Hx. subst. destruct (I4 _ _ Hin) as (i & k & _ & Hk & _). congruence. }
  split; simpl.
  - intros u x. rewrite senders_add, elem_of_app. intros [Hx|Hx]; [by apply Hkeep, I1|].
    case_decide as E; [|by apply not_elem_of_nil in Hx]. apply list_elem_of_singleton in Hx as ->. by rewrite lookup_insert_eq, E.
  - intros x ch [[<- <-]|[Hne Hx]]%lookup_insert_Some; simpl.
    + rewrite lookup_insert_eq. split_and!; [by eexists|lia|done].
    + rewrite lookup_insert_ne by done. by apply I2.
  - intros x ch [[<- <-]|[Hne Hx]]%lookup_insert_Some Hr; [|by apply I3]. simpl. rewrite app_nil_r, Hput.
    specialize (I5 c). rewrite Hput in I5. by apply prefix_nil_inv in I5.
  - intros x d Hin. destruct (I4 _ _ Hin) as (i & k & Hi & Hk & Hd). exists i, k. split_and!; [done|by apply Hkeep|done].
  - done.
  - intros i k Hi. destruct (I6 _ _ Hi) as (H1 & H2 & H3). split_and!; [intros x Hx; by apply Hkeep, H1|done|].
    intros x Hx. destruct (H3 x Hx) as [|[|(ch & Hch & Hr)]]; [by left|by right; left|]. right; right. exists ch.
    rewrite lookup_insert_ne; [done|]. intros ->. congruence.
  - intros x u [[<- <-]|[Hne Hx]]%lookup_insert_Some; [by rewrite lookup_insert_eq; eexists|].
    rewrite lookup_insert_ne by done. by eapply I7.
Qed.
Lemma inv_guard s user c : hub_inv s → hub_inv (set_hub s (WSEntryMapGuard_drop user c (hub s))).
Proof. intros [I1 I2 I3 I4 I5 I6 I7]. split; simpl; [|done..]. intros u x Hx%senders_drop. by apply I1. Qed.
Lemma inv_gone s c : hub_inv s → hub_inv (set_hub s (drop_receiver c (hub s))).
Proof.
  intros [I1 I2 I3 I4 I5 I6 I7]. split; simpl; [done| | |done|done| |].
  - intros x ch. rewrite lookup_alter_Some. intros [(-> & ch' & Hch & ->)|[_ Hx]]; [|by apply I2]. simpl.
    destruct (I2 _ _ Hch). split_and!; [done|lia|done].
  - intros x ch. rewrite lookup_alter_Some. intros [(-> & ch' & Hch & ->)|[_ Hx]]; [done|by apply I3].
  - intros i k Hi. destruct (I6 _ _ Hi) as (H1 & H2 & H3). split_and!; [done..|]. intros x Hx.
    destruct (H3 x Hx) as [|[|(ch & Hch & Hr)]]; [by left|by right; left|]. right; right.
    destruct (decide (x = c)) as [->|Hne]; [|exists ch; by rewrite lookup_alter_ne]. eexists. by rewrite lookup_alter_eq, Hch.
  - intros x u Hx. destruct (I7 _ _ Hx) as [ch Hch]. destruct (decide (x = c)) as [->|Hne].
    + rewrite lookup_alter_eq, Hch. by eexists.
    + rewrite lookup_alter_ne by done. by eexists.
Qed.
Lemma inv_call s user data :
  hub_inv s → hub_inv (mkSystem (hub s) (owner s) (calls s ++ [mkCall user (senders user (hub s)) (senders user (hub s)) data]) (put_log s) (got_log s)).
Proof.
  intros [I1 I2 I3 I4 I5 I6 I7]. split; simpl; [done..| |done| |done].
  - intros c d Hin. destruct (I4 _ _ Hin) as (i & k & Hi & Hk). exists i, k. split; [|done]. by apply lookup_app_l_Some.
  - intros i k [Hi|[_ Hi]]%lookup_app_Some; [by apply I6 in Hi|]. apply list_lookup_singleton_Some in Hi as [_ <-]. simpl.
    split_and!; [by apply I1|done|auto].
Qed.
(** One more connection is done with. *)
Lemma inv_served s i user found c left data log (cs : gmap nat Channel) :
  hub_inv s → calls s !! i = Some (mkCall user found (c :: left) data) → put_log s ⊆ log →
  (c, data) ∈ log ∨ (∃ ch, cs !! c = Some ch ∧ receiver ch = false) →
  (∀ x ch, channels (hub s) !! x = Some ch → receiver ch = false → cs !! x = Some ch) →
  ∀ j k, <[i := mkCall user found left data]> (calls s) !! j = Some k →
    (∀ c, c ∈ call_found k → owner s !! c = Some (call_user k)) ∧ call_left k ⊆ call_found k ∧
    ∀ c, c ∈ call_found k → c ∈ call_left k ∨ (c, call_data k) ∈ log ∨ ∃ ch, cs !! c = Some ch ∧ receiver ch = false.
Proof.
  intros [I1 I2 I3 I4 I5 I6 I7] Hi Hlog Hc Hdead j k Hj. apply list_lookup_insert_Some in Hj as [(<- & <- & _)|[Hne Hj]]; simpl.
  - destruct (I6 _ _ Hi) as (H1 & H2 & H3); simpl in *. split_and!; [done|set_solver|]. intros x Hx.
    destruct (H3 x Hx) as [Hl|[Hp|(ch & Hch & Hr)]]; [|right; left; by apply Hlog|right; right; exists ch; eauto].
    apply elem_of_cons in Hl as [->|Hl]; [by right|by left].
  - destruct (I6 _ _ Hj) as (H1 & H2 & H3). split_and!; [done..|]. intros x Hx.
    destruct (H3 x Hx) as [Hl|[Hp|(ch & Hch & Hr)]]; [by left|right; left; by apply Hlog|right; right; exists ch; eauto].
Qed.
Lemma calls_same s i k k' :
  calls s !! i = Some k → call_user k' = call_user k → call_data k' = call_data k →
  ∀ (c : nat) d, (∃ j k0, calls s !! j = Some k0 ∧ owner s !! c = Some (call_user k0) ∧ call_data k0 = d) →
    ∃ j k0, <[i := k']> (calls s) !! j = Some k0 ∧ owner s !! c = Some (call_user k0) ∧ call_data k0 = d.
Proof.
  intros Hi Hu Hd c d (j & k0 & Hj & Ho & E). destruct (decide (i = j)) as [<-|Hne].
  - exists i, k'. rewrite list_lookup_insert_eq by (by eapply lookup_lt_Some). split_and!; [done|congruence..].
  - exists j, k0. by rewrite list_lookup_insert_ne.
Qed.
Lemma inv_put s i user found c left data h :
  hub_inv s → calls s !! i = Some (mkCall user found (c :: left) data) → send_to c data (hub s) = Sent h →
  hub_inv (mkSystem h (owner s) (<[i := mkCall user found left data]> (calls s)) (put_log s ++ [(c, data)]) (got_log s)).
Proof.
  intros Hs Hi Hsend. pose proof Hs as [I1 I2 I3 I4 I5 I6 I7]. apply send_to_Sent in Hsend as (ch & Hch & Hr & Hlen & ->).
  assert (owner s !! c = Some user) as Hown by (destruct (I6 _ _ Hi) as (H1 & H2 & _); apply H1, H2; by left).
  split; simpl.
  - done.
  - intros x ch' [[<- <-]|[Hne Hx]]%lookup_insert_Some; [|by apply I2]. simpl. rewrite length_app. simpl. split_and!; [by eexists|lia|done].
  - intros x ch' [[<- <-]|[Hne Hx]]%lookup_insert_Some Hr'; rewrite of_conn_snoc; simpl.
    + rewrite decide_True, (I3 _ _ Hch Hr), app_assoc by done. done.
    + rewrite decide_False, app_nil_r by done. by apply I3.
  - intros x d [Hin|E]%elem_of_app.
    + eapply calls_same; [done..|by apply I4].
    + apply list_elem_of_singleton in E as [= -> ->]. exists i, (mkCall user found left data).
      rewrite list_lookup_insert_eq by (by eapply lookup_lt_Some). done.
  - intros x. rewrite of_conn_snoc. by apply prefix_app_r.
  - apply (inv_served s i user found c left data (put_log s ++ [(c, data)])
      (<[c := mkChannel (queue ch ++ [data]) true]> (channels (hub s)))); [done|done|set_solver|left; set_solver|].
    simpl. intros x ch' Hx Hdead.
    rewrite lookup_insert_ne; [done|]. intros ->. congruence.
  - intros x u Hx. rewrite lookup_insert_is_Some'. destruct (I7 _ _ Hx). auto.
Qed.
Lemma inv_skip s i user found c left data :
  hub_inv s → calls s !! i = Some (mkCall user found (c :: left) data) → send_to c data (hub s) = NoReceiver →
  hub_inv (mkSystem (hub s) (owner s) (<[i := mkCall user found left data]> (calls s)) (put_log s) (got_log s)).
Proof.
  intros Hs Hi Hsend. pose proof Hs as [I1 I2 I3 I4 I5 I6 I7]. split; simpl; [done..| |done| |done].
  - intros x d Hin. eapply calls_same; [done..|by apply I4].
  - apply (inv_served s i user found c left data (put_log s) (channels (hub s))); [done..| |done]. right. apply send_to_NoReceiver in Hsend as [Hn|]; [|done].
    destruct (I6 _ _ Hi) as (H1 & H2 & _). destruct (I7 c user) as [? ?]; [apply H1, H2; by left|]. congruence.
Qed.
Lemma inv_get s c data h :
  hub_inv s → receive c (hub s) = Some (data, h) →
  hub_inv (mkSystem h (owner s) (calls s) (put_log s) (got_log s ++ [(c, data)])).
Proof.
  intros [I1 I2 I3 I4 I5 I6 I7] (rest & Hch & ->)%receive_Some. pose proof (I3 _ _ Hch eq_refl) as Hord. simpl in Hord. split; simpl.
  - done.
  - intros x ch [[<- <-]|[Hne Hx]]%lookup_insert_Some; [|by apply I2]. destruct (I2 _ _ Hch) as (? & Hl & _). simpl in *. split_and!; [done|lia|done].
  - intros x ch [[<- <-]|[Hne Hx]]%lookup_insert_Some Hr; rewrite of_conn_snoc; simpl.
    + rewrite decide_True, Hord, <- app_assoc by done. done.
    + rewrite decide_False, app_nil_r by done. by apply I3.
  - done.
  - intros x. rewrite of_conn_snoc. case_decide as E; [|rewrite app_nil_r; apply I5]. subst. rewrite Hord.
    exists rest. by rewrite <- app_assoc.
  - intros i k Hi. destruct (I6 _ _ Hi) as (H1 & H2 & H3). split_and!; [done..|]. intros x Hx.
    destruct (H3 x Hx) as [|[|(ch & Hx' & Hr)]]; [by left|by right; left|]. right; right. exists ch.
    rewrite lookup_insert_ne; [done|]. intros ->. by rewrite Hch in Hx'; simplify_eq.
  - intros x u Hx. rewrite lookup_insert_is_Some'. destruct (I7 _ _ Hx). auto.
Qed.
Lemma inv_step s s' : hub_inv s → hub_step decode_login s s' → hub_inv s'.
Proof.
  intros Hs Hstep. destruct Hstep as [access header c user h Ho Hc Hopen|c user Ho|c|user data|i user found c left data h Hi Hsend
    |i user found c left data Hi Hsend|c data h Hget].
  - unfold websockets_hub in Hopen. destruct (match access with Some t => Some t | None => header end) as [t|]; [|done].
    destruct (decode_login t) as [claims|]; [|done]. injection Hopen as <- <-. by apply inv_open.
  - by apply inv_guard.
  - by apply inv_gone.
  - by apply inv_call.
  - by eapply inv_put.
  - by eapply inv_skip.
  - by apply inv_get.
Qed.
Lemma hub_reachable s : rtc (hub_step decode_login) hub_start s → hub_inv s.
Proof.
  revert s. apply (rtc_ind_r (R := hub_step decode_login) (λ s, hub_inv s) hub_start).
  - split; simpl; try (by intros ? ? []%not_elem_of_nil); done.
  - intros s1 s2 _ Hstep Hs1. by eapply inv_step.
Qed.

(** C28: notifications are private and in order.  Whatever connections open and
    close and whatever calls overlap: what a connection has received was sent
    for the user whose token opened it, in the order in which it was put into
    its channel, and no channel holds more than its hundred messages. *)
Theorem notifications_private s c :
  rtc (hub_step decode_login) hub_start s →
  (∀ d, d ∈ of_conn c (got_log s) → ∃ k, k ∈ calls s ∧ owner s !! c = Some (call_user k) ∧ call_data k = d) ∧
  of_conn c (got_log s) `prefix_of` of_conn c (put_log s) ∧
  (∀ ch, channels (hub s) !! c = Some ch → length (queue ch) ≤ CAPACITY).
Proof.
  intros [I1 I2 I3 I4 I5 I6 I7]%hub_reachable. split_and!; [|apply I5|intros ch Hch; by apply (I2 c)].
  intros d Hd. assert (d ∈ of_conn c (put_log s)) as ([c' d'] & -> & [Hc Hin]%list_elem_of_filter)%list_elem_of_fmap.
  { destruct (I5 c) as [rest ->]. apply elem_of_app. by left. }
  simpl in *. subst c'. destruct (I4 _ _ Hin) as (i & k & Hi & Hk). exists k. split; [by eapply list_elem_of_lookup_2|done].
Qed.

(** C29: no notification is lost.  When a call is done, each connection that the
    user had when it began has received the message, or holds it in its channel,
    or has ended. *)
Theorem notifications_delivered s i user found data c :
  rtc (hub_step decode_login) hub_start s → calls s !! i = Some (mkCall user found [] data) → c ∈ found →
  data ∈ of_conn c (got_log s) ∨ ∃ ch, channels (hub s) !! c = Some ch ∧ (data ∈ queue ch ∨ receiver ch = false).
Proof.
  intros [I1 I2 I3 I4 I5 I6 I7]%hub_reachable Hi Hc. destruct (I6 _ _ Hi) as (H1 & _ & H3). simpl in *.
  destruct (H3 c Hc) as [Hl|[Hp|(ch & Hch & Hr)]]; [by apply not_elem_of_nil in Hl| |right; exists ch; auto].
  destruct (I7 _ _ (H1 c Hc)) as [ch Hch]. destruct (receiver ch) eqn:Hr; [|right; exists ch; auto].
  assert (data ∈ of_conn c (put_log s)) as Hin.
  { apply list_elem_of_fmap. exists (c, data). split; [done|]. by apply list_elem_of_filter. }
  rewrite (I3 _ _ Hch Hr) in Hin. apply elem_of_app in Hin as [|Hin]; [by left|]. right. exists ch. auto.
Qed.
End invariant.

(** A second connection for the same login request takes over from the first; when
    the first one ends, the registration goes, and the second connection, although
    it is open, does not hear of the answer. *)
Theorem anonymous_takeover_lost token c1 c2 h data :
  c1 ≠ c2 →
  let h' := WSAnonymousEntryMapGuard_drop token
              (drop_receiver c1 (anonymous_websockets_hub token c2 (anonymous_websockets_hub token c1 h))) in
  channels h' !! c2 = Some (mkChannel [] true) ∧ anonymous_send_update token data h' = NoReceiver.
Proof.
  intros Hne h'. split.
  - unfold h'. simpl. rewrite lookup_alter_ne by done. apply lookup_insert_eq.
  - unfold anonymous_send_update, anonymous_sender, h'. simpl. by rewrite lookup_delete_eq.
Qed.

(** ** Witnesses *)

Module ToyHub.
(** Tokens are the names of users. *)
Definition toy_decode (t : string) : option LoginJwtClaims :=
  Some (mkLoginJwtClaims 0 0 "login" t true t t true "stamp" "d1" "Web" "web" [] []).
Definition opened (c : nat) (u : string) (s : HubSystem) : HubSystem :=
  mkSystem (add_connection u c (hub s)) (<[c := u]> (owner s)) (calls s) (put_log s) (got_log s).
(** Alice has two connections and Bob one; a message for Alice reaches her first
    connection, and the second one ends. *)
Definition toy_system : HubSystem :=
  let s := opened 3 "bob" (opened 2 "alice" (opened 1 "alice" hub_start)) in
  let h := mkHub (ws_users (hub s)) ∅ (<[1 := mkChannel [[7%Z]] true]> (channels (hub s))) in
  mkSystem (mkHub (ws_users h) ∅ (<[1 := mkChannel [] true]> (channels (drop_receiver 2 h)))) (owner s)
    [mkCall "alice" [1; 2] [] [7%Z]] [(1, [7%Z])] [(1, [7%Z])].
Lemma toy_opens c u s :
  owner s !! c = None → channels (hub s) !! c = None → hub_step toy_decode s (opened c u s).
Proof. intros H1 H2. by apply (step_open _ _ (Some u) None c u). Qed.
Lemma toy_reachable : rtc (hub_step toy_decode) hub_start toy_system.
Proof.
  eapply rtc_l; [by apply (toy_opens 1 "alice")|]. eapply rtc_l; [by apply (toy_opens 2 "alice")|].
  eapply rtc_l; [by apply (toy_opens 3 "bob")|]. eapply rtc_l; [apply (step_call _ _ "alice" [7%Z])|].
  eapply rtc_l; [eapply (step_put _ _ 0 "alice" [1; 2] 1 [2] [7%Z]); vm_compute; reflexivity|].
  eapply rtc_l; [apply (step_gone _ _ 2)|].
  eapply rtc_l; [eapply (step_skip _ _ 0 "alice" [1; 2] 2 [] [7%Z]); vm_compute; reflexivity|].
  eapply rtc_l; [eapply (step_get _ _ 1 [7%Z]); vm_compute; reflexivity|].
  apply rtc_refl.
Qed.
End ToyHub.
Import ToyHub.
Lemma notifications_private_witness :
  of_conn 1 (got_log toy_system) = [[7%Z]] ∧ of_conn 3 (got_log toy_system) = [] ∧
  (∀ d, d ∈ of_conn 1 (got_log toy_system) → ∃ k, k ∈ calls toy_system ∧ owner toy_system !! 1 = Some (call_user k) ∧ call_data k = d).
Proof. split; [reflexivity|]. split; [reflexivity|]. apply (notifications_private toy_decode toy_system 1), toy_reachable. Defined.
Lemma notifications_delivered_witness :
  [7%Z] ∈ of_conn 2 (got_log toy_system) ∨
  ∃ ch, channels (hub toy_system) !! 2 = Some ch ∧ ([7%Z] ∈ queue ch ∨ receiver ch = false).
Proof.
  apply (notifications_delivered toy_decode toy_system 0 "alice" [1; 2] [7%Z] 2); [apply toy_reachable|reflexivity|right; left].
Defined.
