(* ===== verification/SecurityKeys.v ===== *)
(** * Security keys

    [server/src/api/core/two_factor/yubikey.rs] and [webauthn.rs]: one-time codes
    of YubiKeys, which a service of Yubico checks, and WebAuthn keys, which a
    library checks against a challenge that is stored between two requests.  The
    theorems are in [ExternalFactors]. *)

From stdpp Require Import base strings numbers pretty gmap list.
From S2P Require Import Prelude Store JsonUtil Users Orgs AuthRequests TwoFactor.

(** [map_res]: another message for an error *)
Definition map_res {A} (m : M A) (msg : string) : M A := λ e w,
  match m e w with (Err x, w) => (Err (mkError msg (e_code x) (e_event x) (e_json x)), w) | rw => rw end.
(** [str::get(..n)]: none beyond the end, or within a character *)
Definition is_char_boundary (s : str) (n : nat) : bool :=
  match s !! n with
  | Some c => negb ((128 <=? c) && (c <=? 191))%Z
  | None => n =? length s
  end.
Definition get_prefix (n : nat) (s : string) : option string :=
  if is_char_boundary (chars s) n then Some (string_of_chars (take n (chars s))) else None.

(** ** YubiKey *)

Record EnableYubikeyData := mkEnableYubikeyData {
  ey_key1 : option string; ey_key2 : option string; ey_key3 : option string; ey_key4 : option string; ey_key5 : option string;
  ey_nfc : bool; ey_master_password_hash : option string; ey_otp : option string }.
Record YubikeyMetadata := mkYubikeyMetadata { yk_keys : list string; yk_nfc : bool }.

Definition parse_yubikeys (data : EnableYubikeyData) : list string :=
  omap id [ey_key1 data; ey_key2 data; ey_key3 data; ey_key4 data; ey_key5 data].
Fixpoint jsonify_keys (i : nat) (l : list string) (fields : list (string * Json)) : list (string * Json) :=
  match l with
  | [] => fields
  | key :: l => jsonify_keys (S i) l (json_insert ("Key" +:+ pretty (i + 1)) (JStr key) fields)
  end.
Definition jsonify_yubikeys (yubikeys : list string) : list (string * Json) := jsonify_keys 0 yubikeys [].

Definition get_yubico_credentials : M (string * string) :=
  let* enabled := conf enable_yubico in
  do* ensure enabled "Yubico support is disabled" in
  let* id := conf yubico_client_id in
  let* secret := conf yubico_secret_key in
  match id, secret with
  | Some id, Some secret => mret (id, secret)
  | _, _ => err "`YUBICO_CLIENT_ID` or `YUBICO_SECRET_KEY` environment variable is not set. Yubikey OTP Disabled"
  end.

Definition yubikey_disabled : Json := JObj [("enabled", JBool false); ("object", JStr "twoFactorU2f")].
Definition yubikey_answer (m : YubikeyMetadata) : Json :=
  JObj (json_insert "object" (JStr "twoFactorU2f") (json_insert "nfc" (JBool (yk_nfc m))
         (json_insert "enabled" (JBool true) (jsonify_yubikeys (yk_keys m))))).

Section yubikey.
Context `{!Serde ProtectedActionData pa_stored, !Serde YubikeyMetadata id}.
(** Yubico's service at a call: server, client, secret, code *)
Context (verify_async : nat → option string → string → string → string → bool).

Definition verify_yubikey_otp (otp : string) : M unit :=
  let* (yubico_id, yubico_secret) := get_yubico_credentials in
  let* server := conf yubico_server in
  let* valid := next (λ _ i, verify_async i server yubico_id yubico_secret otp) in
  ensure valid "Failed to verify OTP".

Definition generate_yubikey (data : PasswordOrOtpData) (headers : Headers) : M Json :=
  let* _ := get_yubico_credentials in
  let user := h_user headers in
  do* PasswordOrOtpData_validate data user false in
  let* r := TwoFactor_find_by_user_and_type (u_uuid user) (TwoFactorType_to_i32 YubiKey) in
  match r with
  | Some r => let* yubikey_metadata := some_or_err (from_json_str (tf_data r)) "Serde" in mret (yubikey_answer yubikey_metadata)
  | None => mret yubikey_disabled
  end.

(** A key is given by a code of it, or by its identifier, the first twelve
    characters of every code. *)
Definition check_yubikey (yubikey : string) : M unit :=
  if bool_decide (yubikey = "") || (String.length yubikey =? 12) then mret tt
  else map_res (verify_yubikey_otp yubikey) "Invalid Yubikey OTP provided".
Definition activate_yubikey (data : EnableYubikeyData) (headers : Headers) : M Json :=
  let user := h_user headers in
  do* PasswordOrOtpData_validate (mkPasswordOrOtpData (ey_master_password_hash data) (ey_otp data)) user true in
  let* found := TwoFactor_find_by_user_and_type (u_uuid user) (TwoFactorType_to_i32 YubiKey) in
  let* yubikey_data := match found with Some tf => mret tf | None => TwoFactor_new (u_uuid user) YubiKey "" end in
  let yubikeys := parse_yubikeys data in
  if bool_decide (yubikeys = []) then mret yubikey_disabled
  else
    do* for_each yubikeys check_yubikey in
    let yubikey_metadata := mkYubikeyMetadata (omap (get_prefix 12) yubikeys) (ey_nfc data) in
    do* TwoFactor_save (yubikey_data <| tf_data := to_json_string yubikey_metadata |>) in
    let* user := generate_recover_code user in
    do* log_user_event UserUpdated2fa (u_uuid user) (h_device_type headers) (h_ip headers) in
    mret (yubikey_answer yubikey_metadata).
Definition activate_yubikey_put := activate_yubikey.

Definition validate_yubikey_login (response twofactor_data : string) : M unit :=
  do* ensure (String.length response =? 44) "Invalid Yubikey OTP length" in
  let* yubikey_metadata := mexpect (from_json_str twofactor_data) in
  let* response_id := mexpect (get_prefix 12 response) in
  do* ensure (bool_decide (response_id ∈ yk_keys yubikey_metadata)) "Given Yubikey is not registered" in
  map_res (verify_yubikey_otp response) "Failed to verify Yubikey against OTP server".
(** What [json_err_twofactor] of identity.rs reads *)
Definition yubikey_nfc (twofactor_data : string) : option bool := yk_nfc <$> from_json_str twofactor_data.
End yubikey.

(** ** WebAuthn: what requests and rows hold *)

(** Registrations from before WebAuthn *)
Record Registration := mkRegistration {
  rg_key_handle : bytes; rg_pub_key : bytes; rg_attestation_cert : option bytes; rg_device_name : option string }.
Record U2FRegistration := mkU2FRegistration {
  u2f_id : Z; u2f_name : string; u2f_reg : Registration; u2f_counter : Z; u2f_compromised : bool; u2f_migrated : option bool }.

Record AuthenticatorAttestationResponseRaw := mkAttestation { ra_attestation_object : bytes; ra_client_data_json : bytes }.
Record RegisterPublicKeyCredential := mkRegisterCredential {
  rc_id : string; rc_raw_id : bytes; rc_response : AuthenticatorAttestationResponseRaw; rc_type : string }.
(** The copies of the library's types have other names for a field; the transports
    and extensions are left out, and filled in with nothing. *)
Record AuthenticatorAttestationResponseRawCopy := mkAttestationCopy { rac_attestation_object : bytes; rac_client_data_json : bytes }.
Record RegisterPublicKeyCredentialCopy := mkRegisterCredentialCopy {
  rcc_id : string; rcc_raw_id : bytes; rcc_response : AuthenticatorAttestationResponseRawCopy; rcc_type : string }.
Definition RegisterPublicKeyCredential_from (r : RegisterPublicKeyCredentialCopy) : RegisterPublicKeyCredential :=
  mkRegisterCredential (rcc_id r) (rcc_raw_id r)
    (mkAttestation (rac_attestation_object (rcc_response r)) (rac_client_data_json (rcc_response r))) (rcc_type r).
Record EnableWebauthnData := mkEnableWebauthnData {
  ew_id : NumberOrString; ew_name : string; ew_device_response : RegisterPublicKeyCredentialCopy;
  ew_master_password_hash : option string; ew_otp : option string }.
Record DeleteU2FData := mkDeleteU2FData { du_id : NumberOrString; du_master_password_hash : string }.

Record AuthenticatorAssertionResponseRaw := mkAssertion {
  aa_authenticator_data : bytes; aa_client_data_json : bytes; aa_signature : bytes; aa_user_handle : option bytes }.
Record PublicKeyCredential (Ext : Type) := mkCredential {
  pc_id : string; pc_raw_id : bytes; pc_response : AuthenticatorAssertionResponseRaw; pc_extensions : Ext; pc_type : string }.
Arguments mkCredential {Ext}.
Arguments pc_raw_id {Ext}.
Arguments pc_response {Ext}.
Record AuthenticatorAssertionResponseRawCopy := mkAssertionCopy {
  aac_authenticator_data : bytes; aac_client_data_json : bytes; aac_signature : bytes; aac_user_handle : option bytes }.
Record PublicKeyCredentialCopy (Ext : Type) := mkCredentialCopy {
  pcc_id : string; pcc_raw_id : bytes; pcc_response : AuthenticatorAssertionResponseRawCopy; pcc_extensions : Ext; pcc_type : string }.
Arguments mkCredentialCopy {Ext}.
Arguments pcc_id {Ext}.
Arguments pcc_raw_id {Ext}.
Arguments pcc_response {Ext}.
Arguments pcc_extensions {Ext}.
Arguments pcc_type {Ext}.
Definition PublicKeyCredential_from {Ext} (r : PublicKeyCredentialCopy Ext) : PublicKeyCredential Ext :=
  mkCredential (pcc_id r) (pcc_raw_id r)
    (mkAssertion (aac_authenticator_data (pcc_response r)) (aac_client_data_json (pcc_response r))
       (aac_signature (pcc_response r)) (aac_user_handle (pcc_response r)))
    (pcc_extensions r) (pcc_type r).

(** The options of a challenge that the server changes; [Rest] is what it does
    not look at. *)
Record AuthenticatorSelection (Rest : Type) := mkSelection { as_user_verification : string; as_rest : Rest }.
Arguments mkSelection {Rest}.
Arguments as_rest {Rest}.
Record CreationOptions (Ext SelRest Rest : Type) := mkCreationOptions {
  co_extensions : option Ext; co_authenticator_selection : option (AuthenticatorSelection SelRest); co_rest : Rest }.
Arguments mkCreationOptions {Ext SelRest Rest}.
Arguments co_authenticator_selection {Ext SelRest Rest}.
Arguments co_rest {Ext SelRest Rest}.
Record RequestExtensions := mkRequestExtensions { rx_appid : option string; rx_uvm : option bool; rx_hmac_get_secret : option (bytes * option bytes) }.
Record RequestOptions (Rest : Type) := mkRequestOptions { ro_user_verification : string; ro_extensions : option RequestExtensions; ro_rest : Rest }.
Arguments mkRequestOptions {Rest}.
Arguments ro_extensions {Rest}.
Arguments ro_rest {Rest}.
Definition Discouraged : string := "discouraged".

(** ** The library *)

(** [webauthn-rs]: its types, its operations at a call, and their JSON forms *)
Record WebauthnLib := mkWebauthnLib {
  Passkey : Type; PasskeyRegistration : Type; PasskeyAuthentication : Type; AuthenticationResult : Type;
  CreateExt : Type; SelRest : Type; CreateRest : Type; RequestRest : Type; Ext : Type;
  cred_id : Passkey → bytes;
  (** of the [Credential] in a key *)
  backup_state : Passkey → bool;
  backup_eligible : Passkey → bool;
  with_backup : bool → bool → Passkey → Passkey;
  start_passkey_registration : nat → bytes → string → string → list bytes →
    option (CreationOptions CreateExt SelRest CreateRest * PasskeyRegistration);
  finish_passkey_registration : RegisterPublicKeyCredential → PasskeyRegistration → option Passkey;
  start_passkey_authentication : nat → list Passkey → option (RequestOptions RequestRest * PasskeyAuthentication);
  finish_passkey_authentication : PublicKeyCredential Ext → PasskeyAuthentication → option AuthenticationResult;
  result_cred_id : AuthenticationResult → bytes;
  (** whether the key matches the result, and was changed by it *)
  update_credential : Passkey → AuthenticationResult → option bool * Passkey;
  creation_to_value : CreationOptions CreateExt SelRest CreateRest → Json;
  request_to_value : RequestOptions RequestRest → Json;
  registration_to_value : PasskeyRegistration → Json;
  registration_from_str : string → option PasskeyRegistration;
  authentication_to_value : PasskeyAuthentication → Json;
  authentication_from_value : Json → option PasskeyAuthentication;
  authentication_from_str : string → option PasskeyAuthentication;
  credential_from_str : string → option (PublicKeyCredentialCopy Ext);
  base64url_from_value : Json → option bytes;
}.
Record WebauthnRegistration (W : WebauthnLib) := mkWebauthnRegistration {
  wr_id : Z; wr_name : string; wr_migrated : bool; wr_credential : Passkey W }.
Arguments mkWebauthnRegistration {W}.
Arguments wr_id {W}.
Arguments wr_name {W}.
Arguments wr_migrated {W}.
Arguments wr_credential {W}.

(** [&mut v[k]], changed by [f]; it panics where [v] cannot be indexed. *)
Definition json_index_with (k : string) (f : Json → option Json) (j : Json) : option Json :=
  x ← f (json_index k j); json_index_set k x j.
(** [as_object_mut().unwrap().clear()] *)
Definition json_clear (j : Json) : option Json := if is_object j then Some (JObj []) else None.

(** [cred["backup_eligible"] = ..; cred["backup_state"] = ..;] for the key with the
    given identifier, in the challenge that is stored *)
Definition set_cred_backup (W : WebauthnLib) (rsp_id : bytes) (eligible state : bool) (cred : Json) : option Json :=
  match json_get "cred_id" cred with
  | None => Some cred
  | Some v =>
     cred_id_slice ← base64url_from_value W v;
     if bool_decide (cred_id_slice = rsp_id) then
       cred ← json_index_set "backup_eligible" (JBool eligible) cred; json_index_set "backup_state" (JBool state) cred
     else Some cred
  end.
Definition set_state_backup (W : WebauthnLib) (rsp_id : bytes) (eligible state : bool) (raw_state : Json) : option Json :=
  match ast ← json_get "ast" raw_state; json_get "credentials" ast with
  | Some (JArr credentials) =>
     credentials ← mapM (set_cred_backup W rsp_id eligible state) credentials;
     json_index_with "ast" (json_index_set "credentials" (JArr credentials)) raw_state
  | _ => Some raw_state
  end.

(** ** The handlers *)

Section webauthn.
Context `{!Serde ProtectedActionData pa_stored}.
Context (W : WebauthnLib) `{!Serde (list (WebauthnRegistration W)) id, !Serde (list U2FRegistration) id}.

Definition WebauthnRegistration_to_json (self : WebauthnRegistration W) : Json :=
  JObj [("id", JNum (wr_id self)); ("name", JStr (wr_name self)); ("migrated", JBool (wr_migrated self))].
(** The registration, and whether it changed *)
Definition set_backup_eligible (self : WebauthnRegistration W) (eligible state : bool) : WebauthnRegistration W * bool :=
  let cred := wr_credential self in
  let state_changed := negb (Bool.eqb (backup_state W cred) state) in
  let eligible_changed := eligible && negb (backup_eligible W cred) in
  let cred := with_backup W (if eligible_changed then true else backup_eligible W cred) state cred in
  (mkWebauthnRegistration (wr_id self) (wr_name self) (wr_migrated self) cred, state_changed || eligible_changed).

Definition get_webauthn_registrations (user_id : string) : M (bool * list (WebauthnRegistration W)) :=
  let* found := TwoFactor_find_by_user_and_type user_id (TwoFactorType_to_i32 Webauthn) in
  match found with
  | Some tf => let* l := some_or_err (from_json_str (tf_data tf)) "Serde" in mret (tf_enabled tf, l)
  | None => mret (false, [])
  end.
Definition keys_answer (enabled : bool) (l : list (WebauthnRegistration W)) (object : string) : Json :=
  JObj [("enabled", JBool enabled); ("keys", JArr (WebauthnRegistration_to_json <$> l)); ("object", JStr object)].

Definition get_webauthn (data : PasswordOrOtpData) (headers : Headers) : M Json :=
  let* supported := conf is_webauthn_2fa_supported in
  do* ensure supported "Configured `DOMAIN` is not compatible with Webauthn" in
  let user := h_user headers in
  do* PasswordOrOtpData_validate data user false in
  let* (enabled, registrations) := get_webauthn_registrations (u_uuid user) in
  mret (keys_answer enabled registrations "twoFactorWebAuthn").

Definition generate_webauthn_challenge (data : PasswordOrOtpData) (headers : Headers) : M Json :=
  let user := h_user headers in
  do* PasswordOrOtpData_validate data user false in
  let* (_, registrations) := get_webauthn_registrations (u_uuid user) in
  let ids := (λ r, cred_id W (wr_credential r)) <$> registrations in
  let* parsed := ask (λ e, uuid_parse_str e (u_uuid user)) in
  let* uuid := mexpect parsed in
  let* started := next (λ _ i, start_passkey_registration W i uuid (u_email user) (User_display_name user) ids) in
  let* (challenge, state) := some_or_err started "Webauthn" in
  let* state := mexpect (json_index_with "rs" (json_index_set "policy" (JStr Discouraged)) (registration_to_value W state)) in
  let* state := mexpect (json_index_with "rs" (json_index_with "extensions" json_clear) state) in
  let* text := ask (λ e, json_text e state) in
  let* tf := TwoFactor_new (u_uuid user) WebauthnRegisterChallenge text in
  do* TwoFactor_save tf in
  let challenge := mkCreationOptions None ((λ s, mkSelection Discouraged (as_rest s)) <$> co_authenticator_selection challenge)
                     (co_rest challenge) in
  let* challenge_value := mexpect (json_index_set "status" (JStr "ok") (creation_to_value W challenge)) in
  mexpect (json_index_set "errorMessage" (JStr "") challenge_value).

Definition activate_webauthn (data : EnableWebauthnData) (headers : Headers) : M Json :=
  let user := h_user headers in
  do* PasswordOrOtpData_validate (mkPasswordOrOtpData (ew_master_password_hash data) (ew_otp data)) user true in
  let* found := TwoFactor_find_by_user_and_type (u_uuid user) (TwoFactorType_to_i32 WebauthnRegisterChallenge) in
  let* tf := some_or_err found "Can't recover challenge" in
  let* state := some_or_err (registration_from_str W (tf_data tf)) "Serde" in
  do* TwoFactor_delete tf in
  let* credential := some_or_err (finish_passkey_registration W (RegisterPublicKeyCredential_from (ew_device_response data)) state) "Webauthn" in
  let* (_, registrations) := get_webauthn_registrations (u_uuid user) in
  let* id := into_i32 (ew_id data) in
  let registrations := registrations ++ [mkWebauthnRegistration id (ew_name data) false credential] in
  let* tf := TwoFactor_new (u_uuid user) Webauthn (to_json_string registrations) in
  do* TwoFactor_save tf in
  let* user := generate_recover_code user in
  do* log_user_event UserUpdated2fa (u_uuid user) (h_device_type headers) (h_ip headers) in
  mret (keys_answer true registrations "twoFactorU2f").
Definition activate_webauthn_put := activate_webauthn.

(** [Vec::remove] at the first registration with the number *)
Fixpoint remove_registration (id : Z) (l : list (WebauthnRegistration W)) : option (WebauthnRegistration W * list (WebauthnRegistration W)) :=
  match l with
  | [] => None
  | r :: l => if (wr_id r =? id)%Z then Some (r, l) else '(x, l) ← remove_registration id l; Some (x, r :: l)
  end.
Definition delete_webauthn (data : DeleteU2FData) (headers : Headers) : M Json :=
  let* id := into_i32 (du_id data) in
  let* valid := User_check_valid_password (h_user headers) (du_master_password_hash data) in
  do* ensure valid "Invalid password" in
  let* found := TwoFactor_find_by_user_and_type (u_uuid (h_user headers)) (TwoFactorType_to_i32 Webauthn) in
  let* tf := some_or_err found "Webauthn data not found!" in
  let* l := some_or_err (from_json_str (tf_data tf)) "Serde" in
  let* (removed_item, l) := some_or_err (remove_registration id l) "Webauthn entry not found" in
  do* TwoFactor_save (tf <| tf_data := to_json_string l |>) in
  let* found := TwoFactor_find_by_user_and_type (u_uuid (h_user headers)) (TwoFactorType_to_i32 U2f) in
  do* match found with
      | Some u2f =>
         let* d := some_or_err (from_json_str (tf_data u2f)) "Error parsing U2F data" in
         let d := filter (λ r, rg_key_handle (u2f_reg r) ≠ cred_id W (wr_credential removed_item)) (d : list U2FRegistration) in
         TwoFactor_save (u2f <| tf_data := to_json_string d |>)
      | None => mret tt
      end in
  mret (keys_answer true l "twoFactorU2f").

(** *** At login *)

Definition login_options (app_id : string) (r : RequestOptions (RequestRest W)) : RequestOptions (RequestRest W) :=
  let x := default (mkRequestExtensions None None None) (ro_extensions r) in
  mkRequestOptions Discouraged (Some (mkRequestExtensions (Some app_id) (rx_uvm x) (rx_hmac_get_secret x))) (ro_rest r).
Definition generate_webauthn_login (user_id : string) : M Json :=
  let* (_, registrations) := get_webauthn_registrations user_id in
  let creds := wr_credential <$> registrations in
  do* ensure (negb (length creds =? 0)) "No Webauthn devices registered" in
  let* started := next (λ _ i, start_passkey_authentication W i creds) in
  let* (response, state) := some_or_err started "Webauthn" in
  let* state := mexpect (json_index_with "ast" (json_index_set "policy" (JStr Discouraged)) (authentication_to_value W state)) in
  let* domain := conf domain in
  let app_id := domain +:+ "/app-id.json" in
  let* state := mexpect (json_index_with "ast" (json_index_set "appid" (JStr app_id)) state) in
  let* text := ask (λ e, json_text e state) in
  let* tf := TwoFactor_new user_id WebauthnLoginChallenge text in
  do* TwoFactor_save tf in
  mret (request_to_value W (login_options app_id response)).

(** The first registration with the identifier, with its flags set, and whether
    that changed them *)
Fixpoint mark_backup (rsp_id : bytes) (eligible state : bool) (l : list (WebauthnRegistration W)) : list (WebauthnRegistration W) * bool :=
  match l with
  | [] => ([], false)
  | reg :: l =>
     if bool_decide (cred_id W (wr_credential reg) = rsp_id) then
       let (reg, changed) := set_backup_eligible reg eligible state in (reg :: l, changed)
     else let (l, changed) := mark_backup rsp_id eligible state l in (reg :: l, changed)
  end.
Definition FLAG_BACKUP_ELIGIBLE : Z := 8.
Definition FLAG_BACKUP_STATE : Z := 16.
Definition check_and_update_backup_eligible (rsp : PublicKeyCredential (Ext W)) (registrations : list (WebauthnRegistration W))
    (state : PasskeyAuthentication W) : M (bool * list (WebauthnRegistration W) * PasskeyAuthentication W) :=
  match aa_authenticator_data (pc_response rsp) !! 32 with
  | Some bits =>
     let eligible := negb (Z.land bits FLAG_BACKUP_ELIGIBLE =? 0)%Z in
     let bstate := negb (Z.land bits FLAG_BACKUP_STATE =? 0)%Z in
     if eligible then
       let (registrations, changed) := mark_backup (pc_raw_id rsp) eligible bstate registrations in
       if changed then
         let* raw_state := mexpect (set_state_backup W (pc_raw_id rsp) eligible bstate (authentication_to_value W state)) in
         let* state := some_or_err (authentication_from_value W raw_state) "Serde" in
         mret (true, registrations, state)
       else mret (false, registrations, state)
     else mret (false, registrations, state)
  | None => mret (false, registrations, state)
  end.

(** The first registration with the identifier of the result, updated by it *)
Fixpoint update_registration (r : AuthenticationResult W) (l : list (WebauthnRegistration W))
    : option (bool * list (WebauthnRegistration W)) :=
  match l with
  | [] => None
  | reg :: l =>
     if bool_decide (cred_id W (wr_credential reg) = result_cred_id W r) then
       let (updated, credential) := update_credential W (wr_credential reg) r in
       Some (bool_decide (updated = Some true), mkWebauthnRegistration (wr_id reg) (wr_name reg) (wr_migrated reg) credential :: l)
     else '(updated, l) ← update_registration r l; Some (updated, reg :: l)
  end.
Definition validate_webauthn_login (user_id response : string) : M unit :=
  let* found := TwoFactor_find_by_user_and_type user_id (TwoFactorType_to_i32 WebauthnLoginChallenge) in
  match found with
  | None => err_event "Can't recover login challenge" UserFailedLogIn2fa
  | Some tf =>
     let* state := some_or_err (authentication_from_str W (tf_data tf)) "Serde" in
     do* TwoFactor_delete tf in
     let* rsp := some_or_err (credential_from_str W response) "Serde" in
     let rsp := PublicKeyCredential_from rsp in
     let* (_, registrations) := get_webauthn_registrations user_id in
     let* (backup_flags_updated, registrations, state) := check_and_update_backup_eligible rsp registrations state in
     let* authentication_result := some_or_err (finish_passkey_authentication W rsp state) "Webauthn" in
     match update_registration authentication_result registrations with
     | Some (credential_updated, registrations) =>
        if credential_updated || backup_flags_updated then
          let* tf := TwoFactor_new user_id Webauthn (to_json_string registrations) in TwoFactor_save tf
        else mret tt
     | None => err_event "Credential not present" UserFailedLogIn2fa
     end
  end.
End webauthn.
