(* ===== verification/DuoFactor.v ===== *)
(** * Duo

    [server/src/api/core/two_factor/duo.rs] and [duo_oidc.rs] with
    [server/src/db/models/two_factor_duo_context.rs]: the settings of the factor,
    the older login by signed values, and the login by a redirect to Duo, for which
    a context is stored between two requests.  Messages that print an error of a
    library are given without it.  The theorems are in [ExternalFactors]. *)

From Stdlib Require Import Ascii.
From stdpp Require Import base strings numbers pretty gmap list.
From S2P Require Import Prelude Store JsonUtil Users Orgs AuthRequests TwoFactor Login DeviceApproval SecurityKeys.

(** [str::split] *)
Fixpoint split_char (sep : Ascii.ascii) (s : string) : list string :=
  match s with
  | EmptyString => [""]
  | String c s =>
     if Ascii.eqb c sep then "" :: split_char sep s
     else match split_char sep s with x :: l => String c x :: l | [] => [String c ""] end
  end.
Definition NEWLINE : string := String (Ascii.ascii_of_nat 10) EmptyString.
(** [err!] with the event of a failed attempt *)
Definition err_2fa {A} (msg : string) : M A := err_event msg UserFailedLogIn2fa.

(** ** two_factor_duo_context.rs *)

Definition TwoFactorDuoContext_find_by_state (state : string) : M (option TwoFactorDuoContext) :=
  query (λ d, twofactor_duo_ctx d !! state).
Definition TwoFactorDuoContext_save (state user_email nonce : string) (ttl : Z) : M unit :=
  let* exists_ := TwoFactorDuoContext_find_by_state state in
  match exists_ with
  | Some _ => mret tt
  | None =>
     let* t := ask now in
     exec (λ d, d <| twofactor_duo_ctx :=
       <[state := mkTwoFactorDuoContext state user_email nonce (timestamp t + ttl)%Z]> (twofactor_duo_ctx d) |>)
  end.
Definition TwoFactorDuoContext_find_expired : M (list TwoFactorDuoContext) :=
  let* t := ask now in
  query (λ d, load (λ c, (dc_exp c <? timestamp t)%Z) (twofactor_duo_ctx d)).
Definition TwoFactorDuoContext_delete (self : TwoFactorDuoContext) : M unit :=
  exec (λ d, d <| twofactor_duo_ctx := delete (dc_state self) (twofactor_duo_ctx d) |>).
Definition purge_expired_duo_contexts : M unit :=
  let* l := TwoFactorDuoContext_find_expired in
  for_each l (λ context, mignore (TwoFactorDuoContext_delete context)).
Definition purge_duo_contexts : M unit := purge_expired_duo_contexts.

(** ** duo.rs: settings *)

Record DuoData := mkDuoData { du_host : string; du_ik : string; du_sk : string }.
Definition DuoData_global : M (option DuoData) :=
  let* enabled := conf enable_duo in
  let* host := conf duo_host in
  match enabled, host with
  | true, Some host =>
     let* ikey := conf duo_ikey in
     let* ik := mexpect ikey in
     let* skey := conf duo_skey in
     let* sk := mexpect skey in
     mret (Some (mkDuoData host ik sk))
  | _, _ => mret None
  end.
Definition DuoData_msg (s : string) : DuoData := mkDuoData s s s.
Definition DuoData_secret : DuoData := DuoData_msg "<global_secret>".
(** [String::replace_range(4.., "************")], which panics on a shorter text *)
Definition replace_tail (s : string) : M string :=
  let* start := mexpect (get_prefix 4 s) in mret (start +:+ "************").
Definition DuoData_obscure (self : DuoData) : M DuoData :=
  let* host := replace_tail (du_host self) in
  let* ik := replace_tail (du_ik self) in
  let* sk := replace_tail (du_sk self) in
  mret (mkDuoData host ik sk).

(** With a flag: whether there is a global setting *)
Inductive DuoStatus := DuoGlobal (data : DuoData) | DuoUser (data : DuoData) | DuoDisabled (global : bool).
Definition DuoStatus_data (self : DuoStatus) : option DuoData :=
  match self with DuoGlobal data | DuoUser data => Some data | DuoDisabled _ => None end.
Definition DISABLED_MESSAGE_DEFAULT : string := "<To use the global Duo keys, please leave these fields untouched>".

Record EnableDuoData := mkEnableDuoData {
  ed_host : string; ed_client_secret : string; ed_client_id : string; ed_master_password_hash : option string; ed_otp : option string }.
Definition DuoData_from (d : EnableDuoData) : DuoData := mkDuoData (ed_host d) (ed_client_id d) (ed_client_secret d).
Definition empty_or_default (s : string) : bool :=
  bool_decide (string_trim s = "") || bool_decide (s = DISABLED_MESSAGE_DEFAULT).
Definition check_duo_fields_custom (data : EnableDuoData) : bool :=
  negb (empty_or_default (ed_host data)) && negb (empty_or_default (ed_client_secret data)) && negb (empty_or_default (ed_client_id data)).

Definition duo_answer (enabled : bool) (data : option DuoData) : Json :=
  JObj [("enabled", JBool enabled); ("host", json_opt JStr (du_host <$> data)); ("clientSecret", json_opt JStr (du_sk <$> data));
        ("clientId", json_opt JStr (du_ik <$> data)); ("object", JStr "twoFactorDuo")].

Section duo.
Context `{!Serde ProtectedActionData pa_stored, !Serde DuoData id}.
(** [hmac::sign] with SHA-1, base64, and a date as of RFC 2822 *)
Context (hmac_sha1 : bytes → bytes → bytes) (base64_encode : bytes → string) (base64_decode : string → option bytes).
Context (to_rfc2822 : Z → string).
(** A request that Duo's service answers without an error, at a call: method,
    address, user, password, date *)
Context (duo_accepts : nat → string → string → string → string → string → bool).
(** [get_duo_akey]: the key of the settings, made up when it is first used *)
Context (duo_akey : string).

Definition hmac_sign (e : Env) (key data : string) : string := encode_hexlower e (hmac_sha1 (string_bytes key) (string_bytes data)).

Definition get_user_duo_data (user_id : string) : M DuoStatus :=
  let* found := TwoFactor_find_by_user_and_type user_id (TwoFactorType_to_i32 Duo) in
  match found with
  | None => let* global := DuoData_global in mret (DuoDisabled (bool_decide (is_Some global)))
  | Some twofactor =>
     match from_json_str (tf_data twofactor) with
     | Some data => mret (DuoUser data)
     | None => let* global := DuoData_global in mret (match global with Some global => DuoGlobal global | None => DuoDisabled false end)
     end
  end.

Definition get_duo (data : PasswordOrOtpData) (headers : Headers) : M Json :=
  let user := h_user headers in
  do* PasswordOrOtpData_validate data user false in
  let* data := get_user_duo_data (u_uuid user) in
  match data with
  | DuoGlobal _ => mret (duo_answer true (Some DuoData_secret))
  | DuoUser data => let* data := DuoData_obscure data in mret (duo_answer true (Some data))
  | DuoDisabled true => mret (duo_answer false (Some (DuoData_msg DISABLED_MESSAGE_DEFAULT)))
  | DuoDisabled false => mret (duo_answer false None)
  end.

Definition duo_api_request (method path params : string) (data : DuoData) : M unit :=
  let url := "https://" +:+ du_host data +:+ path in
  let* dt := ask (λ e, to_rfc2822 (now e)) in
  let fields := dt +:+ NEWLINE +:+ method +:+ NEWLINE +:+ du_host data +:+ NEWLINE +:+ path +:+ NEWLINE +:+ params in
  let* password := ask (λ e, hmac_sign e (du_sk data) fields) in
  let* ok := next (λ _ i, duo_accepts i method url (du_ik data) password dt) in
  ensure ok "Req".

Definition activate_duo (data : EnableDuoData) (headers : Headers) : M Json :=
  let user := h_user headers in
  do* PasswordOrOtpData_validate (mkPasswordOrOtpData (ed_master_password_hash data) (ed_otp data)) user true in
  let* (data, data_str) :=
    (if check_duo_fields_custom data then
       let data_req := DuoData_from data in
       do* map_res (duo_api_request "GET" "/auth/v2/check" "" data_req) "Failed to validate Duo credentials" in
       let* shown := DuoData_obscure data_req in
       mret (shown, to_json_string data_req)
     else mret (DuoData_secret, "")) in
  let* twofactor := TwoFactor_new (u_uuid user) Duo data_str in
  do* TwoFactor_save twofactor in
  let* user := generate_recover_code user in
  do* log_user_event UserUpdated2fa (u_uuid user) (h_device_type headers) (h_ip headers) in
  mret (duo_answer true (Some data)).
Definition activate_duo_put := activate_duo.

(** ** duo.rs: login by signed values *)

Definition DUO_EXPIRE : Z := 300.
Definition APP_EXPIRE : Z := 3600.
Definition AUTH_PREFIX : string := "AUTH".
Definition DUO_PREFIX : string := "TX".
Definition APP_PREFIX : string := "APP".

(** ik, sk, ak, host *)
Definition get_duo_keys_email (email : string) : M (string * string * string * string) :=
  let* found := User_find_by_mail email in
  let* data :=
    match found with
    | Some u => let* status := get_user_duo_data (u_uuid u) in mret (DuoStatus_data status)
    | None => DuoData_global
    end in
  let* data := some_or_err data "Can't fetch Duo Keys" in
  mret (du_ik data, du_sk data, duo_akey, du_host data).

Definition sign_duo_values (e : Env) (key email ikey prefix : string) (expire : Z) : string :=
  let val := email +:+ "|" +:+ ikey +:+ "|" +:+ pretty expire in
  let cookie := prefix +:+ "|" +:+ base64_encode (string_bytes val) in
  cookie +:+ "|" +:+ hmac_sign e key cookie.
Definition generate_duo_signature (email : string) : M (string * string) :=
  let* t := ask now in
  let* (ik, sk, ak, host) := get_duo_keys_email email in
  let* duo_sign := ask (λ e, sign_duo_values e sk email ik DUO_PREFIX (timestamp t + DUO_EXPIRE)%Z) in
  let* app_sign := ask (λ e, sign_duo_values e ak email ik APP_PREFIX (timestamp t + APP_EXPIRE)%Z) in
  mret (duo_sign +:+ ":" +:+ app_sign, host).

Definition parse_duo_values (key val ikey prefix : string) (time : Z) : M string :=
  match split_char "|"%char val with
  | [u_prefix; u_b64; u_sig] =>
     let* sig := ask (λ e, hmac_sign e key (u_prefix +:+ "|" +:+ u_b64)) in
     let* same := ask (λ e, ct_eq (hmac_sign e key sig) (hmac_sign e key u_sig)) in
     do* ensure same "Duo signatures don't match" in
     do* ensure (bool_decide (u_prefix = prefix)) "Prefixes don't match" in
     let* cookie_vec := some_or_err (base64_decode u_b64) "Invalid Duo cookie encoding" in
     do* ensure (utf8_ok cookie_vec) "Invalid Duo cookie encoding" in
     match split_char "|"%char (string_of_chars cookie_vec) with
     | [username; u_ikey; expire] =>
        do* ensure (ct_eq ikey u_ikey) "Invalid ikey" in
        let* expire := some_or_err (parse_i64 (NString expire)) "Invalid expire time" in
        do* ensure (negb (expire <=? time)%Z) "Expired authorization" in
        mret username
     | _ => err "Invalid cookie length"
     end
  | _ => err "Invalid value length"
  end.
Definition duo_validate_iframe (email response : string) : M unit :=
  match split_char ":"%char response with
  | [auth_sig; app_sig] =>
     let* t := ask now in
     let* (ik, sk, ak, _) := get_duo_keys_email email in
     let* auth_user := parse_duo_values sk auth_sig ik AUTH_PREFIX (timestamp t) in
     let* app_user := parse_duo_values ak app_sig ik APP_PREFIX (timestamp t) in
     if negb (ct_eq auth_user app_user) || negb (ct_eq auth_user email) then err_2fa "Error validating duo authentication"
     else mret tt
  | _ => err_2fa "Invalid response length"
  end.

(** ** duo_oidc.rs: login by a redirect *)

Definition DUO_REDIRECT_LOCATION : string := "duo-redirect-connector.html".
Definition JWT_VALIDITY_SECS : Z := 300.
Definition CTX_VALIDITY_SECS : Z := 300.
Definition STATE_LENGTH : nat := 64.
End duo.

Record ClientAssertion := mkClientAssertion { cla_iss : string; cla_sub : string; cla_aud : string; cla_exp : Z; cla_jti : string; cla_iat : Z }.
Record AuthorizationRequest := mkAuthorizationRequest {
  arq_response_type : string; arq_scope : string; arq_exp : Z; arq_client_id : string; arq_redirect_uri : string; arq_state : string;
  arq_duo_uname : string; arq_iss : string; arq_aud : string; arq_nonce : string }.
Inductive HealthCheckResponse := HealthOK (stat : string) | HealthFail (message message_detail : string).
Record IdTokenResponse := mkIdTokenResponse { it_id_token : string; it_access_token : string; it_expires_in : Z; it_token_type : string }.
Record IdTokenClaims := mkIdTokenClaims { ic_preferred_username : string; ic_nonce : string }.
Record DuoClient := mkDuoClient { cl_client_id : string; cl_client_secret : string; cl_api_host : string; cl_redirect_uri : string }.

(** What the client calls outside: Duo's service at a call, the token library
    with the secret of the client, and the [url] crate. *)
Record DuoLib := mkDuoLib {
  (** a request with a form is answered: status and body *)
  duo_post : nat → string → list (string * string) → option (Z * string);
  encode_assertion : string → ClientAssertion → option string;
  encode_authorization : string → AuthorizationRequest → option string;
  (** at a time, for an audience and an issuer *)
  decode_id_token : Z → string → string → string → string → option IdTokenClaims;
  health_from_str : string → option HealthCheckResponse;
  id_token_from_str : string → option IdTokenResponse;
  sha512_256 : bytes → bytes;
  Url : Type;
  Url_parse : string → option Url;
  Url_join : Url → string → option Url;
  append_pair : Url → string → string → Url;
  Url_to_string : Url → string;
}.

Section duo_oidc.
Context `{!Serde DuoData id} (duo_akey : string) (L : DuoLib).

Definition new_client_assertion (self : DuoClient) (url : string) : M ClientAssertion :=
  let* t := ask now in
  let* jwt_id := get_random_string_alphanum STATE_LENGTH in
  mret (mkClientAssertion (cl_client_id self) (cl_client_id self) url (timestamp t + JWT_VALIDITY_SECS)%Z jwt_id (timestamp t)).
Definition signed_assertion (self : DuoClient) (url : string) : M string :=
  let* jwt_payload := new_client_assertion self url in
  some_or_err (encode_assertion L (cl_client_secret self) jwt_payload) "Error encoding Duo JWT".

Definition health_check (self : DuoClient) : M unit :=
  let health_check_url := "https://" +:+ cl_api_host self +:+ "/oauth/v1/health_check" in
  let* token := signed_assertion self health_check_url in
  let* res := next (λ _ i, duo_post L i health_check_url [("client_assertion", token); ("client_id", cl_client_id self)]) in
  let* (_, body) := some_or_err res "Error requesting Duo health check" in
  let* response := some_or_err (health_from_str L body) "Duo health check response decode error" in
  match response with
  | HealthOK health_stat =>
     ensure (bool_decide (health_stat = "OK")) ("Duo health check failed, got OK-like body with stat " +:+ health_stat)
  | HealthFail message message_detail => err ("Duo health check FAIL response, msg: " +:+ message +:+ ", detail: " +:+ message_detail)
  end.

Definition make_authz_req_url (self : DuoClient) (duo_username state nonce : string) : M string :=
  let* t := ask now in
  let jwt_payload := mkAuthorizationRequest "code" "openid" (timestamp t + JWT_VALIDITY_SECS)%Z (cl_client_id self) (cl_redirect_uri self)
                       state duo_username (cl_client_id self) ("https://" +:+ cl_api_host self) nonce in
  let* token := some_or_err (encode_authorization L (cl_client_secret self) jwt_payload) "Error encoding Duo JWT" in
  let* auth_url := some_or_err (Url_parse L ("https://" +:+ cl_api_host self +:+ "/oauth/v1/authorize")) "Error parsing Duo authorization URL" in
  let auth_url := append_pair L auth_url "response_type" "code" in
  let auth_url := append_pair L auth_url "client_id" (cl_client_id self) in
  let auth_url := append_pair L auth_url "request" token in
  mret (Url_to_string L auth_url).

Definition exchange_authz_code_for_result (self : DuoClient) (duo_code duo_username nonce : string) : M unit :=
  do* ensure (negb (bool_decide (duo_code = ""))) "Empty Duo authorization code" in
  let token_url := "https://" +:+ cl_api_host self +:+ "/oauth/v1/token" in
  let* token := signed_assertion self token_url in
  let* res := next (λ _ i, duo_post L i token_url
    [("grant_type", "authorization_code"); ("code", duo_code); ("redirect_uri", cl_redirect_uri self);
     ("client_assertion_type", "urn:ietf:params:oauth:client-assertion-type:jwt-bearer"); ("client_assertion", token)]) in
  let* (status_code, body) := some_or_err res "Error exchanging Duo code" in
  do* ensure (status_code =? 200)%Z ("Failure response from Duo: " +:+ pretty status_code) in
  let* response := some_or_err (id_token_from_str L body) "Error decoding ID token response" in
  let* t := ask now in
  let* claims := some_or_err (decode_id_token L t (cl_client_secret self) (cl_client_id self) token_url (it_id_token response)) "Failed to decode Duo token" in
  let matching_nonces := ct_eq nonce (ic_nonce claims) in
  let matching_usernames := ct_eq duo_username (ic_preferred_username claims) in
  ensure (matching_nonces && matching_usernames) "Error validating Duo authorization, nonce or username mismatch.".

(** The context, which is deleted *)
Definition extract_context (state : string) : M (option TwoFactorDuoContext) :=
  let* found := TwoFactorDuoContext_find_by_state state in
  match found with
  | None => mret None
  | Some ctx =>
     let* t := ask now in
     do* mignore (TwoFactorDuoContext_delete ctx) in
     mret (if (dc_exp ctx <? timestamp t)%Z then None else Some ctx)
  end.

Definition make_callback_url (client_name : string) : M string :=
  let* domain := conf domain in
  let* base := some_or_err (Url_parse L (domain +:+ "/")) "Error parsing configured domain URL (check your domain configuration)" in
  let* callback := some_or_err (Url_join L base DUO_REDIRECT_LOCATION) "Error constructing Duo redirect URL (check your domain configuration)" in
  mret (Url_to_string L (append_pair L callback "client" client_name)).

(** The nonce is bound to the device. *)
Definition hashed_nonce (e : Env) (nonce device_identifier : string) : string :=
  encode_hexlower e (sha512_256 L (string_bytes (nonce +:+ device_identifier))).

Definition get_duo_auth_url (email client_id device_identifier : string) : M string :=
  let* (ik, sk, _, host) := get_duo_keys_email duo_akey email in
  let* callback_url := make_callback_url client_id in
  let client := mkDuoClient ik sk host callback_url in
  do* health_check client in
  let* state := get_random_string_alphanum STATE_LENGTH in
  let* nonce := get_random_string_alphanum STATE_LENGTH in
  let* hash := ask (λ e, hashed_nonce e nonce device_identifier) in
  do* TwoFactorDuoContext_save state email nonce CTX_VALIDITY_SECS in
  make_authz_req_url client email state hash.

Definition duo_validate_oidc (email two_factor_token client_id device_identifier : string) : M unit :=
  match split_char "|"%char two_factor_token with
  | [code; state] =>
     let* (ik, sk, _, host) := get_duo_keys_email duo_akey email in
     let* found := extract_context state in
     match found with
     | None => err_2fa "Error validating duo authentication"
     | Some ctx =>
        let matching_usernames := ct_eq email (dc_user_email ctx) in
        let matching_states := ct_eq state (dc_state ctx) in
        let* t := ask now in
        let unexpired_context := (timestamp t <? dc_exp ctx)%Z in
        if negb (matching_usernames && matching_states && unexpired_context) then err_2fa "Error validating duo authentication"
        else
          let* callback_url := make_callback_url client_id in
          let client := mkDuoClient ik sk host callback_url in
          do* health_check client in
          let* hash := ask (λ e, hashed_nonce e (dc_nonce ctx) device_identifier) in
          λ e w, match exchange_authz_code_for_result client code email hash e w with
                 | (Ok _, w) => (Ok tt, w)
                 | (Err _, w) => err_2fa "Error validating duo authentication" e w
                 | (Panic, w) => (Panic, w)
                 end
     end
  | _ => err_2fa "Invalid response length"
  end.
End duo_oidc.
