(* ===== verification/ExternalFactors.v ===== *)
(** * External second factors

    What a login with a YubiKey, a WebAuthn key or Duo requires, as theorems about
    [SecurityKeys] and [DuoFactor]; and the login with all of them, where these
    definitions take the place of the services of [Login]. *)

From Stdlib Require Import Ascii.
From stdpp Require Import base strings numbers pretty gmap list.
From S2P Require Import Prelude Store JsonUtil Users Orgs AuthRequests TwoFactor TotpReplay OneTimeCodes.
From S2P Require Import Login LoginSafety DeviceApproval SecurityKeys DuoFactor.

(** ** Duo: a context is used once *)

Lemma keeps_random_string {X} (π : Db → X) l n : keeps π (get_random_string l n).
Proof. induction n; simpl; solve_keeps; auto. Qed.
Lemma keeps_map_res {A X} (π : Db → X) (m : M A) msg : keeps π m → keeps π (map_res m msg).
Proof. intros Hm e w. specialize (Hm e w). unfold wp, map_res in *. by destruct (m e w) as [[] ?]. Qed.
#[export] Hint Resolve keeps_random_string keeps_map_res : frame.
Lemma reads_DuoData_global : reads DuoData_global.
Proof. unfold DuoData_global. do 2 (apply reads_bind; [solve_reads|intros]). destruct a, a0; solve_reads. Qed.
#[export] Hint Resolve reads_DuoData_global : frame.

Section duo_oidc.
Context `{!Serde DuoData id} (duo_akey : string) (L : DuoLib).
Abbreviation keys := (get_duo_keys_email duo_akey).
Abbreviation begin_login := (get_duo_auth_url duo_akey L).
Abbreviation finish_login := (duo_validate_oidc duo_akey L).

Lemma reads_keys email : reads (keys email).
Proof. unfold get_duo_keys_email, get_user_duo_data. repeat (solve_reads; case_match). Qed.
Lemma keeps_health {X} (π : Db → X) c : keeps π (health_check L c).
Proof.
  unfold health_check, signed_assertion, new_client_assertion, get_random_string_alphanum. solve_keeps.
  all: case_match; solve_keeps.
Qed.
Lemma keeps_exchange {X} (π : Db → X) c code u n : keeps π (exchange_authz_code_for_result L c code u n).
Proof. unfold exchange_authz_code_for_result, signed_assertion, new_client_assertion, get_random_string_alphanum. solve_keeps. Qed.
Lemma reads_callback name : reads (make_callback_url L name).
Proof. unfold make_callback_url. solve_reads. Qed.
#[local] Hint Resolve reads_keys reads_callback keeps_health keeps_exchange : frame.

Abbreviation ctx w := (twofactor_duo_ctx (db w)).
(** A step that leaves the contexts alone, up to its result. *)
Lemma wp_same_ctx {A} (m : M A) e w (Φ : res Error A → World → Prop) :
  keeps twofactor_duo_ctx m → (∀ r w', ctx w' = ctx w → Φ r w') → wp m e w Φ.
Proof. apply wp_keeps. Qed.

(** Beginning a login adds at most one context, for the address it is for. *)
Lemma begin_spec email c d e w :
  wp (begin_login email c d) e w (λ _ w', ctx w' = ctx w ∨ ∃ s nonce, ctx w !! s = None ∧
    ctx w' = <[s := mkTwoFactorDuoContext s email nonce (timestamp (now e) + CTX_VALIDITY_SECS)]> (ctx w)).
Proof.
  unfold get_duo_auth_url. apply wp_bind, wp_reads; [auto with frame|]. intros [[[[ik sk] ak] host]|x|]; wp_step; [|by left..].
  apply wp_bind, wp_reads; [auto with frame|]. intros [url|x|]; wp_step; [|by left..].
  apply wp_bind, wp_same_ctx; [auto with frame|]. intros [[]|x|] w1 Hw1; wp_step; [|by left..].
  unfold get_random_string_alphanum.
  apply wp_bind, wp_same_ctx; [auto with frame|]. intros [s|x|] w2 Hw2; wp_step; [|left; congruence..].
  apply wp_bind, wp_same_ctx; [auto with frame|]. intros [nonce|x|] w3 Hw3; wp_step; [|left; congruence..].
  wp_step. wp_step. wp_step. unfold TwoFactorDuoContext_save, TwoFactorDuoContext_find_by_state.
  assert (ctx w3 = ctx w) as E by congruence. wp_step. wp_step. wp_step. wp_step. rewrite E.
  destruct (ctx w !! s) as [c0|] eqn:Hs.
  - wp_step. wp_step. apply wp_same_ctx; [unfold make_authz_req_url; solve_keeps|]. intros r w4 Hw4. left. congruence.
  - wp_step. wp_step. wp_step. wp_step. wp_step. apply wp_same_ctx; [unfold make_authz_req_url; solve_keeps|]. intros r w4 Hw4.
    right. exists s, nonce. split; [done|]. rewrite Hw4. simpl. by rewrite E.
Qed.

(** Duo's answer about a code: a token for the client, signed with its secret,
    that names the user and carries the nonce. *)
Definition duo_vouches (e : Env) (cl : DuoClient) (code user nonce : string) : Prop :=
  let url := "https://" +:+ cl_api_host cl +:+ "/oauth/v1/token" in
  ∃ i form body response claims,
    duo_post L i url form = Some (200%Z, body) ∧ ("code", code) ∈ form ∧ id_token_from_str L body = Some response ∧
    decode_id_token L (now e) (cl_client_secret cl) (cl_client_id cl) url (it_id_token response) = Some claims ∧
    ic_preferred_username claims = user ∧ ic_nonce claims = nonce.
Lemma exchange_Ok cl code user nonce e w u w' :
  exchange_authz_code_for_result L cl code user nonce e w = (Ok u, w') → duo_vouches e cl code user nonce.
Proof.
  unfold exchange_authz_code_for_result. intros H. ok_inv H. destruct a1 as [status body]. ok_inv H.
  apply Z.eqb_eq in Hrun2 as ->. apply andb_true_iff in H as [Hn Hu].
  unfold ct_eq in Hn, Hu. apply bool_decide_eq_true in Hn as ->. apply bool_decide_eq_true in Hu as ->.
  do 5 eexists. split_and!; [exact Hrun1|right; left|done..].
Qed.

(** The second request uses up the context it names, whatever comes of it; and it
    succeeds only if the context is for the same address, has not expired, and Duo
    vouches for the user with the nonce of the context, bound to the device. *)
Definition duo_confirmed (e : Env) (w w' : World) (email token device : string) : Prop :=
  ∃ code state c ik sk ak host url,
    split_char "|"%char token = [code; state] ∧ keys email e w = (Ok (ik, sk, ak, host), w) ∧
    ctx w !! state = Some c ∧ dc_user_email c = email ∧ (timestamp (now e) < dc_exp c)%Z ∧ ctx w' = delete state (ctx w) ∧
    duo_vouches e (mkDuoClient ik sk host url) code email (hashed_nonce L e (dc_nonce c) device).
Lemma extract_run state e w :
  extract_context state e w =
  match ctx w !! state with
  | None => (Ok None, w)
  | Some c => (Ok (if (dc_exp c <? timestamp (now e))%Z then None else Some c),
               w <| db := (db w) <| twofactor_duo_ctx := delete (dc_state c) (ctx w) |> |>)
  end.
Proof.
  unfold extract_context, TwoFactorDuoContext_find_by_state, TwoFactorDuoContext_delete, mbind, query. simpl.
  by destruct (ctx w !! state).
Qed.
(** The rest of the second request, once the context is out. *)
Lemma finish_rest cl client code email c device e w :
  wp (let* callback_url := make_callback_url L client in
      do* health_check L (cl callback_url) in
      let* hash := ask (λ e, hashed_nonce L e (dc_nonce c) device) in
      λ e w, match exchange_authz_code_for_result L (cl callback_url) code email hash e w with
             | (Ok _, w) => (Ok tt, w)
             | (Err _, w) => err_2fa "Error validating duo authentication" e w
             | (Panic, w) => (Panic, w)
             end) e w
     (λ r w', ctx w' = ctx w ∧ ∀ u, r = Ok u → ∃ url, duo_vouches e (cl url) code email (hashed_nonce L e (dc_nonce c) device)).
Proof.
  apply wp_bind, wp_reads; [auto with frame|]. intros [url|x|]; wp_step; [|by split..].
  apply wp_bind, wp_same_ctx; [auto with frame|]. intros [[]|x|] w1 Hw1; wp_step; [|by split..].
  wp_step. wp_step. wp_step. apply wp_intro. intros r w2.
  pose proof (keeps_exchange twofactor_duo_ctx (cl url) code email (hashed_nonce L e (dc_nonce c) device) e w1) as Hk. unfold wp in Hk.
  destruct (exchange_authz_code_for_result _ _ _ _ _ _ _) as [[[]|x|] w3] eqn:Hx; intros [= <- <-]; simpl in Hk;
    (split; [congruence|done || intros _ _]). exists url. by eapply exchange_Ok.
Qed.
Lemma finish_spec email token client device e w :
  wp (finish_login email token client device) e w (λ r w',
    ctx w' ⊆ ctx w ∧ ∀ u, r = Ok u → duo_confirmed e w w' email token device).
Proof.
  unfold duo_validate_oidc. destruct (split_char _ token) as [|code [|state [|? ?]]] eqn:Hsplit; [by split..| |by split].
  apply wp_bind. destruct (reads_keys email e w) as [r Hkeys]. eapply wp_eq; [exact Hkeys|].
  destruct r as [[[[ik sk] ak] host]|x|]; wp_step; [|by split..].
  apply wp_bind. pose proof (extract_run state e w) as Hx. destruct (ctx w !! state) as [c|] eqn:Hc;
    (eapply wp_eq; [exact Hx|]); wp_step; [|by split]. destruct (dc_exp c <? timestamp (now e))%Z; [split; [apply delete_subseteq|done]|].
  wp_step. wp_step. wp_step. destruct (negb _) eqn:Hcheck; [split; [apply delete_subseteq|done]|].
  apply negb_false_iff in Hcheck. rewrite !andb_true_iff in Hcheck. destruct Hcheck as [[Hu Hs] Ht].
  apply bool_decide_eq_true in Hu. apply bool_decide_eq_true in Hs. apply Z.ltb_lt in Ht.
  eapply wp_mono; [apply (finish_rest (mkDuoClient ik sk host))|]. simpl. rewrite <- Hs. intros r w' [Hw' Hr].
  split; [rewrite Hw'; apply delete_subseteq|]. intros u Hu'. destruct (Hr u Hu') as [url Hv].
  by exists code, state, c, ik, sk, ak, host, url.
Qed.

(** *** Any sequence of requests *)

Inductive DuoCall :=
  | BeginDuo (email client device : string)
  | FinishDuo (email token client device : string)
  | PurgeDuo
  | Elsewhere (m : M unit).
(** A context was stored for an address; a login was accepted. *)
Inductive DuoEvent := Issued (state email : string) (t : Z) | LoggedIn (state email : string) (t : Z).
Definition duo_step (x : Env * DuoCall) (w : World) : list DuoEvent * World :=
  let (e, c) := x in
  match c with
  | BeginDuo email client device =>
     let w' := (begin_login email client device e w).2 in
     ((λ kv, Issued kv.1 email (timestamp (now e))) <$> map_to_list (ctx w' ∖ ctx w), w')
  | FinishDuo email token client device =>
     let (r, w') := finish_login email token client device e w in
     (match r, split_char "|"%char token with
      | Ok _, [_; state] => [LoggedIn state email (timestamp (now e))]
      | _, _ => []
      end, w')
  | PurgeDuo => ([], (purge_duo_contexts e w).2)
  | Elsewhere m => ([], (m e w).2)
  end.
Definition duo_history (l : list (Env * DuoCall)) (w : World) : list DuoEvent * World :=
  foldl (λ s x, let (ev, w') := duo_step x s.2 in (s.1 ++ ev, w')) ([], w) l.

(** The context of a state was issued, and has not been used since. *)
Definition unused (s email : string) (exp : Z) (log : list DuoEvent) : Prop :=
  ∃ l1 l2 t, log = l1 ++ Issued s email t :: l2 ∧ exp = (t + CTX_VALIDITY_SECS)%Z ∧
    ∀ email' t', LoggedIn s email' t' ∉ l2.
Record duo_inv (log : list DuoEvent) (t : gmap string TwoFactorDuoContext) : Prop := {
  inv_contexts : ∀ s c, t !! s = Some c → unused s (dc_user_email c) (dc_exp c) log;
  inv_accepted : ∀ l1 l2 s email now, log = l1 ++ LoggedIn s email now :: l2 → ∃ exp, unused s email exp l1 ∧ (now < exp)%Z;
}.
Lemma unused_snoc s email exp log x : unused s email exp log → (∀ m t, x ≠ LoggedIn s m t) → unused s email exp (log ++ [x]).
Proof.
  intros (l1 & l2 & t & -> & -> & H) Hx. exists l1, (l2 ++ [x]), t. rewrite <- app_assoc. split_and!; [done..|].
  intros m t' [Hin|Hin%list_elem_of_singleton]%elem_of_app; [by eapply H|by eapply Hx].
Qed.
Lemma duo_inv_sub log t t' : duo_inv log t → t' ⊆ t → duo_inv log t'.
Proof. intros [H1 H2] Hsub. split; [|done]. intros s c Hc. apply H1. by eapply lookup_weaken. Qed.
(** A new event comes last. *)
Lemma accepted_snoc log x :
  (∀ l1 l2 s email now, log = l1 ++ LoggedIn s email now :: l2 → ∃ exp, unused s email exp l1 ∧ (now < exp)%Z) →
  (∀ s email now, x = LoggedIn s email now → ∃ exp, unused s email exp log ∧ (now < exp)%Z) →
  ∀ l1 l2 s email now, log ++ [x] = l1 ++ LoggedIn s email now :: l2 → ∃ exp, unused s email exp l1 ∧ (now < exp)%Z.
Proof.
  intros Hlog Hx l1 l2 s email t. destruct l2 as [|y l2 _] using rev_ind.
  - intros [-> ->]%app_inj_tail. by eapply Hx.
  - rewrite app_comm_cons, app_assoc. intros [-> _]%app_inj_tail. by eapply Hlog.
Qed.
Lemma duo_inv_issue log t s c email t0 :
  duo_inv log t → t !! s = None → dc_user_email c = email → dc_exp c = (t0 + CTX_VALIDITY_SECS)%Z →
  duo_inv (log ++ [Issued s email t0]) (<[s := c]> t).
Proof.
  intros [H1 H2] Hs <- Hexp. split; [|apply accepted_snoc; [exact H2|done]].
  intros s' c' [(<- & <-)|(Hne & Hc)]%lookup_insert_Some.
  - exists log, [], t0. rewrite Hexp. split_and!; [done..|]. intros ?? []%not_elem_of_nil.
  - apply unused_snoc; [by apply H1|done].
Qed.
Lemma duo_inv_accept log t s c now :
  duo_inv log t → t !! s = Some c → (now < dc_exp c)%Z → duo_inv (log ++ [LoggedIn s (dc_user_email c) now]) (delete s t).
Proof.
  intros [H1 H2] Hs Hnow. split.
  - intros s' c' [Hne Hc]%lookup_delete_Some. apply unused_snoc; [by apply H1|]. by intros m t' [= ? _ _].
  - apply accepted_snoc; [exact H2|]. intros s' email now' [= <- <- <-]. exists (dc_exp c). split; [by apply H1|done].
Qed.

Lemma purge_sub e w : ctx (purge_duo_contexts e w).2 ⊆ ctx w.
Proof.
  enough (wp purge_duo_contexts e w (λ _ w', ctx w' ⊆ ctx w)) as H by exact H.
  unfold purge_duo_contexts, purge_expired_duo_contexts, TwoFactorDuoContext_find_expired, TwoFactorDuoContext_delete.
  do 6 wp_step. apply (wp_for_each _ _ _ _ (λ w', ctx w' ⊆ ctx w)); [done| |done].
  intros c w1 _ Hw1. wp_step. wp_step. simpl. etrans; [apply delete_subseteq|done].
Qed.
Lemma difference_insert_fresh (t : gmap string TwoFactorDuoContext) s c : t !! s = None → <[s := c]> t ∖ t = {[s := c]}.
Proof.
  intros Hs. apply map_eq. intros k. apply option_eq. intros x. rewrite lookup_difference_Some.
  destruct (decide (k = s)) as [->|Hne].
  - rewrite lookup_insert_eq, lookup_singleton_eq. naive_solver.
  - rewrite lookup_insert_ne, lookup_singleton_ne by done. naive_solver.
Qed.
Lemma duo_inv_step x log w :
  duo_inv log (ctx w) → (∀ m, x.2 = Elsewhere m → keeps twofactor_duo_ctx m) →
  duo_inv (log ++ (duo_step x w).1) (ctx (duo_step x w).2).
Proof.
  intros Hinv Hother. destruct x as [e [email client device|email token client device| |m]]; simpl.
  - pose proof (begin_spec email client device e w) as H. unfold wp in H. destruct H as [->|(s & nonce & Hs & ->)].
    + by rewrite map_difference_diag, map_to_list_empty, app_nil_r.
    + assert (<[s := mkTwoFactorDuoContext s email nonce (timestamp (now e) + CTX_VALIDITY_SECS)]> (ctx w) ∖ ctx w
        = {[s := mkTwoFactorDuoContext s email nonce (timestamp (now e) + CTX_VALIDITY_SECS)]}) as -> by (apply difference_insert_fresh; done).
      rewrite map_to_list_singleton. by apply duo_inv_issue.
  - pose proof (finish_spec email token client device e w) as H. unfold wp in H.
    destruct (finish_login email token client device e w) as [r w']. simpl in *. destruct H as [Hsub Hr].
    destruct r as [u|x|]; [|rewrite app_nil_r; by eapply duo_inv_sub..].
    destruct (Hr u eq_refl) as (code & s & c & _ & _ & _ & _ & _ & -> & _ & Hc & <- & Ht & -> & _).
    by apply duo_inv_accept.
  - rewrite app_nil_r. eapply duo_inv_sub; [done|apply purge_sub].
  - rewrite app_nil_r. specialize (Hother m eq_refl e w). unfold wp in Hother. by rewrite Hother.
Qed.
Lemma duo_history_snoc l x w :
  duo_history (l ++ [x]) w = ((duo_history l w).1 ++ (duo_step x (duo_history l w).2).1, (duo_step x (duo_history l w).2).2).
Proof. unfold duo_history. rewrite foldl_snoc. by destruct (duo_step _ _). Qed.

(** C23: a login by Duo needs a request of its own.  Whatever sequence of requests
    the server gets, of which only those for Duo touch the contexts: each accepted
    login goes back to a request that began a login for the same address less than
    five minutes before, and which no other login has used. *)
Theorem duo_login_once l w log1 log2 s email t :
  (∀ e m, (e, Elsewhere m) ∈ l → keeps twofactor_duo_ctx m) → ctx w = ∅ →
  (duo_history l w).1 = log1 ++ LoggedIn s email t :: log2 →
  ∃ l1 l2 t0, log1 = l1 ++ Issued s email t0 :: l2 ∧ (t < t0 + 300)%Z ∧ ∀ email' t', LoggedIn s email' t' ∉ l2.
Proof.
  intros Hother Hw Hlog. enough (duo_inv (duo_history l w).1 (ctx (duo_history l w).2)) as [_ H].
  { destruct (H _ _ _ _ _ Hlog) as (exp & (l1 & l2 & t0 & -> & -> & Hl2) & Ht). by exists l1, l2, t0. }
  clear Hlog. induction l as [|[e c] l IH] using rev_ind.
  - split; [|by intros [|? ?]]. simpl. rewrite Hw. done.
  - rewrite duo_history_snoc. apply duo_inv_step.
    + apply IH. intros e' m Hin. apply (Hother e'). apply elem_of_app. by left.
    + intros m Hm. simpl in Hm. subst c. apply (Hother e). apply elem_of_app. right. by left.
Qed.
End duo_oidc.

(** ** Duo: signed values *)

(** *** Texts and numbers *)

Fixpoint no_char (c : ascii) (s : string) : bool :=
  match s with EmptyString => true | String x s => negb (Ascii.eqb x c) && no_char c s end.
Lemma split_char_nosep c s : no_char c s = true → split_char c s = [s].
Proof.
  induction s as [|x s IH]; [done|]. simpl. rewrite andb_true_iff, negb_true_iff. intros [-> Hs]. by rewrite IH.
Qed.
Lemma split_char_app c a b : no_char c a = true → split_char c (a +:+ String c b) = a :: split_char c b.
Proof.
  induction a as [|x a IH]; simpl; [by rewrite Ascii.eqb_refl|]. rewrite andb_true_iff, negb_true_iff. intros [-> Ha]. by rewrite IH.
Qed.
Lemma split_three c x y z :
  no_char c x = true → no_char c y = true → no_char c z = true → split_char c (x +:+ String c (y +:+ String c z)) = [x; y; z].
Proof. intros Hx Hy Hz. by rewrite split_char_app, split_char_app, split_char_nosep. Qed.

Lemma chars_String c s : chars (String c s) = Z.of_N (N_of_ascii c) :: chars s.
Proof. done. Qed.
Lemma chars_append a b : chars (a +:+ b) = chars a ++ chars b.
Proof. induction a as [|c a IH]; [done|]. change (String c a +:+ b) with (String c (a +:+ b)). by rewrite !chars_String, IH. Qed.
Lemma string_of_chars_chars s : string_of_chars (chars s) = s.
Proof.
  induction s as [|c s IH]; [done|]. rewrite chars_String. unfold string_of_chars in *. rewrite fmap_cons. cbn [String.string_of_list_ascii].
  by rewrite IH, N2Z.id, ascii_N_embedding.
Qed.

(** [str::parse] reads what was printed. *)
Lemma pretty_N_char_digit x : (x < 10)%N → Z.of_N (N_of_ascii (pretty_N_char x)) = (48 + Z.of_N x)%Z ∧ Ascii.eqb (pretty_N_char x) "|"%char = false.
Proof.
  intros Hx. assert (x = 0 ∨ x = 1 ∨ x = 2 ∨ x = 3 ∨ x = 4 ∨ x = 5 ∨ x = 6 ∨ x = 7 ∨ x = 8 ∨ x = 9)%N as Hc by lia.
  by destruct_or!; subst.
Qed.
Lemma pretty_N_go_digits x s :
  parse_digits 0 (chars (pretty_N_go x s)) = parse_digits (Z.of_N x) (chars s) ∧ no_char "|"%char (pretty_N_go x s) = no_char "|"%char s.
Proof.
  revert s. induction (N.lt_wf_0 x) as [x _ IH]; intros s. assert (x = 0 ∨ 0 < x)%N as [->|Hx] by lia; [done|].
  rewrite pretty_N_go_step by done. destruct (IH (x `div` 10)%N ltac:(by apply N.div_lt) (String (pretty_N_char (x `mod` 10)) s)) as [-> ->].
  destruct (pretty_N_char_digit (x `mod` 10)%N) as [Hd Hb]; [by apply N.mod_lt|]. rewrite chars_String, Hd. simpl. rewrite Hb.
  split; [|done]. assert (Z.of_N (x `mod` 10) = Z.of_N x mod 10)%Z as E by apply N2Z.inj_mod.
  rewrite N2Z.inj_div, E. pose proof (Z.mod_pos_bound (Z.of_N x) 10 ltac:(lia)).
  rewrite (proj2 (Z.leb_le 48 _)), (proj2 (Z.leb_le _ 57)) by lia. simpl. f_equal.
  pose proof (Z.div_mod (Z.of_N x) 10 ltac:(lia)). lia.
Qed.
Lemma parse_signed_digits l n : l ≠ [] → parse_digits 0 l = Some n → parse_signed l = Some n.
Proof.
  destruct l as [|c l]; [done|]. intros _ Hn. pose proof Hn as Hc. simpl in Hc. destruct ((48 <=? c) && (c <=? 57))%Z eqn:E; [|done].
  apply andb_true_iff in E as [H1%Z.leb_le H2%Z.leb_le].
  assert (c = 48 ∨ c = 49 ∨ c = 50 ∨ c = 51 ∨ c = 52 ∨ c = 53 ∨ c = 54 ∨ c = 55 ∨ c = 56 ∨ c = 57)%Z as Hcs by lia.
  by destruct_or!; subst.
Qed.
Lemma parse_pretty n : (0 < n < 2 ^ 63)%Z → parse_i64 (NString (pretty n)) = Some n ∧ no_char "|"%char (pretty n) = true.
Proof.
  intros [Hn Hmax]. destruct n as [|p|p]; [lia| |lia].
  assert (pretty (Z.pos p) = pretty_N_go (N.pos p) "") as -> by done.
  destruct (pretty_N_go_digits (N.pos p) "") as [Hd ->]. split; [|done]. unfold parse_i64.
  rewrite (parse_signed_digits _ (Z.pos p)); [| |exact Hd].
  - simpl. unfold to_i64. rewrite (proj2 (Z.leb_le _ _)), (proj2 (Z.ltb_lt _ _)) by lia. done.
  - intros E. rewrite E in Hd. discriminate Hd.
Qed.

Lemma utf8_ok_app a b : utf8_ok a = true → utf8_ok (a ++ b) = utf8_ok b.
Proof.
  induction a as [a IH] using (induction_ltof1 _ length). unfold ltof in IH.
  destruct a as [|c1 a]; [done|]. cbn [utf8_ok app]. destruct (c1 <? 128)%Z; [apply IH; simpl; lia|].
  destruct a as [|c2 a]; [done|]. cbn [app]. destruct (_ && _); [intros [-> H]%andb_true_iff; apply IH; [simpl; lia|done]|].
  destruct a as [|c3 a]; [done|]. cbn [app]. destruct (_ && _); [intros [-> H]%andb_true_iff; apply IH; [simpl; lia|done]|].
  destruct a as [|c4 a]; [done|]. cbn [app]. intros [-> H]%andb_true_iff. apply IH; [simpl; lia|done].
Qed.

Lemma utf8_pretty n : (0 < n)%Z → utf8_ok (chars (pretty n)) = true.
Proof.
  intros Hn. destruct n as [|p|p]; [lia| |lia]. assert (pretty (Z.pos p) = pretty_N_go (N.pos p) "") as -> by done.
  assert (∀ x s, utf8_ok (chars s) = true → utf8_ok (chars (pretty_N_go x s)) = true) as H; [|by apply H].
  intros x. induction (N.lt_wf_0 x) as [x _ IH]; intros s Hs. assert (x = 0 ∨ 0 < x)%N as [->|Hx] by lia; [done|].
  rewrite pretty_N_go_step by done. apply IH; [by apply N.div_lt|]. destruct (pretty_N_char_digit (x `mod` 10)%N) as [Hd _]; [by apply N.mod_lt|].
  rewrite chars_String, Hd. cbn [utf8_ok]. pose proof (N.mod_lt x 10 ltac:(lia)).
  by rewrite (proj2 (Z.ltb_lt _ 128)) by lia.
Qed.
Lemma append_assoc (a b c : string) : (a +:+ b) +:+ c = a +:+ (b +:+ c).
Proof. induction a as [|x a IH]; [done|]. change (String x ((a +:+ b) +:+ c) = String x (a +:+ b +:+ c)). by rewrite IH. Qed.
Lemma no_char_append c a b : no_char c (a +:+ b) = no_char c a && no_char c b.
Proof.
  induction a as [|x a IH]; [done|]. change (negb (Ascii.eqb x c) && no_char c (a +:+ b) = negb (Ascii.eqb x c) && no_char c a && no_char c b).
  by rewrite IH, andb_assoc.
Qed.

(** A computation that does not depend on the time. *)
Definition timeless {A} (m : M A) : Prop := ∀ e t w, m (e <| now := t |>) w = m e w.
Lemma timeless_bind {A B} (m : M A) (k : A → M B) : timeless m → (∀ a, timeless (k a)) → timeless (mbind m k).
Proof. intros Hm Hk e t w. unfold mbind. rewrite Hm. destruct (m e w) as [[]]; [apply Hk|done..]. Qed.
Lemma timeless_mexpect {A} (o : option A) : timeless (mexpect o).
Proof. by destruct o. Qed.
Lemma timeless_some_or_err {A} (o : option A) msg : timeless (some_or_err o msg).
Proof. by destruct o. Qed.
Lemma timeless_keys `{!Serde DuoData id} akey email : timeless (get_duo_keys_email akey email).
Proof.
  assert (timeless DuoData_global) as Hg.
  { unfold DuoData_global. do 2 (apply timeless_bind; [done|intros]). destruct a, a0; try done.
    do 4 (apply timeless_bind; [done || apply timeless_mexpect|intros]). done. }
  unfold get_duo_keys_email, get_user_duo_data. apply timeless_bind; [done|]. intros found.
  apply timeless_bind; [|intros d; apply timeless_bind; [apply timeless_some_or_err|done]].
  destruct found as [u|]; [|done]. apply timeless_bind; [|done]. apply timeless_bind; [done|].
  intros [tf|]; [destruct (from_json_str _); [done|]|]; by apply timeless_bind.
Qed.

Section duo_values.
Context `{!Serde DuoData id} (hmac_sha1 : bytes → bytes → bytes) (base64_encode : bytes → string) (base64_decode : string → option bytes).
Context (duo_akey : string).
Abbreviation sign := (sign_duo_values hmac_sha1 base64_encode).
Abbreviation parse := (parse_duo_values hmac_sha1 base64_decode).

(** A value with the prefix for the client, not expired and signed with the key:
    its signature has the authentication code of the right one. *)
Definition signed_for (e : Env) (key val ikey prefix : string) (time : Z) (user : string) : Prop :=
  ∃ b64 sig cookie expire text,
    split_char "|"%char val = [prefix; b64; sig] ∧
    hmac_sign hmac_sha1 e key (hmac_sign hmac_sha1 e key (prefix +:+ "|" +:+ b64)) = hmac_sign hmac_sha1 e key sig ∧
    base64_decode b64 = Some cookie ∧ utf8_ok cookie = true ∧
    split_char "|"%char (string_of_chars cookie) = [user; ikey; text] ∧ parse_i64 (NString text) = Some expire ∧ (time < expire)%Z.
Lemma parse_Ok key val ikey prefix time e w user w' :
  parse key val ikey prefix time e w = (Ok user, w') ↔ w' = w ∧ signed_for e key val ikey prefix time user.
Proof.
  unfold parse_duo_values. split.
  - destruct (split_char _ val) as [|p [|b64 [|sig [|? ?]]]] eqn:Hsplit; try done. intros H. ok_inv H.
    destruct (split_char _ (string_of_chars a1)) as [|u [|ik [|text [|? ?]]]] eqn:Hcookie; try done. ok_inv H.
    apply bool_decide_eq_true in Hrun. apply bool_decide_eq_true in Hrun0 as ->. apply bool_decide_eq_true in Hrun3 as ->.
    apply negb_true_iff, Z.leb_gt in Hrun5. split; [done|]. by exists b64, sig, a1, a4, text.
  - intros (-> & b64 & sig & cookie & expire & text & -> & Hsig & Hb & Hutf & Hc & Hexp & Ht).
    cbv [mbind ask ensure some_or_err ct_eq mret err]. rewrite Hsig, !bool_decide_true by done.
    rewrite Hb, Hutf, Hc, bool_decide_true, Hexp, (proj2 (Z.leb_gt _ _)) by done. done.
Qed.

(** What the login by signed values requires.  It changes nothing, and is
    accepted exactly if the answer consists of two values for the client of the
    account that have not expired: one signed with the secret that Duo knows, the
    other with the key of the server, and both name the address. *)
Theorem duo_iframe_exact email response e w w' :
  duo_validate_iframe hmac_sha1 base64_decode duo_akey email response e w = (Ok tt, w') ↔
  w' = w ∧ ∃ auth_sig app_sig ik sk ak host,
    split_char ":"%char response = [auth_sig; app_sig] ∧ get_duo_keys_email duo_akey email e w = (Ok (ik, sk, ak, host), w) ∧
    signed_for e sk auth_sig ik AUTH_PREFIX (timestamp (now e)) email ∧ signed_for e ak app_sig ik APP_PREFIX (timestamp (now e)) email.
Proof.
  unfold duo_validate_iframe. split.
  - destruct (split_char _ response) as [|x [|y [|? ?]]] eqn:Hsplit; try done. intros H. ok_inv H.
    destruct a as [[[ik sk] ak] host]. pose proof (reads_Ok _ _ _ _ _ (reads_keys _ _) Hrun) as ->.
    ok_inv H. apply parse_Ok in Hrun0 as [-> H1]. apply parse_Ok in Hrun1 as [-> H2].
    destruct (_ || _) eqn:E; [done|]. apply orb_false_iff in E as [E1 E2]. rewrite negb_false_iff in E1, E2.
    apply bool_decide_eq_true in E1 as <-. apply bool_decide_eq_true in E2 as <-. injection H as <-.
    split; [done|]. by exists x, y, ik, sk, ak, host.
  - intros (-> & x & y & ik & sk & ak & host & -> & Hkeys & H1 & H2). unfold mbind at 1, ask. unfold mbind at 1. rewrite Hkeys.
    unfold mbind at 1. rewrite (proj2 (parse_Ok _ _ _ _ _ _ _ _ w) (conj eq_refl H1)).
    unfold mbind at 1. rewrite (proj2 (parse_Ok _ _ _ _ _ _ _ _ w) (conj eq_refl H2)).
    unfold ct_eq. by rewrite !bool_decide_true.
Qed.

(** *** Values that are signed are read back *)

Section complete.
Context (base64_roundtrip : ∀ b, base64_decode (base64_encode b) = Some b).
(** The alphabets of the encodings *)
Context (base64_bar : ∀ b, no_char "|"%char (base64_encode b) = true) (base64_colon : ∀ b, no_char ":"%char (base64_encode b) = true).
Context (e : Env) (hex_bar : ∀ b, no_char "|"%char (encode_hexlower e b) = true) (hex_colon : ∀ b, no_char ":"%char (encode_hexlower e b) = true).

Lemma sign_signed_for key email ikey prefix expire time :
  utf8_ok (chars email) = true → utf8_ok (chars ikey) = true → no_char "|"%char email = true → no_char "|"%char ikey = true →
  no_char "|"%char prefix = true → (0 < expire < 2 ^ 63)%Z → (time < expire)%Z →
  signed_for e key (sign e key email ikey prefix expire) ikey prefix time email.
Proof.
  intros Hue Hui He Hi Hp Hexp Ht. destruct (parse_pretty expire Hexp) as [Hparse Hbar].
  set (val := email +:+ "|" +:+ ikey +:+ "|" +:+ pretty expire).
  set (b64 := base64_encode (string_bytes val)).
  exists b64, (hmac_sign hmac_sha1 e key (prefix +:+ "|" +:+ b64)), (chars val), expire, (pretty expire). split_and!; try done.
  - unfold sign_duo_values. fold val. fold b64. rewrite !append_assoc. apply split_three; [done|apply base64_bar|apply hex_bar].
  - unfold b64. apply base64_roundtrip.
  - unfold val. rewrite !chars_append, utf8_ok_app by done. cbn. rewrite utf8_ok_app by done. cbn. apply utf8_pretty. lia.
  - rewrite string_of_chars_chars. by apply split_three.
Qed.
Lemma sign_colon key email ikey prefix expire : no_char ":"%char prefix = true → no_char ":"%char (sign e key email ikey prefix expire) = true.
Proof. intros Hp. unfold sign_duo_values, hmac_sign. by rewrite !no_char_append, Hp, base64_colon, hex_colon. Qed.

(** Logins by signed values go through.  The server hands out two values at
    the time [t0]; when within an hour the second of them comes back with a value
    that Duo signed for the same address and client, and that has not expired, the
    login is accepted. *)
Theorem duo_iframe_complete email t0 w ik sk ak host :
  get_duo_keys_email duo_akey email e w = (Ok (ik, sk, ak, host), w) →
  utf8_ok (chars email) = true → utf8_ok (chars ik) = true → no_char "|"%char email = true → no_char "|"%char ik = true →
  (0 < timestamp t0 < 2 ^ 62)%Z →
  ∃ duo_sign app_sign,
    generate_duo_signature hmac_sha1 base64_encode duo_akey email (e <| now := t0 |>) w = (Ok (duo_sign +:+ ":" +:+ app_sign, host), w) ∧
    ∀ expire, (timestamp (now e) < timestamp t0 + 3600)%Z → (timestamp (now e) < expire < 2 ^ 63)%Z → (0 < expire)%Z →
      duo_validate_iframe hmac_sha1 base64_decode duo_akey email (sign e sk email ik AUTH_PREFIX expire +:+ ":" +:+ app_sign) e w = (Ok tt, w).
Proof.
  intros Hkeys He Hi He' Hi' Ht0. exists (sign e sk email ik DUO_PREFIX (timestamp t0 + DUO_EXPIRE)%Z), (sign e ak email ik APP_PREFIX (timestamp t0 + APP_EXPIRE)%Z).
  split.
  - unfold generate_duo_signature, mbind, ask.
    assert (get_duo_keys_email duo_akey email (e <| now := t0 |>) w = (Ok (ik, sk, ak, host), w)) as -> by by rewrite timeless_keys. done.
  - intros expire Hnow Hexp Hpos. apply duo_iframe_exact. split; [done|].
    exists (sign e sk email ik AUTH_PREFIX expire), (sign e ak email ik APP_PREFIX (timestamp t0 + APP_EXPIRE)%Z), ik, sk, ak, host.
    unfold APP_EXPIRE. split_and!; [|done|apply sign_signed_for; by auto with lia..].
    change (":" +:+ ?x) with (String ":"%char x). rewrite split_char_app, split_char_nosep by (by apply sign_colon). done.
Qed.
End complete.
End duo_values.

(** ** YubiKeys *)

Section yubikey.
Context `{!Serde YubikeyMetadata id} (verify_async : nat → option string → string → string → string → bool).

(** The code is confirmed by Yubico's service, at the call that [i] counts. *)
Definition yubico_confirms (c : Config) (i : nat) (otp : string) : Prop :=
  ∃ client secret, enable_yubico c = true ∧ yubico_client_id c = Some client ∧ yubico_secret_key c = Some secret ∧
    verify_async i (yubico_server c) client secret otp = true.
Lemma verify_otp_spec otp e w :
  wp (verify_yubikey_otp verify_async otp) e w (λ r w', db w' = db w ∧ r ≠ Panic ∧ (r = Ok tt ↔ yubico_confirms (cfg e) (tick w) otp)).
Proof.
  unfold verify_yubikey_otp, get_yubico_credentials, yubico_confirms. wp_step. wp_step. wp_step. wp_step. wp_step. wp_step;
    [|wp_step; split_and!; [done..|split; [done|]]; intros (? & ? & H & _); by rewrite Hc in H].
  wp_step. wp_step. wp_step. wp_step. wp_step. wp_step. wp_step.
  destruct (yubico_client_id (cfg e)) as [client|]; [|split_and!; [done..|split; [done|naive_solver]]].
  destruct (yubico_secret_key (cfg e)) as [secret|]; [|split_and!; [done..|split; [done|naive_solver]]].
  do 8 wp_step. wp_step; split_and!; try done; [naive_solver|].
  split; [done|]. intros (? & ? & _ & [= <-] & [= <-] & H). by rewrite H in Hc0.
Qed.

(** What a login with a YubiKey requires.  It changes nothing in the
    database; it is accepted exactly if the code has 44 bytes, its first twelve
    are the identifier of a registered key, and Yubico's service, which must be
    set up, confirms it; it panics exactly if the stored record cannot be read or
    a character of more than one byte lies across the twelfth. *)
Theorem yubikey_login_exact response data e w r w' :
  validate_yubikey_login verify_async response data e w = (r, w') →
  db w' = db w ∧
  (r = Ok tt ↔ String.length response = 44 ∧ ∃ m key, from_json_str data = Some m ∧ get_prefix 12 response = Some key ∧
     key ∈ yk_keys m ∧ yubico_confirms (cfg e) (tick w) response) ∧
  (r = Panic ↔ String.length response = 44 ∧ (from_json_str data = None ∨ get_prefix 12 response = None)).
Proof.
  intros Hrun. revert r w' Hrun. apply wp_run. unfold validate_yubikey_login. wp_step. wp_step;
    [apply Nat.eqb_eq in Hc|apply Nat.eqb_neq in Hc; wp_step; split_and!; naive_solver].
  wp_step. wp_step. wp_step; [|wp_step; split_and!; naive_solver]. wp_step. wp_step. wp_step; [|wp_step; split_and!; naive_solver].
  wp_step. wp_step. wp_step; [apply bool_decide_eq_true in Hc0|apply bool_decide_eq_false in Hc0; wp_step; split_and!; naive_solver].
  wp_step. apply wp_intro. intros r w' Hrun. pose proof (verify_otp_spec response e w) as H. unfold wp, map_res in *.
  destruct (verify_yubikey_otp verify_async response e w) as [[[]|x|] w1]; injection Hrun as <- <-; simpl in H; naive_solver.
Qed.
End yubikey.

(** ** WebAuthn *)

Section webauthn.
Context (W : WebauthnLib) `{!Serde (list (WebauthnRegistration W)) id}.
(** Setting the flags of a key leaves its identifier. *)
Context (with_backup_id : ∀ a b k, cred_id W (with_backup W a b k) = cred_id W k).
Abbreviation challenge_of user w := (find_twofactor user (TwoFactorType_to_i32 WebauthnLoginChallenge) (twofactor (db w))).

Definition reg_id (reg : WebauthnRegistration W) : bytes := cred_id W (wr_credential reg).
Definition registrations_of (user : string) (t : gmap string TwoFactor) : option (list (WebauthnRegistration W)) :=
  match find_twofactor user (TwoFactorType_to_i32 Webauthn) t with Some tf => from_json_str (tf_data tf) | None => Some [] end.
Lemma get_registrations_Ok user e w r w' :
  get_webauthn_registrations W user e w = (Ok r, w') → w' = w ∧ registrations_of user (twofactor (db w)) = Some r.2.
Proof.
  unfold get_webauthn_registrations, registrations_of, TwoFactor_find_by_user_and_type. intros H. ok_inv H.
  destruct (find_twofactor _ _ _) as [tf|]; ok_inv H; done.
Qed.
Lemma reads_registrations user : reads (get_webauthn_registrations W user).
Proof. unfold get_webauthn_registrations, TwoFactor_find_by_user_and_type. solve_reads. Qed.
Lemma reads_check_backup rsp l state : reads (check_and_update_backup_eligible W rsp l state).
Proof. unfold check_and_update_backup_eligible. solve_reads. destruct (mark_backup _ _ _ _ _). solve_reads. Qed.

(** The flags aside, the keys are those that were registered. *)
Lemma mark_backup_ids rsp_id a b l :
  reg_id <$> (mark_backup W rsp_id a b l).1 = reg_id <$> l.
Proof.
  induction l as [|reg l IH]; [done|]. simpl. case_bool_decide; [|destruct (mark_backup _ _ _ _ l); simpl in *; by f_equal].
  unfold set_backup_eligible. simpl. f_equal. apply with_backup_id.
Qed.
(** The challenge that is checked: as stored, or with the flags of a key set. *)
Definition same_challenge (rsp : PublicKeyCredential (Ext W)) (state state1 : PasskeyAuthentication W) : Prop :=
  state1 = state ∨ ∃ b raw, set_state_backup W (pc_raw_id rsp) true b (authentication_to_value W state) = Some raw ∧
    authentication_from_value W raw = Some state1.
Lemma check_backup_Ok rsp l state e w flag l1 state1 w' :
  check_and_update_backup_eligible W rsp l state e w = (Ok (flag, l1, state1), w') →
  w' = w ∧ same_challenge rsp state state1 ∧ reg_id <$> l1 = reg_id <$> l.
Proof.
  unfold check_and_update_backup_eligible. destruct (_ !! 32) as [bits|]; [|intros [= <- <- <- <-]; split_and!; [done|by left|done]].
  destruct (negb _); [|intros [= <- <- <- <-]; split_and!; [done|by left|done]].
  set (b := negb _). pose proof (mark_backup_ids (pc_raw_id rsp) true b l) as Hids.
  destruct (mark_backup W (pc_raw_id rsp) true b l) as [l2 changed]. cbn [fst] in Hids. destruct changed.
  - intros H. ok_inv H. injection H as <- <- <- <-. split_and!; [done| |done]. right. by exists b, a.
  - intros [= <- <- <- <-]. split_and!; [done|by left|done].
Qed.
Lemma update_registration_mem r l x : update_registration W r l = Some x → result_cred_id W r ∈ reg_id <$> l.
Proof.
  revert x. induction l as [|reg l IH]; intros x; [done|]. simpl. case_bool_decide as E; [rewrite <- E; by left|].
  destruct (update_registration W r l) as [y|]; [|done]. intros _. right. by eapply IH.
Qed.

(** The rest of the check, once the challenge is out. *)
Lemma check_rest user response state e w :
  twofactor_wf (twofactor (db w)) → challenge_of user w = None →
  wp (let* rsp := some_or_err (credential_from_str W response) "Serde" in
      let rsp := PublicKeyCredential_from rsp in
      let* (_, registrations) := get_webauthn_registrations W user in
      let* (backup_flags_updated, registrations, state) := check_and_update_backup_eligible W rsp registrations state in
      let* authentication_result := some_or_err (finish_passkey_authentication W rsp state) "Webauthn" in
      match update_registration W authentication_result registrations with
      | Some (credential_updated, registrations) =>
         if credential_updated || backup_flags_updated then
           let* tf := TwoFactor_new user Webauthn (to_json_string registrations) in TwoFactor_save tf
         else mret tt
      | None => err_event "Credential not present" UserFailedLogIn2fa
      end) e w
     (λ r w', challenge_of user w' = None ∧ ∀ u, r = Ok u → ∃ rsp l state1 result,
        credential_from_str W response = Some rsp ∧ registrations_of user (twofactor (db w)) = Some l ∧
        same_challenge (PublicKeyCredential_from rsp) state state1 ∧
        finish_passkey_authentication W (PublicKeyCredential_from rsp) state1 = Some result ∧
        result_cred_id W result ∈ reg_id <$> l).
Proof.
  intros Hwf Hno. wp_step. wp_step; [rename a into rsp|by split]. wp_step.
  apply wp_bind. destruct (reads_registrations user e w) as [r Hr]. eapply wp_eq; [exact Hr|]. destruct r as [[en l]|x|]; wp_step; [|by split..].
  apply get_registrations_Ok in Hr as [_ Hl]. apply wp_bind. destruct (reads_check_backup (PublicKeyCredential_from rsp) l state e w) as [r Hr].
  eapply wp_eq; [exact Hr|]. destruct r as [[[flag l1] state1]|x|]; wp_step; [|by split..].
  apply check_backup_Ok in Hr as (_ & Hstate & Hids). wp_step. wp_step; [rename a into result|by split]. wp_step.
  destruct (update_registration W result l1) as [[upd l2]|] eqn:Hu; [|by split].
  apply update_registration_mem in Hu. rewrite Hids in Hu.
  assert (∃ rsp l state1 result, credential_from_str W response = Some rsp ∧ registrations_of user (twofactor (db w)) = Some l ∧
    same_challenge (PublicKeyCredential_from rsp) state state1 ∧ finish_passkey_authentication W (PublicKeyCredential_from rsp) state1 = Some result ∧
    result_cred_id W result ∈ reg_id <$> l) as Hall by (by exists rsp, l, state1, result).
  destruct (_ || _); [|by split]. unfold TwoFactor_new, TwoFactor_save. do 5 wp_step. wp_step. split; [|done].
  simpl. rewrite find_replace_into_ne; [done|done|by intros [_ ?]|]. rewrite find_twofactor_None in Hno. intros x Hx. by eapply Hno.
Qed.

Lemma find_delete_eq t u a tf : twofactor_wf t → find_twofactor u a t = Some tf → find_twofactor u a (delete (tf_uuid tf) t) = None.
Proof.
  intros Hwf Hf. apply find_twofactor_Some in Hf as (Hu & Ha & k & Hk). apply find_twofactor_None.
  intros k' r [Hne Hr]%lookup_delete_Some [Hu' Ha']. apply Hne.
  assert (r = tf) as -> by (eapply (tf_unique _ Hwf); [exact Hr|exact Hk|congruence..]). by apply (tf_keyed _ Hwf).
Qed.

(** What an accepted WebAuthn login shows: the library found the answer right for
    the stored challenge, and the key is one the user had registered. *)
Definition webauthn_confirmed (user response : string) (t : gmap string TwoFactor) : Prop :=
  ∃ tf state rsp l state1 result,
    find_twofactor user (TwoFactorType_to_i32 WebauthnLoginChallenge) t = Some tf ∧ authentication_from_str W (tf_data tf) = Some state ∧
    credential_from_str W response = Some rsp ∧ registrations_of user t = Some l ∧
    same_challenge (PublicKeyCredential_from rsp) state state1 ∧
    finish_passkey_authentication W (PublicKeyCredential_from rsp) state1 = Some result ∧ result_cred_id W result ∈ reg_id <$> l.
Lemma webauthn_run user response e w r w' :
  twofactor_wf (twofactor (db w)) → SecurityKeys.validate_webauthn_login W user response e w = (r, w') →
  (challenge_of user w = None → r = Err (with_event UserFailedLogIn2fa (new_msg "Can't recover login challenge")) ∧ w' = w) ∧
  (∀ tf, challenge_of user w = Some tf → is_Some (authentication_from_str W (tf_data tf)) → challenge_of user w' = None) ∧
  (∀ u, r = Ok u → webauthn_confirmed user response (twofactor (db w)) ∧ challenge_of user w' = None).
Proof.
  intros Hwf Hrun. revert r w' Hrun. apply wp_run. unfold SecurityKeys.validate_webauthn_login, TwoFactor_find_by_user_and_type. do 3 wp_step.
  destruct (find_twofactor _ _ _) as [tf|] eqn:Hf; [|wp_step; by split_and!].
  wp_step. wp_step; [rename a into state|wp_step; split_and!; [done|intros ? [= <-] [? ?]; congruence|done]].
  unfold TwoFactor_delete. do 4 wp_step. eapply wp_mono; [apply check_rest; simpl; [by apply delete_wf|by apply find_delete_eq]|].
  intros r w' [Hno Hr]. split_and!; [done..|]. intros u Hu. split; [|done].
  destruct (Hr u Hu) as (rsp & l & state1 & result & H1 & H2 & H3 & H4 & H5). exists tf, state, rsp, l, state1, result. split_and!; try done.
  rewrite <- H2. unfold registrations_of. simpl. apply find_twofactor_Some in Hf as (_ & Ha & k & Hk).
  rewrite (find_delete_ne _ _ _ _ k); [done..|]. intros [_ E]. rewrite Ha in E. discriminate E.
Qed.

(** C24: a WebAuthn challenge is used once.  An accepted login answers the stored
    challenge with a key of the user; an attempt that found a challenge it could
    read leaves none, whatever came of it; and without one every attempt is
    refused and changes nothing, so that the next attempt needs a new challenge. *)
Theorem webauthn_login_once user response e w r w' :
  twofactor_wf (twofactor (db w)) → SecurityKeys.validate_webauthn_login W user response e w = (r, w') →
  (r = Ok tt → webauthn_confirmed user response (twofactor (db w))) ∧
  ((∃ tf, challenge_of user w = Some tf ∧ is_Some (authentication_from_str W (tf_data tf))) →
   ∀ response2 e2, SecurityKeys.validate_webauthn_login W user response2 e2 w' =
     (Err (with_event UserFailedLogIn2fa (new_msg "Can't recover login challenge")), w')).
Proof.
  intros Hwf Hrun. destruct (webauthn_run _ _ _ _ _ _ Hwf Hrun) as (_ & Hgone & Hok). split; [intros H; by apply (Hok tt)|].
  intros (tf & Hf & Hp) response2 e2. specialize (Hgone tf Hf Hp).
  unfold SecurityKeys.validate_webauthn_login, TwoFactor_find_by_user_and_type, mbind, query. by rewrite Hgone.
Qed.
End webauthn.

(** ** The login with external factors *)

(** Services with other external factors *)
Definition with_external (base : Services) (webauthn : string → string → M unit) (webauthn_prompt : string → M Json)
    (yubikey : string → string → M unit) (nfc : string → option bool) (iframe : string → string → M unit)
    (oidc : string → string → string → string → M unit) (signature : string → M (string * string))
    (auth_url : string → string → string → M string) : Services := {|
  Login.validate_webauthn_login := webauthn; Login.generate_webauthn_login := webauthn_prompt;
  Login.validate_yubikey_login := yubikey; Login.yubikey_nfc := nfc;
  Login.duo_validate_iframe := iframe; Login.duo_validate_oidc := oidc; duo_signature := signature; duo_auth_url := auth_url;
  login_issuer := login_issuer base; remember_issuer := remember_issuer base; org_api_key_issuer := org_api_key_issuer base;
  encode_access := encode_access base; encode_refresh := encode_refresh base; encode_remember := encode_remember base;
  decode_2fa_remember := decode_2fa_remember base; decode_login := decode_login base; decode_refresh := decode_refresh base;
  encode_org_api := encode_org_api base; decode_validation := decode_validation base; decode_basic := decode_basic base;
  sso_exchange_refresh_token := sso_exchange_refresh_token base; sso_check_validity := sso_check_validity base;
  version_at_least_2025_5 := version_at_least_2025_5 base; push_relay_accepts := push_relay_accepts base |}.
(** No external factor accepts anything. *)
Definition no_external (base : Services) : Services :=
  with_external base (λ _ _, err "") (λ _, err "") (λ _ _, err "") (λ _, None) (λ _ _, err "") (λ _ _ _ _, err "") (λ _, err "") (λ _ _ _, err "").

Section login.
Context `{!Serde UserStampException id, !Serde DuoProviderData id, !Serde EmailTokenData id, !Serde YubikeyMetadata id, !Serde DuoData id}.
Context (W : WebauthnLib) `{!Serde (list (WebauthnRegistration W)) id} (with_backup_id : ∀ a b k, cred_id W (with_backup W a b k) = cred_id W k).
Context (verify_async : nat → option string → string → string → string → bool).
Context (hmac_sha1 : bytes → bytes → bytes) (base64_encode : bytes → string) (base64_decode : string → option bytes).
Context (duo_akey : string) (L : DuoLib) (base : Services).

(** The factors of [SecurityKeys] and [DuoFactor] *)
Definition external_services : Services :=
  with_external base (SecurityKeys.validate_webauthn_login W) (SecurityKeys.generate_webauthn_login W)
    (SecurityKeys.validate_yubikey_login verify_async) SecurityKeys.yubikey_nfc
    (DuoFactor.duo_validate_iframe hmac_sha1 base64_decode duo_akey) (DuoFactor.duo_validate_oidc duo_akey L)
    (generate_duo_signature hmac_sha1 base64_encode duo_akey) (get_duo_auth_url duo_akey L).

(** An enabled factor of the user *)
Definition enabled_factor (user : string) (ty : TwoFactorType) (t : gmap string TwoFactor) (row : TwoFactor) : Prop :=
  find_twofactor user (TwoFactorType_to_i32 ty) t = Some row ∧ tf_enabled row = true.
Inductive confirmed (e : Env) (f : gmap string TwoFactor * gmap string TwoFactorDuoContext) (user : User) (code : string) : Prop :=
  | confirmed_key row : enabled_factor (u_uuid user) Webauthn f.1 row → webauthn_confirmed W (u_uuid user) code f.1 → confirmed e f user code
  | confirmed_yubikey row m key i :
     enabled_factor (u_uuid user) YubiKey f.1 row → String.length code = 44 → from_json_str (tf_data row) = Some m →
     get_prefix 12 code = Some key → key ∈ yk_keys m → yubico_confirms verify_async (cfg e) i code → confirmed e f user code
  | confirmed_values row w auth_sig app_sig ik sk ak host :
     enabled_factor (u_uuid user) Duo f.1 row → factors (db w) = f → split_char ":"%char code = [auth_sig; app_sig] →
     get_duo_keys_email duo_akey (u_email user) e w = (Ok (ik, sk, ak, host), w) →
     signed_for hmac_sha1 base64_decode e sk auth_sig ik AUTH_PREFIX (timestamp (now e)) (u_email user) →
     signed_for hmac_sha1 base64_decode e ak app_sig ik APP_PREFIX (timestamp (now e)) (u_email user) → confirmed e f user code
  | confirmed_redirect row w w' device :
     enabled_factor (u_uuid user) Duo f.1 row → factors (db w) = f →
     duo_confirmed duo_akey L e w w' (u_email user) code device → confirmed e f user code.

Lemma accepted_external e f user device data code :
  twofactor_wf f.1 → accepted external_services e f user device data code →
  accepted (no_external base) e f user device data code ∨ confirmed e f user code.
Proof.
  intros Hwf [row sec step H1 H2 H3 H4 H5|row d H1 H2 H3 H4|cl H1 H2 H3 H4 H5|rec H1 H2|row w1 w2 H1 H2 <- Hrun|row w1 w2 H1 H2 Hf Hrun
    |row w1 w2 H1 H2 Hf Hrun|row client dev w1 w2 H1 H2 Hf Hrun].
  - left. by eapply by_authenticator.
  - left. by eapply by_email.
  - left. by eapply by_remembered_device.
  - left. by eapply by_recovery_code.
  - right. eapply confirmed_key; [by split|]. destruct (webauthn_run W with_backup_id _ _ _ _ _ _ Hwf Hrun) as (_ & _ & H). by apply (H tt).
  - right. destruct (yubikey_login_exact verify_async _ _ _ _ _ _ Hrun) as (_ & [Hok _] & _).
    destruct (Hok eq_refl) as (Hlen & m & key & Hm & Hk & Hin & Hc). by eapply confirmed_yubikey.
  - right. apply duo_iframe_exact in Hrun as (_ & x & y & ik & sk & ak & host & Hs & Hkeys & Hx & Hy). by eapply confirmed_values.
  - right. pose proof (finish_spec duo_akey L (u_email user) code client dev e w1) as H. unfold wp in H. cbn in Hrun. rewrite Hrun in H.
    destruct H as [_ H]. eapply confirmed_redirect; [by split|done|by apply (H tt)].
Qed.

(** C3: the login with every kind of second factor.  If a password login
    succeeds, the name given is the address of an enabled account, its password, or
    its approved device request, was right, its address was verified, if that is
    demanded, and unless the account has no second factor, the token given is
    right for one that it has enabled: an own one of the server, a WebAuthn key
    that answered the stored challenge, a registered YubiKey whose code Yubico
    confirmed, values signed by Duo and by the server for the address, or the
    code of a redirect for which Duo vouches with the nonce of a context that was
    stored for the address. *)
Theorem external_login_sound data device_type ip cv e w j w' :
  twofactor_wf (twofactor (db w)) →
  login_password external_services data device_type ip cv e w = (Ok j, w') →
  ∃ user password, login_account e (db w) data = Some user ∧ u_enabled user = true ∧
    cd_password data = Some password ∧ first_factor e (db w) user data password ip ∧ ¬ needs_verification (cfg e) user ∧
    (user_factors (u_uuid user) (twofactor (db w)) = [] ∨
     ∃ code user' device, cd_two_factor_token data = Some code ∧ same_account user user' ∧
       ((∃ id, cd_device_identifier data = Some id ∧ devices (db w) !! (id, u_uuid user) = Some device) ∨
        d_twofactor_remember device = None) ∧
       (accepted (no_external base) e (factors (db w)) user' device data code ∨ confirmed e (factors (db w)) user' code)).
Proof.
  intros Hwf Hrun.
  destruct (login_password_sound _ _ _ _ _ _ _ _ _ Hwf Hrun) as (user & Hacc & password & Hen & Hpw & Hff & Hver & Hsf).
  exists user, password. split_and!; [done..|]. destruct Hsf as [?|(code & user' & device & Hcode & Hsame & Hdev & Ha)]; [by left|right].
  exists code, user', device. split_and!; [done..|]. by eapply accepted_external.
Qed.
End login.

(** ** Witnesses *)

Module ToyExternal.
Import ToyEnv ToyUsers ToyTwoFactor ToyCodes ToyLogin.

#[export] Instance DuoData_eq_dec : EqDecision DuoData.
Proof. solve_decision. Defined.
#[export] Instance DuoData_countable : Countable DuoData :=
  inj_countable' (λ x, (du_host x, du_ik x, du_sk x)) (λ '(a, b, c), mkDuoData a b c) (λ x, match x with mkDuoData _ _ _ => eq_refl end).
#[export] Instance toy_duo_data : Serde DuoData id := toy_serde id.
#[export] Instance YubikeyMetadata_eq_dec : EqDecision YubikeyMetadata.
Proof. solve_decision. Defined.
#[export] Instance YubikeyMetadata_countable : Countable YubikeyMetadata :=
  inj_countable' (λ x, (yk_keys x, yk_nfc x)) (λ '(a, b), mkYubikeyMetadata a b) (λ x, match x with mkYubikeyMetadata _ _ => eq_refl end).
#[export] Instance toy_yubikey : Serde YubikeyMetadata id := toy_serde id.

(** All external factors are set up. *)
Definition ext_config : Config :=
  toy_config <| enable_duo := true |> <| duo_host := Some "duo.example" |> <| duo_ikey := Some "client" |> <| duo_skey := Some "secret" |>
             <| is_webauthn_2fa_supported := true |> <| enable_yubico := true |> <| yubico_client_id := Some "1" |>
             <| yubico_secret_key := Some "key" |>.
Definition ext_env (t : Z) : Env := (toy_env t) <| cfg := ext_config |>.

(** A service of Duo that vouches for Alice *)
Definition toy_duo : DuoLib := {|
  duo_post := λ _ _ _, Some (200%Z, "body"); encode_assertion := λ _ _, Some "jwt"; encode_authorization := λ _ _, Some "jwt";
  decode_id_token := λ _ _ _ _ _, Some (mkIdTokenClaims "alice@example.org" (pos_to_str (encode [1%Z])));
  health_from_str := λ _, Some (HealthOK "OK"); id_token_from_str := λ s, Some (mkIdTokenResponse s "" 0 "");
  sha512_256 := λ _, [1%Z]; Url := string; Url_parse := Some; Url_join := λ a b, Some (a +:+ b);
  append_pair := λ u k v, u +:+ "&" +:+ k +:+ "=" +:+ v; Url_to_string := id |}.
Definition toy_duo_world : World := toy_tf_world (toy_row "t2" "alice" 2 (to_json_string (mkDuoData "duo.example" "client" "secret"))).
Definition toy_begin : Env * DuoCall := (ext_env (seconds 1000), BeginDuo "alice@example.org" "web" "d1").
Definition toy_state : string :=
  match map_to_list (twofactor_duo_ctx (db (duo_step "akey" toy_duo toy_begin toy_duo_world).2)) with (s, _) :: _ => s | [] => "" end.
Definition toy_finish : Env * DuoCall := (ext_env (seconds 1200), FinishDuo "alice@example.org" ("code|" +:+ toy_state) "web" "d1").

Definition toy_hmac (k d : bytes) : bytes := k ++ d.
Definition toy_base64 (b : bytes) : string := pos_to_str (encode b).
Definition toy_unbase64 (s : string) : option bytes := decode (str_to_pos s).
Lemma toy_base64_back b : toy_unbase64 (toy_base64 b) = Some b.
Proof. unfold toy_unbase64, toy_base64. rewrite str_to_pos_to_str. apply decode_encode. Qed.

(** Keys are numbers, with the flags; a challenge is a number with the keys it is
    for, and answering it is to repeat it. *)
Definition toy_challenge (j : Json) : option (Z * list Z) :=
  match json_get "ast" j with
  | Some ast =>
     match json_get "challenge" ast, json_get "credentials" ast with
     | Some (JNum c), Some (JArr l) => Some (c, omap (λ x, match json_get "cred_id" x with Some (JNum k) => Some k | _ => None end) l)
     | _, _ => None
     end
  | None => None
  end.
Definition toy_webauthn : WebauthnLib := {|
  Passkey := Z * bool * bool; PasskeyRegistration := unit; PasskeyAuthentication := Z * list Z; AuthenticationResult := Z;
  CreateExt := unit; SelRest := unit; CreateRest := unit; RequestRest := unit; Ext := unit;
  cred_id := λ k, [k.1.1]; backup_state := λ k, k.1.2; backup_eligible := λ k, k.2; with_backup := λ a b k, (k.1.1, b, a);
  start_passkey_registration := λ _ _ _ _ _, None; finish_passkey_registration := λ _ _, None;
  start_passkey_authentication := λ i l, Some (mkRequestOptions "required" None tt, (Z.of_nat i, (λ k, k.1.1) <$> l));
  finish_passkey_authentication := λ rsp st,
    match aa_client_data_json (pc_response rsp), pc_raw_id rsp with
    | [c], [k] => if (c =? st.1)%Z && bool_decide (k ∈ st.2) then Some k else None
    | _, _ => None
    end;
  result_cred_id := λ r, [r]; update_credential := λ k r, (Some false, k);
  creation_to_value := λ _, JObj []; request_to_value := λ _, JObj []; registration_to_value := λ _, JObj [];
  registration_from_str := λ _, None;
  authentication_to_value := λ st, JObj [("ast", JObj [("challenge", JNum st.1); ("credentials", JArr ((λ k, JObj [("cred_id", JNum k)]) <$> st.2))])];
  authentication_from_value := toy_challenge;
  authentication_from_str := λ s, decode (str_to_pos s) ≫= toy_challenge;
  credential_from_str := λ s, c ← parse_signed (chars s); Some (mkCredentialCopy "k" [7%Z] (mkAssertionCopy (replicate 33 8%Z) [c] [] None) tt "public-key");
  base64url_from_value := λ j, match j with JNum k => Some [k] | _ => None end |}.
#[export] Instance toy_reg_eq_dec : EqDecision (WebauthnRegistration toy_webauthn).
Proof. intros [a b c d] [a' b' c' d']. unfold Decision. simpl in d, d'. decide equality; apply decide; apply _. Defined.
#[export] Instance toy_reg_countable : Countable (WebauthnRegistration toy_webauthn) :=
  inj_countable' (λ x, (wr_id x, wr_name x, wr_migrated x, wr_credential x : Z * bool * bool))
    (λ '(a, b, c, d), @mkWebauthnRegistration toy_webauthn a b c d) (λ x, match x with mkWebauthnRegistration _ _ _ _ => eq_refl end).
#[export] Instance toy_regs : Serde (list (WebauthnRegistration toy_webauthn)) id := toy_serde id.

(** Alice has a key, and asked for a challenge. *)
Definition toy_keys : list (WebauthnRegistration toy_webauthn) := [@mkWebauthnRegistration toy_webauthn 1 "key" false (7%Z, false, false)].
Definition toy_key_world : World :=
  (SecurityKeys.generate_webauthn_login toy_webauthn "alice" (ext_env 0)
     (mkWorld ((db toy_world) <| twofactor := {["t7" := toy_row "t7" "alice" 7 (to_json_string toy_keys)]} |>) 5 [] ∅ ∅)).2.
End ToyExternal.
Import ToyEnv ToyUsers ToyTwoFactor ToyCodes ToyLogin ToyExternal.

(** Alice begins a login, and finishes it 200 seconds later. *)
Lemma duo_login_once_witness :
  ∃ l1 l2 t0, [Issued toy_state "alice@example.org" 1000] = l1 ++ Issued toy_state "alice@example.org" t0 :: l2 ∧
    (1200 < t0 + 300)%Z ∧ ∀ email' t', LoggedIn toy_state email' t' ∉ l2.
Proof.
  apply (duo_login_once "akey" toy_duo [toy_begin; toy_finish] toy_duo_world _ []); [|done|vm_compute; reflexivity].
  intros e m. unfold toy_begin, toy_finish. rewrite !elem_of_cons, elem_of_nil. naive_solver.
Defined.

Lemma no_char_toy c p : Ascii.eqb "0"%char c = false → Ascii.eqb "1"%char c = false → no_char c (pos_to_str p) = true.
Proof. intros H0 H1. induction p as [p IH|p IH|]; cbn [pos_to_str no_char]; [rewrite H1; exact IH|rewrite H0; exact IH|done]. Qed.
(** Alice answers within the hour. *)
Lemma duo_iframe_complete_witness :
  ∃ duo_sign app_sign,
    generate_duo_signature toy_hmac toy_base64 "akey" "alice@example.org" ((ext_env (seconds 2000)) <| now := seconds 1000 |>) toy_duo_world
      = (Ok (duo_sign +:+ ":" +:+ app_sign, "duo.example"), toy_duo_world) ∧
    duo_validate_iframe toy_hmac toy_unbase64 "akey" "alice@example.org"
      (sign_duo_values toy_hmac toy_base64 (ext_env (seconds 2000)) "secret" "alice@example.org" "client" AUTH_PREFIX 2100
       +:+ ":" +:+ app_sign) (ext_env (seconds 2000)) toy_duo_world = (Ok tt, toy_duo_world).
Proof.
  destruct (duo_iframe_complete toy_hmac toy_base64 toy_unbase64 "akey"
    toy_base64_back ltac:(intros b; by apply no_char_toy) ltac:(intros b; by apply no_char_toy)
    (ext_env (seconds 2000)) ltac:(intros b; by apply no_char_toy) ltac:(intros b; by apply no_char_toy)
    "alice@example.org" (seconds 1000) toy_duo_world "client" "secret" "akey" "duo.example") as (x & y & H1 & H2);
    [vm_compute; reflexivity..|split; vm_compute; reflexivity|].
  exists x, y. split; [exact H1|]. apply H2; [vm_compute; reflexivity|split; vm_compute; reflexivity|vm_compute; reflexivity].
Defined.

Lemma toy_backup_id a b (k : Passkey toy_webauthn) : cred_id toy_webauthn (with_backup toy_webauthn a b k) = cred_id toy_webauthn k.
Proof. done. Qed.
Lemma toy_keys_wf : twofactor_wf (twofactor (db toy_key_world)).
Proof.
  change (twofactor_wf (replace_into_twofactor (mkTwoFactor "id6" "alice" 1004 true
    (tf_data (default (toy_row "" "" 0 "") (twofactor (db toy_key_world) !! "id6"))) 0) {["t7" := toy_row "t7" "alice" 7 (to_json_string toy_keys)]})).
  apply replace_into_wf, toy_tf_wf.
Qed.
(** The challenge is answered, with a key whose flags change; it is gone then. *)
Lemma webauthn_login_once_witness :
  webauthn_confirmed toy_webauthn "alice" "5" (twofactor (db toy_key_world)) ∧
  SecurityKeys.validate_webauthn_login toy_webauthn "alice" "5" (ext_env 0)
    (SecurityKeys.validate_webauthn_login toy_webauthn "alice" "5" (ext_env 0) toy_key_world).2 =
  (Err (with_event UserFailedLogIn2fa (new_msg "Can't recover login challenge")),
   (SecurityKeys.validate_webauthn_login toy_webauthn "alice" "5" (ext_env 0) toy_key_world).2).
Proof.
  destruct (webauthn_login_once toy_webauthn toy_backup_id "alice" "5" (ext_env 0) toy_key_world _ _ toy_keys_wf
    (surjective_pairing _)) as [H1 H2].
  split; [apply H1; vm_compute; reflexivity|]. apply H2. eexists. split; [vm_compute; reflexivity|]. vm_compute. by eexists.
Defined.

(** Alice logs in with her key. *)
Definition toy_key_connect : ConnectData :=
  mkConnectData None (Some "web") None (Some "pw") (Some "api offline_access") (Some " alice@example.org") (Some "d1") (Some "phone")
    (Some "9") (Some 7%Z) (Some "5") None None None None.
Definition toy_external : Services :=
  external_services toy_webauthn (λ _ _ _ _ _, true) toy_hmac toy_base64 toy_unbase64 "akey" toy_duo toy_services.
Lemma external_login_sound_witness :
  ∃ j w', login_password toy_external toy_key_connect 9 "ip" None (ext_env (seconds 305)) toy_key_world = (Ok j, w') ∧
  ∃ user, login_account (ext_env (seconds 305)) (db toy_key_world) toy_key_connect = Some user ∧ u_enabled user = true.
Proof.
  assert (∃ j, (login_password toy_external toy_key_connect 9 "ip" None (ext_env (seconds 305)) toy_key_world).1 = Ok j) as [j Hj]
    by (vm_compute; by eexists).
  destruct (login_password toy_external toy_key_connect 9 "ip" None (ext_env (seconds 305)) toy_key_world) as [r w'] eqn:E in Hj.
  cbn [fst] in Hj. subst r.
  exists j, w'. split; [exact E|].
  destruct (external_login_sound toy_webauthn toy_backup_id (λ _ _ _ _ _, true) toy_hmac toy_base64 toy_unbase64 "akey" toy_duo toy_services
    toy_key_connect 9 "ip" None (ext_env (seconds 305)) toy_key_world j w' toy_keys_wf E) as (user & pw & Hacc & Hen & _). exact (ex_intro _ user (conj Hacc Hen)).
Defined.

(** ** Factors without keys *)

#[export] Instance Registration_eq_dec : EqDecision Registration.
Proof. solve_decision. Defined.
#[export] Instance Registration_countable : Countable Registration :=
  inj_countable' (λ x, (rg_key_handle x, rg_pub_key x, rg_attestation_cert x, rg_device_name x)) (λ '(a, b, c, d), mkRegistration a b c d)
    (λ x, match x with mkRegistration _ _ _ _ => eq_refl end).
#[export] Instance U2FRegistration_eq_dec : EqDecision U2FRegistration.
Proof. solve_decision. Defined.
#[export] Instance U2FRegistration_countable : Countable U2FRegistration :=
  inj_countable' (λ x, (u2f_id x, u2f_name x, u2f_reg x, u2f_counter x, u2f_compromised x, u2f_migrated x))
    (λ '(a, b, c, d, e, f), mkU2FRegistration a b c d e f) (λ x, match x with mkU2FRegistration _ _ _ _ _ _ => eq_refl end).
#[export] Instance toy_u2f : Serde (list U2FRegistration) id := toy_serde id.

(** Activating YubiKeys with an empty text for a key succeeds and enables the
    factor without any key; no code is accepted for it. *)
Theorem yubikey_without_keys :
  let w' := (activate_yubikey (λ _ _ _ _ _, true) (mkEnableYubikeyData (Some "") None None None None true (Some "pw") None) toy_headers (ext_env 0) toy_world).2 in
  ∃ row, find_twofactor "alice" 3 (twofactor (db w')) = Some row ∧ tf_enabled row = true ∧
    ∀ response e w w2, SecurityKeys.validate_yubikey_login (λ _ _ _ _ _, true) response (tf_data row) e w ≠ (Ok tt, w2).
Proof.
  intros w'. eexists. split; [vm_compute; reflexivity|]. split; [done|]. intros response e w w2 Hrun.
  apply yubikey_login_exact in Hrun as (_ & [H _] & _). destruct (H eq_refl) as (_ & m & key & Hm & _ & Hin & _).
  vm_compute in Hm. injection Hm as <-. by apply elem_of_nil in Hin.
Qed.

(** Deleting the last WebAuthn key leaves the factor enabled; a login that gives no
    token then fails with an error about the missing keys, and does not ask for
    the other factors of the account. *)
Theorem last_key_blocks_login :
  let rows : gmap string TwoFactor := {["t0" := toy_row "t0" "alice" 0 "secret"; "t7" := toy_row "t7" "alice" 7 (to_json_string toy_keys)]} in
  let w' := (delete_webauthn toy_webauthn (mkDeleteU2FData (Number 1) "pw") toy_headers (ext_env 0)
               (mkWorld ((db toy_world) <| twofactor := rows |>) 100 [] ∅ ∅)).2 in
  (∃ row, find_twofactor "alice" 7 (twofactor (db w')) = Some row ∧ tf_enabled row = true ∧
     registrations_of toy_webauthn "alice" (twofactor (db w')) = Some []) ∧
  (login_password toy_external (mkConnectData None (Some "web") None (Some "pw") (Some "api offline_access") (Some "alice@example.org")
     (Some "d1") (Some "phone") (Some "9") None None None None None None) 9 "ip" None (ext_env 0) w').1 = Err (new_msg "No Webauthn devices registered").
Proof. intros rows w'. split; [eexists; split_and!; vm_compute; reflexivity|vm_compute; reflexivity]. Qed.
