(* ===== verification/SingleSignOn.v ===== *)
(** * Single sign-on

    [server/src/db/models/sso_auth.rs]; of [server/src/sso.rs]: the start of a
    login at the identity provider, the exchange of the provider's code, and
    its redemption for tokens; [server/src/sso_client.rs]; of
    [server/src/api/identity.rs]: the endpoints a browser visits on the way, the
    login with a code, and the dispatch on the kind of login.  The OpenID Connect
    library with the provider behind it, the caches and the [url] crate are
    parameters.  The theorems are in [SsoSafety]. *)

From stdpp Require Import base strings numbers pretty gmap list.
From S2P Require Import Prelude Store Users Orgs AuthRequests TwoFactor OneTimeCodes Login Sessions Signups DeviceApproval SecurityKeys.

(** ** What is called outside *)

(** [Client], less the client for requests; [cl_metadata] is what the provider
    published *)
Record Client (Metadata : Type) := mkClient {
  cl_metadata : Metadata; cl_client_id : string; cl_client_secret : string; cl_redirect_uri : string; cl_token_uri : string;
  cl_user_info_url : string }.
Arguments mkClient {Metadata} _ _ _ _ _ _.
Record TokenResponse := mkTokenResponse {
  tr_access_token : string; tr_refresh_token : option string; tr_expires_in : option Z; tr_id_token : option string }.
Record IdTokenClaims := mkIdTokenClaims {
  ic_issuer : string; ic_subject : string; ic_email : option string; ic_email_verified : option bool;
  ic_preferred_username : option string }.
Record UserInfoClaims := mkUserInfoClaims {
  ui_email : option string; ui_email_verified : option bool; ui_preferred_username : option string }.
Definition RefreshTokenResponse : Type := option string * string * option Z.
Record SsoTokenJwtClaims := mkSsoTokenJwtClaims { st_nbf : Z; st_exp : Z; st_iss : string; st_sub : string }.

(** The provider answers at a call. *)
Record OpenIdLib := mkOpenIdLib {
  Metadata : Type;
  issuer_url_new : string → option string;
  redirect_url_new : string → option string;
  http_client_builds : bool;
  discover : nat → string → option Metadata;
  metadata_token_uri : Metadata → option string;
  metadata_user_info_url : Metadata → option string;
  (** [Nonce::new_random] *)
  new_nonce : nat → string;
  (** the address of a request for a code: state, nonce, scopes, further values *)
  authorize_link : Client Metadata → string → string → list string → list (string * string) → string;
  (** [PkceCodeChallenge::from_code_verifier_sha256] *)
  code_challenge_of : string → string;
  (** the token endpoint: for a code, with a verifier or not; for a refresh token *)
  token_request : nat → Client Metadata → string → option string → option TokenResponse;
  refresh_request : nat → Client Metadata → string → option TokenResponse;
  (** the claims of an identity token, if its signature, issuer, audience and dates
      are right and it carries the nonce; other audiences may be trusted *)
  id_token_claims : Z → Client Metadata → option (string → bool) → string → string → option IdTokenClaims;
  user_info_request : nat → Client Metadata → string → option UserInfoClaims;
  regex_new : string → option (string → bool);
  (** what the caches hold at a time: the client, the answers for refresh tokens *)
  client_cache : Z → option (Client Metadata);
  refresh_cache : Z → string → option (RefreshTokenResponse + string);
  form_urlencoded_parse : string → list (string * string);
  url_parse : string → option string;
  append_pairs : string → list (string * string) → string;
  sha256 : bytes → bytes;
  base64_encode : bytes → string;
  base64_decode : string → option bytes;
  encode_ssotoken : SsoTokenJwtClaims → option string;
  (** the database's statement for linking an account replaces rows *)
  link_replaces : bool;
}.

(** [str::split_whitespace] *)
Fixpoint words (cur : str) (s : str) : list str :=
  match s with
  | [] => if bool_decide (cur = []) then [] else [rev cur]
  | c :: s => if is_whitespace c then (if bool_decide (cur = []) then words [] s else rev cur :: words [] s)
              else words (c :: cur) s
  end.
Definition split_whitespace (s : string) : list string :=
  (λ w, string_of_chars (as_bytes w)) <$> words [] (utf8_decode (string_bytes s)).

(** ** sso_auth.rs *)

Definition SSO_AUTH_EXPIRATION : Z := minutes 10.
Definition SsoAuth_new (state client_challenge nonce redirect_uri : string) (binding_hash : option string) : M SsoAuth :=
  let* now := ask now in
  mret {| sa_state := state; sa_client_challenge := client_challenge; sa_nonce := nonce; sa_redirect_uri := redirect_uri;
          sa_created_at := now; sa_updated_at := now; sa_code_response := None; sa_code_response_error := None;
          sa_auth_response := None; sa_binding_hash := binding_hash |}.
Definition SsoAuth_save (self : SsoAuth) : M unit :=
  exec (λ d, d <| sso_auth := <[sa_state self := self]> (sso_auth d) |>).
(** [Utc::now().naive_utc() - *SSO_AUTH_EXPIRATION], which panics out of range *)
Definition sso_oldest : M Z :=
  let* t := ask now in mexpect (checked_add_signed t (- SSO_AUTH_EXPIRATION)).
Definition SsoAuth_find (state : string) : M (option SsoAuth) :=
  let* oldest := sso_oldest in
  query (λ d, first (λ r, bool_decide (sa_state r = state) && (oldest <=? sa_created_at r)%Z) (sso_auth d)).
Definition SsoAuth_find_by_code (code : string) : M (option SsoAuth) :=
  let* oldest := sso_oldest in
  query (λ d, first (λ r, bool_decide (sa_code_response r = Some code) && (oldest <=? sa_created_at r)%Z) (sso_auth d)).
Definition SsoAuth_delete (self : SsoAuth) : M unit :=
  exec (λ d, d <| sso_auth := delete (sa_state self) (sso_auth d) |>).
(** Once a connection is there. *)
Definition SsoAuth_delete_expired : M unit :=
  let* oldest := sso_oldest in
  exec (λ d, d <| sso_auth := delete_where (λ r, sa_created_at r <? oldest)%Z (sso_auth d) |>).

Section sso.
Context `{!Serde UserStampException id, !Serde DuoProviderData id, !Serde EmailTokenData id}.
Context (svc : Services) (L : OpenIdLib).
Abbreviation Cl := (Client (Metadata L)).

Definition sha256_hex (data : string) : M string := ask (λ e, encode_hexlower e (sha256 L (string_bytes data))).

(** ** config.rs *)

Definition sso_issuer_url : M string :=
  let* authority := conf sso_authority in some_or_err (issuer_url_new L authority) "Invalid sso_authority URL".
Definition sso_redirect_url : M string :=
  let* path := conf sso_callback_path in some_or_err (redirect_url_new L path) "Invalid sso_callback_path URL".
Definition sso_scopes_vec : M (list string) := let* s := conf sso_scopes in mret (split_whitespace s).
Definition sso_authorize_extra_params_vec : M (list (string * string)) :=
  let* s := conf sso_authorize_extra_params in mret (form_urlencoded_parse L s).

(** ** sso_client.rs *)

Definition Client_get_client : M Cl :=
  let* client_id := conf sso_client_id in
  let* client_secret := conf sso_client_secret in
  let* issuer_url := sso_issuer_url in
  do* ensure (http_client_builds L) "Failed to build http client" in
  let* found := next (λ _ i, discover L i issuer_url) in
  let* provider_metadata := some_or_err found "Failed to discover OpenID provider" in
  let* token_uri := some_or_err (metadata_token_uri L provider_metadata) "Failed to discover token_url, cannot proceed" in
  let* user_info_url := some_or_err (metadata_user_info_url L provider_metadata) "Failed to discover user_info url, cannot proceed" in
  let* redirect := sso_redirect_url in
  mret (mkClient provider_metadata client_id client_secret redirect token_uri user_info_url).
Definition Client_cached : M Cl :=
  let* expiration := conf sso_client_cache_expiration in
  if (0 <? expiration)%Z then
    let* cached := ask (λ e, client_cache L (now e)) in
    match cached with Some client => mret client | None => Client_get_client end
  else Client_get_client.

Definition Client_authorize_url (state client_challenge redirect_uri : string) (binding_hash : option string) : M (string * SsoAuth) :=
  let* scopes := sso_scopes_vec in
  let base64_state := base64_encode L (string_bytes state) in
  let* client := Client_cached in
  let* nonce := next (λ _ i, new_nonce L i) in
  let* extra := sso_authorize_extra_params_vec in
  let* pkce := conf sso_pkce in
  let extra := if pkce then extra ++ [("code_challenge", client_challenge); ("code_challenge_method", "S256")] else extra in
  let auth_url := authorize_link L client base64_state nonce scopes extra in
  let* sso_auth := SsoAuth_new state client_challenge nonce redirect_uri binding_hash in
  mret (auth_url, sso_auth).

(** Which other audiences are trusted; a pattern that cannot be read is dropped. *)
Definition vw_id_token_verifier : M (option (string → bool)) :=
  let* trusted := conf sso_audience_trusted in
  mret (match trusted with Some regex_str => regex_new L regex_str | None => None end).
(** The client is dropped from the cache when the claims cannot be read. *)
Definition Client_exchange_code (client : Cl) (code client_verifier : string) (sso_auth : SsoAuth) : M (TokenResponse * IdTokenClaims) :=
  let* pkce := conf sso_pkce in
  let* verifier :=
    (if pkce then mret (Some client_verifier)
     else do* ensure (bool_decide (code_challenge_of L client_verifier = sa_client_challenge sso_auth)) "PKCE client challenge failed" in
          mret None) in
  let* answer := next (λ _ i, token_request L i client code verifier) in
  let* token_response := some_or_err answer "Failed to contact token endpoint" in
  let oidc_nonce := sa_nonce sso_auth in
  let* id_token := some_or_err (tr_id_token token_response) "Token response did not contain an id_token" in
  let* trusted := vw_id_token_verifier in
  let* t := ask now in
  let* id_claims := some_or_err (id_token_claims L t client trusted id_token oidc_nonce) "Could not read id_token claims" in
  mret (token_response, id_claims).
Definition Client_user_info (client : Cl) (access_token : string) : M UserInfoClaims :=
  let* answer := next (λ _ i, user_info_request L i client access_token) in
  some_or_err answer "Request to user_info endpoint failed".
Definition Client_check_validity (access_token : string) : M unit :=
  let* client := Client_cached in
  map_res (let* _ := Client_user_info client access_token in mret tt)
    "Failed to retrieve user info, token has probably been invalidated".

Definition Client_exchange_refresh_token_impl (client : Cl) (refresh_token : string) : M (RefreshTokenResponse + string) :=
  let* answer := next (λ _ i, refresh_request L i client refresh_token) in
  mret (match answer with
        | None => inr "Request to exchange_refresh_token endpoint failed"
        | Some r => inl (tr_refresh_token r, tr_access_token r, tr_expires_in r)
        end).
Definition Client_exchange_refresh_token (refresh_token : string) : M RefreshTokenResponse :=
  let* client := Client_cached in
  let* cached := ask (λ e, refresh_cache L (now e) refresh_token) in
  let* answer := match cached with Some a => mret a | None => Client_exchange_refresh_token_impl client refresh_token end in
  match answer with inl r => mret r | inr msg => err msg end.

(** ** sso.rs *)

Definition encode_ssotoken_claims : M string :=
  let* t := ask now in
  let* exp := now_plus 120 in
  let* origin := conf domain_origin in
  some_or_err (encode_ssotoken L (mkSsoTokenJwtClaims (timestamp t) (timestamp exp) (origin +:+ "|sso") "vaultwarden"))
    "Error encoding JWT".

Definition decode_state (base64_state : string) : M string :=
  let* vec := some_or_err (base64_decode L base64_state) ("Failed to decode " +:+ base64_state +:+ " using base64") in
  do* ensure (utf8_ok vec) ("Invalid utf8 chars in " +:+ base64_state +:+ " after base64 decoding") in
  mret (string_of_chars vec).

(** The capture of [^http://localhost:([0-9]{4})$] *)
Definition is_digit_char (c : Z) : bool := ((48 <=? c) && (c <=? 57))%Z.
Definition cli_port (raw_redirect_uri : string) : option string :=
  port ← strip_prefix "http://localhost:" raw_redirect_uri;
  if bool_decide (String.length port = 4) && forallb is_digit_char (chars port) then Some port else None.
Definition sso_redirect_uri (client_id raw_redirect_uri : string) : M string :=
  if bool_decide (client_id = "web") || bool_decide (client_id = "browser") then
    let* domain := conf domain in mret (domain +:+ "/sso-connector.html")
  else if bool_decide (client_id = "desktop") || bool_decide (client_id = "mobile") then mret "bitwarden://sso-callback"
  else if bool_decide (client_id = "cli") then
    match cli_port raw_redirect_uri with
    | Some port => mret ("http://localhost:" +:+ port)
    | None => err "Failed to extract port number"
    end
  else err ("Unsupported client " +:+ client_id).
Definition authorize_url (state client_challenge client_id raw_redirect_uri : string) (binding_hash : option string) : M string :=
  let* redirect_uri := sso_redirect_uri client_id raw_redirect_uri in
  let* (auth_url, sso_auth) := Client_authorize_url state client_challenge redirect_uri binding_hash in
  do* SsoAuth_save sso_auth in
  mret auth_url.

Definition OIDCIdentifier_new (issuer subject : string) : string := issuer +:+ "/" +:+ subject.

Definition or_else {A} (a b : option A) : option A := match a with Some _ => a | None => b end.

(** The identity from the claims of the identity token and of the user-info
    endpoint *)
Definition authenticated_user (token_response : TokenResponse) (id_claims : IdTokenClaims) (user_info : UserInfoClaims)
    : M OIDCAuthenticatedUser :=
  let* email := some_or_err (or_else (ic_email id_claims) (ui_email user_info)) "Neither id token nor userinfo contained an email" in
  let* email := ask (λ e, str_to_lowercase e email) in
  mret {| oa_refresh_token := tr_refresh_token token_response; oa_access_token := tr_access_token token_response;
          oa_expires_in := tr_expires_in token_response;
          oa_identifier := OIDCIdentifier_new (ic_issuer id_claims) (ic_subject id_claims); oa_email := email;
          oa_email_verified := or_else (ic_email_verified id_claims) (ui_email_verified user_info);
          oa_user_name := or_else (ic_preferred_username id_claims) (ui_preferred_username user_info) |}.
(** The code the provider returned, or the failure it reported, which ends the
    attempt *)
Definition returned_code (sso_auth : SsoAuth) : M string :=
  match sa_code_response sso_auth, sa_code_response_error sso_auth with
  | Some code, None => mret code
  | _, Some re =>
     do* SsoAuth_delete sso_auth in
     err ("SSO authorization failed: " +:+ ce_error re +:+ ", " +:+ default "" (ce_error_description re))
  | None, None => do* SsoAuth_delete sso_auth in err "Missing authorization provider return"
  end.
Definition exchange_code (code client_verifier : string) : M (SsoAuth * OIDCAuthenticatedUser) :=
  let* found := SsoAuth_find_by_code code in
  let* sso_auth := some_or_err found "Invalid code cannot retrieve sso auth" in
  match sa_auth_response sso_auth with
  | Some authenticated_user => mret (sso_auth, authenticated_user)
  | None =>
     let* code := returned_code sso_auth in
     let* client := Client_cached in
     let* (token_response, id_claims) := Client_exchange_code client code client_verifier sso_auth in
     let* user_info := Client_user_info client (tr_access_token token_response) in
     let* user := authenticated_user token_response id_claims user_info in
     let* t := ask now in
     let sso_auth := sso_auth <| sa_auth_response := Some user |> <| sa_updated_at := t |> in
     do* SsoAuth_save sso_auth in
     mret (sso_auth, user)
  end.

(** The tokens are made by the statements of [create_auth_tokens]. *)
Definition redeem (device : Device) (user : User) (client_id : option string) (sso_user : option SsoUser) (sso_auth : SsoAuth)
    (auth_user : OIDCAuthenticatedUser) : M AuthTokens :=
  do* SsoAuth_delete sso_auth in
  do* match sso_user with
      | None => SsoUser_save (link_replaces L) (mkSsoUser (u_uuid user) (oa_identifier auth_user))
      | Some _ => mret tt
      end in
  create_auth_tokens svc device user client_id (oa_refresh_token auth_user) (oa_access_token auth_user) (oa_expires_in auth_user).

(** ** identity.rs: the way through the browser *)

Definition prevalidate : M Json :=
  let* enabled := conf sso_enabled in
  if enabled then let* sso_token := encode_ssotoken_claims in mret (JObj [("token", JStr sso_token)])
  else err "SSO sign-in is not available".

Definition SSO_BINDING_COOKIE : string := "VW_SSO_BINDING".
Inductive SameSite := Lax.
Record Cookie := mkCookie {
  ck_name : string; ck_value : string; ck_path : string; ck_max_age : Z; ck_same_site : SameSite; ck_http_only : bool; ck_secure : bool }.
Definition binding_path : M string := let* path := conf domain_path in mret (path +:+ "/identity/connect/").

(** Returns the address the browser is sent to; the cookie of that name, with the
    path [binding_path], is removed. *)
Definition oidcsignin_redirect (base64_state code : string) (error : option OIDCCodeResponseError) (cookie : option string) : M string :=
  let* state := decode_state base64_state in
  let* found := SsoAuth_find state in
  let* sso_auth := some_or_err found ("Cannot retrieve sso_auth for " +:+ state) in
  let* bound :=
    match sa_binding_hash sso_auth, cookie with
    | Some expected, Some value => let* actual := sha256_hex value in mret (ct_eq expected actual)
    | _, _ => mret false
    end in
  do* ensure bound ("SSO session binding mismatch for " +:+ state) in
  let* t := ask now in
  let sso_auth := sso_auth <| sa_code_response := Some code |> <| sa_code_response_error := error |> <| sa_updated_at := t |> in
  do* SsoAuth_save sso_auth in
  let* url := some_or_err (url_parse L (sa_redirect_uri sso_auth)) "Failed to parse redirect uri" in
  let* domain := conf domain in
  mret (append_pairs L url [("code", code); ("state", state); ("scope", AuthMethod_scope Sso); ("iss", domain)]).
Definition oidcsignin (code state : string) (cookie : option string) : M string := oidcsignin_redirect state code None cookie.
Definition oidcsignin_error (state error : string) (error_description : option string) (cookie : option string) : M string :=
  oidcsignin_redirect state state (Some (mkOIDCCodeResponseError error error_description)) cookie.

(** Less the fields that are not used *)
Record AuthorizeData := mkAuthorizeData {
  az_client_id : string; az_redirect_uri : string; az_state : string; az_code_challenge : string; az_code_challenge_method : string }.
Definition authorize (data : AuthorizeData) (secure : bool) : M (string * Cookie) :=
  do* ensure (bool_decide (az_code_challenge_method data = "S256")) "Unsupported code challenge method" in
  let* binding_token := encode_random_bytes 32 encode_base64url in
  let* binding_hash := sha256_hex binding_token in
  let* auth_url := authorize_url (az_state data) (az_code_challenge data) (az_client_id data) (az_redirect_uri data) (Some binding_hash) in
  let* path := binding_path in
  mret (auth_url, {| ck_name := SSO_BINDING_COOKIE; ck_value := binding_token; ck_path := path;
                     ck_max_age := num_seconds SSO_AUTH_EXPIRATION; ck_same_site := Lax; ck_http_only := true; ck_secure := secure |}).

(** ** identity.rs: the login *)

(** The account of an identity, if there is one it may log in to *)
Definition find_sso_account (user_infos : OIDCAuthenticatedUser) : M (option (User * option SsoUser)) :=
  let* linked := SsoUser_find_by_identifier (oa_identifier user_infos) in
  match linked with
  | Some (user, sso_user) => mret (Some (user, Some sso_user))
  | None =>
     let* found := SsoUser_find_by_mail (oa_email user_infos) in
     let* match_email := conf sso_signups_match_email in
     let* allow_unknown := conf sso_allow_unknown_email_verification in
     match found with
     | None => mret None
     | Some (user, Some _) => err_event "Existing SSO user with same email" UserFailedLogIn
     | Some (user, None) =>
        if bool_decide (is_Some (u_private_key user)) && negb match_email
        then err_event "Existing non SSO user with same email" UserFailedLogIn
        else match oa_email_verified user_infos with
             | None => if allow_unknown then mret (Some (user, None))
                       else err_event "Email verification status is unknown" UserFailedLogIn
             | Some false => err_event "Email is not verified by the SSO provider" UserFailedLogIn
             | Some true => mret (Some (user, None))
             end
     end
  end.
Definition create_sso_account (data : ConnectData) (user_infos : OIDCAuthenticatedUser) : M (User * Device) :=
  let* allowed := is_email_domain_allowed (oa_email user_infos) in
  do* (if allowed then mret tt else err_event "Email domain not allowed" UserFailedLogIn) in
  let* allow_unknown := conf sso_allow_unknown_email_verification in
  do* match oa_email_verified user_infos with
      | None => if allow_unknown then mret tt else err_event "Your provider does not send email verification status.
You will need to change the server configuration (check `SSO_ALLOW_UNKNOWN_EMAIL_VERIFICATION`) to log in." UserFailedLogIn
      | Some false => err_event "You need to verify your email with your provider before you can log in" UserFailedLogIn
      | Some true => mret tt
      end in
  let* t := ask now in
  let* user := User_new (oa_email user_infos) (oa_user_name user_infos) in
  let* user := User_save (user <| u_verified_at := Some t |>) in
  let* device := get_device data user in
  mret (user, device).
(** Completing the stub of an invited user *)
Definition claim_stub (user : User) (user_infos : OIDCAuthenticatedUser) : M User :=
  let* t := ask now in
  if bool_decide (u_private_key user = None) then
    let user := user <| u_verified_at := Some t |> in
    User_save (match oa_user_name user_infos with Some name => user <| u_name := name |> | None => user end)
  else mret user.
Definition enter_sso_account (user : User) (data : ConnectData) (user_infos : OIDCAuthenticatedUser) (ip : string)
    (client_version : option string) : M (User * Device * option string) :=
  let* device := get_device data user in
  let* (user, device, twofactor_token) := twofactor_auth svc user data device ip client_version in
  let* user := claim_stub user user_infos in
  let* mail := conf mail_enabled in
  do* (if negb (bool_decide (u_email user = oa_email user_infos)) && mail
       then send_mail (MailSsoChangeEmail (oa_email user_infos)) else mret tt) in
  mret (user, device, twofactor_token).

Record SsoEntry := mkSsoEntry {
  en_user : User; en_device : Device; en_twofactor_token : option string; en_sso_user : option SsoUser; en_sso_auth : SsoAuth;
  en_user_infos : OIDCAuthenticatedUser }.
(** [sso_login], until the user is known to the log *)
Definition sso_login_entry (data : ConnectData) (ip : string) (client_version : option string) : M SsoEntry :=
  let* _ := AuthMethod_check_scope Sso (cd_scope data) in
  do* check_limit_login ip in
  let* (code, code_verifier) :=
    match cd_code data, cd_code_verifier data with
    | None, _ => err_event "Got no code in OIDC data" UserFailedLogIn
    | _, None => err_event "Got no code verifier in OIDC data" UserFailedLogIn
    | Some code, Some code_verifier => mret (code, code_verifier)
    end in
  let* (sso_auth, user_infos) := exchange_code code code_verifier in
  let* user_with_sso := find_sso_account user_infos in
  match user_with_sso with
  | None =>
     let* (user, device) := create_sso_account data user_infos in
     mret (mkSsoEntry user device None None sso_auth user_infos)
  | Some (user, sso_user) =>
     if u_enabled user then
       let* (user, device, twofactor_token) := enter_sso_account user data user_infos ip client_version in
       mret (mkSsoEntry user device twofactor_token sso_user sso_auth user_infos)
     else err_event "This user has been disabled" UserFailedLogIn
  end.
(** Its rest *)
Definition sso_login_finish (x : SsoEntry) (data : ConnectData) (ip : string) : M Json :=
  let* auth_tokens := redeem (en_device x) (en_user x) (cd_client_id data) (en_sso_user x) (en_sso_auth x) (en_user_infos x) in
  authenticated_response svc (en_user x) (en_device x) auth_tokens (en_twofactor_token x) ip.
(** The branch of [login] for the grant [authorization_code] *)
Definition login_authorization_code (data : ConnectData) (device_type : Z) (ip : string) (client_version : option string) : M Json :=
  let* enabled := conf sso_enabled in
  do* ensure enabled "SSO sign-in is not available" in
  do* check_is_some (cd_client_id data) "client_id cannot be blank" in
  do* check_is_some (cd_code data) "code cannot be blank" in
  do* check_is_some (cd_code_verifier data) "code verifier cannot be blank" in
  do* check_is_some (cd_device_identifier data) "device_identifier cannot be blank" in
  do* check_is_some (cd_device_name data) "device_name cannot be blank" in
  do* check_is_some (cd_device_type data) "device_type cannot be blank" in
  let* x := sso_login_entry data ip client_version in
  log_login (u_uuid (en_user x)) device_type ip (sso_login_finish x data ip).

(** ** identity.rs: login *)

Definition login (grant_type : string) (data : ConnectData) (device_type : Z) (ip : string) (client_version : option string) : M Json :=
  if bool_decide (grant_type = "refresh_token") then login_refresh_token svc data
  else if bool_decide (grant_type = "password") then login_password svc data device_type ip client_version
  else if bool_decide (grant_type = "client_credentials") then login_client_credentials svc data device_type ip
  else if bool_decide (grant_type = "authorization_code") then login_authorization_code data device_type ip client_version
  else err "Invalid type".
End sso.
