(* ===== verification/SsoSafety.v ===== *)
(** * What single sign-on promises

    Whom a code of the identity provider logs in, and what must have happened
    before: the theorems about [SingleSignOn]. *)

From stdpp Require Import base strings numbers pretty gmap list.
From S2P Require Import Prelude Store Users Orgs AuthRequests TwoFactor TotpReplay OneTimeCodes Login LoginSafety Sessions.
From S2P Require Import Signups Profiles DeviceApproval SecurityKeys DuoFactor ExternalFactors SingleSignOn.

(** ** What the steps of a login leave alone *)

(** The tables of single sign-on *)
Definition sso_tables (d : Db) : gmap string SsoAuth * gmap string SsoUser := (sso_auth d, sso_users d).

(** What single sign-on expects of the external second factors: they leave its
    tables alone. *)
Class FactorsApart (svc : Services) : Prop := {
  apart_webauthn u c : keeps sso_tables (Login.validate_webauthn_login svc u c);
  apart_webauthn_prompt u : keeps sso_tables (Login.generate_webauthn_login svc u);
  apart_yubikey c d : keeps sso_tables (Login.validate_yubikey_login svc c d);
  apart_iframe m c : keeps sso_tables (Login.duo_validate_iframe svc m c);
  apart_oidc m c i d : keeps sso_tables (Login.duo_validate_oidc svc m c i d);
  apart_signature m : keeps sso_tables (duo_signature svc m);
  apart_auth_url m i d : keeps sso_tables (duo_auth_url svc m i d);
}.
#[export] Hint Resolve apart_webauthn apart_webauthn_prompt apart_yubikey apart_iframe apart_oidc apart_signature apart_auth_url : frame.

Section frames.
Context `{!Serde UserStampException id, !Serde DuoProviderData id, !Serde EmailTokenData id}.
Context (svc : Services).

Lemma apart_get_device data user : keeps sso_tables (get_device data user).
Proof.
  unfold get_device, Device_find_by_uuid_and_user, Device_new, generate_refresh_token, encode_random_bytes, get_random_bytes, Device_save.
  solve_keeps.
Qed.
Lemma apart_User_save user : keeps sso_tables (User_save user).
Proof. unfold User_save. solve_keeps. Qed.
Lemma apart_enforce_2fa user act t ip : keeps sso_tables (enforce_2fa_policy user act t ip).
Proof.
  unfold enforce_2fa_policy, enforce_2fa_policy_member, Membership_find_by_user_and_policy, Organization_find_by_uuid, Membership_save,
    User_update_uuid_revision, log_event, log_event_impl, Event_new, Event_save. solve_keeps.
Qed.
Lemma apart_log_user_event t user dt ip : keeps sso_tables (log_user_event t user dt ip).
Proof. apply keeps_log_user_event. done. Qed.
#[local] Hint Resolve apart_get_device apart_User_save apart_enforce_2fa apart_log_user_event : frame.
Lemma apart_send_token user : keeps sso_tables (send_token user).
Proof.
  unfold send_token, TwoFactor_find_by_user_and_type, generate_email_token, EmailTokenData_from_json, EmailTokenData_set_token, TwoFactor_save.
  solve_keeps.
Qed.
Lemma apart_totp user code secret ip : keeps sso_tables (validate_totp_code_str user code secret ip).
Proof.
  unfold validate_totp_code_str, validate_totp_code, TwoFactor_find_by_user_and_type, TwoFactor_new. solve_keeps.
  lazymatch goal with |- keeps _ (totp_loop _ _ _ _ _ ?l) => induction l as [|step l IH]; simpl end; [solve_keeps|].
  unfold TwoFactor_save. solve_keeps.
Qed.
Lemma apart_email_code user code data ip : keeps sso_tables (validate_email_code_str user code data ip).
Proof.
  unfold validate_email_code_str, EmailTokenData_from_json, TwoFactor_find_by_user_and_type, TwoFactor_save. solve_keeps.
Qed.
Lemma apart_notify user device ip : keeps sso_tables (notify_new_device user device ip).
Proof.
  unfold notify_new_device. apply keeps_bind; [solve_keeps|]. intros mail. apply keeps_bind; [solve_keeps|]. intros t.
  destruct (_ && _); [|solve_keeps]. intros e w. unfold wp. pose proof (keeps_send_mail sso_tables (MailNewDevice (u_email user) ip t (d_uuid device)) e w) as H.
  unfold wp in H. destruct (send_mail _ e w) as [[]]; [done| |done]. by destruct (require_device_email _).
Qed.
#[local] Hint Resolve apart_notify : frame.
Lemma apart_authenticated user device tokens tok ip : keeps sso_tables (authenticated_response svc user device tokens tok ip).
Proof.
  unfold authenticated_response, register_push_device, Device_save, master_password_policy, OrgPolicy_find_accepted_and_confirmed_by_user_and_active_policy.
  solve_keeps. destruct (match _ with [] => _ | _ :: _ => _ end); solve_keeps.
Qed.
Lemma reads_decode_token token : reads (decode_token_claims svc token).
Proof. unfold decode_token_claims. destruct (decode_validation svc token) as [[]|]; solve_reads. Qed.
#[local] Hint Resolve reads_decode_token : frame.
Lemma apart_tokens device user client rt at_ ex : keeps sso_tables (create_auth_tokens svc device user client rt at_ ex).
Proof.
  apply keeps_of_reads. unfold create_auth_tokens, create_auth_tokens_impl, AuthTokens_new, LoginJwtClaims_default, LoginJwtClaims_new, now_plus,
    BasicTokenClaims_nbf. repeat (solve_reads; lazymatch goal with |- reads (match ?p with (_, _) => _ end) => destruct p end).
Qed.
Lemma apart_log_login user t ip (m : M Json) : keeps sso_tables m → keeps sso_tables (log_login user t ip m).
Proof.
  intros Hm e w. specialize (Hm e w). unfold wp, log_login in *. destruct (m e w) as [[j|x|] w1]; simpl in *; [| |done].
  - rewrite <- Hm. refine (keeps_bind sso_tables _ _ _ _ e w1); solve_keeps.
  - destruct (e_event x); [|done]. rewrite <- Hm. refine (keeps_bind sso_tables _ _ _ _ e w1); solve_keeps.
Qed.
#[local] Hint Resolve apart_send_token apart_totp apart_email_code : frame.

Context `{!FactorsApart svc}.
Lemma apart_prompt ps user data cv p : keeps sso_tables (provider_prompt svc ps user data cv p).
Proof.
  unfold provider_prompt. destruct (TwoFactorType_from_i32 p) as [[]|]; unfold User_find_by_uuid, TwoFactor_find_by_user_and_type, EmailTokenData_from_json; solve_keeps.
  unfold obscured. destruct (obscure_email _); solve_keeps.
Qed.
#[local] Hint Resolve apart_prompt : frame.
Lemma apart_ask {A} ps user data cv msg : keeps sso_tables (ask_second_factor svc ps user data cv msg : M A).
Proof.
  unfold ask_second_factor, json_err_twofactor. apply keeps_bind; [|solve_keeps]. apply keeps_bind; [|solve_keeps].
  generalize (@nil (string * Json)). generalize ps at 2 as l. induction l as [|p l IH]; intros acc; simpl; [solve_keeps|].
  apply keeps_bind; [auto with frame|]. intros j. apply IH.
Qed.
#[local] Hint Resolve apart_ask : frame.
Lemma apart_check_second_factor user data device ip cv ids sel code tf :
  keeps sso_tables (check_second_factor svc user data device ip cv ids sel code tf).
Proof.
  unfold check_second_factor. destruct (TwoFactorType_from_i32 sel) as [[]|]; unfold selected_data, Device_save, User_check_valid_recovery_code,
    TwoFactor_delete_all_by_user; solve_keeps.
Qed.
#[local] Hint Resolve apart_check_second_factor : frame.
Lemma apart_twofactor_auth user data device ip cv : keeps sso_tables (twofactor_auth svc user data device ip cv).
Proof.
  unfold twofactor_auth, TwoFactor_find_by_user, TwoFactorIncomplete_mark_incomplete, TwoFactorIncomplete_find_by_user_and_device,
    TwoFactorIncomplete_mark_complete, Device_refresh_twofactor_remember, generate_2fa_remember_claims, now_plus. solve_keeps.
Qed.
End frames.

(** ** The exchange of a code *)

Section exchange.
Context (L : OpenIdLib).

(** The client is for the configured provider: it was cached, or is made from what
    the provider publishes at the configured address. *)
Definition trusted_client (e : Env) (client : Client (Metadata L)) : Prop :=
  ((0 < sso_client_cache_expiration (cfg e))%Z ∧ client_cache L (now e) = Some client) ∨
  ∃ i url m token_uri info_url redirect,
    issuer_url_new L (sso_authority (cfg e)) = Some url ∧ discover L i url = Some m ∧
    client = mkClient m (sso_client_id (cfg e)) (sso_client_secret (cfg e)) redirect token_uri info_url.
Lemma Client_cached_Ok e w client w' :
  Client_cached L e w = (Ok client, w') → db w' = db w ∧ trusted_client e client.
Proof.
  assert (∀ w client w', Client_get_client L e w = (Ok client, w') → db w' = db w ∧ trusted_client e client) as Hget.
  { clear. intros w client w' H. unfold Client_get_client, sso_issuer_url, sso_redirect_url in H. ok_inv H. ok_inv Hrun. ok_inv Hrun4.
    split; [done|]. right. by exists (tick w), a, a1, a2, a3, a4. }
  intros H. unfold Client_cached in H. ok_step H. destruct (0 <? _)%Z eqn:Hx; [|by apply Hget]. ok_step H.
  destruct (client_cache L (now e)) eqn:Hc; [|by apply Hget]. ok_inv H. split; [done|]. left. by apply Z.ltb_lt in Hx.
Qed.

(** The provider vouches for [u] in answer to the code, the check of the verifier,
    the nonce of the attempt and the audience included. *)
Definition vouched (e : Env) (row : SsoAuth) (code verifier : string) (u : OIDCAuthenticatedUser) : Prop :=
  ∃ client i j resp id_token claims info email,
    trusted_client e client ∧
    token_request L i client code (if sso_pkce (cfg e) then Some verifier else None) = Some resp ∧
    (sso_pkce (cfg e) = false → code_challenge_of L verifier = sa_client_challenge row) ∧
    tr_id_token resp = Some id_token ∧
    id_token_claims L (now e) client (sso_audience_trusted (cfg e) ≫= regex_new L) id_token (sa_nonce row) = Some claims ∧
    user_info_request L j client (tr_access_token resp) = Some info ∧
    or_else (ic_email claims) (ui_email info) = Some email ∧
    u = mkOIDCAuthenticatedUser (tr_refresh_token resp) (tr_access_token resp) (tr_expires_in resp)
          (OIDCIdentifier_new (ic_issuer claims) (ic_subject claims)) (str_to_lowercase e email)
          (or_else (ic_email_verified claims) (ui_email_verified info))
          (or_else (ic_preferred_username claims) (ui_preferred_username info)).

(** An attempt that got [code], at most ten minutes old *)
Definition open_attempt (e : Env) (d : Db) (code : string) (row : SsoAuth) : Prop :=
  (∃ k, sso_auth d !! k = Some row) ∧ sa_code_response row = Some code ∧ (now e - SSO_AUTH_EXPIRATION ≤ sa_created_at row)%Z.
Lemma sso_oldest_Ok e w t w' : sso_oldest e w = (Ok t, w') → t = (now e - SSO_AUTH_EXPIRATION)%Z ∧ w' = w.
Proof.
  unfold sso_oldest. intros H. ok_inv H. unfold checked_add_signed in H. destruct (in_range _); [|done]. injection H as <-. done.
Qed.
Lemma find_by_code_Ok code e w o w' :
  SsoAuth_find_by_code code e w = (Ok o, w') →
  w' = w ∧ o = first (λ r, bool_decide (sa_code_response r = Some code) && (now e - SSO_AUTH_EXPIRATION <=? sa_created_at r)%Z) (sso_auth (db w)).
Proof. unfold SsoAuth_find_by_code. intros H. ok_step H. apply sso_oldest_Ok in Hrun as [-> ->]. by ok_inv H. Qed.

Lemma Client_exchange_code_Ok client code verifier row e w resp claims w' :
  Client_exchange_code L client code verifier row e w = (Ok (resp, claims), w') →
  db w' = db w ∧ ∃ i id_token,
    token_request L i client code (if sso_pkce (cfg e) then Some verifier else None) = Some resp ∧
    (sso_pkce (cfg e) = false → code_challenge_of L verifier = sa_client_challenge row) ∧
    tr_id_token resp = Some id_token ∧
    id_token_claims L (now e) client (sso_audience_trusted (cfg e) ≫= regex_new L) id_token (sa_nonce row) = Some claims.
Proof.
  unfold Client_exchange_code. intros H. ok_step H. ok_step H.
  assert (w0 = w ∧ a = (if sso_pkce (cfg e) then Some verifier else None) ∧
    (sso_pkce (cfg e) = false → code_challenge_of L verifier = sa_client_challenge row)) as (-> & -> & Hch).
  { destruct (sso_pkce (cfg e)); ok_inv Hrun; [done|]. split_and!; [done..|]. intros _. by apply bool_decide_eq_true in Hrun0. }
  ok_inv H. unfold vw_id_token_verifier in Hrun2. ok_inv Hrun2. injection H as <- <- <-. split; [done|]. exists (tick w), a0.
  by destruct (sso_audience_trusted (cfg e)).
Qed.

(** What an exchange that succeeds returns and stores: the identity kept from an
    earlier exchange, or the one that the provider vouches for now. *)
Lemma exchange_code_Ok code verifier e w row' u w' :
  exchange_code L code verifier e w = (Ok (row', u), w') →
  ∃ row, open_attempt e (db w) code row ∧ sa_state row' = sa_state row ∧
    ((sa_auth_response row = Some u ∧ row' = row ∧ w' = w) ∨
     (sa_auth_response row = None ∧ sa_code_response_error row = None ∧ vouched e row code verifier u ∧
      row' = row <| sa_auth_response := Some u |> <| sa_updated_at := now e |> ∧
      db w' = (db w) <| sso_auth := <[sa_state row := row']> (sso_auth (db w)) |>)).
Proof.
  unfold exchange_code. intros H. ok_step H. apply find_by_code_Ok in Hrun as [-> ->]. ok_step H. rename a into row.
  apply first_Some in Hrun as [[Hc Ho]%andb_true_iff Hk]. apply bool_decide_eq_true in Hc. apply Z.leb_le in Ho.
  exists row. split; [done|]. destruct (sa_auth_response row) as [u0|] eqn:Hr.
  { ok_inv H. injection H as <- <- <-. split; [done|]. by left. }
  unfold returned_code in H. rewrite Hc in H. destruct (sa_code_response_error row) as [re|] eqn:Herr; [by ok_inv H|].
  ok_step H. ok_step H. apply Client_cached_Ok in Hrun as [Hw1 Htr]. ok_step H. destruct a0 as [resp claims].
  apply Client_exchange_code_Ok in Hrun as (Hw2 & i & tok & H1 & H2 & H3 & H4). ok_step H. unfold Client_user_info in Hrun. ok_inv Hrun.
  ok_step H. unfold authenticated_user in Hrun0. ok_inv Hrun0. unfold SsoAuth_save in H. ok_inv H. injection H as <- <- <-.
  split; [done|]. right. split_and!; [done..| |done|].
  - by exists a, i, (tick w1), resp, tok, claims, a0, a2.
  - simpl. congruence.
Qed.
End exchange.

(** ** The login *)

Section login.
Context `{!Serde UserStampException id, !Serde DuoProviderData id, !Serde EmailTokenData id}.
Context (svc : Services) (L : OpenIdLib).

(** The provider confirmed the address, or need not. *)
Definition email_confirmed (c : Config) (u : OIDCAuthenticatedUser) : Prop :=
  oa_email_verified u = Some true ∨ (oa_email_verified u = None ∧ sso_allow_unknown_email_verification c = true).
(** The account [user] is linked to the identity by [row]. *)
Definition linked (d : Db) (u : OIDCAuthenticatedUser) (user : User) (row : SsoUser) : Prop :=
  (∃ k, sso_users d !! k = Some row) ∧ su_identifier row = oa_identifier u ∧ users d !! su_user_uuid row = Some user.
Definition unlinked (d : Db) (u : OIDCAuthenticatedUser) : Prop := ∀ user row, ¬ linked d u user row.
(** The account has the address of the identity, which was confirmed, is linked to
    no identity, and is a stub or may be taken over. *)
Definition matching (e : Env) (d : Db) (u : OIDCAuthenticatedUser) (user : User) : Prop :=
  unlinked d u ∧ (∃ k, users d !! k = Some user) ∧ u_email user = str_to_lowercase e (oa_email u) ∧ sso_users d !! u_uuid user = None ∧
  (u_private_key user = None ∨ sso_signups_match_email (cfg e) = true) ∧ email_confirmed (cfg e) u.
Definition nobody (e : Env) (d : Db) (u : OIDCAuthenticatedUser) : Prop :=
  unlinked d u ∧ ∀ k user, users d !! k = Some user → u_email user ≠ str_to_lowercase e (oa_email u).

Lemma find_by_identifier_unlinked d u :
  (r ← first (λ r, bool_decide (su_identifier r = oa_identifier u) && bool_decide (is_Some (users d !! su_user_uuid r))) (sso_users d);
   x ← users d !! su_user_uuid r; Some (x, r)) = None → unlinked d u.
Proof.
  intros Hn user row ([k Hk] & Hi & Hu). destruct (first _ _) as [r|] eqn:Hf; simpl in Hn.
  - apply first_Some in Hf as [[_ Hs]%andb_true_iff _]. apply bool_decide_eq_true in Hs as [x Hx]. by rewrite Hx in Hn.
  - rewrite first_None in Hf. specialize (Hf k row Hk). rewrite Hi, Hu, !bool_decide_eq_true_2 in Hf by (done || by eexists). done.
Qed.
Lemma find_sso_account_Ok u e w o w' :
  find_sso_account u e w = (Ok o, w') →
  w' = w ∧ match o with
           | Some (user, Some row) => linked (db w) u user row
           | Some (user, None) => matching e (db w) u user
           | None => nobody e (db w) u
           end.
Proof.
  unfold find_sso_account, SsoUser_find_by_identifier, SsoUser_find_by_mail. intros H. ok_step H.
  destruct (_ ≫= _) as [[user row]|] eqn:Hl in H.
  { ok_inv H. split; [done|]. apply bind_Some in Hl as (r & Hf & (x & Hx & [= <- <-])%bind_Some).
    apply first_Some in Hf as [[Hi _]%andb_true_iff Hk]. by apply bool_decide_eq_true in Hi. }
  apply find_by_identifier_unlinked in Hl. ok_step H. ok_inv Hrun. ok_step H. ok_step H.
  destruct (first _ (users (db w))) as [user|] eqn:Hf; simpl in H.
  - destruct (sso_users (db w) !! u_uuid user) eqn:Hs; [done|]. destruct (_ && _) eqn:Hm; [done|].
    assert (email_confirmed (cfg e) u ∧ o = Some (user, None) ∧ w' = w) as (Hc & -> & ->).
    { unfold email_confirmed. destruct (oa_email_verified u) as [[]|]; [|done|destruct (sso_allow_unknown_email_verification _); [|done]]; injection H as <- <-; auto. }
    split; [done|]. apply first_Some in Hf as [He Hk]. apply bool_decide_eq_true in He. split_and!; try done.
    apply andb_false_iff in Hm as [Hm|Hm]; [left|right; by apply negb_false_iff in Hm].
    apply bool_decide_eq_false in Hm. destruct (u_private_key user); [by destruct Hm|done].
  - ok_inv H. split; [done|]. split; [done|]. intros k user Hk. rewrite first_None in Hf. specialize (Hf k user Hk).
    by apply bool_decide_eq_false in Hf.
Qed.

(** The second factor of [user], for a login with [data] *)
Definition second_factor (e : Env) (d : Db) (user : User) (data : ConnectData) : Prop :=
  user_factors (u_uuid user) (twofactor d) = [] ∨
  ∃ code device, cd_two_factor_token data = Some code ∧
    ((∃ id, cd_device_identifier data = Some id ∧ devices d !! (id, u_uuid user) = Some device) ∨ d_twofactor_remember device = None) ∧
    accepted svc e (factors d) user device data code.

Lemma check_second_factor_uuid user data device ip cv ids sel code tf e w user' w' :
  check_second_factor svc user data device ip cv ids sel code tf e w = (Ok user', w') → u_uuid user' = u_uuid user.
Proof.
  unfold check_second_factor. destruct (TwoFactorType_from_i32 sel) as [[]|]; intros H; try done; ok_inv H; try done.
  - destruct (remember_valid _ _ _ _ _ _); ok_inv H; [done|]. by apply ask_second_factor_not_Ok in H.
  - unfold User_save in H. ok_inv H. done.
Qed.
Lemma twofactor_auth_uuid user data device ip cv e w user' device' tok w' :
  twofactor_auth svc user data device ip cv e w = (Ok (user', device', tok), w') → u_uuid user' = u_uuid user.
Proof.
  unfold twofactor_auth. intros H. ok_step H. destruct (bool_decide _); [ok_step H; by injection H as <-|].
  do 6 ok_step H. apply check_second_factor_uuid in Hrun4. do 2 ok_step H.
  clear Hrun2. destruct (_ && _); [ok_step H; destruct a6 as [d t]|]; by injection H as <-.
Qed.
Lemma claim_stub_uuid user u e w user' w' : claim_stub user u e w = (Ok user', w') → u_uuid user' = u_uuid user.
Proof.
  unfold claim_stub, User_save. intros H. ok_step H. destruct (bool_decide _); ok_inv H; [|done]. by destruct (oa_user_name u).
Qed.

(** The answer carries an access token for the account [id]. *)
Definition issued_to (id : string) (j : Json) : Prop :=
  ∃ token fields claims, j = JObj (("access_token", JStr token) :: fields) ∧ encode_access svc claims = Some token ∧ lj_sub claims = id.
Lemma LoginJwtClaims_new_sub device user nbf exp scope client e w c w' :
  LoginJwtClaims_new svc device user nbf exp scope client e w = (Ok c, w') → lj_sub c = u_uuid user.
Proof. unfold LoginJwtClaims_new. intros H. by ok_inv H. Qed.
Lemma create_auth_tokens_sub device user client rt at_ ex e w t w' :
  create_auth_tokens svc device user client rt at_ ex e w = (Ok t, w') → lj_sub (access_claims t) = u_uuid user.
Proof.
  unfold create_auth_tokens, AuthTokens_new, LoginJwtClaims_default, create_auth_tokens_impl. intros H. ok_step H.
  destruct (sso_auth_only_not_session _).
  - do 2 ok_step H. do 2 ok_step Hrun. apply LoginJwtClaims_new_sub in Hrun. by ok_inv H.
  - do 3 ok_step H. destruct a0 as [n x]. ok_step H. apply LoginJwtClaims_new_sub in Hrun1. ok_step H. destruct a1 as [[]]. by ok_inv H.
Qed.
Lemma authenticated_response_issued user device tokens tok ip e w j w' :
  authenticated_response svc user device tokens tok ip e w = (Ok j, w') → lj_sub (access_claims tokens) = u_uuid user → issued_to (u_uuid user) j.
Proof.
  unfold authenticated_response. intros H Hsub. ok_inv H. eexists _, _, _. split; [done|]. by split.
Qed.

(** The rest of a login: the attempt is over, and the account is linked. *)
Lemma sso_login_finish_Ok x data ip e w j w' :
  sso_login_finish svc L x data ip e w = (Ok j, w') →
  issued_to (u_uuid (en_user x)) j ∧
  sso_tables (db w') = (delete (sa_state (en_sso_auth x)) (sso_auth (db w)),
    match en_sso_user x with
    | Some _ => sso_users (db w)
    | None => <[u_uuid (en_user x) := mkSsoUser (u_uuid (en_user x)) (oa_identifier (en_user_infos x))]>
                (delete_where (λ r, bool_decide (su_user_uuid r = u_uuid (en_user x)) ||
                                    bool_decide (su_identifier r = oa_identifier (en_user_infos x))) (sso_users (db w)))
    end).
Proof.
  unfold sso_login_finish, redeem, SsoAuth_delete. intros H. ok_step H. do 2 ok_step Hrun.
  pose proof (wp_run _ _ _ _ (apart_authenticated svc _ _ _ _ _ e _) _ _ H) as Ha.
  pose proof (wp_run _ _ _ _ (apart_tokens svc _ _ _ _ _ _ e _) _ _ Hrun) as Ht.
  apply create_auth_tokens_sub in Hrun as Hs. split; [by eapply authenticated_response_issued|].
  rewrite Ha, Ht. destruct (en_sso_user x); [by ok_inv Hrun0|]. unfold SsoUser_save in Hrun0. ok_step Hrun0.
  destruct (_ && _); ok_inv Hrun0. done.
Qed.
Lemma log_login_Ok user t ip (m : M Json) e w j w' :
  log_login user t ip m e w = (Ok j, w') → ∃ w1, m e w = (Ok j, w1) ∧ sso_tables (db w') = sso_tables (db w1).
Proof.
  unfold log_login. destruct (m e w) as [[j1|x|] w1]; intros H; [| |done].
  - exists w1. ok_step H. ok_inv H. split; [done|]. apply (wp_run _ _ _ _ (apart_log_user_event _ _ _ _ e w1) _ _ Hrun).
  - destruct (e_event x); [|done]. by ok_inv H.
Qed.

(** Whom the identity [u] is let in as: the account it is linked to; the account
    with its address; or a new one. *)
Definition domain_allowed (e : Env) (email : string) : Prop := ∀ w, is_email_domain_allowed email e w = (Ok true, w).
Inductive sso_entered (e : Env) (d : Db) (data : ConnectData) (u : OIDCAuthenticatedUser) : string → option SsoUser → Prop :=
  | entered_linked user row :
     linked d u user row → u_enabled user = true → second_factor e d user data → sso_entered e d data u (u_uuid user) (Some row)
  | entered_matching user :
     matching e d u user → u_enabled user = true → second_factor e d user data → sso_entered e d data u (u_uuid user) None
  | entered_new i : nobody e d u → domain_allowed e (oa_email u) → email_confirmed (cfg e) u → sso_entered e d data u (uuid_at e i) None.

Lemma domain_allowed_Ok email e w w' : is_email_domain_allowed email e w = (Ok true, w') → w' = w ∧ domain_allowed e email.
Proof.
  unfold domain_allowed, is_email_domain_allowed. destruct (rsplit_once _ _) as [[domain local]|]; [|done].
  destruct (_ || _); [done|]. cbv [mbind ask conf mret]. intros H. injection H as H <-. split; [done|]. intros w1. by rewrite H.
Qed.
Lemma create_sso_account_Ok data u e w user device w' :
  create_sso_account data u e w = (Ok (user, device), w') →
  domain_allowed e (oa_email u) ∧ email_confirmed (cfg e) u ∧ ∃ i, u_uuid user = uuid_at e i.
Proof.
  unfold create_sso_account, User_new. intros H. ok_step H. ok_step H. destruct a; [|done].
  apply domain_allowed_Ok in Hrun as [-> Hd]. split; [done|]. ok_inv Hrun0. do 2 ok_step H. split.
  { unfold email_confirmed. destruct (oa_email_verified u) as [[]|]; [by left|done|]. right.
    by destruct (sso_allow_unknown_email_verification _). }
  ok_inv H. exists (tick w0). injection H as <- _ _. unfold User_save in Hrun1. ok_inv Hrun1. unfold get_random_bytes in Hrun0. ok_inv Hrun0. done.
Qed.
Lemma enter_sso_account_Ok user data u ip cv e w user' device tok w' :
  twofactor_wf (twofactor (db w)) → enter_sso_account svc user data u ip cv e w = (Ok (user', device, tok), w') →
  u_uuid user' = u_uuid user ∧ second_factor e (db w) user data.
Proof.
  intros Hwf. unfold enter_sso_account. intros H. ok_step H. ok_step H. destruct a0 as [[user1 device1] tok1].
  apply twofactor_auth_uuid in Hrun0 as Hid1.
  assert (second_factor e (db w) user data) as Hsf.
  { enough (wp (get_device data user) e w (λ r w0, ∀ a, r = Ok a →
      implies_ok (second_factor e (db w) user data) (twofactor_auth svc user data a ip cv e w0).1 (twofactor_auth svc user data a ip cv e w0).2)) as Hwp.
    { apply (wp_run _ _ _ _ Hwp _ _ Hrun a eq_refl). rewrite Hrun0. by eexists. }
    apply wp_get_device; [|done]. intros dev w2 Hf Hd a0 [= <-].
    pose proof (f_equal fst Hf : twofactor (db w2) = twofactor (db w)) as Ht.
    eapply wp_mono; [apply (wp_twofactor_auth svc); by rewrite Ht|]. intros r w3 Hacc Hr. specialize (Hacc Hr). rewrite Ht, Hf in Hacc.
    destruct Hacc as [?|(c & Hc & Ha)]; [by left|right]. by exists c, dev. }
  ok_step H. apply claim_stub_uuid in Hrun1. ok_inv H. injection H as <- <- <-. split; [congruence|done].
Qed.

(** The attempts do not matter for who is let in. *)
Lemma sso_entered_ext e d d1 t data u id o : d1 = d <| sso_auth := t |> → sso_entered e d1 data u id o → sso_entered e d data u id o.
Proof.
  intros ->. destruct 1 as [user row H1 H2 H3|user H1 H2 H3|i H1 H2 H3];
    [exact (entered_linked e d data u user row H1 H2 H3)|exact (entered_matching e d data u user H1 H2 H3)|exact (entered_new e d data u i H1 H2 H3)].
Qed.
(** A login begins with the exchange of its code. *)
Lemma sso_login_entry_exchange data ip cv e w x w' :
  sso_login_entry svc L data ip cv e w = (Ok x, w') →
  ∃ code verifier w1 o, cd_code data = Some code ∧ cd_code_verifier data = Some verifier ∧
    exchange_code L code verifier e w = (Ok (en_sso_auth x, en_user_infos x), w1) ∧
    find_sso_account (en_user_infos x) e w1 = (Ok o, w1) ∧
    match o with
    | Some (user, sso_user) => u_enabled user = true ∧ en_sso_user x = sso_user ∧
       enter_sso_account svc user data (en_user_infos x) ip cv e w1 = (Ok (en_user x, en_device x, en_twofactor_token x), w')
    | None => en_sso_user x = None ∧ create_sso_account data (en_user_infos x) e w1 = (Ok (en_user x, en_device x), w')
    end.
Proof.
  unfold sso_login_entry, check_limit_login. intros H. do 2 ok_step H.
  assert (w1 = w) as ->.
  { unfold AuthMethod_check_scope in Hrun. destruct (cd_scope data); [|done]. destruct (bool_decide _); ok_inv Hrun.
    ok_step Hrun0. destruct (login_allowed e ip); by ok_inv Hrun0. }
  destruct (cd_code data) as [code|]; [|done]. destruct (cd_code_verifier data) as [verifier|]; [|done]. ok_step H. ok_step H.
  destruct a1 as [auth u]. ok_step H. pose proof Hrun2 as Hfind. apply find_sso_account_Ok in Hrun2 as [-> _].
  exists code, verifier, w1, a1. split; [done|]. split; [done|]. destruct a1 as [[user o]|].
  - destruct (u_enabled user) eqn:Hen; [|done]. ok_step H. destruct a1 as [[user1 device] tok]. by ok_inv H.
  - ok_step H. destruct a1 as [user device]. by ok_inv H.
Qed.
Lemma sso_login_entry_Ok data ip cv e w x w' :
  twofactor_wf (twofactor (db w)) → sso_login_entry svc L data ip cv e w = (Ok x, w') →
  ∃ code verifier row, cd_code data = Some code ∧ cd_code_verifier data = Some verifier ∧ open_attempt e (db w) code row ∧
    sa_state (en_sso_auth x) = sa_state row ∧
    (sa_auth_response row = Some (en_user_infos x) ∨
     (sa_auth_response row = None ∧ sa_code_response_error row = None ∧ vouched L e row code verifier (en_user_infos x))) ∧
    sso_entered e (db w) data (en_user_infos x) (u_uuid (en_user x)) (en_sso_user x).
Proof.
  intros Hwf (code & verifier & w1 & o & Hc & Hv & Hex & Ho & H)%sso_login_entry_exchange.
  apply exchange_code_Ok in Hex as (row & Hopen & Hst & Hcase). apply find_sso_account_Ok in Ho as [_ Ho].
  assert (∃ t, db w1 = (db w) <| sso_auth := t |>) as [t Hdb].
  { destruct Hcase as [(_ & _ & ->)|(_ & _ & _ & _ & ->)]; [exists (sso_auth (db w)); by destruct w as [[]]|by eexists]. }
  exists code, verifier, row. enough (sso_entered e (db w1) data (en_user_infos x) (u_uuid (en_user x)) (en_sso_user x)) as Hent.
  { split_and!; [done..| |by eapply sso_entered_ext]. destruct Hcase as [(? & _)|(? & ? & ? & _)]; [by left|by right]. }
  destruct o as [[user o]|].
  - destruct H as (Hen & -> & H). apply enter_sso_account_Ok in H as [-> Hsf]; [|by rewrite Hdb].
    destruct o; [by eapply entered_linked|by eapply entered_matching].
  - destruct H as [-> H]. apply create_sso_account_Ok in H as (H1 & H2 & i & ->). by apply entered_new.
Qed.

(** What a login that succeeds found and left *)
Lemma sso_login_Ok data device_type ip cv e w j w' :
  twofactor_wf (twofactor (db w)) →
  login_authorization_code svc L data device_type ip cv e w = (Ok j, w') →
  ∃ code verifier row u id link,
    cd_code data = Some code ∧ cd_code_verifier data = Some verifier ∧ open_attempt e (db w) code row ∧
    (sa_auth_response row = Some u ∨
     (sa_auth_response row = None ∧ sa_code_response_error row = None ∧ vouched L e row code verifier u)) ∧
    sso_entered e (db w) data u id link ∧ issued_to id j ∧
    sso_auth (db w') !! sa_state row = None ∧
    (link = None → sso_users (db w') !! id = Some (mkSsoUser id (oa_identifier u)) ∧
                   ∀ k r, sso_users (db w') !! k = Some r → su_identifier r = oa_identifier u → k = id).
Proof.
  intros Hwf H. unfold login_authorization_code, check_is_some in H. do 9 ok_step H.
  apply sso_login_entry_Ok in Hrun6 as (code & verifier & row & Hc & Hv & Hopen & Hst & Hid & Hent); [|done].
  apply log_login_Ok in H as (w2 & H & Htab). apply sso_login_finish_Ok in H as [Hiss Ht]. rewrite Ht in Htab. injection Htab as Ha Hu.
  exists code, verifier, row, (en_user_infos a6), (u_uuid (en_user a6)), (en_sso_user a6). split_and!; try done.
  - by rewrite Ha, Hst, lookup_delete_eq.
  - intros Hn. rewrite Hu, Hn. rewrite lookup_insert_eq. split; [done|]. intros k r [[-> _]|[_ Hr]]%lookup_insert_Some Hi; [done|].
    rewrite lookup_delete_where in Hr. apply bind_Some in Hr as (r1 & _ & Hr). destruct (_ || _) eqn:E; [done|]. injection Hr as ->.
    apply orb_false_iff in E as [_ E]. by apply bool_decide_eq_false in E.
Qed.
Lemma sso_login_open data device_type ip cv e w j w' code :
  cd_code data = Some code → login_authorization_code svc L data device_type ip cv e w = (Ok j, w') →
  ∃ k row, sso_auth (db w) !! k = Some row ∧ sa_code_response row = Some code ∧ sso_auth (db w') !! sa_state row = None.
Proof.
  intros Hc H. unfold login_authorization_code, check_is_some in H. do 9 ok_step H.
  apply log_login_Ok in H as (w2 & H & Htab). apply sso_login_finish_Ok in H as [_ Ht]. rewrite Ht in Htab. injection Htab as Ha _.
  apply sso_login_entry_exchange in Hrun6 as (code1 & v & w3 & o & Hc1 & _ & Hex & _). rewrite Hc in Hc1. injection Hc1 as <-.
  apply exchange_code_Ok in Hex as (row & ([k Hk] & Hcode & _) & Hst & _). exists k, row. split_and!; [done..|].
  by rewrite Ha, Hst, lookup_delete_eq.
Qed.
End login.

(** ** The way through the browser

    A run of the server as single sign-on sees it: logins begin, browsers return
    from the provider, codes are redeemed, old attempts are purged, and anything
    else happens that leaves the attempts alone. *)

Inductive SsoEvent :=
  | Began (t : Z) (data : AuthorizeData) (cookie : Cookie)
  | Returned (t : Z) (base64_state code : string) (error : option OIDCCodeResponseError) (cookie : option string)
  | Tried (e : Env) (data : ConnectData) (success : bool).
Definition succeeds {A} (r : res Error A) : bool := match r with Ok _ => true | _ => false end.

Section flow.
Context `{!Serde UserStampException id, !Serde DuoProviderData id, !Serde EmailTokenData id}.
Context (svc : Services) (L : OpenIdLib) `{!FactorsApart svc}.
(** The server's hexadecimal text and its address *)
Context (hex : bytes → string) (origin : string).

Definition this_server (e : Env) : Prop := encode_hexlower e = hex ∧ domain (cfg e) = origin.
Definition fingerprint (token : string) : string := hex (sha256 L (string_bytes token)).

Inductive sso_run : list SsoEvent → World → Prop :=
  | run_start w : sso_auth (db w) = ∅ → sso_run [] w
  | run_authorize h w e data secure url cookie w' :
     sso_run h w → this_server e → authorize L data secure e w = (Ok (url, cookie), w') → sso_run (Began (now e) data cookie :: h) w'
  | run_authorize_fails h w e data secure r w' :
     sso_run h w → this_server e → authorize L data secure e w = (r, w') → (∀ x, r ≠ Ok x) → sso_run h w'
  | run_signin h w e state code error cookie r w' :
     sso_run h w → this_server e → oidcsignin_redirect L state code error cookie e w = (r, w') →
     sso_run (Returned (now e) state code error cookie :: h) w'
  | run_login h w e data device_type ip cv r w' :
     sso_run h w → login_authorization_code svc L data device_type ip cv e w = (r, w') → sso_run (Tried e data (succeeds r) :: h) w'
  | run_purge h w e r w' : sso_run h w → SsoAuth_delete_expired e w = (r, w') → sso_run h w'
  | run_other h w w' : sso_run h w → sso_auth (db w') = sso_auth (db w) → sso_run h w'.

(** Where a browser may be sent back to: the web vault, an app, or a port of its
    own machine *)
Definition own_client (uri : string) : Prop :=
  uri = origin +:+ "/sso-connector.html" ∨ uri = "bitwarden://sso-callback" ∨
  ∃ port, uri = "http://localhost:" +:+ port ∧ String.length port = 4 ∧ forallb is_digit_char (chars port) = true.
(** A browser returned with [code] for the attempt, with a cookie of the fingerprint
    of the one given out when it began. *)
Definition returned_for (h : list SsoEvent) (r : SsoAuth) (cookie : Cookie) (code : string) : Prop :=
  ∃ t st vec err c, Returned t st code err (Some c) ∈ h ∧ base64_decode L st = Some vec ∧ string_of_chars vec = sa_state r ∧
    fingerprint c = fingerprint (ck_value cookie).
(** A login was tried with a code returned before for the attempt, and the provider
    vouched for [u] then. *)
Definition exchanged_for (h : list SsoEvent) (r : SsoAuth) (cookie : Cookie) (u : OIDCAuthenticatedUser) : Prop :=
  ∃ h1 h2 e data success code verifier, h = h1 ++ Tried e data success :: h2 ∧
    cd_code data = Some code ∧ cd_code_verifier data = Some verifier ∧ returned_for h2 r cookie code ∧ vouched L e r code verifier u.
(** A stored attempt is one that began; a code on it was brought by the browser
    that began, and an identity on it is one that the provider vouched for since. *)
Definition accounted (h : list SsoEvent) (r : SsoAuth) : Prop :=
  own_client (sa_redirect_uri r) ∧
  ∃ h1 h2 data cookie, h = h1 ++ Began (sa_created_at r) data cookie :: h2 ∧
    az_state data = sa_state r ∧ az_code_challenge data = sa_client_challenge r ∧
    sa_binding_hash r = Some (fingerprint (ck_value cookie)) ∧
    (∀ code, sa_code_response r = Some code → returned_for h1 r cookie code) ∧
    (∀ u, sa_auth_response r = Some u → exchanged_for h1 r cookie u).
Definition flow_inv (h : list SsoEvent) (w : World) : Prop :=
  ∀ k r, sso_auth (db w) !! k = Some r → k = sa_state r ∧ accounted h r.

Lemma returned_for_cons ev h r cookie code : returned_for h r cookie code → returned_for (ev :: h) r cookie code.
Proof. intros (t & st & vec & err & c & Hin & H). exists t, st, vec, err, c. split; [by right|done]. Qed.
Lemma exchanged_for_cons ev h r cookie u : exchanged_for h r cookie u → exchanged_for (ev :: h) r cookie u.
Proof.
  intros (h1 & h2 & e & data & b & code & verifier & -> & H). exists (ev :: h1), h2, e, data, b, code, verifier. by split.
Qed.
Lemma accounted_cons ev h r : accounted h r → accounted (ev :: h) r.
Proof.
  intros (Ho & h1 & h2 & data & cookie & -> & H1 & H2 & H3 & H4 & H5). split; [done|]. exists (ev :: h1), h2, data, cookie.
  split_and!; [done..| |]; intros; [by apply returned_for_cons, H4|by apply exchanged_for_cons, H5].
Qed.
(** What is said of an attempt does not depend on what changes about it. *)
Definition attempt_of (r : SsoAuth) :=
  (sa_state r, sa_client_challenge r, sa_nonce r, sa_redirect_uri r, sa_code_response r, sa_created_at r, sa_binding_hash r).
Lemma vouched_ext e r r0 code verifier u : sa_nonce r = sa_nonce r0 → sa_client_challenge r = sa_client_challenge r0 →
  vouched L e r code verifier u → vouched L e r0 code verifier u.
Proof. unfold vouched. intros -> ->. done. Qed.
Lemma exchanged_for_ext h r r0 cookie u :
  sa_state r = sa_state r0 → sa_nonce r = sa_nonce r0 → sa_client_challenge r = sa_client_challenge r0 →
  exchanged_for h r cookie u → exchanged_for h r0 cookie u.
Proof.
  intros E1 E2 E3 (h1 & h2 & e & data & b & code & verifier & -> & ? & ? & Hr & Hv). exists h1, h2, e, data, b, code, verifier.
  split_and!; [done..| |by eapply vouched_ext]. unfold returned_for in *. by rewrite <- E1.
Qed.
Lemma flow_inv_cons ev h w : flow_inv h w → flow_inv (ev :: h) w.
Proof. intros H k r Hk. destruct (H k r Hk) as [-> Ha]. split; [done|]. by apply accounted_cons. Qed.

Lemma redirect_own client raw e w r w' :
  this_server e → sso_redirect_uri client raw e w = (r, w') → w' = w ∧ ∀ uri, r = Ok uri → own_client uri.
Proof.
  intros [_ Hdom]. revert r w'. apply wp_run. unfold sso_redirect_uri, own_client. wp_go; (split; [done|]); intros uri [= <-]; rewrite ?Hdom; auto.
  right. right. unfold cli_port in Hm. apply bind_Some in Hm as (port & Hp & Hc). destruct (_ && _) eqn:E; [|done]. injection Hc as ->.
  apply andb_true_iff in E as [E1 E2]. apply bool_decide_eq_true in E1. eauto.
Qed.
Lemma keeps_Client_cached : keeps (λ d, d) (Client_cached L).
Proof. unfold Client_cached, Client_get_client, sso_issuer_url, sso_redirect_url. solve_keeps. Qed.

(** The attempt that a start stores *)
Definition stored_start (data : AuthorizeData) (e : Env) (w : World) (r : res Error (string * Cookie)) (w' : World) : Prop :=
  match r with
  | Ok (url, cookie) => ∃ row, sso_auth (db w') = <[sa_state row := row]> (sso_auth (db w)) ∧
     own_client (sa_redirect_uri row) ∧ sa_created_at row = now e ∧ az_state data = sa_state row ∧
     az_code_challenge data = sa_client_challenge row ∧ sa_binding_hash row = Some (fingerprint (ck_value cookie)) ∧
     sa_code_response row = None ∧ sa_auth_response row = None
  | _ => sso_auth (db w') = sso_auth (db w)
  end.
Lemma authorize_run data secure e w r w' :
  this_server e → authorize L data secure e w = (r, w') → stored_start data e w r w'.
Proof.
  intros Hs. revert r w'. apply wp_run. unfold authorize, encode_random_bytes, get_random_bytes, sha256_hex, authorize_url.
  wp_step. wp_step; [|done]. wp_go. apply wp_intro. intros r1 w1 Hr. apply redirect_own in Hr as [-> Hown]; [|done]. destruct r1 as [uri|x|]; [|done..].
  specialize (Hown uri eq_refl). wp_step. unfold Client_authorize_url, sso_scopes_vec. wp_go.
  apply (wp_keeps (λ d, d)); [apply keeps_Client_cached|]. intros [client|x|] w2 Hw2; simpl; [|by rewrite Hw2..].
  unfold sso_authorize_extra_params_vec, SsoAuth_new, SsoAuth_save, binding_path. wp_go. destruct Hs as [Hhex _].
  lazymatch goal with |- context [<[sa_state ?row := _]> _] => exists row end. simpl. unfold fingerprint. rewrite Hw2, Hhex. by split_and!.
Qed.

(** The attempt that a return from the provider stores *)
Lemma signin_run state code error cookie e w r w' :
  this_server e → oidcsignin_redirect L state code error cookie e w = (r, w') →
  sso_auth (db w') = sso_auth (db w) ∨
  ∃ k row c vec, sso_auth (db w) !! k = Some row ∧ cookie = Some c ∧ base64_decode L state = Some vec ∧ string_of_chars vec = sa_state row ∧
    sa_binding_hash row = Some (fingerprint c) ∧
    sso_auth (db w') = <[sa_state row := row <| sa_code_response := Some code |> <| sa_code_response_error := error |>
                                             <| sa_updated_at := now e |>]> (sso_auth (db w)).
Proof.
  intros [Hhex _]. revert r w'. apply wp_run. unfold oidcsignin_redirect, decode_state, SsoAuth_find, sso_oldest, sha256_hex, SsoAuth_save.
  wp_go; try (by left).
  all: right; apply first_Some in Ho1 as [[Hst _]%andb_true_iff [k Hk]]; apply bool_decide_eq_true in Hst; apply bool_decide_eq_true in Hc0;
    exists k, a1, a3, a; unfold fingerprint; rewrite <- Hhex, <- Hc0; done.
Qed.

Lemma reads_find_sso_account u : reads (find_sso_account u).
Proof.
  unfold find_sso_account, SsoUser_find_by_identifier, SsoUser_find_by_mail. solve_reads; repeat (case_match; try solve_reads).
Qed.
Lemma apart_enter user data u ip cv : keeps sso_tables (enter_sso_account svc user data u ip cv).
Proof.
  unfold enter_sso_account, claim_stub. apply keeps_bind; [apply apart_get_device|]. intros device.
  apply keeps_bind; [by apply apart_twofactor_auth|]. intros [[user1 device1] tok]. unfold User_save. solve_keeps.
Qed.
Lemma apart_create data u : keeps sso_tables (create_sso_account data u).
Proof.
  unfold create_sso_account, User_new, get_random_bytes, User_save. solve_keeps. apply apart_get_device.
Qed.

(** What a login does to the attempts: it ends some, and keeps an answer of the
    provider with others. *)
Section settling.
Context (e : Env) (data : ConnectData).
(** The provider vouches for [u] now, for the code of the login. *)
Definition exchanged (r : SsoAuth) (u : OIDCAuthenticatedUser) : Prop :=
  ∃ code verifier, cd_code data = Some code ∧ cd_code_verifier data = Some verifier ∧ sa_code_response r = Some code ∧
    vouched L e r code verifier u.
Definition settles (w w' : World) : Prop :=
  ∀ k r, sso_auth (db w') !! k = Some r →
    ∃ k0 r0, sso_auth (db w) !! k0 = Some r0 ∧ attempt_of r = attempt_of r0 ∧ (k = k0 ∨ k = sa_state r0) ∧
      (sa_auth_response r = sa_auth_response r0 ∨ ∃ u, sa_auth_response r = Some u ∧ exchanged r0 u).
Lemma exchanged_ext r r0 u : attempt_of r = attempt_of r0 → exchanged r u → exchanged r0 u.
Proof.
  intros E (code & verifier & ? & ? & ? & Hv). unfold attempt_of in E. exists code, verifier. split_and!; [done..|congruence|].
  eapply vouched_ext, Hv; congruence.
Qed.
Lemma settles_subset w w' : sso_auth (db w') ⊆ sso_auth (db w) → settles w w'.
Proof. intros Hs k r Hk. exists k, r. split_and!; auto. by eapply lookup_weaken. Qed.
Lemma settles_same w w' : sso_auth (db w') = sso_auth (db w) → settles w w'.
Proof. intros E. apply settles_subset. by rewrite E. Qed.
#[local] Instance settles_rel : WorldRel settles.
Proof.
  split; [split; [intros w; by apply settles_same|]|intros; by apply settles_same..].
  intros w1 w2 w3 H12 H23 k r Hk. destruct (H23 k r Hk) as (k1 & r1 & Hk1 & E1 & Hd1 & Hr1).
  destruct (H12 k1 r1 Hk1) as (k0 & r0 & Hk0 & E0 & Hd0 & Hr0). exists k0, r0. split; [done|]. split; [congruence|].
  assert (sa_state r1 = sa_state r0) as Es by (unfold attempt_of in E0; congruence). split.
  - destruct Hd1 as [->| ->]; [done|]. rewrite Es. by right.
  - destruct Hr1 as [Hr1|(u & Hu & He)]; [by rewrite Hr1|]. right. exists u. split; [done|]. by eapply exchanged_ext.
Qed.
Lemma within_apart {A} (m : M A) : keeps sso_tables m → within settles m.
Proof. intros Hm e' w. eapply wp_mono; [apply Hm|]. intros r w' [= E _]. by apply settles_same. Qed.
Lemma within_delete row : within settles (SsoAuth_delete row).
Proof. apply within_exec. intros w. apply settles_subset. simpl. apply delete_subseteq. Qed.
Lemma within_link b row : within settles (SsoUser_save b row).
Proof.
  unfold SsoUser_save. apply within_bind; [apply within_reads; solve_reads|]. intros o. destruct (_ && _); [apply within_reads; solve_reads|].
  apply within_exec. intros w. by apply settles_same.
Qed.
Lemma settles_log user t ip (m : M Json) : within settles m → within settles (log_login user t ip m).
Proof.
  intros Hm e' w. specialize (Hm e' w). unfold wp, log_login in *. destruct (m e' w) as [[j|x|] w1]; simpl in *; [| |done].
  - etrans; [exact Hm|]. refine (within_bind (R := settles) _ _ _ _ e' w1); [apply within_apart, apart_log_user_event|solve_within].
  - destruct (e_event x); [|done]. etrans; [exact Hm|].
    refine (within_bind (R := settles) _ _ _ _ e' w1); [apply within_apart, apart_log_user_event|solve_within].
Qed.
Lemma keeps_exchange_code client code verifier row : keeps (λ d, d) (Client_exchange_code L client code verifier row).
Proof. unfold Client_exchange_code, vw_id_token_verifier. solve_keeps. Qed.
(** An exchange that fails stores no answer. *)
Lemma exchange_fails code verifier w :
  wp (exchange_code L code verifier) e w (λ r w', (∀ x, r ≠ Ok x) → sso_auth (db w') ⊆ sso_auth (db w)).
Proof.
  unfold exchange_code, SsoAuth_find_by_code, sso_oldest. do 5 wp_step. wp_step; [|by intros _]. do 4 wp_step. wp_step; [|by intros _]. rename a0 into row.
  do 2 wp_step; [by intros _|]. unfold returned_code.
  assert (∀ msg, wp (do* SsoAuth_delete row in err msg : M string) e w (λ r w', sso_auth (db w') ⊆ sso_auth (db w) ∧ ∀ a, r ≠ Ok a)) as Hdel.
  { intros msg. split; [|done]. simpl. apply delete_subseteq. }
  apply wp_bind. destruct (sa_code_response row) as [code1|]; destruct (sa_code_response_error row);
    try (eapply wp_mono; [apply Hdel|]; intros [a0|x|] w1 [Hs Hn]; [by destruct (Hn a0)|by intros _..]).
  do 2 wp_step. apply wp_bind, (wp_keeps (λ d, d)); [apply keeps_Client_cached|]. intros [client|x|] w1 Hw1; [|intros _; by rewrite Hw1..].
  wp_step. apply wp_bind, (wp_keeps (λ d, d)); [apply keeps_exchange_code|]. intros [[resp claims]|x|] w2 Hw2; [|intros _; by rewrite Hw2, Hw1..].
  unfold Client_user_info, authenticated_user, SsoAuth_save. wp_step. rewrite Hw1 in Hw2. wp_go; try (intros _; simpl; by rewrite Hw2).
  intros Hn. exfalso. by eapply Hn.
Qed.
Lemma settles_exchange code verifier w :
  cd_code data = Some code → cd_code_verifier data = Some verifier → wp (exchange_code L code verifier) e w (λ _ w', settles w w').
Proof.
  intros Hc Hv. apply wp_intro. intros r w' Hrun. destruct r as [[row' u]|x|].
  2,3: apply settles_subset, (wp_run _ _ _ _ (exchange_fails code verifier w) _ _ Hrun); done.
  apply exchange_code_Ok in Hrun as (row & ([k Hk] & Hcode & _) & _ & [(_ & _ & ->)|(_ & _ & Hvou & -> & E)]); [by apply settles_same|].
  intros k' r. rewrite E. simpl. intros [[<- <-]|[_ Hr]]%lookup_insert_Some; [|exists k', r; auto]. exists k, row.
  split_and!; [done..|by right|]. right. exists u. split; [done|]. by exists code, verifier.
Qed.
Lemma settles_bind {A B} (m : M A) (k : A → M B) w :
  wp m e w (λ _ w', settles w w') → (∀ x w1, m e w = (Ok x, w1) → wp (k x) e w1 (λ _ w', settles w1 w')) →
  wp (mbind m k) e w (λ _ w', settles w w').
Proof.
  intros Hm Hk. apply wp_bind, wp_intro. intros r w1 Hrun. pose proof (wp_run _ _ _ _ Hm _ _ Hrun) as H1. destruct r as [x|x|]; simpl; [|done..].
  eapply wp_mono; [by apply Hk|]. intros r w2 H2. by etrans.
Qed.
Lemma settles_entry ip cv w : wp (sso_login_entry svc L data ip cv) e w (λ _ w', settles w w').
Proof.
  unfold sso_login_entry, check_limit_login, AuthMethod_check_scope.
  apply settles_bind; [by apply wp_reads; [solve_reads|intros; apply settles_same]|]. intros _ w1 _.
  apply settles_bind; [by apply wp_reads; [solve_reads|intros; apply settles_same]|]. intros _ w2 _.
  destruct (cd_code data) as [code|] eqn:Hc; [|by apply settles_same]. destruct (cd_code_verifier data) as [verifier|] eqn:Hv; [|by apply settles_same].
  apply settles_bind; [by apply settles_same|]. intros ? ? [= <- <-]. apply settles_bind; [by apply settles_exchange|]. intros [auth u] w3 _.
  apply (within_bind (R := settles)); [apply within_reads, reads_find_sso_account|]. intros o. solve_within; apply within_apart.
  - apply apart_enter.
  - apply apart_create.
Qed.
Lemma settles_login device_type ip cv w : wp (login_authorization_code svc L data device_type ip cv) e w (λ _ w', settles w w').
Proof.
  unfold login_authorization_code, check_is_some.
  do 8 (apply settles_bind; [by apply wp_reads; [solve_reads|intros; apply settles_same]|]; intros ? ? _).
  apply settles_bind; [apply settles_entry|]. intros entry w9 _. apply settles_log. unfold sso_login_finish, redeem.
  solve_within; [apply within_delete|apply within_link|apply within_apart, apart_tokens|apply within_apart, apart_authenticated].
Qed.
End settling.

Lemma settles_inv e data b h w w' : settles e data w w' → flow_inv h w → flow_inv (Tried e data b :: h) w'.
Proof.
  intros Hs Hi k r Hk. destruct (Hs k r Hk) as (k0 & r0 & Hk0 & E & Hd & Hr).
  destruct (Hi k0 r0 Hk0) as [-> (Ho & h1 & h2 & begun & cookie & -> & H1 & H2 & H3 & H4 & H5)].
  unfold attempt_of in E. injection E as E1 E2 E3 E4 E5 E6 E7. split; [rewrite E1; by destruct Hd|].
  split; [by rewrite E4|]. exists (Tried e data b :: h1), h2, begun, cookie. rewrite E1, E2, E6, E7. split_and!; [done..| |].
  - intros code Hc. apply returned_for_cons. rewrite E5 in Hc. unfold returned_for. rewrite E1. by apply H4.
  - intros u Hu. apply (exchanged_for_ext _ r0); [done..|]. destruct Hr as [Hr|(u1 & Hu1 & (code & verifier & ? & ? & Hc & Hv))].
    + apply exchanged_for_cons, H5. congruence.
    + exists [], h1, e, data, b, code, verifier. split_and!; try done; [by apply H4|]. congruence.
Qed.
Lemma flow_inv_subset h w w' : sso_auth (db w') ⊆ sso_auth (db w) → flow_inv h w → flow_inv h w'.
Proof. intros Hs Hi k r Hk. apply Hi. by eapply lookup_weaken. Qed.
Lemma purge_subset e w r w' : SsoAuth_delete_expired e w = (r, w') → sso_auth (db w') ⊆ sso_auth (db w).
Proof.
  revert r w'. apply wp_run. unfold SsoAuth_delete_expired, sso_oldest. wp_go; [|done]. apply map_subseteq_spec. intros k r Hk. simpl in Hk.
  rewrite lookup_delete_where in Hk. apply bind_Some in Hk as (r0 & Hk & Hr). destruct (_ <? _)%Z; [done|]. by injection Hr as ->.
Qed.
(** Everything stored about attempts is accounted for by what happened. *)
Lemma run_inv h w : sso_run h w → flow_inv h w.
Proof.
  induction 1 as [w E|h w e data secure url cookie w' _ IH Hs Hrun|h w e data secure r w' _ IH Hs Hrun Hr|h w e state code error cookie r w' _ IH Hs Hrun
                 |h w e data dt ip cv r w' _ IH Hrun|h w e r w' _ IH Hrun|h w w' _ IH E].
  - intros k r Hk. by rewrite E in Hk.
  - apply authorize_run in Hrun as (row & E & H1 & H2 & H3 & H4 & H5 & H6 & H7); [|done]. intros k r Hk. rewrite E in Hk.
    apply lookup_insert_Some in Hk as [[<- <-]|[_ Hk]]; [|exact (flow_inv_cons _ h w IH k r Hk)].
    split; [done|]. split; [done|]. exists [], h, data, cookie. rewrite H2, H6, H7. by split_and!.
  - apply authorize_run in Hrun; [|done]. destruct r as [x|x|]; [by destruct (Hr x)|..]; (apply (flow_inv_subset h w); [by rewrite Hrun|exact IH]).
  - apply signin_run in Hrun as [E|(k0 & row & c & vec & Hk0 & -> & Hd & Hv & Hb & E)]; [| |done]; intros k r1 Hk; rewrite E in Hk.
    { exact (flow_inv_cons _ h w IH k r1 Hk). }
    apply lookup_insert_Some in Hk as [[<- <-]|[_ Hk]]; [|exact (flow_inv_cons _ h w IH k r1 Hk)].
    split; [done|]. destruct (IH k0 row Hk0) as [_ (Ho & h1 & h2 & data & ck & -> & H1 & H2 & H3 & _ & H5)]. split; [done|].
    exists (Returned (now e) state code error (Some c) :: h1), h2, data, ck. split_and!; try done.
    + intros code1 [= <-]. exists (now e), state, vec, error, c. split_and!; [by left|done..|]. rewrite Hb in H3. by injection H3.
    + intros u Hu. apply exchanged_for_cons, (exchanged_for_ext _ row); [done..|]. by apply H5.
  - eapply settles_inv, IH. apply (wp_run _ _ _ _ (settles_login e data dt ip cv w) _ _ Hrun).
  - eapply flow_inv_subset, IH. by eapply purge_subset.
  - eapply flow_inv_subset, IH. by rewrite E.
Qed.

(** C14: only the browser that began a login can complete it.  When a code is redeemed
    after any run of the server, some login began at most ten minutes ago and its
    browser was given a cookie; later a browser with a cookie of the same
    fingerprint returned with this code for the state of that login, and it was
    sent on to the web vault, the app or a local port, nowhere else. *)
Theorem sso_flow_bound h w data device_type ip cv e j w' :
  sso_run h w → twofactor_wf (twofactor (db w)) →
  login_authorization_code svc L data device_type ip cv e w = (Ok j, w') →
  ∃ code row h1 h2 begun cookie t st vec err c,
    cd_code data = Some code ∧ open_attempt e (db w) code row ∧ own_client (sa_redirect_uri row) ∧
    h = h1 ++ Began (sa_created_at row) begun cookie :: h2 ∧ (now e - minutes 10 ≤ sa_created_at row)%Z ∧
    az_state begun = sa_state row ∧ az_code_challenge begun = sa_client_challenge row ∧
    Returned t st code err (Some c) ∈ h1 ∧ base64_decode L st = Some vec ∧ string_of_chars vec = az_state begun ∧
    fingerprint c = fingerprint (ck_value cookie).
Proof.
  intros Hrun Hwf Hlog. unfold login_authorization_code, check_is_some in Hlog. do 9 ok_step Hlog.
  apply sso_login_entry_Ok in Hrun7 as (code & verifier & row & Hc & _ & Hopen & _); [|done]. pose proof Hopen as ([k Hk] & Hcode & Ht).
  destruct (run_inv _ _ Hrun k row Hk) as [_ (Ho & h1 & h2 & begun & cookie & -> & H1 & H2 & _ & H4 & _)].
  destruct (H4 code Hcode) as (t & st & vec & err & c & Hin & Hd & Hv & Hf).
  exists code, row, h1, h2, begun, cookie, t, st, vec, err, c. split_and!; try done. congruence.
Qed.

(** C13: what a login by single sign-on requires and does.  If it succeeds, the code
    was returned, by the browser that began, for an attempt that began at most ten
    minutes ago.  The identity is the one the configured provider vouches for with
    this code, the verifier of the client and the nonce of the attempt; or one it
    vouched for at an earlier login of the same attempt, with the code and verifier
    sent then, the code returned before by the browser that began.  The tokens are
    for the account linked to the identity, or an account that is linked to none and
    has its confirmed address, or a new one with an address nobody has; an existing
    account is enabled and its second factor was given.  In the end the attempt is
    gone, and the account is linked to the identity. *)
Theorem sso_login_sound h w data device_type ip cv e j w' :
  sso_run h w → twofactor_wf (twofactor (db w)) →
  login_authorization_code svc L data device_type ip cv e w = (Ok j, w') →
  ∃ code verifier row u id link h1 h2 begun cookie,
    cd_code data = Some code ∧ cd_code_verifier data = Some verifier ∧ open_attempt e (db w) code row ∧
    h = h1 ++ Began (sa_created_at row) begun cookie :: h2 ∧ az_state begun = sa_state row ∧
    az_code_challenge begun = sa_client_challenge row ∧ returned_for h1 row cookie code ∧
    (vouched L e row code verifier u ∧ sa_code_response_error row = None ∨ exchanged_for h1 row cookie u) ∧
    sso_entered svc e (db w) data u id link ∧ issued_to svc id j ∧
    sso_auth (db w') !! sa_state row = None ∧
    (link = None → sso_users (db w') !! id = Some (mkSsoUser id (oa_identifier u)) ∧
                   ∀ k r, sso_users (db w') !! k = Some r → su_identifier r = oa_identifier u → k = id).
Proof.
  intros Hrun Hwf Hlog.
  apply sso_login_Ok in Hlog as (code & verifier & row & u & id & link & Hc & Hv & Hopen & Hid & Hent & Hiss & Hgone & Hlink); [|done].
  pose proof Hopen as ([k Hk] & Hcode & _).
  destruct (run_inv _ _ Hrun k row Hk) as [_ (_ & h1 & h2 & begun & cookie & -> & H1 & H2 & _ & H4 & H5)].
  exists code, verifier, row, u, id, link, h1, h2, begun, cookie. split_and!; try done; [by apply H4|].
  destruct Hid as [Hu|(_ & He & Hvou)]; [right; by apply H5|by left].
Qed.

(** *** Codes and attempts are spent *)

(** A return with [code] and the cookie of a login that began before, for its state *)
Definition began_by (h : list SsoEvent) (st c : string) : bool :=
  existsb (λ ev, match ev with
                 | Began _ data ck => bool_decide (string_of_chars <$> base64_decode L st = Some (az_state data)) &&
                                      bool_decide (fingerprint c = fingerprint (ck_value ck))
                 | _ => false
                 end) h.
Fixpoint returns (code : string) (h : list SsoEvent) : nat :=
  match h with
  | [] => 0
  | Returned _ st code' _ (Some c) :: h => (if bool_decide (code' = code) && began_by h st c then 1 else 0) + returns code h
  | _ :: h => returns code h
  end.
(** Logins with [code] that succeeded *)
Fixpoint logins (code : string) (h : list SsoEvent) : nat :=
  match h with
  | [] => 0
  | Tried _ data true :: h => (if bool_decide (cd_code data = Some code) then 1 else 0) + logins code h
  | _ :: h => logins code h
  end.
Fixpoint beginnings (h : list SsoEvent) : nat :=
  match h with [] => 0 | Began _ _ _ :: h => S (beginnings h) | _ :: h => beginnings h end.
Fixpoint completions (h : list SsoEvent) : nat :=
  match h with [] => 0 | Tried _ _ true :: h => S (completions h) | _ :: h => completions h end.

Lemma began_by_intro h1 h2 t data ck st c vec :
  base64_decode L st = Some vec → string_of_chars vec = az_state data → fingerprint c = fingerprint (ck_value ck) →
  began_by (h1 ++ Began t data ck :: h2) st c = true.
Proof.
  intros Hd Hs Hf. apply existsb_exists. exists (Began t data ck). split; [apply in_or_app; right; by left|].
  rewrite Hd. simpl. by rewrite !bool_decide_eq_true_2 by (done || congruence).
Qed.

(** The keys of the attempts that hold [code], and of all *)
Definition holders (w : World) (code : string) : gset string :=
  dom (filter (λ kr, sa_code_response kr.2 = Some code) (sso_auth (db w))).
Abbreviation attempts w := (dom (sso_auth (db w)) : gset string).
Lemma elem_of_holders w code k : k ∈ holders w code ↔ ∃ r, sso_auth (db w) !! k = Some r ∧ sa_code_response r = Some code.
Proof. unfold holders. rewrite elem_of_dom. unfold is_Some. by setoid_rewrite map_lookup_filter_Some. Qed.
Lemma holders_subset w w' code : sso_auth (db w') ⊆ sso_auth (db w) → holders w' code ⊆ holders w code ∧ attempts w' ⊆ attempts w.
Proof.
  intros Hs. split; [|by apply subseteq_dom]. intros k (r & Hk & Hc)%elem_of_holders. apply elem_of_holders. exists r.
  split; [by eapply lookup_weaken|done].
Qed.
Lemma holders_settles e data h w w' code :
  flow_inv h w → settles e data w w' → holders w' code ⊆ holders w code ∧ attempts w' ⊆ attempts w.
Proof.
  intros Hi Hs. assert (∀ k r, sso_auth (db w') !! k = Some r → ∃ r0, sso_auth (db w) !! k = Some r0 ∧ sa_code_response r = sa_code_response r0) as H.
  { intros k r Hk. destruct (Hs k r Hk) as (k0 & r0 & Hk0 & E & Hd & _). exists r0. destruct (Hi k0 r0 Hk0) as [-> _].
    unfold attempt_of in E. injection E as _ _ _ _ E _ _. by destruct Hd as [->| ->]. }
  split; intros k.
  - intros (r & Hk & Hc)%elem_of_holders. destruct (H k r Hk) as (r0 & Hr0 & E). apply elem_of_holders. exists r0. split; congruence.
  - intros [r Hk]%elem_of_dom. destruct (H k r Hk) as (r0 & Hr0 & _). by apply elem_of_dom.
Qed.
Lemma size_spent (X Y : gset string) k : X ⊆ Y → k ∈ Y → k ∉ X → S (size X) ≤ size Y.
Proof. intros HX Hk Hn. apply (subset_size X Y). set_solver. Qed.
(** A login that succeeds spends an attempt, which held its code. *)
Lemma login_spends h w data device_type ip cv e j w' :
  flow_inv h w → login_authorization_code svc L data device_type ip cv e w = (Ok j, w') →
  ∃ code k, cd_code data = Some code ∧ k ∈ holders w code ∧ k ∈ attempts w ∧ k ∉ attempts w'.
Proof.
  intros Hi H. assert (∃ code, cd_code data = Some code) as [code Hc].
  { unfold login_authorization_code, check_is_some in H. do 9 ok_step H. apply sso_login_entry_exchange in Hrun6 as (code & _ & _ & _ & Hc & _).
    by exists code. }
  destruct (sso_login_open svc L _ _ _ _ _ _ _ _ _ Hc H) as (k & row & Hk & Hcode & Hgone). exists code, k.
  split_and!; [done|apply elem_of_holders; by exists row|by apply elem_of_dom|]. destruct (Hi k row Hk) as [-> _]. by apply not_elem_of_dom.
Qed.
Definition balanced (code : string) (h : list SsoEvent) (w : World) : Prop :=
  size (holders w code) + logins code h ≤ returns code h ∧ size (attempts w) + completions h ≤ beginnings h.
Lemma balanced_login code h w data device_type ip cv e r w' :
  flow_inv h w → login_authorization_code svc L data device_type ip cv e w = (r, w') → balanced code h w →
  balanced code (Tried e data (succeeds r) :: h) w'.
Proof.
  intros Hi H [H1 H2]. pose proof (wp_run _ _ _ _ (settles_login e data device_type ip cv w) _ _ H) as Hs.
  destruct (holders_settles _ _ _ _ _ code Hi Hs) as [Hh Ha]. apply subseteq_size in Hh as Hh', Ha as Ha'.
  destruct r as [j|x|]; simpl; [|split; simpl; lia..].
  destruct (login_spends _ _ _ _ _ _ _ _ _ Hi H) as (code' & k & Hc & Hk & Hka & Hn).
  pose proof (size_spent _ _ k Ha Hka Hn). split; simpl; [|lia]. rewrite Hc. case_bool_decide as E; [|lia]. injection E as ->.
  assert (k ∉ holders w' code) as Hkn; [|pose proof (size_spent _ _ k Hh Hk Hkn); lia].
  intros (r & Hr & _)%elem_of_holders. apply Hn. by apply elem_of_dom.
Qed.
Lemma balanced_return code h w e state code' error cookie r w' :
  flow_inv h w → this_server e → oidcsignin_redirect L state code' error cookie e w = (r, w') → balanced code h w →
  balanced code (Returned (now e) state code' error cookie :: h) w'.
Proof.
  intros Hi Hs Hrun [H1 H2]. apply signin_run in Hrun as [E|(k & row & c & vec & Hk & -> & Hd & Hv & Hb & E)]; [| |done].
  { unfold balanced, holders in *. rewrite E. split; simpl; [|lia]. destruct cookie; lia. }
  destruct (Hi k row Hk) as [-> (_ & h1 & h2 & data & ck & -> & Hst & _ & Hck & _)]. unfold balanced. rewrite E. split; simpl.
  - rewrite (began_by_intro _ _ _ _ _ _ _ _ Hd) by congruence. rewrite andb_true_r.
    assert (holders w' code ⊆ if bool_decide (code' = code) then {[sa_state row]} ∪ holders w code else holders w code) as Hsub.
    { intros k (r1 & Hr & Hc)%elem_of_holders. rewrite E in Hr. apply lookup_insert_Some in Hr as [[<- <-]|[_ Hr]].
      - simpl in Hc. injection Hc as ->. rewrite bool_decide_eq_true_2 by done. set_solver.
      - assert (k ∈ holders w code) by (apply elem_of_holders; eauto). case_bool_decide; set_solver. }
    apply subseteq_size in Hsub. case_bool_decide; [|lia]. rewrite size_union_alt, size_singleton in Hsub.
    assert (size (holders w code ∖ {[sa_state row]}) ≤ size (holders w code)) by (apply subseteq_size; set_solver). lia.
  - rewrite dom_insert_lookup_L by by eexists. lia.
Qed.
Lemma balanced_start code h w data secure e url cookie w' :
  this_server e → authorize L data secure e w = (Ok (url, cookie), w') → balanced code h w →
  balanced code (Began (now e) data cookie :: h) w'.
Proof.
  intros Hs Hrun [H1 H2]. apply authorize_run in Hrun as (row & E & _ & _ & _ & _ & _ & Hn & _); [|done]. unfold balanced. rewrite E. split; simpl.
  - assert (holders w' code ⊆ holders w code) as Hsub%subseteq_size; [|lia].
    intros k (r & Hr & Hc)%elem_of_holders. rewrite E in Hr. apply lookup_insert_Some in Hr as [[<- <-]|[_ Hr]]; [congruence|].
    apply elem_of_holders. eauto.
  - rewrite dom_insert_L, size_union_alt, size_singleton.
    assert (size (attempts w ∖ {[sa_state row]}) ≤ size (attempts w)) by (apply subseteq_size; set_solver). lia.
Qed.
Lemma balanced_subset code h w w' : sso_auth (db w') ⊆ sso_auth (db w) → balanced code h w → balanced code h w'.
Proof.
  intros Hs [H1 H2]. destruct (holders_subset _ _ code Hs) as [Hh%subseteq_size Ha%subseteq_size]. split; lia.
Qed.

(** C15: a code is good for one login.  In any run of the server, whatever the
    clients send in whichever order and whatever the provider answers, the logins
    that succeed with a code are no more than the returns with it that came from a
    browser which had begun a login for that state; and no more logins succeed
    than began. *)
Theorem sso_code_once h w code :
  sso_run h w → logins code h ≤ returns code h ∧ completions h ≤ beginnings h.
Proof.
  intros Hrun. enough (balanced code h w) as [H1 H2] by (split; lia).
  induction Hrun as [w E|h w e data secure url cookie w' _ IH Hs H|h w e data secure r w' _ IH Hs H Hr|h w e state code' error cookie r w' Hh IH Hs H
                    |h w e data dt ip cv r w' Hh IH H|h w e r w' _ IH H|h w w' _ IH E].
  - unfold balanced, holders. rewrite E. split; [|by rewrite dom_empty_L, size_empty]. by rewrite map_filter_empty, dom_empty_L, size_empty.
  - by eapply balanced_start.
  - apply authorize_run in H; [|done]. destruct r as [x|x|]; [by destruct (Hr x)|..]; (eapply balanced_subset, IH; by rewrite H).
  - eapply balanced_return; [by apply run_inv|done..].
  - eapply balanced_login; [by apply run_inv|done..].
  - by eapply balanced_subset; [eapply purge_subset|].
  - eapply balanced_subset, IH. by rewrite E.
Qed.
End flow.

(** ** Codes are spent, identities are kept *)

Section once.
Context `{!Serde UserStampException id, !Serde DuoProviderData id, !Serde EmailTokenData id}.
Context (svc : Services) (L : OpenIdLib) `{!FactorsApart svc}.

Definition attempts_keyed (d : Db) : Prop := ∀ k r, sso_auth d !! k = Some r → k = sa_state r.
(** At most one attempt got [code]. *)
Definition code_single (d : Db) (code : string) : Prop :=
  ∀ k1 k2 r1 r2, sso_auth d !! k1 = Some r1 → sso_auth d !! k2 = Some r2 → sa_code_response r1 = Some code →
    sa_code_response r2 = Some code → k1 = k2.

(** The identity is kept for the second factor: while the attempt lasts, a further
    exchange of the code returns it again, without a call to the provider; the
    verifier is not looked at. *)
Theorem exchange_code_again code verifier verifier2 e e2 w row u w' :
  attempts_keyed (db w) → code_single (db w) code → exchange_code L code verifier e w = (Ok (row, u), w') →
  in_range (timestamp (now e2 - SSO_AUTH_EXPIRATION)) = true → (now e2 - SSO_AUTH_EXPIRATION ≤ sa_created_at row)%Z →
  exchange_code L code verifier2 e2 w' = (Ok (row, u), w').
Proof.
  intros Hkey Hone Hrun Hrange Hage. apply exchange_code_Ok in Hrun as (row0 & ([k Hk] & Hcode & _) & Hst & Hcase).
  assert (sso_auth (db w') !! sa_state row0 = Some row ∧ sa_auth_response row = Some u ∧ sa_code_response row = Some code ∧
    ∀ k1 r1, sso_auth (db w') !! k1 = Some r1 → sa_code_response r1 = Some code → r1 = row) as (Hk' & Hu & Hc' & Hun).
  { destruct Hcase as [(Hu & -> & ->)|(_ & _ & _ & -> & Hdb)].
    - rewrite (Hkey k row0 Hk) in Hk. split_and!; try done. intros k1 r1 Hk1 Hc1.
      assert (k1 = sa_state row0) as -> by (by apply (Hone k1 (sa_state row0) r1 row0)). congruence.
    - rewrite Hdb. simpl. rewrite lookup_insert_eq. split_and!; try done. intros k1 r1 [[_ <-]|[Hne Hk1]]%lookup_insert_Some Hc1; [done|].
      destruct Hne. rewrite <- (Hkey k row0 Hk). by apply (Hone k k1 row0 r1). }
  unfold exchange_code, SsoAuth_find_by_code, sso_oldest, mbind, ask, mexpect, checked_add_signed, query.
  rewrite Z.add_opp_r, Hrange. cbv [mret]. rewrite (first_unique _ _ (sa_state row0) row).
  - cbv [some_or_err mret]. by rewrite Hu.
  - done.
  - rewrite bool_decide_eq_true_2 by done. by apply Z.leb_le.
  - intros k1 r1 Hk1 [Hc1 _]%andb_true_iff. apply bool_decide_eq_true in Hc1. eauto.
Qed.
End once.

(** ** The modelled factors leave single sign-on alone *)

Section external_apart.
Context `{!Serde UserStampException id, !Serde DuoProviderData id, !Serde EmailTokenData id, !Serde YubikeyMetadata id, !Serde DuoData id}.
Context (W : WebauthnLib) `{!Serde (list (WebauthnRegistration W)) id}.
Context (verify_async : nat → option string → string → string → string → bool).
Context (hmac_sha1 : bytes → bytes → bytes) (base64_encode : bytes → string) (base64_decode : string → option bytes).
Context (duo_akey : string) (D : DuoLib) (base : Services).

Lemma apart_duo_keys email : keeps sso_tables (get_duo_keys_email duo_akey email).
Proof.
  unfold get_duo_keys_email, User_find_by_mail, get_user_duo_data, TwoFactor_find_by_user_and_type, DuoData_global. solve_keeps.
Qed.
Lemma apart_random_string alphabet n : keeps sso_tables (get_random_string alphabet n).
Proof. induction n as [|n IH]; simpl; solve_keeps. Qed.
#[local] Hint Resolve apart_duo_keys apart_random_string : frame.
Lemma apart_parse_duo key val ikey prefix t : keeps sso_tables (parse_duo_values hmac_sha1 base64_decode key val ikey prefix t).
Proof.
  unfold parse_duo_values. repeat (case_match; try solve_keeps).
Qed.
Lemma apart_health client : keeps sso_tables (health_check D client).
Proof.
  unfold health_check, signed_assertion, new_client_assertion, get_random_string_alphanum. solve_keeps. by case_match; solve_keeps.
Qed.
Lemma apart_exchange client code name nonce : keeps sso_tables (exchange_authz_code_for_result D client code name nonce).
Proof. unfold exchange_authz_code_for_result, signed_assertion, new_client_assertion, get_random_string_alphanum. solve_keeps. Qed.
#[local] Hint Resolve apart_parse_duo apart_health apart_exchange : frame.
Lemma apart_recast {A} (m : M A) msg : keeps sso_tables m → keeps sso_tables (λ e w,
  match m e w with (Ok _, w) => (Ok tt, w) | (Err _, w) => err_2fa msg e w | (Panic, w) => (Panic, w) end).
Proof. intros Hm e w. specialize (Hm e w). unfold wp in *. by destruct (m e w) as [[]]. Qed.
Lemma apart_map_res {A} (m : M A) msg : keeps sso_tables m → keeps sso_tables (map_res m msg).
Proof. intros Hm e w. specialize (Hm e w). unfold wp, map_res in *. by destruct (m e w) as [[]]. Qed.
Lemma apart_duo_oidc m c i d : keeps sso_tables (DuoFactor.duo_validate_oidc duo_akey D m c i d).
Proof.
  unfold DuoFactor.duo_validate_oidc, extract_context, TwoFactorDuoContext_find_by_state, TwoFactorDuoContext_delete, make_callback_url.
  repeat (case_match; try (solve_keeps; apply apart_recast; auto with frame)).
Qed.
#[export] Instance external_apart :
  FactorsApart (external_services W verify_async hmac_sha1 base64_encode base64_decode duo_akey D base).
Proof.
  split; simpl; intros.
  - unfold SecurityKeys.validate_webauthn_login, TwoFactor_find_by_user_and_type, TwoFactor_delete, get_webauthn_registrations,
      check_and_update_backup_eligible, TwoFactor_new, TwoFactor_save. solve_keeps.
  - unfold SecurityKeys.generate_webauthn_login, get_webauthn_registrations, TwoFactor_find_by_user_and_type, TwoFactor_new, TwoFactor_save. solve_keeps.
  - unfold SecurityKeys.validate_yubikey_login, verify_yubikey_otp, get_yubico_credentials. solve_keeps. apply apart_map_res. solve_keeps.
  - unfold DuoFactor.duo_validate_iframe. repeat (case_match; try solve_keeps).
  - apply apart_duo_oidc.
  - unfold generate_duo_signature. solve_keeps.
  - unfold get_duo_auth_url, make_callback_url, get_random_string_alphanum, TwoFactorDuoContext_save, make_authz_req_url. solve_keeps.
Qed.
End external_apart.

(** ** Identities and accounts are linked one to one *)

Definition links_ok (d : Db) : Prop :=
  (∀ k r, sso_users d !! k = Some r → su_user_uuid r = k) ∧
  (∀ k1 k2 r1 r2, sso_users d !! k1 = Some r1 → sso_users d !! k2 = Some r2 → su_identifier r1 = su_identifier r2 → k1 = k2).
Definition link_rel (w w' : World) : Prop := links_ok (db w) → links_ok (db w').
#[export] Instance link_rel_world : WorldRel link_rel.
Proof. split; [split|..]; unfold link_rel; [by intros w|by intros w1 w2 w3 H1 H2 H%H1%H2|done..]. Qed.

Section links.
Context `{!Serde UserStampException id, !Serde DuoProviderData id, !Serde EmailTokenData id}.
Context (svc : Services) (L : OpenIdLib) `{!FactorsApart svc}.

Lemma links_same {A} (m : M A) : keeps sso_users m → within link_rel m.
Proof. intros Hm e w. eapply wp_mono; [apply Hm|]. intros r w' E. unfold link_rel, links_ok. by rewrite E. Qed.
Lemma links_apart {A} (m : M A) : keeps sso_tables m → within link_rel m.
Proof. intros Hm. apply links_same. intros e w. eapply wp_mono; [apply Hm|]. by intros r w' [= _ E]. Qed.
Lemma links_save b row : within link_rel (SsoUser_save b row).
Proof.
  unfold SsoUser_save. apply within_bind; [apply within_reads; solve_reads|]. intros o. destruct (_ && _); [apply within_reads; solve_reads|].
  apply within_exec. intros w [Hk Hi]. assert (∀ k r, delete_where (λ r, bool_decide (su_user_uuid r = su_user_uuid row) ||
      bool_decide (su_identifier r = su_identifier row)) (sso_users (db w)) !! k = Some r →
    sso_users (db w) !! k = Some r ∧ su_identifier r ≠ su_identifier row) as Hd.
  { intros k r Hr. rewrite lookup_delete_where in Hr. apply bind_Some in Hr as (r1 & Hr1 & Hr). destruct (_ || _) eqn:E; [done|].
    injection Hr as ->. apply orb_false_iff in E as [_ E]. by apply bool_decide_eq_false in E. }
  split; simpl.
  - intros k r [[<- <-]|[_ Hr]]%lookup_insert_Some; [done|]. apply Hd in Hr as [Hr _]. by apply Hk.
  - intros k1 k2 r1 r2 [[<- <-]|[_ H1]]%lookup_insert_Some [[<- <-]|[_ H2]]%lookup_insert_Some E; [done|..].
    + by apply Hd in H2 as [_ []].
    + by apply Hd in H1 as [_ []].
    + apply Hd in H1 as [H1 _]. apply Hd in H2 as [H2 _]. by apply (Hi k1 k2 r1 r2).
Qed.
Lemma links_log user t ip (m : M Json) : within link_rel m → within link_rel (log_login user t ip m).
Proof.
  intros Hm e w. specialize (Hm e w). unfold wp, log_login in *. destruct (m e w) as [[j|x|] w1]; simpl in *; [| |done].
  - etrans; [exact Hm|]. refine (within_bind (R := link_rel) _ _ _ _ e w1); [apply links_apart, apart_log_user_event|solve_within].
  - destruct (e_event x); [|done]. etrans; [exact Hm|].
    refine (within_bind (R := link_rel) _ _ _ _ e w1); [apply links_apart, apart_log_user_event|solve_within].
Qed.
Lemma keeps_links_exchange code verifier : keeps sso_users (exchange_code L code verifier).
Proof.
  unfold exchange_code, SsoAuth_find_by_code, sso_oldest, returned_code, SsoAuth_delete, SsoAuth_save, Client_cached, Client_get_client,
    sso_issuer_url, sso_redirect_url, Client_exchange_code, vw_id_token_verifier, Client_user_info, authenticated_user.
  solve_keeps.
Qed.

(** Every identity is linked to at most one account and every account to at most
    one identity, and no login by single sign-on, successful or not, and no
    removal of a link changes that. *)
Theorem sso_links_one_to_one data device_type ip cv user_id e w :
  links_ok (db w) →
  links_ok (db (login_authorization_code svc L data device_type ip cv e w).2) ∧ links_ok (db (SsoUser_delete user_id e w).2).
Proof.
  intros Hw. split.
  - revert Hw. change (link_rel w (login_authorization_code svc L data device_type ip cv e w).2). revert e w.
    change (within link_rel (login_authorization_code svc L data device_type ip cv)).
    unfold login_authorization_code, sso_login_entry, check_is_some, check_limit_login, AuthMethod_check_scope. solve_within.
    + apply links_same, keeps_links_exchange.
    + apply within_reads, reads_find_sso_account.
    + by apply links_apart, apart_enter.
    + apply links_apart, apart_create.
    + apply links_log. unfold sso_login_finish, redeem, SsoAuth_delete. solve_within; [|apply links_save| |].
      * by apply links_same, keeps_exec.
      * apply links_apart, apart_tokens.
      * apply links_apart, apart_authenticated.
  - destruct Hw as [Hk Hi]. split; simpl.
    + intros k r [_ Hr]%lookup_delete_Some. by apply Hk.
    + intros k1 k2 r1 r2 [_ H1]%lookup_delete_Some [_ H2]%lookup_delete_Some. by apply Hi.
Qed.
End links.

(** ** Sessions of the provider *)

(** Services with the provider behind the refreshing of sessions *)
Definition with_provider (L : OpenIdLib) (base : Services) : Services := {|
  Login.validate_webauthn_login := Login.validate_webauthn_login base; Login.generate_webauthn_login := Login.generate_webauthn_login base;
  Login.validate_yubikey_login := Login.validate_yubikey_login base; Login.yubikey_nfc := Login.yubikey_nfc base;
  Login.duo_validate_iframe := Login.duo_validate_iframe base; Login.duo_validate_oidc := Login.duo_validate_oidc base;
  duo_signature := duo_signature base; duo_auth_url := duo_auth_url base;
  login_issuer := login_issuer base; remember_issuer := remember_issuer base; org_api_key_issuer := org_api_key_issuer base;
  encode_access := encode_access base; encode_refresh := encode_refresh base; encode_remember := encode_remember base;
  decode_2fa_remember := decode_2fa_remember base; decode_login := decode_login base; decode_refresh := decode_refresh base;
  encode_org_api := encode_org_api base; decode_validation := decode_validation base; decode_basic := decode_basic base;
  sso_exchange_refresh_token := Client_exchange_refresh_token L; sso_check_validity := Client_check_validity L;
  version_at_least_2025_5 := version_at_least_2025_5 base; push_relay_accepts := push_relay_accepts base |}.

Section provider_sessions.
Context `{!Serde UserStampException id} (L : OpenIdLib) (base : Services).

(** The provider still stands by the token of a session. *)
Definition provider_stands (e : Env) (claims : RefreshJwtClaims) : Prop :=
  match rj_token claims with
  | Some (Refresh rt) =>
     (∃ r, refresh_cache L (now e) rt = Some (inl r)) ∨
     ∃ i client resp, trusted_client L e client ∧ refresh_request L i client rt = Some resp
  | Some (Access token) =>
     (timestamp (now e + seconds 300) ≤ rj_exp claims)%Z ∧
     ∃ i client info, trusted_client L e client ∧ user_info_request L i client token = Some info
  | None => False
  end.
Lemma exchange_refresh_stands device user client claims e w t w' :
  exchange_refresh_token (with_provider L base) device user client claims e w = (Ok t, w') → provider_stands e claims.
Proof.
  unfold exchange_refresh_token, provider_stands. destruct (rj_token claims) as [[token|rt]|]; [| |done]; intros H.
  - ok_step H. ok_step H. unfold now_plus in Hrun. ok_inv Hrun. do 2 ok_step H.
    unfold checked_add_signed, try_seconds in *. destruct (_ <=? _)%Z eqn:E in Hrun0; [|done]. injection Hrun0 as <-.
    destruct (in_range _); [|done]. injection Hrun as <-. apply negb_true_iff, Z.ltb_ge in Hrun1. split; [exact Hrun1|].
    simpl in Hrun2. unfold Client_check_validity in Hrun2. ok_step Hrun2. apply Client_cached_Ok in Hrun as [_ Htr].
    unfold Client_user_info, map_res, mbind, next, mret, some_or_err in Hrun2.
    destruct (user_info_request L (tick w1) a token) as [info|] eqn:Hi; [|done]. by exists (tick w1), a, info.
  - ok_step H. simpl in Hrun. unfold Client_exchange_refresh_token, Client_exchange_refresh_token_impl in Hrun. ok_step Hrun.
    apply Client_cached_Ok in Hrun0 as [_ Htr]. ok_step Hrun. ok_step Hrun. destruct (refresh_cache L (now e) rt) as [[r|msg]|]; [left; eauto|by ok_inv Hrun0; simplify_eq|].
    right. ok_inv Hrun0. destruct (refresh_request L (tick w1) a0 rt) as [resp|] eqn:Hi; [|done]. by exists (tick w1), a0, resp.
Qed.

(** A session of the provider lasts as long as the provider stands by it: tokens
    are refreshed only while single sign-on is enabled, and if the provider renews
    the token the session holds, or answers for it and it is not about to expire. *)
Theorem sso_session_follows_provider token client e w device t w' claims :
  decode_refresh base (now e) token = Some claims → rj_sub claims = Sso → sso_auth_only_not_session (cfg e) = false →
  refresh_tokens (with_provider L base) token client e w = (Ok (device, t), w') →
  sso_enabled (cfg e) = true ∧ provider_stands e claims.
Proof.
  intros Hd Hs Hnot H. unfold refresh_tokens, refresh_claims_of in H. simpl in H. ok_step H. rewrite Hd in H. simpl in H.
  do 6 ok_step H. ok_step H. rewrite Hs in Hrun4. destruct (sso_enabled (cfg e)); [|done]. rewrite Hnot in Hrun4.
  split; [done|]. by apply exchange_refresh_stands in Hrun4.
Qed.
End provider_sessions.

(** ** Witnesses *)

Module ToySso.
Import ToyEnv ToyUsers ToyTwoFactor ToyCodes ToyLogin.

(** A provider that knows one code, and answers with the nonce it was asked for. *)
Definition toy_openid : OpenIdLib := {|
  Metadata := string; issuer_url_new := Some; redirect_url_new := Some; http_client_builds := true;
  discover := λ _ url, Some url; metadata_token_uri := λ m, Some (m +:+ "/token"); metadata_user_info_url := λ m, Some (m +:+ "/info");
  new_nonce := λ _, "nonce"; authorize_link := λ _ state _ _ _, "https://provider/?state=" +:+ state;
  code_challenge_of := λ v, v;
  token_request := λ _ _ code verifier, if bool_decide (code = "code") && bool_decide (verifier = Some "verifier")
                                        then Some (mkTokenResponse "at" None (Some (seconds 3600)) (Some "nonce")) else None;
  refresh_request := λ _ _ _, None;
  id_token_claims := λ _ _ _ token nonce, if bool_decide (token = nonce)
                                          then Some (mkIdTokenClaims "https://provider" "42" (Some "alice@example.org") (Some true) (Some "Alice")) else None;
  user_info_request := λ _ _ _, Some (mkUserInfoClaims None None None); regex_new := λ _, None; client_cache := λ _, None;
  refresh_cache := λ _ _, None; form_urlencoded_parse := λ _, []; url_parse := Some; append_pairs := λ url _, url; sha256 := λ b, b;
  base64_encode := string_of_chars; base64_decode := λ s, Some (chars s); encode_ssotoken := λ c, Some (st_sub c); link_replaces := true |}.
#[export] Instance toy_apart : FactorsApart toy_services.
Proof. split; intros; solve_keeps. Qed.
Definition sso_env (t : Z) : Env := (toy_env t) <| cfg := (cfg (toy_env t)) <| sso_enabled := true |> |>.
Definition toy_authorize : AuthorizeData := mkAuthorizeData "web" "" "state" "verifier" "S256".
Definition begun : res Error (string * Cookie) * World := authorize toy_openid toy_authorize true (sso_env (seconds 100)) toy_world.
Definition toy_cookie : option Cookie := match begun.1 with Ok (_, c) => Some c | _ => None end.
Definition returned : res Error string * World :=
  oidcsignin_redirect toy_openid "state" "code" None (ck_value <$> toy_cookie) (sso_env (seconds 200)) begun.2.
(** Alice redeems the code. *)
Definition toy_redeem : ConnectData :=
  mkConnectData None (Some "web") None None (Some "api offline_access") None (Some "d1") (Some "phone") (Some "9") None None None None
    (Some "code") (Some "verifier").
End ToySso.
Import ToyEnv ToyUsers ToyTwoFactor ToyCodes ToyLogin ToySso.

Definition toy_attempt : option SsoAuth := sso_auth (db returned.2) !! "state".
Lemma returned_row k r : sso_auth (db returned.2) !! k = Some r → k = "state" ∧ Some r = toy_attempt.
Proof.
  assert (sso_auth (db returned.2) = from_option (λ r, {["state" := r]}) ∅ toy_attempt) as -> by (vm_compute; reflexivity).
  destruct toy_attempt as [r0|]; simpl; [|done]. intros [-> ->]%lookup_singleton_Some. done.
Qed.
Lemma returned_keyed : attempts_keyed (db returned.2).
Proof. intros k r [-> Hr]%returned_row. vm_compute in Hr. by injection Hr as ->. Qed.
Lemma returned_single code : code_single (db returned.2) code.
Proof. by intros k1 k2 r1 r2 [-> _]%returned_row [-> _]%returned_row. Qed.
Lemma returned_wf : twofactor_wf (twofactor (db returned.2)).
Proof.
  assert (twofactor (db returned.2) = ∅) as -> by (vm_compute; reflexivity). split; [by intros k r|by intros k1 k2 r1 r2].
Qed.

Abbreviation toy_login := (login_authorization_code toy_services toy_openid toy_redeem 9 "ip" None (sso_env (seconds 300)) returned.2).
Lemma toy_login_runs : ∃ j w', toy_login = (Ok j, w').
Proof.
  assert (∃ j, toy_login.1 = Ok j) as [j Hj] by (vm_compute; by eexists). exists j, toy_login.2.
  destruct toy_login as [r w']. cbn [fst] in Hj. by rewrite Hj.
Qed.

Definition toy_history : list SsoEvent :=
  [Returned (seconds 200) "state" "code" None (ck_value <$> toy_cookie);
   Began (seconds 100) toy_authorize (default (mkCookie "" "" "" 0 Lax true true) toy_cookie)].
Lemma toy_run : sso_run toy_services toy_openid (encode_hexlower (toy_env 0)) "https://vault.example" toy_history returned.2.
Proof.
  eapply (run_signin _ _ _ _ _ begun.2 (sso_env (seconds 200))); [|by split|apply surjective_pairing].
  eapply (run_authorize _ _ _ _ [] toy_world (sso_env (seconds 100)) toy_authorize true); [by apply run_start|by split|vm_compute; reflexivity].
Qed.
Lemma sso_flow_bound_witness :
  ∃ h1 h2 t begun cookie t' st err c, toy_history = h1 ++ Began t begun cookie :: h2 ∧ Returned t' st "code" err (Some c) ∈ h1 ∧
    fingerprint toy_openid (encode_hexlower (toy_env 0)) c = fingerprint toy_openid (encode_hexlower (toy_env 0)) (ck_value cookie).
Proof.
  destruct toy_login_runs as (j & w' & Hlog).
  destruct (sso_flow_bound toy_services toy_openid (encode_hexlower (toy_env 0)) "https://vault.example" toy_history returned.2
    toy_redeem 9 "ip" None (sso_env (seconds 300)) j w' toy_run returned_wf Hlog)
    as (code & row & h1 & h2 & b & ck & t & st & vec & err & c & Hc & _ & _ & E & _ & _ & _ & Hin & _ & _ & Hf).
  injection Hc as <-. exists h1, h2, (sa_created_at row), b, ck, t, st, err, c. exact (conj E (conj Hin Hf)).
Defined.

(** The identity is one that the provider vouches for with the code of the run. *)
Lemma sso_login_sound_witness :
  ∃ j w', toy_login = (Ok j, w') ∧ ∃ row u id link,
    open_attempt (sso_env (seconds 300)) (db returned.2) "code" row ∧
    vouched toy_openid (sso_env (seconds 300)) row "code" "verifier" u ∧
    sso_entered toy_services (sso_env (seconds 300)) (db returned.2) toy_redeem u id link ∧
    issued_to toy_services id j ∧ sso_auth (db w') !! sa_state row = None.
Proof.
  destruct toy_login_runs as (j & w' & E). exists j, w'. split; [exact E|].
  destruct (sso_login_sound toy_services toy_openid (encode_hexlower (toy_env 0)) "https://vault.example" toy_history returned.2
    toy_redeem 9 "ip" None (sso_env (seconds 300)) j w' toy_run returned_wf E)
    as (code & verifier & row & u & id & link & h1 & h2 & b & ck & Hc & Hv & Ho & Hh & _ & _ & _ & Hid & He & Hi & Hg & _).
  injection Hc as <-. injection Hv as <-. exists row, u, id, link. refine (conj Ho (conj _ (conj He (conj Hi Hg)))).
  destruct Hid as [[Hid _]|(h3 & h4 & e0 & data0 & b0 & _ & _ & -> & _)]; [exact Hid|]. exfalso.
  assert (Tried e0 data0 b0 ∈ toy_history) as Hin.
  { rewrite Hh. apply elem_of_app. left. apply elem_of_app. right. constructor. }
  unfold toy_history in Hin. apply elem_of_cons in Hin as [Hin|Hin]; [discriminate Hin|].
  apply elem_of_cons in Hin as [Hin|Hin]; [discriminate Hin|]. by apply elem_of_nil in Hin.
Defined.

(** The code is redeemed, and again in a client of another name. *)
Abbreviation toy_again :=
  (login_authorization_code toy_services toy_openid toy_redeem 9 "elsewhere" None (sso_env (seconds 301)) toy_login.2).
Definition toy_spent : list SsoEvent :=
  Tried (sso_env (seconds 301)) toy_redeem (succeeds toy_again.1) :: Tried (sso_env (seconds 300)) toy_redeem (succeeds toy_login.1) :: toy_history.
Lemma toy_spent_run : sso_run toy_services toy_openid (encode_hexlower (toy_env 0)) "https://vault.example" toy_spent toy_again.2.
Proof.
  eapply (run_login _ _ _ _ _ toy_login.2); [|apply surjective_pairing]. eapply (run_login _ _ _ _ _ returned.2); [|apply surjective_pairing].
  exact toy_run.
Qed.
Lemma sso_code_once_witness :
  logins "code" toy_spent = 1 ∧ returns toy_openid (encode_hexlower (toy_env 0)) "code" toy_spent = 1 ∧
  logins "code" toy_spent ≤ returns toy_openid (encode_hexlower (toy_env 0)) "code" toy_spent ∧
  completions toy_spent ≤ beginnings toy_spent.
Proof.
  split; [vm_compute; reflexivity|]. split; [vm_compute; reflexivity|].
  exact (sso_code_once toy_services toy_openid (encode_hexlower (toy_env 0)) "https://vault.example" toy_spent toy_again.2 "code" toy_spent_run).
Defined.
(** The right verifier, then a wrong one *)
Abbreviation toy_exchange := (exchange_code toy_openid "code" "verifier" (sso_env (seconds 300)) returned.2).
Lemma exchange_code_again_witness :
  ∃ row u, toy_exchange = (Ok (row, u), toy_exchange.2) ∧
    exchange_code toy_openid "code" "wrong" (sso_env (seconds 301)) toy_exchange.2 = (Ok (row, u), toy_exchange.2) ∧
    (exchange_code toy_openid "code" "wrong" (sso_env (seconds 300)) returned.2).1 = Err (new_msg "Failed to contact token endpoint").
Proof.
  eexists _, _. split; [vm_compute; reflexivity|]. split; [|vm_compute; reflexivity].
  eapply (exchange_code_again toy_openid "code" "verifier" "wrong" (sso_env (seconds 300)) (sso_env (seconds 301)) returned.2);
    [apply returned_keyed|apply returned_single|vm_compute; reflexivity|vm_compute; reflexivity|vm_compute; discriminate].
Defined.
(** A code that was never exchanged.  After the exchange of its code, the browser
    returns once more for the same attempt, with another code: the attempt takes
    the new code and keeps the identity, which a login with the new code then gets,
    whatever the verifier, although the provider would not take the code. *)
Example returned_code_not_exchanged :
  (∀ i client verifier, token_request toy_openid i client "other" verifier = None) ∧
  ∃ row row' u url w',
    toy_exchange = (Ok (row, u), toy_exchange.2) ∧
    oidcsignin_redirect toy_openid "state" "other" None (ck_value <$> toy_cookie) (sso_env (seconds 301)) toy_exchange.2 = (Ok url, w') ∧
    exchange_code toy_openid "other" "wrong" (sso_env (seconds 302)) w' = (Ok (row', u), w').
Proof.
  split; [done|]. eexists _, _, _, _, _. split; [vm_compute; reflexivity|]. split; [vm_compute; reflexivity|]. vm_compute. reflexivity.
Qed.
Lemma sso_links_one_to_one_witness : links_ok (db toy_login.2) ∧ links_ok (db (SsoUser_delete "alice" (sso_env 0) returned.2).2).
Proof.
  assert (links_ok (db returned.2)) as Hw.
  { assert (sso_users (db returned.2) = ∅) as E by (vm_compute; reflexivity). split; rewrite E; [by intros k r|by intros k1 k2 r1 r2]. }
  split; [apply (sso_links_one_to_one toy_services toy_openid toy_redeem 9 "ip" None "alice" (sso_env (seconds 300)) returned.2 Hw)
         |apply (sso_links_one_to_one toy_services toy_openid toy_redeem 9 "ip" None "alice" (sso_env 0) returned.2 Hw)].
Defined.

(** A refusal is not logged: the account becomes known to the log only after the
    second factor, so that the event attached to an earlier refusal is lost.  A
    password login of the same disabled account is logged. *)
Definition disabled_world : World := returned.2 <| db := (db returned.2)
  <| users := <["alice" := (toy_user "alice") <| u_enabled := false |>]> (users (db returned.2)) |> |>.
Example sso_refusal_unlogged :
  (∃ w', login_authorization_code toy_services toy_openid toy_redeem 9 "ip" None (sso_env (seconds 300)) disabled_world
     = (Err (with_event UserFailedLogIn (new_msg "This user has been disabled")), w') ∧ events (db w') = ∅) ∧
  (∃ w', login_password toy_services (toy_connect "10") 9 "ip" None (sso_env (seconds 300)) disabled_world
     = (Err (with_event UserFailedLogIn (new_msg "This user has been disabled")), w') ∧ events (db w') ≠ ∅).
Proof. split; eexists; (split; [vm_compute; reflexivity|]); vm_compute; [reflexivity|discriminate]. Qed.
